(* ===== verification/_CoqProject ===== *)
-Q . S2P
Prelude.v
PhysMem.v
PageTable.v
Heap.v
Message.v
Channel.v
Capability.v
Scheduler.v
Elf.v
DeviceTree.v
Links.v
Routing.v
Checksum.v
Packet.v
Firewall.v
Arp.v
Nat.v
Net.v
Udp.v
Tcp.v
Rx.v
Socket.v
Wire.v
Dhcp.v
Dns.v
NetControl.v
Vfs.v
Block.v
AegisFs.v
Integrity.v
Update.v
Installer.v
Initramfs.v
Storage.v
ConfigFs.v
LogFs.v
FdTable.v
Supervisor.v
Services.v
Userland.v
FirstProcess.v
ServiceIpc.v
Process.v
Entropy.v
Syscall.v
SyscallSafety.v
