(* ===== verification/Prelude.v ===== *)
(** * AegisOS: a verification of the kernel, the network stack and the file systems

    AegisOS is an operating system for ARM64 routers, written in C.  This
    library is a shallow embedding of the parts of it that compute: the C
    functions are Rocq functions on explicit states, and the theorems are about
    those functions.  Paths below are relative to the source tree; definitions
    keep the names of the C functions.

    ** The system and its model

    Memory.  [PhysMem] is the page frame allocator
    (kernel/memory/physical_memory.c), [PageTable] the four-level page tables
    and the range operations on them (kernel/memory/page_tables.c,
    virtual_memory.c), [Heap] the kernel heap (kernel/memory/heap.c).  The page
    tables take their frames from any allocator of the class [PageAllocator],
    which the frame allocator implements.

    Communication and authority.  [Message] and [Channel] are the message queues
    and the named channels on top of them (kernel/ipc/message.c, channel.c),
    [Capability] the table of capability tokens (kernel/ipc/capability.c).

    Execution.  [Scheduler] is the task list and the choice of the next task
    (kernel/core/scheduler.c), over any heap of the class [KernelHeap]; [Elf]
    validates program images and loads them into the slots of the runtime pool
    (kernel/core/elf_loader.c); [FdTable] is the descriptor table
    (kernel/core/fd_table.c) and [Process] the process table
    (kernel/core/process.c).  What processes use of the rest of the kernel is
    the class [ProcEnv]; its instance [kernel_env] is built from the models of the
    scheduler, the heap, the loader, the file system switch, the descriptor and
    socket tables, the supervisor and the userland catalogue.

    Services.  [Services] is the manager of kernel services with its dependency
    graph (kernel/core/service_manager.c), [Supervisor] the restart policy of user
    services (kernel/core/service_supervisor.c, with the fault decoding of
    exception.c), [Userland] the catalogue of programs, their address layouts and
    descriptors (kernel/core/userland.c).

    System calls.  [Syscall] is the dispatcher with its 33 handlers
    (kernel/core/syscall.c, syscall_table.c, power.c, the clock of rtc.c), a
    composition of nearly all the models above in a state monad; [Entropy] is the
    random number source (kernel/core/entropy.c).  [SyscallSafety] proves what
    holds of every call.

    Network.  [Packet] is the pool of packet buffers (net/packet.c), [Checksum]
    the internet checksum in its variants, [Links] the linked lists that
    routing.c, firewall.c and packet.c thread through arrays; [Routing],
    [Firewall], [Arp] and [Nat] are the tables of net/routing.c, firewall.c,
    arp.c and nat.c.  [Net] holds the state of the whole stack and the transmit
    side (net/ethernet.c, arp.c, ipv4.c over hal/drivers/ethernet/ethernet.c),
    [Udp] and [Tcp] the transports (net/udp.c, tcp.c), [Rx] the receive side
    with ICMP and IPv6 and the poll loop (net/icmp.c, ipv6.c, socket.c).
    [Socket] is the handle table of processes over both transports
    (net/socket.c); [Wire] composes two whole hosts.  [Dhcp] and [Dns] are the
    clients of net/dhcp.c and net/dns.c, [NetControl] the control plane of
    net/network_control.c, which brings the network up by composing the DHCP
    client with the routing table, the filter and the address translation.

    Storage.  [Vfs] is the file system switch (fs/vfs.c), [Initramfs] the
    archive mounted at boot (fs/initramfs.c), [Block] the block devices and
    partitions (kernel/core/block_storage.c), [AegisFs] the persistent file
    system (fs/aegisfs.c) and [Integrity] what its checksum guarantees,
    [ConfigFs] and [LogFs] the configuration store and the log (fs/configfs.c,
    fs/logfs.c) on the interface [Storage] (hal/include/storage.h).  A driver is
    anything that satisfies [SectorDriver]; a partition promises [PartitionIO] to
    the file system on it, and the theorems of [AegisFs] are proved against that
    interface only.

    ** Conventions

    A C value of a w-bit unsigned type is an integer of [Z] in range; every
    operation that can overflow is wrapped explicitly ([u8] to [u64], [s32] for
    int).  Pointers into a pool or table are indices, pointers into the heap or
    into RAM are addresses, NULL is [None] or 0 as the code tests it.  A struct is
    a record, assigned to with [r <| f := v |>].  A function that can access
    memory outside its object, call PANIC or fail to terminate has an [option]
    result, and [None] means that this happened; a theorem whose conclusion is
    [Some] is therefore a memory-safety and termination statement.  A C string is
    the [string] before its terminator, except where stale bytes behind the
    terminator matter ([AegisFs], [LogFs]), where it is the byte array.

    Loops over arrays are the combinators of this file ([find_from], [for_from],
    [for_try], [find_slot]), bounded by the length of the array.  Loops that
    follow pointers have fuel: the number of blocks in the heap ([kmalloc_loop],
    [kfree_loop]), the number of tasks ([yield_loop], [for_tasks]), the number of
    array elements for linked lists in arrays, the number of bytes of the archive
    for the loop of [initramfs_mount], one iteration per page for [virt_map] and
    [virt_unmap], the number of bytes asked for in the loops of the system calls
    (every iteration moves at least one), the number of services for the passes of
    [service_manager_prepare], the 312 bytes of the option area for the option
    loop of [Dhcp], the length of the message or name for the name loops of
    [Dns], one reading of the clock per round of the bring-up loop and two rounds
    for draining the one-datagram receive buffer in [NetControl].  In each case a theorem says that the fuel suffices in every
    state that satisfies the invariant, so that the result never depends on it.

    ** What the theorems show

    Memory: the frame allocator takes the least free page and never hands out an
    owned frame; mapping a page is insertion into the translation function of one
    root and of no other, and the permission bits of an entry are those
    requested; [kmalloc] is first fit, [kfree] releases exactly one block and
    merges its neighbours, [krealloc] keeps the contents.

    Communication and authority: the ring buffers implement FIFO mailboxes; a
    name opens one channel; no sequence of delegations and revocations gives an
    owner a right it did not have, and revocation is permanent.

    Execution: the scheduler is round robin and starves no ready task;
    [elf_loader_validate_image] is safe on arbitrary bytes and what it accepts is
    loaded within the slot; process numbers are unique, and the exit code of a
    process reaches its parent once, whatever happens in between.

    Services: the preparation passes end with every service prepared when the
    graph of dependencies allows it; a service that keeps failing is restarted no
    more often than its budget and not before its delay; the counters of the
    supervisor agree with its table; the address layouts of the programs do not
    overlap.

    System calls: whatever the number and the arguments, a call writes only where
    its caller may write, leaves the descriptors and sockets of other processes
    alone, ends only the processes that the caller is entitled to end, and passes
    on no capability that the caller does not hold; a read through a descriptor
    returns the bytes of the file.

    Network: buffers are never shared and the poll loop gives back every buffer
    it takes; lookup is longest prefix match; the filter's decision is that of the
    rule list with tracked flows, and default deny holds in every reachable state;
    the ARP cache is a least-recently-set cache; a translated packet's reply
    reaches its origin; the frame built by [ipv4_send] is the one of the standards;
    datagrams are delivered as sent, from the socket of a process on one host to
    the socket of a process on another; sockets are private to their processes and
    datagram transports have one owner; the bytes TCP delivers are a prefix of the
    peer's stream under loss, repetition and reordering; only packets that pass
    the header checks and the filter have an effect; a DHCP lease comes from one
    exchange of OFFER and ACK, a server that answers gets the client bound, and no
    message leaves the caller's buffer; a DNS query encodes the name as labels and
    the first address record of the answer is returned and cached; the control
    plane reports ready only with a leased address, and then its filter denies by
    default.

    Storage: path resolution takes the longest mount point; an archive can be read
    back and its parser always stops; a write through one partition changes no
    other; a write to the file system is what later reads return and survives a
    power loss once it has reported success; a directory damaged in one byte is
    refused; the configuration store is a finite map; the log prints the last
    messages, overruns its buffer by at most three bytes, and its checksum is that
    of the file system.

    Beside the theorems, lemmas exhibit inputs on which the code does not do what
    it means to (double frees, wrapped lengths, names that are stored truncated
    and compared in full, buffers overrun on oversized packets, dangling task
    pointers); each stands at the end of the file of its component.

    ** What is not modelled

    Assembly, system registers, TLB and cache maintenance, interrupts and device
    registers: a context switch only marks where another task continues, the
    network device is a queue of frames with an answer for each transmission, a
    disk is a state that satisfies the laws of its driver.  Execution is that of
    one processor, one operation after the other; the code takes no locks.
    Boot-time self tests are modelled where they decide something ([Block], [Vfs],
    [AegisFs], [Process], [Services], [Supervisor], [Userland], [Socket]), printing
    is not.  The virtual memory seen by a process is one store of bytes by address:
    which frames back it is the state of the page tables.  The readings of the
    clock, the frames that arrive and the initial contents of stack buffers are
    inputs of the operations that use them.  The kernel entry and console, the report modules, and the Rust
    programs that run on a host are not modelled; their calls into modelled
    components are covered by theorems about arbitrary sequences of operations. *)

From stdpp Require Export base list list_numbers gmap strings.
From Stdlib Require Export ZArith Lia.

#[global] Open Scope Z_scope.
#[export] Set Default Goal Selector "!".

(** * Record field update

    [r <| f := v |>] is the C assignment [r.f = v] on a value-passed record.
    A record type registers its eta-expansion once ([Eta]); the setter of a
    field is obtained from it by abstracting the projection. *)

Class Eta (R : Type) := eta : R → R.
Class Setter {R T : Type} (proj : R → T) := set_field : (T → T) → R → R.
Arguments set_field {R T} proj {_} f r /.
#[global] Hint Mode Setter - - ! : typeclass_instances.

Ltac derive_setter :=
  match goal with
  | |- @Setter ?R ?T ?proj =>
      let inst := constr:(_ : Eta R) in
      let body := eval hnf in (@eta R inst) in
      let gen := eval pattern proj in body in
      match gen with
      | ?g _ =>
          let s := eval cbv beta in
            (λ (f : T → T) (r : R), g (λ r0 : R, f (proj r0)) r) in
          exact s
      end
  end.
#[export] Hint Extern 1 (Setter _) => derive_setter : typeclass_instances.

Declare Scope aegis_scope.
Delimit Scope aegis_scope with aegis.
#[global] Open Scope aegis_scope.

Notation "r <| f := v |>" := (set_field f (λ _, v) r)
  (at level 1, left associativity, f at level 10, v at level 200,
   format "r  <| f  :=  v |>") : aegis_scope.
Notation "r <| f ::= g |>" := (set_field f g r)
  (at level 1, left associativity, f at level 10, g at level 200,
   format "r  <| f  ::=  g |>") : aegis_scope.

(** * Fixed-width integers

    A C value of an unsigned w-bit type is a [Z] in [[0, 2^w)]; every
    arithmetic result is reduced explicitly with one of these. *)

Definition u8 (x : Z) : Z := x mod 2 ^ 8.
Definition u16 (x : Z) : Z := x mod 2 ^ 16.
Definition u32 (x : Z) : Z := x mod 2 ^ 32.
Definition u64 (x : Z) : Z := x mod 2 ^ 64.
(** Conversion of a value to a two's complement signed 32-bit [int]. *)
Definition s32 (x : Z) : Z := (x + 2 ^ 31) mod 2 ^ 32 - 2 ^ 31.

(** [lia] with quotients and remainders by constants made explicit. *)
Ltac divlia := Z.div_mod_to_equations; lia.

(** Inverts a chain of option binds that succeeds. *)
Ltac bind_inv H :=
  repeat (match type of H with
          | mbind _ ?x = Some _ => let E := fresh "E" in destruct x eqn:E; cbn [mbind option_bind] in H; [|discriminate H]
          end).

Lemma u8_range x : 0 ≤ u8 x < 256.
Proof. unfold u8. divlia. Qed.
Lemma u16_range x : 0 ≤ u16 x < 65536.
Proof. unfold u16. divlia. Qed.
Lemma u32_range x : 0 ≤ u32 x < 2 ^ 32.
Proof. unfold u32. divlia. Qed.
Lemma u64_range x : 0 ≤ u64 x < 2 ^ 64.
Proof. unfold u64. divlia. Qed.
Lemma u8_small x : 0 ≤ x < 256 → u8 x = x.
Proof. unfold u8. divlia. Qed.
Lemma u16_small x : 0 ≤ x < 65536 → u16 x = x.
Proof. unfold u16. divlia. Qed.
Lemma u32_small x : 0 ≤ x < 2 ^ 32 → u32 x = x.
Proof. unfold u32. divlia. Qed.
Lemma u64_small x : 0 ≤ x < 2 ^ 64 → u64 x = x.
Proof. unfold u64. divlia. Qed.

Create HintDb aegis.
#[export] Hint Resolve u8_range u16_range u32_range u64_range : aegis.

(** Status codes of [kernel/include/types.h]. *)
Definition AEGIS_OK : Z := 0.
Definition AEGIS_ENOMEM : Z := -1.
Definition AEGIS_EINVAL : Z := -2.
Definition AEGIS_EPERM : Z := -3.
Definition AEGIS_ENOENT : Z := -4.
Definition AEGIS_EBUSY : Z := -5.
Definition AEGIS_EIO : Z := -6.
Definition AEGIS_ENOSYS : Z := -7.
Definition AEGIS_EAGAIN : Z := -8.
Definition AEGIS_ECHILD : Z := -9.
Definition AEGIS_ETIMEDOUT : Z := -10.
Definition AEGIS_EEXIST : Z := -11.
Definition AEGIS_ENOSPC : Z := -12.
Definition AEGIS_ESHUTDOWN : Z := -13.

(** * Loops

    [find_from f lo n] is [for (i = lo; i < lo + n; i++) if (f(i)) return i;],
    [for_from lo n body s] is [for (i = lo; i < lo + n; i++) s = body(i, s);]
    and [for_try] is a loop whose body may [return] early with a value. *)

Fixpoint find_from (f : Z → bool) (lo : Z) (n : nat) : option Z :=
  match n with
  | O => None
  | S n' => if f lo then Some lo else find_from f (lo + 1) n'
  end.

Fixpoint for_from {S : Type} (lo : Z) (n : nat) (body : Z → S → S) (s : S) : S :=
  match n with
  | O => s
  | Datatypes.S n' => for_from (lo + 1) n' body (body lo s)
  end.

Fixpoint for_try {S R : Type} (lo : Z) (n : nat) (body : Z → S → S * option R)
    (s : S) : S * option R :=
  match n with
  | O => (s, None)
  | Datatypes.S n' =>
      match body lo s with
      | (s', Some r) => (s', Some r)
      | (s', None) => for_try (lo + 1) n' body s'
      end
  end.

Lemma find_from_Some f lo n i :
  find_from f lo n = Some i ↔
  lo ≤ i < lo + Z.of_nat n ∧ f i = true ∧ ∀ j, lo ≤ j < i → f j = false.
Proof.
  revert lo. induction n as [|n IH]; intros lo; simpl.
  - split; [done|]. lia.
  - destruct (f lo) eqn:Hf.
    + split.
      * intros [= <-]. split_and!; [lia|lia|done|]. intros; lia.
      * intros (Hr & Hi & Hmin). f_equal. destruct (decide (lo = i)); [done|].
        rewrite (Hmin lo) in Hf; [done|lia].
    + rewrite IH. split; intros (Hr & Hi & Hmin).
      * split_and!; [lia|lia|done|]. intros j Hj.
        destruct (decide (j = lo)) as [->|]; [done|]. apply Hmin. lia.
      * assert (lo ≠ i) by (intros ->; congruence).
        split_and!; [lia|lia|done|]. intros j Hj. apply Hmin. lia.
Qed.

Lemma find_from_None f lo n :
  find_from f lo n = None ↔ ∀ j, lo ≤ j < lo + Z.of_nat n → f j = false.
Proof.
  revert lo. induction n as [|n IH]; intros lo; simpl.
  - split; [intros; lia|done].
  - destruct (f lo) eqn:Hf.
    + split; [done|]. intros H. rewrite H in Hf; [done|lia].
    + rewrite IH. split; intros H j Hj.
      * destruct (decide (j = lo)) as [->|]; [done|]. apply H. lia.
      * apply H. lia.
Qed.

Lemma find_from_ext f g lo n :
  (∀ j, lo ≤ j < lo + Z.of_nat n → f j = g j) → find_from f lo n = find_from g lo n.
Proof.
  revert lo. induction n as [|n IH]; intros lo H; simpl; [done|].
  rewrite (H lo) by lia. rewrite (IH (lo + 1)); [done|]. intros; apply H; lia.
Qed.

(** Loop invariants: the rule for [for_from]. *)
Lemma for_from_ind {S} (P : Z → S → Prop) lo n (body : Z → S → S) s :
  P lo s →
  (∀ i s', lo ≤ i < lo + Z.of_nat n → P i s' → P (i + 1) (body i s')) →
  P (lo + Z.of_nat n) (for_from lo n body s).
Proof.
  revert lo s. induction n as [|n IH]; intros lo s H0 Hstep; simpl.
  - by rewrite Z.add_0_r.
  - replace (lo + Z.of_nat (Datatypes.S n)) with (lo + 1 + Z.of_nat n) by lia.
    apply IH.
    + apply Hstep; [lia|done].
    + intros i s' Hi. apply Hstep. lia.
Qed.

#[global] Arguments for_from {S} lo n body s : simpl never.
#[global] Arguments find_from f lo n : simpl never.
#[global] Arguments for_try {S R} lo n body s : simpl never.

(** * Fixed-size tables

    A C array of structs is a list; [find_slot f l] is the index of the first
    entry that satisfies [f], as the linear scans of the code compute it. *)

Definition find_slot {A} (f : A → bool) (l : list A) : option nat :=
  fst <$> list_find (λ x, f x = true) l.

Lemma find_slot_Some {A} (f : A → bool) l i :
  find_slot f l = Some i ↔
  ∃ x, l !! i = Some x ∧ f x = true ∧
       ∀ j y, l !! j = Some y → (j < i)%nat → f y = false.
Proof.
  unfold find_slot. rewrite fmap_Some. split.
  - intros ([k x] & (? & ? & Hmin)%list_find_Some & ->). exists x. split_and!; try done.
    intros j y Hj Hlt. specialize (Hmin j y Hj Hlt). by destruct (f y).
  - intros (x & ? & ? & Hmin). exists (i, x). split; [|done].
    apply list_find_Some. split_and!; try done.
    intros j y Hj Hlt. rewrite (Hmin j y Hj Hlt). done.
Qed.

Lemma find_slot_None {A} (f : A → bool) l :
  find_slot f l = None ↔ ∀ i x, l !! i = Some x → f x = false.
Proof.
  unfold find_slot. rewrite fmap_None, list_find_None, Forall_lookup.
  split; intros H i x Hx; specialize (H i x Hx); by destruct (f x).
Qed.

Lemma find_slot_lt {A} (f : A → bool) l i : find_slot f l = Some i → (i < length l)%nat.
Proof. intros (x & Hx & _)%find_slot_Some. by eapply lookup_lt_Some. Qed.

(** Splitting at an index; [alter] there. *)
Lemma split_at {A} (l : list A) i x :
  l !! i = Some x → ∃ l1 l2, l = l1 ++ x :: l2 ∧ length l1 = i ∧ ∀ f, alter f i l = l1 ++ f x :: l2.
Proof.
  intros H. exists (take i l), (drop (S i) l). pose proof (take_drop_middle _ _ _ H) as E.
  assert (length (take i l) = i) as Hl.
  { apply lookup_lt_Some in H. rewrite length_take. lia. }
  split; [done|]. split; [done|]. intros f. rewrite <-E at 1.
  rewrite <-Hl at 1. by rewrite alter_app_r_alt, Nat.sub_diag by lia.
Qed.

Lemma list_filter_all {A} (P : A → Prop) `{∀ x, Decision (P x)} (l : list A) :
  (∀ x, x ∈ l → P x) → filter P l = l.
Proof.
  induction l as [|a l IH]; intros Hl; [done|]. rewrite filter_cons_True by (apply Hl; left).
  f_equal. apply IH. intros x Hx. apply Hl. by right.
Qed.

Lemma filter_middle {A} (P : A → Prop) `{∀ x, Decision (P x)} (l1 l2 : list A) x :
  filter P (l1 ++ x :: l2) ≡ₚ (if decide (P x) then [x] else []) ++ filter P (l1 ++ l2).
Proof.
  rewrite !filter_app, filter_cons. case_decide; [|done]. cbn. symmetry. apply Permutation_middle.
Qed.

(** * Bits of machine words *)

Definition has_flag (x bit : Z) : bool := negb (Z.land x bit =? 0).

Lemma land_1_testbit x : negb (Z.land x 1 =? 0) = Z.testbit x 0.
Proof.
  change 1 with (Z.ones 1). rewrite Z.land_ones by lia.
  change (2 ^ 1) with 2. rewrite <-Z.bit0_mod. by destruct (Z.testbit x 0).
Qed.

Lemma lor_shift8 a b : 0 ≤ a < 256 → 0 ≤ b → Z.lor a (Z.shiftl b 8) = a + 256 * b.
Proof.
  intros Ha Hb. rewrite Z.shiftl_mul_pow2 by lia. change (2 ^ 8) with 256.
  assert (Z.land a (b * 256) = 0) as Hd.
  { apply Z.bits_inj'. intros n Hn. rewrite Z.land_spec, Z.bits_0. change 256 with (2 ^ 8).
    rewrite Z.mul_pow2_bits by lia. destruct (decide (n < 8)).
    - rewrite (Z.testbit_neg_r b (n - 8)) by lia. apply andb_false_r.
    - rewrite <-(Z.mod_small a (2 ^ 8)) by lia. by rewrite Z.mod_pow2_bits_high by lia. }
  rewrite <-Z.lxor_lor, <-Z.add_nocarry_lxor by done. lia.
Qed.

Lemma testbit_shift1 k n : 0 ≤ k → Z.testbit (Z.shiftl 1 k) n = bool_decide (n = k).
Proof.
  intros Hk. rewrite Z.shiftl_1_l.
  destruct (decide (0 ≤ n)).
  - rewrite Z.pow2_bits_eqb by done.
    destruct (Z.eqb_spec k n), (bool_decide_reflect (n = k)); congruence.
  - rewrite Z.testbit_neg_r by lia. rewrite bool_decide_false; [done|lia].
Qed.

Lemma testbit_mod_pow2 x w n : 0 ≤ w → Z.testbit (x mod 2 ^ w) n = Z.testbit x n && bool_decide (n < w).
Proof.
  intros Hw. destruct (decide (n < w)).
  - rewrite bool_decide_true by done. rewrite andb_true_r.
    destruct (decide (0 ≤ n)); [|by rewrite !Z.testbit_neg_r by lia].
    by apply Z.mod_pow2_bits_low.
  - rewrite bool_decide_false by done. rewrite andb_false_r.
    apply Z.mod_pow2_bits_high. lia.
Qed.

(** Bitwise extensionality below a width. *)
Lemma Z_bits_inj_width w x y :
  0 ≤ w → 0 ≤ x < 2 ^ w → 0 ≤ y < 2 ^ w →
  (∀ n, 0 ≤ n < w → Z.testbit x n = Z.testbit y n) → x = y.
Proof.
  intros Hw Hx Hy H. apply Z.bits_inj'. intros n Hn.
  destruct (decide (n < w)); [by apply H|].
  by rewrite <-(Z.mod_small x (2 ^ w)), <-(Z.mod_small y (2 ^ w)),
    !Z.mod_pow2_bits_high by lia.
Qed.

Lemma Z_nonneg_lt_pow2_bits w x :
  0 ≤ w → 0 ≤ x → (∀ n, w ≤ n → Z.testbit x n = false) → x < 2 ^ w.
Proof.
  intros Hw Hx H. rewrite <-(Z.mod_small x (2 ^ (w + x + 1))).
  2:{ split; [done|]. pose proof (Z.pow_gt_lin_r 2 x ltac:(lia) Hx).
      rewrite <-Z.add_assoc, Z.pow_add_r by lia.
      pose proof (Z.pow_pos_nonneg 2 w ltac:(lia) Hw).
      rewrite (Z.pow_add_r 2 x 1) by lia. nia. }
  replace (x mod 2 ^ (w + x + 1)) with (x mod 2 ^ w).
  { apply Z.mod_pos_bound. apply Z.pow_pos_nonneg; lia. }
  apply Z.bits_inj'. intros n Hn. rewrite !testbit_mod_pow2 by lia.
  destruct (decide (n < w)).
  - rewrite !bool_decide_true by lia. done.
  - rewrite (H n) by lia. done.
Qed.

Lemma lor_shift k a b : 0 ≤ k → 0 ≤ a < 2 ^ k → 0 ≤ b → Z.lor a (Z.shiftl b k) = a + 2 ^ k * b.
Proof.
  intros Hk Ha Hb. rewrite <-Z.lxor_lor, <-Z.add_nocarry_lxor, Z.shiftl_mul_pow2; [lia|lia| |].
  all: apply Z.bits_inj'; intros j Hj; rewrite Z.land_spec, Z.bits_0, Z.shiftl_spec by done;
    destruct (Z.ltb_spec j k); [rewrite (Z.testbit_neg_r b) by lia; by rewrite andb_false_r|].
  all: rewrite <-(Z.mod_small a (2 ^ k)) by lia; by rewrite Z.mod_pow2_bits_high by lia.
Qed.

(** Rounding down to a multiple of [2 ^ k] with a mask of [w] bits. *)
Lemma land_align w k x :
  0 ≤ k ≤ w → 0 ≤ x < 2 ^ w → Z.land x (Z.lnot (Z.ones k) mod 2 ^ w) = x / 2 ^ k * 2 ^ k.
Proof.
  intros Hk Hx. rewrite <-Z.shiftl_mul_pow2, <-Z.shiftr_div_pow2 by lia.
  apply Z.bits_inj'. intros n Hn.
  rewrite Z.land_spec, testbit_mod_pow2, Z.lnot_spec, Z.testbit_ones_nonneg, Z.shiftl_spec by lia.
  destruct (Z.ltb_spec n k).
  - rewrite (Z.testbit_neg_r _ (n - k)) by lia. by rewrite andb_false_r.
  - rewrite Z.shiftr_spec by lia. replace (n - k + k) with n by lia. cbn [negb].
    case_bool_decide; [by rewrite andb_true_r|]. rewrite andb_false_r.
    rewrite <-(Z.mod_small x (2 ^ w)) by lia. by rewrite Z.mod_pow2_bits_high by lia.
Qed.

(** * Byte buffers and C strings *)

(** [for (i = 0; i < n; i++) dst[i] = src[i];] on arrays. *)
Definition buf_copy (n : Z) (src dst : list Z) : list Z :=
  for_from 0 (Z.to_nat n) (λ i d, <[Z.to_nat i := nth (Z.to_nat i) src 0]> d) dst.

Lemma take_S_app {A} (d : A) k (l : list A) :
  (k < length l)%nat → take (S k) l = take k l ++ [nth k l d].
Proof.
  intros Hk. rewrite (take_S_r l k (nth k l d)); [done|].
  destruct (lookup_lt_is_Some_2 l k Hk) as [x Hx]. rewrite Hx. by rewrite (nth_lookup_Some _ _ _ _ Hx).
Qed.

Lemma buf_copy_spec n src dst :
  0 ≤ n → n ≤ Z.of_nat (length src) → n ≤ Z.of_nat (length dst) →
  buf_copy n src dst = take (Z.to_nat n) src ++ drop (Z.to_nat n) dst.
Proof.
  intros Hn Hs Hd. unfold buf_copy.
  set (P := λ (k : Z) (d : list Z), d = take (Z.to_nat k) src ++ drop (Z.to_nat k) dst).
  assert (H : P (0 + Z.of_nat (Z.to_nat n)) (for_from 0 (Z.to_nat n)
    (λ i d, <[Z.to_nat i := nth (Z.to_nat i) src 0]> d) dst)).
  { apply (for_from_ind P); [done|]. intros i d Hi ->. unfold P.
    set (k := Z.to_nat i). replace (Z.to_nat (i + 1)) with (S k) by lia.
    rewrite (take_S_app 0) by lia. rewrite (insert_app_r_alt _ _ k) by (rewrite length_take; lia).
    rewrite length_take, Nat.min_l, Nat.sub_diag by lia. rewrite <-app_assoc. f_equal.
    destruct (drop k dst) as [|x d'] eqn:E; [apply (f_equal length) in E; rewrite length_drop in E; cbn in E; lia|].
    cbn. f_equal. replace (S k) with (k + 1)%nat by lia. rewrite <-drop_drop, E. done. }
  unfold P in H. by rewrite H, Z.add_0_l, Nat2Z.id.
Qed.

Lemma buf_copy_length n src dst : length (buf_copy n src dst) = length dst.
Proof.
  unfold buf_copy. apply (for_from_ind (λ _ d, length d = length dst)); [done|].
  intros i d _ <-. by rewrite length_insert.
Qed.

(** Updates of one entry of a list. *)
Lemma list_alter_same {A} (f : A → A) (i : nat) (l : list A) : (∀ x, l !! i = Some x → f x = x) → alter f i l = l.
Proof. intros H. rewrite <- (list_alter_id id l i) at 2 by done. by apply list_alter_ext. Qed.
Lemma lookup_app_add {A} (k l : list A) i : (k ++ l) !! (length k + i)%nat = l !! i.
Proof. rewrite lookup_app_r by lia. f_equal. lia. Qed.
Lemma list_alter_alter {A} (f g : A → A) (i : nat) (l : list A) : alter f i (alter g i l) = alter (λ x, f (g x)) i l.
Proof. revert i. induction l as [|x l IH]; intros [|i]; cbn; [done..|]. f_equal. apply IH. Qed.

(** A NUL-terminated string is the [string] of its characters before the
    terminator; the comparison loops of the code walk both at once. *)
Fixpoint c_streq (a b : string) : bool :=
  match a, b with
  | String x a, String y b => if Ascii.eqb x y then c_streq a b else false
  | EmptyString, EmptyString => true
  | _, _ => false
  end.

Lemma c_streq_spec a b : c_streq a b = true ↔ a = b.
Proof.
  revert b. induction a as [|x a IH]; intros [|y b]; cbn; try done.
  destruct (Ascii.eqb_spec x y) as [->|]; [rewrite IH; naive_solver|naive_solver].
Qed.

(** Copy of at most [n] characters, then the terminator. *)
Fixpoint str_take (n : nat) (s : string) : string :=
  match n, s with
  | S n, String x s => String x (str_take n s)
  | _, _ => EmptyString
  end.

Lemma str_take_id n s : (String.length s ≤ n)%nat → str_take n s = s.
Proof.
  revert s. induction n as [|n IH]; intros [|x s]; cbn; try done; [lia|]. intros. by rewrite IH by lia.
Qed.
Lemma str_take_length n s : (String.length (str_take n s) ≤ n)%nat.
Proof. revert s. induction n as [|n IH]; intros [|x s]; cbn; try lia. specialize (IH s). lia. Qed.

(** A string as the bytes before its terminator, and back. *)
Definition bytes_of (s : string) : list Z :=
  (λ c, Z.of_nat (Ascii.nat_of_ascii c)) <$> String.list_ascii_of_string s.
Fixpoint c_string (l : list Z) : string :=
  match l with
  | [] => EmptyString
  | x :: l => if x =? 0 then EmptyString else String (Ascii.ascii_of_nat (Z.to_nat x)) (c_string l)
  end.

(** A C string: no character is the terminator. *)
Definition c_str (s : string) : Prop := Forall (λ b, b ≠ 0) (bytes_of s).

Lemma bytes_of_inj a b : bytes_of a = bytes_of b → a = b.
Proof.
  revert b. induction a as [|x a IH]; intros [|y b]; unfold bytes_of; cbn; try done.
  intros [= Hx Hr]. apply Nat2Z.inj in Hx. f_equal; [|by apply IH].
  by rewrite <-(Ascii.ascii_nat_embedding x), <-(Ascii.ascii_nat_embedding y), Hx.
Qed.

Lemma c_string_bytes s l : c_str s → c_string (bytes_of s ++ 0 :: l) = s.
Proof.
  unfold c_str. induction s as [|c s IH]; [done|]. unfold bytes_of in *. cbn [String.list_ascii_of_string fmap list_fmap].
  intros [Hc Hs]%Forall_cons. cbn. rewrite (proj2 (Z.eqb_neq _ _)) by done.
  rewrite Nat2Z.id, Ascii.ascii_nat_embedding. f_equal. by apply IH.
Qed.

(** ** Little-endian images of packed structures *)

Definition le (n : Z) (x : Z) : list Z := Z_to_little_endian n 8 x.
Definition from_le (l : list Z) : Z := little_endian_to_Z 8 l.
Definition field (o n : nat) (l : list Z) : list Z := take n (drop o l).

Lemma le_length n x : 0 ≤ n → length (le n x) = Z.to_nat n.
Proof. intros Hn. apply Nat2Z.inj. unfold le. rewrite length_Z_to_little_endian; lia. Qed.

Lemma from_le_le n x : 0 ≤ n → 0 ≤ x < 2 ^ (n * 8) → from_le (le n x) = x.
Proof. intros Hn Hx. unfold from_le, le. rewrite little_endian_to_Z_to_little_endian by lia. by apply Z.mod_small. Qed.
