(* ===== verification/PhysMem.v ===== *)
(** Physical page frame allocator: kernel/memory/physical_memory.c.

    The state is the bitmap with the three counters of the C file; a page is
    in use when its bit is set.  [free_pages] is the abstract view: the finite
    set of page numbers that are free.  The theorems show that every operation
    acts on that set as a page pool should, that the running counter equals
    its cardinality, and where the code leaves that contract (double free,
    re-initialisation with a page count that is not a multiple of 8). *)

From S2P Require Import Prelude.

(** [kernel/include/memory.h] *)
Definition PAGE_SIZE : Z := 4096.
Definition PAGE_MASK : Z := u64 (Z.lnot (PAGE_SIZE - 1)).
Definition PAGE_ALIGN (x : Z) : Z := Z.land (u64 (x + PAGE_SIZE - 1)) PAGE_MASK.
Definition PAGE_ALIGN_DOWN (x : Z) : Z := Z.land x PAGE_MASK.

Definition MAX_PAGES : Z := 1024 * 1024.
Definition bitmap_bytes : nat := Z.to_nat (MAX_PAGES / 8).
Lemma bitmap_bytes_val : Z.of_nat bitmap_bytes = 131072.
Proof. unfold bitmap_bytes. rewrite Z2Nat.id; [reflexivity|]. apply Z.leb_le. reflexivity. Qed.
#[global] Opaque bitmap_bytes.

Record phys_state := mk_phys {
  bitmap : list Z;
  phys_base : Z;
  total_pages : Z;
  free_pages_count : Z;
}.
#[export] Instance phys_state_eta : Eta phys_state :=
  λ s, mk_phys (bitmap s) (phys_base s) (total_pages s) (free_pages_count s).

(** The static storage before the first call: zero-filled by the loader. *)
Definition phys_boot : phys_state := mk_phys (replicate bitmap_bytes 0) 0 0 0.

Definition bitmap_set (page : Z) (s : phys_state) : phys_state :=
  s <| bitmap ::= alter (λ b, Z.lor b (u8 (Z.shiftl 1 (page mod 8)))) (Z.to_nat (page / 8)) |>.

Definition bitmap_clear (page : Z) (s : phys_state) : phys_state :=
  s <| bitmap ::= alter (λ b, Z.land b (u8 (Z.lnot (Z.shiftl 1 (page mod 8))))) (Z.to_nat (page / 8)) |>.

Definition bitmap_test (page : Z) (s : phys_state) : bool :=
  negb (Z.land (Z.shiftr (bitmap s !!! Z.to_nat (page / 8)) (page mod 8)) 1 =? 0).

Definition page_index_for_addr (addr : Z) (s : phys_state) : Z :=
  if addr <? phys_base s then total_pages s
  else (addr - phys_base s) / PAGE_SIZE.

(** [None] is the [PANIC] that halts the kernel. *)
Definition phys_mem_init (base size : Z) (s : phys_state) : option (Z * phys_state) :=
  let total := size / PAGE_SIZE in
  let s := s <| phys_base := base |> <| total_pages := total |> <| free_pages_count := total |> in
  if MAX_PAGES <? total then None
  else Some (AEGIS_OK,
    for_from 0 (Z.to_nat (total / 8)) (λ i s, s <| bitmap ::= <[Z.to_nat i := 0]> |>) s).

Definition phys_alloc_page (s : phys_state) : Z * phys_state :=
  match find_from (λ i, negb (bitmap_test i s)) 0 (Z.to_nat (total_pages s)) with
  | Some i =>
      (u64 (phys_base s + i * PAGE_SIZE),
       (bitmap_set i s) <| free_pages_count ::= λ n, u64 (n - 1) |>)
  | None => (0, s)
  end.

Definition phys_free_page (addr : Z) (s : phys_state) : phys_state :=
  let page := u64 (addr - phys_base s) / PAGE_SIZE in
  if total_pages s <=? page then s
  else (bitmap_clear page s) <| free_pages_count ::= λ n, u64 (n + 1) |>.

Definition phys_mem_free_pages (s : phys_state) : Z := free_pages_count s.
Definition phys_mem_total_pages (s : phys_state) : Z := total_pages s.
Definition phys_mem_used_pages (s : phys_state) : Z :=
  u64 (total_pages s - free_pages_count s).

Definition reserve_page (i : Z) (s : phys_state) : phys_state :=
  if bitmap_test i s then s
  else
    let s := bitmap_set i s in
    if 0 <? free_pages_count s then s <| free_pages_count ::= λ n, n - 1 |> else s.

Definition phys_reserve_range (base size : Z) (s : phys_state) : Z * phys_state :=
  if size =? 0 then (AEGIS_OK, s)
  else if total_pages s =? 0 then (AEGIS_EINVAL, s)
  else
    let start := PAGE_ALIGN_DOWN base in
    let end_ := PAGE_ALIGN (u64 (base + size)) in
    if end_ <=? phys_base s then (AEGIS_EINVAL, s)
    else
      let start := if start <? phys_base s then phys_base s else start in
      let first := page_index_for_addr start s in
      let last := page_index_for_addr (end_ - 1) s in
      if total_pages s <=? first then (AEGIS_EINVAL, s)
      else
        let last := if total_pages s <=? last then total_pages s - 1 else last in
        (AEGIS_OK, for_from first (Z.to_nat (last - first + 1)) reserve_page s).

Definition phys_addr_is_reserved (addr : Z) (s : phys_state) : bool :=
  let page := page_index_for_addr addr s in
  if total_pages s <=? page then false else bitmap_test page s.

(** * Abstract view and invariant *)

Definition free_pages (s : phys_state) : gset Z :=
  list_to_set (filter (λ p, bitmap_test p s = false) (seqZ 0 (total_pages s))).

Record phys_wf (s : phys_state) : Prop := {
  wf_len : length (bitmap s) = bitmap_bytes;
  wf_bytes : Forall (λ b, 0 ≤ b < 256) (bitmap s);
  wf_total : 0 ≤ total_pages s ≤ MAX_PAGES;
  wf_base : 0 ≤ phys_base s ∧ phys_base s + total_pages s * PAGE_SIZE ≤ 2 ^ 64;
}.

(** The allocator's invariant: storage well-formed and the counter exact. *)
Definition phys_inv (s : phys_state) : Prop :=
  phys_wf s ∧ free_pages_count s = Z.of_nat (size (free_pages s)).

(** [addr] is the address of page number [p] of the pool. *)
Definition page_addr (s : phys_state) (p : Z) : Z := phys_base s + p * PAGE_SIZE.

(** ** Bit-level lemmas *)

Lemma bitmap_test_testbit p s :
  0 ≤ p → bitmap_test p s = Z.testbit (bitmap s !!! Z.to_nat (p / 8)) (p mod 8).
Proof.
  intros Hp. unfold bitmap_test. rewrite land_1_testbit, Z.shiftr_spec by done.
  by rewrite Z.add_0_l.
Qed.

Lemma testbit_u8 x n : n < 8 → Z.testbit (u8 x) n = Z.testbit x n.
Proof. intros. unfold u8. rewrite testbit_mod_pow2 by lia. rewrite bool_decide_true by lia. by rewrite andb_true_r. Qed.

Lemma list_lookup_total_alter_eq (f : Z → Z) (l : list Z) i :
  (i < length l)%nat → alter f i l !!! i = f (l !!! i).
Proof.
  intros [x Hx]%lookup_lt_is_Some_2.
  rewrite (list_lookup_total_correct l i x Hx).
  apply list_lookup_total_correct. rewrite list_lookup_alter_eq, Hx. done.
Qed.
Lemma list_lookup_total_alter_ne (f : Z → Z) (l : list Z) i j :
  i ≠ j → alter f i l !!! j = l !!! j.
Proof. intros. rewrite !list_lookup_total_alt, list_lookup_alter_ne; done. Qed.

Lemma page_byte_lt s p :
  length (bitmap s) = bitmap_bytes → 0 ≤ p < MAX_PAGES →
  (Z.to_nat (p / 8) < length (bitmap s))%nat.
Proof. intros -> Hp. pose proof bitmap_bytes_val. unfold MAX_PAGES in *. divlia. Qed.

Lemma same_bit p q : q / 8 = p / 8 → q mod 8 = p mod 8 → q = p.
Proof. intros. divlia. Qed.

Section bits.
Context (s : phys_state) (Hlen : length (bitmap s) = bitmap_bytes).
Context (p q : Z) (Hp : 0 ≤ p < MAX_PAGES) (Hq : 0 ≤ q < MAX_PAGES).

Lemma bitmap_test_set :
    bitmap_test q (bitmap_set p s) = bool_decide (q = p) || bitmap_test q s.
Proof.
    pose proof (page_byte_lt s p Hlen Hp).
    rewrite !bitmap_test_testbit by lia. unfold bitmap_set. cbn.
    destruct (decide (Z.to_nat (p / 8) = Z.to_nat (q / 8))) as [E|E].
    - rewrite <-E, list_lookup_total_alter_eq by done.
      rewrite Z.lor_spec, testbit_u8, testbit_shift1 by divlia.
      rewrite orb_comm. f_equal. apply bool_decide_ext. split; [|congruence].
      intros. apply same_bit; [divlia|done].
    - rewrite list_lookup_total_alter_ne by done.
      rewrite bool_decide_false; [done|]. intros ->. done.
Qed.

Lemma bitmap_test_clear :
    bitmap_test q (bitmap_clear p s) = negb (bool_decide (q = p)) && bitmap_test q s.
Proof.
    pose proof (page_byte_lt s p Hlen Hp).
    rewrite !bitmap_test_testbit by lia. unfold bitmap_clear. cbn.
    destruct (decide (Z.to_nat (p / 8) = Z.to_nat (q / 8))) as [E|E].
    - rewrite <-E, list_lookup_total_alter_eq by done.
      rewrite Z.land_spec, testbit_u8, Z.lnot_spec, testbit_shift1 by divlia.
      rewrite andb_comm. do 2 f_equal. apply bool_decide_ext. split; [|congruence].
      intros. apply same_bit; [divlia|done].
    - rewrite list_lookup_total_alter_ne by done.
      rewrite bool_decide_false; [done|]. intros ->. done.
Qed.
End bits.

Lemma bitmap_set_wf p s : phys_wf s → phys_wf (bitmap_set p s).
Proof.
  intros [Hl Hb Ht Hbase]. split; cbn; [|  |done|done].
  - by rewrite length_alter.
  - apply Forall_alter; [done|]. intros x Hx Hr. split.
    + apply Z.lor_nonneg. split; [lia|]. apply u8_range.
    + change 256 with (2 ^ 8). apply Z_nonneg_lt_pow2_bits; [lia| |].
      * apply Z.lor_nonneg. split; [lia|]. apply u8_range.
      * intros n Hn. rewrite Z.lor_spec. unfold u8.
        rewrite testbit_mod_pow2 by lia. rewrite (bool_decide_false (n < 8)) by lia.
        rewrite <-(Z.mod_small x (2 ^ 8)), testbit_mod_pow2 by lia.
        rewrite (bool_decide_false (n < 8)) by lia. by rewrite !andb_false_r.
Qed.

Lemma bitmap_clear_wf p s : phys_wf s → phys_wf (bitmap_clear p s).
Proof.
  intros [Hl Hb Ht Hbase]. split; cbn; [| |done|done].
  - by rewrite length_alter.
  - apply Forall_alter; [done|]. intros x Hx Hr.
    assert (0 ≤ Z.land x (u8 (Z.lnot (Z.shiftl 1 (p mod 8))))) by (apply Z.land_nonneg; lia).
    split; [done|].
    change 256 with (2 ^ 8). apply Z_nonneg_lt_pow2_bits; [lia|done|].
    intros n Hn. rewrite Z.land_spec, <-(Z.mod_small x (2 ^ 8)), testbit_mod_pow2 by lia.
    rewrite (bool_decide_false (n < 8)) by lia. by rewrite andb_false_r.
Qed.
#[export] Hint Resolve bitmap_set_wf bitmap_clear_wf : aegis.

(** The counter plays no part in the storage invariant. *)
Lemma phys_wf_count f s : phys_wf s → phys_wf (s <| free_pages_count ::= f |>).
Proof. intros []. by constructor. Qed.
#[export] Hint Resolve phys_wf_count : aegis.

(** ** The set of free pages *)

Lemma elem_of_free_pages p s :
  p ∈ free_pages s ↔ 0 ≤ p < total_pages s ∧ bitmap_test p s = false.
Proof.
  unfold free_pages. rewrite elem_of_list_to_set, list_elem_of_filter, elem_of_seqZ. lia || tauto.
Qed.

Lemma free_pages_set p s :
  phys_wf s → 0 ≤ p < total_pages s → free_pages (bitmap_set p s) = free_pages s ∖ {[p]}.
Proof.
  intros Hwf Hp. pose proof (wf_total _ Hwf). apply set_eq. intros q.
  rewrite elem_of_difference, elem_of_singleton, !elem_of_free_pages.
  change (total_pages (bitmap_set p s)) with (total_pages s).
  destruct (decide (0 ≤ q < total_pages s)); [|tauto].
  rewrite bitmap_test_set by (apply Hwf || lia).
  rewrite orb_false_iff, bool_decide_eq_false. tauto.
Qed.

Lemma free_pages_clear p s :
  phys_wf s → 0 ≤ p < total_pages s → free_pages (bitmap_clear p s) = {[p]} ∪ free_pages s.
Proof.
  intros Hwf Hp. pose proof (wf_total _ Hwf). apply set_eq. intros q.
  rewrite elem_of_union, elem_of_singleton, !elem_of_free_pages.
  change (total_pages (bitmap_clear p s)) with (total_pages s).
  destruct (decide (0 ≤ q < total_pages s)); [|split; [tauto|intros [->|?]; tauto]].
  rewrite bitmap_test_clear by (apply Hwf || lia).
  rewrite andb_false_iff, negb_false_iff, bool_decide_eq_true. tauto.
Qed.

Lemma free_pages_size_bound s : phys_wf s → Z.of_nat (size (free_pages s)) ≤ total_pages s.
Proof.
  intros Hwf. pose proof (wf_total _ Hwf).
  assert (free_pages s ⊆ list_to_set (C := gset Z) (seqZ 0 (total_pages s))) as Hsub.
  { intros p. rewrite elem_of_free_pages, elem_of_list_to_set, elem_of_seqZ. lia. }
  apply subseteq_size in Hsub.
  rewrite (size_list_to_set (seqZ 0 (total_pages s))), length_seqZ in Hsub; [lia|apply NoDup_seqZ].
Qed.

Lemma size_minus_elem (X : gset Z) p :
  p ∈ X → Z.of_nat (size (X ∖ {[p]})) = Z.of_nat (size X) - 1.
Proof.
  intros Hp. rewrite size_difference by set_solver. rewrite size_singleton.
  assert (size X ≠ 0%nat); [|lia].
  intros ?%size_empty_inv. set_solver.
Qed.

(** ** Operations on the abstract set *)

Lemma phys_alloc_page_cases s :
  phys_inv s →
  (free_pages s = ∅ ∧ phys_alloc_page s = (0, s)) ∨
  (∃ p s', p ∈ free_pages s ∧ (∀ q, q ∈ free_pages s → p ≤ q) ∧
    phys_alloc_page s = (page_addr s p, s') ∧ phys_inv s' ∧
    bitmap s' = bitmap (bitmap_set p s) ∧
    phys_base s' = phys_base s ∧ total_pages s' = total_pages s ∧
    free_pages s' = free_pages s ∖ {[p]}).
Proof.
  intros [Hwf Hcnt]. unfold phys_alloc_page. pose proof (wf_total _ Hwf).
  destruct (find_from _ _ _) as [p|] eqn:Hf.
  - right. apply find_from_Some in Hf as (Hp & Ht & Hmin).
    apply negb_true_iff in Ht.
    assert (p ∈ free_pages s) as Hfree by (apply elem_of_free_pages; lia || (split; [lia|done])).
    set (s' := _ <| _ ::= _ |>). exists p, s'.
    assert (free_pages s' = free_pages s ∖ {[p]}) as Hs' by (apply free_pages_set; [done|lia]).
    pose proof (size_minus_elem _ _ Hfree). pose proof (free_pages_size_bound s Hwf).
    pose proof (wf_base _ Hwf). unfold PAGE_SIZE, MAX_PAGES in *.
    split_and!; try done.
    + intros q [Hq Htq]%elem_of_free_pages. destruct (decide (p ≤ q)); [done|].
      specialize (Hmin q ltac:(lia)). rewrite Htq in Hmin. done.
    + f_equal. unfold page_addr, PAGE_SIZE. apply u64_small. nia.
    + split; [unfold s'; auto with aegis|]. rewrite Hs'. cbn. rewrite u64_small; lia.
  - left. split; [|done]. apply set_eq. intros p.
    rewrite elem_of_free_pages. rewrite find_from_None in Hf. split; [|set_solver].
    intros [Hp Ht]. specialize (Hf p ltac:(lia)). rewrite Ht in Hf. done.
Qed.

(** The page number [phys_free_page] computes for an address. *)
Lemma free_page_index s a p :
  phys_wf s → 0 ≤ p < total_pages s → a = page_addr s p →
  u64 (a - phys_base s) / PAGE_SIZE = p.
Proof.
  intros Hwf Hp ->. pose proof (wf_total _ Hwf). pose proof (wf_base _ Hwf).
  unfold page_addr, PAGE_SIZE, MAX_PAGES in *.
  replace (phys_base s + p * 4096 - phys_base s) with (p * 4096) by lia.
  rewrite u64_small by lia. by rewrite Z.div_mul.
Qed.

Lemma phys_free_page_cases s p :
  phys_inv s → 0 ≤ p < total_pages s → p ∉ free_pages s →
  let s' := phys_free_page (page_addr s p) s in
  phys_inv s' ∧ free_pages s' = {[p]} ∪ free_pages s ∧
  phys_base s' = phys_base s ∧ total_pages s' = total_pages s ∧
  bitmap s' = bitmap (bitmap_clear p s).
Proof.
  intros [Hwf Hcnt] Hp Hnf. unfold phys_free_page.
  rewrite (free_page_index s _ p) by done.
  destruct (Z.leb_spec (total_pages s) p); [lia|].
  cbn zeta. set (s' := _ <| _ ::= _ |>).
  assert (free_pages s' = {[p]} ∪ free_pages s) as Hs' by (apply free_pages_clear; done).
  pose proof (free_pages_size_bound s Hwf). pose proof (wf_total _ Hwf).
  split_and!; try done. split.
  - unfold s'; auto with aegis.
  - rewrite Hs', size_union by set_solver. rewrite size_singleton. cbn.
    unfold MAX_PAGES in *. rewrite u64_small; lia.
Qed.

Lemma reserve_page_spec p s :
  phys_inv s → 0 ≤ p < total_pages s →
  phys_inv (reserve_page p s) ∧ free_pages (reserve_page p s) = free_pages s ∖ {[p]} ∧
  phys_base (reserve_page p s) = phys_base s ∧ total_pages (reserve_page p s) = total_pages s.
Proof.
  intros [Hwf Hcnt] Hp. unfold reserve_page. destruct (bitmap_test p s) eqn:Ht.
  - split_and!; try done. apply set_eq. intros q.
    rewrite elem_of_difference, elem_of_singleton, !elem_of_free_pages.
    split; [|tauto]. intros [? ?]. split; [done|]. intros ->. congruence.
  - assert (p ∈ free_pages s) as Hf by (by apply elem_of_free_pages).
    pose proof (size_minus_elem _ _ Hf) as Hsz.
    assert (size (free_pages s) ≠ 0%nat) by (intros ?%size_empty_inv; set_solver).
    change (free_pages_count (bitmap_set p s)) with (free_pages_count s).
    destruct (Z.ltb_spec 0 (free_pages_count s)); [|lia].
    set (s' := _ <| _ ::= _ |>).
    assert (free_pages s' = free_pages s ∖ {[p]}) as Hs' by (by apply free_pages_set).
    split_and!; try done. split.
    + unfold s'; auto with aegis.
    + rewrite Hs'. cbn. lia.
Qed.

Lemma reserve_pages_spec first n s :
  phys_inv s → 0 ≤ first → first + Z.of_nat n ≤ total_pages s →
  let s' := for_from first n reserve_page s in
  phys_inv s' ∧ phys_base s' = phys_base s ∧ total_pages s' = total_pages s ∧
  ∀ p, p ∈ free_pages s' ↔ p ∈ free_pages s ∧ ¬ (first ≤ p < first + Z.of_nat n).
Proof.
  intros Hinv H0 Hn.
  apply (for_from_ind (λ i s', phys_inv s' ∧ phys_base s' = phys_base s ∧
    total_pages s' = total_pages s ∧
    ∀ p, p ∈ free_pages s' ↔ p ∈ free_pages s ∧ ¬ (first ≤ p < i))).
  - split_and!; try done. intros p. split; [|tauto]. intros. split; [done|lia].
  - intros i s' Hi (Hinv' & Hb & Ht & Hf).
    destruct (reserve_page_spec i s' Hinv' ltac:(lia)) as (? & Hfr & ? & ?).
    split_and!; try done; try congruence.
    intros p. rewrite Hfr, elem_of_difference, elem_of_singleton, Hf.
    split; [intros [[? ?] ?]; split; [done|lia]|].
    intros [? ?]. split; [split; [done|lia]|lia].
Qed.

(** ** Page alignment *)

Lemma land_page_mask x : 0 ≤ x < 2 ^ 64 → Z.land x PAGE_MASK = x / PAGE_SIZE * PAGE_SIZE.
Proof. intros Hx. apply (land_align 64 12); lia. Qed.

Lemma PAGE_ALIGN_DOWN_spec x : 0 ≤ x < 2 ^ 64 → PAGE_ALIGN_DOWN x = x / PAGE_SIZE * PAGE_SIZE.
Proof. apply land_page_mask. Qed.

Lemma PAGE_ALIGN_spec x :
  0 ≤ x → x + PAGE_SIZE - 1 < 2 ^ 64 →
  PAGE_ALIGN x = (x + PAGE_SIZE - 1) / PAGE_SIZE * PAGE_SIZE.
Proof.
  intros. unfold PAGE_ALIGN. rewrite u64_small by (unfold PAGE_SIZE in *; lia).
  apply land_page_mask. unfold PAGE_SIZE in *; lia.
Qed.

(** Page [p] of the pool has a byte in [[base, base + size)]. *)
Definition page_overlaps (s : phys_state) (base size p : Z) : Prop :=
  page_addr s p < base + size ∧ base < page_addr s p + PAGE_SIZE.

Lemma page_index_ge s a :
  phys_base s ≤ a → page_index_for_addr a s = (a - phys_base s) / PAGE_SIZE.
Proof. intros. unfold page_index_for_addr. destruct (Z.ltb_spec a (phys_base s)); [lia|done]. Qed.

(** What a reservation of [[base, base + size)] must achieve. *)
Definition reserve_post (s : phys_state) (base size rc : Z) (s' : phys_state) : Prop :=
  phys_inv s' ∧ phys_base s' = phys_base s ∧ total_pages s' = total_pages s ∧
  (∀ p, p ∈ free_pages s' ↔ p ∈ free_pages s ∧ ¬ page_overlaps s base size p) ∧
  ((rc = AEGIS_OK ∧ ∃ p, 0 ≤ p < total_pages s ∧ page_overlaps s base size p) ∨
   (rc = AEGIS_EINVAL ∧ s' = s ∧ ∀ p, 0 ≤ p < total_pages s → ¬ page_overlaps s base size p)).

Lemma reserve_post_einval s base size :
  phys_inv s → (∀ p, 0 ≤ p < total_pages s → ¬ page_overlaps s base size p) →
  reserve_post s base size AEGIS_EINVAL s.
Proof.
  intros Hinv Hno. unfold reserve_post. do 3 (split; [done|]). split; [|by right].
  intros p. split; [|tauto]. intros Hp. split; [done|].
  apply Hno. by apply elem_of_free_pages in Hp as [? _].
Qed.

Lemma phys_reserve_range_cases s base size :
  phys_inv s → phys_base s mod PAGE_SIZE = 0 → 0 < total_pages s →
  0 ≤ base → 0 < size → base + size + PAGE_SIZE ≤ 2 ^ 64 →
  let '(rc, s') := phys_reserve_range base size s in reserve_post s base size rc s'.
Proof.
  intros Hinv Hal Htot Hb Hsz Hov. pose proof Hinv as [[_ _ Ht Hbase] _].
  assert (phys_base s = phys_base s / PAGE_SIZE * PAGE_SIZE) as Hal' by (unfold PAGE_SIZE in *; divlia).
  set (k := phys_base s / PAGE_SIZE) in Hal'. unfold phys_reserve_range.
  destruct (Z.eqb_spec size 0); [lia|]. destruct (Z.eqb_spec (total_pages s) 0); [lia|].
  rewrite (u64_small (base + size)) by (unfold PAGE_SIZE in *; lia).
  rewrite PAGE_ALIGN_DOWN_spec, PAGE_ALIGN_spec by (unfold PAGE_SIZE in *; lia).
  set (st := base / PAGE_SIZE). set (en := (base + size + PAGE_SIZE - 1) / PAGE_SIZE).
  assert (st * PAGE_SIZE ≤ base < st * PAGE_SIZE + PAGE_SIZE) by (unfold st, PAGE_SIZE; divlia).
  assert (base + size ≤ en * PAGE_SIZE < base + size + PAGE_SIZE) by (unfold en, PAGE_SIZE; divlia).
  assert (Hnone : (en * PAGE_SIZE ≤ phys_base s ∨ phys_base s + total_pages s * PAGE_SIZE ≤ st * PAGE_SIZE) →
    ∀ p, 0 ≤ p < total_pages s → ¬ page_overlaps s base size p).
  { unfold page_overlaps, page_addr, PAGE_SIZE in *. intros. nia. }
  destruct (Z.leb_spec (en * PAGE_SIZE) (phys_base s)); [by apply reserve_post_einval; auto|].
  set (start := if _ <? _ then _ else _).
  assert (start = Z.max k st * PAGE_SIZE) as Hst.
  { unfold start. destruct (Z.ltb_spec (st * PAGE_SIZE) (phys_base s)); unfold PAGE_SIZE in *; lia. }
  clearbody start. rewrite !page_index_ge by (unfold PAGE_SIZE in *; lia).
  replace ((start - phys_base s) / PAGE_SIZE) with (Z.max k st - k)
    by (apply Z.div_unique_exact; unfold PAGE_SIZE in *; lia).
  replace ((en * PAGE_SIZE - 1 - phys_base s) / PAGE_SIZE) with (en - 1 - k)
    by (apply Z.div_unique with 4095; unfold PAGE_SIZE in *; lia).
  destruct (Z.leb_spec (total_pages s) (Z.max k st - k)).
  { apply reserve_post_einval; [done|]. apply Hnone. unfold PAGE_SIZE in *; lia. }
  set (last := if _ <=? _ then _ else _).
  assert (last = Z.min (total_pages s - 1) (en - 1 - k)) as Hlast.
  { unfold last. destruct (Z.leb_spec (total_pages s) (en - 1 - k)); lia. }
  clearbody last. set (first := Z.max k st - k). unfold PAGE_SIZE in *.
  destruct (reserve_pages_spec first (Z.to_nat (last - first + 1)) s Hinv) as (? & ? & ? & Hfree); [lia|lia|].
  unfold reserve_post, page_overlaps, page_addr, PAGE_SIZE. do 3 (split; [done|]). split.
  - intros p. rewrite Hfree. split; intros [Hin Hno]; (split; [done|]);
      apply elem_of_free_pages in Hin as [? _]; nia.
  - left. split; [done|]. exists first. nia.
Qed.

(** ** Initialisation *)

Lemma phys_mem_init_bits s n :
  let s' := for_from 0 n (λ i s, s <| bitmap ::= <[Z.to_nat i := 0]> |>) s in
  length (bitmap s') = length (bitmap s) ∧
  phys_base s' = phys_base s ∧ total_pages s' = total_pages s ∧
  free_pages_count s' = free_pages_count s ∧
  (Forall (λ b, 0 ≤ b < 256) (bitmap s) → Forall (λ b, 0 ≤ b < 256) (bitmap s')) ∧
  ((n ≤ length (bitmap s))%nat →
   ∀ j : nat, bitmap s' !!! j = if Z.of_nat j <? Z.of_nat n then 0 else bitmap s !!! j).
Proof.
  apply (for_from_ind (λ i s', length (bitmap s') = length (bitmap s) ∧
    phys_base s' = phys_base s ∧ total_pages s' = total_pages s ∧
    free_pages_count s' = free_pages_count s ∧
    (Forall (λ b, 0 ≤ b < 256) (bitmap s) → Forall (λ b, 0 ≤ b < 256) (bitmap s')) ∧
    ((n ≤ length (bitmap s))%nat →
     ∀ j : nat, bitmap s' !!! j = if Z.of_nat j <? i then 0 else bitmap s !!! j))).
  - split_and!; try done. intros _ j. by destruct (Z.ltb_spec (Z.of_nat j) 0); [lia|].
  - intros i s' Hi (Hl & ? & ? & ? & HF & Hj). cbn. split_and!; try done.
    + by rewrite length_insert.
    + intros ?. apply Forall_insert; [auto|lia].
    + intros Hn j. destruct (decide (j = Z.to_nat i)) as [->|Hne].
      * rewrite list_lookup_total_insert_eq by lia. by destruct (Z.ltb_spec (Z.of_nat (Z.to_nat i)) (i + 1)); [|lia].
      * rewrite list_lookup_total_insert_ne by done. rewrite (Hj Hn j).
        destruct (Z.ltb_spec (Z.of_nat j) i), (Z.ltb_spec (Z.of_nat j) (i + 1)); done || lia.
Qed.

Lemma phys_mem_init_cases base size s :
  length (bitmap s) = bitmap_bytes → Forall (λ b, 0 ≤ b < 256) (bitmap s) →
  0 ≤ base → 0 ≤ size → base + size ≤ 2 ^ 64 → size / PAGE_SIZE ≤ MAX_PAGES →
  ∃ s', phys_mem_init base size s = Some (AEGIS_OK, s') ∧ phys_wf s' ∧
    phys_base s' = base ∧ total_pages s' = size / PAGE_SIZE ∧
    free_pages_count s' = total_pages s' ∧
    ∀ p, p ∈ free_pages s' ↔ 0 ≤ p < size / PAGE_SIZE ∧
      (p < size / PAGE_SIZE / 8 * 8 ∨ bitmap_test p s = false).
Proof.
  intros Hl HF Hb Hs Hbs Hmax. unfold phys_mem_init.
  assert (0 ≤ size / PAGE_SIZE ∧ size / PAGE_SIZE * PAGE_SIZE ≤ size) as HT by (unfold PAGE_SIZE; divlia).
  generalize dependent (size / PAGE_SIZE). intros T HT Hmax.
  assert (T / 8 * 8 ≤ T < T / 8 * 8 + 8) as HB by divlia.
  generalize dependent (T / 8). intros B HB.
  destruct (Z.ltb_spec MAX_PAGES T); [lia|].
  set (s0 := s <| phys_base := _ |> <| total_pages := _ |> <| free_pages_count := _ |>).
  destruct (phys_mem_init_bits s0 (Z.to_nat B)) as (Hl' & Hb' & Ht' & Hc' & HF' & Hj).
  set (s' := for_from _ _ _ _) in *. clearbody s'. exists s'. split; [done|].
  pose proof bitmap_bytes_val. unfold MAX_PAGES, PAGE_SIZE in *. cbn in *.
  split; [constructor; unfold PAGE_SIZE, MAX_PAGES; [congruence|auto|lia|lia]|].
  do 2 (split; [done|]). split; [congruence|]. specialize (Hj ltac:(lia)).
  intros p. rewrite elem_of_free_pages, Ht'.
  split; intros [Hp Hbit]; (split; [done|]).
  - rewrite bitmap_test_testbit, Hj in Hbit by lia.
    destruct (Z.ltb_spec (Z.of_nat (Z.to_nat (p / 8))) (Z.of_nat (Z.to_nat B))); [left; divlia|right].
    by rewrite bitmap_test_testbit by lia.
  - rewrite bitmap_test_testbit, Hj by lia.
    destruct (Z.ltb_spec (Z.of_nat (Z.to_nat (p / 8))) (Z.of_nat (Z.to_nat B))); [apply Z.bits_0|].
    destruct Hbit; [divlia|]. by rewrite <-bitmap_test_testbit by lia.
Qed.

Lemma bitmap_clear_set_id p s :
  phys_wf s → 0 ≤ p < MAX_PAGES → bitmap_test p s = false →
  bitmap (bitmap_clear p (bitmap_set p s)) = bitmap s.
Proof.
  intros Hwf Hp Ht. rewrite bitmap_test_testbit in Ht by lia. cbn.
  pose proof (page_byte_lt s p (wf_len _ Hwf) Hp) as [b Hb]%lookup_lt_is_Some_2.
  rewrite (list_lookup_total_correct _ _ _ Hb) in Ht.
  pose proof (proj1 (Forall_lookup _ _) (wf_bytes _ Hwf) _ _ Hb) as Hr. cbn in Hr.
  apply list_eq. intros i. destruct (decide (i = Z.to_nat (p / 8))) as [->|Hne].
  - rewrite !list_lookup_alter_eq, Hb. cbn. f_equal.
    apply Z.bits_inj'. intros n Hn. rewrite Z.land_spec, Z.lor_spec.
    unfold u8. rewrite !testbit_mod_pow2, Z.lnot_spec, testbit_shift1 by divlia.
    destruct (decide (n = p mod 8)) as [->|].
    + rewrite (bool_decide_true (p mod 8 = p mod 8)) by done. cbn. by rewrite andb_false_r.
    + rewrite (bool_decide_false (n = p mod 8)) by done. cbn. rewrite orb_false_r.
      rewrite <-(Z.mod_small b (2 ^ 8)), testbit_mod_pow2 by lia.
      by destruct (Z.testbit b n), (bool_decide (n < 8)).
  - by rewrite !list_lookup_alter_ne.
Qed.

(** * The allocator as an interface

    What the page-table code relies on: a successful allocation returns a
    nonzero, page-aligned frame below the 48-bit physical limit that was
    available before and is not afterwards; nothing else becomes available. *)

Class PageAllocator (S : Type) := {
  pa_alloc : S → Z * S;
  pa_inv : S → Prop;
  pa_available : S → Z → Prop;
  pa_alloc_spec s a s' :
    pa_inv s → pa_alloc s = (a, s') →
    pa_inv s' ∧
    ((a = 0 ∧ s' = s) ∨
     (0 < a < 2 ^ 48 ∧ a mod PAGE_SIZE = 0 ∧ pa_available s a ∧
      ∀ b, pa_available s' b ↔ pa_available s b ∧ b ≠ a));
}.

(** A pool whose frames are all usable in page table entries. *)
Definition pool_inv (s : phys_state) : Prop :=
  phys_inv s ∧ 0 < phys_base s ∧ phys_base s mod PAGE_SIZE = 0 ∧
  phys_base s + total_pages s * PAGE_SIZE ≤ 2 ^ 48.

Definition frame_available (s : phys_state) (a : Z) : Prop :=
  ∃ p, p ∈ free_pages s ∧ a = page_addr s p.

#[export, refine] Instance phys_allocator : PageAllocator phys_state := {|
  pa_alloc := phys_alloc_page;
  pa_inv := pool_inv;
  pa_available := frame_available;
|}.
Proof.
  intros s a s' (Hinv & Hb & Hal & Hlim) Ha.
  destruct (phys_alloc_page_cases s Hinv) as [[He Heq]|(p & s1 & Hp & Hmin & Heq & Hinv' & _ & Hb' & Ht' & Hf)].
  { rewrite Heq in Ha. injection Ha as <- <-. split; [done|]. by left. }
  rewrite Heq in Ha. injection Ha as <- <-.
  apply elem_of_free_pages in Hp as Hp'. unfold page_addr, PAGE_SIZE in *.
  split; [unfold pool_inv, PAGE_SIZE; rewrite Hb', Ht'; done|]. right. split_and!; try lia.
  - divlia.
  - exists p. split; [done|]. unfold page_addr, PAGE_SIZE. lia.
  - intros b. unfold frame_available, page_addr. rewrite Hf, Hb'. unfold PAGE_SIZE. split.
    + intros (q & Hq & ->). apply elem_of_difference in Hq as [? Hq].
      rewrite elem_of_singleton in Hq. split; [by exists q|]. lia.
    + intros [(q & Hq & ->) Hne]. exists q. split; [|done]. apply elem_of_difference.
      split; [done|]. rewrite elem_of_singleton. lia.
Defined.

Lemma free_pages_full s :
  phys_wf s →
  (Z.of_nat (size (free_pages s)) = total_pages s ↔
   ∀ p, 0 ≤ p < total_pages s → p ∈ free_pages s).
Proof.
  intros Hwf. pose proof (wf_total _ Hwf).
  set (R := list_to_set (C := gset Z) (seqZ 0 (total_pages s))).
  assert (size R = Z.to_nat (total_pages s)) as HR.
  { unfold R. rewrite (size_list_to_set (seqZ 0 (total_pages s))) by apply NoDup_seqZ. apply length_seqZ. }
  assert (HRel : ∀ p, p ∈ R ↔ 0 ≤ p < total_pages s).
  { intros p. unfold R. rewrite elem_of_list_to_set, elem_of_seqZ. lia. }
  assert (Hsub : free_pages s ⊆ R).
  { intros p Hp. apply HRel. by apply elem_of_free_pages in Hp as [? _]. }
  split.
  - intros Hsz. assert (free_pages s = R) as -> by (apply set_subseteq_size_eq; [done|lia]).
    intros p. apply HRel.
  - intros Hall. replace (free_pages s) with R; [lia|]. apply set_eq. intros p.
    split; [|apply Hsub]. intros Hp. apply Hall, HRel, Hp.
Qed.

(** A pool of 4096 frames at the base of QEMU's RAM window, freshly initialised. *)
Definition example_pool : phys_state :=
  match phys_mem_init 0x40000000 0x1000000 phys_boot with
  | Some (_, s) => s
  | None => phys_boot
  end.

Lemma example_pool_inv :
  pool_inv example_pool ∧ phys_base example_pool = 0x40000000 ∧ total_pages example_pool = 4096 ∧
  ∀ p, 0 ≤ p < 4096 → p ∈ free_pages example_pool.
Proof.
  destruct (phys_mem_init_cases 0x40000000 0x1000000 phys_boot) as (s & Heq & Hwf & Hb & Ht & Hc & Hf);
    [apply length_replicate|by apply Forall_replicate|lia|lia|lia|done|].
  unfold example_pool. rewrite Heq. change (0x1000000 / PAGE_SIZE) with 4096 in *.
  change (4096 / 8 * 8) with 4096 in Hf.
  assert (Hall : ∀ p, 0 ≤ p < 4096 → p ∈ free_pages s) by (intros p Hp; apply Hf; lia).
  split; [|split; [exact Hb|split; [exact Ht|exact Hall]]].
  split; [split; [exact Hwf|]|rewrite Hb, Ht; split; [lia|split; [reflexivity|unfold PAGE_SIZE; lia]]].
  rewrite Hc. symmetry. apply free_pages_full; [done|]. by rewrite Ht.
Qed.

#[global] Opaque example_pool.

Lemma example_pool_alloc : fst (phys_alloc_page example_pool) = 0x40000000.
Proof.
  destruct example_pool_inv as ((Hinv & _) & Hb & Ht & Hf).
  destruct (phys_alloc_page_cases _ Hinv) as [[He _]|(p & s' & Hp & Hmin & -> & _)].
  - pose proof (Hf 0 ltac:(lia)) as Hin. rewrite He in Hin. destruct (not_elem_of_empty _ Hin).
  - pose proof (Hmin 0 (Hf 0 ltac:(lia))). apply elem_of_free_pages in Hp as [? _].
    cbn. unfold page_addr. rewrite Hb. by replace p with 0 by lia.
Qed.

(** * Theorems *)

(** [phys_alloc_page] implements "take the least free page": it returns 0
    and changes nothing when the pool is exhausted, and otherwise returns the
    address of the least free page, removes exactly that page from the free
    set, and keeps the counter equal to the number of free pages. *)
Theorem phys_alloc_page_refines s :
  phys_inv s →
  let '(a, s') := phys_alloc_page s in
  phys_inv s' ∧
  ((free_pages s = ∅ ∧ a = 0 ∧ s' = s) ∨
   (∃ p, p ∈ free_pages s ∧ (∀ q, q ∈ free_pages s → p ≤ q) ∧ a = page_addr s p ∧
         free_pages s' = free_pages s ∖ {[p]} ∧
         phys_mem_free_pages s' = phys_mem_free_pages s - 1)).
Proof.
  intros Hinv.
  destruct (phys_alloc_page_cases s Hinv)
    as [[He ->]|(p & s' & Hp & Hmin & -> & Hinv' & _ & _ & _ & Hf)].
  - split; [done|]. by left.
  - split; [done|]. right. exists p. split_and!; try done.
    unfold phys_mem_free_pages. destruct Hinv as [_ ->], Hinv' as [_ ->].
    rewrite Hf. by apply size_minus_elem.
Qed.

Lemma phys_alloc_page_refines_witness :
  let '(a, s') := phys_alloc_page example_pool in
  a = 0x40000000 ∧ phys_mem_free_pages s' = phys_mem_free_pages example_pool - 1.
Proof.
  destruct example_pool_inv as ((Hinv & _) & Hb & Ht & Hf).
  pose proof (phys_alloc_page_refines example_pool Hinv) as H.
  pose proof example_pool_alloc as E.
  destruct (phys_alloc_page example_pool) as [a s']. cbn in E. split; [exact E|].
  destruct H as [_ [(_ & -> & _)|(p & _ & _ & _ & _ & Hc)]]; [discriminate E|exact Hc].
Defined.

(** Freeing the page just allocated restores the allocator exactly, bitmap
    and counters included. *)
Theorem phys_alloc_free_roundtrip s :
  phys_inv s → free_pages s ≠ ∅ →
  let '(a, s') := phys_alloc_page s in phys_free_page a s' = s.
Proof.
  intros Hinv Hne. pose proof Hinv as [Hwf Hc].
  destruct (phys_alloc_page_cases s Hinv)
    as [[He _]|(p & s' & Hp & Hmin & Heq & Hinv' & Hbm & Hb & Ht & Hf)]; [done|].
  rewrite Heq. apply elem_of_free_pages in Hp as Hp'. pose proof (wf_total _ Hwf).
  destruct (phys_free_page_cases s' p Hinv') as ([_ Hc2] & Hf2 & Hb2 & Ht2 & Hbm2);
    [lia|rewrite Hf; set_solver|].
  unfold page_addr in *. rewrite Hb in *. set (r := phys_free_page _ _) in *. clearbody r.
  assert (bitmap r = bitmap s) as E1.
  { rewrite Hbm2. cbn. rewrite Hbm. apply bitmap_clear_set_id; [done|lia|tauto]. }
  assert (free_pages_count r = free_pages_count s) as E2.
  { rewrite Hc2, Hc, Hf2, Hf. f_equal. f_equal. apply set_eq. intros q.
    destruct (decide (q = p)); set_solver. }
  destruct r, s; cbn in *. f_equal; congruence.
Qed.

Lemma phys_alloc_free_roundtrip_witness :
  let '(a, s') := phys_alloc_page example_pool in phys_free_page a s' = example_pool.
Proof.
  destruct example_pool_inv as ((Hinv & _) & _ & _ & Hf).
  apply (phys_alloc_free_roundtrip example_pool Hinv).
  exact (non_empty_inhabited_L _ _ (Hf 0 ltac:(lia))).
Defined.

(** [phys_reserve_range] takes out of the pool exactly the pages that
    overlap the given byte range, keeps the counter exact, and reports
    [AEGIS_EINVAL] (changing nothing) exactly when no page overlaps. *)
Theorem phys_reserve_range_exact s base size :
  phys_inv s → phys_base s mod PAGE_SIZE = 0 → 0 < total_pages s →
  0 ≤ base → 0 < size → base + size + PAGE_SIZE ≤ 2 ^ 64 →
  let '(rc, s') := phys_reserve_range base size s in reserve_post s base size rc s'.
Proof. apply phys_reserve_range_cases. Qed.

Lemma phys_reserve_range_exact_witness :
  let '(rc, s') := phys_reserve_range 0x40000800 0x1000 example_pool in
  reserve_post example_pool 0x40000800 0x1000 rc s'.
Proof.
  destruct example_pool_inv as ((Hinv & _ & Hal & _) & Hb & Ht & _).
  apply (phys_reserve_range_exact example_pool 0x40000800 0x1000 Hinv Hal);
    [rewrite Ht|..]; unfold PAGE_SIZE; lia.
Defined.

(** ** Clients of the allocator

    A run of the kernel over the pool: [owned] is the set of frames handed out
    and not yet returned.  Clients free only frames they own. *)

Inductive pool_step : phys_state * gset Z → phys_state * gset Z → Prop :=
  | step_alloc s owned a s' :
      phys_alloc_page s = (a, s') → a ≠ 0 →
      pool_step (s, owned) (s', {[a]} ∪ owned)
  | step_alloc_fail s owned s' :
      phys_alloc_page s = (0, s') → pool_step (s, owned) (s', owned)
  | step_free s owned a :
      a ∈ owned → pool_step (s, owned) (phys_free_page a s, owned ∖ {[a]})
  | step_reserve s owned base size rc s' :
      0 ≤ base → 0 < size → base + size + PAGE_SIZE ≤ 2 ^ 64 →
      phys_reserve_range base size s = (rc, s') →
      pool_step (s, owned) (s', owned).

Definition pool_reachable (s : phys_state) (owned : gset Z) : Prop :=
  ∃ s0, pool_inv s0 ∧ 0 < total_pages s0 ∧ rtc pool_step (s0, ∅) (s, owned).

(** Every owned frame is a pool page whose bit is set. *)
Definition owned_inv (s : phys_state) (owned : gset Z) : Prop :=
  pool_inv s ∧ 0 < total_pages s ∧
  ∀ a, a ∈ owned → ∃ p, 0 ≤ p < total_pages s ∧ a = page_addr s p ∧ p ∉ free_pages s.

Lemma page_addr_inj s p q : page_addr s p = page_addr s q → p = q.
Proof. unfold page_addr, PAGE_SIZE. lia. Qed.

Lemma owned_inv_alloc s owned :
  owned_inv s owned →
  let '(a, s') := phys_alloc_page s in
  (a = 0 ∧ s' = s) ∨ ((a ≠ 0) ∧ (a ∉ owned) ∧ owned_inv s' ({[a]} ∪ owned)).
Proof.
  intros ((Hinv & Hb & Hal & Hl) & Ht & Ho).
  destruct (phys_alloc_page_cases s Hinv)
    as [[He ->]|(p & s' & Hp & Hmin & -> & Hinv' & _ & Hb' & Ht' & Hf)]; [by left|right].
  apply elem_of_free_pages in Hp as Hp'. split_and!.
  - unfold page_addr, PAGE_SIZE in *. lia.
  - intros (q & _ & Hq%page_addr_inj & Hnf)%Ho. congruence.
  - split; [unfold pool_inv; rewrite Hb', Ht'; done|]. rewrite Ht'. split; [done|].
    unfold page_addr. rewrite Hb', Hf.
    intros b [->%elem_of_singleton|(q & ? & -> & ?)%Ho]%elem_of_union.
    + exists p. split_and!; try (done || lia). set_solver.
    + exists q. split_and!; try (done || lia). set_solver.
Qed.

Lemma owned_inv_free s owned a :
  owned_inv s owned → a ∈ owned → owned_inv (phys_free_page a s) (owned ∖ {[a]}).
Proof.
  intros ((Hinv & Hb & Hal & Hl) & Ht & Ho) Ha.
  destruct (Ho a Ha) as (p & Hp & -> & Hnf).
  destruct (phys_free_page_cases s p Hinv Hp Hnf) as (Hinv' & Hf & Hb' & Ht' & _).
  set (s' := phys_free_page _ _) in *. clearbody s'.
  split; [unfold pool_inv; rewrite Hb', Ht'; done|]. rewrite Ht'. split; [done|].
  intros b [Hbo Hne]%elem_of_difference. destruct (Ho b Hbo) as (q & ? & -> & ?).
  exists q. split_and!; [lia|lia|by unfold page_addr; rewrite Hb'|].
  rewrite Hf. intros [->%elem_of_singleton|]%elem_of_union; [|done]. set_solver.
Qed.

Lemma owned_inv_reserve s owned base size rc s' :
  owned_inv s owned → 0 ≤ base → 0 < size → base + size + PAGE_SIZE ≤ 2 ^ 64 →
  phys_reserve_range base size s = (rc, s') → owned_inv s' owned.
Proof.
  intros ((Hinv & Hb & Hal & Hl) & Ht & Ho) H1 H2 H3 Heq.
  pose proof (phys_reserve_range_cases s base size Hinv Hal Ht H1 H2 H3) as H. rewrite Heq in H.
  destruct H as (Hinv' & Hb' & Ht' & Hf & _).
  split; [unfold pool_inv; rewrite Hb', Ht'; done|]. rewrite Ht'. split; [done|].
  intros a (p & ? & -> & Hnf)%Ho. exists p. unfold page_addr. rewrite Hb'.
  split_and!; try (done || lia). rewrite Hf. tauto.
Qed.

Lemma pool_reachable_inv s owned : pool_reachable s owned → owned_inv s owned.
Proof.
  intros (s0 & H0 & Ht0 & Hrun).
  assert (owned_inv s0 ∅) as Hi by (split; [done|]; split; [done|]; intros ? []%not_elem_of_empty).
  remember (s0, ∅) as c0 eqn:E0. remember (s, owned) as c eqn:E.
  assert (owned_inv c0.1 c0.2) as Hi' by (by subst). clear Hi E0 H0 Ht0 s0.
  assert (owned_inv c.1 c.2) as Hc; [|by subst]. clear E s owned.
  induction Hrun as [c|c1 c2 c3 Hs Hrun IH]; [done|]. apply IH. clear IH Hrun c3.
  inversion Hs as [s o a s' Ha Hnz|s o s' Ha|s o a Ha|s o b sz rc s' ? ? ? Hr]; subst; cbn in *.
  - pose proof (owned_inv_alloc s o Hi') as H. rewrite Ha in H. naive_solver.
  - pose proof (owned_inv_alloc s o Hi') as H. rewrite Ha in H. destruct H as [[_ ->]|[? _]]; done.
  - by apply owned_inv_free.
  - by eapply owned_inv_reserve.
Qed.

(** C15: along any run in which clients free only frames they own, however
    allocations, frees and reservations are interleaved, [phys_alloc_page]
    never hands out a frame that is still owned, and the free-page counter
    stays exact. *)
Theorem phys_alloc_no_double_allocation s owned :
  pool_reachable s owned →
  free_pages_count s = Z.of_nat (size (free_pages s)) ∧
  ∀ a s', phys_alloc_page s = (a, s') → a ≠ 0 → a ∉ owned.
Proof.
  intros Hr%pool_reachable_inv. split; [by destruct Hr as [[[_ ?] _] _]|].
  intros a s' Ha Hnz. pose proof (owned_inv_alloc s owned Hr) as H. rewrite Ha in H.
  destruct H as [[? _]|(_ & ? & _)]; done.
Qed.

Lemma phys_alloc_no_double_allocation_witness :
  let '(a, s1) := phys_alloc_page example_pool in
  pool_reachable s1 {[a]} ∧ ∀ b s2, phys_alloc_page s1 = (b, s2) → b ≠ 0 → b ≠ a.
Proof.
  destruct example_pool_inv as (Hpool & Hb & Ht & Hf).
  destruct (phys_alloc_page example_pool) as [a s1] eqn:Ha.
  assert (a ≠ 0) as Hnz by (pose proof example_pool_alloc as E; rewrite Ha in E; cbn in E; lia).
  assert (pool_reachable s1 {[a]}) as Hr.
  { exists example_pool. split; [done|]. split; [lia|].
    apply rtc_once. replace ({[a]} : gset Z) with ({[a]} ∪ ∅ : gset Z) by apply union_empty_r_L.
    by apply step_alloc. }
  split; [done|]. intros b s2 Hb2 Hnz2 ->.
  destruct (phys_alloc_no_double_allocation s1 {[a]} Hr) as [_ H].
  apply (H a s2 Hb2 Hnz2). by apply elem_of_singleton.
Defined.

(** [phys_mem_init] on any bitmap storage succeeds when the page count fits
    the bitmap, and then establishes the invariant exactly when the pages past
    the last whole bitmap byte (at most seven, since the loop clears
    [total_pages / 8] bytes) were already clear; it panics when the page count
    does not fit. *)
Theorem phys_mem_init_establishes base size s :
  length (bitmap s) = bitmap_bytes → Forall (λ b, 0 ≤ b < 256) (bitmap s) →
  0 ≤ base → 0 ≤ size → base + size ≤ 2 ^ 64 →
  (MAX_PAGES < size / PAGE_SIZE ∧ phys_mem_init base size s = None) ∨
  (∃ s', phys_mem_init base size s = Some (AEGIS_OK, s') ∧
    phys_base s' = base ∧ total_pages s' = size / PAGE_SIZE ∧
    (phys_inv s' ↔
      ∀ p, size / PAGE_SIZE / 8 * 8 ≤ p < size / PAGE_SIZE → bitmap_test p s = false)).
Proof.
  intros Hl HF Hb Hs Hbs. destruct (decide (MAX_PAGES < size / PAGE_SIZE)) as [Hm|Hm].
  { left. split; [done|]. unfold phys_mem_init.
    by destruct (Z.ltb_spec MAX_PAGES (size / PAGE_SIZE)); [|lia]. }
  right. destruct (phys_mem_init_cases base size s Hl HF Hb Hs Hbs) as (s' & Heq & Hwf & Hb' & Ht & Hc & Hf); [lia|].
  exists s'. split_and!; try done. unfold phys_inv. rewrite Hc.
  assert (0 ≤ size / PAGE_SIZE) as HT by (unfold PAGE_SIZE; divlia).
  generalize dependent (size / PAGE_SIZE). intros T Hm Ht Hf HT.
  assert (0 ≤ T / 8 * 8 ≤ T) as HB by divlia.
  generalize dependent (T / 8 * 8). intros B Hf HB.
  pose proof (free_pages_full s' Hwf) as Hfull. rewrite Ht in Hfull. rewrite Ht. split.
  - intros [_ Hsz] p Hp. symmetry in Hsz. apply Hfull with (p := p) in Hsz; [|lia].
    apply Hf in Hsz as [_ [?|?]]; [lia|done].
  - intros Hall. split; [done|]. symmetry. apply Hfull. intros p Hp. apply Hf. split; [done|].
    destruct (decide (p < B)); [by left|right]. apply Hall. lia.
Qed.

Lemma phys_mem_init_establishes_witness :
  ∃ s', phys_mem_init 0x40000000 0x1000000 phys_boot = Some (AEGIS_OK, s') ∧ phys_inv s'.
Proof.
  destruct (phys_mem_init_establishes 0x40000000 0x1000000 phys_boot)
    as [[H _]|(s' & Heq & _ & _ & Hinv)];
    [apply length_replicate|by apply Forall_replicate|lia|lia|lia| |].
  - exfalso. revert H. change (0x1000000 / PAGE_SIZE) with 4096. unfold MAX_PAGES. lia.
  - exists s'. split; [exact Heq|]. apply Hinv. change (0x1000000 / PAGE_SIZE) with 4096.
    change (4096 / 8 * 8) with 4096. intros p Hp. lia.
Defined.

(** Freeing a page that is already free counts it twice: the counter then
    exceeds the number of free pages by one. *)
Theorem phys_free_page_double_free s p :
  phys_inv s → p ∈ free_pages s →
  let s' := phys_free_page (page_addr s p) s in
  free_pages s' = free_pages s ∧
  phys_mem_free_pages s' = Z.of_nat (size (free_pages s')) + 1.
Proof.
  intros [Hwf Hc] Hp. apply elem_of_free_pages in Hp as Hp'. unfold phys_free_page.
  rewrite (free_page_index s _ p) by tauto.
  destruct (Z.leb_spec (total_pages s) p); [lia|]. cbn zeta.
  set (s' := _ <| _ ::= _ |>).
  assert (free_pages s' = {[p]} ∪ free_pages s) as Hs' by (apply free_pages_clear; tauto).
  assert (free_pages s' = free_pages s) as E by (rewrite Hs'; set_solver).
  split; [done|]. rewrite E. pose proof (free_pages_size_bound s Hwf). pose proof (wf_total _ Hwf).
  unfold phys_mem_free_pages, MAX_PAGES in *. cbn. rewrite Hc, u64_small; lia.
Qed.

(** An address outside the pool is ignored by [phys_free_page]. *)
Lemma phys_free_page_foreign s a :
  phys_wf s → 0 ≤ a < 2 ^ 64 →
  a < phys_base s ∨ phys_base s + total_pages s * PAGE_SIZE ≤ a →
  phys_free_page a s = s.
Proof.
  intros Hwf Ha Ho. pose proof (wf_total _ Hwf). pose proof (wf_base _ Hwf).
  unfold phys_free_page. destruct (Z.leb_spec (total_pages s) (u64 (a - phys_base s) / PAGE_SIZE)) as [|Hlt]; [done|].
  exfalso. unfold u64, PAGE_SIZE, MAX_PAGES in *. divlia.
Qed.
