(* ===== verification/PageTable.v ===== *)
(** AArch64 four-level page tables: kernel/memory/page_tables.c and
    kernel/memory/virtual_memory.c.

    RAM is a map from the byte address of a 64-bit word to its value (the
    early kernel identity-maps RAM, so a table's physical address is also the
    pointer through which it is written).  The operations are those of the C
    files, over any allocator that satisfies [PageAllocator].

    [translate] is the walk the MMU performs.  The main theorems say that
    [page_table_map] behaves as insertion into the translation function of
    the given root and of no other root, [page_table_query] as lookup and
    [virt_unmap] as deletion, for every forest of tables that satisfies
    [pt_wf]. *)

From S2P Require Import Prelude PhysMem.

(** [kernel/include/memory.h] *)
Definition AEGIS_VM_READ : Z := Z.shiftl 1 0.
Definition AEGIS_VM_WRITE : Z := Z.shiftl 1 1.
Definition AEGIS_VM_EXEC : Z := Z.shiftl 1 2.
Definition AEGIS_VM_USER : Z := Z.shiftl 1 3.
Definition AEGIS_VM_KERNEL : Z := Z.shiftl 1 4.
Definition AEGIS_VM_GUARD : Z := Z.shiftl 1 5.

(** Page table entry fields *)
Definition PTE_VALID : Z := Z.shiftl 1 0.
Definition PTE_TABLE : Z := Z.shiftl 1 1.
Definition PTE_PAGE : Z := Z.shiftl 1 1.
Definition PTE_AF : Z := Z.shiftl 1 10.
Definition PTE_SH_INNER : Z := Z.shiftl 3 8.
Definition PTE_MAIR_IDX (n : Z) : Z := Z.shiftl n 2.
Definition PTE_AP_RW_EL1 : Z := Z.shiftl 0 6.
Definition PTE_AP_RW_ALL : Z := Z.shiftl 1 6.
Definition PTE_AP_RO_EL1 : Z := Z.shiftl 2 6.
Definition PTE_AP_RO_ALL : Z := Z.shiftl 3 6.
Definition PTE_AP_MASK : Z := Z.shiftl 3 6.
Definition PTE_PXN : Z := Z.shiftl 1 53.
Definition PTE_UXN : Z := Z.shiftl 1 54.
Definition PTE_ADDR_MASK : Z := 0x0000FFFFFFFFF000.
Definition INDEX_MASK : Z := 0x1FF.
Definition L0_SHIFT : Z := 39.
Definition L1_SHIFT : Z := 30.
Definition L2_SHIFT : Z := 21.
Definition L3_SHIFT : Z := 12.

Definition page_attrs_from_flags (flags : Z) : Z :=
  let attrs := Z.lor (Z.lor (Z.lor (Z.lor PTE_VALID PTE_PAGE) PTE_AF) PTE_SH_INNER) (PTE_MAIR_IDX 0) in
  if has_flag flags AEGIS_VM_USER then
    let attrs := if has_flag flags AEGIS_VM_WRITE then Z.lor attrs PTE_AP_RW_ALL
                 else Z.lor attrs PTE_AP_RO_ALL in
    let attrs := Z.lor attrs PTE_PXN in
    if Z.land flags AEGIS_VM_EXEC =? 0 then Z.lor attrs PTE_UXN else attrs
  else
    let attrs := if has_flag flags AEGIS_VM_WRITE then Z.lor attrs PTE_AP_RW_EL1
                 else Z.lor attrs PTE_AP_RO_EL1 in
    if Z.land flags AEGIS_VM_EXEC =? 0 then Z.lor attrs (Z.lor PTE_UXN PTE_PXN)
    else Z.lor attrs PTE_UXN.

Definition page_table_entry_is_valid (entry : Z) : bool := negb (Z.land entry PTE_VALID =? 0).
Definition page_table_entry_allows_user (entry : Z) : bool :=
  let ap := Z.land entry PTE_AP_MASK in (ap =? PTE_AP_RW_ALL) || (ap =? PTE_AP_RO_ALL).
Definition page_table_entry_allows_write (entry : Z) : bool :=
  let ap := Z.land entry PTE_AP_MASK in (ap =? PTE_AP_RW_EL1) || (ap =? PTE_AP_RW_ALL).
Definition page_table_entry_allows_el0_execute (entry : Z) : bool :=
  page_table_entry_allows_user entry && (Z.land entry PTE_UXN =? 0).
Definition page_table_entry_is_privileged_only (entry : Z) : bool :=
  page_table_entry_is_valid entry && negb (page_table_entry_allows_user entry).

(** * Memory *)

Abbreviation ram := (gmap Z Z).
Definition rd (m : ram) (a : Z) : Z := default 0 (m !! a).
Definition wr (a v : Z) (m : ram) : ram := <[a := v]> m.
(** [&table[i]] for an array of 64-bit words *)
Definition slot (table i : Z) : Z := table + 8 * i.

(** [for (i = 0; i < 512; i++) p[i] = 0;] *)
Definition zero_page (pa : Z) (m : ram) : ram :=
  for_from 0 512 (λ i, wr (slot pa i) 0) m.

Section operations.
Context {A : Type} {PA : PageAllocator A}.

Record vm_state := mk_vm { vm_alloc : A; vm_ram : ram }.
#[export] Instance vm_state_eta : Eta vm_state := λ s, mk_vm (vm_alloc s) (vm_ram s).

Definition alloc_page_table (s : vm_state) : Z * vm_state :=
  let '(pa, al) := pa_alloc (vm_alloc s) in
  let s := s <| vm_alloc := al |> in
  if pa =? 0 then (0, s)
  else (pa, s <| vm_ram ::= zero_page pa |>).

(** One level of the descent: [if (!(t[i] & PTE_VALID)) { allocate; t[i] = ... }]
    and the pointer to the next table. *)
Definition ensure_table (t i : Z) (s : vm_state) : option Z * vm_state :=
  if has_flag (rd (vm_ram s) (slot t i)) PTE_VALID
  then (Some (Z.land (rd (vm_ram s) (slot t i)) PTE_ADDR_MASK), s)
  else
    let '(new, s) := alloc_page_table s in
    if new =? 0 then (None, s)
    else
      let e := Z.lor (Z.lor (Z.land new PTE_ADDR_MASK) PTE_VALID) PTE_TABLE in
      let s := s <| vm_ram ::= wr (slot t i) e |> in
      (Some (Z.land (rd (vm_ram s) (slot t i)) PTE_ADDR_MASK), s).

Definition va_index (va shift : Z) : Z := Z.land (Z.shiftr va shift) INDEX_MASK.

Definition page_table_init (kernel_pgtable : Z) (s : vm_state) : Z * vm_state :=
  (AEGIS_OK, s <| vm_ram ::= zero_page kernel_pgtable |>).

Definition page_table_map (l0 va pa flags : Z) (s : vm_state) : Z * vm_state :=
  if l0 =? 0 then (AEGIS_EINVAL, s)
  else if negb (Z.land va (PAGE_SIZE - 1) =? 0) || negb (Z.land pa (PAGE_SIZE - 1) =? 0)
  then (AEGIS_EINVAL, s)
  else if has_flag flags AEGIS_VM_GUARD then (AEGIS_EINVAL, s)
  else
    match ensure_table l0 (va_index va L0_SHIFT) s with
    | (None, s) => (AEGIS_ENOMEM, s)
    | (Some l1, s) =>
        match ensure_table l1 (va_index va L1_SHIFT) s with
        | (None, s) => (AEGIS_ENOMEM, s)
        | (Some l2, s) =>
            match ensure_table l2 (va_index va L2_SHIFT) s with
            | (None, s) => (AEGIS_ENOMEM, s)
            | (Some l3, s) =>
                (AEGIS_OK,
                 s <| vm_ram ::= wr (slot l3 (va_index va L3_SHIFT))
                        (Z.lor (Z.land pa PTE_ADDR_MASK) (page_attrs_from_flags flags)) |>)
            end
        end
    end.

(** Result code with the two out-parameters ([pa_out], [entry_out]). *)
Definition page_table_query (l0 va : Z) (s : vm_state) : Z * option (Z * Z) :=
  let m := vm_ram s in
  if l0 =? 0 then (AEGIS_EINVAL, None)
  else
    let e0 := rd m (slot l0 (va_index va L0_SHIFT)) in
    if negb (has_flag e0 PTE_VALID) then (AEGIS_ENOENT, None)
    else
      let l1 := Z.land e0 PTE_ADDR_MASK in
      let e1 := rd m (slot l1 (va_index va L1_SHIFT)) in
      if negb (has_flag e1 PTE_VALID) then (AEGIS_ENOENT, None)
      else
        let l2 := Z.land e1 PTE_ADDR_MASK in
        let e2 := rd m (slot l2 (va_index va L2_SHIFT)) in
        if negb (has_flag e2 PTE_VALID) then (AEGIS_ENOENT, None)
        else
          let l3 := Z.land e2 PTE_ADDR_MASK in
          let entry := rd m (slot l3 (va_index va L3_SHIFT)) in
          if negb (has_flag entry PTE_VALID) then (AEGIS_ENOENT, None)
          else (AEGIS_OK,
                Some (Z.lor (Z.land entry PTE_ADDR_MASK) (Z.land va (PAGE_SIZE - 1)), entry)).

(** The [while (offset < size)] loops; [None] when the fuel runs out. *)
Fixpoint virt_map_loop (fuel : nat) (kernel_pgtable va pa size flags offset : Z)
    (s : vm_state) : option (Z * vm_state) :=
  if offset <? size then
    match fuel with
    | O => None
    | S fuel =>
        let '(ret, s) := page_table_map kernel_pgtable (u64 (va + offset)) (u64 (pa + offset)) flags s in
        if negb (ret =? AEGIS_OK) then Some (ret, s)
        else virt_map_loop fuel kernel_pgtable va pa size flags (u64 (offset + PAGE_SIZE)) s
    end
  else Some (AEGIS_OK, s).

Definition virt_map (fuel : nat) (kernel_pgtable va pa size flags : Z) (s : vm_state) :=
  virt_map_loop fuel kernel_pgtable va pa size flags 0 s.

(** [~0xFFFULL] as a 64-bit mask *)
Definition TABLE_MASK : Z := u64 (Z.lnot 0xFFF).

Definition virt_unmap_page (kernel_pgtable cur : Z) (m : ram) : ram :=
  let e0 := rd m (slot kernel_pgtable (va_index cur 39)) in
  if Z.land e0 1 =? 0 then m
  else
    let l1 := Z.land e0 TABLE_MASK in
    let e1 := rd m (slot l1 (va_index cur 30)) in
    if Z.land e1 1 =? 0 then m
    else
      let l2 := Z.land e1 TABLE_MASK in
      let e2 := rd m (slot l2 (va_index cur 21)) in
      if Z.land e2 1 =? 0 then m
      else
        let l3 := Z.land e2 TABLE_MASK in
        wr (slot l3 (va_index cur 12)) 0 m.

Fixpoint virt_unmap_loop (fuel : nat) (kernel_pgtable va size offset : Z) (m : ram) : option ram :=
  if offset <? size then
    match fuel with
    | O => None
    | S fuel =>
        virt_unmap_loop fuel kernel_pgtable va size (u64 (offset + 4096))
          (virt_unmap_page kernel_pgtable (u64 (va + offset)) m)
    end
  else Some m.

Definition virt_unmap (fuel : nat) (kernel_pgtable va size : Z) (s : vm_state) : option (Z * vm_state) :=
  match virt_unmap_loop fuel kernel_pgtable va size 0 (vm_ram s) with
  | Some m => Some (AEGIS_OK, s <| vm_ram := m |>)
  | None => None
  end.
End operations.
Arguments vm_state A : clear implicits.

(** * The translation function *)

(** Index of [va] at height [h]: 3 is the root (L0), 0 the leaf table (L3). *)
Definition height_shift (h : nat) : Z := 12 + 9 * Z.of_nat h.
Definition idx (h : nat) (va : Z) : Z := va_index va (height_shift h).
(** The 36-bit virtual page number *)
Definition vpn (va : Z) : Z := (va / PAGE_SIZE) mod 2 ^ 36.

Definition next_table (m : ram) (t i : Z) : option Z :=
  let e := rd m (slot t i) in
  if has_flag e PTE_VALID then Some (Z.land e PTE_ADDR_MASK) else None.

(** Address of the leaf entry for [va], walking down from a table at height [h]. *)
Fixpoint walk (h : nat) (m : ram) (t va : Z) : option Z :=
  match h with
  | O => Some (slot t (idx 0 va))
  | S h' =>
      match next_table m t (idx h va) with
      | Some c => walk h' m c va
      | None => None
      end
  end.

Definition leaf (m : ram) (o : option Z) : option Z :=
  match o with
  | Some a => let e := rd m a in if has_flag e PTE_VALID then Some e else None
  | None => None
  end.

Definition translate (m : ram) (l0 va : Z) : option Z := leaf m (walk 3 m l0 va).

(** * Well-formed forests of tables

    [own] gives the height of every table page.  Valid entries of a table that
    is not a leaf table are table descriptors of distinct tables one level
    below, so the tables form a forest; no table page is available to the
    allocator. *)

Record pt_wf {A} `{PageAllocator A} (own : gmap Z nat) (s : vm_state A) : Prop := {
  pt_alloc : pa_inv (vm_alloc s);
  pt_page t h : own !! t = Some h →
    (h ≤ 3)%nat ∧ 0 < t < 2 ^ 48 ∧ t mod PAGE_SIZE = 0 ∧ ¬ pa_available (vm_alloc s) t;
  pt_child t h i : own !! t = Some (S h) → 0 ≤ i < 512 →
    has_flag (rd (vm_ram s) (slot t i)) PTE_VALID = true →
    ∃ c, rd (vm_ram s) (slot t i) = c + 3 ∧ own !! c = Some h;
  pt_inj t h i t' h' i' c : own !! t = Some (S h) → own !! t' = Some (S h') →
    0 ≤ i < 512 → 0 ≤ i' < 512 → own !! c = Some h →
    rd (vm_ram s) (slot t i) = c + 3 → rd (vm_ram s) (slot t' i') = c + 3 →
    t = t' ∧ i = i';
}.

(** ** Arithmetic of entries and indices *)

Lemma rd_wr_eq a v m : rd (wr a v m) a = v.
Proof. unfold rd, wr. by rewrite lookup_insert_eq. Qed.
Lemma rd_wr_ne a b v m : a ≠ b → rd (wr a v m) b = rd m b.
Proof. intros. unfold rd, wr. by rewrite lookup_insert_ne. Qed.

Lemma slot_inj t t' i i' :
  t mod PAGE_SIZE = 0 → t' mod PAGE_SIZE = 0 → 0 ≤ i < 512 → 0 ≤ i' < 512 →
  slot t i = slot t' i' → t = t' ∧ i = i'.
Proof. unfold slot, PAGE_SIZE. intros. divlia. Qed.

Lemma va_index_eq va shift : 0 ≤ shift → va_index va shift = va / 2 ^ shift mod 512.
Proof.
  intros. unfold va_index, INDEX_MASK. change 0x1FF with (Z.ones 9).
  rewrite Z.land_ones, Z.shiftr_div_pow2 by lia. done.
Qed.
Lemma idx_range h va : 0 ≤ idx h va < 512.
Proof. unfold idx. rewrite va_index_eq by (unfold height_shift; lia). apply Z.mod_pos_bound. lia. Qed.
#[export] Hint Resolve idx_range : aegis.

(** The four indices are the digits of the virtual page number in base 512. *)
Lemma idx_digit k va : (k ≤ 3)%nat → idx k va = vpn va / 512 ^ Z.of_nat k mod 512.
Proof.
  intros Hk. unfold idx. rewrite va_index_eq by (unfold height_shift; lia).
  unfold vpn, PAGE_SIZE, height_shift.
  do 4 (destruct k as [|k]; [cbn -[Z.mul Z.div Z.modulo Z.pow];
    repeat match goal with
    | |- context [?b ^ ?e] => let x := eval vm_compute in (b ^ e) in change (b ^ e) with x
    end; divlia|]). lia.
Qed.

Lemma vpn_idx va va' : (∀ k, (k ≤ 3)%nat → idx k va = idx k va') ↔ vpn va = vpn va'.
Proof.
  split; intros H.
  - assert (Hd : ∀ v, vpn v = idx 0 v + 512 * idx 1 v + 262144 * idx 2 v + 134217728 * idx 3 v).
    { intros v. rewrite !idx_digit by lia.
      assert (0 ≤ vpn v < 68719476736) as Hr by (apply Z.mod_pos_bound; lia).
      generalize dependent (vpn v). intros x Hr. cbn -[Z.mul Z.div Z.modulo Z.pow].
      change (512 ^ 0) with 1. change (512 ^ 1) with 512. change (512 ^ 2) with 262144.
      change (512 ^ 3) with 134217728. divlia. }
    by rewrite (Hd va), (Hd va'), (H 0%nat), (H 1%nat), (H 2%nat), (H 3%nat) by lia.
  - intros k Hk. by rewrite !idx_digit, H by done.
Qed.

Lemma has_flag_valid e : has_flag e PTE_VALID = Z.odd e.
Proof. unfold has_flag, PTE_VALID. change (Z.shiftl 1 0) with 1. rewrite land_1_testbit. apply Z.bit0_odd. Qed.

(** The address field of an entry. *)
Lemma land_addr_mask x : Z.land x PTE_ADDR_MASK = x mod 2 ^ 48 / 4096 * 4096.
Proof.
  change 4096 with (2 ^ 12) at 1 2.
  rewrite <-Z.shiftl_mul_pow2, <-Z.shiftr_div_pow2 by lia.
  apply Z.bits_inj'. intros n Hn.
  change PTE_ADDR_MASK with (Z.shiftl (Z.ones 36) 12).
  rewrite Z.land_spec, !Z.shiftl_spec by done.
  destruct (decide (n < 12)).
  { rewrite !(Z.testbit_neg_r _ (n - 12)) by lia. by rewrite andb_false_r. }
  rewrite Z.shiftr_spec by lia. replace (n - 12 + 12) with n by lia.
  rewrite testbit_mod_pow2, Z.testbit_ones_nonneg by lia. f_equal.
  destruct (Z.ltb_spec (n - 12) 36), (bool_decide_reflect (n < 48)); done || lia.
Qed.

Lemma table_descriptor c :
  0 ≤ c < 2 ^ 48 → c mod PAGE_SIZE = 0 →
  Z.lor (Z.lor (Z.land c PTE_ADDR_MASK) PTE_VALID) PTE_TABLE = c + 3.
Proof.
  intros Hc Ha. unfold PAGE_SIZE in Ha. rewrite land_addr_mask.
  replace (c mod 2 ^ 48 / 4096 * 4096) with c by divlia.
  rewrite <-Z.lor_assoc. change (Z.lor PTE_VALID PTE_TABLE) with 3.
  pose proof (Z.add_lor_land c 3) as E. replace (Z.land c 3) with 0 in E; [lia|].
  change 3 with (Z.ones 2). rewrite Z.land_ones by lia. change (2 ^ 2) with 4. divlia.
Qed.

Lemma table_descriptor_addr c :
  0 ≤ c < 2 ^ 48 → c mod PAGE_SIZE = 0 → Z.land (c + 3) PTE_ADDR_MASK = c.
Proof. unfold PAGE_SIZE. intros. rewrite land_addr_mask. divlia. Qed.

Lemma table_descriptor_valid c : c mod PAGE_SIZE = 0 → has_flag (c + 3) PTE_VALID = true.
Proof.
  intros Ha. rewrite has_flag_valid, Z.odd_add. change (Z.odd 3) with true.
  rewrite xorb_true_r, Z.negb_odd. apply Z.even_spec. exists (c / 2). unfold PAGE_SIZE in Ha. divlia.
Qed.

Lemma has_flag_0 b : has_flag 0 b = false.
Proof. unfold has_flag. by rewrite Z.land_0_l. Qed.

(** Zeroing a page *)
Lemma rd_zero_page_in pa m i :
  0 ≤ i < 512 → rd (zero_page pa m) (slot pa i) = 0.
Proof.
  intros Hi.
  apply (for_from_ind (λ k m', ∀ j, 0 ≤ j < k → rd m' (slot pa j) = 0) 0 512); [intros; lia| |lia].
  intros k m' Hk IH j Hj. destruct (decide (j = k)) as [->|]; [apply rd_wr_eq|].
  rewrite rd_wr_ne by (unfold slot; lia). apply IH. lia.
Qed.

Lemma rd_zero_page_out pa m a :
  (∀ i, 0 ≤ i < 512 → a ≠ slot pa i) → rd (zero_page pa m) a = rd m a.
Proof.
  intros Ha. apply (for_from_ind (λ _ m', rd m' a = rd m a) 0 512); [done|].
  intros k m' Hk IH. rewrite rd_wr_ne; [done|]. intros E. by apply (Ha k).
Qed.

#[global] Opaque zero_page.

Section forest.
Context {A : Type} {PA : PageAllocator A}.
Implicit Types (own : gmap Z nat) (s : vm_state A) (m : ram).

Lemma own_slot_inj own s t t' h h' i i' :
  pt_wf own s → own !! t = Some h → own !! t' = Some h' → 0 ≤ i < 512 → 0 ≤ i' < 512 →
  slot t i = slot t' i' → t = t' ∧ i = i'.
Proof.
  intros Hwf Ht Ht'. destruct (pt_page _ _ Hwf _ _ Ht) as (_ & _ & ? & _), (pt_page _ _ Hwf _ _ Ht') as (_ & _ & ? & _).
  by apply slot_inj.
Qed.

(** In a well-formed forest the next table is an owned table one level below. *)
Lemma next_table_own own s t h i c :
  pt_wf own s → own !! t = Some (S h) → 0 ≤ i < 512 → next_table (vm_ram s) t i = Some c →
  own !! c = Some h ∧ rd (vm_ram s) (slot t i) = c + 3.
Proof.
  intros Hwf Ht Hi. unfold next_table. destruct (has_flag _ _) eqn:Hv; [|done].
  destruct (pt_child _ _ Hwf _ _ _ Ht Hi Hv) as (c' & Hrd & Hc').
  destruct (pt_page _ _ Hwf _ _ Hc') as (_ & ? & ? & _).
  rewrite Hrd, table_descriptor_addr by (done || lia). intros [= <-]. done.
Qed.

Lemma walk_own own s h t va a :
  pt_wf own s → own !! t = Some h → walk h (vm_ram s) t va = Some a →
  ∃ l3, own !! l3 = Some 0%nat ∧ a = slot l3 (idx 0 va).
Proof.
  intros Hwf. revert t. induction h as [|h IH]; intros t Ht; cbn [walk].
  - intros [= <-]. eauto.
  - destruct (next_table _ _ _) as [c|] eqn:Hn; [|done].
    destruct (next_table_own own s t h _ c Hwf Ht (idx_range _ _) Hn) as [? _]. by apply IH.
Qed.

(** Different roots or pages never share a leaf entry. *)
Lemma walk_inj own s h t t' va va' a :
  pt_wf own s → own !! t = Some h → own !! t' = Some h →
  walk h (vm_ram s) t va = Some a → walk h (vm_ram s) t' va' = Some a →
  t = t' ∧ ∀ k, (k ≤ h)%nat → idx k va = idx k va'.
Proof.
  intros Hwf. revert t t'. induction h as [|h IH]; intros t t' Ht Ht'; cbn [walk].
  - intros [= <-] [= E].
    destruct (own_slot_inj own s t' t _ _ (idx 0 va') (idx 0 va) Hwf Ht' Ht) as [-> ?]; auto with aegis.
    split; [done|]. intros k Hk. by replace k with 0%nat by lia.
  - destruct (next_table _ t _) as [c|] eqn:Hn; [|done].
    destruct (next_table _ t' _) as [c'|] eqn:Hn'; [|done]. intros Hw Hw'.
    destruct (next_table_own own s t h _ c Hwf Ht (idx_range _ _) Hn) as [Hc Hrd].
    destruct (next_table_own own s t' h _ c' Hwf Ht' (idx_range _ _) Hn') as [Hc' Hrd'].
    destruct (IH c c' Hc Hc' Hw Hw') as [-> Hidx].
    destruct (pt_inj _ _ Hwf t h _ t' h _ c' Ht Ht' (idx_range _ _) (idx_range _ _) Hc' Hrd Hrd') as [-> ?].
    split; [done|]. intros k Hk. destruct (decide (k = S h)) as [->|]; [done|]. apply Hidx. lia.
Qed.

(** ** Writing a leaf entry *)

Lemma leaf_slot_ne own s l3 i t h j :
  pt_wf own s → own !! l3 = Some 0%nat → own !! t = Some (S h) →
  0 ≤ i < 512 → 0 ≤ j < 512 → slot l3 i ≠ slot t j.
Proof.
  intros Hwf Hl Ht Hi Hj E. destruct (own_slot_inj own s l3 t _ _ i j Hwf Hl Ht Hi Hj E). congruence.
Qed.

Lemma leaf_write_wf own s l3 i v :
  pt_wf own s → own !! l3 = Some 0%nat → 0 ≤ i < 512 →
  pt_wf own (s <| vm_ram ::= wr (slot l3 i) v |>).
Proof.
  intros Hwf Hl Hi.
  assert (Hrd : ∀ t h j, own !! t = Some (S h) → 0 ≤ j < 512 →
    rd (wr (slot l3 i) v (vm_ram s)) (slot t j) = rd (vm_ram s) (slot t j)).
  { intros t h j Ht Hj. apply rd_wr_ne. by eapply leaf_slot_ne. }
  split; cbn [vm_alloc vm_ram set_field].
  - apply Hwf.
  - apply Hwf.
  - intros t h j Ht Hj. cbn. rewrite (Hrd t h j) by done. by apply (pt_child _ _ Hwf).
  - intros t h j t' h' j' c Ht Ht' Hj Hj'. cbn. rewrite (Hrd t h j), (Hrd t' h' j') by done.
    by eapply (pt_inj _ _ Hwf).
Qed.

Lemma leaf_write_walk own s l3 i v h t va :
  pt_wf own s → own !! l3 = Some 0%nat → 0 ≤ i < 512 → own !! t = Some h →
  walk h (wr (slot l3 i) v (vm_ram s)) t va = walk h (vm_ram s) t va.
Proof.
  intros Hwf Hl Hi. revert t. induction h as [|h IH]; intros t Ht; cbn [walk]; [done|].
  assert (next_table (wr (slot l3 i) v (vm_ram s)) t (idx (S h) va) = next_table (vm_ram s) t (idx (S h) va)) as ->.
  { unfold next_table. rewrite rd_wr_ne; [done|]. eapply leaf_slot_ne; eauto with aegis. }
  destruct (next_table _ _ _) as [c|] eqn:Hn; [|done].
  destruct (next_table_own own s t h _ c Hwf Ht (idx_range _ _) Hn) as [? _]. by apply IH.
Qed.

Lemma walk_va_idx h m t va va' :
  (∀ k, (k ≤ h)%nat → idx k va = idx k va') → walk h m t va = walk h m t va'.
Proof.
  revert t. induction h as [|h IH]; intros t H; cbn [walk].
  - by rewrite (H 0%nat) by lia.
  - rewrite (H (S h)) by lia. destruct (next_table _ _ _); [|done]. apply IH. intros; apply H; lia.
Qed.

Lemma leaf_write_translate own s l0 va a v r va' :
  pt_wf own s → own !! l0 = Some 3%nat → own !! r = Some 3%nat →
  walk 3 (vm_ram s) l0 va = Some a →
  translate (wr a v (vm_ram s)) r va' =
    if decide (r = l0 ∧ vpn va' = vpn va)
    then (if has_flag v PTE_VALID then Some v else None)
    else translate (vm_ram s) r va'.
Proof.
  intros Hwf Hl0 Hr Hw. destruct (walk_own own s 3 l0 va a Hwf Hl0 Hw) as (l3 & Hl3 & Ha).
  unfold translate. rewrite Ha, leaf_write_walk with (own := own) by eauto with aegis. rewrite <-Ha.
  destruct (decide _) as [[-> Hv]|Hne].
  - pose proof (proj2 (vpn_idx va' va) Hv) as Hi. rewrite (walk_va_idx 3 _ l0 va' va Hi), Hw. cbn. by rewrite rd_wr_eq.
  - destruct (walk 3 _ r va') as [a'|] eqn:Hw'; [|done]. cbn.
    rewrite rd_wr_ne; [done|]. intros <-. apply Hne.
    destruct (walk_inj own s 3 r l0 va' va a Hwf Hr Hl0 Hw' Hw) as [-> H].
    split; [done|]. exact (proj1 (vpn_idx va' va) H).
Qed.
End forest.

(** ** Descending one level, allocating a table if needed *)

Section ensure.
Context {A : Type} {PA : PageAllocator A}.
Implicit Types (own : gmap Z nat) (s : vm_state A) (m : ram).

(** Translations through every owned table agree. *)
Definition same_leaves own m m' : Prop :=
  ∀ h t va, own !! t = Some h → leaf m' (walk h m' t va) = leaf m (walk h m t va).

(** Links of owned tables are kept. *)
Definition keeps_links own m m' : Prop :=
  ∀ h t i c, own !! t = Some (S h) → 0 ≤ i < 512 →
    next_table m t i = Some c → next_table m' t i = Some c.

(** New tables come from the allocator, and nothing becomes available. *)
Definition grows own s own' s' : Prop :=
  (∀ b, pa_available (vm_alloc s') b → pa_available (vm_alloc s) b) ∧
  ∀ t h, own' !! t = Some h → own !! t = Some h ∨ pa_available (vm_alloc s) t.

(** RAM after linking the fresh table [new] at entry [i] of [t]. *)
Definition linked (t i new : Z) (m : ram) : ram :=
  wr (slot t i) (new + 3) (zero_page new m).

Section link.
Context own s (t : Z) (h : nat) (i new : Z) (al : A).
Context (Hwf : pt_wf own s) (Ht : own !! t = Some (S h)) (Hi : 0 ≤ i < 512).
Context (Hinvalid : has_flag (rd (vm_ram s) (slot t i)) PTE_VALID = false).
Context (Hnew : 0 < new < 2 ^ 48) (Hal : new mod PAGE_SIZE = 0).
Context (Hav : pa_available (vm_alloc s) new) (Hinv : pa_inv al).
Context (Hav' : ∀ b, pa_available al b ↔ pa_available (vm_alloc s) b ∧ b ≠ new).
Let m' := linked t i new (vm_ram s).

Lemma new_not_owned : own !! new = None.
Proof.
    destruct (own !! new) as [h'|] eqn:E; [|done].
    destruct (pt_page _ _ Hwf _ _ E) as (_ & _ & _ & []). done.
Qed.

Lemma rd_linked t0 h0 j :
    own !! t0 = Some h0 → 0 ≤ j < 512 →
    rd m' (slot t0 j) = if decide (t0 = t ∧ j = i) then new + 3 else rd (vm_ram s) (slot t0 j).
Proof.
    intros Ht0 Hj. pose proof new_not_owned. unfold m', linked.
    destruct (decide _) as [[-> ->]|Hne]; [apply rd_wr_eq|].
    rewrite rd_wr_ne.
    - apply rd_zero_page_out. intros k Hk E.
      destruct (pt_page _ _ Hwf _ _ Ht0) as (_ & _ & ? & _).
      destruct (slot_inj t0 new j k) as [-> _]; try done. congruence.
    - intros E. destruct (own_slot_inj own s t t0 _ _ i j Hwf Ht Ht0 Hi Hj E) as [-> ->]. naive_solver.
Qed.

Lemma rd_linked_new j : 0 ≤ j < 512 → rd m' (slot new j) = 0.
Proof.
    intros Hj. unfold m', linked. rewrite rd_wr_ne; [by apply rd_zero_page_in|].
    intros E. destruct (pt_page _ _ Hwf _ _ Ht) as (_ & _ & ? & _).
    destruct (slot_inj t new i j) as [-> _]; try done. rewrite new_not_owned in Ht. done.
Qed.

Lemma linked_wf : pt_wf (<[new := h]> own) (mk_vm al m').
Proof.
    pose proof new_not_owned as Hno.
    assert (Hold : ∀ t0 h0, <[new:=h]> own !! t0 = Some h0 →
      (t0 = new ∧ h0 = h) ∨ (t0 ≠ new ∧ own !! t0 = Some h0)).
    { intros t0 h0. rewrite lookup_insert. case_decide; [subst; intros [= ->]; auto|auto]. }
    assert (Hkeep : ∀ c h0, own !! c = Some h0 → <[new:=h]> own !! c = Some h0).
    { intros c h0 Hc. rewrite lookup_insert_ne; [done|]. congruence. }
    split; cbn [vm_alloc vm_ram].
    - done.
    - intros t0 h0 [[-> ->]|[? H0]]%Hold.
      + destruct (pt_page _ _ Hwf _ _ Ht) as (? & _). split_and!; try (done || lia). rewrite Hav'. naive_solver.
      + destruct (pt_page _ _ Hwf _ _ H0) as (? & ? & ? & ?). split_and!; try (done || lia). rewrite Hav'. tauto.
    - intros t0 h0 j [[-> _]|[? H0]]%Hold Hj.
      + rewrite rd_linked_new, has_flag_0 by done. done.
      + rewrite (rd_linked t0 (S h0) j) by done. case_decide as E.
        * destruct E as [-> ->]. intros _. exists new. split; [done|].
          rewrite lookup_insert_eq. congruence.
        * intros Hv. destruct (pt_child _ _ Hwf _ _ _ H0 Hj Hv) as (c & ? & ?). eauto.
    - intros t1 h1 j1 t2 h2 j2 c [[-> _]|[? H1]]%Hold [[-> _]|[? H2]]%Hold Hj1 Hj2 Hc.
      1-3: rewrite ?rd_linked_new by done; destruct (Hold _ _ Hc) as [[-> ->]|[_ Hc']];
        [|destruct (pt_page _ _ Hwf _ _ Hc') as (_ & ? & _)]; lia.
      rewrite (rd_linked t1 (S h1) j1), (rd_linked t2 (S h2) j2) by done.
      assert (Hstale : ∀ u hu j, own !! u = Some (S hu) → 0 ≤ j < 512 → rd (vm_ram s) (slot u j) ≠ new + 3).
      { intros u hu j Hu Hj E. destruct (pt_child _ _ Hwf u hu j Hu Hj) as (c' & E' & Hc').
        - rewrite E. by apply table_descriptor_valid.
        - assert (c' = new) by lia. congruence. }
      case_decide as E1; case_decide as E2.
      + destruct E1 as [-> ->], E2 as [-> ->]. done.
      + intros Ec E. replace c with new in E by lia. by eapply Hstale in E.
      + intros E Ec. replace c with new in E by lia. by eapply Hstale in E.
      + intros R1 R2. destruct (Hold _ _ Hc) as [[-> _]|[_ Hc']]; [by eapply Hstale in R1|].
        by eapply (pt_inj _ _ Hwf t1 h1 j1 t2 h2 j2 c).
Qed.

Lemma linked_keeps_links : keeps_links own (vm_ram s) m'.
Proof.
    intros h0 t0 j c Ht0 Hj. unfold next_table. rewrite (rd_linked t0 (S h0) j) by done.
    case_decide as E; [|done]. destruct E as [-> ->]. by rewrite Hinvalid.
Qed.

Lemma linked_next : next_table m' t i = Some new.
Proof.
    unfold next_table. rewrite (rd_linked t (S h) i) by done. rewrite decide_True by done.
    rewrite table_descriptor_valid by done. f_equal. apply table_descriptor_addr; [lia|done].
Qed.

(** Nothing is mapped through the fresh table. *)
Lemma linked_new_leaf h0 va : leaf m' (walk h0 m' new va) = None.
Proof.
    destruct h0 as [|h0]; cbn [walk].
    - cbn. rewrite rd_linked_new, has_flag_0 by auto with aegis. done.
    - unfold next_table. rewrite rd_linked_new, has_flag_0 by auto with aegis. done.
Qed.

Lemma linked_same_leaves : same_leaves own (vm_ram s) m'.
Proof.
    intros h0. induction h0 as [|h0 IH]; intros t0 va Ht0; cbn [walk].
    - cbn. rewrite (rd_linked t0 0 (idx 0 va)) by auto with aegis.
      rewrite decide_False; [done|]. intros [-> _]. congruence.
    - destruct (next_table (vm_ram s) t0 _) as [c|] eqn:Hn.
      + rewrite (linked_keeps_links h0 t0 _ c) by auto with aegis.
        destruct (next_table_own own s t0 h0 _ c Hwf Ht0 (idx_range _ _) Hn) as [? _]. by apply IH.
      + unfold next_table. rewrite (rd_linked t0 (S h0) (idx (S h0) va)) by auto with aegis.
        case_decide as E.
        * rewrite table_descriptor_valid, table_descriptor_addr by (done || lia). apply linked_new_leaf.
        * revert Hn. unfold next_table. by destruct (has_flag (rd (vm_ram s) (slot t0 (idx (S h0) va))) PTE_VALID).
Qed.
End link.

Lemma ensure_table_spec own s t h i r s' :
  pt_wf own s → own !! t = Some (S h) → 0 ≤ i < 512 → ensure_table t i s = (r, s') →
  match r with
  | None => s' = s ∧ pa_alloc (vm_alloc s) = (0, vm_alloc s)
  | Some c =>
      ∃ own', pt_wf own' s' ∧ own ⊆ own' ∧ own' !! c = Some h ∧
        next_table (vm_ram s') t i = Some c ∧
        keeps_links own (vm_ram s) (vm_ram s') ∧ same_leaves own (vm_ram s) (vm_ram s') ∧ grows own s own' s'
  end.
Proof.
  intros Hwf Ht Hi. unfold ensure_table. destruct (has_flag _ _) eqn:Hv.
  { intros [= <- <-].
    assert (next_table (vm_ram s) t i = Some (Z.land (rd (vm_ram s) (slot t i)) PTE_ADDR_MASK)) as Hn
      by (unfold next_table; by rewrite Hv).
    destruct (next_table_own own s t h i _ Hwf Ht Hi Hn) as [Hc _].
    exists own. split_and!; try done; [by intros ?|]. split; auto. }
  unfold alloc_page_table. destruct (pa_alloc _) as [new al] eqn:Ha.
  destruct (pa_alloc_spec _ _ _ (pt_alloc _ _ Hwf) Ha) as [Hinv [[-> ->]|(Hr & Hal & Hav & Hav')]].
  { cbn. intros [= <- <-]. by destruct s. }
  destruct (Z.eqb_spec new 0) as [->|_]; [lia|]. cbn [set_field]. cbn.
  destruct (Z.eqb_spec new 0) as [->|_]; [lia|].
  rewrite table_descriptor by (done || lia). rewrite rd_wr_eq, table_descriptor_addr by (done || lia).
  intros [= <- <-]. exists (<[new := h]> own). fold (linked t i new (vm_ram s)).
  pose proof (new_not_owned own s new Hwf Hav). split_and!.
  - by eapply linked_wf.
  - by apply insert_subseteq.
  - apply lookup_insert_eq.
  - by eapply linked_next.
  - by eapply linked_keeps_links.
  - by eapply linked_same_leaves.
  - split; [intros b; apply Hav'|]. intros t' h'. rewrite lookup_insert. case_decide; [subst; by right|by left].
Qed.
End ensure.

(** ** Mapping a page *)

(** The leaf entry that maps [pa] with [flags]. *)
Definition leaf_entry (pa flags : Z) : Z :=
  Z.lor (Z.land pa PTE_ADDR_MASK) (page_attrs_from_flags flags).

Lemma attrs_valid flags : has_flag (page_attrs_from_flags flags) PTE_VALID = true.
Proof. unfold page_attrs_from_flags. repeat case_match; reflexivity. Qed.

Lemma leaf_entry_valid pa flags : has_flag (leaf_entry pa flags) PTE_VALID = true.
Proof.
  pose proof (attrs_valid flags) as H. rewrite has_flag_valid, <-Z.bit0_odd in *.
  unfold leaf_entry. rewrite Z.lor_spec, H. apply orb_true_r.
Qed.

Lemma leaf_entry_addr pa flags : Z.land (leaf_entry pa flags) PTE_ADDR_MASK = Z.land pa PTE_ADDR_MASK.
Proof.
  unfold leaf_entry. rewrite Z.land_lor_distr_l, <-Z.land_assoc, Z.land_diag.
  replace (Z.land (page_attrs_from_flags flags) PTE_ADDR_MASK) with 0; [apply Z.lor_0_r|].
  unfold page_attrs_from_flags. repeat case_match; reflexivity.
Qed.

(** Any part of the entry outside the address field comes from the flags. *)
Lemma leaf_entry_field pa flags f :
  Z.land f PTE_ADDR_MASK = 0 → Z.land (leaf_entry pa flags) f = Z.land (page_attrs_from_flags flags) f.
Proof.
  intros Hf. unfold leaf_entry. rewrite Z.land_lor_distr_l, <-Z.land_assoc, (Z.land_comm _ f), Hf.
  by rewrite Z.land_0_r.
Qed.

Section mapping.
Context {A : Type} {PA : PageAllocator A}.
Implicit Types (own : gmap Z nat) (s : vm_state A) (m : ram).

(** [s'] is [s] with more tables, and the same translations and links. *)
Definition extends own s own' s' : Prop :=
  pt_wf own' s' ∧ own ⊆ own' ∧
  keeps_links own (vm_ram s) (vm_ram s') ∧ same_leaves own (vm_ram s) (vm_ram s') ∧ grows own s own' s'.

Lemma extends_refl own s : pt_wf own s → extends own s own s.
Proof. intros. split; [done|]. split; [done|]. split; [by intros ?|]. split; [by intros ?|]. split; auto. Qed.

Lemma extends_trans own1 s1 own2 s2 own3 s3 :
  extends own1 s1 own2 s2 → extends own2 s2 own3 s3 → extends own1 s1 own3 s3.
Proof.
  intros (_ & H12 & Hk1 & Hl1 & Ha1 & Ho1) (Hwf & H23 & Hk2 & Hl2 & Ha2 & Ho2). split; [done|].
  split; [by etrans|]. split_and!.
  - intros h t i c Ht Hi Hn. eapply Hk2; eauto using lookup_weaken.
  - intros h t va Ht. rewrite (Hl2 h t va) by eauto using lookup_weaken. by apply Hl1.
  - split; [by auto|]. intros t h Ht. destruct (Ho2 t h Ht) as [|?%Ha1]; auto.
Qed.

Lemma ensure_table_extends own s t h i c s' :
  pt_wf own s → own !! t = Some (S h) → 0 ≤ i < 512 → ensure_table t i s = (Some c, s') →
  ∃ own', extends own s own' s' ∧ own' !! c = Some h ∧ next_table (vm_ram s') t i = Some c.
Proof.
  intros Hwf Ht Hi E. destruct (ensure_table_spec own s t h i _ s' Hwf Ht Hi E) as (own' & ? & ? & ? & ? & ? & ? & ?).
  exists own'. done.
Qed.

Lemma ensure_table_fail own s t h i s' :
  pt_wf own s → own !! t = Some (S h) → 0 ≤ i < 512 → ensure_table t i s = (None, s') →
  s' = s ∧ pa_alloc (vm_alloc s) = (0, vm_alloc s).
Proof. intros Hwf Ht Hi E. apply (ensure_table_spec own s t h i _ s' Hwf Ht Hi E). Qed.

Definition map_args_ok (va pa flags : Z) : Prop :=
  va mod PAGE_SIZE = 0 ∧ pa mod PAGE_SIZE = 0 ∧ has_flag flags AEGIS_VM_GUARD = false.

Lemma land_page_low x : Z.land x (PAGE_SIZE - 1) = x mod PAGE_SIZE.
Proof. change (PAGE_SIZE - 1) with (Z.ones 12). rewrite Z.land_ones by lia. done. Qed.

Lemma page_table_map_cases own s l0 va pa flags rc s' :
  pt_wf own s → own !! l0 = Some 3%nat → page_table_map l0 va pa flags s = (rc, s') →
  (rc = AEGIS_EINVAL ∧ s' = s ∧ ¬ map_args_ok va pa flags) ∨
  (rc = AEGIS_ENOMEM ∧ map_args_ok va pa flags ∧
    pa_alloc (vm_alloc s') = (0, vm_alloc s') ∧ ∃ own', extends own s own' s') ∨
  (rc = AEGIS_OK ∧ map_args_ok va pa flags ∧ ∃ own', pt_wf own' s' ∧ own ⊆ own' ∧ grows own s own' s' ∧
    ∀ r va', own !! r = Some 3%nat →
      translate (vm_ram s') r va' =
        if decide (r = l0 ∧ vpn va' = vpn va) then Some (leaf_entry pa flags)
        else translate (vm_ram s) r va').
Proof.
  intros Hwf Hl0. unfold page_table_map, map_args_ok. rewrite !land_page_low.
  destruct (pt_page _ _ Hwf _ _ Hl0) as (_ & ? & _).
  destruct (Z.eqb_spec l0 0); [lia|].
  destruct (Z.eqb_spec (va mod PAGE_SIZE) 0); [|intros [= <- <-]; left; tauto].
  destruct (Z.eqb_spec (pa mod PAGE_SIZE) 0); [|intros [= <- <-]; left; tauto].
  cbn [negb orb]. destruct (has_flag flags AEGIS_VM_GUARD) eqn:Hg; [intros [= <- <-]; left; naive_solver|].
  change (va_index va L0_SHIFT) with (idx 3 va). change (va_index va L1_SHIFT) with (idx 2 va).
  change (va_index va L2_SHIFT) with (idx 1 va). change (va_index va L3_SHIFT) with (idx 0 va).
  destruct (ensure_table l0 _ s) as [[l1|] s1] eqn:E1.
  2:{ apply (ensure_table_fail own s l0 2) in E1 as [-> ?]; auto with aegis.
      intros [= <- <-]. right; left. split_and!; eauto using extends_refl. }
  destruct (ensure_table_extends own s l0 2 _ l1 s1 Hwf Hl0 (idx_range _ _) E1) as (own1 & X1 & Hl1 & Hn1).
  destruct (ensure_table l1 _ s1) as [[l2|] s2] eqn:E2.
  2:{ apply (ensure_table_fail own1 s1 l1 1) in E2 as [-> ?]; auto with aegis; [|apply X1].
      intros [= <- <-]. right; left. split_and!; eauto. }
  destruct (ensure_table_extends own1 s1 l1 1 _ l2 s2 (proj1 X1) Hl1 (idx_range _ _) E2) as (own2 & X2 & Hl2 & Hn2).
  destruct (ensure_table l2 _ s2) as [[l3|] s3] eqn:E3.
  2:{ apply (ensure_table_fail own2 s2 l2 0) in E3 as [-> ?]; auto with aegis; [|apply X2].
      intros [= <- <-]. right; left. split_and!; eauto using extends_trans. }
  destruct (ensure_table_extends own2 s2 l2 0 _ l3 s3 (proj1 X2) Hl2 (idx_range _ _) E3) as (own3 & X3 & Hl3 & Hn3).
  pose proof (extends_trans _ _ _ _ _ _ X2 X3) as X23. pose proof (extends_trans _ _ _ _ _ _ X1 X23) as X.
  destruct X as (Hwf3 & Hsub & _ & Hleaf & Hgrow).
  assert (walk 3 (vm_ram s3) l0 va = Some (slot l3 (idx 0 va))) as Hw.
  { destruct X1 as (_ & S1 & _), X2 as (_ & S2 & _), X3 as (_ & _ & K3 & _), X23 as (_ & _ & K23 & _).
    cbn [walk]. rewrite (K23 2%nat l0 _ l1) by eauto using lookup_weaken with aegis.
    by rewrite (K3 1%nat l1 _ l2), Hn3 by eauto using lookup_weaken with aegis. }
  intros [= <- <-]. right; right. split; [done|]. split; [done|]. exists own3.
  split; [apply leaf_write_wf; auto with aegis|]. split; [done|]. split; [exact Hgrow|].
  intros r va' Hr. cbn. rewrite leaf_write_translate with (own := own3) (l0 := l0) (va := va)
    by eauto using lookup_weaken.
  fold (leaf_entry pa flags). rewrite leaf_entry_valid.
  destruct (decide _); [done|]. by apply (Hleaf 3%nat).
Qed.
End mapping.

(** ** Mapping and unmapping a range *)

Lemma vpn_same_page va base :
  0 ≤ va < 2 ^ 48 → 0 ≤ base < 2 ^ 48 → base mod PAGE_SIZE = 0 →
  vpn va = vpn base ↔ base ≤ va < base + PAGE_SIZE.
Proof.
  intros Hv Hb Ha. unfold vpn, PAGE_SIZE in *.
  rewrite !(Z.mod_small (_ / _)) by (change (2 ^ 36) with 68719476736; divlia). divlia.
Qed.

Section ranges.
Context {A : Type} {PA : PageAllocator A}.
Implicit Types (own : gmap Z nat) (s : vm_state A) (m : ram).

(** The first [j] pages of the range are mapped, everything else is as in [m]. *)
Definition mapped_prefix own m m' (k va pa flags j : Z) : Prop :=
  ∀ r va', own !! r = Some 3%nat → 0 ≤ va' < 2 ^ 48 →
    translate m' r va' =
      if decide (r = k ∧ va ≤ va' < va + PAGE_SIZE * j)
      then Some (leaf_entry (pa + (va' - va) / PAGE_SIZE * PAGE_SIZE) flags)
      else translate m r va'.

Lemma mapped_prefix_0 own m k va pa flags : mapped_prefix own m m k va pa flags 0.
Proof. intros r va' Hr Hv. rewrite decide_False; [done|]. lia. Qed.

Lemma mapped_prefix_same own m m1 m2 k va pa flags j :
  mapped_prefix own m m1 k va pa flags j → same_leaves own m1 m2 →
  mapped_prefix own m m2 k va pa flags j.
Proof. intros H Hs r va' Hr Hv. rewrite <-(H r va' Hr Hv). by apply (Hs 3%nat). Qed.

Lemma mapped_prefix_S own m m1 m2 k va pa flags j :
  va mod PAGE_SIZE = 0 → 0 ≤ va → 0 ≤ j → va + PAGE_SIZE * (j + 1) ≤ 2 ^ 48 →
  mapped_prefix own m m1 k va pa flags j →
  (∀ r va', own !! r = Some 3%nat → translate m2 r va' =
     if decide (r = k ∧ vpn va' = vpn (va + PAGE_SIZE * j)) then Some (leaf_entry (pa + PAGE_SIZE * j) flags)
     else translate m1 r va') →
  mapped_prefix own m m2 k va pa flags (j + 1).
Proof.
  intros Ha H0 Hj Hlim Hp Hstep r va' Hr Hv. unfold PAGE_SIZE in *.
  rewrite (Hstep r va' Hr).
  assert (Hvpn : vpn va' = vpn (va + 4096 * j) ↔ va + 4096 * j ≤ va' < va + 4096 * j + 4096).
  { apply vpn_same_page; unfold PAGE_SIZE; try divlia. }
  rewrite (decide_ext _ _ _ _ (and_iff_compat_l (r = k) Hvpn)).
  rewrite (Hp r va' Hr Hv). unfold PAGE_SIZE.
  destruct (decide (r = k ∧ va + 4096 * j ≤ va' < va + 4096 * j + 4096)) as [[-> Hin]|Hout].
  - rewrite decide_True by lia. do 2 f_equal. divlia.
  - repeat case_decide; done || lia.
Qed.

Section map_range.
Context own (k va pa size flags : Z).
Context (Hva : va mod PAGE_SIZE = 0) (Hva0 : 0 ≤ va).
Context (Hlim : va + size + PAGE_SIZE ≤ 2 ^ 48) (Hpa0 : 0 ≤ pa) (Hpa : pa + size + PAGE_SIZE ≤ 2 ^ 64).

Lemma virt_map_loop_spec fuel j own1 s s1 :
    pt_wf own1 s1 → own ⊆ own1 → own !! k = Some 3%nat →
    mapped_prefix own (vm_ram s) (vm_ram s1) k va pa flags j →
    0 ≤ j → PAGE_SIZE * j ≤ size + PAGE_SIZE - 1 → size ≤ PAGE_SIZE * (j + Z.of_nat fuel) →
    ∃ rc s' own' j', virt_map_loop fuel k va pa size flags (PAGE_SIZE * j) s1 = Some (rc, s') ∧
      pt_wf own' s' ∧ own ⊆ own' ∧
      mapped_prefix own (vm_ram s) (vm_ram s') k va pa flags j' ∧ j ≤ j' ∧
      ((rc = AEGIS_OK ∧ size ≤ PAGE_SIZE * j' < size + PAGE_SIZE) ∨
       (rc = AEGIS_EINVAL ∧ ¬ map_args_ok va pa flags) ∨
       (rc = AEGIS_ENOMEM ∧ pa_alloc (vm_alloc s') = (0, vm_alloc s'))).
Proof.
    intros Hwf Hsub Hk. revert j own1 s1 Hwf Hsub.
    induction fuel as [|fuel IH]; intros j own1 s1 Hwf Hsub Hp Hj Hj2 Hfuel; cbn [virt_map_loop].
    { destruct (Z.ltb_spec (PAGE_SIZE * j) size); [lia|].
      exists AEGIS_OK, s1, own1, j. split_and!; done || lia. }
    destruct (Z.ltb_spec (PAGE_SIZE * j) size).
    2:{ exists AEGIS_OK, s1, own1, j. split_and!; done || lia. }
    unfold PAGE_SIZE in *. rewrite !u64_small by lia.
    destruct (page_table_map _ _ _ _ s1) as [ret s2] eqn:E.
    destruct (page_table_map_cases own1 s1 k _ _ flags ret s2 Hwf (lookup_weaken _ _ _ _ Hk Hsub) E)
      as [(-> & -> & Hna)|[(-> & _ & Hex & own2 & Hwf2 & Hsub2 & _ & Hl)|(-> & _ & own2 & Hwf2 & Hsub2 & Ht)]]; cbn [negb Z.eqb].
    - exists AEGIS_EINVAL, s1, own1, j. cbn. split_and!; try (done || lia). right; left. split; [done|].
      unfold map_args_ok, PAGE_SIZE in *. intros (? & ? & ?). apply Hna. split_and!; [divlia|divlia|done].
    - exists AEGIS_ENOMEM, s2, own2, j. cbn. split_and!; try (done || lia); [by etrans| |by right; right].
      eapply mapped_prefix_same; [done|]. intros h t v Ht. apply Hl. by eapply lookup_weaken.
    - replace (4096 * j + 4096) with (4096 * (j + 1)) by lia.
      destruct (IH (j + 1) own2 s2 Hwf2) as (rc & s' & own' & j' & ? & ? & ? & ? & ? & ?).
      + by etrans.
      + apply (mapped_prefix_S own _ (vm_ram s1)); unfold PAGE_SIZE; try (done || lia).
        intros r va' Hr. apply Ht. by eapply lookup_weaken.
      + lia.
      + lia.
      + lia.
      + exists rc, s', own', j'. split_and!; try (done || lia).
Qed.
End map_range.

(** Unmapping one page clears exactly its leaf entry. *)
Lemma table_mask_descriptor c : 0 ≤ c < 2 ^ 48 → c mod PAGE_SIZE = 0 → Z.land (c + 3) TABLE_MASK = c.
Proof.
  intros Hc Ha. change TABLE_MASK with PAGE_MASK. rewrite land_page_mask by lia.
  unfold PAGE_SIZE in *. divlia.
Qed.

Lemma unmap_step own s t h i :
  pt_wf own s → own !! t = Some (S h) → 0 ≤ i < 512 →
  let e := rd (vm_ram s) (slot t i) in
  match next_table (vm_ram s) t i with
  | Some c => (Z.land e 1 =? 0) = false ∧ Z.land e TABLE_MASK = c
  | None => (Z.land e 1 =? 0) = true
  end.
Proof.
  intros Hwf Ht Hi e. destruct (next_table _ _ _) as [c|] eqn:Hn.
  - destruct (next_table_own own s t h i c Hwf Ht Hi Hn) as [Hc Hrd].
    destruct (pt_page _ _ Hwf _ _ Hc) as (_ & ? & ? & _). subst e. split.
    + revert Hn. unfold next_table, has_flag, PTE_VALID. change (Z.shiftl 1 0) with 1. by destruct (_ =? 0).
    + rewrite Hrd. apply table_mask_descriptor; [lia|done].
  - revert Hn. subst e. unfold next_table, has_flag, PTE_VALID. change (Z.shiftl 1 0) with 1. by destruct (_ =? 0).
Qed.

Lemma virt_unmap_page_walk own s k cur :
  pt_wf own s → own !! k = Some 3%nat →
  virt_unmap_page k cur (vm_ram s) =
    match walk 3 (vm_ram s) k cur with Some a => wr a 0 (vm_ram s) | None => vm_ram s end.
Proof.
  intros Hwf Hk. unfold virt_unmap_page. cbn [walk].
  change (va_index cur 39) with (idx 3 cur). change (va_index cur 30) with (idx 2 cur).
  change (va_index cur 21) with (idx 1 cur). change (va_index cur 12) with (idx 0 cur).
  pose proof (unmap_step own s k 2 (idx 3 cur) Hwf Hk (idx_range _ _)) as H3. cbn zeta in H3.
  destruct (next_table _ k _) as [l1|] eqn:Hn1; [|by rewrite H3].
  destruct H3 as [-> ->]. destruct (next_table_own own s k 2 _ l1 Hwf Hk (idx_range _ _) Hn1) as [Hl1 _].
  pose proof (unmap_step own s l1 1 (idx 2 cur) Hwf Hl1 (idx_range _ _)) as H2. cbn zeta in H2.
  destruct (next_table _ l1 _) as [l2|] eqn:Hn2; [|by rewrite H2].
  destruct H2 as [-> ->]. destruct (next_table_own own s l1 1 _ l2 Hwf Hl1 (idx_range _ _) Hn2) as [Hl2 _].
  pose proof (unmap_step own s l2 0 (idx 1 cur) Hwf Hl2 (idx_range _ _)) as H1. cbn zeta in H1.
  destruct (next_table _ l2 _) as [l3|] eqn:Hn3; [|by rewrite H1].
  destruct H1 as [-> ->]. done.
Qed.

Lemma virt_unmap_page_spec own s k cur :
  pt_wf own s → own !! k = Some 3%nat →
  let m' := virt_unmap_page k cur (vm_ram s) in
  pt_wf own (s <| vm_ram := m' |>) ∧
  ∀ r va', own !! r = Some 3%nat → translate m' r va' =
    if decide (r = k ∧ vpn va' = vpn cur) then None else translate (vm_ram s) r va'.
Proof.
  intros Hwf Hk m'. subst m'. rewrite (virt_unmap_page_walk own) by done.
  destruct (walk 3 _ k cur) as [a|] eqn:Hw.
  - split.
    + destruct (walk_own own s 3 k cur a Hwf Hk Hw) as (l3 & Hl3 & ->).
      apply (leaf_write_wf own s); auto with aegis.
    + intros r va' Hr. by rewrite (leaf_write_translate own s k cur a 0) by done.
  - split; [by destruct s|]. intros r va' Hr. case_decide as E; [|done].
    destruct E as [-> E]. unfold translate.
    by rewrite (walk_va_idx 3 _ k va' cur (proj2 (vpn_idx va' cur) E)), Hw.
Qed.
End ranges.

Section unmap_range.
Context {A : Type} {PA : PageAllocator A}.
Implicit Types (own : gmap Z nat) (s : vm_state A) (m : ram).

(** The first [j] pages of the range are unmapped, everything else is as in [m]. *)
Definition unmapped_prefix own m m' (k va j : Z) : Prop :=
  ∀ r va', own !! r = Some 3%nat → 0 ≤ va' < 2 ^ 48 →
    translate m' r va' =
      if decide (r = k ∧ va ≤ va' < va + PAGE_SIZE * j) then None else translate m r va'.

Lemma virt_unmap_loop_spec own s k va size fuel j m1 :
  va mod PAGE_SIZE = 0 → 0 ≤ va → 0 ≤ size → va + size + PAGE_SIZE ≤ 2 ^ 48 →
  own !! k = Some 3%nat → pt_wf own (s <| vm_ram := m1 |>) →
  unmapped_prefix own (vm_ram s) m1 k va j → 0 ≤ j →
  PAGE_SIZE * j ≤ size + PAGE_SIZE - 1 → size ≤ PAGE_SIZE * (j + Z.of_nat fuel) →
  ∃ m' j', virt_unmap_loop fuel k va size (PAGE_SIZE * j) m1 = Some m' ∧
    pt_wf own (s <| vm_ram := m' |>) ∧ unmapped_prefix own (vm_ram s) m' k va j' ∧
    size ≤ PAGE_SIZE * j' < size + PAGE_SIZE.
Proof.
  intros Hva Hva0 Hsz Hlim Hk. revert j m1.
  induction fuel as [|fuel IH]; intros j m1 Hwf Hp Hj Hj2 Hfuel; cbn [virt_unmap_loop].
  { destruct (Z.ltb_spec (PAGE_SIZE * j) size); [lia|]. exists m1, j. split_and!; done || lia. }
  destruct (Z.ltb_spec (PAGE_SIZE * j) size); [|exists m1, j; split_and!; done || lia].
  unfold PAGE_SIZE in *. rewrite !u64_small by lia.
  destruct (virt_unmap_page_spec own _ k (va + 4096 * j) Hwf Hk) as [Hwf2 Ht]. cbn in Ht, Hwf2.
  replace (4096 * j + 4096) with (4096 * (j + 1)) by lia.
  apply IH; [done| |lia..]. intros r va' Hr Hv. rewrite (Ht r va' Hr), (Hp r va' Hr Hv). unfold PAGE_SIZE.
  assert (Hvpn : vpn va' = vpn (va + 4096 * j) ↔ va + 4096 * j ≤ va' < va + 4096 * j + 4096).
  { apply vpn_same_page; unfold PAGE_SIZE; try divlia. }
  repeat case_decide; try done; lia.
Qed.

(** ** A fresh root *)

Lemma fresh_root_wf own s new al :
  pt_wf own s → 0 < new < 2 ^ 48 → new mod PAGE_SIZE = 0 →
  pa_available (vm_alloc s) new → pa_inv al →
  (∀ b, pa_available al b ↔ pa_available (vm_alloc s) b ∧ b ≠ new) →
  let m' := zero_page new (vm_ram s) in
  pt_wf (<[new := 3%nat]> own) (mk_vm al m') ∧ own !! new = None ∧
  same_leaves own (vm_ram s) m' ∧ ∀ va, translate m' new va = None.
Proof.
  intros Hwf Hnew Hal Hav Hinv Hav' m'. pose proof (new_not_owned own s new Hwf Hav) as Hno.
  assert (Hz : ∀ j, 0 ≤ j < 512 → rd m' (slot new j) = 0) by (intros; by apply rd_zero_page_in).
  assert (Hrd : ∀ t h j, own !! t = Some h → 0 ≤ j < 512 → rd m' (slot t j) = rd (vm_ram s) (slot t j)).
  { intros t h j Ht Hj. apply rd_zero_page_out. intros i Hi E.
    destruct (pt_page _ _ Hwf _ _ Ht) as (_ & _ & ? & _).
    destruct (slot_inj t new j i) as [-> _]; try done. congruence. }
  clearbody m'. split; [split; cbn [vm_alloc vm_ram]|split; [done|split]].
  - done.
  - intros t h. rewrite lookup_insert. case_decide; [subst; intros [= <-]|intros Ht].
    + split_and!; try (done || lia). rewrite Hav'. tauto.
    + destruct (pt_page _ _ Hwf _ _ Ht) as (? & ? & ? & ?). split_and!; try (done || lia). rewrite Hav'. tauto.
  - intros t h j. rewrite lookup_insert. case_decide; [subst|]; intros Ht Hj.
    + rewrite Hz, has_flag_0 by done. done.
    + rewrite (Hrd t (S h)) by done. intros Hv. destruct (pt_child _ _ Hwf _ _ _ Ht Hj Hv) as (c & ? & Hc).
      exists c. split; [done|]. rewrite lookup_insert_ne; [done|]. congruence.
  - intros t h j t' h' j' c. rewrite !lookup_insert.
    assert (Hpos : ∀ c0 h0, own !! c0 = Some h0 → 0 < c0) by (intros c0 h0 Hc0; apply (pt_page _ _ Hwf _ _ Hc0)).
    repeat case_decide; subst; intros Ht Ht' Hj Hj' Hc; rewrite ?Hz by done;
      rewrite ?(Hrd t (S h)), ?(Hrd t' (S h')) by done; try (intros; lia);
      try (specialize (Hpos _ _ Hc); intros; lia).
    + intros Hr. exfalso. destruct (pt_child _ _ Hwf t h j Ht Hj) as (c' & E & Hc').
      { rewrite Hr. by apply table_descriptor_valid. }
      assert (c' = c) as -> by lia. congruence.
    + by eapply (pt_inj _ _ Hwf).
  - intros h. induction h as [|h IH]; intros t va Ht; cbn [walk].
    + cbn. rewrite (Hrd t 0%nat) by auto with aegis. done.
    + unfold next_table at 1. rewrite (Hrd t (S h)) by auto with aegis.
      fold (next_table (vm_ram s) t (idx (S h) va)).
      destruct (next_table _ _ _) as [c|] eqn:Hn; [|done].
      destruct (next_table_own own s t h _ c Hwf Ht (idx_range _ _) Hn) as [? _]. by apply IH.
  - intros va. unfold translate. cbn [walk]. unfold next_table.
    rewrite Hz, has_flag_0 by auto with aegis. done.
Qed.
End unmap_range.

(** * Theorems *)

(** A forest with one empty root taken from the example pool. *)
Definition example_root : Z := 0x40000000.
Definition example_vm : vm_state phys_state :=
  snd (alloc_page_table (mk_vm example_pool ∅)).

Lemma example_vm_wf :
  pt_wf {[example_root := 3%nat]} example_vm ∧ ∀ va, translate (vm_ram example_vm) example_root va = None.
Proof.
  destruct example_pool_inv as (Hp & _).
  assert (pt_wf ∅ (mk_vm example_pool (∅ : ram))) as Hwf by (split; [done|by intros..]).
  unfold example_vm, alloc_page_table. cbn [vm_alloc].
  pose proof example_pool_alloc as Ha. destruct (pa_alloc example_pool) as [a al] eqn:E.
  cbn in E. rewrite E in Ha. cbn in Ha. subst a.
  destruct (@pa_alloc_spec _ phys_allocator example_pool _ al Hp E) as [Hinv [[? _]|(Hr & Hal & Hav & Hav')]]; [lia|].
  destruct (fresh_root_wf ∅ _ 0x40000000 al Hwf Hr Hal Hav Hinv Hav') as (H & _ & _ & Ht).
  split; [exact H|exact Ht].
Qed.

(** C9: [page_table_map] implements insertion into the translation function.
    On success the page of [va] under root [l0] translates to the new entry and
    every other page of every root, [l0]'s included, keeps its translation;
    [AEGIS_EINVAL] is returned exactly for misaligned or guard requests and
    changes nothing; [AEGIS_ENOMEM] is returned only when the allocator is
    exhausted and leaves every translation as it was.  The table forest stays
    well formed in all cases. *)
Theorem page_table_map_inserts {A} `{PageAllocator A} own (s : vm_state A) l0 va pa flags rc s' :
  pt_wf own s → own !! l0 = Some 3%nat → page_table_map l0 va pa flags s = (rc, s') →
  ∃ own', pt_wf own' s' ∧ own ⊆ own' ∧
    ((rc = AEGIS_EINVAL ∧ ¬ map_args_ok va pa flags ∧ s' = s) ∨
     (rc = AEGIS_ENOMEM ∧ map_args_ok va pa flags ∧ fst (pa_alloc (vm_alloc s')) = 0 ∧
      ∀ r va', own !! r = Some 3%nat → translate (vm_ram s') r va' = translate (vm_ram s) r va') ∨
     (rc = AEGIS_OK ∧ map_args_ok va pa flags ∧
      ∀ r va', own !! r = Some 3%nat →
        translate (vm_ram s') r va' =
          if decide (r = l0 ∧ vpn va' = vpn va) then Some (leaf_entry pa flags)
          else translate (vm_ram s) r va')).
Proof.
  intros Hwf Hl0 E.
  destruct (page_table_map_cases own s l0 va pa flags rc s' Hwf Hl0 E)
    as [(-> & -> & Hna)|[(-> & Hok & Hex & own' & Hwf' & Hsub & _ & Hl & _)|(-> & Hok & own' & Hwf' & Hsub & _ & Ht)]].
  - exists own. split; [done|]. split; [done|]. by left.
  - exists own'. split; [done|]. split; [done|]. right; left. rewrite Hex. split_and!; try done.
    intros r va' Hr. by apply (Hl 3%nat).
  - exists own'. split; [done|]. split; [done|]. by right; right.
Qed.

Lemma page_table_map_inserts_witness :
  let '(rc, s') := page_table_map example_root 0x400000 0x41000000 AEGIS_VM_USER example_vm in
  ∃ own', pt_wf own' s' ∧ own' !! example_root = Some 3%nat ∧ rc ≠ AEGIS_EINVAL.
Proof.
  destruct example_vm_wf as [Hwf _].
  destruct (page_table_map _ _ _ _ _) as [rc s'] eqn:E.
  destruct (page_table_map_inserts {[example_root := 3%nat]} example_vm example_root 0x400000 0x41000000
    AEGIS_VM_USER rc s' Hwf (lookup_singleton_eq _ _) E) as (own' & Hwf' & Hsub & Hcases).
  exists own'. split; [exact Hwf'|]. split.
  - apply (lookup_weaken _ _ _ _ (lookup_singleton_eq example_root 3%nat) Hsub).
  - destruct Hcases as [(_ & Hna & _)|[(-> & _)|(-> & _)]]; [|discriminate|discriminate].
    exfalso. apply Hna. split; [reflexivity|]. split; reflexivity.
Defined.

(** The result of the software walk in terms of [translate]. *)
Lemma page_table_query_translate {A} `{PageAllocator A} (s : vm_state A) l0 va :
  l0 ≠ 0 →
  page_table_query l0 va s =
    match translate (vm_ram s) l0 va with
    | Some e => (AEGIS_OK, Some (Z.lor (Z.land e PTE_ADDR_MASK) (va mod PAGE_SIZE), e))
    | None => (AEGIS_ENOENT, None)
    end.
Proof.
  intros Hl0. unfold page_table_query, translate. cbn [walk]. unfold next_table, idx. cbn [leaf].
  rewrite land_page_low. destruct (Z.eqb_spec l0 0); [done|].
  change (height_shift 3) with L0_SHIFT. change (height_shift 2) with L1_SHIFT.
  change (height_shift 1) with L2_SHIFT. change (height_shift 0) with L3_SHIFT.
  do 3 (destruct (has_flag _ _); [|done]; cbn [negb leaf]).
  by destruct (has_flag _ _).
Qed.

(** A page that [page_table_map] has mapped is found by [page_table_query]
    at every address inside it, with the physical address of the same byte and
    the entry that was installed. *)
Theorem page_table_map_query_roundtrip {A} `{PageAllocator A} own (s : vm_state A) l0 va pa flags s' off :
  pt_wf own s → own !! l0 = Some 3%nat → 0 ≤ va → va + PAGE_SIZE ≤ 2 ^ 48 → 0 ≤ pa < 2 ^ 48 →
  page_table_map l0 va pa flags s = (AEGIS_OK, s') → 0 ≤ off < PAGE_SIZE →
  page_table_query l0 (va + off) s' = (AEGIS_OK, Some (pa + off, leaf_entry pa flags)).
Proof.
  intros Hwf Hl0 Hva Hlim Hpa E Hoff.
  destruct (page_table_map_cases own s l0 va pa flags _ s' Hwf Hl0 E)
    as [(? & _)|[(? & _)|(_ & (Hav & Hap & _) & own' & Hwf' & Hsub & _ & Ht)]]; [done|done|].
  destruct (pt_page _ _ Hwf _ _ Hl0) as (_ & ? & _).
  rewrite page_table_query_translate, (Ht l0) by (done || lia).
  rewrite decide_True.
  2:{ split; [done|]. unfold PAGE_SIZE in *. apply vpn_same_page; unfold PAGE_SIZE; try divlia. }
  rewrite leaf_entry_addr, land_addr_mask. unfold PAGE_SIZE in *. do 3 f_equal.
  replace (pa mod 2 ^ 48 / 4096 * 4096) with pa by divlia.
  replace ((va + off) mod 4096) with off by divlia.
  pose proof (Z.add_lor_land pa off) as Hl. replace (Z.land pa off) with 0 in Hl; [lia|].
  symmetry. apply Z.bits_inj'. intros n Hn. rewrite Z.land_spec, Z.bits_0.
  destruct (decide (n < 12)).
  - replace pa with (pa / 4096 * 2 ^ 12) by (change (2 ^ 12) with 4096; divlia).
    by rewrite Z.mul_pow2_bits_low by lia.
  - rewrite <-(Z.mod_small off (2 ^ 12)), (Z.mod_pow2_bits_high off 12 n) by lia. apply andb_false_r.
Qed.

(** The permission predicates of an installed entry are exactly the requested
    flags: EL0 access iff USER, write iff WRITE, EL0 execution iff USER and
    EXEC; a user page is never executable at EL1, a kernel page never at EL0. *)
Theorem leaf_entry_permissions pa flags :
  let e := leaf_entry pa flags in
  page_table_entry_is_valid e = true ∧
  page_table_entry_allows_user e = has_flag flags AEGIS_VM_USER ∧
  page_table_entry_allows_write e = has_flag flags AEGIS_VM_WRITE ∧
  page_table_entry_allows_el0_execute e = has_flag flags AEGIS_VM_USER && has_flag flags AEGIS_VM_EXEC ∧
  page_table_entry_is_privileged_only e = negb (has_flag flags AEGIS_VM_USER) ∧
  (has_flag flags AEGIS_VM_USER = true → Z.land e PTE_PXN = PTE_PXN) ∧
  (has_flag flags AEGIS_VM_USER = false → Z.land e PTE_UXN = PTE_UXN).
Proof.
  intros e.
  assert (Hv : page_table_entry_is_valid e = true) by apply leaf_entry_valid.
  unfold page_table_entry_is_privileged_only. rewrite Hv. subst e.
  unfold page_table_entry_allows_el0_execute, page_table_entry_allows_user, page_table_entry_allows_write.
  rewrite (leaf_entry_field pa flags PTE_AP_MASK), (leaf_entry_field pa flags PTE_UXN),
    (leaf_entry_field pa flags PTE_PXN) by reflexivity.
  split; [done|]. unfold page_attrs_from_flags, has_flag.
  destruct (Z.land flags AEGIS_VM_USER =? 0), (Z.land flags AEGIS_VM_WRITE =? 0), (Z.land flags AEGIS_VM_EXEC =? 0);
    cbn [negb]; repeat split; reflexivity || discriminate.
Qed.

Lemma example_map_ok :
  fst (page_table_map example_root 0x400000 0x41000000 AEGIS_VM_USER example_vm) = AEGIS_OK.
Proof. vm_compute. reflexivity. Qed.

Lemma page_table_map_query_roundtrip_witness :
  let s' := snd (page_table_map example_root 0x400000 0x41000000 AEGIS_VM_USER example_vm) in
  page_table_query example_root 0x400123 s' =
    (AEGIS_OK, Some (0x41000123, leaf_entry 0x41000000 AEGIS_VM_USER)).
Proof.
  destruct example_vm_wf as [Hwf _]. pose proof example_map_ok as Hok.
  destruct (page_table_map _ _ _ _ _) as [rc s'] eqn:E. cbn in Hok. subst rc.
  apply (page_table_map_query_roundtrip {[example_root := 3%nat]} example_vm example_root
    0x400000 0x41000000 AEGIS_VM_USER s' 0x123 Hwf (lookup_singleton_eq _ _));
    [lia|unfold PAGE_SIZE; lia|lia|exact E|unfold PAGE_SIZE; lia].
Defined.

(** [virt_map] terminates within one iteration per page and maps a prefix of
    the requested range, page for page, in the kernel root only: the whole
    range when it returns [AEGIS_OK]; fewer pages only if the request is
    malformed or the allocator is exhausted.  All other translations, of all
    roots, are unchanged. *)
Theorem virt_map_range {A} `{PageAllocator A} own (s : vm_state A) k va pa size flags fuel :
  pt_wf own s → own !! k = Some 3%nat → va mod PAGE_SIZE = 0 → 0 ≤ va → 0 ≤ size →
  va + size + PAGE_SIZE ≤ 2 ^ 48 → 0 ≤ pa → pa + size + PAGE_SIZE ≤ 2 ^ 64 →
  size ≤ PAGE_SIZE * Z.of_nat fuel →
  ∃ rc s' own' j, virt_map fuel k va pa size flags s = Some (rc, s') ∧
    pt_wf own' s' ∧ own ⊆ own' ∧
    mapped_prefix own (vm_ram s) (vm_ram s') k va pa flags j ∧
    ((rc = AEGIS_OK ∧ size ≤ PAGE_SIZE * j < size + PAGE_SIZE) ∨
     (rc = AEGIS_EINVAL ∧ ¬ map_args_ok va pa flags) ∨
     (rc = AEGIS_ENOMEM ∧ pa_alloc (vm_alloc s') = (0, vm_alloc s'))).
Proof.
  intros Hwf Hk Hva Hva0 Hsz Hlim Hpa0 Hpa Hfuel.
  destruct (virt_map_loop_spec own k va pa size flags Hva Hva0 Hlim Hpa0 Hpa fuel 0 own s s)
    as (rc & s' & own' & j & Hrun & ? & ? & ? & _ & ?); try (done || (unfold PAGE_SIZE in *; lia)).
  { apply mapped_prefix_0. }
  exists rc, s', own', j. done.
Qed.

Lemma virt_map_range_witness :
  ∃ rc s' own' j,
    virt_map 3 example_root 0x400000 0x41000000 0x2800 AEGIS_VM_WRITE example_vm = Some (rc, s') ∧
    pt_wf own' s' ∧
    mapped_prefix {[example_root := 3%nat]} (vm_ram example_vm) (vm_ram s') example_root 0x400000 0x41000000
      AEGIS_VM_WRITE j ∧ (rc = AEGIS_OK → j = 3).
Proof.
  destruct example_vm_wf as [Hwf _].
  destruct (virt_map_range {[example_root := 3%nat]} example_vm example_root 0x400000 0x41000000 0x2800
    AEGIS_VM_WRITE 3 Hwf (lookup_singleton_eq _ _)) as (rc & s' & own' & j & Hrun & Hwf' & _ & Hm & Hc);
    [reflexivity|unfold PAGE_SIZE; lia..|].
  exists rc, s', own', j. split; [exact Hrun|]. split; [exact Hwf'|]. split; [exact Hm|].
  unfold PAGE_SIZE in Hc. intros ->. destruct Hc as [[_ Hj]|[[Hd _]|[Hd _]]]; [lia|discriminate Hd|discriminate Hd].
Defined.

(** [virt_unmap] terminates within one iteration per page, always returns
    [AEGIS_OK], removes the translation of every page of the range from the
    kernel root and leaves every other translation, of every root, unchanged. *)
Theorem virt_unmap_range {A} `{PageAllocator A} own (s : vm_state A) k va size fuel :
  pt_wf own s → own !! k = Some 3%nat → va mod PAGE_SIZE = 0 → 0 ≤ va → 0 ≤ size →
  va + size + PAGE_SIZE ≤ 2 ^ 48 → size ≤ PAGE_SIZE * Z.of_nat fuel →
  ∃ s', virt_unmap fuel k va size s = Some (AEGIS_OK, s') ∧ pt_wf own s' ∧
    ∀ r va', own !! r = Some 3%nat → 0 ≤ va' < 2 ^ 48 →
      translate (vm_ram s') r va' =
        if decide (r = k ∧ va ≤ va' < va + (size + PAGE_SIZE - 1) / PAGE_SIZE * PAGE_SIZE)
        then None else translate (vm_ram s) r va'.
Proof.
  intros Hwf Hk Hva Hva0 Hsz Hlim Hfuel. unfold virt_unmap.
  destruct (virt_unmap_loop_spec own s k va size fuel 0 (vm_ram s)) as (m' & j & Hrun & Hwf' & Hp & Hj);
    try (done || (unfold PAGE_SIZE in *; lia)).
  { by destruct s. }
  { intros r va' Hr Hv. by rewrite decide_False by lia. }
  change (PAGE_SIZE * 0) with 0 in Hrun. rewrite Hrun.
  exists (s <| vm_ram := m' |>). split; [done|]. split; [done|].
  intros r va' Hr Hv. cbn. rewrite (Hp r va' Hr Hv).
  replace ((size + PAGE_SIZE - 1) / PAGE_SIZE) with j; [by rewrite (Z.mul_comm j)|].
  unfold PAGE_SIZE in *. divlia.
Qed.

Lemma virt_unmap_range_witness :
  ∃ s', virt_unmap 2 example_root 0x400000 0x1001 example_vm = Some (AEGIS_OK, s') ∧
    translate (vm_ram s') example_root 0x401fff = None.
Proof.
  destruct example_vm_wf as [Hwf _].
  destruct (virt_unmap_range {[example_root := 3%nat]} example_vm example_root 0x400000 0x1001 2 Hwf
    (lookup_singleton_eq _ _)) as (s' & Hrun & _ & Ht); [reflexivity|unfold PAGE_SIZE; lia..|].
  exists s'. split; [exact Hrun|].
  rewrite Ht; [|exact (lookup_singleton_eq _ _)|lia]. reflexivity.
Defined.
