(* ===== verification/Heap.v ===== *)
(** Kernel heap: kernel/memory/heap.c, a first-fit free list of blocks with
    in-band headers.

    The state keeps the list head, the block headers by address and the payload
    bytes by address; pointers are addresses and the list is followed through
    the [next] fields as the C loops do.  The refinement theorems relate the
    pointer-level operations to list functions ([first_fit], [mark_free],
    [coalesce]) under [heap_inv]: the blocks tile the heap region, so payloads
    are disjoint from each other and from every header.  A header written into
    a free block's payload hides the bytes under it; [heap_bytes] is only
    meaningful on the payloads of allocated blocks, which the tiling keeps
    apart from every header. *)

From S2P Require Import Prelude.

Record block_header := mk_hdr { bh_size : Z; bh_free : bool; bh_next : Z }.
#[export] Instance block_header_eta : Eta block_header :=
  λ h, mk_hdr (bh_size h) (bh_free h) (bh_next h).

Record heap_state := mk_heap {
  heap_head : Z;
  headers : gmap Z block_header;
  heap_bytes : gmap Z Z;
}.
#[export] Instance heap_state_eta : Eta heap_state :=
  λ s, mk_heap (heap_head s) (headers s) (heap_bytes s).

(** [sizeof(block_header_t)] on AArch64: u64, bool padded to 8, pointer. *)
Definition HDR : Z := 24.

Definition heap_init (base size : Z) (s : heap_state) : heap_state :=
  s <| heap_head := base |>
    <| headers ::= <[base := mk_hdr (u64 (size - HDR)) true 0]> |>.

Definition align8 (size : Z) : Z := Z.land (u64 (size + 7)) (u64 (Z.lnot 7)).

(** The [while (cur)] loop of [kmalloc]; [None] when fuel runs out or a
    pointer does not point to a header. *)
Fixpoint kmalloc_loop (fuel : nat) (size cur : Z) (s : heap_state) : option (Z * heap_state) :=
  if cur =? 0 then Some (0, s)
  else
    match fuel, headers s !! cur with
    | S fuel, Some h =>
        if bh_free h && (size <=? bh_size h) then
          let h_s :=
            if u64 (size + HDR + 8) <=? bh_size h then
              let new_block := u64 (cur + HDR + size) in
              (h <| bh_size := size |> <| bh_next := new_block |>,
               s <| headers ::= <[new_block := mk_hdr (u64 (bh_size h - size - HDR)) true (bh_next h)]> |>)
            else (h, s) in
          Some (u64 (cur + HDR), (snd h_s) <| headers ::= <[cur := (fst h_s) <| bh_free := false |>]> |>)
        else kmalloc_loop fuel size (bh_next h) s
    | _, _ => None
    end.

Definition kmalloc (size : Z) (s : heap_state) : option (Z * heap_state) :=
  kmalloc_loop (base.size (headers s)) (align8 size) (heap_head s) s.

(** The coalescing loop of [kfree]. *)
Fixpoint kfree_loop (fuel : nat) (cur : Z) (s : heap_state) : option heap_state :=
  if cur =? 0 then Some s
  else
    match fuel, headers s !! cur with
    | S fuel, Some h =>
        if bh_next h =? 0 then Some s
        else
          match headers s !! bh_next h with
          | Some n =>
              if bh_free h && bh_free n then
                kfree_loop fuel cur
                  (s <| headers ::= <[cur := h <| bh_size := u64 (bh_size h + (HDR + bh_size n)) |>
                                               <| bh_next := bh_next n |>]> |>)
              else kfree_loop fuel (bh_next h) s
          | None => None
          end
    | _, _ => None
    end.

Definition kfree (ptr : Z) (s : heap_state) : option heap_state :=
  if ptr =? 0 then Some s
  else
    match headers s !! (ptr - HDR) with
    | Some h =>
        let s := s <| headers ::= <[ptr - HDR := h <| bh_free := true |>]> |> in
        kfree_loop (base.size (headers s)) (heap_head s) s
    | None => None
    end.

Definition byte_at (m : gmap Z Z) (a : Z) : Z := default 0 (m !! a).

(** [for (i = 0; i < n; i++) dst[i] = src[i];] *)
Definition copy_bytes (dst src n : Z) (m : gmap Z Z) : gmap Z Z :=
  for_from 0 (Z.to_nat n) (λ i m, <[dst + i := byte_at m (src + i)]> m) m.

Definition krealloc (ptr new_size : Z) (s : heap_state) : option (Z * heap_state) :=
  if ptr =? 0 then kmalloc new_size s
  else
    match headers s !! (ptr - HDR) with
    | Some hdr =>
        if new_size <=? bh_size hdr then Some (ptr, s)
        else
          match kmalloc new_size s with
          | Some (new_ptr, s) =>
              if new_ptr =? 0 then Some (0, s)
              else
                match headers s !! (ptr - HDR) with
                | Some hdr =>
                    let s := s <| heap_bytes ::= copy_bytes new_ptr ptr (bh_size hdr) |> in
                    match kfree ptr s with
                    | Some s => Some (new_ptr, s)
                    | None => None
                    end
                | None => None
                end
          | None => None
          end
    | None => None
    end.

(** * Abstract heap: the list of blocks *)

Record block := mk_block { b_addr : Z; b_size : Z; b_free : bool }.

Fixpoint chain (hs : gmap Z block_header) (p : Z) (bl : list block) : Prop :=
  match bl with
  | [] => p = 0
  | b :: bl' =>
      p = b_addr b ∧ ∃ nx, hs !! b_addr b = Some (mk_hdr (b_size b) (b_free b) nx) ∧ chain hs nx bl'
  end.

Fixpoint tile (lo hi : Z) (bl : list block) : Prop :=
  match bl with
  | [] => lo = hi
  | b :: bl' =>
      b_addr b = lo ∧ 0 ≤ b_size b ∧ b_size b mod 8 = 0 ∧ tile (lo + HDR + b_size b) hi bl'
  end.

Record heap_inv (lo hi : Z) (bl : list block) (s : heap_state) : Prop := {
  hi_chain : chain (headers s) (heap_head s) bl;
  hi_tile : tile lo hi bl;
  hi_range : 0 < lo ∧ hi < 2 ^ 64 ∧ lo mod 8 = 0;
}.

(** First fit with splitting. *)
Fixpoint first_fit (size : Z) (bl : list block) : option (Z * list block) :=
  match bl with
  | [] => None
  | b :: bl' =>
      if b_free b && (size <=? b_size b) then
        Some (b_addr b + HDR,
          if size + HDR + 8 <=? b_size b
          then mk_block (b_addr b) size false
               :: mk_block (b_addr b + HDR + size) (b_size b - size - HDR) true :: bl'
          else mk_block (b_addr b) (b_size b) false :: bl')
      else
        match first_fit size bl' with
        | Some (p, r) => Some (p, b :: r)
        | None => None
        end
  end.

Definition mark_free (a : Z) (bl : list block) : list block :=
  (λ b, if b_addr b =? a then mk_block (b_addr b) (b_size b) true else b) <$> bl.

Fixpoint coalesce_into (b : block) (bl : list block) : list block :=
  match bl with
  | [] => [b]
  | n :: bl' =>
      if b_free b && b_free n
      then coalesce_into (mk_block (b_addr b) (b_size b + (HDR + b_size n)) true) bl'
      else b :: coalesce_into n bl'
  end.
Definition coalesce (bl : list block) : list block :=
  match bl with [] => [] | b :: bl' => coalesce_into b bl' end.

(** ** Facts about chains and tilings *)

Lemma tile_bounds lo hi bl : tile lo hi bl → lo ≤ hi ∧ Forall (λ b, lo ≤ b_addr b ∧ b_addr b + HDR + b_size b ≤ hi) bl.
Proof.
  revert lo. induction bl as [|b bl IH]; intros lo; cbn.
  - intros ->. split; [lia|constructor].
  - unfold HDR in *. intros (<- & ? & _ & Ht). destruct (IH _ Ht) as [? HF]. split; [lia|].
    constructor; [lia|]. eapply Forall_impl; [exact HF|]. cbn. lia.
Qed.

(** Headers below [lo] play no part in a chain of blocks from [lo] on. *)
Lemma chain_frame hs hs' p lo hi bl :
  tile lo hi bl → (∀ a, lo ≤ a → hs' !! a = hs !! a) → chain hs p bl → chain hs' p bl.
Proof.
  revert p lo. induction bl as [|b bl IH]; intros p lo; cbn; [done|].
  unfold HDR. intros (<- & ? & _ & Ht) Hag (-> & nx & Hb & Hc). split; [done|]. exists nx.
  rewrite Hag by lia. split; [done|]. eapply IH; [exact Ht| |exact Hc]. intros; apply Hag; lia.
Qed.

(** A chain is never longer than the number of headers in memory. *)
Lemma chain_length lo hi hs p bl : tile lo hi bl → chain hs p bl → (length bl ≤ base.size hs)%nat.
Proof.
  intros Ht Hc.
  assert (Hsub : list_to_set (b_addr <$> bl) ⊆@{gset Z} dom hs).
  { clear Ht. revert p Hc. induction bl as [|b bl IH]; intros p; cbn; [set_solver|].
    intros (-> & nx & Hb & Hc). apply elem_of_dom_2 in Hb. specialize (IH nx Hc). set_solver. }
  assert (Hnd : NoDup (b_addr <$> bl)).
  { clear Hsub Hc p. revert lo Ht. induction bl as [|b bl IH]; intros lo; cbn; [constructor|].
    unfold HDR. intros (<- & ? & _ & Ht). constructor; [|by eapply IH].
    destruct (tile_bounds _ _ _ Ht) as [_ HF]. rewrite list_elem_of_fmap. intros (x & Hx & Hin).
    rewrite Forall_forall in HF. specialize (HF x Hin). lia. }
  apply subseteq_size in Hsub. rewrite size_list_to_set, length_fmap, size_dom in Hsub by done. done.
Qed.

Lemma chain_header hs p bl b :
  chain hs p bl → b ∈ bl → ∃ nx, hs !! b_addr b = Some (mk_hdr (b_size b) (b_free b) nx).
Proof.
  intros Hc Hb. revert p Hc. induction Hb as [b bl|b x bl Hb IH]; intros p (-> & nx & ? & Hc); eauto.
Qed.

Lemma align8_spec size : 0 ≤ size → size + 7 < 2 ^ 64 → align8 size = (size + 7) / 8 * 8.
Proof. intros. unfold align8. rewrite (u64_small (size + 7)) by lia. apply (land_align 64 3); lia. Qed.

(** ** [kmalloc] refines [first_fit] *)

Lemma kmalloc_loop_refines fuel size cur s lo hi bl :
  chain (headers s) cur bl → tile lo hi bl → 8 ≤ lo → hi < 2 ^ 64 →
  0 ≤ size → size mod 8 = 0 → (length bl ≤ fuel)%nat →
  match first_fit size bl with
  | None => kmalloc_loop fuel size cur s = Some (0, s)
  | Some (p, bl') =>
      ∃ s', kmalloc_loop fuel size cur s = Some (p, s') ∧
        chain (headers s') cur bl' ∧ tile lo hi bl' ∧
        heap_head s' = heap_head s ∧ heap_bytes s' = heap_bytes s ∧
        ∀ a, a < lo → headers s' !! a = headers s !! a
  end.
Proof.
  revert fuel cur lo. induction bl as [|b bl IH]; intros fuel cur lo; cbn [chain tile first_fit length].
  { intros -> _ _ _ _ _ _. by destruct fuel. }
  intros (-> & nx & Hb & Hc) (Hlo & Hsz & Hm & Ht) H0 Hhi Hs0 Hs8 Hf.
  pose proof (tile_bounds _ _ _ Ht) as [Hle _]. unfold HDR in *.
  destruct fuel as [|fuel]; [lia|]. cbn [kmalloc_loop].
  destruct (Z.eqb_spec (b_addr b) 0); [lia|]. rewrite Hb. cbn [bh_free bh_size bh_next].
  destruct (b_free b && (size <=? b_size b)) eqn:Hfit.
  - apply andb_true_iff in Hfit as [Hfree Hfit%Z.leb_le]. unfold HDR.
    rewrite (u64_small (size + 24 + 8)), (u64_small (b_addr b + 24)) by lia.
    destruct (Z.leb_spec (size + 24 + 8) (b_size b)); (eexists; split; [reflexivity|]); cbn; unfold HDR.
    + rewrite (u64_small (b_addr b + 24 + size)), (u64_small (b_size b - size - 24)) by lia.
      split_and!; try done; try lia.
      * rewrite lookup_insert_eq. eexists. split; [done|]. split; [done|]. exists nx.
        rewrite lookup_insert_ne, lookup_insert_eq by lia. split; [done|].
        eapply chain_frame; [exact Ht| |exact Hc]. intros a Ha. by rewrite !lookup_insert_ne by lia.
      * divlia.
      * by replace (lo + 24 + size + 24 + (b_size b - size - 24)) with (lo + 24 + b_size b) by lia.
      * intros a Ha. by rewrite !lookup_insert_ne by lia.
    + split_and!; try done; try lia.
      * rewrite lookup_insert_eq. eexists. split; [done|].
        eapply chain_frame; [exact Ht| |exact Hc]. intros a Ha. by rewrite lookup_insert_ne by lia.
      * intros a Ha. by rewrite lookup_insert_ne by lia.
  - specialize (IH fuel nx (lo + 24 + b_size b) Hc Ht ltac:(lia) Hhi Hs0 Hs8 ltac:(lia)).
    destruct (first_fit size bl) as [[p bl']|]; [|done].
    destruct IH as (s' & Hrun & Hc' & Ht' & Hh & Hby & Hag). exists s'. split; [done|].
    split; [split; [done|]; exists nx; rewrite Hag by lia; done|].
    split; [cbn; unfold HDR; auto|]. do 2 (split; [done|]). intros a Ha. apply Hag. lia.
Qed.

Lemma kmalloc_refines size s lo hi bl :
  heap_inv lo hi bl s → 0 ≤ size → size + 7 < 2 ^ 64 →
  let n := (size + 7) / 8 * 8 in
  match first_fit n bl with
  | None => kmalloc size s = Some (0, s)
  | Some (p, bl') =>
      ∃ s', kmalloc size s = Some (p, s') ∧ heap_inv lo hi bl' s' ∧ heap_bytes s' = heap_bytes s
  end.
Proof.
  intros [Hc Ht (H0 & Hhi & H8)] Hs Hs7 n. unfold kmalloc. rewrite align8_spec by done. fold n.
  pose proof (kmalloc_loop_refines (base.size (headers s)) n (heap_head s) s lo hi bl Hc Ht ltac:(divlia) Hhi
    ltac:(subst n; divlia) ltac:(subst n; divlia) (chain_length _ _ _ _ _ Ht Hc)) as H.
  destruct (first_fit n bl) as [[p bl']|]; [|done].
  destruct H as (s' & Hrun & Hc' & Ht' & Hh & Hby & _). exists s'. split; [done|]. split; [|done].
  split; [by rewrite Hh|done|done].
Qed.

(** ** [kfree] refines marking and coalescing *)

Lemma chain_mark hs p lo hi bl a h :
  tile lo hi bl → chain hs p bl → hs !! a = Some h →
  chain (<[a := h <| bh_free := true |>]> hs) p (mark_free a bl).
Proof.
  intros Ht Hc Ha. revert p lo Ht Hc. induction bl as [|b bl IH]; intros p lo; cbn; [done|].
  intros (<- & ? & _ & Ht) (-> & nx & Hb & Hc).
  destruct (Z.eqb_spec (b_addr b) a) as [<-|Hne]; cbn; (split; [done|]); exists nx.
  - rewrite lookup_insert_eq. rewrite Hb in Ha. injection Ha as <-. split; [done|]. by eapply IH.
  - rewrite lookup_insert_ne by done. split; [done|]. by eapply IH.
Qed.

Lemma tile_mark lo hi bl a : tile lo hi bl → tile lo hi (mark_free a bl).
Proof.
  revert lo. induction bl as [|b bl IH]; intros lo; cbn; [done|].
  intros (? & ? & ? & Ht). destruct (Z.eqb_spec (b_addr b) a); cbn; split_and!; auto.
Qed.

Lemma kfree_loop_refines fuel s lo hi b bl :
  chain (headers s) (b_addr b) (b :: bl) → tile lo hi (b :: bl) → 0 < lo → hi < 2 ^ 64 →
  (length bl < fuel)%nat →
  ∃ s', kfree_loop fuel (b_addr b) s = Some s' ∧
    chain (headers s') (b_addr b) (coalesce_into b bl) ∧ tile lo hi (coalesce_into b bl) ∧
    heap_head s' = heap_head s ∧ heap_bytes s' = heap_bytes s ∧
    ∀ a, a < lo → headers s' !! a = headers s !! a.
Proof.
  revert fuel s lo b. induction bl as [|n bl IH]; intros fuel s lo b Hc Ht H0 Hhi Hf.
  { destruct fuel as [|fuel]; [cbn in Hf; lia|]. destruct Hc as (_ & nx & Hb & Hnx).
    cbn in Hnx, Ht. destruct Ht as (<- & ?). exists s. cbn [kfree_loop coalesce_into].
    destruct (Z.eqb_spec (b_addr b) 0); [lia|]. rewrite Hb. cbn. subst nx. cbn.
    split_and!; try done; eauto; tauto. }
  destruct Hc as (_ & nx & Hb & Hc). destruct Ht as (Hlo & Hsz & Hm & Ht).
  pose proof Hc as (-> & nx2 & Hn & Hc2). pose proof Ht as (Hlo2 & Hsz2 & Hm2 & Ht2).
  pose proof (tile_bounds _ _ _ Ht2) as [Hle _]. unfold HDR in *. cbn in Hf.
  destruct fuel as [|fuel]; [lia|]. cbn [kfree_loop coalesce_into].
  destruct (Z.eqb_spec (b_addr b) 0); [lia|]. rewrite Hb. cbn [bh_free bh_size bh_next].
  destruct (Z.eqb_spec (b_addr n) 0); [lia|]. rewrite Hn. cbn [bh_free bh_size bh_next].
  destruct (b_free b && b_free n) eqn:Hff.
  - apply andb_true_iff in Hff as [Hfb Hfn]. unfold HDR. rewrite u64_small by lia.
    set (s1 := s <| headers ::= _ |>).
    destruct (IH fuel s1 lo (mk_block (b_addr b) (b_size b + (24 + b_size n)) true)) as (s' & ? & ? & ? & ? & ? & Hag).
    + split; [done|]. exists nx2. cbn. rewrite lookup_insert_eq, Hfb. split; [done|].
      eapply chain_frame; [exact Ht2| |exact Hc2]. intros a Ha. by rewrite lookup_insert_ne by lia.
    + cbn. unfold HDR. split_and!; try done; try lia; [divlia|].
      by replace (lo + 24 + (b_size b + (24 + b_size n))) with (lo + 24 + b_size b + 24 + b_size n) by lia.
    + done.
    + done.
    + lia.
    + exists s'. split_and!; try done. intros a Ha. rewrite Hag by done. cbn. by rewrite lookup_insert_ne by lia.
  - destruct (IH fuel s (lo + 24 + b_size b) n) as (s' & ? & Hc' & ? & ? & ? & Hag).
    + split; [done|]. eauto.
    + exact Ht.
    + lia.
    + done.
    + lia.
    + exists s'. split; [done|].
      split; [split; [done|]; exists (b_addr n); rewrite Hag by lia; done|].
      split; [cbn; unfold HDR; auto|]. do 2 (split; [done|]). intros a Ha. apply Hag. lia.
Qed.

Lemma kfree_refines ptr s lo hi bl b :
  heap_inv lo hi bl s → b ∈ bl → ptr = b_addr b + HDR →
  ∃ s', kfree ptr s = Some s' ∧ heap_inv lo hi (coalesce (mark_free (b_addr b) bl)) s' ∧
    heap_bytes s' = heap_bytes s.
Proof.
  intros [Hc Ht (H0 & Hhi & H8)] Hb ->. unfold kfree.
  pose proof (tile_bounds _ _ _ Ht) as [_ HF]. rewrite Forall_forall in HF. specialize (HF b Hb).
  unfold HDR in *. destruct (Z.eqb_spec (b_addr b + 24) 0); [lia|].
  replace (b_addr b + 24 - 24) with (b_addr b) by lia.
  destruct (chain_header _ _ _ _ Hc Hb) as [nx0 Hh]. set (h := mk_hdr _ _ _) in Hh.
  rewrite Hh. set (s1 := s <| headers ::= _ |>).
  pose proof (chain_mark _ _ _ _ _ _ _ Ht Hc Hh) as Hc1. pose proof (tile_mark _ _ _ (b_addr b) Ht) as Ht1.
  destruct (mark_free (b_addr b) bl) as [|c cl] eqn:E.
  { destruct bl; [by apply not_elem_of_nil in Hb|done]. }
  pose proof (chain_length _ _ _ _ _ Ht1 Hc1) as Hlen. cbn in Hlen.
  assert (heap_head s1 = b_addr c) as Hhd by (exact (proj1 Hc1)).
  destruct (kfree_loop_refines (base.size (headers s1)) s1 lo hi c cl) as (s' & ? & ? & ? & Hh' & ? & _); try done.
  { rewrite <-Hhd. exact Hc1. }
  exists s'. rewrite Hhd. split; [done|]. split; [|done]. split; [|done|done].
  by rewrite Hh', Hhd.
Qed.

(** ** Facts about the list functions *)

Lemma first_fit_None size bl :
  first_fit size bl = None ↔ Forall (λ b, b_free b = true → b_size b < size) bl.
Proof.
  induction bl as [|b bl IH]; cbn; [split; [constructor|done]|].
  rewrite Forall_cons. destruct (b_free b && (size <=? b_size b)) eqn:E.
  - apply andb_true_iff in E as [? ?%Z.leb_le]. split; [done|]. intros [Hs _]. specialize (Hs ltac:(done)). lia.
  - destruct (first_fit size bl) as [[p r]|].
    + split; [done|]. intros [_ H]. by apply IH in H.
    + split; [|done]. intros _. split; [|by apply IH]. intros Hf. rewrite Hf in E. cbn in E.
      apply Z.leb_gt in E. done.
Qed.

Lemma first_fit_Some size bl p bl' :
  0 ≤ size → first_fit size bl = Some (p, bl') →
  ∃ b, b_free b = false ∧ p = b_addr b + HDR ∧ size ≤ b_size b ∧
    (∃ b0, b0 ∈ bl ∧ b_free b0 = true ∧ b_addr b0 = b_addr b ∧ b_size b ≤ b_size b0) ∧
    ∀ c, b_free c = false → c ∈ bl' ↔ c = b ∨ c ∈ bl.
Proof.
  intros Hs. revert p bl'. induction bl as [|b bl IH]; cbn; intros p bl' E; [done|].
  destruct (b_free b && (size <=? b_size b)) eqn:Hfit.
  - apply andb_true_iff in Hfit as [Hf Hfit%Z.leb_le]. injection E as <- <-.
    destruct (Z.leb_spec (size + HDR + 8) (b_size b)).
    + exists (mk_block (b_addr b) size false). split_and!; try (done || lia).
      * exists b. split_and!; try (done || lia). left.
      * intros c Hc. rewrite !elem_of_cons. split.
        -- intros [->|[->|?]]; [by left|done|by right; right].
        -- intros [->|[->|?]]; [by left|congruence|by right; right].
    + exists (mk_block (b_addr b) (b_size b) false). split_and!; try (done || lia).
      * exists b. split_and!; try (done || lia). left.
      * intros c Hc. rewrite !elem_of_cons. split.
        -- intros [->|?]; [by left|by right; right].
        -- intros [->|[->|?]]; [by left|congruence|by right].
  - destruct (first_fit size bl) as [[q r]|]; [|done]. injection E as <- <-.
    destruct (IH q r eq_refl) as (b1 & ? & ? & ? & (b0 & ? & ? & ? & ?) & Hin).
    exists b1. split_and!; try done.
    + exists b0. split_and!; try done. by right.
    + intros c Hc. rewrite !elem_of_cons, (Hin c Hc). tauto.
Qed.

Lemma coalesce_into_alloc b bl c :
  b_free c = false → c ∈ coalesce_into b bl ↔ c ∈ b :: bl.
Proof.
  intros Hc. revert b. induction bl as [|n bl IH]; intros b; cbn; [done|].
  destruct (b_free b && b_free n) eqn:E.
  - apply andb_true_iff in E as [Hb Hn]. rewrite IH, !elem_of_cons.
    split; [intros [->|?]; [done|auto]|]. intros [->|[->|?]]; [congruence|congruence|by right].
  - rewrite elem_of_cons, IH, !elem_of_cons. done.
Qed.

(** No two neighbours are both free. *)
Fixpoint no_adjacent_free (bl : list block) : Prop :=
  match bl with
  | b :: ((n :: _) as bl') => (b_free b && b_free n = false) ∧ no_adjacent_free bl'
  | _ => True
  end.

Lemma coalesce_into_no_adjacent b bl :
  no_adjacent_free (coalesce_into b bl) ∧
  ∃ h t, coalesce_into b bl = h :: t ∧ b_free h = b_free b.
Proof.
  revert b. induction bl as [|n bl IH]; intros b; cbn [coalesce_into]; [cbn; eauto|].
  destruct (b_free b && b_free n) eqn:E.
  - destruct (IH (mk_block (b_addr b) (b_size b + (HDR + b_size n)) true)) as [? (h & t & ? & Hh)].
    split; [done|]. exists h, t. split; [done|]. rewrite Hh. by apply andb_true_iff in E as [-> _].
  - destruct (IH n) as [Hna (h & t & Ht & Hh)]. rewrite Ht in *. split; [|eauto].
    split; [by rewrite Hh|done].
Qed.

Lemma mark_free_alloc a bl c :
  b_free c = false → c ∈ mark_free a bl ↔ c ∈ bl ∧ b_addr c ≠ a.
Proof.
  intros Hc. unfold mark_free. rewrite list_elem_of_fmap. split.
  - intros (x & Hx & Hin). destruct (Z.eqb_spec (b_addr x) a); subst; [done|]. split; done.
  - intros [Hin Hne]. exists c. by destruct (Z.eqb_spec (b_addr c) a).
Qed.

Lemma coalesce_mark_alloc a bl c :
  b_free c = false → c ∈ coalesce (mark_free a bl) ↔ c ∈ bl ∧ b_addr c ≠ a.
Proof.
  intros Hc. rewrite <-mark_free_alloc by done. unfold coalesce.
  destruct (mark_free a bl); [done|]. by apply coalesce_into_alloc.
Qed.

(** Blocks of a tiling are disjoint, headers included. *)
Lemma tile_disjoint lo hi bl b c :
  tile lo hi bl → b ∈ bl → c ∈ bl →
  b = c ∨ b_addr b + HDR + b_size b ≤ b_addr c ∨ b_addr c + HDR + b_size c ≤ b_addr b.
Proof.
  revert lo. induction bl as [|x bl IH]; intros lo; cbn; [by intros _ ?%not_elem_of_nil|].
  intros (<- & ? & _ & Ht). pose proof (tile_bounds _ _ _ Ht) as [_ HF]. rewrite Forall_forall in HF.
  unfold HDR in *.
  intros [->|Hb]%elem_of_cons [->|Hc]%elem_of_cons; [by left| | |by eapply IH].
  - specialize (HF c Hc). lia.
  - specialize (HF b Hb). lia.
Qed.

(** The payload address range of a block. *)
Definition in_payload (b : block) (a : Z) : Prop :=
  b_addr b + HDR ≤ a < b_addr b + HDR + b_size b.

Lemma payload_disjoint lo hi bl b c a :
  tile lo hi bl → b ∈ bl → c ∈ bl → in_payload b a → in_payload c a → b = c.
Proof.
  unfold in_payload. intros Ht Hb Hc ? ?. destruct (tile_disjoint _ _ _ _ _ Ht Hb Hc) as [|[?|?]]; [done| |];
    unfold HDR in *; lia.
Qed.

Lemma tile_aligned lo hi bl b : tile lo hi bl → lo mod 8 = 0 → b ∈ bl → b_addr b mod 8 = 0.
Proof.
  revert lo. induction bl as [|x bl IH]; intros lo; cbn; [by intros _ _ ?%not_elem_of_nil|].
  unfold HDR. intros (<- & ? & ? & Ht) Hl [->|Hb]%elem_of_cons; [done|]. apply (IH _ Ht); [divlia|done].
Qed.

Lemma tile_size lo hi bl b : tile lo hi bl → b ∈ bl → 0 ≤ b_size b.
Proof.
  revert lo. induction bl as [|y bl IH]; intros lo; cbn; [by intros _ ?%not_elem_of_nil|].
  intros (_ & ? & _ & Ht) [->|Hx]%elem_of_cons; [done|]. by apply (IH _ Ht).
Qed.

Lemma tile_addr_inj lo hi bl b c :
  tile lo hi bl → b ∈ bl → c ∈ bl → b_addr b = b_addr c → b = c.
Proof.
  intros Ht Hb Hc E. pose proof (tile_size _ _ _ _ Ht Hb). pose proof (tile_size _ _ _ _ Ht Hc).
  destruct (tile_disjoint _ _ _ _ _ Ht Hb Hc) as [|Hd]; [done|]. unfold HDR in Hd. lia.
Qed.

Lemma copy_bytes_lookup dst src n m a :
  0 ≤ n → dst + n ≤ src ∨ src + n ≤ dst →
  byte_at (copy_bytes dst src n m) a =
    if decide (dst ≤ a < dst + n) then byte_at m (src + (a - dst)) else byte_at m a.
Proof.
  intros Hn Hd. unfold copy_bytes.
  set (P := λ (k : Z) (m' : gmap Z Z), ∀ b, byte_at m' b =
    if decide (dst ≤ b < dst + k) then byte_at m (src + (b - dst)) else byte_at m b).
  set (body := λ (i : Z) (m : gmap Z Z), <[dst + i := byte_at m (src + i)]> m).
  assert (H : P (0 + Z.of_nat (Z.to_nat n)) (for_from 0 (Z.to_nat n) body m)).
  { apply (for_from_ind P).
    - intros b. rewrite decide_False by lia. done.
    - intros i m' Hi IH b. unfold body. unfold byte_at at 1. rewrite lookup_insert. case_decide as E.
      + subst b. cbn. rewrite IH, decide_False, decide_True by lia. f_equal. lia.
      + fold (byte_at m' b). rewrite IH. repeat case_decide; done || lia. }
  rewrite (H a). by rewrite Z.add_0_l, Z2Nat.id by lia.
Qed.

(** What first fit hands out, in terms of the allocated blocks. *)
Lemma first_fit_alloc size bl p bl' lo hi :
  tile lo hi bl → tile lo hi bl' → 0 ≤ size → first_fit size bl = Some (p, bl') →
  ∃ b, p = b_addr b + HDR ∧ b_free b = false ∧ size ≤ b_size b ∧ ¬ (b ∈ bl) ∧
    (∃ b0, b0 ∈ bl ∧ b_free b0 = true ∧ b_addr b0 = b_addr b ∧ b_size b ≤ b_size b0) ∧
    (∀ c, b_free c = false → c ∈ bl' ↔ c = b ∨ c ∈ bl) ∧
    (∀ c a, c ∈ bl → b_free c = false → in_payload b a → ¬ in_payload c a).
Proof.
  intros Ht Ht' Hn0 E. destruct (first_fit_Some size bl p bl' Hn0 E) as (b & Hb & -> & Hsz & Hfree & Hin).
  assert (b ∉ bl) as Hnin.
  { intros Hbl. destruct Hfree as (b0 & Hb0 & Hf0 & Ha0 & Hsz0).
    rewrite (tile_addr_inj _ _ _ _ _ Ht Hb0 Hbl Ha0) in Hf0. congruence. }
  exists b. split_and!; try done. intros c a Hc Hcf Hpb Hpc.
  assert (b = c) as <-; [|done].
  eapply payload_disjoint; [exact Ht'|apply Hin; auto|apply Hin; auto|done|done].
Qed.

(** What [kfree] gives back, in terms of the allocated blocks. *)
Lemma kfree_releases_block s lo hi bl b :
  heap_inv lo hi bl s → b ∈ bl →
  ∃ s' bl', kfree (b_addr b + HDR) s = Some s' ∧ heap_inv lo hi bl' s' ∧
    heap_bytes s' = heap_bytes s ∧ no_adjacent_free bl' ∧
    ∀ c, b_free c = false → c ∈ bl' ↔ c ∈ bl ∧ c ≠ b.
Proof.
  intros Hinv Hb. destruct (kfree_refines _ s lo hi bl b Hinv Hb eq_refl) as (s' & Hrun & Hinv' & Hby).
  exists s', (coalesce (mark_free (b_addr b) bl)). split_and!; try done.
  - unfold coalesce. destruct (mark_free _ _); [done|]. apply coalesce_into_no_adjacent.
  - intros c Hc. rewrite coalesce_mark_alloc by done. split; intros [Hin Hne]; (split; [done|]); [congruence|].
    intros Ha. apply Hne.
    by apply (tile_addr_inj _ _ _ _ _ (hi_tile _ _ _ _ Hinv) Hin Hb).
Qed.

(** * Theorems *)

(** A 64 KiB heap at 0x100000 with one allocation made. *)
Definition example_heap : heap_state := heap_init 0x100000 0x10000 (mk_heap 0 ∅ ∅).
Definition example_blocks : list block := [mk_block 0x100000 (0x10000 - HDR) true].

Lemma example_heap_inv : heap_inv 0x100000 0x110000 example_blocks example_heap.
Proof.
  split; [|cbn; unfold HDR; split_and!; lia || reflexivity|split_and!; lia || reflexivity]. cbn. split; [done|]. exists 0.
  rewrite lookup_insert_eq. split; [reflexivity|done].
Qed.



(** [kfree] of an allocated block always terminates, releases exactly that
    block (every other allocated block stays as it is), keeps the blocks tiling
    the heap and the payload bytes, and leaves no two adjacent free blocks. *)
Theorem kfree_releases s lo hi bl b :
  heap_inv lo hi bl s → b ∈ bl → b_free b = false →
  ∃ s' bl', kfree (b_addr b + HDR) s = Some s' ∧ heap_inv lo hi bl' s' ∧
    heap_bytes s' = heap_bytes s ∧ no_adjacent_free bl' ∧
    ∀ c, b_free c = false → c ∈ bl' ↔ c ∈ bl ∧ c ≠ b.
Proof. intros Hinv Hb _. by apply kfree_releases_block. Qed.

Lemma kfree_releases_witness :
  ∃ s1 s2 bl2, kmalloc 100 example_heap = Some (0x100018, s1) ∧ kfree 0x100018 s1 = Some s2 ∧
    heap_inv 0x100000 0x110000 bl2 s2 ∧ no_adjacent_free bl2.
Proof.
  pose proof (kmalloc_refines 100 example_heap _ _ _ example_heap_inv) as H.
  change (first_fit ((100 + 7) / 8 * 8) example_blocks) with
    (Some (0x100018, [mk_block 0x100000 104 false; mk_block 0x100080 65384 true])) in H.
  destruct H as (s1 & Hrun & Hinv & _); [lia|lia|].
  destruct (kfree_releases s1 _ _ _ (mk_block 0x100000 104 false) Hinv) as (s2 & bl2 & Hf & Hinv2 & _ & Hna & _);
    [left|reflexivity|].
  exists s1, s2, bl2. split; [exact Hrun|]. split; [exact Hf|]. split; [exact Hinv2|exact Hna].
Defined.

(** [krealloc] of an allocated block returns the same pointer when the block
    is already large enough; otherwise it either returns NULL with the heap
    unchanged or moves the block: the old contents are found at the new
    address, the bytes of every other allocated block are untouched, the old
    block is released and the new one allocated. *)
Theorem krealloc_preserves_contents s lo hi bl b new_size :
  heap_inv lo hi bl s → b ∈ bl → b_free b = false → 0 ≤ new_size → new_size + 7 < 2 ^ 64 →
  let ptr := b_addr b + HDR in
  (new_size ≤ b_size b ∧ krealloc ptr new_size s = Some (ptr, s)) ∨
  (b_size b < new_size ∧ krealloc ptr new_size s = Some (0, s)) ∨
  (b_size b < new_size ∧ ∃ s' bl' nb, krealloc ptr new_size s = Some (b_addr nb + HDR, s') ∧
    heap_inv lo hi bl' s' ∧ new_size ≤ b_size nb ∧
    (∀ i, 0 ≤ i < b_size b →
      byte_at (heap_bytes s') (b_addr nb + HDR + i) = byte_at (heap_bytes s) (ptr + i)) ∧
    (∀ c a, c ∈ bl → b_free c = false → in_payload c a →
      byte_at (heap_bytes s') a = byte_at (heap_bytes s) a) ∧
    (∀ c, b_free c = false → c ∈ bl' ↔ (c = nb ∨ c ∈ bl) ∧ c ≠ b)).
Proof.
  intros Hinv Hb Hbf Hs Hs7 ptr. destruct (chain_header _ _ _ _ (hi_chain _ _ _ _ Hinv) Hb) as [nx Hh].
  pose proof (tile_bounds _ _ _ (hi_tile _ _ _ _ Hinv)) as [_ HF]. rewrite Forall_forall in HF.
  pose proof (HF b Hb). pose proof (proj1 (hi_range _ _ _ _ Hinv)).
  pose proof (tile_size _ _ _ _ (hi_tile _ _ _ _ Hinv) Hb) as Hbs.
  unfold krealloc. rewrite (proj2 (Z.eqb_neq ptr 0)) by (unfold ptr, HDR in *; lia).
  replace (ptr - HDR) with (b_addr b) by (unfold ptr; lia). rewrite Hh. cbn [bh_size].
  destruct (Z.leb_spec new_size (b_size b)); [by left|right].
  pose proof (kmalloc_refines new_size s lo hi bl Hinv Hs Hs7) as Hk. cbn zeta in Hk.
  destruct (first_fit _ bl) as [[p bl1]|] eqn:E; [right|left; by rewrite Hk].
  split; [done|]. destruct Hk as (s1 & -> & Hinv1 & Hby).
  assert (0 ≤ (new_size + 7) / 8 * 8 ∧ new_size ≤ (new_size + 7) / 8 * 8) as [Hn0 Hn] by divlia.
  destruct (first_fit_alloc _ _ _ _ _ _ (hi_tile _ _ _ _ Hinv) (hi_tile _ _ _ _ Hinv1) Hn0 E)
    as (nb & -> & Hnb & Hsz & Hnin & _ & Hin & Hdisj).
  assert (b ∈ bl1) as Hb1 by (apply Hin; auto). assert (nb ∈ bl1) as Hnb1 by (apply Hin; auto).
  pose proof (tile_bounds _ _ _ (hi_tile _ _ _ _ Hinv1)) as [_ HF1]. rewrite Forall_forall in HF1.
  pose proof (HF1 nb Hnb1). rewrite (proj2 (Z.eqb_neq _ 0)) by (unfold HDR in *; lia).
  destruct (chain_header _ _ _ _ (hi_chain _ _ _ _ Hinv1) Hb1) as [nx1 Hh1]. rewrite Hh1. cbn [bh_size].
  set (s2 := s1 <| heap_bytes ::= _ |>).
  assert (heap_inv lo hi bl1 s2) as Hinv2 by (destruct Hinv1; by split).
  destruct (kfree_releases_block s2 lo hi bl1 b Hinv2 Hb1) as (s3 & bl3 & Hf & Hinv3 & Hby3 & _ & Hal).
  fold ptr in Hf. rewrite Hf. exists s3, bl3, nb.
  assert (nb ≠ b) as Hne by (by intros ->).
  assert (Hsep : b_addr nb + HDR + b_size b ≤ ptr ∨ ptr + b_size b ≤ b_addr nb + HDR).
  { destruct (tile_disjoint _ _ _ nb b (hi_tile _ _ _ _ Hinv1) Hnb1 Hb1) as [|Hd]; [done|]. unfold ptr, HDR in *. lia. }
  pose proof (copy_bytes_lookup (b_addr nb + HDR) ptr (b_size b) (heap_bytes s) ) as Hcp.
  rewrite Hby3. change (heap_bytes s2) with (copy_bytes (b_addr nb + HDR) ptr (b_size b) (heap_bytes s1)). rewrite Hby. split_and!; [done|done|lia| | |].
  - intros i Hi. rewrite Hcp by done. rewrite decide_True by lia. f_equal. lia.
  - intros c a Hc Hcf Hpc. rewrite Hcp by done. rewrite decide_False; [done|]. intros Ha.
    assert (nb = c) as -> by (apply (payload_disjoint lo hi bl1 nb c a); [apply Hinv1|done|by apply Hin; auto|unfold in_payload; lia|done]).
    done.
  - intros c Hcf. rewrite Hal, Hin by done. tauto.
Qed.

Lemma krealloc_preserves_contents_witness :
  ∃ s1 s2 bl2, kmalloc 100 example_heap = Some (0x100018, s1) ∧
    krealloc 0x100018 200 (s1 <| heap_bytes := <[0x100018 := 7]> ∅ |>) = Some (0x100098, s2) ∧
    heap_inv 0x100000 0x110000 bl2 s2 ∧ byte_at (heap_bytes s2) 0x100098 = 7.
Proof.
  pose proof (kmalloc_refines 100 example_heap _ _ _ example_heap_inv) as H.
  change (first_fit ((100 + 7) / 8 * 8) example_blocks) with
    (Some (0x100018, [mk_block 0x100000 104 false; mk_block 0x100080 65384 true])) in H.
  destruct H as (s1 & Hrun & Hinv & _); [lia|lia|].
  set (b := mk_block 0x100000 104 false). set (s1' := s1 <| heap_bytes := <[0x100018 := 7]> ∅ |>).
  assert (heap_inv 0x100000 0x110000 [b; mk_block 0x100080 65384 true] s1') as Hinv1 by (destruct Hinv; by split).
  assert (krealloc 0x100018 200 s1' = Some (0x100098, default s1' (snd <$> krealloc 0x100018 200 s1'))) as E.
  { unfold s1'. vm_compute in Hrun. injection Hrun as <-. vm_compute. reflexivity. }
  destruct (krealloc_preserves_contents s1' _ _ _ b 200 Hinv1) as [[Hle _]|[[_ Hn]|(_ & s2 & bl2 & nb & Hk & Hinv2 & _ & Hc & _)]];
    [left|reflexivity|lia|lia|cbn in Hle; lia|change (b_addr b + HDR) with 0x100018 in Hn; congruence|].
  change (b_addr b + HDR) with 0x100018 in Hk. rewrite E in Hk. injection Hk as Hp Hs2.
  exists s1, s2, bl2. split; [exact Hrun|]. split; [|split; [exact Hinv2|]].
  - fold s1'. rewrite E. by rewrite Hs2.
  - specialize (Hc 0). cbn [b_size b] in Hc. rewrite !Z.add_0_r, <-Hp in Hc. rewrite Hc by lia. reflexivity.
Defined.

(** A request of 2^64 - 1 bytes rounds up to a size of zero and is granted. *)
Lemma kmalloc_size_wraps :
  fst <$> kmalloc (2 ^ 64 - 1) example_heap = Some 0x100018 ∧
  (λ r, bh_size <$> headers (snd r) !! 0x100000) <$> kmalloc (2 ^ 64 - 1) example_heap = Some (Some 0).
Proof. split; vm_compute; reflexivity. Qed.

(** * Interface

    What the heap promises to the rest of the kernel: a map of live blocks,
    from payload address to size. *)

Class KernelHeap (H : Type) := {
  km_alloc : Z → H → option (Z * H);
  km_free : Z → H → option H;
  km_inv : gmap Z Z → H → Prop;
  km_live m h p n : km_inv m h → m !! p = Some n → 0 < p ∧ 0 ≤ n ∧ p + n < 2 ^ 64;
  km_disjoint m h p n p' n' :
    km_inv m h → m !! p = Some n → m !! p' = Some n' → p ≠ p' → p + n < p' ∨ p' + n' < p;
  km_alloc_spec m h n :
    km_inv m h → 0 ≤ n → n + 7 < 2 ^ 64 →
    km_alloc n h = Some (0, h) ∨
    ∃ p sz h', km_alloc n h = Some (p, h') ∧ m !! p = None ∧ n ≤ sz ∧ km_inv (<[p := sz]> m) h';
  km_free_spec m h p n :
    km_inv m h → m !! p = Some n → ∃ h', km_free p h = Some h' ∧ km_inv (delete p m) h';
}.

Definition live_blocks (m : gmap Z Z) (bl : list block) : Prop :=
  ∀ p n, m !! p = Some n ↔ mk_block (p - HDR) n false ∈ bl.

Lemma block_eta b p : b_free b = false → b_addr b + HDR = p → b = mk_block (p - HDR) (b_size b) false.
Proof. destruct b; cbn. intros -> <-. f_equal. lia. Qed.

#[export] Program Instance heap_kernel_heap : KernelHeap heap_state := {|
  km_alloc := kmalloc;
  km_free := kfree;
  km_inv m h := ∃ lo hi bl, heap_inv lo hi bl h ∧ live_blocks m bl;
|}.
Next Obligation.
  intros m h p n (lo & hi & bl & Hinv & Hm) Hp%Hm.
  pose proof (tile_size _ _ _ _ (hi_tile _ _ _ _ Hinv) Hp) as Hs.
  pose proof (proj2 (tile_bounds _ _ _ (hi_tile _ _ _ _ Hinv))) as HF. rewrite Forall_forall in HF.
  specialize (HF _ Hp). pose proof (hi_range _ _ _ _ Hinv). cbn in *. unfold HDR in *. lia.
Qed.
Next Obligation.
  intros m h p n p' n' (lo & hi & bl & Hinv & Hm) Hp%Hm Hp'%Hm Hne.
  destruct (tile_disjoint _ _ _ _ _ (hi_tile _ _ _ _ Hinv) Hp Hp') as [E|Hd].
  - injection E as E _. lia.
  - cbn in Hd. unfold HDR in *. lia.
Qed.
Next Obligation.
  intros m h n (lo & hi & bl & Hinv & Hm) Hn Hn7.
  pose proof (kmalloc_refines n h lo hi bl Hinv Hn Hn7) as Hk. cbn zeta in Hk.
  destruct (first_fit _ bl) as [[p bl']|] eqn:E; [right|by left]. destruct Hk as (h' & Hrun & Hinv' & _).
  assert (0 ≤ (n + 7) / 8 * 8 ∧ n ≤ (n + 7) / 8 * 8) as [H0 Hle] by divlia.
  destruct (first_fit_alloc ((n + 7) / 8 * 8) bl p bl' lo hi) as (b & -> & Hb & Hsz & Hnin & (b0 & Hb0 & Hf0 & Ha0 & _) & Hin & _);
    [apply Hinv|apply Hinv'|exact H0|done|].
  exists (b_addr b + HDR), (b_size b), h'. split_and!; [done| |lia|exists lo, hi, bl'; split; [done|]].
  - destruct (m !! _) as [k|] eqn:Ek; [|done]. apply Hm in Ek.
    rewrite (tile_addr_inj _ _ _ _ _ (hi_tile _ _ _ _ Hinv) Hb0 Ek) in Hf0; [done|cbn; lia].
  - intros q k. rewrite lookup_insert_Some, (Hm q k), Hin by done. split.
    + intros [[<- <-]|[_ ?]]; [left; symmetry; by apply block_eta|by right].
    + intros [E'|Hq]; [left; rewrite <-E'; cbn; split; [lia|done]|right]. split; [|done]. intros <-.
      rewrite (tile_addr_inj _ _ _ _ _ (hi_tile _ _ _ _ Hinv) Hb0 Hq) in Hf0; [done|cbn; lia].
Qed.
Next Obligation.
  intros m h p n (lo & hi & bl & Hinv & Hm) Hp. pose proof (proj1 (Hm p n) Hp) as Hb.
  destruct (kfree_releases_block h lo hi bl _ Hinv Hb) as (h' & bl' & Hrun & Hinv' & _ & _ & Hal).
  cbn in Hrun. rewrite Z.sub_add in Hrun. exists h'. split; [done|]. exists lo, hi, bl'. split; [done|].
  intros q k. rewrite lookup_delete_Some, Hal, (Hm q k) by done. split.
  - intros [Hne Hq]. split; [done|]. intros E. injection E as E _. lia.
  - intros [Hq Hne]. split; [|done]. intros <-. apply Hne. pose proof (proj2 (Hm p k) Hq). congruence.
Qed.

Lemma example_km_inv : km_inv ∅ example_heap.
Proof.
  exists 0x100000, 0x110000, example_blocks. split; [apply example_heap_inv|].
  intros p n. rewrite lookup_empty. split; [done|]. intros [E|E%not_elem_of_nil]%elem_of_cons; done.
Qed.
