(* ===== verification/Message.v ===== *)
(** Message queues: kernel/ipc/message.c.

    A table of ring buffers, one per channel.  The abstract specification is a
    finite map from channel identifiers to first-in first-out lists of
    messages; [ipc_refines_mailboxes] shows that every sequence of operations
    on the ring buffers gives the same results as on that map. *)

From S2P Require Import Prelude.

Definition MSG_MAX_PAYLOAD : Z := 256.
Definition MSG_QUEUE_DEPTH : Z := 64.
Definition MAX_MSG_QUEUES : nat := 1024.

Record aegis_msg := mk_msg {
  sender_tid : Z;
  receiver_tid : Z;
  msg_tag : Z;
  payload_len : Z;
  payload : list Z;
}.
#[export] Instance aegis_msg_eta : Eta aegis_msg := λ m,
  mk_msg (sender_tid m) (receiver_tid m) (msg_tag m) (payload_len m) (payload m).

Record msg_queue := mk_queue {
  msgs : list aegis_msg;
  q_head : Z;
  q_tail : Z;
  q_count : Z;
  q_channel_id : Z;
  q_active : bool;
}.
#[export] Instance msg_queue_eta : Eta msg_queue := λ q,
  mk_queue (msgs q) (q_head q) (q_tail q) (q_count q) (q_channel_id q) (q_active q).

(** * Operations *)

Definition ipc_init (queues : list msg_queue) : list msg_queue :=
  (λ q, q <| q_active := false |> <| q_head := 0 |> <| q_tail := 0 |> <| q_count := 0 |>) <$> queues.

Definition ipc_create_queue (channel_id : Z) (queues : list msg_queue) : Z * list msg_queue :=
  match find_slot (λ q, negb (q_active q)) queues with
  | Some i =>
      (Z.of_nat i,
       alter (λ q, q <| q_active := true |> <| q_channel_id := channel_id |>
                     <| q_head := 0 |> <| q_tail := 0 |> <| q_count := 0 |>) i queues)
  | None => (AEGIS_ENOMEM, queues)
  end.

(** The scan for the active queue of a channel. *)
Definition find_queue (channel_id : Z) (queues : list msg_queue) : option nat :=
  find_slot (λ q, q_active q && (q_channel_id q =? channel_id)) queues.

Definition enqueue (tid : Z) (data : list Z) (len : Z) (q : msg_queue) : msg_queue :=
  q <| msgs ::= alter (λ m, m <| sender_tid := tid |> <| receiver_tid := 0 |> <| msg_tag := 0 |>
                              <| payload_len := len |> <| payload ::= buf_copy len data |>)
                (Z.to_nat (q_tail q)) |>
    <| q_tail := u32 (q_tail q + 1) mod MSG_QUEUE_DEPTH |>
    <| q_count := u32 (q_count q + 1) |>.

(** [tid] is the identifier of [scheduler_current()], 0 when there is none;
    [data] is [None] for a NULL pointer. *)
Definition ipc_send (tid channel_id : Z) (data : option (list Z)) (len : Z)
    (queues : list msg_queue) : Z * list msg_queue :=
  match data with
  | None => (AEGIS_EINVAL, queues)
  | Some data =>
      if (len =? 0) || (MSG_MAX_PAYLOAD <? len) then (AEGIS_EINVAL, queues)
      else
        match find_queue channel_id queues with
        | None => (AEGIS_ENOENT, queues)
        | Some i =>
            match queues !! i with
            | None => (AEGIS_ENOENT, queues)
            | Some q =>
                if MSG_QUEUE_DEPTH <=? q_count q then (AEGIS_ENOMEM, queues)
                else (AEGIS_OK, alter (enqueue tid data len) i queues)
            end
        end
  end.

Definition dequeue (q : msg_queue) : msg_queue :=
  q <| q_head := u32 (q_head q + 1) mod MSG_QUEUE_DEPTH |> <| q_count := u32 (q_count q - 1) |>.

(** Result, receive buffer, queues. *)
Definition ipc_recv (channel_id : Z) (buf : list Z) (max_len : Z)
    (queues : list msg_queue) : Z * list Z * list msg_queue :=
  match find_queue channel_id queues with
  | None => (AEGIS_ENOENT, buf, queues)
  | Some i =>
      match queues !! i with
      | None => (AEGIS_ENOENT, buf, queues)
      | Some q =>
          if q_count q =? 0 then (AEGIS_EBUSY, buf, queues)
          else
            match msgs q !! Z.to_nat (q_head q) with
            | None => (AEGIS_EBUSY, buf, queues)
            | Some msg =>
                let copy_len := if payload_len msg <? max_len then payload_len msg else max_len in
                (s32 copy_len, buf_copy copy_len (payload msg) buf, alter dequeue i queues)
            end
      end
  end.

Definition ipc_destroy_queue (channel_id : Z) (queues : list msg_queue) : list msg_queue :=
  match find_queue channel_id queues with
  | Some i => alter (λ q, q <| q_active := false |>) i queues
  | None => queues
  end.

(** * Specification: FIFO mailboxes *)

(** A message as the receiver sees it: sender and bytes. *)
Abbreviation letter := (Z * list Z)%type.
Abbreviation mailboxes := (gmap Z (list letter)).

Inductive ipc_op :=
  | Create (channel_id : Z)
  | Send (tid channel_id : Z) (data : option (list Z)) (len : Z)
  | Recv (channel_id : Z) (buf : list Z) (max_len : Z)
  | Destroy (channel_id : Z).

(** What the caller observes: a status (for [Create], only whether it
    succeeded) and the bytes of the caller's buffer. *)
Abbreviation ipc_res := (Z * list Z)%type.

Definition ipc_exec (o : ipc_op) (qs : list msg_queue) : ipc_res * list msg_queue :=
  match o with
  | Create c => let '(r, qs) := ipc_create_queue c qs in (if r <? 0 then r else 0, [], qs)
  | Send t c d n => let '(r, qs) := ipc_send t c d n qs in (r, [], qs)
  | Recv c b n => let '(r, b, qs) := ipc_recv c b n qs in (r, b, qs)
  | Destroy c => (0, [], ipc_destroy_queue c qs)
  end.

Definition spec_exec (o : ipc_op) (m : mailboxes) : ipc_res * mailboxes :=
  match o with
  | Create c =>
      if (base.size m <? MAX_MSG_QUEUES)%nat then (0, [], <[c := []]> m) else (AEGIS_ENOMEM, [], m)
  | Send t c None n => (AEGIS_EINVAL, [], m)
  | Send t c (Some d) n =>
      if (n =? 0) || (MSG_MAX_PAYLOAD <? n) then (AEGIS_EINVAL, [], m)
      else
        match m !! c with
        | None => (AEGIS_ENOENT, [], m)
        | Some l =>
            if MSG_QUEUE_DEPTH <=? Z.of_nat (length l) then (AEGIS_ENOMEM, [], m)
            else (AEGIS_OK, [], <[c := l ++ [(t, take (Z.to_nat n) d)]]> m)
        end
  | Recv c b n =>
      match m !! c with
      | None => (AEGIS_ENOENT, b, m)
      | Some [] => (AEGIS_EBUSY, b, m)
      | Some ((_, p) :: l) =>
          let k := Nat.min (length p) (Z.to_nat n) in
          (Z.of_nat k, take k p ++ drop k b, <[c := l]> m)
      end
  | Destroy c => (0, [], delete c m)
  end.

(** Well-typed arguments; a channel gets a queue at most once. *)
Definition op_ok (m : mailboxes) (o : ipc_op) : Prop :=
  match o with
  | Create c => m !! c = None
  | Send _ _ (Some d) n => 0 ≤ n ≤ Z.of_nat (length d)
  | Send _ _ None n => True
  | Recv _ b n => 0 ≤ n ≤ Z.of_nat (length b)
  | Destroy _ => True
  end.

(** * Abstraction *)

(** The message in slot [k] after the head. *)
Definition slot (q : msg_queue) (k : nat) : nat :=
  Z.to_nat ((q_head q + Z.of_nat k) mod MSG_QUEUE_DEPTH).

Definition letter_of (m : aegis_msg) : letter :=
  (sender_tid m, take (Z.to_nat (payload_len m)) (payload m)).

Definition contents (q : msg_queue) : list letter :=
  (λ k, from_option letter_of (0, []) (msgs q !! slot q k)) <$> seq 0 (Z.to_nat (q_count q)).

Definition msg_wf (m : aegis_msg) : Prop :=
  0 ≤ payload_len m ≤ MSG_MAX_PAYLOAD ∧ length (payload m) = Z.to_nat MSG_MAX_PAYLOAD.

Record queue_wf (q : msg_queue) : Prop := {
  qw_len : length (msgs q) = Z.to_nat MSG_QUEUE_DEPTH;
  qw_msgs : Forall msg_wf (msgs q);
  qw_head : 0 ≤ q_head q < MSG_QUEUE_DEPTH;
  qw_count : 0 ≤ q_count q ≤ MSG_QUEUE_DEPTH;
  qw_tail : q_tail q = (q_head q + q_count q) mod MSG_QUEUE_DEPTH;
}.

Definition active_queues (qs : list msg_queue) : list msg_queue :=
  filter (λ q, q_active q = true) qs.
Definition mailbox_list (qs : list msg_queue) : list (Z * list letter) :=
  (λ q, (q_channel_id q, contents q)) <$> active_queues qs.
Definition abs (qs : list msg_queue) : mailboxes := list_to_map (mailbox_list qs).

Record ipc_inv (qs : list msg_queue) : Prop := {
  ipc_len : length qs = MAX_MSG_QUEUES;
  ipc_wf : Forall queue_wf qs;
  ipc_unique : NoDup (q_channel_id <$> active_queues qs);
}.

(** * One ring buffer *)

Lemma slot_range q k : queue_wf q → (slot q k < length (msgs q))%nat.
Proof. intros [-> _ _ _ _]. unfold slot, MSG_QUEUE_DEPTH. divlia. Qed.

Lemma qslot_inj q j k :
  queue_wf q → (j < 64)%nat → (k < 64)%nat → slot q j = slot q k → j = k.
Proof. intros [_ _ Hh _ _] ? ?. unfold slot, MSG_QUEUE_DEPTH in *. divlia. Qed.

Lemma contents_length q : queue_wf q → Z.of_nat (length (contents q)) = q_count q.
Proof. intros [_ _ _ ? _]. unfold contents. rewrite length_fmap, length_seq. lia. Qed.

Lemma enqueue_spec t d n q :
  queue_wf q → q_count q < MSG_QUEUE_DEPTH → 0 ≤ n ≤ MSG_MAX_PAYLOAD → n ≤ Z.of_nat (length d) →
  queue_wf (enqueue t d n q) ∧ contents (enqueue t d n q) = contents q ++ [(t, take (Z.to_nat n) d)].
Proof.
  intros Hq Hc Hn Hd. pose proof Hq as [Hlen Hmsgs Hh Hcnt Ht].
  assert (Htail : Z.to_nat (q_tail q) = slot q (Z.to_nat (q_count q))).
  { unfold slot. rewrite Ht. do 2 f_equal. lia. }
  destruct (lookup_lt_is_Some_2 (msgs q) _ (slot_range q (Z.to_nat (q_count q)) Hq)) as [m Hm].
  pose proof (Forall_lookup_1 _ _ _ _ Hmsgs Hm) as [Hpl Hp].
  unfold MSG_QUEUE_DEPTH, MSG_MAX_PAYLOAD in *.
  split.
  - split; cbn.
    + by rewrite length_alter.
    + apply Forall_alter; [done|]. intros m' Hm' [_ Hp']. split; cbn; [done|]. by rewrite buf_copy_length.
    + done.
    + unfold MSG_QUEUE_DEPTH. rewrite u32_small; lia.
    + unfold MSG_QUEUE_DEPTH. rewrite Ht, !u32_small by divlia. divlia.
  - unfold contents at 1. cbn. rewrite u32_small by lia.
    replace (Z.to_nat (q_count q + 1)) with (S (Z.to_nat (q_count q))) by lia.
    rewrite seq_S, fmap_app. f_equal.
    + apply list_fmap_ext. intros i k Hk. apply lookup_seq in Hk as [-> Hk]. f_equal.
      change (slot (enqueue t d n q) (0 + i)) with (slot q i).
      rewrite list_lookup_alter_ne; [done|]. rewrite Htail. intros E%(qslot_inj _ _ _ Hq); lia.
    + cbn. f_equal. change (slot (enqueue t d n q) _) with (slot q (Z.to_nat (q_count q))).
      rewrite Htail, list_lookup_alter_eq, Hm. cbn. unfold letter_of. cbn. f_equal.
      rewrite buf_copy_spec by lia. rewrite take_app_le by (rewrite length_take; lia).
      rewrite take_take. f_equal. lia.
Qed.

Lemma dequeue_spec q :
  queue_wf q → 0 < q_count q →
  ∃ m, msgs q !! Z.to_nat (q_head q) = Some m ∧ msg_wf m ∧ queue_wf (dequeue q) ∧
    contents q = letter_of m :: contents (dequeue q).
Proof.
  intros Hq Hc. pose proof Hq as [Hlen Hmsgs Hh Hcnt Ht].
  assert (Hhd : Z.to_nat (q_head q) = slot q 0).
  { unfold slot. rewrite Z.add_0_r, Z.mod_small; done. }
  destruct (lookup_lt_is_Some_2 (msgs q) _ (slot_range q 0 Hq)) as [m Hm].
  unfold MSG_QUEUE_DEPTH in *.
  exists m. rewrite Hhd. split; [done|]. split; [by eapply Forall_lookup_1|]. split.
  - split; cbn; unfold MSG_QUEUE_DEPTH; rewrite ?u32_small by divlia; try done; [divlia|divlia|].
    rewrite Ht. divlia.
  - unfold contents at 1. destruct (Z.to_nat (q_count q)) as [|c] eqn:E; [lia|]. cbn. rewrite Hm. f_equal.
    unfold contents. cbn. rewrite u32_small by lia. replace (Z.to_nat (q_count q - 1)) with c by lia.
    rewrite <-fmap_S_seq, <-list_fmap_compose. apply list_fmap_ext. intros i k _. cbn. do 2 f_equal.
    unfold slot, MSG_QUEUE_DEPTH. cbn. rewrite u32_small by divlia. unfold MSG_QUEUE_DEPTH. f_equal. divlia.
Qed.

(** * The table of queues

    The table is split around one queue; what holds of the rest is not
    affected by changing it. *)

Definition chan_ids (qs : list msg_queue) : list Z := q_channel_id <$> active_queues qs.

Lemma mailbox_list_fst qs : (mailbox_list qs).*1 = chan_ids qs.
Proof. unfold mailbox_list, chan_ids. by rewrite <-list_fmap_compose. Qed.

Lemma abs_None qs c : abs qs !! c = None ↔ ¬ c ∈ chan_ids qs.
Proof. unfold abs. by rewrite <-not_elem_of_list_to_map, mailbox_list_fst. Qed.

Lemma active_middle l1 q l2 :
  active_queues (l1 ++ q :: l2) ≡ₚ (if q_active q then [q] else []) ++ active_queues (l1 ++ l2).
Proof. unfold active_queues. rewrite filter_middle. by destruct (q_active q). Qed.

Lemma ipc_inv_middle l1 q l2 :
  ipc_inv (l1 ++ q :: l2) ↔
  S (length (l1 ++ l2)) = MAX_MSG_QUEUES ∧ queue_wf q ∧ Forall queue_wf (l1 ++ l2) ∧
  NoDup (chan_ids (l1 ++ l2)) ∧ (q_active q = true → abs (l1 ++ l2) !! q_channel_id q = None).
Proof.
  rewrite abs_None. pose proof (fmap_Permutation q_channel_id _ _ (active_middle l1 q l2)) as HP.
  assert (HN : NoDup (chan_ids (l1 ++ q :: l2)) ↔
    NoDup (chan_ids (l1 ++ l2)) ∧ (q_active q = true → ¬ q_channel_id q ∈ chan_ids (l1 ++ l2))).
  { unfold chan_ids. rewrite HP. destruct (q_active q); cbn; [rewrite NoDup_cons|]; naive_solver. }
  assert (HL : length (l1 ++ q :: l2) = S (length (l1 ++ l2))) by (rewrite !length_app; cbn; lia).
  assert (HF : Forall queue_wf (l1 ++ q :: l2) ↔ queue_wf q ∧ Forall queue_wf (l1 ++ l2)).
  { rewrite !Forall_app, Forall_cons. tauto. }
  split.
  - intros [Hl Hw Hu]. rewrite HL in Hl. fold (chan_ids (l1 ++ q :: l2)) in Hu. tauto.
  - intros (Hl & Hq & Hw & Hu). split; [by rewrite HL|tauto|fold (chan_ids (l1 ++ q :: l2)); tauto].
Qed.

Lemma abs_middle l1 q l2 :
  ipc_inv (l1 ++ q :: l2) →
  abs (l1 ++ q :: l2) =
    if q_active q then <[q_channel_id q := contents q]> (abs (l1 ++ l2)) else abs (l1 ++ l2).
Proof.
  intros Hinv. pose proof (fmap_Permutation (λ q, (q_channel_id q, contents q)) _ _ (active_middle l1 q l2)) as HP.
  unfold abs. rewrite (list_to_map_proper _ _ ltac:(rewrite mailbox_list_fst; apply Hinv) HP).
  by destruct (q_active q).
Qed.

Lemma abs_size qs : ipc_inv qs → base.size (abs qs) = length (active_queues qs).
Proof.
  intros [_ _ Hu]. unfold abs. rewrite <-length_map_to_list, (map_to_list_to_map (mailbox_list qs)).
  - unfold mailbox_list. by rewrite length_fmap.
  - by rewrite mailbox_list_fst.
Qed.

Lemma find_queue_Some c qs i :
  find_queue c qs = Some i → ∃ q, qs !! i = Some q ∧ q_active q = true ∧ q_channel_id q = c.
Proof.
  intros (q & Hq & [Ha Hc%Z.eqb_eq]%andb_true_iff & _)%find_slot_Some. eauto.
Qed.

Lemma find_queue_None c qs : find_queue c qs = None → abs qs !! c = None.
Proof.
  intros H. rewrite abs_None. unfold chan_ids. intros (q & -> & Hq)%list_elem_of_fmap.
  unfold active_queues in Hq. apply list_elem_of_filter in Hq as [Ha Hin].
  apply list_elem_of_lookup in Hin as [i Hi]. pose proof (proj1 (find_slot_None _ _) H i q Hi) as Hf.
  cbn in Hf. by rewrite Ha, Z.eqb_refl in Hf.
Qed.

(** Replacing an active queue of the channel by another one of the channel. *)
Lemma update_queue c qs i q f :
  ipc_inv qs → qs !! i = Some q → q_active q = true → q_channel_id q = c →
  queue_wf (f q) → q_active (f q) = true → q_channel_id (f q) = c →
  ipc_inv (alter f i qs) ∧ abs qs !! c = Some (contents q) ∧
  abs (alter f i qs) = <[c := contents (f q)]> (abs qs).
Proof.
  intros Hinv Hi Ha Hc Hw Hfa Hfc. destruct (split_at _ _ _ Hi) as (l1 & l2 & -> & _ & Halt).
  rewrite (Halt f). pose proof Hinv as (Hl & _ & Hrest & Hu & Hfresh)%ipc_inv_middle.
  assert (ipc_inv (l1 ++ f q :: l2)) as Hinv'.
  { apply ipc_inv_middle. split_and!; try done. rewrite Hfc, <-Hc. auto. }
  split; [done|]. rewrite !abs_middle, Ha, Hfa, Hc, Hfc by done.
  by rewrite lookup_insert_eq, insert_insert_eq.
Qed.

(** * Each operation implements its specification *)

Lemma create_refines c qs :
  ipc_inv qs → abs qs !! c = None →
  ∃ qs', ipc_exec (Create c) qs = (fst (spec_exec (Create c) (abs qs)), qs') ∧
    ipc_inv qs' ∧ abs qs' = snd (spec_exec (Create c) (abs qs)).
Proof.
  intros Hinv Hc. unfold ipc_exec, ipc_create_queue, spec_exec. rewrite (abs_size qs Hinv).
  destruct (find_slot _ qs) as [i|] eqn:E.
  - apply find_slot_Some in E as (q & Hi & Hq%negb_true_iff & _).
    destruct (split_at _ _ _ Hi) as (l1 & l2 & -> & _ & Halt). rewrite Halt. clear Halt.
    pose proof Hinv as (Hl & Hw & Hrest & Hu & _)%ipc_inv_middle.
    rewrite (abs_middle _ _ _ Hinv), Hq in *.
    set (q' := q <| q_active := true |> <| q_channel_id := c |> <| q_head := 0 |> <| q_tail := 0 |> <| q_count := 0 |>).
    rewrite (proj2 (Z.ltb_ge _ 0)) by lia.
    assert ((length (active_queues (l1 ++ q :: l2)) <? MAX_MSG_QUEUES)%nat = true) as ->.
    { apply Nat.ltb_lt. rewrite (active_middle l1 q l2), Hq. cbn.
      pose proof (length_filter (λ q, q_active q = true) (l1 ++ l2)). unfold active_queues. lia. }
    assert (ipc_inv (l1 ++ q' :: l2)) as Hinv'.
    { apply ipc_inv_middle. split_and!; try done. destruct Hw. by split. }
    eexists. split; [done|]. split; [done|]. by rewrite (abs_middle _ _ _ Hinv').
  - assert (length (active_queues qs) = MAX_MSG_QUEUES) as ->.
    { rewrite <-(ipc_len _ Hinv). unfold active_queues. f_equal.
      clear Hinv Hc. pose proof (proj1 (find_slot_None _ _) E) as HN. clear E.
      induction qs as [|q qs IH]; [done|]. rewrite filter_cons_True by (specialize (HN O q eq_refl); by apply negb_false_iff in HN).
      f_equal. apply IH. intros i x Hx. by apply (HN (S i)). }
    rewrite Nat.ltb_irrefl. eexists. split; [done|]. done.
Qed.

Lemma send_refines t c d n qs :
  ipc_inv qs → op_ok (abs qs) (Send t c d n) →
  ∃ qs', ipc_exec (Send t c d n) qs = (fst (spec_exec (Send t c d n) (abs qs)), qs') ∧
    ipc_inv qs' ∧ abs qs' = snd (spec_exec (Send t c d n) (abs qs)).
Proof.
  intros Hinv Hok. unfold ipc_exec, ipc_send. cbn [spec_exec]. destruct d as [d|]; [|by eauto].
  cbn in Hok. destruct ((n =? 0) || (MSG_MAX_PAYLOAD <? n)) eqn:En; [by eauto|].
  apply orb_false_iff in En as [_ Hn%Z.ltb_ge].
  destruct (find_queue c qs) as [i|] eqn:Ei; [|rewrite (find_queue_None _ _ Ei); by eauto].
  destruct (find_queue_Some _ _ _ Ei) as (q & Hi & Ha & Hc). rewrite Hi.
  pose proof (Forall_lookup_1 _ _ _ _ (ipc_wf _ Hinv) Hi) as Hq.
  pose proof (update_queue c qs i q id Hinv Hi Ha Hc Hq Ha Hc) as (_ & Habs & _). rewrite Habs.
  rewrite (contents_length q Hq). destruct (Z.leb_spec MSG_QUEUE_DEPTH (q_count q)); [by eauto|].
  destruct (enqueue_spec t d n q) as [Hw' Hcont]; [done|done|lia|lia|].
  destruct (update_queue c qs i q (enqueue t d n)) as (Hinv' & _ & Habs'); try done.
  eexists. split; [done|]. split; [done|]. by rewrite Habs', Hcont.
Qed.

Lemma recv_refines c b n qs :
  ipc_inv qs → op_ok (abs qs) (Recv c b n) →
  ∃ qs', ipc_exec (Recv c b n) qs = (fst (spec_exec (Recv c b n) (abs qs)), qs') ∧
    ipc_inv qs' ∧ abs qs' = snd (spec_exec (Recv c b n) (abs qs)).
Proof.
  intros Hinv Hok. unfold ipc_exec, ipc_recv. cbn [spec_exec]. cbn in Hok.
  destruct (find_queue c qs) as [i|] eqn:Ei; [|rewrite (find_queue_None _ _ Ei); by eauto].
  destruct (find_queue_Some _ _ _ Ei) as (q & Hi & Ha & Hc). rewrite Hi.
  pose proof (Forall_lookup_1 _ _ _ _ (ipc_wf _ Hinv) Hi) as Hq.
  pose proof (update_queue c qs i q id Hinv Hi Ha Hc Hq Ha Hc) as (_ & Habs & _). rewrite Habs.
  pose proof (contents_length q Hq) as Hlen.
  destruct (Z.eqb_spec (q_count q) 0).
  { destruct (contents q); [by eauto|cbn in Hlen; lia]. }
  destruct (dequeue_spec q Hq) as (m & Hm & [Hpl Hp] & Hw' & Hcont).
  { destruct Hq. lia. }
  rewrite Hm, Hcont. cbn [letter_of]. unfold letter_of.
  destruct (update_queue c qs i q dequeue) as (Hinv' & _ & Habs'); try done.
  unfold MSG_MAX_PAYLOAD in *. rewrite length_take.
  set (k := if payload_len m <? n then payload_len m else n).
  assert (0 ≤ k ≤ 256 ∧ k ≤ n ∧ k ≤ payload_len m ∧
    ((Z.to_nat (payload_len m) `min` length (payload m)) `min` Z.to_nat n)%nat = Z.to_nat k) as (Hk & Hkn & Hkp & ->).
  { unfold k. destruct (Z.ltb_spec (payload_len m) n); lia. }
  eexists. split; [|split; [done|exact Habs']]. cbn [fst]. f_equal. f_equal.
  - unfold s32. divlia.
  - rewrite buf_copy_spec by lia. rewrite take_take. repeat f_equal. lia.
Qed.

Lemma destroy_refines c qs :
  ipc_inv qs →
  ∃ qs', ipc_exec (Destroy c) qs = (fst (spec_exec (Destroy c) (abs qs)), qs') ∧
    ipc_inv qs' ∧ abs qs' = snd (spec_exec (Destroy c) (abs qs)).
Proof.
  intros Hinv. cbn. unfold ipc_destroy_queue.
  destruct (find_queue c qs) as [i|] eqn:Ei.
  2:{ eexists. split; [done|]. split; [done|]. by rewrite delete_id by (by apply find_queue_None). }
  destruct (find_queue_Some _ _ _ Ei) as (q & Hi & Ha & Hc).
  destruct (split_at _ _ _ Hi) as (l1 & l2 & -> & _ & Halt). rewrite Halt.
  pose proof Hinv as (Hl & Hw & Hrest & Hu & Hf)%ipc_inv_middle.
  assert (ipc_inv (l1 ++ q <| q_active := false |> :: l2)) as Hinv'.
  { apply ipc_inv_middle. split_and!; try done. destruct Hw. by split. }
  eexists. split; [done|]. split; [done|]. rewrite (abs_middle _ _ _ Hinv'), (abs_middle _ _ _ Hinv), Ha. cbn.
  rewrite Hc, delete_insert_id; [done|]. rewrite <-Hc. auto.
Qed.

Lemma ipc_step_refines o qs :
  ipc_inv qs → op_ok (abs qs) o →
  ∃ qs', ipc_exec o qs = (fst (spec_exec o (abs qs)), qs') ∧
    ipc_inv qs' ∧ abs qs' = snd (spec_exec o (abs qs)).
Proof.
  intros Hinv Hok. destruct o.
  - by apply create_refines.
  - by apply send_refines.
  - by apply recv_refines.
  - by apply destroy_refines.
Qed.

(** * Runs *)

Fixpoint run {S : Type} (exec : ipc_op → S → ipc_res * S) (ops : list ipc_op) (s : S) : list ipc_res * S :=
  match ops with
  | [] => ([], s)
  | o :: ops =>
      let '(r, s) := exec o s in
      let '(rs, s) := run exec ops s in
      (r :: rs, s)
  end.

Fixpoint ops_ok (m : mailboxes) (ops : list ipc_op) : Prop :=
  match ops with
  | [] => True
  | o :: ops => op_ok m o ∧ ops_ok (snd (spec_exec o m)) ops
  end.

Lemma run_refines ops qs :
  ipc_inv qs → ops_ok (abs qs) ops →
  ∃ qs', run ipc_exec ops qs = (fst (run spec_exec ops (abs qs)), qs') ∧
    ipc_inv qs' ∧ abs qs' = snd (run spec_exec ops (abs qs)).
Proof.
  revert qs. induction ops as [|o ops IH]; intros qs Hinv; cbn; [by eauto|].
  intros [Ho Hops]. destruct (ipc_step_refines o qs Hinv Ho) as (qs1 & -> & Hinv1 & Habs1).
  rewrite <-Habs1 in Hops. destruct (IH qs1 Hinv1 Hops) as (qs2 & -> & Hinv2 & Habs2).
  destruct (spec_exec o (abs qs)) as [r m]. cbn in *. subst m.
  destruct (run spec_exec ops (abs qs1)). cbn in *. eauto.
Qed.

(** The static table before initialisation: right sizes, any contents. *)
Definition table_shape (qs : list msg_queue) : Prop :=
  length qs = MAX_MSG_QUEUES ∧
  Forall (λ q, length (msgs q) = Z.to_nat MSG_QUEUE_DEPTH ∧ Forall msg_wf (msgs q)) qs.

Lemma ipc_init_inv qs : table_shape qs → ipc_inv (ipc_init qs) ∧ abs (ipc_init qs) = ∅.
Proof.
  intros [Hl Hw].
  assert (active_queues (ipc_init qs) = []) as HA.
  { unfold active_queues, ipc_init. clear. induction qs as [|q qs IH]; [done|].
    rewrite fmap_cons, filter_cons_False by done. done. }
  split; [split|].
  - unfold ipc_init. by rewrite length_fmap.
  - unfold ipc_init. apply Forall_fmap. eapply Forall_impl; [exact Hw|]. intros q [? ?]. by split.
  - rewrite HA. constructor.
  - unfold abs, mailbox_list. by rewrite HA.
Qed.

(** Payloads accepted for sending and payloads delivered on a channel. *)
Fixpoint accepted (c : Z) (ops : list ipc_op) (rs : list ipc_res) : list (list Z) :=
  match ops, rs with
  | Send _ c' (Some d) n :: ops, (r, _) :: rs =>
      (if (c' =? c) && (r =? AEGIS_OK) then [take (Z.to_nat n) d] else []) ++ accepted c ops rs
  | _ :: ops, _ :: rs => accepted c ops rs
  | _, _ => []
  end.
Fixpoint delivered (c : Z) (ops : list ipc_op) (rs : list ipc_res) : list (list Z) :=
  match ops, rs with
  | Recv c' _ _ :: ops, (r, b) :: rs =>
      (if (c' =? c) && (0 <=? r) then [take (Z.to_nat r) b] else []) ++ delivered c ops rs
  | _ :: ops, _ :: rs => delivered c ops rs
  | _, _ => []
  end.

(** The channel lives through the whole run and receive buffers fit any message. *)
Definition uses_channel (c : Z) (o : ipc_op) : Prop :=
  match o with
  | Create c' | Destroy c' => c' ≠ c
  | Recv c' _ n => c' = c → MSG_MAX_PAYLOAD ≤ n
  | Send _ _ _ _ => True
  end.

Lemma spec_step_fifo c o m l :
  m !! c = Some l → Forall (λ x : letter, (length x.2 ≤ 256)%nat) l →
  op_ok m o → uses_channel c o →
  ∃ l', snd (spec_exec o m) !! c = Some l' ∧ Forall (λ x : letter, (length x.2 ≤ 256)%nat) l' ∧
    l.*2 ++ accepted c [o] [fst (spec_exec o m)] = delivered c [o] [fst (spec_exec o m)] ++ l'.*2.
Proof.
  intros Hm Hl Hok Hu. destruct o as [c'|t c' [d|] n|c' b n|c']; cbn in Hok, Hu; cbn [spec_exec].
  - destruct (_ <? _)%nat; cbn; rewrite ?lookup_insert_ne by done; rewrite app_nil_r; eauto.
  - destruct ((n =? 0) || _) eqn:En; [cbn; rewrite andb_false_r, !app_nil_r; eauto|].
    apply orb_false_iff in En as [_ Hn%Z.ltb_ge]. unfold MSG_MAX_PAYLOAD in Hn.
    destruct (m !! c') as [l0|] eqn:E; [|cbn; rewrite andb_false_r, !app_nil_r; eauto].
    destruct (_ <=? _); cbn; rewrite ?andb_false_r, ?andb_true_r, ?app_nil_r; [by eauto|].
    destruct (Z.eqb_spec c' c) as [->|Hne].
    + assert (l0 = l) as -> by congruence. exists (l ++ [(t, take (Z.to_nat n) d)]). rewrite lookup_insert_eq, fmap_app.
      split; [done|]. split; [|done]. apply Forall_app. split; [done|]. constructor; [|constructor].
      cbn. rewrite length_take. lia.
    + exists l. rewrite lookup_insert_ne by done. by rewrite app_nil_r.
  - cbn. rewrite app_nil_r. eauto.
  - destruct (m !! c') as [[|[t p] l0]|] eqn:E; cbn; rewrite ?andb_false_r, ?app_nil_r; [by eauto| |by eauto].
    destruct (Z.eqb_spec c' c) as [->|Hne]; cbn.
    + assert (l = (t, p) :: l0) as -> by congruence. apply Forall_cons in Hl as [Hp Hl0]. cbn in Hp.
      exists l0. rewrite lookup_insert_eq. split; [done|]. split; [done|].
      unfold MSG_MAX_PAYLOAD in Hu. specialize (Hu eq_refl).
      replace (length p `min` Z.to_nat n)%nat with (length p) by lia.
      rewrite (proj2 (Z.leb_le 0 _)) by lia. cbn. rewrite Nat2Z.id, firstn_all.
      by rewrite take_app_length.
    + rewrite lookup_insert_ne by done. eauto.
  - cbn. rewrite lookup_delete_ne by done. rewrite app_nil_r. eauto.
Qed.

Lemma accepted_cons c o ops r rs : accepted c (o :: ops) (r :: rs) = accepted c [o] [r] ++ accepted c ops rs.
Proof. destruct o as [|? ? [] ?| |], r; cbn; by rewrite ?app_nil_r. Qed.
Lemma delivered_cons c o ops r rs : delivered c (o :: ops) (r :: rs) = delivered c [o] [r] ++ delivered c ops rs.
Proof. destruct o, r; cbn; by rewrite ?app_nil_r. Qed.

Lemma spec_run_fifo c ops m l :
  m !! c = Some l → Forall (λ x : letter, (length x.2 ≤ 256)%nat) l →
  ops_ok m ops → Forall (uses_channel c) ops →
  ∃ l', snd (run spec_exec ops m) !! c = Some l' ∧
    l.*2 ++ accepted c ops (fst (run spec_exec ops m)) = delivered c ops (fst (run spec_exec ops m)) ++ l'.*2.
Proof.
  revert m l. induction ops as [|o ops IH]; intros m l Hm Hl; cbn [run ops_ok].
  - intros _ _. exists l. cbn. by rewrite app_nil_r.
  - intros [Ho Hops] [Hu Hus]%Forall_cons.
    destruct (spec_step_fifo c o m l Hm Hl Ho Hu) as (l1 & Hm1 & Hl1 & E1).
    destruct (IH _ l1 Hm1 Hl1 Hops Hus) as (l2 & Hm2 & E2).
    destruct (spec_exec o m) as [r m1]. cbn [fst snd] in *. destruct (run spec_exec ops m1) as [rs m2]. cbn [fst snd] in *.
    exists l2. split; [done|]. rewrite accepted_cons, delivered_cons.
    by rewrite app_assoc, E1, <-!app_assoc, E2.
Qed.

(** * Theorems *)

Definition blank_msg : aegis_msg := mk_msg 0 0 0 0 (replicate 256 0).
Definition blank_table : list msg_queue :=
  replicate MAX_MSG_QUEUES (mk_queue (replicate 64 blank_msg) 0 0 0 0 false).

Lemma blank_table_shape : table_shape blank_table.
Proof.
  split; [apply length_replicate|]. apply Forall_replicate. split; [done|].
  apply Forall_replicate. by split.
Qed.

(** C25: the message queue table implements first-in first-out mailboxes: after
    [ipc_init], every sequence of create, send, receive and destroy operations
    (with valid buffers, at most one queue per channel) returns the statuses
    and the buffer contents that the finite map of bounded first-in first-out lists
    returns, error branches included, and keeps the table well formed. *)
Theorem ipc_refines_mailboxes qs ops :
  table_shape qs → ops_ok ∅ ops →
  ∃ qs', run ipc_exec ops (ipc_init qs) = (fst (run spec_exec ops ∅), qs') ∧
    ipc_inv qs' ∧ abs qs' = snd (run spec_exec ops ∅).
Proof.
  intros [Hinv Habs]%ipc_init_inv Hok. rewrite <-Habs in *. by apply run_refines.
Qed.

Lemma ipc_refines_mailboxes_witness :
  fst (run ipc_exec [Create 5; Send 7 5 (Some [1; 2; 3]) 3; Send 7 5 (Some [4]) 1; Recv 5 [0; 0] 2; Recv 9 [] 0; Recv 5 [0] 1; Recv 5 [] 0]
     (ipc_init blank_table)) =
  [(0, []); (0, []); (0, []); (2, [1; 2]); (-4, []); (1, [4]); (-5, [])].
Proof.
  destruct (ipc_refines_mailboxes blank_table
    [Create 5; Send 7 5 (Some [1; 2; 3]) 3; Send 7 5 (Some [4]) 1; Recv 5 [0; 0] 2; Recv 9 [] 0; Recv 5 [0] 1; Recv 5 [] 0]
    blank_table_shape) as (qs' & -> & _).
  - cbn. split_and!; done || lia.
  - vm_compute. reflexivity.
Defined.

(** In-order, exactly-once delivery.  Over any run of operations in which a
    channel that exists is neither re-created nor destroyed, the payloads
    accepted by [ipc_send] on the channel, appended to what was pending, are the
    payloads delivered by [ipc_recv] followed by what is still pending: nothing
    is lost, duplicated, altered or reordered. *)
Theorem ipc_fifo_delivery c ops qs l :
  ipc_inv qs → abs qs !! c = Some l → Forall (λ x : letter, (length x.2 ≤ 256)%nat) l →
  ops_ok (abs qs) ops → Forall (uses_channel c) ops →
  ∃ rs qs' l', run ipc_exec ops qs = (rs, qs') ∧ ipc_inv qs' ∧ abs qs' !! c = Some l' ∧
    l.*2 ++ accepted c ops rs = delivered c ops rs ++ l'.*2.
Proof.
  intros Hinv Hl HF Hok Hu. destruct (run_refines ops qs Hinv Hok) as (qs' & -> & Hinv' & Habs').
  destruct (spec_run_fifo c ops _ l Hl HF Hok Hu) as (l' & Hl' & E).
  do 3 eexists. split; [done|]. split; [done|]. rewrite Habs'. eauto.
Qed.

Lemma ipc_fifo_delivery_witness :
  ∃ qs l, abs qs !! 5 = Some l ∧
  ∃ rs qs' l', run ipc_exec [Send 1 5 (Some [9]) 1; Recv 5 (replicate 256 0) 256] qs = (rs, qs') ∧ abs qs' !! 5 = Some l' ∧
    accepted 5 [Send 1 5 (Some [9]) 1; Recv 5 (replicate 256 0) 256] rs = [[9]] ∧
    l.*2 ++ [[9]] = delivered 5 [Send 1 5 (Some [9]) 1; Recv 5 (replicate 256 0) 256] rs ++ l'.*2.
Proof.
  destruct (ipc_init_inv _ blank_table_shape) as [Hi Habs].
  destruct (run_refines [Create 5] (ipc_init blank_table) Hi) as (qs & _ & Hinv & Hq).
  { rewrite Habs. by split. }
  rewrite Habs in Hq. exists qs, []. split; [by rewrite Hq|].
  destruct (ipc_fifo_delivery 5 [Send 1 5 (Some [9]) 1; Recv 5 (replicate 256 0) 256] qs []) as (rs & qs' & l' & Hrun & _ & Hl' & E).
  - exact Hinv.
  - by rewrite Hq.
  - constructor.
  - rewrite Hq. cbn. split_and!; done || lia.
  - repeat constructor; intros _; done.
  - exists rs, qs', l'.
    assert (accepted 5 [Send 1 5 (Some [9]) 1; Recv 5 (replicate 256 0) 256] rs = [[9]]) as Ha.
    { pose proof (run_refines [Send 1 5 (Some [9]) 1; Recv 5 (replicate 256 0) 256] qs Hinv) as (q2 & Hr2 & _).
      - rewrite Hq. cbn. split_and!; done || lia.
      - rewrite Hr2 in Hrun. injection Hrun as <- _. rewrite Hq. vm_compute. reflexivity. }
    rewrite Ha in E. split; [exact Hrun|]. split; [exact Hl'|]. split; [exact Ha|exact E].
Defined.
