(* ===== verification/Channel.v ===== *)
(** Channels: kernel/ipc/channel.c, numbered channels and the registry of named
    service channels built on the message queues of [Message].

    The abstraction is the finite map from names to channel identifiers; the
    invariant says that identifiers are handed out once and that each named
    channel has its own. *)

From S2P Require Import Prelude Message.

Definition MAX_CHANNELS : Z := 1024.
Definition MAX_NAMED_CHANNELS : nat := 32.
Definition AEGIS_NAMED_CHANNEL_NAME_MAX : nat := 32.

Record channel := mk_channel { ch_id : Z; ch_owner_id : Z; ch_open : bool }.
#[export] Instance channel_eta : Eta channel := λ c, mk_channel (ch_id c) (ch_owner_id c) (ch_open c).

Record named_channel := mk_named { nc_used : bool; nc_channel_id : Z; nc_name : string }.
#[export] Instance named_channel_eta : Eta named_channel := λ n,
  mk_named (nc_used n) (nc_channel_id n) (nc_name n).

(** The static variables of channel.c and message.c. *)
Record ipc_state := mk_ipc {
  channel_table : list channel;
  named_channels : list named_channel;
  next_channel_id : Z;
  queues : list msg_queue;
}.
#[export] Instance ipc_state_eta : Eta ipc_state := λ s,
  mk_ipc (channel_table s) (named_channels s) (next_channel_id s) (queues s).

(** A [channel_t *] is an index of the table, [None] for NULL. *)

Definition name_eq (a b : string) : bool := c_streq a b.
Definition name_copy (src : string) : string := str_take (AEGIS_NAMED_CHANNEL_NAME_MAX - 1) src.

Definition channel_init (s : ipc_state) : ipc_state :=
  s <| channel_table ::= fmap (λ _, mk_channel 0 0 false) |>
    <| named_channels ::= fmap (λ _, mk_named false 0 EmptyString) |>
    <| next_channel_id := 1 |>.

Definition channel_create (owner_id : Z) (s : ipc_state) : option nat * ipc_state :=
  if MAX_CHANNELS <=? next_channel_id s then (None, s)
  else
    let i := Z.to_nat (next_channel_id s) in
    (Some i,
     s <| channel_table ::= <[i := mk_channel (next_channel_id s) owner_id true]> |>
       <| next_channel_id := u32 (next_channel_id s + 1) |>).

Definition channel_get (id : Z) (s : ipc_state) : option channel :=
  if (id =? 0) || (MAX_CHANNELS <=? id) then None
  else
    match channel_table s !! Z.to_nat id with
    | Some c => if ch_open c then Some c else None
    | None => None
    end.

Definition channel_close (id : Z) (s : ipc_state) : ipc_state :=
  if id <? MAX_CHANNELS
  then s <| channel_table ::= alter (λ c, c <| ch_open := false |>) (Z.to_nat id) |>
  else s.

Definition channel_id_from_handle (h : option nat) (s : ipc_state) : Z :=
  match h with
  | None => 0
  | Some i =>
      match channel_table s !! i with
      | Some c => if ch_open c then ch_id c else 0
      | None => 0
      end
  end.

(** [name] is [None] for a NULL pointer. *)
Definition channel_open_named (name : option string) (owner_id : Z) (s : ipc_state) : Z * ipc_state :=
  match name with
  | None | Some EmptyString => (AEGIS_EINVAL, s)
  | Some name =>
      match find_slot (λ n, nc_used n && name_eq (nc_name n) name) (named_channels s) with
      | Some i => (from_option nc_channel_id 0 (named_channels s !! i), s)
      | None =>
          match find_slot (λ n, negb (nc_used n)) (named_channels s) with
          | None => (AEGIS_ENOMEM, s)
          | Some free_index =>
              let '(ch, s) := channel_create owner_id s in
              let id := channel_id_from_handle ch s in
              if match ch with Some _ => false | None => true end || (id =? 0) then (AEGIS_ENOMEM, s)
              else
                let '(queue, qs) := ipc_create_queue id (queues s) in
                let s := s <| queues := qs |> in
                if queue <? 0 then (queue, channel_close id s)
                else
                  (id, s <| named_channels ::=
                         alter (λ _, mk_named true id (name_copy name)) free_index |>)
          end
      end
  end.

Definition channel_name (id : Z) (s : ipc_state) : option string :=
  match find_slot (λ n, nc_used n && (nc_channel_id n =? id)) (named_channels s) with
  | Some i => nc_name <$> named_channels s !! i
  | None => None
  end.

(** * The registry *)

Definition used_names (l : list named_channel) : list named_channel :=
  filter (λ n, nc_used n = true) l.
Definition registry_list (l : list named_channel) : list (string * Z) :=
  (λ n, (nc_name n, nc_channel_id n)) <$> used_names l.
Definition registry (s : ipc_state) : gmap string Z := list_to_map (registry_list (named_channels s)).

Record chan_inv (s : ipc_state) : Prop := {
  ci_table : length (channel_table s) = Z.to_nat MAX_CHANNELS;
  ci_next : 1 ≤ next_channel_id s ≤ MAX_CHANNELS;
  ci_names : NoDup (registry_list (named_channels s)).*1;
  ci_ids : NoDup (registry_list (named_channels s)).*2;
  ci_used : Forall (λ x : string * Z, 0 < x.2 < next_channel_id s) (registry_list (named_channels s));
  ci_queues : ipc_inv (queues s);
  ci_fresh : ∀ c l, abs (queues s) !! c = Some l → c < next_channel_id s;
  ci_ready : ∀ n c, registry s !! n = Some c → is_Some (abs (queues s) !! c);
}.

Lemma registry_fresh_slot l i x y :
  l !! i = Some x → nc_used x = false → nc_used y = true →
  registry_list (alter (λ _, y) i l) ≡ₚ (nc_name y, nc_channel_id y) :: registry_list l.
Proof.
  intros Hi Hx Hy. destruct (split_at _ _ _ Hi) as (l1 & l2 & -> & _ & ->).
  unfold registry_list, used_names. rewrite !filter_middle, Hx, Hy. done.
Qed.

Lemma registry_find name s :
  NoDup (registry_list (named_channels s)).*1 →
  match find_slot (λ n, nc_used n && name_eq (nc_name n) name) (named_channels s) with
  | Some i => registry s !! name = nc_channel_id <$> named_channels s !! i
  | None => registry s !! name = None
  end.
Proof.
  intros Hnd. destruct (find_slot _ _) as [i|] eqn:E; unfold registry.
  - apply find_slot_Some in E as (n & Hi & [Hu Hn%c_streq_spec]%andb_true_iff & _). rewrite Hi. cbn.
    apply elem_of_list_to_map; [done|]. unfold registry_list. apply list_elem_of_fmap.
    exists n. split; [by subst|]. apply list_elem_of_filter. split; [done|]. by eapply list_elem_of_lookup_2.
  - apply not_elem_of_list_to_map. unfold registry_list. rewrite <-list_fmap_compose.
    intros (n & Hn & [Hu Hin]%list_elem_of_filter)%list_elem_of_fmap.
    apply list_elem_of_lookup in Hin as [i Hi]. pose proof (proj1 (find_slot_None _ _) E i n Hi) as Hf. cbn in Hf, Hn.
    rewrite Hu in Hf. cbn in Hf. assert (name_eq (nc_name n) name = true) by (by apply c_streq_spec). congruence.
Qed.

(** Handing out the next identifier keeps everything else. *)
Lemma channel_create_spec owner s :
  chan_inv s → next_channel_id s < MAX_CHANNELS →
  let id := next_channel_id s in
  ∃ s', channel_create owner s = (Some (Z.to_nat id), s') ∧
    channel_id_from_handle (Some (Z.to_nat id)) s' = id ∧
    channel_get id s' = Some (mk_channel id owner true) ∧
    named_channels s' = named_channels s ∧ queues s' = queues s ∧
    next_channel_id s' = id + 1 ∧ length (channel_table s') = length (channel_table s).
Proof.
  intros [Ht Hn _ _ _ _ _ _] Hlt. cbn zeta. unfold channel_create, MAX_CHANNELS in *.
  rewrite (proj2 (Z.leb_gt _ _)) by done. eexists. split; [done|]. cbn.
  set (id := next_channel_id s) in *.
  assert (Hl : <[Z.to_nat id := mk_channel id owner true]> (channel_table s) !! Z.to_nat id = Some (mk_channel id owner true)).
  { apply list_lookup_insert_eq. rewrite Ht. lia. }
  split_and!; try done.
  - by rewrite Hl.
  - unfold channel_get. cbn. rewrite (proj2 (Z.eqb_neq _ _)), (proj2 (Z.leb_gt _ _)) by (unfold MAX_CHANNELS; lia).
    cbn. by rewrite Hl.
  - rewrite u32_small; lia.
  - by rewrite length_insert.
Qed.

Lemma create_fresh_queue c qs :
  ipc_inv qs → abs qs !! c = None →
  ∃ r qs', ipc_create_queue c qs = (r, qs') ∧ ipc_inv qs' ∧
    ((r = AEGIS_ENOMEM ∧ abs qs' = abs qs) ∨ (0 ≤ r ∧ abs qs' = <[c := []]> (abs qs))).
Proof.
  intros Hinv Hc. destruct (create_refines c qs Hinv Hc) as (qs' & Hrun & Hinv' & Habs).
  cbn in Hrun. destruct (ipc_create_queue c qs) as [r qs1]. injection Hrun as Hr <-.
  exists r, qs1. split; [done|]. split; [done|]. cbn in Habs, Hr.
  destruct (_ <=? _)%nat; cbn in Hr, Habs; injection Hr as Hr;
    destruct (Z.ltb_spec r 0); try (unfold AEGIS_ENOMEM in *; lia); auto.
Qed.

(** Identifiers and queues after a failed open: the next identifier may have
    been used up, the registry and the queues are as before. *)
Lemma chan_inv_burn s s' :
  chan_inv s → next_channel_id s ≤ next_channel_id s' ≤ MAX_CHANNELS →
  named_channels s' = named_channels s → ipc_inv (queues s') → abs (queues s') = abs (queues s) →
  length (channel_table s') = length (channel_table s) → chan_inv s'.
Proof.
  intros [Ht Hn Hnm Hid Hus _ Hf Hr] Hnext Hnc Hq Habs Hlen.
  split; rewrite ?Hlen, ?Hnc, ?Habs; try done; [lia| | |].
  - eapply Forall_impl; [exact Hus|]. cbn. lia.
  - intros c l H. specialize (Hf c l H). lia.
  - intros n c H. apply (Hr n c). unfold registry in *. by rewrite <-Hnc.
Qed.

(** Registering a fresh identifier under a new name. *)
Lemma chan_inv_register s s' i x name :
  let id := next_channel_id s in
  chan_inv s → named_channels s !! i = Some x → nc_used x = false → registry s !! name = None →
  named_channels s' = alter (λ _, mk_named true id name) i (named_channels s) →
  next_channel_id s' = id + 1 → id < MAX_CHANNELS →
  ipc_inv (queues s') → abs (queues s') = <[id := []]> (abs (queues s)) →
  length (channel_table s') = length (channel_table s) →
  chan_inv s' ∧ registry s' = <[name := id]> (registry s).
Proof.
  intros id [Ht Hn Hnm Hid Hus _ Hf Hr] Hi Hx Hnew Hnc Hnext Hlt Hq Habs Hlen.
  pose proof (registry_fresh_slot _ _ _ (mk_named true id name) Hi Hx eq_refl) as HP.
  rewrite <-Hnc in HP. cbn in HP.
  pose proof (fmap_Permutation fst _ _ HP) as HP1. pose proof (fmap_Permutation snd _ _ HP) as HP2. cbn in HP1, HP2.
  assert (NoDup (registry_list (named_channels s')).*1) as Hnd.
  { rewrite HP1. constructor; [|done]. by apply not_elem_of_list_to_map. }
  assert (registry s' = <[name := id]> (registry s)) as Hreg.
  { unfold registry at 1. by rewrite (list_to_map_proper _ _ Hnd HP). }
  split; [|done]. split; try done.
  - by rewrite Hlen.
  - lia.
  - rewrite HP2. constructor; [|done]. intros ([n c] & Hc & Hin)%list_elem_of_fmap. rewrite Forall_forall in Hus.
    specialize (Hus _ Hin). cbn in *. lia.
  - rewrite HP. constructor; [cbn; lia|]. eapply Forall_impl; [exact Hus|]. cbn. lia.
  - intros c l. rewrite Habs. intros [[-> _]|[_ H]]%lookup_insert_Some; [lia|]. specialize (Hf c l H). lia.
  - intros n c. rewrite Hreg, Habs. intros [[-> ->]|[_ H]]%lookup_insert_Some.
    + rewrite lookup_insert_eq. eauto.
    + destruct (decide (id = c)) as [->|]; [rewrite lookup_insert_eq; eauto|]. rewrite lookup_insert_ne by done. eauto.
Qed.

Lemma channel_close_frame id s :
  named_channels (channel_close id s) = named_channels s ∧ queues (channel_close id s) = queues s ∧
  next_channel_id (channel_close id s) = next_channel_id s ∧
  length (channel_table (channel_close id s)) = length (channel_table s).
Proof. unfold channel_close. destruct (_ <? _); cbn; rewrite ?length_alter; done. Qed.

(** * Theorems *)

(** [channel_open_named] is get-or-create on the registry of names (for
    names that fit the stored 31 characters).  An existing name returns its
    identifier and changes nothing; a new name gets an identifier no other
    channel has, an open channel owned by the caller and an empty queue; when
    the name table, the channel table or the queue table is full the result is
    [AEGIS_ENOMEM] and neither the registry nor any queue changes. *)
Theorem channel_open_named_get_or_create name owner s :
  chan_inv s → name ≠ EmptyString → (String.length name < AEGIS_NAMED_CHANNEL_NAME_MAX)%nat →
  ∃ r s', channel_open_named (Some name) owner s = (r, s') ∧ chan_inv s' ∧
   ((registry s !! name = Some r ∧ s' = s) ∨
    (registry s !! name = None ∧ r = AEGIS_ENOMEM ∧ registry s' = registry s ∧ abs (queues s') = abs (queues s)) ∨
    (registry s !! name = None ∧ 0 < r ∧ registry s' = <[name := r]> (registry s) ∧
     (∀ n, registry s !! n ≠ Some r) ∧ abs (queues s) !! r = None ∧
     abs (queues s') = <[r := []]> (abs (queues s)) ∧
     channel_get r s' = Some (mk_channel r owner true))).
Proof.
  intros Hinv Hne Hlen. unfold channel_open_named. destruct name as [|ch rest] eqn:Ename; [done|].
  rewrite <-Ename in *. clear Ename Hne.
  pose proof (registry_find name s (ci_names _ Hinv)) as Hfind.
  destruct (find_slot _ (named_channels s)) as [i|] eqn:Ei.
  { apply find_slot_Some in Ei as (n & Hi & _). rewrite Hi in *. eauto 10. }
  destruct (find_slot (λ n, negb (nc_used n)) _) as [fi|] eqn:Ef; [|eauto 10].
  apply find_slot_Some in Ef as (x & Hx & Hxu%negb_true_iff & _).
  destruct (decide (MAX_CHANNELS ≤ next_channel_id s)).
  { unfold channel_create. rewrite (proj2 (Z.leb_le _ _)) by done. eauto 10. }
  destruct (channel_create_spec owner s Hinv) as (s1 & -> & Hid & Hget & Hnc & Hq & Hnx & Htl); [lia|].
  pose proof (ci_next _ Hinv) as Hr1. rewrite Hid.
  set (id := next_channel_id s) in *. rewrite (proj2 (Z.eqb_neq id 0)) by lia. cbn [orb].
  assert (abs (queues s) !! id = None) as Hfresh.
  { destruct (abs (queues s) !! id) eqn:E; [|done]. apply (ci_fresh _ Hinv) in E. lia. }
  rewrite Hq. destruct (create_fresh_queue id (queues s) (ci_queues _ Hinv) Hfresh) as (r & qs' & -> & Hqs' & Hcase).
  destruct Hcase as [[-> Habs]|[Hr Habs]].
  - change (AEGIS_ENOMEM <? 0) with true. cbv iota.
    destruct (channel_close_frame id (s1 <| queues := qs' |>)) as (F1 & F2 & F3 & F4).
    eexists _, _. split; [done|]. split.
    + apply (chan_inv_burn s); rewrite ?F1, ?F2, ?F3, ?F4; cbn; rewrite ?Hnx; try done; lia.
    + right; left. unfold registry. rewrite F1, F2. cbn. rewrite Hnc. done.
  - rewrite (proj2 (Z.ltb_ge r 0)) by lia. eexists _, _. split; [done|].
    unfold name_copy. rewrite str_take_id by lia.
    destruct (chan_inv_register s (s1 <| queues := qs' |> <| named_channels ::= alter (λ _, mk_named true id name) fi |>) fi x name)
      as [Hinv' Hreg]; try done; [by cbn; rewrite Hnc|lia|].
    split; [done|]. right; right. split_and!; try done; [lia|].
    intros nm Hn. unfold registry in Hn. apply elem_of_list_to_map_2 in Hn.
    pose proof (ci_used _ Hinv) as Hu. rewrite Forall_forall in Hu. specialize (Hu _ Hn). cbn in Hu. lia.
Qed.

(** The state after boot: [channel_init] and [ipc_init]. *)
Definition example_ipc : ipc_state :=
  channel_init (mk_ipc (replicate 1024 (mk_channel 0 0 false))
    (replicate 32 (mk_named false 0 EmptyString)) 0 (ipc_init blank_table)).

Lemma example_ipc_inv : chan_inv example_ipc.
Proof.
  assert (registry_list (named_channels example_ipc) = []) as HR by (vm_compute; reflexivity).
  destruct (ipc_init_inv _ blank_table_shape) as [Hi Habs].
  split; try (rewrite HR; constructor); try done.
Qed.

Lemma channel_open_named_get_or_create_witness :
  ∃ s', channel_open_named (Some "routerd"%string) 3 example_ipc = (1, s') ∧ chan_inv s' ∧
    registry s' !! "routerd"%string = Some 1 ∧ fst (channel_open_named (Some "routerd"%string) 3 s') = 1.
Proof.
  destruct (channel_open_named_get_or_create "routerd" 3 example_ipc example_ipc_inv)
    as (r & s' & Hrun & Hinv & _); [discriminate|cbn; unfold AEGIS_NAMED_CHANNEL_NAME_MAX; lia|].
  assert (Hs : s' = snd (channel_open_named (Some "routerd"%string) 3 example_ipc)) by (by rewrite Hrun).
  assert (Hr : r = 1) by (change r with (fst (r, s')); rewrite <-Hrun; vm_compute; reflexivity).
  exists s'. rewrite Hr in Hrun. split; [exact Hrun|]. split; [exact Hinv|].
  rewrite Hs. split; vm_compute; reflexivity.
Defined.

(** Names of 32 characters or more are stored truncated but compared in full:
    opening such a name twice yields two channels. *)
Lemma channel_open_named_long_name :
  let name := Some "an-overlong-service-channel-name-"%string in
  let '(r1, s1) := channel_open_named name 3 example_ipc in
  let '(r2, s2) := channel_open_named name 3 s1 in r1 = 1 ∧ r2 = 2.
Proof. vm_compute. done. Qed.
