(* ===== verification/Capability.v ===== *)
(** Capability tokens: kernel/ipc/capability.c.

    A table of 4096 entries filled in order; a token is the index of its entry.
    The theorems are about authority: delegation only attenuates, revocation is
    permanent, and no sequence of delegations and revocations gives an owner a
    right that was not among the rights of one of the owner's tokens. *)

From S2P Require Import Prelude.

Definition MAX_CAPS : Z := 4096.
Definition NULL_CAP : Z := 0.

Record capability := mk_cap {
  cap_tok : Z;
  cap_owner : Z;
  cap_target : Z;
  cap_rts : Z;
  cap_valid : bool;
}.
#[export] Instance capability_eta : Eta capability := λ c,
  mk_cap (cap_tok c) (cap_owner c) (cap_target c) (cap_rts c) (cap_valid c).

Record cap_state := mk_caps { cap_table : list capability; next_cap_idx : Z }.
#[export] Instance cap_state_eta : Eta cap_state := λ s, mk_caps (cap_table s) (next_cap_idx s).

Definition cap_create (owner_tid target_tid rights : Z) (s : cap_state) : Z * cap_state :=
  if MAX_CAPS <=? next_cap_idx s then (NULL_CAP, s)
  else
    (next_cap_idx s,
     s <| cap_table ::= <[Z.to_nat (next_cap_idx s) := mk_cap (next_cap_idx s) owner_tid target_tid rights true]> |>
       <| next_cap_idx := u32 (next_cap_idx s + 1) |>).

(** The entry of a token that is in range and valid. *)
Definition cap_lookup (tok : Z) (s : cap_state) : option capability :=
  if (tok =? 0) || (MAX_CAPS <=? tok) then None
  else
    match cap_table s !! Z.to_nat tok with
    | Some c => if cap_valid c then Some c else None
    | None => None
    end.

Definition cap_is_valid (tok : Z) (s : cap_state) : bool :=
  match cap_lookup tok s with Some _ => true | None => false end.
Definition cap_owner_tid (tok : Z) (s : cap_state) : Z := from_option cap_owner 0 (cap_lookup tok s).
Definition cap_rights (tok : Z) (s : cap_state) : Z := from_option cap_rts 0 (cap_lookup tok s).

Definition cap_delegate (tok target_tid rights : Z) (s : cap_state) : Z * cap_state :=
  match cap_lookup tok s with
  | None => (AEGIS_EINVAL, s)
  | Some src =>
      let delegated_rights := Z.land rights (cap_rts src) in
      let '(new_tok, s) := cap_create (cap_owner src) target_tid delegated_rights s in
      if new_tok =? NULL_CAP then (AEGIS_ENOMEM, s) else (new_tok, s)
  end.

Definition cap_revoke (tok : Z) (s : cap_state) : Z * cap_state :=
  if (tok =? 0) || (MAX_CAPS <=? tok) then (AEGIS_EINVAL, s)
  else (AEGIS_OK, s <| cap_table ::= alter (λ c, c <| cap_valid := false |>) (Z.to_nat tok) |>).

(** Entries from the next index on have never been used. *)
Record cap_inv (s : cap_state) : Prop := {
  cp_len : length (cap_table s) = Z.to_nat MAX_CAPS;
  cp_next : 1 ≤ next_cap_idx s ≤ MAX_CAPS;
  cp_unused : ∀ i c, cap_table s !! i = Some c → next_cap_idx s ≤ Z.of_nat i → cap_valid c = false;
  cp_token : ∀ i c, cap_table s !! i = Some c → cap_valid c = true → cap_tok c = Z.of_nat i;
}.

Lemma cap_lookup_Some tok s c :
  cap_lookup tok s = Some c ↔
  tok ≠ 0 ∧ tok < MAX_CAPS ∧ cap_table s !! Z.to_nat tok = Some c ∧ cap_valid c = true.
Proof.
  unfold cap_lookup. destruct (Z.eqb_spec tok 0), (Z.leb_spec MAX_CAPS tok); cbn; try (split; [done|intros (? & ? & _); lia]).
  destruct (cap_table s !! _) as [c'|] eqn:Hc; [|by split; [|intros (_ & _ & ? & _)]].
  destruct (cap_valid c') eqn:E; split; [intros [= ->]|intros (_ & _ & [= ->] & _)|intros ?|intros (_ & _ & [= ->] & ?)];
    try done; congruence.
Qed.

Lemma cap_create_spec owner target rights s :
  cap_inv s →
  (next_cap_idx s = MAX_CAPS ∧ cap_create owner target rights s = (NULL_CAP, s)) ∨
  (let new := next_cap_idx s in
   ∃ s', cap_create owner target rights s = (new, s') ∧ 0 < new < MAX_CAPS ∧ cap_inv s' ∧
     cap_lookup new s = None ∧ ∀ tok, 0 ≤ tok →
     cap_lookup tok s' = if tok =? new then Some (mk_cap new owner target rights true) else cap_lookup tok s).
Proof.
  intros [Hlen Hnx Hun Htk]. unfold cap_create. destruct (Z.leb_spec MAX_CAPS (next_cap_idx s)); [left; split; [lia|done]|].
  right. cbn zeta. set (n := next_cap_idx s) in *. unfold MAX_CAPS in *.
  eexists. split; [done|]. split; [lia|].
  assert (Hget : ∀ i, <[Z.to_nat n := mk_cap n owner target rights true]> (cap_table s) !! i =
    if decide (i = Z.to_nat n) then Some (mk_cap n owner target rights true) else cap_table s !! i).
  { intros i. case_decide; [subst; apply list_lookup_insert_eq; lia|by apply list_lookup_insert_ne]. }
  split; [split|split].
  - cbn. by rewrite length_insert.
  - cbn. rewrite u32_small; unfold MAX_CAPS; lia.
  - cbn. rewrite u32_small by lia. intros i c Hi Hle. fold n in Hi. rewrite Hget in Hi. case_decide; [lia|].
    eapply Hun; [exact Hi|lia].
  - cbn. fold n. intros i c Hi. rewrite Hget in Hi. case_decide; [injection Hi as <-; cbn; lia|by eapply Htk].
  - destruct (cap_lookup n s) as [c|] eqn:E; [|done]. apply cap_lookup_Some in E as (_ & _ & Hc & Hv).
    rewrite (Hun _ _ Hc) in Hv; [done|lia].
  - intros tok Htok. unfold cap_lookup. cbn. fold n. rewrite Hget. unfold MAX_CAPS.
    destruct (Z.eqb_spec tok n) as [->|].
    + rewrite (proj2 (Z.eqb_neq n 0)), (proj2 (Z.leb_gt 4096 n)), decide_True by (done || lia). done.
    + rewrite (decide_False (P := Z.to_nat tok = Z.to_nat n)) by lia. done.
Qed.

Lemma cap_revoke_spec tok s :
  cap_inv s → 0 ≤ tok →
  (tok = 0 ∨ MAX_CAPS ≤ tok) ∧ cap_revoke tok s = (AEGIS_EINVAL, s) ∨
  0 < tok < MAX_CAPS ∧ ∃ s', cap_revoke tok s = (AEGIS_OK, s') ∧ cap_inv s' ∧
     next_cap_idx s' = next_cap_idx s ∧
     ∀ t, 0 ≤ t → cap_lookup t s' = if t =? tok then None else cap_lookup t s.
Proof.
  intros [Hlen Hnx Hun Htk] Htok. unfold cap_revoke, MAX_CAPS.
  destruct (Z.eqb_spec tok 0), (Z.leb_spec 4096 tok); cbn; [left; split; [lia|done]..|].
  right. split; [lia|]. eexists. split; [done|]. unfold MAX_CAPS in *.
  assert (Hget : ∀ i c, alter (λ c, c <| cap_valid := false |>) (Z.to_nat tok) (cap_table s) !! i = Some c →
    cap_table s !! i = Some c ∨ (i = Z.to_nat tok ∧ cap_valid c = false)).
  { intros i c. rewrite list_lookup_alter. case_decide; [|by left]. subst.
    destruct (cap_table s !! _) eqn:E; [|done]. intros [= <-]. by right. }
  split_and!; [split; cbn|done|].
  - by rewrite length_alter.
  - done.
  - intros i c [Hi|[_ Hi]]%Hget; [by eapply Hun|done].
  - intros i c [Hi|[_ Hi]]%Hget; [by eapply Htk|congruence].
  - intros t Ht. unfold cap_lookup. cbn. rewrite list_lookup_alter. unfold MAX_CAPS.
    destruct (Z.eqb_spec t tok) as [->|].
    + rewrite decide_True by done. destruct (_ || _); [done|]. by destruct (cap_table s !! _).
    + by rewrite decide_False by lia.
Qed.

(** * Authority *)

(** The rights an owner can exercise through valid tokens, as a set of bits. *)
Definition holds (s : cap_state) (owner bit : Z) : Prop :=
  ∃ tok c, 0 ≤ tok ∧ cap_lookup tok s = Some c ∧ cap_owner c = owner ∧ Z.testbit (cap_rts c) bit = true.

(** What holders of tokens can do to the table. *)
Inductive cap_step (s : cap_state) : cap_state → Prop :=
  | step_delegate tok target rights r s' :
      0 ≤ tok → cap_delegate tok target rights s = (r, s') → cap_step s s'
  | step_revoke tok r s' : 0 ≤ tok → cap_revoke tok s = (r, s') → cap_step s s'.

Lemma delegate_spec tok target rights s :
  cap_inv s → 0 ≤ tok →
  match cap_lookup tok s with
  | None => cap_delegate tok target rights s = (AEGIS_EINVAL, s)
  | Some src =>
      (next_cap_idx s = MAX_CAPS ∧ cap_delegate tok target rights s = (AEGIS_ENOMEM, s)) ∨
      ∃ new s', cap_delegate tok target rights s = (new, s') ∧ 0 < new ∧ cap_inv s' ∧ cap_lookup new s = None ∧
        ∀ t, 0 ≤ t → cap_lookup t s' =
          if t =? new then Some (mk_cap new (cap_owner src) target (Z.land rights (cap_rts src)) true)
          else cap_lookup t s
  end.
Proof.
  intros Hinv Htok. unfold cap_delegate. destruct (cap_lookup tok s) as [src|]; [|done].
  destruct (cap_create_spec (cap_owner src) target (Z.land rights (cap_rts src)) s Hinv)
    as [[Hfull ->]|(s' & -> & Hr & Hinv' & Hnone & Hget)]; [by left|right].
  rewrite (proj2 (Z.eqb_neq _ NULL_CAP)) by (unfold NULL_CAP; lia). eexists _, _. split; [done|].
  split_and!; try done. lia.
Qed.

Lemma cap_step_holds s s' owner bit :
  cap_inv s → cap_step s s' → cap_inv s' ∧ (holds s' owner bit → holds s owner bit).
Proof.
  intros Hinv [tok target rights r s1 Htok Hrun|tok r s1 Htok Hrun].
  - pose proof (delegate_spec tok target rights s Hinv Htok) as H.
    destruct (cap_lookup tok s) as [src|] eqn:Esrc; [|by rewrite H in Hrun; injection Hrun as _ <-].
    destruct H as [[_ H]|(new & s2 & H & _ & Hinv' & _ & Hget)]; rewrite H in Hrun; injection Hrun as _ <-; [done|].
    split; [done|]. intros (t & c & Ht & Hc & Ho & Hb). rewrite Hget in Hc by done.
    destruct (t =? new); [|by exists t, c]. injection Hc as <-. cbn in Ho, Hb.
    rewrite Z.land_spec in Hb. apply andb_true_iff in Hb as [_ Hb]. by exists tok, src.
  - destruct (cap_revoke_spec tok s Hinv Htok) as [[_ H]|(_ & s2 & H & Hinv' & _ & Hget)];
      rewrite H in Hrun; injection Hrun as _ <-; [done|].
    split; [done|]. intros (t & c & Ht & Hc & Ho & Hb). rewrite Hget in Hc by done.
    destruct (t =? tok); [done|]. by exists t, c.
Qed.

(** A dead token below the next index stays dead. *)
Lemma cap_step_dead tok s s' :
  cap_inv s → 0 < tok → cap_step s s' → cap_lookup tok s = None → tok < next_cap_idx s →
  cap_inv s' ∧ cap_lookup tok s' = None ∧ tok < next_cap_idx s'.
Proof.
  intros Hinv Hpos Hstep Hdead Hlt. destruct (cap_step_holds s s' 0 0 Hinv Hstep) as [Hinv' _].
  split; [done|]. destruct Hstep as [t target rights r s1 Ht Hrun|t r s1 Ht Hrun].
  - unfold cap_delegate in Hrun. destruct (cap_lookup t s) as [src|]; [|by injection Hrun as _ <-].
    destruct (cap_create_spec (cap_owner src) target (Z.land rights (cap_rts src)) s Hinv)
      as [[_ H]|(s2 & H & Hr & _ & _ & Hget)]; rewrite H in Hrun.
    + by injection Hrun as _ <-.
    + assert (s2 = s1) as -> by (by destruct (_ =? NULL_CAP); injection Hrun).
      split; [rewrite Hget by lia; by rewrite (proj2 (Z.eqb_neq _ _)) by lia|].
      unfold cap_create in H. unfold MAX_CAPS in *. rewrite (proj2 (Z.leb_gt _ _)) in H by lia.
      injection H as <-. cbn. rewrite u32_small; lia.
  - destruct (cap_revoke_spec t s Hinv Ht) as [[_ H]|(_ & s2 & H & _ & Hnx & Hget)];
      rewrite H in Hrun; injection Hrun as _ <-; [done|].
    rewrite Hget by lia. split; [by destruct (_ =? _)|lia].
Qed.

(** * Theorems *)

Definition example_caps : cap_state :=
  snd (cap_create 1 2 0xF0 (mk_caps (replicate 4096 (mk_cap 0 0 0 0 false)) 1)).

Lemma empty_caps_inv : cap_inv (mk_caps (replicate 4096 (mk_cap 0 0 0 0 false)) 1).
Proof.
  split; cbn [cap_table next_cap_idx]; [apply length_replicate|unfold MAX_CAPS; lia|..].
  - by intros i c [-> _]%lookup_replicate.
  - by intros i c [-> _]%lookup_replicate.
Qed.

Lemma example_caps_inv : cap_inv example_caps.
Proof.
  unfold example_caps. destruct (cap_create_spec 1 2 0xF0 _ empty_caps_inv) as [[H _]|(s' & -> & _ & H & _)]; [done|exact H].
Qed.

(** Delegation attenuates.  [cap_delegate] fails without effect when the
    token is null, out of range or revoked ([AEGIS_EINVAL]) or the table is full
    ([AEGIS_ENOMEM]); otherwise it returns a token that was not valid before,
    owned by the owner of the source, whose rights are exactly the requested
    rights restricted to those of the source, and every other token keeps its
    owner, target, rights and validity. *)
Theorem cap_delegate_attenuates tok target rights s :
  cap_inv s → 0 ≤ tok →
  match cap_lookup tok s with
  | None => cap_delegate tok target rights s = (AEGIS_EINVAL, s)
  | Some src =>
      (next_cap_idx s = MAX_CAPS ∧ cap_delegate tok target rights s = (AEGIS_ENOMEM, s)) ∨
      ∃ new s', cap_delegate tok target rights s = (new, s') ∧ cap_inv s' ∧
        cap_is_valid new s = false ∧ cap_is_valid new s' = true ∧
        cap_owner_tid new s' = cap_owner_tid tok s ∧
        (∀ b, Z.testbit (cap_rights new s') b = Z.testbit rights b && Z.testbit (cap_rights tok s) b) ∧
        ∀ t, 0 ≤ t → t ≠ new → cap_lookup t s' = cap_lookup t s
  end.
Proof.
  intros Hinv Htok. pose proof (delegate_spec tok target rights s Hinv Htok) as H.
  destruct (cap_lookup tok s) as [src|] eqn:E; [|done].
  destruct H as [H|(new & s' & Hrun & Hpos & Hinv' & Hnone & Hget)]; [by left|right].
  exists new, s'. unfold cap_is_valid, cap_owner_tid, cap_rights. rewrite Hnone, E.
  rewrite (Hget new), Z.eqb_refl by lia. split_and!; try done.
  - intros b. cbn. apply Z.land_spec.
  - intros t Ht Hne. rewrite Hget by done. by rewrite (proj2 (Z.eqb_neq t new)).
Qed.

Lemma cap_delegate_attenuates_witness :
  ∃ new s', cap_delegate 1 9 0x3C example_caps = (new, s') ∧ cap_inv s' ∧ cap_is_valid new s' = true.
Proof.
  pose proof (cap_delegate_attenuates 1 9 0x3C example_caps example_caps_inv ltac:(lia)) as H.
  assert (cap_lookup 1 example_caps = Some (mk_cap 1 1 2 0xF0 true)) as E by (vm_compute; reflexivity).
  rewrite E in H. destruct H as [[H _]|(new & s' & Hrun & Hinv & _ & Hv & _)].
  - vm_compute in H. discriminate H.
  - exists new, s'. split; [exact Hrun|]. split; [exact Hinv|exact Hv].
Defined.

(** C12: no amplification of authority.  Whatever sequence of delegations and
    revocations is executed, an owner never holds a right (a bit of the rights
    word of one of the owner's valid tokens) that the owner did not hold at the
    start. *)
Theorem cap_no_amplification s s' owner bit :
  cap_inv s → rtc cap_step s s' → holds s' owner bit → holds s owner bit.
Proof.
  intros Hinv Hsteps. induction Hsteps as [s|s s1 s' Hstep _ IH]; [done|].
  destruct (cap_step_holds s s1 owner bit Hinv Hstep) as [Hinv1 Himp]. auto.
Qed.

Lemma cap_no_amplification_witness :
  ∃ s', cap_step example_caps s' ∧ holds s' 1 5 ∧ holds example_caps 1 5.
Proof.
  set (s' := snd (cap_delegate 1 9 0x3C example_caps)).
  assert (cap_step example_caps s') as Hstep.
  { apply (step_delegate _ 1 9 0x3C (fst (cap_delegate 1 9 0x3C example_caps))); [lia|]. apply surjective_pairing. }
  assert (holds s' 1 5) as Hh.
  { exists 2, (mk_cap 2 1 9 0x30 true). split; [lia|]. split; [vm_compute; reflexivity|]. split; reflexivity. }
  exists s'. split; [exact Hstep|]. split; [exact Hh|].
  apply (cap_no_amplification example_caps s' 1 5 example_caps_inv); [|exact Hh].
  apply rtc_once. exact Hstep.
Defined.

(** Revocation is effective and permanent: after a successful [cap_revoke]
    the token is invalid, grants no rights, and stays so through every further
    sequence of delegations and revocations; no other token is affected by the
    revocation itself. *)
Theorem cap_revoke_permanent tok s :
  cap_inv s → 0 < tok < next_cap_idx s →
  ∃ s', cap_revoke tok s = (AEGIS_OK, s') ∧
    (∀ t, 0 ≤ t → t ≠ tok → cap_lookup t s' = cap_lookup t s) ∧
    ∀ s'', rtc cap_step s' s'' → cap_is_valid tok s'' = false ∧ cap_rights tok s'' = 0.
Proof.
  intros Hinv Htok. destruct (cap_revoke_spec tok s Hinv) as [[Hbad _]|(_ & s' & Hrun & Hinv' & Hnx & Hget)]; [lia| |].
  { pose proof (cp_next _ Hinv). lia. }
  exists s'. split; [done|]. split; [intros t Ht Hne; rewrite Hget by done; by rewrite (proj2 (Z.eqb_neq t tok))|].
  assert (Hdead : cap_lookup tok s' = None) by (rewrite Hget by lia; by rewrite Z.eqb_refl).
  assert (Hlt : tok < next_cap_idx s') by lia. clear Hget Hnx Hrun Hinv.
  intros s'' Hsteps. assert (cap_lookup tok s'' = None) as Hn; [|unfold cap_is_valid, cap_rights; by rewrite Hn].
  induction Hsteps as [|x y z Hstep _ IH]; [done|].
  destruct (cap_step_dead tok x y Hinv' (proj1 Htok) Hstep Hdead Hlt) as (? & ? & ?). auto.
Qed.

Lemma cap_revoke_permanent_witness :
  ∃ s', cap_revoke 1 example_caps = (AEGIS_OK, s') ∧ cap_is_valid 1 s' = false.
Proof.
  destruct (cap_revoke_permanent 1 example_caps example_caps_inv) as (s' & Hrun & _ & H).
  - split; [lia|]. vm_compute. reflexivity.
  - exists s'. split; [exact Hrun|]. apply (H s' (rtc_refl _ _)).
Defined.
