(* ===== verification/Scheduler.v ===== *)
(** Task scheduler: kernel/core/scheduler.c.

    Task structures live in the kernel heap and are linked through their
    [next] fields; a pointer is an address, 0 is NULL.  The heap is used only
    through the interface [KernelHeap].  The store [tasks] holds the task
    structures that are allocated; a dereference of anything else, and a call of
    [PANIC], is the result [None].  [context_switch] (assembly) saves and
    restores registers; here it only marks the point where another task
    continues. *)

From S2P Require Import Prelude Heap.

Inductive task_state := TASK_READY | TASK_RUNNING | TASK_BLOCKED | TASK_DEAD.
#[export] Instance task_state_eq_dec : EqDecision task_state.
Proof. solve_decision. Defined.

Definition TASK_NAME_MAX : nat := 32.

Record task_context := mk_ctx {
  ctx_x19_x28 : list Z;
  ctx_fp : Z;
  ctx_lr : Z;
  ctx_sp : Z;
  ctx_elr_el1 : Z;
  ctx_spsr_el1 : Z;
  ctx_sp_el0 : Z;
}.
#[export] Instance task_context_eta : Eta task_context := λ c,
  mk_ctx (ctx_x19_x28 c) (ctx_fp c) (ctx_lr c) (ctx_sp c) (ctx_elr_el1 c) (ctx_spsr_el1 c) (ctx_sp_el0 c).

Record task := mk_task {
  t_tid : Z;
  t_state : task_state;
  t_ctx : task_context;
  t_stack_base : Z;
  t_stack_size : Z;
  t_priority : Z;
  t_name : string;
  t_next : Z;
}.
#[export] Instance task_eta : Eta task := λ t,
  mk_task (t_tid t) (t_state t) (t_ctx t) (t_stack_base t) (t_stack_size t) (t_priority t) (t_name t) (t_next t).

(** [sizeof(task_t)] on AArch64. *)
Definition sizeof_task : Z := 200.
(** [memset(t, 0, sizeof( *t))] *)
Definition zero_task : task :=
  mk_task 0 TASK_READY (mk_ctx (replicate 10 0) 0 0 0 0 0 0) 0 0 0 EmptyString 0.

Record sched (H : Type) := mk_sched {
  task_list_head : Z;
  current_task : Z;
  idle_task : Z;
  next_tid : Z;
  tasks : gmap Z task;
  kheap : H;
}.
Arguments mk_sched {H}. Arguments task_list_head {H}. Arguments current_task {H}.
Arguments idle_task {H}. Arguments next_tid {H}. Arguments tasks {H}. Arguments kheap {H}.
#[export] Instance sched_eta H : Eta (sched H) := λ s,
  mk_sched (task_list_head s) (current_task s) (idle_task s) (next_tid s) (tasks s) (kheap s).

(** [for (p = p0; p; p = p->next) acc = f(p, acc);] *)
Fixpoint for_tasks {A} (fuel : nat) (ts : gmap Z task) (f : Z → task → A → A) (p : Z) (acc : A) : option A :=
  if p =? 0 then Some acc
  else
    match fuel, ts !! p with
    | S fuel, Some t => for_tasks fuel ts f (t_next t) (f p t acc)
    | _, _ => None
    end.

Section operations.
Context {H : Type} `{KernelHeap H}.
Implicit Types s : sched H.

Definition task_name_copy (src : option string) : string :=
  str_take (TASK_NAME_MAX - 1) (default "task"%string src).

(** The loop [while (p->next) p = p->next;] *)
Fixpoint last_task (fuel : nat) (ts : gmap Z task) (p : Z) : option Z :=
  match fuel, ts !! p with
  | S fuel, Some t => if t_next t =? 0 then Some p else last_task fuel ts (t_next t)
  | _, _ => None
  end.

Definition task_append (t : Z) (s : sched H) : option (sched H) :=
  if task_list_head s =? 0 then Some (s <| task_list_head := t |>)
  else
    match last_task (base.size (tasks s)) (tasks s) (task_list_head s) with
    | Some p => Some (s <| tasks ::= alter (λ x, x <| t_next := t |>) p |>)
    | None => None
    end.

(** [best] is kept as a pointer with its priority. *)
Definition pick_better (p : Z) (t : task) (best : option (Z * Z)) : option (Z * Z) :=
  if negb (bool_decide (t_state t = TASK_READY)) then best
  else
    match best with
    | None => Some (p, t_priority t)
    | Some (_, prio) => if prio <? t_priority t then Some (p, t_priority t) else best
    end.

Definition scheduler_pick_first_ready (s : sched H) : option Z :=
  match for_tasks (base.size (tasks s)) (tasks s) pick_better (task_list_head s) None with
  | Some best => Some (from_option fst 0 best)
  | None => None
  end.

Definition scheduler_init (s : sched H) : sched H :=
  s <| task_list_head := 0 |> <| current_task := 0 |> <| idle_task := 0 |> <| next_tid := 1 |>.

(** Returns the task pointer, 0 on failure. *)
Definition task_create (name : option string) (entry priority : Z) (s : sched H) : option (Z * sched H) :=
  if entry =? 0 then Some (0, s)
  else
    match km_alloc sizeof_task (kheap s) with
    | None => None
    | Some (t, h) =>
        let s := s <| kheap := h |> in
        if t =? 0 then Some (0, s)
        else
          let s := s <| tasks ::= <[t := zero_task <| t_tid := next_tid s |> <| t_state := TASK_READY |>
                                         <| t_priority := priority |> <| t_stack_size := 8192 |>
                                         <| t_name := task_name_copy name |>]> |>
                     <| next_tid := u32 (next_tid s + 1) |> in
          match km_alloc 8192 (kheap s) with
          | None => None
          | Some (stack, h) =>
              let s := s <| kheap := h |> in
              if stack =? 0 then
                match km_free t (kheap s) with
                | Some h => Some (0, s <| kheap := h |> <| tasks ::= delete t |>)
                | None => None
                end
              else
                let s := s <| tasks ::= alter (λ x, x <| t_stack_base := stack |>
                            <| t_ctx ::= λ c, c <| ctx_sp := u64 (stack + 8192) |> <| ctx_lr := entry |> |>) t |> in
                match task_append t s with
                | Some s => Some (t, s)
                | None => None
                end
          end
    end.

(** The search of [task_destroy]: the predecessor (0 if none) and the task
    found (0 if none). *)
Fixpoint find_task (fuel : nat) (ts : gmap Z task) (task prev p : Z) : option (Z * Z) :=
  if (p =? 0) || (p =? task) then Some (prev, p)
  else
    match fuel, ts !! p with
    | S fuel, Some t => find_task fuel ts task p (t_next t)
    | _, _ => None
    end.

Definition task_destroy (task : Z) (s : sched H) : option (sched H) :=
  if task =? 0 then Some s
  else if current_task s =? task then
    Some (s <| tasks ::= alter (λ t, t <| t_state := TASK_DEAD |>) task |>)
  else
    match find_task (base.size (tasks s)) (tasks s) task 0 (task_list_head s) with
    | None => None
    | Some (prev, p) =>
        if p =? 0 then Some s
        else
          match tasks s !! p with
          | None => None
          | Some t =>
              let s := if prev =? 0 then s <| task_list_head := t_next t |>
                       else s <| tasks ::= alter (λ x, x <| t_next := t_next t |>) prev |> in
              let h := if t_stack_base t =? 0 then Some (kheap s) else km_free (t_stack_base t) (kheap s) in
              match h with
              | None => None
              | Some h =>
                  match km_free p h with
                  | Some h => Some (s <| kheap := h |> <| tasks ::= delete p |>)
                  | None => None
                  end
              end
          end
    end.

(** Up to the jump into the first task; [None] is the panic. *)
Definition scheduler_run (s : sched H) : option (sched H) :=
  match scheduler_pick_first_ready s with
  | None => None
  | Some first =>
      if first =? 0 then None
      else Some (s <| current_task := first |> <| tasks ::= alter (λ t, t <| t_state := TASK_RUNNING |>) first |>)
  end.

Definition scheduler_set_idle_task (task : Z) (s : sched H) : sched H := s <| idle_task := task |>.

(** The search of [scheduler_yield]: [next] (0 if none) and [idle_fallback]. *)
Fixpoint yield_loop (fuel : nat) (ts : gmap Z task) (head idle prev cursor idle_fallback : Z) : option (Z * Z) :=
  if cursor =? prev then Some (0, idle_fallback)
  else
    match fuel, ts !! cursor with
    | S fuel, Some t =>
        let following := if t_next t =? 0 then head else t_next t in
        if bool_decide (t_state t = TASK_READY) then
          if cursor =? idle then yield_loop fuel ts head idle prev following cursor
          else Some (cursor, idle_fallback)
        else yield_loop fuel ts head idle prev following idle_fallback
    | _, _ => None
    end.

Definition scheduler_yield (s : sched H) : option (sched H) :=
  if (current_task s =? 0) || (task_list_head s =? 0) then Some s
  else
    let prev := current_task s in
    match tasks s !! prev with
    | None => None
    | Some p =>
        let cursor := if t_next p =? 0 then task_list_head s else t_next p in
        match yield_loop (base.size (tasks s)) (tasks s) (task_list_head s) (idle_task s) prev cursor 0 with
        | None => None
        | Some (next, idle_fallback) =>
            let next := if next =? 0 then idle_fallback else next in
            if next =? 0 then
              if bool_decide (t_state p = TASK_DEAD) then None else Some s
            else
              Some (s <| tasks ::= alter (λ t, if bool_decide (t_state t = TASK_RUNNING)
                                               then t <| t_state := TASK_READY |> else t) prev |>
                      <| tasks ::= alter (λ t, t <| t_state := TASK_RUNNING |>) next |>
                      <| current_task := next |>)
        end
    end.

Definition scheduler_current (s : sched H) : Z := current_task s.

Definition scheduler_task_count (s : sched H) : option Z :=
  for_tasks (base.size (tasks s)) (tasks s) (λ _ _ count, u32 (count + 1)) (task_list_head s) 0.

Definition scheduler_ready_count (s : sched H) : option Z :=
  for_tasks (base.size (tasks s)) (tasks s)
    (λ _ t count, if bool_decide (t_state t = TASK_READY) then u32 (count + 1) else count) (task_list_head s) 0.
End operations.

(** * Linked lists of tasks *)

(** Following [next] from [p] visits exactly [l] and ends at [q]. *)
Fixpoint lseg (ts : gmap Z task) (p : Z) (l : list Z) (q : Z) : Prop :=
  match l with
  | [] => p = q
  | a :: l => p = a ∧ a ≠ 0 ∧ ∃ t, ts !! a = Some t ∧ lseg ts (t_next t) l q
  end.

(** Following [next], wrapping around at the end of the list. *)
Definition following (head : Z) (t : task) : Z := if t_next t =? 0 then head else t_next t.
Fixpoint cpath (ts : gmap Z task) (head p : Z) (l : list Z) (q : Z) : Prop :=
  match l with
  | [] => p = q
  | a :: l => p = a ∧ a ≠ 0 ∧ ∃ t, ts !! a = Some t ∧ cpath ts head (following head t) l q
  end.

Lemma lseg_app ts p l1 l2 q : lseg ts p (l1 ++ l2) q ↔ ∃ r, lseg ts p l1 r ∧ lseg ts r l2 q.
Proof.
  revert p. induction l1 as [|a l1 IH]; intros p; cbn.
  - split; [by eauto|]. by intros (r & -> & ?).
  - split.
    + intros (-> & ? & t & ? & (r & ? & ?)%IH). eauto 10.
    + intros (r & (-> & ? & t & ? & ?) & ?). split; [done|]. split; [done|]. exists t. split; [done|]. apply IH. eauto.
Qed.

Lemma lseg_frame ts ts' p l q :
  (∀ a, a ∈ l → t_next <$> ts' !! a = t_next <$> ts !! a) → lseg ts p l q → lseg ts' p l q.
Proof.
  revert p. induction l as [|a l IH]; intros p Hag; cbn; [done|].
  intros (-> & ? & t & Ht & Hl). split; [done|]. split; [done|].
  specialize (Hag a (list_elem_of_here _ _)) as Ha. rewrite Ht in Ha.
  destruct (ts' !! a) as [t'|]; [|done]. cbn in Ha. injection Ha as Ha.
  exists t'. split; [done|]. rewrite Ha. apply IH; [|done]. intros b Hb. apply Hag. by right.
Qed.

Lemma lseg_lookup ts p l q a : lseg ts p l q → a ∈ l → a ≠ 0 ∧ ∃ t, ts !! a = Some t.
Proof.
  revert p. induction l as [|b l IH]; intros p; cbn; [by intros _ ?%not_elem_of_nil|].
  intros (-> & ? & t & ? & ?) [->|?]%elem_of_cons; eauto.
Qed.

Lemma lseg_head_nil ts p l : lseg ts p l 0 → p = 0 ↔ l = [].
Proof. destruct l; cbn; [done|]. intros (-> & ? & _). split; [done|by intros]. Qed.

(** Membership in the store bounds the length of a list. *)
Lemma lseg_length ts p l q : NoDup l → lseg ts p l q → (length l ≤ base.size ts)%nat.
Proof.
  intros Hnd Hl. assert (list_to_set l ⊆@{gset Z} dom ts) as Hsub.
  { intros a. rewrite elem_of_list_to_set. intros Ha. apply elem_of_dom. by eapply lseg_lookup. }
  apply subseteq_size in Hsub. by rewrite size_list_to_set, size_dom in Hsub.
Qed.

Lemma for_tasks_spec {A} fuel ts (f : Z → task → A → A) p l acc :
  lseg ts p l 0 → (length l ≤ fuel)%nat →
  for_tasks fuel ts f p acc = Some (fold_left (λ acc a, from_option (λ t, f a t acc) acc (ts !! a)) l acc).
Proof.
  revert fuel p acc. induction l as [|a l IH]; intros fuel p acc; cbn.
  - intros -> _. by destruct fuel.
  - intros (-> & Ha & t & Ht & Hl) Hf. destruct fuel as [|fuel]; [lia|]. cbn.
    rewrite (proj2 (Z.eqb_neq a 0)), Ht by done. apply IH; [done|lia].
Qed.

Lemma last_task_spec fuel ts p l a :
  lseg ts p (l ++ [a]) 0 → (length l < fuel)%nat → last_task fuel ts p = Some a.
Proof.
  revert fuel p. induction l as [|b l IH]; intros fuel p Hl Hf; (destruct fuel as [|fuel]; [lia|]); cbn in *.
  - destruct Hl as (-> & _ & t & -> & ->). done.
  - destruct Hl as (-> & _ & t & -> & Hl). rewrite (proj2 (Z.eqb_neq _ 0)); [apply IH; [done|lia]|].
    intros E. apply lseg_head_nil in Hl. apply Hl in E. by destruct l.
Qed.

Lemma find_task_absent fuel ts x prev p l :
  lseg ts p l 0 → x ∉ l → x ≠ 0 → (length l ≤ fuel)%nat →
  ∃ prev', find_task fuel ts x prev p = Some (prev', 0).
Proof.
  revert fuel prev p. induction l as [|b l IH]; intros fuel prev p; cbn.
  - intros -> _ _ _. exists prev. by destruct fuel.
  - intros (-> & Hb & t & Ht & Hl) [Hne Hnin]%not_elem_of_cons Hx Hf. destruct fuel as [|fuel]; [lia|]. cbn.
    rewrite (proj2 (Z.eqb_neq b 0)), (proj2 (Z.eqb_neq b x)), Ht by done. apply IH; [done|done|done|lia].
Qed.

Lemma find_task_present fuel ts x prev p l q :
  lseg ts p l x → x ∉ l → x ≠ 0 → (length l ≤ fuel)%nat → prev = q →
  find_task fuel ts x prev p = Some (default q (last l), x).
Proof.
  intros Hl. revert fuel prev p q Hl. induction l as [|b l IH]; intros fuel prev p q; cbn.
  - intros -> _ _ _ ->. destruct fuel; cbn; by rewrite Z.eqb_refl, orb_true_r.
  - intros (-> & Hb & t & Ht & Hl) [Hne Hnin]%not_elem_of_cons Hx Hf ->. destruct fuel as [|fuel]; [lia|]. cbn.
    rewrite (proj2 (Z.eqb_neq b 0)), (proj2 (Z.eqb_neq b x)), Ht by done. cbn.
    rewrite (IH fuel b _ b) by (done || lia). rewrite last_cons. by destruct (last l).
Qed.

Lemma cpath_app ts h p l1 l2 q : cpath ts h p (l1 ++ l2) q ↔ ∃ r, cpath ts h p l1 r ∧ cpath ts h r l2 q.
Proof.
  revert p. induction l1 as [|a l1 IH]; intros p; cbn.
  - split; [by eauto|]. by intros (r & -> & ?).
  - split.
    + intros (-> & ? & t & ? & (r & ? & ?)%IH). eauto 10.
    + intros (r & (-> & ? & t & ? & ?) & ?). split; [done|]. split; [done|]. exists t. split; [done|]. apply IH. eauto.
Qed.

(** A path of [next] fields is a cyclic path; at NULL it goes on at the head. *)
Lemma lseg_cpath ts h p l q : lseg ts p l q → l ≠ [] → cpath ts h p l (if q =? 0 then h else q).
Proof.
  revert p. induction l as [|a l IH]; intros p; cbn; [done|].
  intros (-> & Ha & t & Ht & Hl) _. split; [done|]. split; [done|]. exists t. split; [done|]. unfold following.
  destruct l as [|b l].
  - cbn in *. by rewrite Hl.
  - pose proof Hl as (Hb & Hb0 & _). rewrite (proj2 (Z.eqb_neq (t_next t) 0)) by congruence. by apply IH.
Qed.

Lemma cpath_frame ts ts' h p l q :
  (∀ a, a ∈ l → t_next <$> ts' !! a = t_next <$> ts !! a) → cpath ts h p l q → cpath ts' h p l q.
Proof.
  revert p. induction l as [|a l IH]; intros p Hag; cbn; [done|].
  intros (-> & ? & t & Ht & Hl). split; [done|]. split; [done|].
  specialize (Hag a (list_elem_of_here _ _)) as Ha. rewrite Ht in Ha.
  destruct (ts' !! a) as [t'|]; [|done]. cbn in Ha. injection Ha as Ha.
  exists t'. split; [done|]. unfold following in *. rewrite Ha. apply IH; [|done]. intros b Hb. apply Hag. by right.
Qed.

(** The list seen from its element [a]: what follows, wrapping around. *)
Lemma ring_of_list ts h l1 a l2 :
  lseg ts h (l1 ++ a :: l2) 0 → cpath ts h a (a :: l2 ++ l1) a.
Proof.
  intros Hl. pose proof Hl as (r & Hl1 & Hal2)%lseg_app. assert (r = a) as -> by (by destruct Hal2).
  assert (a ≠ 0) as Ha by apply Hal2.
  change (a :: l2 ++ l1) with ((a :: l2) ++ l1). apply cpath_app. exists h. split.
  - apply (lseg_cpath ts h a (a :: l2) 0); [done|done].
  - destruct l1 as [|b l1]; [by cbn in *|]. pose proof (lseg_cpath ts h h (b :: l1) a Hl1 ltac:(done)) as Hc.
    by rewrite (proj2 (Z.eqb_neq a 0)) in Hc.
Qed.

(** * Invariant *)

Lemma app_eq_app_inv {A} (l2 l1 p1 p2 : list A) b :
  l2 ++ l1 = p1 ++ b :: p2 →
  (∃ k, p1 = l2 ++ k ∧ l1 = k ++ b :: p2) ∨ (∃ k, l2 = p1 ++ b :: k ∧ p2 = k ++ l1).
Proof.
  revert p1. induction l2 as [|x l2 IH]; intros p1; cbn; [eauto|].
  destruct p1 as [|y p1]; cbn; intros [= -> E]; [eauto|].
  destruct (IH _ E) as [(k & -> & ->)|(k & -> & ->)]; eauto.
Qed.

(** The first element that satisfies [f], no later than [a]. *)
Lemma find_first_split {A} (f : A → bool) r1 a r2 :
  f a = true →
  ∃ b p1 p2, r1 ++ a :: r2 = p1 ++ b :: p2 ∧ List.find f (r1 ++ a :: r2) = Some b ∧
    (b = a ∨ ∃ p3, r1 = p1 ++ b :: p3 ∧ p2 = p3 ++ a :: r2).
Proof.
  intros Ha. induction r1 as [|x r1 IH]; cbn.
  - rewrite Ha. exists a, [], r2. auto.
  - destruct (f x); [exists x, [], (r1 ++ a :: r2); split; [done|split; [done|right; by exists r1]]|].
    destruct IH as (b & p1 & p2 & -> & -> & Hc). exists b, (x :: p1), p2. split; [done|]. split; [done|].
    destruct Hc as [->|(p3 & -> & ->)]; eauto.
Qed.

Section invariant.
Context {H : Type} `{KernelHeap H}.
Implicit Types s : sched H.

(** A task structure and its stack are live heap blocks of sufficient size. *)
Record task_ok (m : gmap Z Z) (tid_bound : Z) (a : Z) (t : task) : Prop := {
  tk_struct : ∃ n, m !! a = Some n ∧ sizeof_task ≤ n;
  tk_stack : ∃ n, m !! t_stack_base t = Some n ∧ t_stack_size t ≤ n;
  tk_tid : 0 < t_tid t < tid_bound;
}.

Record task_apart (a : Z) (t : task) (b : Z) (u : task) : Prop := {
  ta_struct : t_stack_base t ≠ b;
  ta_stack : a ≠ b → t_stack_base t ≠ t_stack_base u;
  ta_tid : a ≠ b → t_tid t ≠ t_tid u;
}.

(** The task structures in memory, whatever the list. *)
Record store_inv (m : gmap Z Z) (s : sched H) : Prop := {
  st_heap : km_inv m (kheap s);
  st_next : 1 ≤ next_tid s < 2 ^ 32;
  st_task : ∀ a t, tasks s !! a = Some t → task_ok m (next_tid s) a t;
  st_apart : ∀ a t b u, tasks s !! a = Some t → tasks s !! b = Some u → task_apart a t b u;
  st_running : ∀ a t, tasks s !! a = Some t →
    (t_state t = TASK_RUNNING → a = current_task s) ∧
    (a = current_task s → t_state t = TASK_RUNNING ∨ t_state t = TASK_DEAD);
}.

Record sched_inv (m : gmap Z Z) (l : list Z) (s : sched H) : Prop := {
  si_list : lseg (tasks s) (task_list_head s) l 0;
  si_nodup : NoDup l;
  si_dom : ∀ a t, tasks s !! a = Some t → a ∈ l;
  si_current : current_task s ≠ 0 → current_task s ∈ l;
  si_store : store_inv m s;
}.

(** Everything of a task but its link. *)
Definition core (t : task) : task := t <| t_next := 0 |>.
Definition same_but_next (ts ts' : gmap Z task) : Prop := ∀ b, core <$> ts' !! b = core <$> ts !! b.

Lemma core_eq t t' : core t = core t' →
  t_tid t = t_tid t' ∧ t_state t = t_state t' ∧ t_ctx t = t_ctx t' ∧ t_stack_base t = t_stack_base t' ∧
  t_stack_size t = t_stack_size t' ∧ t_priority t = t_priority t' ∧ t_name t = t_name t'.
Proof. destruct t, t'. unfold core. cbn. intros [= -> -> -> -> -> -> ->]. done. Qed.

Lemma same_but_next_lookup ts ts' b t' :
  same_but_next ts ts' → ts' !! b = Some t' → ∃ t, ts !! b = Some t ∧ core t' = core t.
Proof.
  intros Hs Hb. specialize (Hs b). rewrite Hb in Hs. destruct (ts !! b) as [t|]; [|done].
  exists t. split; [done|]. by apply (inj Some) in Hs.
Qed.

(** Memory does not care about links. *)
Lemma store_inv_links m s s' :
  store_inv m s → same_but_next (tasks s) (tasks s') →
  kheap s' = kheap s → next_tid s' = next_tid s → current_task s' = current_task s → store_inv m s'.
Proof.
  intros Hinv Hsame Hh Hn Hc. split; rewrite ?Hh, ?Hn, ?Hc; try apply Hinv.
  - intros a t' (t & Ht & (E1 & _ & _ & E4 & E5 & _)%core_eq)%(same_but_next_lookup _ _ _ _ Hsame).
    destruct (st_task _ _ Hinv a t Ht). split; by rewrite ?E1, ?E4, ?E5.
  - intros a t' b u' (t & Ht & (E1 & _ & _ & E4 & _)%core_eq)%(same_but_next_lookup _ _ _ _ Hsame)
      (u & Hu & (F1 & _ & _ & F4 & _)%core_eq)%(same_but_next_lookup _ _ _ _ Hsame).
    destruct (st_apart _ _ Hinv a t b u Ht Hu). split; by rewrite ?E1, ?E4, ?F1, ?F4.
  - intros a t' (t & Ht & (_ & E2 & _)%core_eq)%(same_but_next_lookup _ _ _ _ Hsame). rewrite E2. by apply Hinv.
Qed.

(** Adding a task whose two blocks are fresh. *)
Lemma store_inv_insert m s s' a T st n1 n2 :
  store_inv m s → m !! a = None → m !! st = None → a ≠ st →
  sizeof_task ≤ n1 → t_stack_size T ≤ n2 → t_stack_base T = st →
  t_tid T = next_tid s → next_tid s' = next_tid s + 1 → next_tid s + 1 < 2 ^ 32 →
  t_state T = TASK_READY → current_task s ≠ a → current_task s' = current_task s →
  tasks s' = <[a := T]> (tasks s) →
  km_inv (<[st := n2]> (<[a := n1]> m)) (kheap s') →
  store_inv (<[st := n2]> (<[a := n1]> m)) s'.
Proof.
  intros Hinv Ha Hst Hne Hn1 Hn2 Hsb Htid Hnx Hbound Hrdy Hcur Hc Hts Hkm.
  assert (Hfresh : ∀ b u, tasks s !! b = Some u →
    b ≠ a ∧ b ≠ st ∧ t_stack_base u ≠ a ∧ t_stack_base u ≠ st ∧ t_tid u ≠ next_tid s).
  { intros b u Hu. destruct (st_task _ _ Hinv b u Hu) as [(k1 & ? & _) (k2 & ? & _) Ht].
    split_and!; try congruence. lia. }
  pose proof (st_next _ _ Hinv) as Hnb. split; rewrite ?Hnx, ?Hc; [done|lia| | |].
  - intros b u. rewrite Hts. intros [[<- <-]|[Hb Hu]]%lookup_insert_Some.
    + split; [|exists n2; rewrite Hsb, lookup_insert_eq; done|lia].
      exists n1. by rewrite lookup_insert_ne, lookup_insert_eq.
    + destruct (Hfresh b u Hu) as (? & ? & ? & ? & _). destruct (st_task _ _ Hinv b u Hu) as [(k1 & ? & ?) (k2 & ? & ?) ?].
      split; [exists k1|exists k2|lia]; by rewrite !lookup_insert_ne.
  - intros b u c v. rewrite Hts. intros [[<- <-]|[Hb Hu]]%lookup_insert_Some [[<- <-]|[Hc' Hv]]%lookup_insert_Some.
    + by split; [congruence| |].
    + destruct (Hfresh c v Hv) as (? & ? & ? & ? & ?). split; intros; congruence.
    + destruct (Hfresh b u Hu) as (? & ? & ? & ? & ?). split; intros; congruence.
    + by apply Hinv.
  - intros b u. rewrite Hts. intros [[<- <-]|[Hb Hu]]%lookup_insert_Some; [|by apply Hinv].
    rewrite Hrdy. split; [done|]. intros E. congruence.
Qed.

Lemma same_but_next_alter ts p n : same_but_next ts (alter (λ x, x <| t_next := n |>) p ts).
Proof. intros b. rewrite lookup_alter. case_decide; [|done]. subst. by destruct (ts !! b). Qed.

Lemma task_append_spec s l a T :
  lseg (tasks s) (task_list_head s) l 0 → NoDup l → a ∉ l → a ≠ 0 → tasks s !! a = Some T → t_next T = 0 →
  ∃ s', task_append a s = Some s' ∧ lseg (tasks s') (task_list_head s') (l ++ [a]) 0 ∧
    same_but_next (tasks s) (tasks s') ∧ kheap s' = kheap s ∧ next_tid s' = next_tid s ∧
    current_task s' = current_task s ∧ idle_task s' = idle_task s.
Proof.
  intros Hl Hnd Ha Ha0 HT Hn. unfold task_append. destruct (Z.eqb_spec (task_list_head s) 0) as [E|E].
  - apply lseg_head_nil in Hl. apply Hl in E as ->. eexists. split; [done|]. cbn. split_and!; try done. eauto.
  - destruct (decide (l = [])) as [->|Hne]; [by cbn in Hl|].
    destruct (exists_last Hne) as (l0 & p & ->).
    assert (length (l0 ++ [p]) ≤ base.size (tasks s))%nat as Hsz by (by eapply lseg_length).
    rewrite length_app in Hsz. cbn in Hsz. rewrite (last_task_spec _ _ _ l0 p) by (done || lia).
    eexists. split; [done|]. cbn. split_and!; try done; [|apply same_but_next_alter].
    apply NoDup_app in Hnd as (_ & Hdisj & _). rewrite elem_of_app, list_elem_of_singleton in Ha.
    apply lseg_app in Hl as (r & Hl0 & (-> & Hp & t & Ht & _)).
    apply lseg_app. exists a. split.
    + apply lseg_app. exists p. split.
      * eapply lseg_frame; [|exact Hl0]. intros b Hb. rewrite lookup_alter_ne; [done|]. intros <-.
        apply (Hdisj p Hb). by left.
      * cbn. split; [done|]. split; [done|]. rewrite lookup_alter_eq, Ht. by eexists.
    + cbn. split; [done|]. split; [done|]. rewrite lookup_alter_ne by naive_solver. eauto.
Qed.

(** A new task is appended, or nothing but the identifier counter changes. *)
Lemma task_create_cases m l s name entry prio :
  sched_inv m l s → entry ≠ 0 → next_tid s + 1 < 2 ^ 32 →
  (∃ s', task_create name entry prio s = Some (0, s') ∧ sched_inv m l s' ∧ tasks s' = tasks s ∧
     task_list_head s' = task_list_head s ∧ current_task s' = current_task s ∧ idle_task s' = idle_task s) ∨
  (∃ a s' T n1 n2, task_create name entry prio s = Some (a, s') ∧ ¬ (a ∈ l) ∧ a ≠ 0 ∧
     m !! a = None ∧ m !! t_stack_base T = None ∧ a ≠ t_stack_base T ∧
     sched_inv (<[t_stack_base T := n2]> (<[a := n1]> m)) (l ++ [a]) s' ∧
     same_but_next (<[a := T]> (tasks s)) (tasks s') ∧
     T = mk_task (next_tid s) TASK_READY (mk_ctx (replicate 10 0) 0 entry (t_stack_base T + 8192) 0 0 0)
           (t_stack_base T) 8192 prio (task_name_copy name) 0 ∧
     current_task s' = current_task s ∧ idle_task s' = idle_task s).
Proof.
  intros [Hl Hnd Hdom Hcur Hst] Hentry Hbound. unfold task_create. rewrite (proj2 (Z.eqb_neq entry 0)) by done.
  pose proof (st_next _ _ Hst) as Hnb.
  destruct (km_alloc_spec m (kheap s) sizeof_task (st_heap _ _ Hst)) as [->|(a & n1 & h1 & -> & Ha & Hn1 & Hk1)];
    [done|done|left; cbn; eexists; split; [done|]; by destruct s|].
  assert (a ≠ 0) as Ha0. { apply km_live with (p := a) (n := n1) in Hk1; [lia|]. by rewrite lookup_insert_eq. }
  assert (a ∉ l) as Hal.
  { intros Hin. destruct (lseg_lookup _ _ _ _ _ Hl Hin) as [_ [t Ht]].
    destruct (st_task _ _ Hst a t Ht) as [(k & ? & _) _ _]. congruence. }
  rewrite (proj2 (Z.eqb_neq a 0)) by done. cbn -[km_alloc km_free].
  destruct (km_alloc_spec _ h1 8192 Hk1) as [->|(st & n2 & h2 & -> & Hst0 & Hn2 & Hk2)]; [done|done| |].
  - left. rewrite Z.eqb_refl. destruct (km_free_spec _ h1 a n1 Hk1) as (h' & -> & Hk'); [by rewrite lookup_insert_eq|].
    rewrite delete_insert_id in Hk' by done.
    assert (tasks s !! a = None) as Hna by (destruct (tasks s !! a) eqn:E; [by apply Hdom in E|done]).
    eexists. split; [done|]. cbn. rewrite delete_insert_id by done. rewrite u32_small by lia. split_and!; try done.
    split; cbn; try done. destruct Hst as [Hs1 Hs2 Hs3 Hs4 Hs5]. split; cbn; try done; [lia|].
    intros b t Ht. destruct (Hs3 b t Ht). split; [done|done|lia].
  - right. apply lookup_insert_None in Hst0 as [Hst0 Hast].
    assert (st ≠ 0) as Hst1. { apply km_live with (p := st) (n := n2) in Hk2; [lia|]. by rewrite lookup_insert_eq. }
    assert (0 ≤ st ∧ st + 8192 < 2 ^ 64) as [Hs0 Hs64].
    { apply km_live with (p := st) (n := n2) in Hk2; [lia|]. by rewrite lookup_insert_eq. }
    rewrite (proj2 (Z.eqb_neq st 0)) by done. rewrite u32_small, (u64_small (st + 8192)) by lia.
    set (T := mk_task (next_tid s) TASK_READY (mk_ctx (replicate 10 0) 0 entry (st + 8192) 0 0 0)
           st 8192 prio (task_name_copy name) 0).
    rewrite alter_insert_eq. fold T.
    match goal with |- context [task_append a ?x] => set (s1 := x) end.
    assert (store_inv (<[st := n2]> (<[a := n1]> m)) s1) as Hs1.
    { apply (store_inv_insert m s s1 a T st n1 n2); try done. intros E. apply Hal. rewrite <-E. apply Hcur. congruence. }
    destruct (task_append_spec s1 l a T) as (s' & -> & Hl' & Hsame & E1 & E2 & E3 & E4); try done.
    { eapply lseg_frame; [|exact Hl]. intros b Hb. cbn. rewrite lookup_insert_ne; [done|]. by intros <-. }
    { cbn. by rewrite lookup_insert_eq. }
    exists a, s', T, n1, n2. split; [done|]. split_and!; try done. split; [done| | | |by eapply store_inv_links].
    + apply NoDup_app. split; [done|]. split; [|apply NoDup_singleton]. intros b Hb ->%list_elem_of_singleton. done.
    + intros b t (t0 & Ht0 & _)%(same_but_next_lookup _ _ _ _ Hsame). apply elem_of_app.
      cbn in Ht0. apply lookup_insert_Some in Ht0 as [[<- _]|[_ Ht0]]; [right; by left|left; by eapply Hdom].
    + rewrite E3. intros Hc. apply elem_of_app. left. by apply Hcur.
Qed.

(** Removing a task and both its blocks. *)
Lemma store_inv_delete m s s' x T :
  store_inv m s → tasks s !! x = Some T → tasks s' = delete x (tasks s) →
  next_tid s' = next_tid s → current_task s' = current_task s →
  km_inv (delete x (delete (t_stack_base T) m)) (kheap s') →
  store_inv (delete x (delete (t_stack_base T) m)) s'.
Proof.
  intros Hinv Hx Hts Hn Hc Hkm. split; rewrite ?Hn, ?Hc, ?Hts; [done|apply Hinv| | |].
  - intros a t [Hne Ht]%lookup_delete_Some.
    destruct (st_apart _ _ Hinv a t x T Ht Hx) as [A1 A2 _]. destruct (st_apart _ _ Hinv x T a t Hx Ht) as [B1 B2 _].
    destruct (st_task _ _ Hinv a t Ht) as [(n1 & ? & ?) (n2 & ? & ?) ?].
    split; [exists n1|exists n2|done]; rewrite !lookup_delete_ne; auto.
  - intros a t b u [_ Ht]%lookup_delete_Some [_ Hu]%lookup_delete_Some. by apply Hinv.
  - intros a t [_ Ht]%lookup_delete_Some. by apply Hinv.
Qed.

(** Unlinking [x]: the predecessor, or the head, takes over its link. *)
Lemma unlink_spec s l1 x l2 T :
  lseg (tasks s) (task_list_head s) (l1 ++ x :: l2) 0 → NoDup (l1 ++ x :: l2) → tasks s !! x = Some T →
  let s' := if default 0 (last l1) =? 0 then s <| task_list_head := t_next T |>
            else s <| tasks ::= alter (λ y, y <| t_next := t_next T |>) (default 0 (last l1)) |> in
  lseg (tasks s') (task_list_head s') (l1 ++ l2) 0 ∧ same_but_next (tasks s) (tasks s') ∧
  kheap s' = kheap s ∧ next_tid s' = next_tid s ∧ current_task s' = current_task s ∧ idle_task s' = idle_task s.
Proof.
  intros Hl Hnd HT. apply lseg_app in Hl as (r & Hl1 & (-> & Hx & T' & HT' & Hl2)).
  assert (T' = T) as -> by congruence.
  destruct (decide (l1 = [])) as [->|Hne]; [by cbn in *; subst|].
  destruct (exists_last Hne) as (l0 & p & ->). rewrite last_snoc. change (default 0 (Some p)) with p.
  apply lseg_app in Hl1 as (r & Hl0 & (-> & Hp & t & Ht & _)). rewrite (proj2 (Z.eqb_neq p 0)) by done.
  cbn. split_and!; try done; [|apply same_but_next_alter].
  rewrite <-app_assoc in Hnd. apply NoDup_app in Hnd as (_ & Hd0 & [Hp2 _]%NoDup_cons).
  rewrite <-app_assoc. apply lseg_app. exists p. split.
  - eapply lseg_frame; [|exact Hl0]. intros b Hb. rewrite lookup_alter_ne; [done|]. intros <-. apply (Hd0 p Hb). left.
  - cbn. split; [done|]. split; [done|]. rewrite lookup_alter_eq, Ht. eexists. split; [done|]. cbn.
    eapply lseg_frame; [|exact Hl2]. intros b Hb. rewrite lookup_alter_ne; [done|]. intros <-. apply Hp2. by right.
Qed.

Lemma task_destroy_current m l s x :
  sched_inv m l s → x ≠ 0 → current_task s = x →
  ∃ s', task_destroy x s = Some s' ∧ sched_inv m l s' ∧
    s' = s <| tasks ::= alter (λ t, t <| t_state := TASK_DEAD |>) x |>.
Proof.
  intros [Hl Hnd Hdom Hcur Hst] Hx Hc. unfold task_destroy.
  rewrite (proj2 (Z.eqb_neq x 0)), (proj2 (Z.eqb_eq _ x)) by done. eexists. split; [done|]. split; [|done].
  assert (Hlk : ∀ a t', alter (λ t, t <| t_state := TASK_DEAD |>) x (tasks s) !! a = Some t' →
    ∃ t, tasks s !! a = Some t ∧ t' = (if decide (a = x) then t <| t_state := TASK_DEAD |> else t)).
  { intros a t'. rewrite lookup_alter. destruct (decide (x = a)); [subst a|].
    - intros (t & -> & ->)%fmap_Some. exists t. by rewrite decide_True by done.
    - intros ?. exists t'. by rewrite decide_False by done. }
  split; cbn; try done.
  - eapply lseg_frame; [|exact Hl]. intros a _. rewrite lookup_alter. case_decide; [|done]. subst. by destruct (tasks s !! _).
  - intros a t (t0 & Ht0 & _)%Hlk. by eapply Hdom.
  - destruct Hst as [S1 S2 S3 S4 S5]. split; cbn; try done.
    + intros a t (t0 & Ht0 & ->)%Hlk. destruct (S3 a t0 Ht0). by case_decide; split.
    + intros a t b u (t0 & Ht0 & ->)%Hlk (u0 & Hu0 & ->)%Hlk. destruct (S4 a t0 b u0 Ht0 Hu0). by repeat case_decide; split.
    + intros a t (t0 & Ht0 & ->)%Hlk. case_decide; [split; [done|by right]|by apply S5].
Qed.

Lemma task_destroy_other m l s x :
  sched_inv m l s → x ≠ 0 → current_task s ≠ x →
  (¬ (x ∈ l) ∧ task_destroy x s = Some s) ∨
  (∃ l1 l2 T s', l = l1 ++ x :: l2 ∧ tasks s !! x = Some T ∧ task_destroy x s = Some s' ∧
     sched_inv (delete x (delete (t_stack_base T) m)) (l1 ++ l2) s' ∧
     same_but_next (delete x (tasks s)) (tasks s') ∧
     current_task s' = current_task s ∧ idle_task s' = idle_task s ∧ next_tid s' = next_tid s).
Proof.
  intros [Hl Hnd Hdom Hcur Hst] Hx Hc. unfold task_destroy.
  rewrite (proj2 (Z.eqb_neq x 0)), (proj2 (Z.eqb_neq _ x)) by done.
  pose proof (lseg_length _ _ _ _ Hnd Hl) as Hlen.
  destruct (decide (x ∈ l)) as [Hin|Hnin].
  2:{ left. split; [done|]. by destruct (find_task_absent (base.size (tasks s)) _ x 0 _ _ Hl Hnin Hx Hlen) as [? ->]. }
  right. destruct (list_elem_of_split _ _ Hin) as (l1 & l2 & ->). rewrite length_app in Hlen.
  pose proof Hl as (r & Hl1 & (-> & _ & T & HT & Hl2))%lseg_app.
  assert (x ∉ l1) as Hx1. { apply NoDup_app in Hnd as (_ & Hd & _). intros Hb. apply (Hd x Hb). left. }
  rewrite (find_task_present (base.size (tasks s)) _ _ _ _ _ 0 Hl1 Hx1 Hx ltac:(lia) eq_refl).
  rewrite (proj2 (Z.eqb_neq x 0)), HT by done.
  destruct (unlink_spec s l1 x l2 T Hl Hnd HT) as (Hl' & Hsame & E1 & E2 & E3 & E4). cbn zeta in *.
  set (s1 := if _ =? 0 then _ else _) in *.
  destruct (st_task _ _ Hst x T HT) as [(n1 & Hm1 & _) (n2 & Hm2 & _) _].
  pose proof (km_live _ _ _ _ (st_heap _ _ Hst) Hm2) as Hlive. rewrite (proj2 (Z.eqb_neq (t_stack_base T) 0)) by lia.
  rewrite E1. destruct (km_free_spec _ _ _ _ (st_heap _ _ Hst) Hm2) as (h1 & -> & Hk1).
  destruct (km_free_spec _ h1 x n1 Hk1) as (h2 & -> & Hk2).
  { rewrite lookup_delete_ne; [done|]. apply (st_apart _ _ Hst x T x T HT HT). }
  exists l1, l2, T. eexists. split; [done|]. split; [done|]. split; [done|].
  assert (same_but_next (delete x (tasks s)) (delete x (tasks s1))) as Hsame'.
  { intros b. specialize (Hsame b). rewrite !lookup_delete. by case_decide. }
  split_and!; try done. split; cbn.
  - eapply lseg_frame; [|exact Hl']. intros b Hb. rewrite lookup_delete_ne; [done|]. intros <-.
    apply NoDup_app in Hnd as (_ & Hd & [Hx2 _]%NoDup_cons). by apply elem_of_app in Hb as [?|?].
  - apply NoDup_app in Hnd as (N1 & Hd & [_ N2]%NoDup_cons). apply NoDup_app. split; [done|]. split; [|done].
    intros b Hb1 Hb2. apply (Hd b Hb1). by right.
  - intros b t [Hne (t0 & Ht0 & _)%(same_but_next_lookup _ _ _ _ Hsame)]%lookup_delete_Some.
    apply Hdom in Ht0. rewrite elem_of_app, elem_of_cons in Ht0. rewrite elem_of_app. naive_solver.
  - rewrite E3. intros Hc0. specialize (Hcur Hc0). rewrite elem_of_app, elem_of_cons in Hcur. rewrite elem_of_app. naive_solver.
  - set (s2 := s1 <| kheap := h2 |> <| tasks ::= delete x |>).
    set (s0 := s <| kheap := h2 |> <| tasks ::= delete x |>).
    apply (store_inv_links _ s0); try done. by apply (store_inv_delete m s s0 x T).
Qed.

(** * Choice of the next task *)

Definition is_ready (ts : gmap Z task) (a : Z) : bool :=
  match ts !! a with Some t => bool_decide (t_state t = TASK_READY) | None => false end.

(** Round robin over [r], the tasks after the current one in cyclic order: the
    first ready task that is not the idle task, else the idle task if ready. *)
Definition first_ready (ts : gmap Z task) (idle : Z) (r : list Z) : option Z :=
  List.find (λ a, is_ready ts a && negb (a =? idle)) r.
Definition choose (ts : gmap Z task) (idle : Z) (r : list Z) : option Z :=
  match first_ready ts idle r with
  | Some a => Some a
  | None => if bool_decide (idle ∈ r) && is_ready ts idle then Some idle else None
  end.

Lemma yield_loop_spec fuel ts h idle prev p r fb :
  cpath ts h p r prev → prev ∉ r → (length r ≤ fuel)%nat →
  ∃ fb', yield_loop fuel ts h idle prev p fb = Some (default 0 (first_ready ts idle r), fb') ∧
    (first_ready ts idle r = None → fb' = if bool_decide (idle ∈ r) && is_ready ts idle then idle else fb).
Proof.
  revert fuel p fb. induction r as [|a r IH]; intros fuel p fb; cbn [cpath first_ready List.find].
  - intros -> _ _. exists fb. destruct fuel; cbn; rewrite Z.eqb_refl; auto.
  - intros (-> & Ha & t & Ht & Hr) [Hne Hnin]%not_elem_of_cons Hf. destruct fuel as [|fuel]; [cbn in Hf; lia|].
    cbn [yield_loop]. rewrite (proj2 (Z.eqb_neq a prev)), Ht by done. cbn in Hf.
    assert (is_ready ts a = bool_decide (t_state t = TASK_READY)) as Hra by (unfold is_ready; by rewrite Ht).
    rewrite Hra. fold (following h t). fold (first_ready ts idle r).
    destruct (bool_decide (t_state t = TASK_READY)) eqn:Ert; cbn [andb].
    + destruct (Z.eqb_spec a idle) as [->|Hni]; cbn [negb]; [|eexists; by split].
      destruct (IH fuel (following h t) idle Hr Hnin ltac:(lia)) as (fb' & -> & Hfb). exists fb'. split; [done|].
      intros Hn. rewrite (Hfb Hn). rewrite (bool_decide_true (idle ∈ idle :: r)) by left. rewrite Hra.
      by destruct (bool_decide (idle ∈ r)).
    + destruct (IH fuel (following h t) fb Hr Hnin ltac:(lia)) as (fb' & -> & Hfb). exists fb'. split; [done|].
      intros Hn. rewrite (Hfb Hn). destruct (decide (idle = a)) as [->|Hni]; [by rewrite Hra, !andb_false_r|].
      rewrite (bool_decide_ext (idle ∈ a :: r) (idle ∈ r)) by (rewrite elem_of_cons; naive_solver). done.
Qed.

Lemma choose_elem ts idle r a : choose ts idle r = Some a → a ∈ r ∧ is_ready ts a = true.
Proof.
  unfold choose. destruct (first_ready ts idle r) as [b|] eqn:E.
  - intros [= <-]. unfold first_ready in E. apply find_some in E as [Hin [? _]%andb_true_iff].
    split; [|done]. by apply list_elem_of_In.
  - destruct (bool_decide_reflect (idle ∈ r)); [|done]. cbn. destruct (is_ready ts idle) eqn:Ei; [|done]. by intros [= <-].
Qed.

(** The effect of handing the processor from [prev] to [next]. *)
Definition switch_to (next : Z) (s : sched H) : sched H :=
  s <| tasks ::= alter (λ t, if bool_decide (t_state t = TASK_RUNNING)
                             then t <| t_state := TASK_READY |> else t) (current_task s) |>
    <| tasks ::= alter (λ t, t <| t_state := TASK_RUNNING |>) next |>
    <| current_task := next |>.

Lemma switch_lookup s next a t' :
  next ≠ current_task s → tasks (switch_to next s) !! a = Some t' →
  ∃ t, tasks s !! a = Some t ∧ core t' = core (t <| t_state := t_state t' |>) ∧ t_next t' = t_next t ∧
    t_state t' = (if a =? next then TASK_RUNNING
                  else if (a =? current_task s) && bool_decide (t_state t = TASK_RUNNING) then TASK_READY
                  else t_state t).
Proof.
  intros Hne. cbn. rewrite !lookup_alter. destruct (Z.eqb_spec a next) as [->|Ha].
  - rewrite decide_True by done. rewrite decide_False by congruence.
    intros (t & -> & ->)%fmap_Some. exists t. by destruct t.
  - rewrite decide_False by congruence. destruct (Z.eqb_spec a (current_task s)) as [->|Hc]; cbn.
    + rewrite decide_True by done. intros (t & -> & ->)%fmap_Some. exists t. destruct t as [? st ?]; cbn.
      by destruct (bool_decide (st = _)).
    + rewrite decide_False by congruence. intros Ht. exists t'. by destruct t'.
Qed.

Lemma switch_next s next a : t_next <$> tasks (switch_to next s) !! a = t_next <$> tasks s !! a.
Proof.
  cbn. rewrite !lookup_alter. repeat case_decide; subst; try done;
    destruct (tasks s !! _) as [[? st ?]|]; try done; cbn; by destruct (bool_decide (st = _)).
Qed.

Lemma switch_inv m l s next :
  sched_inv m l s → next ≠ current_task s → next ∈ l → sched_inv m l (switch_to next s).
Proof.
  intros [Hl Hnd Hdom Hcur Hst] Hne Hin.
  split; try done.
  - eapply lseg_frame; [|exact Hl]. intros a _. apply switch_next.
  - intros a t' (t & Ht & _)%switch_lookup; [|done]. by eapply Hdom.
  - destruct Hst as [S1 S2 S3 S4 S5]. split; try done.
    + intros a t' (t & Ht & (E1 & _ & _ & E4 & E5 & _)%core_eq & _)%switch_lookup; [|done].
      destruct (S3 a t Ht). cbn in *. by split; rewrite ?E1, ?E4, ?E5.
    + intros a t' b u' (t & Ht & (E1 & _ & _ & E4 & _)%core_eq & _)%switch_lookup
        (u & Hu & (F1 & _ & _ & F4 & _)%core_eq & _)%switch_lookup; [|done|done].
      destruct (S4 a t b u Ht Hu). cbn in *. by split; rewrite ?E1, ?E4, ?F1, ?F4.
    + intros a t' (t & Ht & _ & _ & E)%switch_lookup; [|done]. rewrite E. change (current_task (switch_to next s)) with next.
      destruct (S5 a t Ht) as [R1 R2]. destruct (Z.eqb_spec a next) as [->|Ha]; [by auto|]. split; [|by intros ->].
      destruct (Z.eqb_spec a (current_task s)) as [Ec|Ec]; cbn.
      * destruct (R2 Ec) as [->| ->]; done.
      * intros Hr. by apply R1 in Hr.
Qed.

Lemma scheduler_yield_cases m s l1 l2 :
  sched_inv m (l1 ++ current_task s :: l2) s → current_task s ≠ 0 →
  match choose (tasks s) (idle_task s) (l2 ++ l1) with
  | Some next =>
      scheduler_yield s = Some (switch_to next s) ∧
      sched_inv m (l1 ++ current_task s :: l2) (switch_to next s)
  | None =>
      scheduler_yield s =
        if bool_decide (t_state <$> tasks s !! current_task s = Some TASK_DEAD) then None else Some s
  end.
Proof.
  intros Hinv Hc. pose proof Hinv as [Hl Hnd _ _ _]. unfold scheduler_yield.
  rewrite (proj2 (Z.eqb_neq (current_task s) 0)) by done.
  rewrite (proj2 (Z.eqb_neq (task_list_head s) 0)).
  2:{ intros E. apply lseg_head_nil in Hl. apply Hl in E. by destruct l1. }
  cbn [orb]. pose proof (ring_of_list _ _ _ _ _ Hl) as (_ & _ & p & Hp & Hr). rewrite Hp.
  fold (following (task_list_head s) p).
  pose proof (lseg_length _ _ _ _ Hnd Hl) as Hlen. rewrite length_app in Hlen. cbn in Hlen.
  assert (Hnin : current_task s ∉ l2 ++ l1).
  { apply NoDup_app in Hnd as (_ & Hd & [H2 _]%NoDup_cons). intros [Hb|Hb]%elem_of_app; [done|]. apply (Hd _ Hb). left. }
  destruct (yield_loop_spec (base.size (tasks s)) (tasks s) (task_list_head s) (idle_task s) (current_task s)
    _ _ 0 Hr Hnin) as (fb & -> & Hfb); [rewrite length_app; lia|].
  assert (Hsel : (if default 0 (first_ready (tasks s) (idle_task s) (l2 ++ l1)) =? 0 then fb
                  else default 0 (first_ready (tasks s) (idle_task s) (l2 ++ l1))) =
                 default 0 (choose (tasks s) (idle_task s) (l2 ++ l1))).
  { unfold choose. destruct (first_ready _ _ _) as [a|] eqn:E; cbn.
    - destruct (Z.eqb_spec a 0) as [->|]; [|done]. exfalso. apply find_some in E as [Hin _]. apply list_elem_of_In in Hin.
      destruct (lseg_lookup _ _ _ _ 0 Hl) as [? _]; [|done]. rewrite elem_of_app, elem_of_cons.
      apply elem_of_app in Hin. tauto.
    - rewrite Hfb by done. by destruct (_ && _). }
  rewrite Hsel. destruct (choose _ _ _) as [next|] eqn:Ech.
  - apply choose_elem in Ech as [Hin _]. change (default 0 (Some next)) with next.
    assert (next ∈ l1 ++ current_task s :: l2) as Hinl.
    { rewrite elem_of_app, elem_of_cons. apply elem_of_app in Hin. tauto. }
    destruct (lseg_lookup _ _ _ _ next Hl Hinl) as [Hn0 _]. rewrite (proj2 (Z.eqb_neq next 0)) by done.
    split; [done|]. apply switch_inv; [done| |done]. by intros ->.
  - cbn. destruct (t_state p); done.
Qed.

(** * Rotation *)

Lemma rotate_split (l1 : list Z) c l2 p1 b p2 :
  l2 ++ l1 = p1 ++ b :: p2 →
  ∃ k1 k2, l1 ++ c :: l2 = k1 ++ b :: k2 ∧ k2 ++ k1 = p2 ++ c :: p1.
Proof.
  intros [(k & -> & E)|(k & -> & E)]%app_eq_app_inv.
  - exists k, (p2 ++ c :: l2). by rewrite E, <-!app_assoc.
  - exists (l1 ++ c :: p1), k. by rewrite E, <-!app_assoc.
Qed.

Fixpoint yields (n : nat) (s : sched H) : option (sched H) :=
  match n with
  | O => Some s
  | S n => match scheduler_yield s with Some s => yields n s | None => None end
  end.

(** The task at position [length r1] of the rotation runs after at most
    [length r1 + 1] yields. *)
Lemma yields_reach m r1 s l1 l2 a r2 :
  sched_inv m (l1 ++ current_task s :: l2) s → current_task s ≠ 0 →
  l2 ++ l1 = r1 ++ a :: r2 → is_ready (tasks s) a = true → a ≠ idle_task s →
  ∃ n s', (n ≤ S (length r1))%nat ∧ yields n s = Some s' ∧ current_task s' = a ∧
    sched_inv m (l1 ++ current_task s :: l2) s'.
Proof.
  remember (length r1) as k eqn:Hk. revert r1 Hk s l1 l2 r2.
  induction k as [k IH] using lt_wf_ind. intros r1 Hk s l1 l2 r2 Hinv Hc Hrot Hrdy Hni.
  pose proof (scheduler_yield_cases m s l1 l2 Hinv Hc) as Hy. unfold choose in Hy.
  destruct (find_first_split (λ a, is_ready (tasks s) a && negb (a =? idle_task s)) r1 a r2) as (b & p1 & p2 & Hsplit & Hfind & Hcase).
  { cbn. rewrite Hrdy. by rewrite (proj2 (Z.eqb_neq a _)). }
  unfold first_ready in Hy. rewrite Hrot, Hfind in Hy. destruct Hy as [Hy Hinv'].
  destruct Hcase as [->|(p3 & -> & ->)].
  - exists 1%nat, (switch_to a s). cbn. rewrite Hy. split; [lia|done].
  - rewrite Hsplit in Hrot. destruct (rotate_split l1 (current_task s) l2 p1 b _ Hrot) as (k1 & k2 & El & Er).
    assert (NoDup (b :: (p3 ++ a :: r2) ++ current_task s :: p1)) as [Hb Hnd]%NoDup_cons.
    { pose proof (si_nodup _ _ _ Hinv) as Hnd. rewrite El in Hnd. rewrite <-Er.
      eapply NoDup_Permutation_proper; [|exact Hnd]. rewrite app_comm_cons. apply Permutation_app_comm. }
    assert (Hba : b ≠ a) by (intros ->; apply Hb; apply elem_of_app; left; apply elem_of_app; right; left).
    assert (Hca : a ≠ current_task s).
    { intros Ea. apply NoDup_app in Hnd as (_ & Hd & _). apply (Hd a); [apply elem_of_app; right; left|]. rewrite <-Ea. left. }
    destruct (IH (length p3)) with (r1 := p3) (s := switch_to b s) (l1 := k1) (l2 := k2) (r2 := r2 ++ current_task s :: p1)
      as (n & s' & Hn & Hrun & Hcur & Hinv2).
    + rewrite Hk, length_app. cbn. lia.
    + done.
    + change (current_task (switch_to b s)) with b. by rewrite <-El.
    + change (current_task (switch_to b s)) with b.
      destruct (lseg_lookup _ _ _ _ b (si_list _ _ _ Hinv)) as [? _]; [|done]. rewrite El. apply elem_of_app. right. left.
    + by rewrite Er, <-app_assoc.
    + unfold is_ready in *. cbn. rewrite !lookup_alter_ne by congruence. done.
    + done.
    + exists (S n), s'. split; [rewrite Hk, length_app; cbn; lia|]. cbn. rewrite Hy. split; [done|]. split; [done|].
      change (current_task (switch_to b s)) with b in Hinv2. by rewrite El.
Qed.

Lemma set_idle_inv m l s x : sched_inv m l s → sched_inv m l (scheduler_set_idle_task x s).
Proof. intros [A1 A2 A3 A4 [B1 B2 B3 B4 B5]]. by split. Qed.
End invariant.

(** * Theorems *)

(** A freshly booted scheduler on the example heap with three tasks, the last
    one the idle task, and the first one running. *)
Definition empty_sched : sched heap_state := scheduler_init (mk_sched 0 0 0 0 ∅ example_heap).
Definition with_task (name : string) (prio : Z) (s : sched heap_state) : sched heap_state :=
  from_option snd s (task_create (Some name) 0x80000 prio s).
Definition three_tasks : sched heap_state :=
  scheduler_set_idle_task 0x104208 (with_task "idle" 0 (with_task "b" 5 (with_task "a" 5 empty_sched))).
Definition example_sched : sched heap_state := default three_tasks (scheduler_run three_tasks).

Lemma empty_sched_inv : sched_inv ∅ [] empty_sched.
Proof.
  split; try done; [constructor|]. split; try done. apply example_km_inv.
Qed.

Lemma with_task_inv m l s name prio a :
  sched_inv m l s → next_tid s + 1 < 2 ^ 32 →
  fst <$> task_create (Some name) 0x80000 prio s = Some a → a ≠ 0 →
  ∃ m', sched_inv m' (l ++ [a]) (with_task name prio s).
Proof.
  intros Hinv Hn Ha Ha0. unfold with_task.
  destruct (task_create_cases m l s (Some name) 0x80000 prio Hinv) as [(s' & E & _)|(b & s' & T & n1 & n2 & E & _ & _ & _ & _ & _ & Hinv' & _)];
    [done|done| |]; rewrite E in *; cbn in *; injection Ha as <-; [done|eauto].
Qed.

Lemma three_tasks_inv : ∃ m, sched_inv m [0x100018; 0x102110; 0x104208] three_tasks.
Proof.
  destruct (with_task_inv ∅ [] empty_sched "a" 5 0x100018 empty_sched_inv) as [m1 H1]; [done|vm_compute; reflexivity|done|].
  destruct (with_task_inv m1 _ _ "b" 5 0x102110 H1) as [m2 H2]; [vm_compute; reflexivity|vm_compute; reflexivity|done|].
  destruct (with_task_inv m2 _ _ "idle" 0 0x104208 H2) as [m3 H3]; [vm_compute; reflexivity|vm_compute; reflexivity|done|].
  exists m3. apply set_idle_inv. exact H3.
Qed.

Section run.
Context {H : Type} `{KernelHeap H}.

Lemma run_inv m l s a :
  sched_inv m l s → current_task s = 0 → a ∈ l → scheduler_pick_first_ready s = Some a →
  scheduler_run s = Some (switch_to a s) ∧ sched_inv m l (switch_to a s).
Proof.
  intros Hinv Hc Ha Hp. destruct (lseg_lookup _ _ _ _ a (si_list _ _ _ Hinv) Ha) as [Ha0 _].
  split; [|apply switch_inv; [done|congruence|done]].
  unfold scheduler_run. rewrite Hp, (proj2 (Z.eqb_neq a 0)) by done. f_equal. unfold switch_to. rewrite Hc. cbn. f_equal.
  assert (tasks s !! 0 = None) as Hnull.
  { destruct (tasks s !! 0) eqn:E; [|done]. apply (si_dom _ _ _ Hinv) in E.
    by destruct (lseg_lookup _ _ _ _ 0 (si_list _ _ _ Hinv) E). }
  f_equal. apply map_eq. intros i. rewrite lookup_alter. case_decide; [|done]. subst. by rewrite Hnull.
Qed.
End run.

Lemma example_sched_inv :
  ∃ m, sched_inv m [0x100018; 0x102110; 0x104208] example_sched.
Proof.
  destruct three_tasks_inv as [m Hm]. exists m.
  destruct (run_inv m _ three_tasks 0x100018 Hm) as [E Hinv]; [done|left|vm_compute; reflexivity|].
  unfold example_sched. rewrite E. exact Hinv.
Qed.

Section claims.
Context {H : Type} `{KernelHeap H}.
Implicit Types s : sched H.

(** Creating and then destroying a task gives everything back.  If
    [task_create] returned a task [a], it was not in the list before and is
    the last task of the list afterwards, ready, with a fresh identifier, its
    stack pointer at the top of a stack of 8192 bytes of its own and its link
    register at the entry point; destroying it restores the list, leaves every
    other task as it was up to links, and the heap has exactly the live blocks
    it had before: no leak and no double free. *)
Theorem task_create_destroy_roundtrip m l s name entry prio a s1 :
  sched_inv m l s → entry ≠ 0 → next_tid s + 1 < 2 ^ 32 →
  task_create name entry prio s = Some (a, s1) → a ≠ 0 →
  ¬ (a ∈ l) ∧
  (∃ m1 T, sched_inv m1 (l ++ [a]) s1 ∧ tasks s1 !! a = Some T ∧ t_tid T = next_tid s ∧
     t_state T = TASK_READY ∧ t_priority T = prio ∧ ctx_lr (t_ctx T) = entry ∧
     ctx_sp (t_ctx T) = t_stack_base T + 8192 ∧ m !! t_stack_base T = None) ∧
  ∃ s2, task_destroy a s1 = Some s2 ∧ sched_inv m l s2 ∧ same_but_next (tasks s) (tasks s2).
Proof.
  intros Hinv He Hn Hrun Ha.
  destruct (task_create_cases m l s name entry prio Hinv He Hn)
    as [(s' & E & _)|(b & s' & T & n1 & n2 & E & Hal & Ha0 & Hma & Hms & Hne & Hinv1 & Hsame & HT & Hcur & _)];
    rewrite E in Hrun; injection Hrun as <- <-; [done|]. split; [done|].
  pose proof (Hsame b) as Hb. rewrite lookup_insert_eq in Hb.
  destruct (tasks s' !! b) as [T'|] eqn:Hb'; [|done]. apply (inj Some) in Hb.
  pose proof (core_eq _ _ Hb) as (F1 & F2 & F3 & F4 & _ & F6 & _). split.
  { eexists _, T'. split; [exact Hinv1|]. split; [done|]. rewrite F1, F2, F3, F4, F6, HT. done. }
  assert (current_task s' ≠ b) as Hcb.
  { rewrite Hcur. intros <-. by apply Hal, (si_current _ _ _ Hinv). }
  destruct (task_destroy_other _ _ s' b Hinv1 Ha0 Hcb) as [[Hnin _]|(l1 & l2 & T2 & s2 & El & HT2 & Hd & Hinv2 & Hsame2 & _)].
  { exfalso. apply Hnin. apply elem_of_app. right. left. }
  assert (T2 = T') as -> by congruence. rewrite F4 in Hinv2.
  apply app_eq_app_inv in El as [(k & -> & Ek)|(k & -> & _)].
  2:{ exfalso. apply Hal. apply elem_of_app. right. left. }
  destruct k as [|? k]; [|by destruct k]. injection Ek as <-. rewrite !app_nil_r in Hinv2.
  rewrite delete_insert_id in Hinv2 by (by rewrite lookup_insert_ne). rewrite delete_insert_id in Hinv2 by done.
  exists s2. split; [done|]. split; [done|]. intros c. rewrite (Hsame2 c), lookup_delete. case_decide as Ec.
  - subst c. destruct (tasks s !! b) eqn:Eb; [|done]. by apply (si_dom _ _ _ Hinv) in Eb.
  - rewrite (Hsame c). by rewrite lookup_insert_ne.
Qed.

(** The choice of [scheduler_yield].  With a current task, the call hands
    the processor to the first ready task after it in cyclic list order that is
    not the idle task, to the idle task only when no other task is ready, keeps
    running the current task when none is ready at all, and panics exactly when
    the current task is dead and none is ready.  The task handed over to is the
    only running one, the previous one becomes ready unless it is dead, and the
    scheduler invariant is kept. *)
Theorem scheduler_yield_round_robin m s l1 l2 :
  sched_inv m (l1 ++ current_task s :: l2) s → current_task s ≠ 0 →
  match choose (tasks s) (idle_task s) (l2 ++ l1) with
  | Some next =>
      ∃ s', scheduler_yield s = Some s' ∧ current_task s' = next ∧
        sched_inv m (l1 ++ current_task s :: l2) s' ∧
        ∀ a t', tasks s' !! a = Some t' → ∃ t, tasks s !! a = Some t ∧
          t_state t' = (if a =? next then TASK_RUNNING
                        else if (a =? current_task s) && bool_decide (t_state t = TASK_RUNNING) then TASK_READY
                        else t_state t)
  | None =>
      scheduler_yield s =
        if bool_decide (t_state <$> tasks s !! current_task s = Some TASK_DEAD) then None else Some s
  end.
Proof.
  intros Hinv Hc. pose proof (scheduler_yield_cases m s l1 l2 Hinv Hc) as Hy.
  destruct (choose _ _ _) as [next|] eqn:E; [|done]. destruct Hy as [Hy Hinv'].
  exists (switch_to next s). split_and!; try done. intros a t' Ht'.
  assert (next ≠ current_task s) as Hne.
  { intros ->. apply choose_elem in E as [Hin _]. pose proof (si_nodup _ _ _ Hinv) as (_ & Hd & [H2 _]%NoDup_cons)%NoDup_app.
    apply elem_of_app in Hin as [?|Hin]; [done|]. apply (Hd _ Hin). left. }
  destruct (switch_lookup s next a t' Hne Ht') as (t & ? & _ & _ & ?). eauto.
Qed.

(** C14: no starvation.  Every ready task other than the idle task gets the
    processor after at most as many yields as there are tasks in the list, and
    none of these yields panics. *)
Theorem scheduler_yield_fair m l s a :
  sched_inv m l s → current_task s ≠ 0 → is_ready (tasks s) a = true → a ≠ idle_task s →
  ∃ n s', (n ≤ length l)%nat ∧ yields n s = Some s' ∧ current_task s' = a ∧ sched_inv m l s'.
Proof.
  intros Hinv Hc Hr Hni. destruct (list_elem_of_split _ _ (si_current _ _ _ Hinv Hc)) as (l1 & l2 & El).
  assert (Ha : a ∈ l2 ++ l1).
  { unfold is_ready in Hr. destruct (tasks s !! a) as [t|] eqn:Et; [|done]. apply bool_decide_eq_true in Hr.
    pose proof (si_dom _ _ _ Hinv a t Et) as Hin. rewrite El, elem_of_app, elem_of_cons in Hin. apply elem_of_app.
    destruct Hin as [?|[->|?]]; [by right| |by left].
    exfalso. destruct (proj2 (st_running _ _ (si_store _ _ _ Hinv) _ t Et) eq_refl); congruence. }
  apply list_elem_of_split in Ha as (r1 & r2 & Erot). subst l.
  destruct (yields_reach m r1 s l1 l2 a r2 Hinv Hc Erot Hr Hni) as (n & s' & Hn & ?).
  exists n, s'. split; [|done]. apply (f_equal length) in Erot. rewrite !length_app in *. cbn in *. lia.
Qed.
End claims.

Lemma task_create_destroy_roundtrip_witness :
  ∃ m a s1 s2, task_create (Some "c"%string) 0x90000 7 example_sched = Some (a, s1) ∧ a ≠ 0 ∧
    task_destroy a s1 = Some s2 ∧ sched_inv m [0x100018; 0x102110; 0x104208] s2.
Proof.
  destruct example_sched_inv as [m Hinv].
  set (r := task_create (Some "c"%string) 0x90000 7 example_sched).
  set (a := from_option fst 0 r). set (s1 := from_option snd example_sched r).
  assert (Hr : r = Some (a, s1)) by (vm_compute; reflexivity).
  assert (Ha : a ≠ 0) by (vm_compute; discriminate).
  destruct (task_create_destroy_roundtrip m _ example_sched (Some "c"%string) 0x90000 7 a s1 Hinv)
    as (_ & _ & s2 & Hd & Hinv2 & _); [discriminate|vm_compute; reflexivity|exact Hr|exact Ha|].
  exists m, a, s1, s2. split; [exact Hr|]. split; [exact Ha|]. split; [exact Hd|exact Hinv2].
Defined.

Lemma scheduler_yield_round_robin_witness :
  ∃ m s', scheduler_yield example_sched = Some s' ∧ current_task s' = 0x102110 ∧
    sched_inv m [0x100018; 0x102110; 0x104208] s'.
Proof.
  destruct example_sched_inv as [m Hinv].
  pose proof (scheduler_yield_round_robin m example_sched [] [0x102110; 0x104208]) as Hy.
  assert (E : choose (tasks example_sched) (idle_task example_sched) ([0x102110; 0x104208] ++ []) = Some 0x102110)
    by (vm_compute; reflexivity).
  rewrite E in Hy. destruct Hy as (s' & Hr & Hc & Hi & _); [exact Hinv|vm_compute; discriminate|].
  exists m, s'. split; [exact Hr|]. split; [exact Hc|exact Hi].
Defined.

Lemma scheduler_yield_fair_witness :
  ∃ n s', (n ≤ 3)%nat ∧ yields n example_sched = Some s' ∧ current_task s' = 0x102110.
Proof.
  destruct example_sched_inv as [m Hinv].
  destruct (scheduler_yield_fair m _ example_sched 0x102110 Hinv) as (n & s' & Hn & Hr & Hc & _);
    [vm_compute; discriminate|vm_compute; reflexivity|vm_compute; discriminate|].
  exists n, s'. split; [exact Hn|]. split; [exact Hr|exact Hc].
Defined.
