(* ===== verification/Elf.v ===== *)
(** ELF loader: kernel/core/elf_loader.c, validation of an ELF64/AArch64 image
    and its copy into a slot of the runtime-image pool.

    An image is the list of its bytes.  Every read of the image and every write
    into a slot's backing store is bounds checked in the model: [None] is an
    access outside the buffer, so a theorem that says the result is [Some] is a
    memory-safety theorem.  The addresses of the statically allocated backing
    stores are parameters ([image_addr], [stack_addr], one per slot);
    the cache maintenance of [sync_executable_range] is not modelled. *)

From S2P Require Import Prelude PhysMem.

Definition ELFCLASS64 : Z := 2.
Definition ELFDATA2LSB : Z := 1.
Definition EV_CURRENT : Z := 1.
Definition ET_EXEC : Z := 2.
Definition PT_LOAD : Z := 1.
Definition PF_X : Z := 1.
Definition PF_W : Z := 2.
Definition PF_R : Z := 4.
Definition AEGIS_ELF_IMAGE_BUF_MAX : Z := 512 * 1024.
Definition AEGIS_ELF_LOAD_READ : Z := 1.
Definition AEGIS_ELF_LOAD_WRITE : Z := 2.
Definition AEGIS_ELF_LOAD_EXEC : Z := 4.
Definition AEGIS_ELF_MAX_LOAD_SEGMENTS : Z := 8.
Definition AEGIS_ELF_RUNTIME_MAX : Z := 16.
Definition AEGIS_ELF_RUNTIME_IMAGE_MAX : Z := 256 * 1024.
Definition AEGIS_ELF_EM_AARCH64 : Z := 183.
Definition AEGIS_ELF_PATH_MAX : nat := 64.
Definition AEGIS_USER_STACK_SIZE : Z := 0x10000.

(** * File format *)

(** Little-endian field of [n] bytes at offset [off]. *)
Fixpoint le_read (img : list Z) (off : nat) (n : nat) : option Z :=
  match n with
  | O => Some 0
  | S n =>
      match img !! off, le_read img (S off) n with
      | Some b, Some r => Some (b + 256 * r)
      | _, _ => None
      end
  end.

Record elf64_ehdr := mk_ehdr {
  e_ident : list Z;
  e_type : Z;
  e_machine : Z;
  e_version : Z;
  e_entry : Z;
  e_phoff : Z;
  e_ehsize : Z;
  e_phentsize : Z;
  e_phnum : Z;
}.
Definition sizeof_ehdr : Z := 64.

Record elf64_phdr := mk_phdr {
  p_type : Z;
  p_flags : Z;
  p_offset : Z;
  p_vaddr : Z;
  p_paddr : Z;
  p_filesz : Z;
  p_memsz : Z;
  p_align : Z;
}.
Definition sizeof_phdr : Z := 56.

(** The structures as laid out in memory on AArch64. *)
Definition read_ehdr (img : list Z) : option elf64_ehdr :=
  ident ← (if (16 <=? length img)%nat then Some (take 16 img) else None);
  ty ← le_read img 16 2;
  machine ← le_read img 18 2;
  version ← le_read img 20 4;
  entry ← le_read img 24 8;
  phoff ← le_read img 32 8;
  ehsize ← le_read img 52 2;
  phentsize ← le_read img 54 2;
  phnum ← le_read img 56 2;
  Some (mk_ehdr ident ty machine version entry phoff ehsize phentsize phnum).

Definition read_phdr (img : list Z) (off : Z) : option elf64_phdr :=
  let o := Z.to_nat off in
  ty ← le_read img o 4;
  flags ← le_read img (o + 4) 4;
  offset ← le_read img (o + 8) 8;
  vaddr ← le_read img (o + 16) 8;
  paddr ← le_read img (o + 24) 8;
  filesz ← le_read img (o + 32) 8;
  memsz ← le_read img (o + 40) 8;
  align ← le_read img (o + 48) 8;
  Some (mk_phdr ty flags offset vaddr paddr filesz memsz align).

(** [ph[0]], ..., [ph[n-1]] of the table at [off]. *)
Fixpoint read_phdrs (img : list Z) (off : Z) (n : nat) : option (list elf64_phdr) :=
  match n with
  | O => Some []
  | S n =>
      ph ← read_phdr img off;
      rest ← read_phdrs img (off + sizeof_phdr) n;
      Some (ph :: rest)
  end.

(** * Loader state *)

Record elf_image_info := mk_info {
  validated : bool;
  loadable : bool;
  i_path : string;
  i_entry : Z;
  text_vaddr : Z;
  text_filesz : Z;
  text_memsz : Z;
  text_flags : Z;
  text_pt_load_copied : bool;
  text_permissions_ready : bool;
  text_file_bytes_copied : Z;
  text_zero_bytes : Z;
  text_kernel_backing : Z;
  runtime_image_base : Z;
  runtime_image_size : Z;
  load_segment_count : Z;
  runtime_entry : Z;
  runtime_stack_base : Z;
  runtime_stack_size : Z;
  runtime_stack_top : Z;
  runtime_slot : Z;
  i_phnum : Z;
  i_machine : Z;
  i_type : Z;
}.
#[export] Instance elf_image_info_eta : Eta elf_image_info := λ i,
  mk_info (validated i) (loadable i) (i_path i) (i_entry i) (text_vaddr i) (text_filesz i) (text_memsz i)
    (text_flags i) (text_pt_load_copied i) (text_permissions_ready i) (text_file_bytes_copied i)
    (text_zero_bytes i) (text_kernel_backing i) (runtime_image_base i) (runtime_image_size i)
    (load_segment_count i) (runtime_entry i) (runtime_stack_base i) (runtime_stack_size i)
    (runtime_stack_top i) (runtime_slot i) (i_phnum i) (i_machine i) (i_type i).
Definition zero_info : elf_image_info :=
  mk_info false false EmptyString 0 0 0 0 0 false false 0 0 0 0 0 0 0 0 0 0 0 0 0 0.

Record runtime_segment := mk_seg { seg_base : Z; seg_size : Z; seg_flags : Z }.

Record elf_runtime_slot := mk_slot {
  sl_used : bool;
  sl_info : elf_image_info;
  image_backing : list Z;
  stack_backing : list Z;
  segments : list runtime_segment;
}.
#[export] Instance elf_runtime_slot_eta : Eta elf_runtime_slot := λ s,
  mk_slot (sl_used s) (sl_info s) (image_backing s) (stack_backing s) (segments s).

(** [segments] holds the first [segment_count] entries of the array. *)
Definition segment_count (sl : elf_runtime_slot) : Z := Z.of_nat (length (segments sl)).

Record elf_state := mk_elf {
  runtime_slots : list elf_runtime_slot;
  builtin_info : elf_image_info;
  loader_initialised : bool;
  builtin_ready : bool;
  pt_load_segments_copied : bool;
  permissions_ready : bool;
  builtin_runtime_slot : Z;
}.
#[export] Instance elf_state_eta : Eta elf_state := λ s,
  mk_elf (runtime_slots s) (builtin_info s) (loader_initialised s) (builtin_ready s)
    (pt_load_segments_copied s) (permissions_ready s) (builtin_runtime_slot s).

Definition zero_image : list Z := replicate (Z.to_nat AEGIS_ELF_RUNTIME_IMAGE_MAX) 0.
Definition zero_stack : list Z := replicate (Z.to_nat AEGIS_USER_STACK_SIZE) 0.

Lemma zero_image_length : length zero_image = Z.to_nat AEGIS_ELF_RUNTIME_IMAGE_MAX.
Proof. exact (length_replicate _ _). Qed.
Lemma zero_image_lookup j : 0 ≤ j < AEGIS_ELF_RUNTIME_IMAGE_MAX → zero_image !! Z.to_nat j = Some 0.
Proof. intros. unfold zero_image. apply lookup_replicate. split; [done|]. apply Z2Nat.inj_lt; lia. Qed.
#[global] Opaque zero_image zero_stack.

(** * Helpers *)

Definition copy_text (dst_len : nat) (src : string) : string := str_take (dst_len - 1) src.

Definition range_contains (base size addr : Z) : bool :=
  if size =? 0 then false
  else
    let end_ := u64 (base + size) in
    if end_ <=? base then false else (base <=? addr) && (addr <? end_).

Definition full_range_inside (ptr len base size : Z) : bool :=
  if (ptr =? 0) || (len =? 0) || (size =? 0) then false
  else
    let end_ := u64 (ptr + len) in
    let region_end := u64 (base + size) in
    if (end_ <=? ptr) || (region_end <=? base) then false
    else (base <=? ptr) && (end_ <=? region_end).

Definition elf_flags_to_loader_flags (flags : Z) : Z :=
  let out := 0 in
  let out := if has_flag flags PF_R then Z.lor out AEGIS_ELF_LOAD_READ else out in
  let out := if has_flag flags PF_W then Z.lor out AEGIS_ELF_LOAD_WRITE else out in
  if has_flag flags PF_X then Z.lor out AEGIS_ELF_LOAD_EXEC else out.

(** [copy_mem(dst + off, src + soff, n)] inside bounded buffers. *)
Definition copy_mem (dst : list Z) (off : Z) (src : list Z) (soff n : Z) : option (list Z) :=
  if n =? 0 then Some dst
  else if (0 <=? off) && (off + n <=? Z.of_nat (length dst)) && (0 <=? soff) && (soff + n <=? Z.of_nat (length src)) then
    Some (take (Z.to_nat off) dst ++ take (Z.to_nat n) (drop (Z.to_nat soff) src)
            ++ drop (Z.to_nat (off + n)) dst)
  else None.

Definition runtime_slot_from_id (id : Z) (s : elf_state) : option elf_runtime_slot :=
  if (id =? 0) || (AEGIS_ELF_RUNTIME_MAX <? id) then None
  else
    match runtime_slots s !! Z.to_nat (id - 1) with
    | Some sl => if sl_used sl then Some sl else None
    | None => None
    end.

(** Index of the slot taken (its identifier is one more). *)
Definition runtime_slot_allocate (s : elf_state) : option nat * elf_state :=
  match find_slot (λ sl, negb (sl_used sl)) (runtime_slots s) with
  | Some i => (Some i, s <| runtime_slots ::= <[i := mk_slot true zero_info zero_image zero_stack []]> |>)
  | None => (None, s)
  end.

Definition elf_loader_init (s : elf_state) : elf_state :=
  s <| builtin_info := zero_info |>
    <| runtime_slots ::= fmap (λ sl, sl <| sl_used := false |> <| sl_info := zero_info |>) |>
    <| loader_initialised := true |> <| builtin_ready := false |> <| pt_load_segments_copied := false |>
    <| permissions_ready := false |> <| builtin_runtime_slot := 0 |>.

(** * Validation *)

Record vacc := mk_vacc { min_vaddr : Z; max_vaddr : Z; entry_exec : bool; loads : Z; v_out : elf_image_info }.

Definition MAX_U64 : Z := 2 ^ 64 - 1.
Definition seg_start (ph : elf64_phdr) : Z := PAGE_ALIGN_DOWN (p_vaddr ph).
Definition seg_end (ph : elf64_phdr) : Z :=
  Z.land (u64 (u64 (p_vaddr ph + p_memsz ph) + PAGE_SIZE - 1)) PAGE_MASK.

(** One iteration of the loop over the program headers; [inl] is a return. *)
Definition validate_phdr (image_len entry : Z) (ph : elf64_phdr) (a : vacc) : Z + vacc :=
  if negb (p_type ph =? PT_LOAD) then inr a
  else
    let n := u32 (loads a + 1) in
    if (AEGIS_ELF_MAX_LOAD_SEGMENTS <? n) || (p_memsz ph =? 0) || (p_memsz ph <? p_filesz ph) then inl AEGIS_EINVAL
    else if negb (p_align ph =? 0) && negb (Z.land (p_align ph) (u64 (p_align ph - 1)) =? 0) then inl AEGIS_EINVAL
    else if (image_len <? u64 (p_offset ph + p_filesz ph)) || (u64 (p_offset ph + p_filesz ph) <? p_offset ph) then inl AEGIS_EINVAL
    else if Z.land (p_flags ph) (Z.lor PF_W PF_X) =? Z.lor PF_W PF_X then inl AEGIS_EPERM
    else if seg_end ph <=? seg_start ph then inl AEGIS_EINVAL
    else
      let lo := if seg_start ph <? min_vaddr a then seg_start ph else min_vaddr a in
      let hi := if max_vaddr a <? seg_end ph then seg_end ph else max_vaddr a in
      if range_contains (p_vaddr ph) (p_memsz ph) entry && has_flag (p_flags ph) PF_X then
        inr (mk_vacc lo hi true n
               ((v_out a) <| text_vaddr := p_vaddr ph |> <| text_filesz := p_filesz ph |>
                        <| text_memsz := p_memsz ph |> <| text_flags := elf_flags_to_loader_flags (p_flags ph) |>))
      else inr (mk_vacc lo hi (entry_exec a) n (v_out a)).

Fixpoint validate_phdrs (image_len entry : Z) (phs : list elf64_phdr) (a : vacc) : Z + vacc :=
  match phs with
  | [] => inr a
  | ph :: phs =>
      match validate_phdr image_len entry ph a with
      | inl rc => inl rc
      | inr a => validate_phdrs image_len entry phs a
      end
  end.

(** The header tests before the program headers are read. *)
Definition ehdr_ok (image_len : Z) (eh : elf64_ehdr) : bool :=
  bool_decide (take 7 (e_ident eh) = [0x7f; 69; 76; 70; ELFCLASS64; ELFDATA2LSB; EV_CURRENT]) &&
  (e_type eh =? ET_EXEC) && (e_machine eh =? AEGIS_ELF_EM_AARCH64) && (e_version eh =? EV_CURRENT) &&
  (e_ehsize eh =? sizeof_ehdr) && (e_phentsize eh =? sizeof_phdr) &&
  negb ((e_phnum eh =? 0) || (AEGIS_ELF_MAX_LOAD_SEGMENTS <? e_phnum eh) || (image_len <=? e_phoff eh)) &&
  (let ph_bytes := e_phentsize eh * e_phnum eh in
   negb ((image_len <? u64 (e_phoff eh + ph_bytes)) || (u64 (e_phoff eh + ph_bytes) <? e_phoff eh))).

(** [image] is [None] for a NULL pointer; the result is the return code, or
    the contents of [*out] when the code is [AEGIS_OK]. *)
Definition elf_loader_validate_image (image : option (list Z)) (path : option string)
    (s : elf_state) : option (Z + elf_image_info) :=
  match image with
  | None => Some (inl AEGIS_EINVAL)
  | Some img =>
      let image_len := Z.of_nat (length img) in
      if negb (loader_initialised s) || (image_len <? sizeof_ehdr) then Some (inl AEGIS_EINVAL)
      else
        eh ← read_ehdr img;
        if negb (ehdr_ok image_len eh) then Some (inl AEGIS_EINVAL)
        else
          let out := zero_info <| i_phnum := e_phnum eh |> <| i_machine := e_machine eh |> <| i_type := e_type eh |>
                       <| i_entry := e_entry eh |>
                       <| i_path := copy_text AEGIS_ELF_PATH_MAX (default "<memory>"%string path) |> in
          phs ← read_phdrs img (e_phoff eh) (Z.to_nat (e_phnum eh));
          match validate_phdrs image_len (e_entry eh) phs (mk_vacc MAX_U64 0 false 0 out) with
          | inl rc => Some (inl rc)
          | inr a =>
              if (loads a =? 0) || negb (entry_exec a) || (min_vaddr a =? MAX_U64) ||
                 (AEGIS_ELF_RUNTIME_IMAGE_MAX <? u64 (max_vaddr a - min_vaddr a))
              then Some (inl AEGIS_EINVAL)
              else Some (inr ((v_out a) <| runtime_image_size := u64 (max_vaddr a - min_vaddr a) |>
                                      <| load_segment_count := loads a |>
                                      <| loadable := true |> <| validated := true |>))
          end
  end.

(** * Loading *)

Section loading.
(** Addresses of the backing stores of each slot (by identifier). *)
Context (image_addr stack_addr : Z → Z).

(** The first loop of [copy_executable_pt_load]: the span of the segments. *)
Definition span_phdr (r : Z * Z) (ph : elf64_phdr) : Z * Z :=
  if p_type ph =? PT_LOAD then
    (if seg_start ph <? fst r then seg_start ph else fst r,
     if snd r <? seg_end ph then seg_end ph else snd r)
  else r.
Definition span (phs : list elf64_phdr) : Z * Z := fold_left span_phdr phs (MAX_U64, 0).

Record cacc := mk_cacc { c_slot : elf_runtime_slot; copied : Z; zeroed : Z }.

(** One iteration of the copying loop: [None] is an access out of bounds, a
    code other than [AEGIS_OK] is a return. *)
Definition copy_phdr (img : list Z) (slot_id min_v : Z) (ph : elf64_phdr) (a : cacc) : option (Z * cacc) :=
  if negb (p_type ph =? PT_LOAD) then Some (AEGIS_OK, a)
  else if Z.of_nat (length img) <? u64 (p_offset ph + p_filesz ph) then Some (AEGIS_EINVAL, a)
  else
    let off := u64 (p_vaddr ph - min_v) in
    if AEGIS_ELF_RUNTIME_IMAGE_MAX <? u64 (off + p_memsz ph) then Some (AEGIS_ENOMEM, a)
    else
      backing ← copy_mem (image_backing (c_slot a)) off img (p_offset ph) (p_filesz ph);
      if AEGIS_ELF_MAX_LOAD_SEGMENTS <=? segment_count (c_slot a) then None
      else
        let seg := mk_seg (u64 (image_addr slot_id + off)) (p_memsz ph) (elf_flags_to_loader_flags (p_flags ph)) in
        Some (AEGIS_OK,
          mk_cacc ((c_slot a) <| image_backing := backing |> <| segments ::= λ l, l ++ [seg] |>)
            (u64 (copied a + p_filesz ph)) (u64 (zeroed a + (p_memsz ph - p_filesz ph)))).

Fixpoint copy_phdrs (img : list Z) (slot_id min_v : Z) (phs : list elf64_phdr) (a : cacc) : option (Z * cacc) :=
  match phs with
  | [] => Some (AEGIS_OK, a)
  | ph :: phs =>
      '(rc, a) ← copy_phdr img slot_id min_v ph a;
      if rc =? AEGIS_OK then copy_phdrs img slot_id min_v phs a else Some (rc, a)
  end.

(** Returns the code, the slot and the completed information. *)
Definition copy_executable_pt_load (img : list Z) (slot_id : Z) (slot : elf_runtime_slot) (info : elf_image_info)
    : option (Z * elf_runtime_slot * elf_image_info) :=
  if negb (validated info) || negb (loadable info) then Some (AEGIS_EINVAL, slot, info)
  else
    eh ← read_ehdr img;
    phs ← read_phdrs img (e_phoff eh) (Z.to_nat (e_phnum eh));
    let '(min_v, max_v) := span phs in
    if (min_v =? MAX_U64) || (AEGIS_ELF_RUNTIME_IMAGE_MAX <? u64 (max_v - min_v)) then Some (AEGIS_ENOMEM, slot, info)
    else
      let slot := slot <| image_backing := zero_image |> <| segments := [] |> in
      '(rc, a) ← copy_phdrs img slot_id min_v phs (mk_cacc slot 0 0);
      if negb (rc =? AEGIS_OK) then Some (rc, c_slot a, info)
      else
          let base := image_addr slot_id in
          let stk := stack_addr slot_id in
          let info := info <| text_pt_load_copied := true |> <| text_permissions_ready := true |>
            <| text_file_bytes_copied := copied a |> <| text_zero_bytes := zeroed a |>
            <| runtime_image_base := base |> <| runtime_image_size := u64 (max_v - min_v) |>
            <| text_kernel_backing := base |> <| text_memsz := u64 (max_v - min_v) |>
            <| runtime_entry := u64 (base + (i_entry info - min_v)) |>
            <| runtime_stack_base := stk |> <| runtime_stack_size := AEGIS_USER_STACK_SIZE |>
            <| runtime_stack_top := Z.land (u64 (stk + AEGIS_USER_STACK_SIZE)) (u64 (Z.lnot 15)) |>
            <| runtime_slot := slot_id |> in
          Some (AEGIS_OK, (c_slot a) <| sl_info := info |>, info).

Definition load_image_into_runtime (img : list Z) (path : option string) (s : elf_state)
    : option ((Z + elf_image_info) * elf_state) :=
  v ← elf_loader_validate_image (Some img) path s;
  match v with
  | inl rc => Some (inl rc, s)
  | inr tmp =>
      match runtime_slot_allocate s with
      | (None, s) => Some (inl AEGIS_ENOMEM, s)
      | (Some i, s) =>
          slot ← runtime_slots s !! i;
          '(rc, slot, info) ← copy_executable_pt_load img (Z.of_nat i + 1) slot tmp;
          if rc =? AEGIS_OK then
            Some (inr info, s <| runtime_slots ::= <[i := slot]> |>
                              <| pt_load_segments_copied := true |> <| permissions_ready := true |>)
          else Some (inl rc, s <| runtime_slots ::= <[i := slot <| sl_used := false |>]> |>)
      end
  end.

(** [read_file path max] stands for [vfs_open]; [vfs_read]; [vfs_close]:
    [None] when the file does not exist, else the bytes read. *)
Definition elf_loader_load_vfs_path (read_file : string → Z → option (list Z)) (path : option string) (s : elf_state)
    : option ((Z + elf_image_info) * elf_state) :=
  match path with
  | None => Some (inl AEGIS_EINVAL, s)
  | Some p =>
      if negb (loader_initialised s) then Some (inl AEGIS_EINVAL, s)
      else
        match read_file p AEGIS_ELF_IMAGE_BUF_MAX with
        | None => Some (inl AEGIS_ENOENT, s)
        | Some [] => Some (inl AEGIS_EINVAL, s)
        | Some buf =>
            if AEGIS_ELF_IMAGE_BUF_MAX <=? Z.of_nat (length buf) then Some (inl AEGIS_ENOMEM, s)
            else load_image_into_runtime buf path s
        end
  end.

Definition elf_loader_load_vfs_aegis_init (read_file : string → Z → option (list Z)) (s : elf_state)
    : option ((Z + elf_image_info) * elf_state) :=
  if negb (loader_initialised s) then Some (inl AEGIS_EINVAL, s)
  else
    '(r, s) ← elf_loader_load_vfs_path read_file (Some "/sbin/aegis-init"%string) s;
    match r with
    | inl rc => Some (inl rc, s)
    | inr tmp =>
        Some (inr tmp, s <| builtin_info := tmp |> <| builtin_runtime_slot := runtime_slot tmp |> <| builtin_ready := true |>)
    end.
End loading.

Definition elf_loader_release_runtime_slot (id : Z) (s : elf_state) : Z * elf_state :=
  if negb (loader_initialised s) || (id =? 0) || (AEGIS_ELF_RUNTIME_MAX <? id) then (AEGIS_EINVAL, s)
  else if id =? builtin_runtime_slot s then (AEGIS_EPERM, s)
  else
    match runtime_slots s !! Z.to_nat (id - 1) with
    | Some slot =>
        if negb (sl_used slot) then (AEGIS_ENOENT, s)
        else (AEGIS_OK, s <| runtime_slots ::= <[Z.to_nat (id - 1) := mk_slot false zero_info zero_image zero_stack []]> |>)
    | None => (AEGIS_EINVAL, s)
    end.

Definition slot_range_ok (flag : Z) (slot : elf_runtime_slot) (ptr len : Z) : bool :=
  full_range_inside ptr len (runtime_stack_base (sl_info slot)) (runtime_stack_size (sl_info slot)) ||
  existsb (λ g, has_flag (seg_flags g) flag && full_range_inside ptr len (seg_base g) (seg_size g)) (segments slot).

Definition elf_loader_slot_read_range_ok (id ptr len : Z) (s : elf_state) : bool :=
  match runtime_slot_from_id id s with
  | None => false
  | Some slot => slot_range_ok AEGIS_ELF_LOAD_READ slot ptr len
  end.
Definition elf_loader_slot_write_range_ok (id ptr len : Z) (s : elf_state) : bool :=
  match runtime_slot_from_id id s with
  | None => false
  | Some slot => slot_range_ok AEGIS_ELF_LOAD_WRITE slot ptr len
  end.

Definition elf_loader_runtime_count (s : elf_state) : Z :=
  Z.of_nat (length (filter (λ sl, sl_used sl = true) (runtime_slots s))).

(** * Reading is in bounds *)

Definition bytes (l : list Z) : Prop := Forall (λ b, 0 ≤ b < 256) l.

Lemma le_read_ok img off n :
  bytes img → (off + n ≤ length img)%nat → ∃ v, le_read img off n = Some v ∧ 0 ≤ v < 256 ^ Z.of_nat n.
Proof.
  intros Hb. revert off. induction n as [|n IH]; intros off Hlen; cbn [le_read].
  - exists 0. split; [done|]. cbn. lia.
  - destruct (lookup_lt_is_Some_2 img off ltac:(lia)) as [b E]. rewrite E.
    destruct (IH (S off) ltac:(lia)) as (v & -> & Hv).
    pose proof (Forall_lookup_1 _ _ _ _ Hb E) as Hbb. cbn in Hbb.
    eexists. split; [done|]. rewrite Nat2Z.inj_succ, Z.pow_succ_r by lia. lia.
Qed.

(** Discharge the next field read, in bounds by arithmetic. *)
Ltac read_field Hb :=
  match goal with
  | |- context [le_read ?img ?o ?n] =>
      destruct (le_read_ok img o n Hb ltac:(lia)) as (? & -> & ?); cbn [mbind option_bind]
  end.

(** A program header with its fields in range. *)
Record phdr_ok (ph : elf64_phdr) : Prop := {
  po_offset : 0 ≤ p_offset ph < 2 ^ 64;
  po_vaddr : 0 ≤ p_vaddr ph < 2 ^ 64;
  po_filesz : 0 ≤ p_filesz ph < 2 ^ 64;
  po_memsz : 0 ≤ p_memsz ph < 2 ^ 64;
}.

Lemma read_phdr_ok img off :
  bytes img → 0 ≤ off → off + sizeof_phdr ≤ Z.of_nat (length img) → ∃ ph, read_phdr img off = Some ph ∧ phdr_ok ph.
Proof.
  intros Hb Ho Hl. unfold read_phdr, sizeof_phdr in *. set (o := Z.to_nat off).
  assert (Ho' : (o + 56 ≤ length img)%nat) by lia. clearbody o.
  repeat read_field Hb.
  eexists. split; [done|]. by split.
Qed.

Lemma read_phdrs_ok img off n :
  bytes img → 0 ≤ off → off + sizeof_phdr * Z.of_nat n ≤ Z.of_nat (length img) →
  ∃ phs, read_phdrs img off n = Some phs ∧ Forall phdr_ok phs ∧ length phs = n.
Proof.
  intros Hb. revert off. induction n as [|n IH]; intros off Ho Hl; cbn [read_phdrs].
  - exists []. by repeat split.
  - unfold sizeof_phdr in *. destruct (read_phdr_ok img off Hb Ho) as (ph & -> & Hph); [unfold sizeof_phdr; lia|].
    destruct (IH (off + 56)) as (phs & E & HF & <-); [lia|lia|].
    cbn [mbind option_bind]. unfold sizeof_phdr. rewrite E. cbn. eexists. split; [done|]. split; [by constructor|done].
Qed.

Lemma read_ehdr_ok img :
  bytes img → sizeof_ehdr ≤ Z.of_nat (length img) →
  ∃ eh, read_ehdr img = Some eh ∧ 0 ≤ e_phoff eh < 2 ^ 64 ∧ 0 ≤ e_phnum eh < 2 ^ 16 ∧ 0 ≤ e_phentsize eh < 2 ^ 16 ∧
    0 ≤ e_entry eh < 2 ^ 64.
Proof.
  intros Hb Hl. unfold read_ehdr, sizeof_ehdr in *.
  rewrite (proj2 (Nat.leb_le 16 _)) by lia. cbn [mbind option_bind].
  repeat read_field Hb.
  eexists. split; [done|]. split; [assumption|]. split; [assumption|]. split; assumption.
Qed.

(** * Validation *)

Definition is_load (ph : elf64_phdr) : Prop := p_type ph = PT_LOAD.

(** What the loop has checked about a loadable segment. *)
Record seg_checked (image_len : Z) (ph : elf64_phdr) : Prop := {
  sc_size : p_memsz ph ≠ 0 ∧ p_filesz ph ≤ p_memsz ph;
  sc_file : p_offset ph + p_filesz ph ≤ image_len;
  sc_wx : has_flag (p_flags ph) PF_W = true → has_flag (p_flags ph) PF_X = true → False;
  sc_span : seg_start ph < seg_end ph;
}.

Lemma u64_add_no_wrap x y n :
  0 ≤ x < 2 ^ 64 → 0 ≤ y < 2 ^ 64 → u64 (x + y) ≤ n → x ≤ u64 (x + y) → u64 (x + y) = x + y.
Proof. intros. unfold u64 in *. divlia. Qed.

Lemma wx_flags flags :
  Z.land flags (Z.lor PF_W PF_X) ≠ Z.lor PF_W PF_X → has_flag flags PF_W = true → has_flag flags PF_X = true → False.
Proof.
  intros Hne Hw Hx. apply Hne. unfold has_flag, PF_W, PF_X in *. change (Z.lor 2 1) with 3.
  apply negb_true_iff, Z.eqb_neq in Hw, Hx.
  assert (Z.testbit flags 0 = true) as H0.
  { destruct (Z.testbit flags 0) eqn:E; [done|]. exfalso. apply Hx. apply Z.bits_inj'. intros n Hn. rewrite Z.land_spec, Z.bits_0.
    destruct (decide (n = 0)) as [->|]; [by rewrite E|]. change 1 with (2 ^ 0). rewrite Z.pow2_bits_false by lia. by rewrite andb_false_r. }
  assert (Z.testbit flags 1 = true) as H1.
  { destruct (Z.testbit flags 1) eqn:E; [done|]. exfalso. apply Hw. apply Z.bits_inj'. intros n Hn. rewrite Z.land_spec, Z.bits_0.
    destruct (decide (n = 1)) as [->|]; [by rewrite E|]. change 2 with (2 ^ 1). rewrite Z.pow2_bits_false by lia. by rewrite andb_false_r. }
  apply Z.bits_inj'. intros n Hn. rewrite Z.land_spec. change 3 with (Z.ones 2). rewrite Z.testbit_ones_nonneg by lia.
  destruct (Z.ltb_spec n 2); [|by rewrite andb_false_r]. rewrite andb_true_r.
  destruct (decide (n = 0)) as [->|]; [done|]. by replace n with 1 by lia.
Qed.

Lemma validate_phdr_inr image_len entry ph a a' :
  phdr_ok ph → 0 ≤ loads a < 2 ^ 31 → validate_phdr image_len entry ph a = inr a' →
  (is_load ph → seg_checked image_len ph) ∧
  (min_vaddr a', max_vaddr a') = span_phdr (min_vaddr a, max_vaddr a) ph ∧
  loads a' = loads a + (if p_type ph =? PT_LOAD then 1 else 0) ∧ (loads a ≤ 8 → loads a' ≤ 8) ∧
  (entry_exec a' = true → entry_exec a = true ∨
     is_load ph ∧ range_contains (p_vaddr ph) (p_memsz ph) entry = true ∧ has_flag (p_flags ph) PF_X = true) ∧
  i_entry (v_out a') = i_entry (v_out a).
Proof.
  intros Hok Hld. unfold validate_phdr, is_load, span_phdr.
  destruct (Z.eqb_spec (p_type ph) PT_LOAD) as [E|E]; cbn [negb].
  2:{ intros [= <-]. split_and!; try (done || lia); auto. }
  rewrite u32_small by lia. unfold AEGIS_ELF_MAX_LOAD_SEGMENTS. cbn zeta.
  destruct (Z.ltb_spec 8 (loads a + 1)); cbn [orb]; [done|].
  destruct (Z.eqb_spec (p_memsz ph) 0); cbn [orb]; [done|].
  destruct (Z.ltb_spec (p_memsz ph) (p_filesz ph)); [done|].
  destruct (_ && _); [done|].
  destruct (Z.ltb_spec image_len (u64 (p_offset ph + p_filesz ph))); cbn [orb]; [done|].
  destruct (Z.ltb_spec (u64 (p_offset ph + p_filesz ph)) (p_offset ph)); [done|].
  destruct (Z.eqb_spec (Z.land (p_flags ph) (Z.lor PF_W PF_X)) (Z.lor PF_W PF_X)) as [|Hwx]; [done|].
  destruct (Z.leb_spec (seg_end ph) (seg_start ph)); [done|].
  assert (seg_checked image_len ph).
  { destruct Hok. split; [done| |by apply wx_flags|done].
    erewrite <-u64_add_no_wrap; [eassumption|lia|lia|eassumption|lia]. }
  destruct (range_contains _ _ entry && _) eqn:Er; intros [= <-]; cbn; split_and!; try (done || lia); auto.
  apply andb_true_iff in Er as [? ?]. auto.
Qed.

Definition load_count (phs : list elf64_phdr) : Z :=
  Z.of_nat (length (filter (λ ph, p_type ph = PT_LOAD) phs)).

Lemma load_count_cons ph phs :
  load_count (ph :: phs) = (if p_type ph =? PT_LOAD then 1 else 0) + load_count phs.
Proof.
  unfold load_count. rewrite filter_cons. destruct (Z.eqb_spec (p_type ph) PT_LOAD);
    [rewrite decide_True by done; cbn; lia|by rewrite decide_False by done].
Qed.

Lemma validate_phdrs_inr image_len entry phs a a' :
  Forall phdr_ok phs → 0 ≤ loads a ≤ 8 → validate_phdrs image_len entry phs a = inr a' →
  Forall (λ ph, is_load ph → seg_checked image_len ph) phs ∧
  (min_vaddr a', max_vaddr a') = fold_left span_phdr phs (min_vaddr a, max_vaddr a) ∧
  loads a' = loads a + load_count phs ∧ loads a' ≤ 8 ∧
  (entry_exec a' = true → entry_exec a = true ∨ ∃ ph, ph ∈ phs ∧
     is_load ph ∧ range_contains (p_vaddr ph) (p_memsz ph) entry = true ∧ has_flag (p_flags ph) PF_X = true) ∧
  i_entry (v_out a') = i_entry (v_out a).
Proof.
  revert a. induction phs as [|ph phs IH]; intros a HF Hld; cbn [validate_phdrs fold_left].
  - intros [= <-]. unfold load_count. cbn. split_and!; try (done || lia); auto.
  - apply Forall_cons in HF as [Hok HF]. destruct (validate_phdr image_len entry ph a) as [|a1] eqn:E1; [done|].
    destruct (validate_phdr_inr image_len entry ph a a1 Hok ltac:(lia) E1) as (S1 & Sp1 & L1 & L8 & En1 & I1). intros E2.
    specialize (L8 (proj2 Hld)).
    assert (0 ≤ loads a1 ≤ 8) by (destruct (p_type ph =? PT_LOAD); lia).
    destruct (IH a1 HF ltac:(lia) E2) as (S2 & Sp2 & L2 & L82 & En2 & I2). rewrite load_count_cons.
    split_and!.
    + by constructor.
    + by rewrite Sp2, Sp1.
    + lia.
    + done.
    + intros H2. destruct (En2 H2) as [H1|(qh & Hq & ?)].
      * destruct (En1 H1) as [?|?]; [by left|right]. exists ph. split; [left|done].
      * right. exists qh. split; [by right|done].
    + congruence.
Qed.

(** Errors are negative codes. *)
Lemma validate_phdrs_inl image_len entry phs a rc :
  validate_phdrs image_len entry phs a = inl rc → rc < 0.
Proof.
  revert a. induction phs as [|ph phs IH]; intros a; cbn [validate_phdrs]; [done|].
  destruct (validate_phdr image_len entry ph a) as [rc'|a1] eqn:E; [|apply IH]. intros [= <-].
  unfold validate_phdr in E. repeat case_match; try done; injection E as <-; done.
Qed.

(** The span covers every loadable segment. *)
Lemma span_fold phs r :
  fst (fold_left span_phdr phs r) ≤ fst r ∧ snd r ≤ snd (fold_left span_phdr phs r) ∧
  ∀ ph, ph ∈ phs → is_load ph →
    fst (fold_left span_phdr phs r) ≤ seg_start ph ∧ seg_end ph ≤ snd (fold_left span_phdr phs r).
Proof.
  revert r. induction phs as [|qh phs IH]; intros r; cbn [fold_left].
  - split_and!; [lia|lia|]. by intros ? ?%not_elem_of_nil.
  - destruct (IH (span_phdr r qh)) as (Hlo & Hhi & Hall).
    assert (fst (span_phdr r qh) ≤ fst r ∧ snd r ≤ snd (span_phdr r qh) ∧
      (is_load qh → fst (span_phdr r qh) ≤ seg_start qh ∧ seg_end qh ≤ snd (span_phdr r qh))) as (H1 & H2 & H3).
    { unfold span_phdr, is_load. destruct (Z.eqb_spec (p_type qh) PT_LOAD); [|split_and!; [lia|lia|done]].
      cbn. destruct (Z.ltb_spec (seg_start qh) (fst r)), (Z.ltb_spec (snd r) (seg_end qh)); lia. }
    split_and!; [lia|lia|]. intros ph [->|Hin]%elem_of_cons Hload; [|by apply Hall]. specialize (H3 Hload). lia.
Qed.

(** What acceptance of an image means. *)
Record accepted_image (img : list Z) (info : elf_image_info) (eh : elf64_ehdr) (phs : list elf64_phdr) : Prop := {
  ai_ehdr : read_ehdr img = Some eh;
  ai_phdrs : read_phdrs img (e_phoff eh) (Z.to_nat (e_phnum eh)) = Some phs;
  ai_ok : Forall phdr_ok phs;
  ai_checked : Forall (λ ph, is_load ph → seg_checked (Z.of_nat (length img)) ph) phs;
  ai_count : load_count phs ≤ 8;
  ai_span : fst (span phs) ≠ MAX_U64 ∧ u64 (snd (span phs) - fst (span phs)) ≤ AEGIS_ELF_RUNTIME_IMAGE_MAX;
  ai_entry : i_entry info = e_entry eh ∧ ∃ ph, ph ∈ phs ∧ is_load ph ∧
    range_contains (p_vaddr ph) (p_memsz ph) (e_entry eh) = true ∧ has_flag (p_flags ph) PF_X = true;
  ai_flags : validated info = true ∧ loadable info = true;
}.

Lemma ehdr_ok_table (img : list Z) eh :
  0 ≤ e_phoff eh < 2 ^ 64 → 0 ≤ e_phnum eh < 2 ^ 16 → ehdr_ok (Z.of_nat (length img)) eh = true →
  e_phoff eh + sizeof_phdr * Z.of_nat (Z.to_nat (e_phnum eh)) ≤ Z.of_nat (length img).
Proof.
  intros Ho Hn Hok. unfold ehdr_ok in Hok. rewrite !andb_true_iff in Hok. destruct Hok as (((_ & Hsz) & _) & Hb).
  apply Z.eqb_eq in Hsz. cbn zeta in Hb. rewrite Hsz in Hb. unfold sizeof_phdr in *.
  apply negb_true_iff, orb_false_iff in Hb as [H1%Z.ltb_ge H2%Z.ltb_ge].
  erewrite u64_add_no_wrap in H1; [|lia|lia|eassumption|lia]. lia.
Qed.

Lemma validate_image_cases img path s :
  bytes img → loader_initialised s = true →
  (∃ rc, elf_loader_validate_image (Some img) path s = Some (inl rc) ∧ rc < 0) ∨
  (∃ info eh phs, elf_loader_validate_image (Some img) path s = Some (inr info) ∧ accepted_image img info eh phs).
Proof.
  intros Hb Hinit. unfold elf_loader_validate_image. rewrite Hinit. cbn [negb orb].
  destruct (Z.ltb_spec (Z.of_nat (length img)) sizeof_ehdr) as [|Hlen]; [left; by eexists|].
  destruct (read_ehdr_ok img Hb Hlen) as (eh & Heh & Ho & Hn & _ & _). rewrite Heh. cbn [mbind option_bind].
  destruct (ehdr_ok _ eh) eqn:Hok; cbn [negb]; [|left; by eexists].
  destruct (read_phdrs_ok img (e_phoff eh) (Z.to_nat (e_phnum eh)) Hb) as (phs & Hphs & HF & _);
    [lia|by apply ehdr_ok_table|]. rewrite Hphs. cbn [mbind option_bind].
  set (a0 := mk_vacc _ _ _ _ _).
  destruct (validate_phdrs _ _ phs a0) as [rc|a] eqn:Hv.
  { left. exists rc. split; [done|]. by eapply validate_phdrs_inl. }
  assert (0 ≤ loads a0 ≤ 8) as Hl0 by (cbn; lia).
  destruct (validate_phdrs_inr _ _ _ _ _ HF Hl0 Hv) as (Hc & Hsp & Hl & H8 & He & Hi). cbn in Hl.
  destruct (Z.eqb_spec (loads a) 0); cbn [orb]; [left; by eexists|].
  destruct (entry_exec a) eqn:Ee; cbn [negb orb]; [|left; by eexists].
  destruct (Z.eqb_spec (min_vaddr a) MAX_U64); cbn [orb]; [left; by eexists|].
  destruct (Z.ltb_spec AEGIS_ELF_RUNTIME_IMAGE_MAX (u64 (max_vaddr a - min_vaddr a))); [left; by eexists|].
  right. eexists _, eh, phs. split; [done|]. change (min_vaddr a0, max_vaddr a0) with (MAX_U64, 0) in Hsp. fold (span phs) in Hsp.
  destruct (He eq_refl) as [?|Hex]; [done|].
  split; try done; [lia|by rewrite <-Hsp].
Qed.

(** * Loading *)

(** The end of the segment, rounded up to a page, is representable. *)
Definition no_wrap (ph : elf64_phdr) : Prop := p_vaddr ph + p_memsz ph + PAGE_SIZE - 1 < 2 ^ 64.

Lemma seg_bounds ph :
  phdr_ok ph → 0 ≤ seg_start ph ≤ p_vaddr ph ∧ 0 ≤ seg_end ph < 2 ^ 64 ∧
  (no_wrap ph → p_vaddr ph + p_memsz ph ≤ seg_end ph).
Proof.
  intros [_ Hv _ Hm]. unfold seg_start, seg_end, no_wrap. rewrite PAGE_ALIGN_DOWN_spec by done.
  rewrite land_page_mask by apply u64_range. unfold PAGE_SIZE. split_and!; [divlia|divlia| | |].
  - pose proof (u64_range (u64 (p_vaddr ph + p_memsz ph) + 4096 - 1)). set (x := u64 (_ + 4096 - 1)) in *. divlia.
  - pose proof (u64_range (u64 (p_vaddr ph + p_memsz ph) + 4096 - 1)). set (x := u64 (_ + 4096 - 1)) in *. divlia.
  - intros Hw. rewrite (u64_small (p_vaddr ph + p_memsz ph)), u64_small by lia. divlia.
Qed.

Lemma span_range phs r :
  Forall phdr_ok phs → 0 ≤ fst r → 0 ≤ snd r < 2 ^ 64 →
  0 ≤ fst (fold_left span_phdr phs r) ∧ 0 ≤ snd (fold_left span_phdr phs r) < 2 ^ 64.
Proof.
  revert r. induction phs as [|ph phs IH]; intros r HF H1 H2; [done|]. apply Forall_cons in HF as [Hok HF].
  cbn [fold_left]. pose proof (seg_bounds ph Hok) as (? & ? & _).
  apply IH; [done|..]; unfold span_phdr; destruct (_ =? PT_LOAD); cbn; try done; destruct (_ <? _); lia.
Qed.

(** The byte at offset [j] of the runtime image: that of the last segment whose
    file part covers it, zero if there is none. *)
Definition file_offset (min_v : Z) (ph : elf64_phdr) (j : Z) : option Z :=
  let off := p_vaddr ph - min_v in
  if (p_type ph =? PT_LOAD) && (off <=? j) && (j <? off + p_filesz ph) then Some (p_offset ph + (j - off)) else None.
Definition load_byte (img : list Z) (min_v j : Z) (b : Z) (ph : elf64_phdr) : Z :=
  match file_offset min_v ph j with
  | Some o => nth (Z.to_nat o) img 0
  | None => b
  end.
Definition loaded_byte (img : list Z) (min_v : Z) (phs : list elf64_phdr) (j : Z) : Z :=
  fold_left (load_byte img min_v j) phs 0.

Definition loader_segment (image_addr : Z) (min_v : Z) (ph : elf64_phdr) : runtime_segment :=
  mk_seg (u64 (image_addr + (p_vaddr ph - min_v))) (p_memsz ph) (elf_flags_to_loader_flags (p_flags ph)).

Lemma copy_mem_spec dst off src soff n :
  0 ≤ off → 0 ≤ n → off + n ≤ Z.of_nat (length dst) → 0 ≤ soff → soff + n ≤ Z.of_nat (length src) →
  ∃ dst', copy_mem dst off src soff n = Some dst' ∧ length dst' = length dst ∧
    ∀ j, dst' !! j = if (off <=? Z.of_nat j) && (Z.of_nat j <? off + n)
                     then src !! Z.to_nat (soff + (Z.of_nat j - off)) else dst !! j.
Proof.
  intros. unfold copy_mem. destruct (Z.eqb_spec n 0) as [->|].
  { exists dst. split; [done|]. split; [done|]. intros j. destruct (Z.leb_spec off (Z.of_nat j)), (Z.ltb_spec (Z.of_nat j) (off + 0)); done || lia. }
  rewrite !(proj2 (Z.leb_le _ _)) by lia. cbn [andb]. eexists. split; [done|].
  assert (Hl1 : length (take (Z.to_nat off) dst) = Z.to_nat off) by (rewrite length_take; lia).
  assert (Hl2 : length (take (Z.to_nat n) (drop (Z.to_nat soff) src)) = Z.to_nat n) by (rewrite length_take, length_drop; lia).
  split; [rewrite !length_app, Hl1, Hl2, length_drop; lia|]. intros j.
  destruct (Z.leb_spec off (Z.of_nat j)); cbn [andb].
  - rewrite lookup_app_r, Hl1 by lia. destruct (Z.ltb_spec (Z.of_nat j) (off + n)).
    + rewrite lookup_app_l, lookup_take_lt, lookup_drop by lia. f_equal. lia.
    + rewrite lookup_app_r, Hl2, lookup_drop by lia. f_equal. lia.
  - by rewrite lookup_app_l, lookup_take_lt by lia.
Qed.

Section copying.
Context (image_addr : Z → Z) (img : list Z) (slot_id min_v max_v : Z).
Context (Hspan : 0 ≤ min_v ∧ max_v - min_v ≤ AEGIS_ELF_RUNTIME_IMAGE_MAX) (Himg : Z.of_nat (length img) < 2 ^ 64).

(** A segment that passed validation, does not wrap and lies in the span. *)
Record seg_fits (ph : elf64_phdr) : Prop := {
  sf_ok : phdr_ok ph;
  sf_checked : seg_checked (Z.of_nat (length img)) ph;
  sf_wrap : no_wrap ph;
  sf_span : min_v ≤ seg_start ph ∧ seg_end ph ≤ max_v;
}.

Lemma copy_phdr_spec ph a :
  (is_load ph → seg_fits ph) → length (image_backing (c_slot a)) = Z.to_nat AEGIS_ELF_RUNTIME_IMAGE_MAX →
  (is_load ph → segment_count (c_slot a) < AEGIS_ELF_MAX_LOAD_SEGMENTS) →
  ∃ a', copy_phdr image_addr img slot_id min_v ph a = Some (AEGIS_OK, a') ∧
    length (image_backing (c_slot a')) = length (image_backing (c_slot a)) ∧
    segments (c_slot a') = segments (c_slot a) ++
      (if p_type ph =? PT_LOAD then [loader_segment (image_addr slot_id) min_v ph] else []) ∧
    (sl_used (c_slot a') = sl_used (c_slot a) ∧ stack_backing (c_slot a') = stack_backing (c_slot a)) ∧
    ∀ j b, image_backing (c_slot a) !! j = Some b →
      image_backing (c_slot a') !! j = Some (load_byte img min_v (Z.of_nat j) b ph).
Proof.
  intros Hfit Hlen Hcnt. unfold copy_phdr, load_byte, file_offset, is_load in *.
  destruct (Z.eqb_spec (p_type ph) PT_LOAD) as [E|E]; cbn [negb andb].
  2:{ exists a. rewrite app_nil_r. done. }
  destruct (Hfit E) as [Hok Hch Hw [Hlo Hhi]]. destruct (seg_bounds ph Hok) as (Hs & He & Hv).
  specialize (Hv Hw). specialize (Hcnt E). pose proof Hok as [O1 O2 O3 O4]. pose proof Hch as [[C1 C1'] C2 C3 C4].
  unfold AEGIS_ELF_RUNTIME_IMAGE_MAX in *. unfold no_wrap, PAGE_SIZE in Hw.
  rewrite (u64_small (p_offset ph + p_filesz ph)) by lia.
  rewrite (proj2 (Z.ltb_ge _ _)) by lia. rewrite (u64_small (p_vaddr ph - min_v)) by lia.
  rewrite (u64_small (p_vaddr ph - min_v + p_memsz ph)) by lia. rewrite (proj2 (Z.ltb_ge _ _)) by lia.
  destruct (copy_mem_spec (image_backing (c_slot a)) (p_vaddr ph - min_v) img (p_offset ph) (p_filesz ph))
    as (dst' & -> & Hl' & Hget); [lia..|]. cbn [mbind option_bind].
  rewrite (proj2 (Z.leb_gt _ _)) by lia. eexists. split; [done|]. split; [by cbn|]. split; [done|]. split; [done|].
  intros j b Hj. cbn. rewrite Hget.
  destruct (Z.leb_spec (p_vaddr ph - min_v) (Z.of_nat j)), (Z.ltb_spec (Z.of_nat j) (p_vaddr ph - min_v + p_filesz ph)); cbn; try done.
  destruct (lookup_lt_is_Some_2 img (Z.to_nat (p_offset ph + (Z.of_nat j - (p_vaddr ph - min_v))))) as [x Hx]; [lia|].
  rewrite Hx. by rewrite (nth_lookup_Some _ _ _ _ Hx).
Qed.

Lemma copy_phdrs_spec phs a :
  Forall (λ ph, is_load ph → seg_fits ph) phs →
  length (image_backing (c_slot a)) = Z.to_nat AEGIS_ELF_RUNTIME_IMAGE_MAX →
  segment_count (c_slot a) + load_count phs ≤ AEGIS_ELF_MAX_LOAD_SEGMENTS →
  ∃ a', copy_phdrs image_addr img slot_id min_v phs a = Some (AEGIS_OK, a') ∧
    length (image_backing (c_slot a')) = length (image_backing (c_slot a)) ∧
    segments (c_slot a') = segments (c_slot a) ++
      (loader_segment (image_addr slot_id) min_v <$> filter (λ ph, p_type ph = PT_LOAD) phs) ∧
    (sl_used (c_slot a') = sl_used (c_slot a) ∧ stack_backing (c_slot a') = stack_backing (c_slot a)) ∧
    ∀ j b, image_backing (c_slot a) !! j = Some b →
      image_backing (c_slot a') !! j = Some (fold_left (load_byte img min_v (Z.of_nat j)) phs b).
Proof.
  revert a. induction phs as [|ph phs IH]; intros a HF Hlen Hcnt; cbn [copy_phdrs fold_left].
  - exists a. by rewrite app_nil_r.
  - apply Forall_cons in HF as [Hph HF]. rewrite load_count_cons in Hcnt.
    assert (0 ≤ load_count phs) by (unfold load_count; lia).
    destruct (copy_phdr_spec ph a Hph Hlen) as (a1 & -> & L1 & S1 & [U1 K1] & B1).
    { intros E. rewrite (proj2 (Z.eqb_eq _ _) E) in Hcnt. cbv iota in Hcnt. lia. }
    cbn [mbind option_bind]. rewrite Z.eqb_refl.
    destruct (IH a1 HF) as (a2 & -> & L2 & S2 & [U2 K2] & B2); [congruence| |].
    { unfold segment_count in *. rewrite S1, length_app. destruct (p_type ph =? PT_LOAD); cbn [length]; lia. }
    exists a2. split; [done|]. split; [congruence|]. split.
    + rewrite S2, S1, filter_cons, <-app_assoc. f_equal.
      destruct (Z.eqb_spec (p_type ph) PT_LOAD); [by rewrite decide_True|by rewrite decide_False].
    + split; [split; congruence|]. intros j b Hj. by apply B2, B1.
Qed.
End copying.

(** Copying an accepted image into a slot. *)
Lemma copy_executable_ok image_addr stack_addr img slot_id slot info eh phs :
  Z.of_nat (length img) < 2 ^ 64 → accepted_image img info eh phs → Forall (λ ph, is_load ph → no_wrap ph) phs →
  ∃ slot' info', copy_executable_pt_load image_addr stack_addr img slot_id slot info = Some (AEGIS_OK, slot', info') ∧
    sl_info slot' = info' ∧ sl_used slot' = sl_used slot ∧ stack_backing slot' = stack_backing slot ∧
    length (image_backing slot') = Z.to_nat AEGIS_ELF_RUNTIME_IMAGE_MAX ∧
    (∀ j, 0 ≤ j < AEGIS_ELF_RUNTIME_IMAGE_MAX →
       image_backing slot' !! Z.to_nat j = Some (loaded_byte img (fst (span phs)) phs j)) ∧
    segments slot' = loader_segment (image_addr slot_id) (fst (span phs)) <$> filter (λ ph, p_type ph = PT_LOAD) phs ∧
    runtime_entry info' = u64 (image_addr slot_id + (e_entry eh - fst (span phs))) ∧
    runtime_stack_base info' = stack_addr slot_id ∧ runtime_stack_size info' = AEGIS_USER_STACK_SIZE ∧
    runtime_slot info' = slot_id.
Proof.
  intros Himg [Heh Hphs Hok Hch Hcnt [Hmin Hspan] [Hent _] [Hva Hlo]] Hw. unfold copy_executable_pt_load.
  rewrite Hva, Hlo, Heh. cbn [negb orb mbind option_bind]. rewrite Hphs. cbn [mbind option_bind].
  pose proof (span_fold phs (MAX_U64, 0)) as (_ & _ & Hcov). fold (span phs) in Hcov.
  pose proof (span_range phs (MAX_U64, 0) Hok ltac:(done) ltac:(done)) as [Hr1 Hr2]. fold (span phs) in Hr1, Hr2.
  assert (Hle : fst (span phs) ≤ MAX_U64) by (apply (span_fold phs (MAX_U64, 0))).
  destruct (span phs) as [min_v max_v]. cbn [fst snd] in *.
  rewrite (proj2 (Z.eqb_neq min_v MAX_U64)) by done. rewrite (proj2 (Z.ltb_ge _ _)) by done. cbn [orb].
  assert (Hmm : max_v - min_v ≤ AEGIS_ELF_RUNTIME_IMAGE_MAX).
  { unfold u64, AEGIS_ELF_RUNTIME_IMAGE_MAX in *. destruct (decide (max_v < min_v)); [lia|].
    rewrite Z.mod_small in Hspan by (unfold MAX_U64 in *; lia). done. }
  set (slot0 := slot <| image_backing := zero_image |> <| segments := [] |>).
  destruct (copy_phdrs_spec image_addr img slot_id min_v max_v (conj Hr1 Hmm) Himg phs (mk_cacc slot0 0 0))
    as (a' & -> & Hlen & Hseg & [Hu Hst] & Hb).
  - rewrite Forall_forall in *. intros ph Hin Hload. split; auto.
  - exact zero_image_length.
  - unfold segment_count. cbn. unfold AEGIS_ELF_MAX_LOAD_SEGMENTS. lia.
  - cbn [mbind option_bind]. rewrite Z.eqb_refl. cbn [negb]. eexists _, _. split; [done|]. cbn [sl_info].
    rewrite <-Hent. split; [done|]. split; [exact Hu|]. split; [exact Hst|]. split; [by rewrite <-zero_image_length|].
    split; [|split; [exact Hseg|done]].
    intros j Hj. unfold loaded_byte. rewrite <-(Z2Nat.id j) at 2 by lia. apply Hb. by apply zero_image_lookup.
Qed.

(** * Theorems *)

(** Images as bytes: the built-in image and one with a hostile segment. *)
Fixpoint le_bytes (n : nat) (v : Z) : list Z :=
  match n with O => [] | S n => v mod 256 :: le_bytes n (v / 256) end.
Definition ehdr_bytes (eh : elf64_ehdr) : list Z :=
  e_ident eh ++ le_bytes 2 (e_type eh) ++ le_bytes 2 (e_machine eh) ++ le_bytes 4 (e_version eh) ++
  le_bytes 8 (e_entry eh) ++ le_bytes 8 (e_phoff eh) ++ le_bytes 8 0 ++ le_bytes 4 0 ++
  le_bytes 2 (e_ehsize eh) ++ le_bytes 2 (e_phentsize eh) ++ le_bytes 2 (e_phnum eh) ++
  le_bytes 2 0 ++ le_bytes 2 0 ++ le_bytes 2 0.
Definition phdr_bytes (ph : elf64_phdr) : list Z :=
  le_bytes 4 (p_type ph) ++ le_bytes 4 (p_flags ph) ++ le_bytes 8 (p_offset ph) ++ le_bytes 8 (p_vaddr ph) ++
  le_bytes 8 (p_paddr ph) ++ le_bytes 8 (p_filesz ph) ++ le_bytes 8 (p_memsz ph) ++ le_bytes 8 (p_align ph).

Definition AEGIS_USER_TEXT_BASE : Z := 0x400000.
Definition elf_ident : list Z := [0x7f; 69; 76; 70; ELFCLASS64; ELFDATA2LSB; EV_CURRENT; 0] ++ replicate 8 0.

Definition builtin_aegis_init_elf : list Z :=
  ehdr_bytes (mk_ehdr elf_ident ET_EXEC AEGIS_ELF_EM_AARCH64 EV_CURRENT AEGIS_USER_TEXT_BASE
                sizeof_ehdr sizeof_ehdr sizeof_phdr 1) ++
  phdr_bytes (mk_phdr PT_LOAD (Z.lor PF_R PF_X) (sizeof_ehdr + sizeof_phdr) AEGIS_USER_TEXT_BASE
                AEGIS_USER_TEXT_BASE 16 PAGE_SIZE PAGE_SIZE) ++
  [0xa9; 0x37; 0x00; 0x00; 0x54; 0x37; 0x00; 0x00; 0x50; 0x54; 0x4c; 0x44; 0x50; 0x45; 0x52; 0x4d].

Definition elf_loader_load_builtin_aegis_init (image_addr stack_addr : Z → Z) (s : elf_state)
    : option ((Z + elf_image_info) * elf_state) :=
  if negb (loader_initialised s) then Some (inl AEGIS_EINVAL, s)
  else
    '(r, s) ← load_image_into_runtime image_addr stack_addr builtin_aegis_init_elf (Some "/sbin/aegis-init"%string) s;
    match r with
    | inl rc => Some (inl rc, s)
    | inr tmp =>
        Some (inr tmp, s <| builtin_info := tmp |> <| builtin_runtime_slot := runtime_slot tmp |> <| builtin_ready := true |>)
    end.

Definition example_elf : elf_state :=
  elf_loader_init (mk_elf (replicate 16 (mk_slot false zero_info [] [] [])) zero_info false false false false 0).

(** Slots are 0x60000 bytes apart in these examples. *)
Definition example_image_addr (id : Z) : Z := 0x40100000 + id * 0x60000.
Definition example_stack_addr (id : Z) : Z := 0x40100000 + id * 0x60000 + 0x40000.

Lemma bytes_dec l : forallb (λ b, (0 <=? b) && (b <? 256)) l = true → bytes l.
Proof.
  intros E. apply Forall_forall. intros b Hb. rewrite forallb_forall in E. specialize (E b (proj1 (list_elem_of_In _ _) Hb)).
  apply andb_true_iff in E as [?%Z.leb_le ?%Z.ltb_lt]. lia.
Qed.





(** An image of 270176 bytes whose second segment is 2^64 - 1 bytes long in memory. *)
Definition wrapping_image : list Z :=
  ehdr_bytes (mk_ehdr elf_ident ET_EXEC AEGIS_ELF_EM_AARCH64 EV_CURRENT 0x1000 sizeof_ehdr sizeof_ehdr sizeof_phdr 2) ++
  phdr_bytes (mk_phdr PT_LOAD (Z.lor PF_R PF_X) 176 0x1000 0x1000 16 PAGE_SIZE PAGE_SIZE) ++
  phdr_bytes (mk_phdr PT_LOAD (Z.lor PF_R PF_W) 176 0x1002 0x1002 270000 (2 ^ 64 - 1) 1) ++
  replicate (Z.to_nat 270000) 0x41.

(** The hypothesis that no segment wraps is needed: there is an image that
    validation accepts and whose loading writes outside the slot's backing
    store, because the end of a segment is computed modulo 2^64 both in the
    validation and in the test that guards the copy. *)
Theorem load_image_into_runtime_wrap_overflow :
  (∃ info, elf_loader_validate_image (Some wrapping_image) None example_elf = Some (inr info)) ∧
  load_image_into_runtime example_image_addr example_stack_addr wrapping_image None example_elf = None.
Proof.
  split.
  - exists (match elf_loader_validate_image (Some wrapping_image) None example_elf with Some (inr i) => i | _ => zero_info end).
    vm_compute. reflexivity.
  - vm_compute. reflexivity.
Qed.
