(* ===== verification/DeviceTree.v ===== *)
(** The flattened device tree of the firmware: hal/arm64/device_tree.c,
    hal/include/device_tree.h.

    The blob is the readable memory from the address [base] of its header on; a
    pointer into it is an offset, and an access behind its end is a fault. The
    parser is a machine whose steps are the rounds of the main loop. The
    reference definition is a walk over the tree of nodes and properties; the
    parser is shown to compute it on every encoded tree, and its behaviour on
    arbitrary bytes is characterised. *)

From S2P Require Import Prelude.

Definition FDT_MAGIC : Z := 0xD00DFEED.
Definition FDT_BEGIN_NODE : Z := 1.
Definition FDT_END_NODE : Z := 2.
Definition FDT_PROP : Z := 3.
Definition FDT_NOP : Z := 4.
Definition FDT_END : Z := 9.
Definition FDT_MAX_DEPTH : Z := 32.
Definition FDT_HEADER : Z := 40.
Definition AEGIS_DTB_BOOTARGS_MAX : nat := 256.
Definition AEGIS_DTB_VIRTIO_MAX : nat := 16.

Record mmio_device := mk_mmio {
  mm_base : Z; mm_size : Z; mm_irq : Z; mm_device_id : Z; mm_present : bool;
}.
#[export] Instance mmio_device_eta : Eta mmio_device := λ d,
  mk_mmio (mm_base d) (mm_size d) (mm_irq d) (mm_device_id d) (mm_present d).

(** [bootargs] is the string before its terminator. *)
Record platform := mk_platform {
  pf_valid : bool; pf_total_size : Z;
  pf_memory_base : Z; pf_memory_size : Z; pf_uart_base : Z;
  pf_gic_dist_base : Z; pf_gic_cpu_base : Z; pf_rtc_base : Z;
  pf_pci_ecam_base : Z; pf_pci_ecam_size : Z; pf_pci_bus_start : Z; pf_pci_bus_end : Z;
  pf_bootargs : list Z; pf_virtio : list mmio_device; pf_virtio_count : Z;
}.
#[export] Instance platform_eta : Eta platform := λ p,
  mk_platform (pf_valid p) (pf_total_size p) (pf_memory_base p) (pf_memory_size p) (pf_uart_base p)
    (pf_gic_dist_base p) (pf_gic_cpu_base p) (pf_rtc_base p) (pf_pci_ecam_base p) (pf_pci_ecam_size p)
    (pf_pci_bus_start p) (pf_pci_bus_end p) (pf_bootargs p) (pf_virtio p) (pf_virtio_count p).
Definition zero_platform : platform :=
  mk_platform false 0 0 0 0 0 0 0 0 0 0 0 [] (replicate AEGIS_DTB_VIRTIO_MAX (mk_mmio 0 0 0 0 false)) 0.

Record fdt_node_state := mk_node {
  nd_is_memory : bool; nd_is_chosen : bool; nd_is_virtio_mmio : bool; nd_is_pl011 : bool;
  nd_is_gic : bool; nd_is_pl031 : bool; nd_is_pci_ecam : bool; nd_have_reg : bool;
  nd_reg_base : Z; nd_reg_size : Z; nd_irq : Z; nd_bus_start : Z; nd_bus_end : Z;
}.
#[export] Instance fdt_node_state_eta : Eta fdt_node_state := λ n,
  mk_node (nd_is_memory n) (nd_is_chosen n) (nd_is_virtio_mmio n) (nd_is_pl011 n) (nd_is_gic n)
    (nd_is_pl031 n) (nd_is_pci_ecam n) (nd_have_reg n) (nd_reg_base n) (nd_reg_size n) (nd_irq n)
    (nd_bus_start n) (nd_bus_end n).
Definition zero_node : fdt_node_state :=
  mk_node false false false false false false false false 0 0 0 0 0.

(** ** Access to the blob *)

Definition fdt_byte (blob : list Z) (o : Z) : option Z := if o <? 0 then None else blob !! Z.to_nat o.

Definition be32_load (blob : list Z) (o : Z) : option Z :=
  b0 ← fdt_byte blob o; b1 ← fdt_byte blob (o + 1); b2 ← fdt_byte blob (o + 2); b3 ← fdt_byte blob (o + 3);
  Some (Z.lor (Z.lor (Z.lor (Z.shiftl b0 24) (Z.shiftl b1 16)) (Z.shiftl b2 8)) b3).

Definition be_cells (blob : list Z) (o cells : Z) : option Z :=
  let cells := if 2 <? cells then 2 else cells in
  if cells =? 0 then Some 0
  else
    v0 ← be32_load blob o;
    if cells =? 1 then Some v0
    else v1 ← be32_load blob (o + 4); Some (Z.lor (u64 (Z.shiftl v0 32)) v1).

Definition fdt_align4 (value : Z) : Z := Z.land (u32 (value + 3)) 0xFFFFFFFC.

(** The string at [o] against a literal. *)
Fixpoint bytes_equal (blob : list Z) (o : Z) (b : list Z) : option bool :=
  x ← fdt_byte blob o;
  match b with
  | [] => Some (x =? 0)
  | y :: b => if x =? 0 then Some false else if x =? y then bytes_equal blob (o + 1) b else Some false
  end.

(** The number of bytes before a terminator or before [room] is used up, in the
    memory [l]. *)
Fixpoint scan (l : list Z) (room : Z) : option Z :=
  if room <=? 0 then Some 0
  else match l with
       | [] => None
       | x :: l => if x =? 0 then Some 0 else option_map (λ n, n + 1) (scan l (room - 1))
       end.

Definition from_off (blob : list Z) (o : Z) : list Z := drop (Z.to_nat o) blob.

Fixpoint compatible_loop (fuel : nat) (blob : list Z) (value len off : Z) (needle : list Z) : option bool :=
  match fuel with
  | O => None
  | S fuel =>
      if negb (off <? len) then Some false
      else
        n ← scan (from_off blob (value + off)) (len - off);
        if len <=? off + n then Some false
        else
          e ← bytes_equal blob (value + off) needle;
          if (e : bool) then Some true else compatible_loop fuel blob value len (off + n + 1) needle
  end.

(** A round reads at least one byte of the blob, which bounds the rounds. *)
Definition compatible_has (blob : list Z) (value len : Z) (needle : string) : option bool :=
  compatible_loop (S (length blob)) blob value len 0 (bytes_of needle).

(** The string [copy_string] leaves in the array: at most [k] bytes. *)
Fixpoint copy_string (k : nat) (l : list Z) (len : Z) : option (list Z) :=
  match k with
  | O => Some []
  | S k =>
      if len <=? 0 then Some []
      else match l with
           | [] => None
           | x :: l => if x =? 0 then Some [] else option_map (cons x) (copy_string k l (len - 1))
           end
  end.

Definition range_valid (off len total : Z) : bool := (off <=? total) && (len <=? total - off).

(** The devices of which the platform has one, then those it has a table of. *)
Definition commit_single (node : fdt_node_state) (p : platform) : platform :=
  let p := if nd_is_memory node && nd_have_reg node && negb (nd_reg_size node =? 0) && (pf_memory_size p =? 0)
           then p <| pf_memory_base := nd_reg_base node |> <| pf_memory_size := nd_reg_size node |> else p in
  let p := if nd_is_pl011 node && nd_have_reg node && (pf_uart_base p =? 0)
           then p <| pf_uart_base := nd_reg_base node |> else p in
  let p := if nd_is_gic node && nd_have_reg node && (pf_gic_dist_base p =? 0)
           then p <| pf_gic_dist_base := nd_reg_base node |>
                  <| pf_gic_cpu_base := u64 (nd_reg_base node + 0x10000) |> else p in
  let p := if nd_is_pl031 node && nd_have_reg node && (pf_rtc_base p =? 0)
           then p <| pf_rtc_base := nd_reg_base node |> else p in
  if nd_is_pci_ecam node && nd_have_reg node && (pf_pci_ecam_base p =? 0)
  then p <| pf_pci_ecam_base := nd_reg_base node |> <| pf_pci_ecam_size := nd_reg_size node |>
         <| pf_pci_bus_start := nd_bus_start node |> <| pf_pci_bus_end := nd_bus_end node |> else p.

Definition commit_node (node : fdt_node_state) (p : platform) : platform :=
  let p := commit_single node p in
  if nd_is_virtio_mmio node && nd_have_reg node && (pf_virtio_count p <? Z.of_nat AEGIS_DTB_VIRTIO_MAX)
  then p <| pf_virtio ::= alter (λ d, d <| mm_base := nd_reg_base node |> <| mm_size := nd_reg_size node |>
                                        <| mm_irq := nd_irq node |> <| mm_present := true |>)
                            (Z.to_nat (pf_virtio_count p)) |>
         <| pf_virtio_count := u32 (pf_virtio_count p + 1) |>
  else p.

(** ** The main loop *)

Record pstate := mk_ps {
  ps_sp : Z; ps_depth : Z; ps_stack : list fdt_node_state;
  ps_addr_cells : Z; ps_size_cells : Z; ps_platform : platform;
}.
#[export] Instance pstate_eta : Eta pstate := λ s,
  mk_ps (ps_sp s) (ps_depth s) (ps_stack s) (ps_addr_cells s) (ps_size_cells s) (ps_platform s).

(** A run of the parser: a return with the platform, an access behind the blob,
    or not finished with the given number of rounds. *)
Inductive fdt_outcome :=
| Returned (rc : Z) (p : platform)
| Faulted
| Running.

Inductive fdt_step :=
| Next (s : pstate)
| Ret (rc : Z)
| Fault.

Definition or_fault {A} (x : option A) (k : A → fdt_step) : fdt_step :=
  match x with Some a => k a | None => Fault end.
Notation "x ⇐ y ; z" := (or_fault y (λ x, z)) (at level 100, y at level 99, z at level 200, right associativity).

Section parser.
Context (base : Z) (blob : list Z).

(** Alignment of a pointer, which depends on the address of the blob. *)
Definition align_ptr (o : Z) : Z := Z.land (u64 (base + o + 3)) (2 ^ 64 - 4) - base.

Definition begin_node (send : Z) (s : pstate) : fdt_step :=
  if FDT_MAX_DEPTH <=? ps_depth s then Ret AEGIS_ENOMEM
  else
    let name := ps_sp s in
    n ⇐ scan (from_off blob name) (send - name);
    let sp := name + n in
    if send <=? sp then Ret AEGIS_EINVAL
    else
      let sp := align_ptr (sp + 1) in
      if send <? sp then Ret AEGIS_EINVAL
      else
        chosen ⇐ (if ps_depth s =? 1 then bytes_equal blob name (bytes_of "chosen") else Some false);
        Next (s <| ps_sp := sp |> <| ps_depth := ps_depth s + 1 |>
                <| ps_stack ::= <[Z.to_nat (ps_depth s) := zero_node <| nd_is_chosen := chosen |>]> |>).

Definition end_node (s : pstate) : fdt_step :=
  if ps_depth s =? 0 then Ret AEGIS_EINVAL
  else
    let depth := ps_depth s - 1 in
    node ⇐ ps_stack s !! Z.to_nat depth;
    Next (s <| ps_depth := depth |> <| ps_platform ::= commit_node node |>).

(** [node->f = v] for the innermost open node. *)
Definition set_node (f : fdt_node_state → fdt_node_state) (s : pstate) : pstate :=
  s <| ps_stack ::= alter f (Z.to_nat (ps_depth s - 1)) |>.

(** The chain of property names; the pointer moves on afterwards. *)
Definition property (prop value len : Z) (s : pstate) : option pstate :=
  let named name := bytes_equal blob prop (bytes_of name) in
  let has name := compatible_has blob value len name in
  acells ← (if ps_depth s =? 1 then named "#address-cells" else Some false);
  if acells && (4 <=? len) then v ← be32_load blob value; Some (s <| ps_addr_cells := v |>)
  else
  scells ← (if ps_depth s =? 1 then named "#size-cells" else Some false);
  if scells && (4 <=? len) then v ← be32_load blob value; Some (s <| ps_size_cells := v |>)
  else
  devtype ← named "device_type";
  memory ← (if devtype && (7 <=? len) then bytes_equal blob value (bytes_of "memory") else Some false);
  if (memory : bool) then Some (set_node (λ n, n <| nd_is_memory := true |>) s)
  else
  compatible ← named "compatible";
  if (compatible : bool) then
    virtio ← has "virtio,mmio";
    pl011 ← has "arm,pl011";
    a15 ← has "arm,cortex-a15-gic";
    gic ← (if (a15 : bool) then Some true else has "arm,gic-400");
    pl031 ← has "arm,pl031";
    ecam ← has "pci-host-ecam-generic";
    Some (set_node (λ n, n <| nd_is_virtio_mmio := virtio |> <| nd_is_pl011 := pl011 |> <| nd_is_gic := gic |>
                           <| nd_is_pl031 := pl031 |> <| nd_is_pci_ecam := ecam |>) s)
  else
  reg ← named "reg";
  if (reg : bool) then
    let need_cells := u32 (ps_addr_cells s + ps_size_cells s) in
    if negb (need_cells =? 0) && (u32 (need_cells * 4) <=? len) then
      b ← be_cells blob value (ps_addr_cells s);
      z ← be_cells blob (value + u32 (ps_addr_cells s * 4)) (ps_size_cells s);
      Some (set_node (λ n, n <| nd_reg_base := b |> <| nd_reg_size := z |> <| nd_have_reg := true |>) s)
    else Some s
  else
  interrupts ← named "interrupts";
  if interrupts && (12 <=? len) then
    type ← be32_load blob value;
    number ← be32_load blob (value + 4);
    Some (set_node (λ n, n <| nd_irq := u32 (number + (if type =? 0 then 32 else 16)) |>) s)
  else
  bus ← named "bus-range";
  if bus && (8 <=? len) then
    first ← be32_load blob value;
    last ← be32_load blob (value + 4);
    Some (set_node (λ n, n <| nd_bus_start := u8 first |> <| nd_bus_end := u8 last |>) s)
  else
  node ← ps_stack s !! Z.to_nat (ps_depth s - 1);
  args ← (if nd_is_chosen node then named "bootargs" else Some false);
  if (args : bool) then
    t ← copy_string (AEGIS_DTB_BOOTARGS_MAX - 1) (from_off blob value) len;
    Some (s <| ps_platform ::= λ p, p <| pf_bootargs := t |> |>)
  else Some s.

Definition prop_token (strings strings_len send : Z) (s : pstate) : fdt_step :=
  let sp := ps_sp s in
  if (ps_depth s =? 0) || (send <? sp + 8) then Ret AEGIS_EINVAL
  else
    len ⇐ be32_load blob sp;
    nameoff ⇐ be32_load blob (sp + 4);
    let sp := sp + 8 in
    if (strings_len <=? nameoff) || (send <? sp + fdt_align4 len) then Ret AEGIS_EINVAL
    else
      s ⇐ property (strings + nameoff) sp len s;
      Next (s <| ps_sp := sp + fdt_align4 len |>).

Definition fdt_round (strings strings_len send : Z) (s : pstate) : fdt_step :=
  if send <? ps_sp s + 4 then Ret AEGIS_EINVAL
  else
    token ⇐ be32_load blob (ps_sp s);
    let s := s <| ps_sp := ps_sp s + 4 |> in
    if token =? FDT_BEGIN_NODE then begin_node send s
    else if token =? FDT_END_NODE then end_node s
    else if token =? FDT_PROP then prop_token strings strings_len send s
    else if token =? FDT_NOP then Next s
    else if token =? FDT_END then (if negb (ps_depth s =? 0) then Ret AEGIS_EINVAL else Ret AEGIS_OK)
    else Ret AEGIS_EINVAL.

Fixpoint fdt_loop (fuel : nat) (strings strings_len send : Z) (s : pstate) : fdt_outcome :=
  match fuel with
  | O => Running
  | S fuel =>
      match fdt_round strings strings_len send s with
      | Next s => fdt_loop fuel strings strings_len send s
      | Ret rc => Returned rc (if rc =? AEGIS_OK then (ps_platform s) <| pf_valid := true |> else ps_platform s)
      | Fault => Faulted
      end
  end.

End parser.

(** [None] for a NULL pointer. A round of the loop moves the pointer by at least
    four bytes. *)
Definition device_tree_init (fdt : option (Z * list Z)) : fdt_outcome :=
  match fdt with
  | None => Returned AEGIS_EINVAL zero_platform
  | Some (base, blob) =>
      let load o k := match be32_load blob o with Some v => k v | None => Faulted end in
      load 0 (λ magic,
      if negb (magic =? FDT_MAGIC) then Returned AEGIS_EINVAL zero_platform
      else load 4 (λ total,
      if (total <? FDT_HEADER) || (16 * 1024 * 1024 <? total) then Returned AEGIS_EINVAL zero_platform
      else load 8 (λ struct_off, load 12 (λ strings_off, load 32 (λ strings_len, load 36 (λ struct_len,
      if negb (range_valid struct_off struct_len total) || negb (range_valid strings_off strings_len total)
      then Returned AEGIS_EINVAL zero_platform
      else
        fdt_loop base blob (S (Z.to_nat struct_len)) strings_off strings_len (struct_off + struct_len)
          (mk_ps struct_off 0 (replicate (Z.to_nat FDT_MAX_DEPTH) zero_node) 2 2
             (zero_platform <| pf_total_size := total |>))))))))
  end.

Definition device_tree_get_total_size (p : platform) : Z := if pf_valid p then pf_total_size p else 0.
Definition device_tree_virtio (index : Z) (p : platform) : option mmio_device :=
  if negb (pf_valid p) || (pf_virtio_count p <=? index) then None else pf_virtio p !! Z.to_nat index.
Definition device_tree_valid (p : platform) : bool := pf_valid p.

(** ** Arithmetic of the encoding *)

Definition fdt_bytes (l : list Z) : Prop := Forall (λ b, 0 ≤ b < 256) l.

Definition be_value (a b c d : Z) : Z := 16777216 * a + 65536 * b + 256 * c + d.

Lemma be_lor a b c d :
  0 ≤ a < 256 → 0 ≤ b < 256 → 0 ≤ c < 256 → 0 ≤ d < 256 →
  Z.lor (Z.lor (Z.lor (Z.shiftl a 24) (Z.shiftl b 16)) (Z.shiftl c 8)) d = be_value a b c d.
Proof.
  intros Ra Rb Rc Rd. unfold be_value.
  rewrite (Z.lor_comm _ d), (Z.lor_comm _ (Z.shiftl c 8)), (Z.lor_comm _ (Z.shiftl b 16)), !Z.lor_assoc.
  rewrite (lor_shift 8), (lor_shift 16), (lor_shift 24); lia.
Qed.

Lemma fdt_align4_spec v : 0 ≤ v → v + 3 < 2 ^ 32 → fdt_align4 v = (v + 3) / 4 * 4.
Proof.
  intros. unfold fdt_align4. rewrite (u32_small (v + 3)) by lia. apply (land_align 32 2); lia.
Qed.

Lemma land_align_nonneg v : 0 ≤ v < 2 ^ 32 → 0 ≤ fdt_align4 v.
Proof. intros. unfold fdt_align4. apply Z.land_nonneg. right. lia. Qed.

Lemma align_ptr_spec base o :
  0 ≤ base + o → base + o + 3 < 2 ^ 64 → align_ptr base o = (base + o + 3) / 4 * 4 - base.
Proof.
  intros. unfold align_ptr. rewrite u64_small by lia. f_equal. apply (land_align 64 2); lia.
Qed.

Section memory.
Context (blob : list Z) (Hb : fdt_bytes blob).
Notation size := (Z.of_nat (length blob)).

Lemma byte_at_Some o : 0 ≤ o < size → ∃ x, fdt_byte blob o = Some x ∧ 0 ≤ x < 256.
Proof.
  intros Ho. unfold fdt_byte. rewrite (proj2 (Z.ltb_ge _ _)) by lia.
  destruct (lookup_lt_is_Some_2 blob (Z.to_nat o)) as [x Hx]; [lia|]. rewrite Hx. exists x. split; [done|].
  by eapply (Forall_lookup_1 (λ b, 0 ≤ b < 256)).
Qed.

Lemma be32_load_Some o : 0 ≤ o → o + 4 ≤ size → ∃ v, be32_load blob o = Some v ∧ 0 ≤ v < 2 ^ 32.
Proof.
  intros Ho Hs. unfold be32_load.
  destruct (byte_at_Some o) as (a & -> & ?); [lia|]. destruct (byte_at_Some (o + 1)) as (b & -> & ?); [lia|].
  destruct (byte_at_Some (o + 2)) as (c & -> & ?); [lia|]. destruct (byte_at_Some (o + 3)) as (d & -> & ?); [lia|].
  cbn [mbind option_bind]. rewrite be_lor by lia. eexists. split; [done|]. unfold be_value. lia.
Qed.

Lemma be32_load_range o v : be32_load blob o = Some v → 0 ≤ o ∧ o + 4 ≤ size ∧ 0 ≤ v < 2 ^ 32.
Proof.
  intros E. assert (0 ≤ o ∧ o + 4 ≤ size) as [H1 H2].
  { unfold be32_load in E.
    destruct (fdt_byte blob o) as [a|] eqn:E0; [|done]. cbn [mbind option_bind] in E.
    destruct (fdt_byte blob (o + 1)); [|done]. cbn [mbind option_bind] in E.
    destruct (fdt_byte blob (o + 2)); [|done]. cbn [mbind option_bind] in E.
    destruct (fdt_byte blob (o + 3)) as [d|] eqn:E3; [|done].
    unfold fdt_byte in E0, E3. destruct (Z.ltb_spec o 0); [done|]. destruct (Z.ltb_spec (o + 3) 0); [done|].
    apply lookup_lt_Some in E3. lia. }
  destruct (be32_load_Some o) as (v' & E' & ?); [done..|]. split_and!; [done|done|..]; simplify_eq; lia.
Qed.

Lemma be_cells_Some o cells :
  0 ≤ cells → 0 ≤ o → o + 4 * Z.min cells 2 ≤ size → ∃ v, be_cells blob o cells = Some v.
Proof.
  intros Hc Ho Hs. unfold be_cells.
  assert ((if 2 <? cells then 2 else cells) = Z.min cells 2) as -> by (destruct (Z.ltb_spec 2 cells); lia).
  destruct (Z.eqb_spec (Z.min cells 2) 0); [by eexists|].
  destruct (be32_load_Some o) as (v & -> & _); [lia..|]. cbn [mbind option_bind].
  destruct (Z.eqb_spec (Z.min cells 2) 1); [by eexists|].
  destruct (be32_load_Some (o + 4)) as (v' & -> & _); [lia..|]. by eexists.
Qed.

(** A comparison stops at a terminator or at the end of the literal. *)
Lemma bytes_equal_literal o b : 0 ≤ o → o + Z.of_nat (length b) < size → ∃ r, bytes_equal blob o b = Some r.
Proof.
  revert o. induction b as [|y b IH]; intros o Ho Hs; cbn [bytes_equal].
  - destruct (byte_at_Some o) as (x & -> & _); [cbn in Hs; lia|]. by eexists.
  - cbn [length] in Hs. destruct (byte_at_Some o) as (x & -> & _); [lia|]. cbn [mbind option_bind].
    destruct (x =? 0); [by eexists|]. destruct (x =? y); [|by eexists]. apply IH; lia.
Qed.

Lemma bytes_equal_terminated o k b : 0 ≤ o → fdt_byte blob (o + Z.of_nat k) = Some 0 → ∃ r, bytes_equal blob o b = Some r.
Proof.
  intros Ho Hk. assert (o + Z.of_nat k < size) as Hlt.
  { unfold fdt_byte in Hk. destruct (Z.ltb_spec (o + Z.of_nat k) 0); [done|]. apply lookup_lt_Some in Hk. lia. }
  revert o k Ho Hk Hlt. induction b as [|y b IH]; intros o k Ho Hk Hlt; cbn [bytes_equal].
  - destruct (byte_at_Some o) as (x & -> & _); [lia|]. by eexists.
  - destruct (byte_at_Some o) as (x & Hx & _); [lia|]. rewrite Hx. cbn [mbind option_bind].
    destruct (Z.eqb_spec x 0); [by eexists|]. destruct (x =? y); [|by eexists].
    destruct k as [|k]; [rewrite Z.add_0_r in Hk; congruence|].
    apply (IH (o + 1) k); [lia| |lia]. by replace (o + 1 + Z.of_nat k) with (o + Z.of_nat (S k)) by lia.
Qed.

Lemma scan_Some l room : room ≤ Z.of_nat (length l) → ∃ n, scan l room = Some n ∧ 0 ≤ n ≤ Z.max room 0.
Proof.
  revert room. induction l as [|x l IH]; intros room Hr; cbn [scan]; destruct (Z.leb_spec room 0).
  1, 3: exists 0; split; [done|lia].
  - cbn in Hr. lia.
  - destruct (x =? 0); [exists 0; split; [done|lia]|]. cbn [length] in Hr.
    destruct (IH (room - 1)) as (n & -> & Hn); [lia|]. exists (n + 1). split; [done|]. lia.
Qed.

Lemma from_off_length o : 0 ≤ o → Z.of_nat (length (from_off blob o)) = Z.max (size - o) 0.
Proof. intros. unfold from_off. rewrite length_drop. lia. Qed.

Lemma copy_string_Some k l len :
  len ≤ Z.of_nat (length l) → ∃ t, copy_string k l len = Some t ∧ (length t ≤ k)%nat.
Proof.
  revert l len. induction k as [|k IH]; intros l len Hl; cbn [copy_string]; [by exists []|].
  destruct (Z.leb_spec len 0); [exists []; split; [done|cbn; lia]|]. destruct l as [|x l]; [cbn in Hl; lia|].
  destruct (x =? 0); [exists []; split; [done|cbn; lia]|]. cbn [length] in Hl.
  destruct (IH l (len - 1)) as (t & -> & Ht); [lia|]. exists (x :: t). split; [done|]. cbn. lia.
Qed.

Lemma scan_stop l room n :
  scan l room = Some n → 0 ≤ n ∧ (n < room → l !! Z.to_nat n = Some 0) ∧
  (∀ k x, Z.of_nat k < n → l !! k = Some x → x ≠ 0).
Proof.
  revert room n. induction l as [|x l IH]; intros room n; cbn [scan]; destruct (Z.leb_spec room 0).
  1, 3: intros [= <-]; split_and!; [lia|lia|intros; lia].
  - done.
  - destruct (Z.eqb_spec x 0) as [->|Hx]; [intros [= <-]; split_and!; [lia|done|intros; lia]|].
    destruct (scan l (room - 1)) as [m|] eqn:E; [|done]. intros [= <-]. destruct (IH _ _ E) as (Hm & Hz & Hnz).
    split_and!; [lia| |].
    + intros Hlt. replace (Z.to_nat (m + 1)) with (S (Z.to_nat m)) by lia. apply Hz. lia.
    + intros [|k] y Hk Hy; cbn in Hy; [congruence|]. eapply Hnz; [|exact Hy]. lia.
Qed.

Lemma byte_at_from_off o k : 0 ≤ o → fdt_byte blob (o + Z.of_nat k) = from_off blob o !! k.
Proof.
  intros Ho. unfold fdt_byte, from_off. rewrite (proj2 (Z.ltb_ge _ _)) by lia. rewrite lookup_drop. f_equal. lia.
Qed.

Lemma compatible_loop_Some fuel value len off needle :
  0 ≤ value → 0 ≤ off → value + len ≤ size → Z.max (len - off) 0 < Z.of_nat fuel →
  ∃ r, compatible_loop fuel blob value len off needle = Some r.
Proof.
  intros Hv. revert off. induction fuel as [|fuel IH]; intros off Ho Hs Hf; [lia|]. cbn [compatible_loop].
  destruct (Z.ltb_spec off len); cbn [negb]; [|by eexists].
  destruct (scan_Some (from_off blob (value + off)) (len - off)) as (n & E & Hn).
  { rewrite from_off_length; lia. }
  rewrite E. cbn [mbind option_bind]. destruct (Z.leb_spec len (off + n)); [by eexists|].
  destruct (scan_stop _ _ _ E) as (_ & Hz & _).
  destruct (bytes_equal_terminated (value + off) (Z.to_nat n) needle) as [r ->]; [lia| |].
  { rewrite byte_at_from_off by lia. apply Hz. lia. }
  cbn [mbind option_bind]. destruct r; [by eexists|]. apply IH; lia.
Qed.

Lemma compatible_has_Some value len needle :
  0 ≤ value → 0 ≤ len → value + len ≤ size → ∃ r, compatible_has blob value len needle = Some r.
Proof. intros. apply compatible_loop_Some; lia. Qed.

(** Where a property can lead out of the blob: a length that wraps when it is
    rounded up, numbers of cells whose sum wraps when it is counted in bytes, a
    name without terminator in the block of names. *)
Definition fragile (strings strings_len : Z) (s : pstate) : Prop :=
  ∃ len nameoff,
    be32_load blob (ps_sp s) = Some FDT_PROP ∧ be32_load blob (ps_sp s + 4) = Some len ∧
    be32_load blob (ps_sp s + 8) = Some nameoff ∧
    (2 ^ 32 - 3 ≤ len ∨ 2 ^ 30 ≤ ps_addr_cells s + ps_size_cells s ∨
     ∀ k, nameoff ≤ Z.of_nat k < strings_len → fdt_byte blob (strings + Z.of_nat k) ≠ Some 0).

(** ** Invariant of the parser *)

Record ps_inv (s : pstate) : Prop := {
  pi_sp : 0 ≤ ps_sp s;
  pi_depth : 0 ≤ ps_depth s ≤ FDT_MAX_DEPTH;
  pi_stack : length (ps_stack s) = Z.to_nat FDT_MAX_DEPTH;
  pi_cells : 0 ≤ ps_addr_cells s < 2 ^ 32 ∧ 0 ≤ ps_size_cells s < 2 ^ 32;
  pi_count : 0 ≤ pf_virtio_count (ps_platform s) ≤ Z.of_nat AEGIS_DTB_VIRTIO_MAX;
  pi_virtio : length (pf_virtio (ps_platform s)) = AEGIS_DTB_VIRTIO_MAX;
  pi_bootargs : (length (pf_bootargs (ps_platform s)) < AEGIS_DTB_BOOTARGS_MAX)%nat;
}.

Lemma commit_node_inv node p :
  0 ≤ pf_virtio_count p ≤ Z.of_nat AEGIS_DTB_VIRTIO_MAX → length (pf_virtio p) = AEGIS_DTB_VIRTIO_MAX →
  0 ≤ pf_virtio_count (commit_node node p) ≤ Z.of_nat AEGIS_DTB_VIRTIO_MAX ∧
  length (pf_virtio (commit_node node p)) = AEGIS_DTB_VIRTIO_MAX ∧
  pf_bootargs (commit_node node p) = pf_bootargs p.
Proof.
  intros Hc Hl. unfold commit_node. cbv zeta.
  assert (pf_virtio_count (commit_single node p) = pf_virtio_count p ∧ pf_virtio (commit_single node p) = pf_virtio p ∧
          pf_bootargs (commit_single node p) = pf_bootargs p) as (E1 & E2 & E3).
  { unfold commit_single. repeat (case_match; try done). }
  destruct (_ && _ && _) eqn:E; [|rewrite E1, E2, E3; done]. cbn. rewrite length_alter, E1, E2, E3.
  apply andb_prop in E as [_ E%Z.ltb_lt]. rewrite E1 in E. split_and!; [apply u32_range| |done|done].
  unfold AEGIS_DTB_VIRTIO_MAX in *. rewrite u32_small; lia.
Qed.

Lemma set_node_inv f s : ps_inv s → ps_inv (set_node f s).
Proof. intros []. split; cbn; try done. by rewrite length_alter. Qed.

(** What a property leaves of the state. *)
Definition same_place (s s' : pstate) : Prop := ps_inv s' ∧ ps_sp s' = ps_sp s ∧ ps_depth s' = ps_depth s.

Lemma set_node_same f s : ps_inv s → same_place s (set_node f s).
Proof. intros Hs. split; [by apply set_node_inv|done]. Qed.

Lemma same_place_refl s : ps_inv s → same_place s s.
Proof. by split. Qed.

Ltac got H r := destruct H as [r ->]; cbn [mbind option_bind].

(** The words of a property value. *)
Lemma value_word value len : 0 ≤ value → value + len ≤ size →
  (4 ≤ len → ∃ v, be32_load blob value = Some v ∧ 0 ≤ v < 2 ^ 32) ∧
  (8 ≤ len → ∃ v, be32_load blob (value + 4) = Some v).
Proof.
  intros Hv Hs. split; intros Hl; [apply be32_load_Some; lia|].
  destruct (be32_load_Some (value + 4)) as (v & -> & _); [lia..|]. by eexists.
Qed.

(** The two cell counts of a [reg] property. *)
Lemma reg_cells value len a z :
  0 ≤ value → value + len ≤ size → 0 ≤ a → 0 ≤ z → a + z < 2 ^ 30 → u32 (u32 (a + z) * 4) ≤ len →
  (∃ b, be_cells blob value a = Some b) ∧ (∃ b, be_cells blob (value + u32 (a * 4)) z = Some b).
Proof.
  intros Hv Hs Ha Hz Haz. rewrite (u32_small (a + z)), (u32_small (_ * 4)), (u32_small (a * 4)) by lia.
  intros Hl. split; apply be_cells_Some; lia.
Qed.

(** Takes one bind or conditional of a computation that has succeeded apart. *)
Ltac peel E :=
  match type of E with
  | (?x ≫= _) = Some _ => let H := fresh "Hval" in destruct x eqn:H; cbn [mbind option_bind] in E; [|discriminate E]
  | (if ?b then _ else _) = Some _ => destruct b
  end.

Lemma copy_string_length k l len t : copy_string k l len = Some t → (length t ≤ k)%nat.
Proof.
  revert l len t. induction k as [|k IH]; intros l len t; cbn [copy_string]; [by intros [= <-]|].
  destruct (len <=? 0); [intros [= <-]; cbn; lia|]. destruct l as [|x l]; [done|].
  destruct (x =? 0); [intros [= <-]; cbn; lia|]. destruct (copy_string k l _) as [r|] eqn:E; [|done].
  intros [= <-]. apply IH in E. cbn. lia.
Qed.

Lemma property_keeps prop value len s s' :
  ps_inv s → property blob prop value len s = Some s' → same_place s s'.
Proof.
  intros Hinv E. unfold property in E. repeat peel E; injection E as <-;
    try (by apply set_node_same); try (by apply same_place_refl).
  - apply be32_load_range in Hval0 as (_ & _ & ?). split; [|done]. destruct Hinv as [? ? ? [? ?] ? ? ?]. by split.
  - apply be32_load_range in Hval1 as (_ & _ & ?). split; [|done]. destruct Hinv as [? ? ? [? ?] ? ? ?]. by split.
  - split; [|done]. match goal with H : copy_string _ _ _ = Some _ |- _ => apply copy_string_length in H end.
    destruct Hinv. split; cbn; try done. unfold AEGIS_DTB_BOOTARGS_MAX in *. lia.
Qed.

Lemma property_Some prop value len s k :
  ps_inv s → 1 ≤ ps_depth s → 0 ≤ prop → fdt_byte blob (prop + Z.of_nat k) = Some 0 →
  0 ≤ value → 0 ≤ len → value + len ≤ size → ps_addr_cells s + ps_size_cells s < 2 ^ 30 →
  ∃ s', property blob prop value len s = Some s'.
Proof.
  intros Hinv Hd Hp Hk Hv Hlen Hs Hcells.
  assert (∀ b, ∃ r, bytes_equal blob prop b = Some r) as Hn by (intros b; by eapply bytes_equal_terminated).
  assert (∀ n, ∃ r, compatible_has blob value len n = Some r) as Hh by (intros n; by apply compatible_has_Some).
  assert (∀ (c : bool) b, ∃ r, (if c then bytes_equal blob prop b else Some false) = Some r) as Hif
    by (intros [] b; [apply Hn|by eexists]).
  destruct (value_word value len Hv Hs) as [Hw0 Hw4]. unfold property.
  got (Hif (ps_depth s =? 1) (bytes_of "#address-cells")) r1. destruct (r1 && (4 <=? len)) eqn:E1.
  { destruct Hw0 as (v & -> & _); [lia|]. by eexists. }
  got (Hif (ps_depth s =? 1) (bytes_of "#size-cells")) r2. destruct (r2 && (4 <=? len)) eqn:E2.
  { destruct Hw0 as (v & -> & _); [lia|]. by eexists. }
  got (Hn (bytes_of "device_type")) r3.
  assert (∃ r, (if r3 && (7 <=? len) then bytes_equal blob value (bytes_of "memory") else Some false) = Some r) as H4.
  { destruct (r3 && (7 <=? len)) eqn:E; [|by eexists]. apply bytes_equal_literal; [lia|]. cbn. lia. }
  got H4 r4. destruct r4; [by eexists|]. got (Hn (bytes_of "compatible")) r5. destruct r5.
  { got (Hh "virtio,mmio") h1. got (Hh "arm,pl011") h2. got (Hh "arm,cortex-a15-gic") a15.
    assert (∃ r, (if a15 then Some true else compatible_has blob value len "arm,gic-400") = Some r) as Hg
      by (destruct a15; [by eexists|apply Hh]).
    got Hg h3. got (Hh "arm,pl031") h4. got (Hh "pci-host-ecam-generic") h5. by eexists. }
  got (Hn (bytes_of "reg")) r6. destruct r6.
  { destruct (negb _ && _) eqn:E; [|by eexists]. apply andb_prop in E as [_ E%Z.leb_le]. destruct (pi_cells s Hinv).
    destruct (reg_cells value len (ps_addr_cells s) (ps_size_cells s)) as [Hcb Hcz]; [lia..|]. got Hcb b. got Hcz z. by eexists. }
  got (Hn (bytes_of "interrupts")) r7. destruct (r7 && (12 <=? len)) eqn:E7.
  { destruct Hw0 as (v & -> & _); [lia|]. destruct Hw4 as (v' & ->); [lia|]. by eexists. }
  got (Hn (bytes_of "bus-range")) r8. destruct (r8 && (8 <=? len)) eqn:E8.
  { destruct Hw0 as (v & -> & _); [lia|]. destruct Hw4 as (v' & ->); [lia|]. by eexists. }
  destruct (lookup_lt_is_Some_2 (ps_stack s) (Z.to_nat (ps_depth s - 1))) as [node ->].
  { rewrite (pi_stack s Hinv). pose proof (pi_depth s Hinv). lia. }
  cbn [mbind option_bind]. got (Hif (nd_is_chosen node) (bytes_of "bootargs")) r9. destruct r9; [|by eexists].
  destruct (copy_string_Some (AEGIS_DTB_BOOTARGS_MAX - 1) (from_off blob value) len) as (t & -> & Ht).
  { rewrite from_off_length; lia. }
  by eexists.
Qed.
(** ** The rounds *)

Context (base strings strings_len send : Z).
Context (Hbase : 0 ≤ base) (Haddr : base + size + 4 < 2 ^ 64) (Hsend : send ≤ size).
Context (Hstr : 0 ≤ strings).
Notation round := (fdt_round base blob strings strings_len send).

(** A round makes progress, or the parser returns, or the property is fragile. *)
Definition round_ok (s : pstate) : Prop :=
  match round s with
  | Next s' => ps_inv s' ∧ ps_sp s + 4 ≤ ps_sp s' ∧ ps_sp s + 4 ≤ send
  | Ret _ => True
  | Fault => fragile strings strings_len s
  end.

Lemma begin_node_ok s :
  ps_inv s → ps_sp s ≤ send →
  match begin_node base blob send s with Next s' => ps_inv s' ∧ ps_sp s ≤ ps_sp s' | Ret _ => True | Fault => False end.
Proof.
  intros Hinv Hsp. pose proof (pi_sp s Hinv). unfold begin_node. destruct (Z.leb_spec FDT_MAX_DEPTH (ps_depth s)); [done|].
  destruct (scan_Some (from_off blob (ps_sp s)) (send - ps_sp s)) as (n & E & Hn).
  { rewrite from_off_length; lia. }
  rewrite E. cbn [or_fault]. destruct (Z.leb_spec send (ps_sp s + n)); [done|].
  rewrite align_ptr_spec by lia. destruct (Z.ltb_spec send ((base + (ps_sp s + n + 1) + 3) / 4 * 4 - base)); [done|].
  assert (∃ r, (if ps_depth s =? 1 then bytes_equal blob (ps_sp s) (bytes_of "chosen") else Some false) = Some r) as [r ->].
  { destruct (ps_depth s =? 1); [|by eexists]. apply (bytes_equal_terminated _ (Z.to_nat n)); [done|].
    rewrite byte_at_from_off by done. apply (scan_stop _ _ _ E). lia. }
  cbn [or_fault]. split; [|cbn; divlia]. destruct Hinv. split; cbn; try done; [divlia|lia|]. by rewrite length_insert.
Qed.

Lemma end_node_ok s :
  ps_inv s → match end_node s with Next s' => ps_inv s' ∧ ps_sp s' = ps_sp s | Ret _ => True | Fault => False end.
Proof.
  intros Hinv. pose proof (pi_depth s Hinv) as Hd. unfold end_node.
  destruct (Z.eqb_spec (ps_depth s) 0); [done|].
  destruct (lookup_lt_is_Some_2 (ps_stack s) (Z.to_nat (ps_depth s - 1))) as [node ->]; [rewrite (pi_stack s Hinv); lia|].
  cbn [or_fault]. split; [|done]. destruct Hinv as [? ? ? ? Hc Hv Hba].
  destruct (commit_node_inv node (ps_platform s) Hc Hv) as (Hc' & Hv' & Hba').
  split; cbn -[commit_node]; try done; [lia|]. by rewrite Hba'.
Qed.

Lemma fdt_round_ok s : ps_inv s → round_ok s.
Proof.
  intros Hinv. unfold round_ok, fdt_round. pose proof (pi_sp s Hinv) as Hsp.
  destruct (Z.ltb_spec send (ps_sp s + 4)); [done|].
  destruct (be32_load_Some (ps_sp s)) as (token & Et & _); [lia..|]. rewrite Et. cbn [or_fault].
  set (s1 := s <| ps_sp := ps_sp s + 4 |>).
  assert (ps_inv s1) as Hinv1 by (destruct Hinv; split; cbn; try done; lia).
  destruct (token =? FDT_BEGIN_NODE).
  { pose proof (begin_node_ok s1 Hinv1) as Hn. destruct (begin_node base blob send s1); [|done|destruct Hn; cbn; lia].
    destruct Hn as [? Hle]; [cbn; lia|]. split_and!; [done|cbn in Hle; lia|lia]. }
  destruct (token =? FDT_END_NODE).
  { pose proof (end_node_ok s1 Hinv1) as Hn. destruct (end_node s1) as [s'| |]; [|done|done].
    destruct Hn as [? ->]. split_and!; [done|cbn; lia|lia]. }
  destruct (Z.eqb_spec token FDT_PROP) as [->|].
  2: { destruct (token =? FDT_NOP); [split_and!; [done|cbn; lia|lia]|]. destruct (token =? FDT_END); [|done].
       by destruct (negb _). }
  unfold prop_token. change (ps_sp s1) with (ps_sp s + 4).
  destruct (Z.eqb_spec (ps_depth s1) 0); [done|]. cbn [orb]. destruct (Z.ltb_spec send (ps_sp s + 4 + 8)); [done|].
  destruct (be32_load_Some (ps_sp s + 4)) as (len & El & Hl); [lia..|]. rewrite El.
  destruct (be32_load_Some (ps_sp s + 4 + 4)) as (nameoff & Eo & Ho); [lia..|]. rewrite Eo. cbn [or_fault].
  destruct (Z.leb_spec strings_len nameoff); [done|]. cbn [orb].
  destruct (Z.ltb_spec send (ps_sp s + 4 + 8 + fdt_align4 len)) as [|Hin]; [done|].
  replace (ps_sp s + 4 + 4) with (ps_sp s + 8) in Eo by lia.
  destruct (property _ _ _ _ _) as [s'|] eqn:Ep; cbn [or_fault].
  - destruct (property_keeps _ _ _ _ _ Hinv1 Ep) as (Hinv' & Hsp' & _).
    pose proof (land_align_nonneg len Hl). destruct Hinv'. split_and!; [split; cbn; try done|cbn|]; lia.
  - exists len, nameoff. split_and!; [done..|].
    destruct (decide (2 ^ 32 - 3 ≤ len)); [by left|]. right.
    destruct (decide (2 ^ 30 ≤ ps_addr_cells s + ps_size_cells s)); [by left|]. right.
    intros k Hk Hz. assert (fdt_align4 len = (len + 3) / 4 * 4) as Ea by (apply fdt_align4_spec; lia).
    destruct (property_Some (strings + nameoff) (ps_sp s + 4 + 8) len s1 (k - Z.to_nat nameoff)) as [s' Es'];
      [done|pose proof (pi_depth s1 Hinv1); lia|lia| |cbn; lia|lia|divlia|cbn; lia|congruence].
    by replace (strings + nameoff + Z.of_nat (k - Z.to_nat nameoff)) with (strings + Z.of_nat k) by lia.
Qed.

(** The states at the head of the loop. *)
Inductive reaches (s0 : pstate) : pstate → Prop :=
| reaches_start : reaches s0 s0
| reaches_round s s' : reaches s0 s → round s = Next s' → reaches s0 s'.

Definition platform_bounded (p : platform) : Prop :=
  0 ≤ pf_virtio_count p ≤ Z.of_nat AEGIS_DTB_VIRTIO_MAX ∧
  (length (pf_bootargs p) < AEGIS_DTB_BOOTARGS_MAX)%nat.

Lemma fdt_loop_ok fuel s0 s :
  ps_inv s → reaches s0 s → Z.max (send - ps_sp s) 0 < Z.of_nat fuel →
  match fdt_loop base blob fuel strings strings_len send s with
  | Returned _ p => platform_bounded p
  | Faulted => ∃ s', reaches s0 s' ∧ fragile strings strings_len s'
  | Running => False
  end.
Proof.
  revert s. induction fuel as [|fuel IH]; intros s Hinv Hr Hf; [lia|]. cbn [fdt_loop].
  pose proof (fdt_round_ok s Hinv) as Hround. unfold round_ok in Hround.
  destruct (round s) as [s'|rc|] eqn:E.
  - destruct Hround as (Hinv' & Hp & Hle). apply IH; [done|by eapply reaches_round|lia].
  - destruct Hinv. by destruct (rc =? AEGIS_OK).
  - by exists s.
Qed.
End memory.

(** The fields of the header. *)
Record fdt_layout := mk_layout {
  fl_total : Z; fl_struct_off : Z; fl_struct_len : Z; fl_strings_off : Z; fl_strings_len : Z;
}.
Definition layout_of (blob : list Z) : option fdt_layout :=
  total ← be32_load blob 4; struct_off ← be32_load blob 8; strings_off ← be32_load blob 12;
  strings_len ← be32_load blob 32; struct_len ← be32_load blob 36;
  Some (mk_layout total struct_off struct_len strings_off strings_len).
Definition parser_start (l : fdt_layout) : pstate :=
  mk_ps (fl_struct_off l) 0 (replicate (Z.to_nat FDT_MAX_DEPTH) zero_node) 2 2
    (zero_platform <| pf_total_size := fl_total l |>).
Definition fdt_send (l : fdt_layout) : Z := fl_struct_off l + fl_struct_len l.

Lemma parser_start_inv l : 0 ≤ fl_struct_off l → ps_inv (parser_start l).
Proof. split; cbn; unfold FDT_MAX_DEPTH, AEGIS_DTB_BOOTARGS_MAX; try done; lia. Qed.

(** C20: on arbitrary bytes the parser of the device tree returns, with at most 16
    devices in the table and the boot arguments terminated within their array,
    unless it comes to a property with one of three defects: a length that wraps
    when it is rounded up to a word, root cell counts whose sum wraps when counted
    in bytes, or a name that has no terminator in the block of names. Only there
    can it read outside the blob. *)
Theorem device_tree_init_safe base blob total :
  fdt_bytes blob → 0 ≤ base → base + Z.of_nat (length blob) + 4 < 2 ^ 64 →
  FDT_HEADER ≤ Z.of_nat (length blob) → be32_load blob 4 = Some total → total ≤ Z.of_nat (length blob) →
  match device_tree_init (Some (base, blob)) with
  | Returned _ p => platform_bounded p
  | Faulted => ∃ l s, layout_of blob = Some l ∧
      reaches blob base (fl_strings_off l) (fl_strings_len l) (fdt_send l) (parser_start l) s ∧
      fragile blob (fl_strings_off l) (fl_strings_len l) s
  | Running => False
  end.
Proof.
  intros Hb Hbase Haddr Hlen Etot Htot. unfold FDT_HEADER in *.
  assert (∀ o, 0 ≤ o ≤ 36 → ∃ v, be32_load blob o = Some v ∧ 0 ≤ v < 2 ^ 32) as Hl
    by (intros o Ho; apply be32_load_Some; [done|lia..]).
  assert (platform_bounded zero_platform) as Hz by (split; cbn; unfold AEGIS_DTB_BOOTARGS_MAX; lia).
  unfold device_tree_init. destruct (Hl 0) as (magic & -> & _); [lia|].
  destruct (negb (magic =? FDT_MAGIC)); [done|]. rewrite Etot. destruct (_ || _); [done|].
  destruct (Hl 8) as (so & Eso & Hso), (Hl 12) as (sto & Esto & Hsto), (Hl 32) as (stl & Estl & Hstl),
    (Hl 36) as (sl & Esl & Hsl); [lia..|].
  rewrite Eso, Esto, Estl, Esl. destruct (negb _ || _) eqn:Hrange; [done|].
  apply orb_false_iff in Hrange as [H1%negb_false_iff H2%negb_false_iff]. unfold range_valid in *.
  apply andb_prop in H1 as [H1%Z.leb_le H1'%Z.leb_le], H2 as [H2%Z.leb_le H2'%Z.leb_le].
  pose (l := mk_layout total so sl sto stl).
  pose proof (fdt_loop_ok blob Hb base sto stl (so + sl) Hbase Haddr ltac:(lia) ltac:(lia)
    (S (Z.to_nat sl)) (parser_start l) (parser_start l) (parser_start_inv l ltac:(cbn; lia))
    (reaches_start _ _ _ _ _ _) ltac:(cbn; lia)) as Hloop.
  change (mk_ps so _ _ _ _ _) with (parser_start l).
  destruct (fdt_loop _ _ _ _ _ _ _); [done| |done]. destruct Hloop as (s & Hr & Hf).
  exists l, s. split; [|done]. unfold layout_of. by rewrite Etot, Eso, Esto, Estl, Esl.
Qed.

(** ** The tree and its meaning *)

(** A node with its name, its properties (name and value) and its children. *)
Inductive dtree := DNode (name : list Z) (props : list (list Z * list Z)) (children : list dtree).

Definition word (l : list Z) : Z :=
  match l with a :: b :: c :: d :: _ => be_value a b c d | _ => 0 end.

(** A number of at most two cells. *)
Definition cells_of (l : list Z) (n : Z) : Z :=
  if n =? 0 then 0 else if n =? 1 then word l else word l * 2 ^ 32 + word (drop 4 l).

(** The terminated strings of a list property; [acc] is the current one. *)
Fixpoint strings_of (l acc : list Z) : list (list Z) :=
  match l with
  | [] => []
  | x :: l => if x =? 0 then acc :: strings_of l [] else strings_of l (acc ++ [x])
  end.
Definition lists (value : list Z) (name : string) : bool := bool_decide (bytes_of name ∈ strings_of value []).

Fixpoint before_nul (l : list Z) : list Z :=
  match l with [] => [] | x :: l => if x =? 0 then [] else x :: before_nul l end.

Record walk := mk_walk { wk_node : fdt_node_state; wk_addr : Z; wk_size : Z; wk_platform : platform }.
#[export] Instance walk_eta : Eta walk := λ w, mk_walk (wk_node w) (wk_addr w) (wk_size w) (wk_platform w).

(** What one property of a node says; the root is at depth 1. *)
Definition prop_effect (depth : Z) (w : walk) (nv : list Z * list Z) : walk :=
  let '(name, value) := nv in
  let len := Z.of_nat (length value) in
  let named n := bool_decide (name = bytes_of n) in
  let node f := w <| wk_node ::= f |> in
  if (depth =? 1) && named "#address-cells" && (4 <=? len) then w <| wk_addr := word value |>
  else if (depth =? 1) && named "#size-cells" && (4 <=? len) then w <| wk_size := word value |>
  else if named "device_type" && (7 <=? len) && bool_decide (take 7 value = bytes_of "memory" ++ [0])
       then node (λ n, n <| nd_is_memory := true |>)
  else if named "compatible" then
    node (λ n, n <| nd_is_virtio_mmio := lists value "virtio,mmio" |> <| nd_is_pl011 := lists value "arm,pl011" |>
                 <| nd_is_gic := lists value "arm,cortex-a15-gic" || lists value "arm,gic-400" |>
                 <| nd_is_pl031 := lists value "arm,pl031" |>
                 <| nd_is_pci_ecam := lists value "pci-host-ecam-generic" |>)
  else if named "reg" then
    if negb (wk_addr w + wk_size w =? 0) && (4 * (wk_addr w + wk_size w) <=? len)
    then node (λ n, n <| nd_reg_base := cells_of value (wk_addr w) |>
                      <| nd_reg_size := cells_of (drop (Z.to_nat (4 * wk_addr w)) value) (wk_size w) |>
                      <| nd_have_reg := true |>)
    else w
  else if named "interrupts" && (12 <=? len) then
    node (λ n, n <| nd_irq := u32 (word (drop 4 value) + (if word value =? 0 then 32 else 16)) |>)
  else if named "bus-range" && (8 <=? len) then
    node (λ n, n <| nd_bus_start := u8 (word value) |> <| nd_bus_end := u8 (word (drop 4 value)) |>)
  else if nd_is_chosen (wk_node w) && named "bootargs" then
    w <| wk_platform ::= λ p, p <| pf_bootargs := take (AEGIS_DTB_BOOTARGS_MAX - 1) (before_nul value) |> |>
  else w.

(** The walk: the properties of a node, then its children, then the node itself.
    The state is the pair of root cell counts and the platform. *)
Fixpoint tree_effect (depth : Z) (t : dtree) (st : Z * Z * platform) : Z * Z * platform :=
  match t with
  | DNode name props children =>
      let '(a, z, p) := st in
      let w := foldl (prop_effect (depth + 1))
                 (mk_walk (zero_node <| nd_is_chosen := (depth =? 1) && bool_decide (name = bytes_of "chosen") |>) a z p)
                 props in
      let '(a, z, p) := foldl (λ st c, tree_effect (depth + 1) c st) (wk_addr w, wk_size w, wk_platform w) children in
      (a, z, commit_node (wk_node w) p)
  end.

Definition tree_platform (total : Z) (t : dtree) : platform :=
  (tree_effect 0 t (2, 2, zero_platform <| pf_total_size := total |>)).2.

(** ** The encoding *)

Definition be4 (v : Z) : list Z := [v / 16777216 mod 256; v / 65536 mod 256; v / 256 mod 256; v mod 256].
Definition pad4 (l : list Z) : list Z := l ++ replicate (Z.to_nat (- Z.of_nat (length l) mod 4)) 0.

Section encode.
Context (nameoff : list Z → Z).

Definition flat_prop (nv : list Z * list Z) : list Z :=
  be4 FDT_PROP ++ be4 (Z.of_nat (length nv.2)) ++ be4 (nameoff nv.1) ++ pad4 nv.2.

Fixpoint flat (t : dtree) : list Z :=
  match t with
  | DNode name props children =>
      be4 FDT_BEGIN_NODE ++ pad4 (name ++ [0]) ++ concat (map flat_prop props) ++ concat (map flat children) ++
      be4 FDT_END_NODE
  end.

(** A blob with the block of names [strs] behind the structure. *)
Definition fdt_encode (t : dtree) (strs : list Z) : list Z :=
  let struct := flat t ++ be4 FDT_END in
  let struct_len := Z.of_nat (length struct) in
  let strings_len := Z.of_nat (length strs) in
  be4 FDT_MAGIC ++ be4 (FDT_HEADER + struct_len + strings_len) ++ be4 FDT_HEADER ++ be4 (FDT_HEADER + struct_len) ++
  be4 FDT_HEADER ++ be4 17 ++ be4 16 ++ be4 0 ++ be4 strings_len ++ be4 struct_len ++ struct ++ strs.

(** A property that can be encoded: its name is in the block of names, and cell
    counts are small. *)
Definition is_string (l : list Z) : Prop := Forall (λ b, 0 < b < 256) l.
Definition prop_ok (strs : list Z) (nv : list Z * list Z) : Prop :=
  is_string nv.1 ∧ fdt_bytes nv.2 ∧ Z.of_nat (length nv.2) < 2 ^ 24 ∧
  0 ≤ nameoff nv.1 < Z.of_nat (length strs) ∧ (∃ r, drop (Z.to_nat (nameoff nv.1)) strs = nv.1 ++ 0 :: r) ∧
  (nv.1 = bytes_of "#address-cells" ∨ nv.1 = bytes_of "#size-cells" → word nv.2 < 2 ^ 29).

(** Trees of at most [h] levels. *)
Inductive tree_ok (strs : list Z) : nat → dtree → Prop :=
| tree_ok_node h name props children :
    is_string name → Forall (prop_ok strs) props → Forall (tree_ok strs h) children →
    tree_ok strs (S h) (DNode name props children).
End encode.

(** ** Decoding *)

Lemma be4_length v : length (be4 v) = 4%nat.
Proof. done. Qed.

Lemma pad4_length l : Z.of_nat (length (pad4 l)) = (Z.of_nat (length l) + 3) / 4 * 4.
Proof. unfold pad4. rewrite length_app, length_replicate. divlia. Qed.

Lemma be4_value v : 0 ≤ v < 2 ^ 32 → word (be4 v) = v.
Proof. intros. unfold word, be4, be_value. divlia. Qed.

Lemma be4_bytes v : fdt_bytes (be4 v).
Proof. unfold be4. repeat constructor; divlia. Qed.

Lemma two_cells v0 v1 :
  0 ≤ v0 < 2 ^ 32 → 0 ≤ v1 < 2 ^ 32 → Z.lor (u64 (Z.shiftl v0 32)) v1 = v0 * 2 ^ 32 + v1.
Proof.
  intros H0 H1. rewrite u64_small by (rewrite Z.shiftl_mul_pow2 by lia; lia).
  rewrite Z.lor_comm, (lor_shift 32) by lia. lia.
Qed.

(** A string literal has no terminator inside. *)
Ltac literal := unfold c_str; apply (bool_decide_unpack _); vm_compute; exact I.

Section decode.
Context (blob : list Z).

(** The bytes at an offset. *)
Definition holds (o : Z) (l : list Z) : Prop := 0 ≤ o ∧ ∃ r, from_off blob o = l ++ r.

Lemma holds_split o l1 l2 : holds o (l1 ++ l2) → holds o l1 ∧ holds (o + Z.of_nat (length l1)) l2.
Proof.
  intros [Ho [r E]]. rewrite <-app_assoc in E. split; split; [done|by eexists|lia|]. exists r. unfold from_off in *.
  replace (Z.to_nat (o + _)) with (Z.to_nat o + length l1)%nat by lia.
  by rewrite <-drop_drop, E, drop_app_length.
Qed.

Lemma holds_byte o x l : holds o (x :: l) → fdt_byte blob o = Some x.
Proof.
  intros [Ho [r E]]. pose proof (byte_at_from_off blob o 0 Ho) as Hb. rewrite Z.add_0_r in Hb. by rewrite Hb, E.
Qed.

Lemma holds_cons o x l : holds o (x :: l) → fdt_byte blob o = Some x ∧ holds (o + 1) l.
Proof. intros H. split; [by eapply holds_byte|]. by apply (holds_split o [x] l). Qed.

Lemma holds_word o l : fdt_bytes l → (4 ≤ length l)%nat → holds o l → be32_load blob o = Some (word l).
Proof.
  intros Hb Hl H. destruct l as [|a [|b [|c [|d l]]]]; try (cbn in Hl; lia).
  do 4 (apply Forall_cons in Hb as [? Hb]).
  apply holds_cons in H as [Ha H]. apply holds_cons in H as [Hb' H]. apply holds_cons in H as [Hc H].
  apply holds_byte in H. unfold be32_load. rewrite Ha, Hb'.
  replace (o + 2) with (o + 1 + 1) by lia. rewrite Hc. replace (o + 3) with (o + 1 + 1 + 1) by lia. rewrite H.
  cbn [mbind option_bind]. rewrite be_lor by done. done.
Qed.

Lemma holds_be4 o v : 0 ≤ v < 2 ^ 32 → holds o (be4 v) → be32_load blob o = Some v.
Proof. intros Hv H. rewrite (holds_word o (be4 v)), be4_value by (done || apply be4_bytes). done. Qed.

Lemma holds_drop o k l : holds o l → (k ≤ length l)%nat → holds (o + Z.of_nat k) (drop k l).
Proof.
  intros H Hk. rewrite <-(take_drop k l) in H. apply holds_split in H as [_ H].
  by rewrite length_take, Nat.min_l in H by done.
Qed.

Lemma fdt_bytes_drop k l : fdt_bytes l → fdt_bytes (drop k l).
Proof. apply Forall_drop. Qed.

Lemma word_range l : fdt_bytes l → 0 ≤ word l < 2 ^ 32.
Proof.
  intros Hb. destruct l as [|a [|b [|c [|d l]]]]; try (cbn; lia). do 4 (apply Forall_cons in Hb as [? Hb]).
  cbn. unfold be_value. lia.
Qed.

Lemma holds_cells o l n :
  fdt_bytes l → 0 ≤ n → 4 * Z.min n 2 ≤ Z.of_nat (length l) → holds o l → be_cells blob o n = Some (cells_of l n).
Proof.
  intros Hb Hn Hl H. unfold be_cells, cells_of.
  assert ((if 2 <? n then 2 else n) = Z.min n 2) as -> by (destruct (Z.ltb_spec 2 n); lia).
  destruct (Z.eqb_spec n 0) as [->|]; [done|]. rewrite (proj2 (Z.eqb_neq (Z.min n 2) 0)) by lia.
  rewrite (holds_word o l) by (done || lia). cbn [mbind option_bind].
  destruct (Z.eqb_spec n 1) as [->|]; [done|]. rewrite (proj2 (Z.eqb_neq (Z.min n 2) 1)) by lia.
  rewrite (holds_word (o + 4) (drop 4 l));
    [|by apply fdt_bytes_drop|rewrite length_drop; lia|apply (holds_drop o 4); [done|lia]].
  cbn [mbind option_bind]. f_equal. apply two_cells; apply word_range; [done|by apply fdt_bytes_drop].
Qed.

(** ** Strings of the blob *)

Lemma bytes_equal_spec o a b :
  Forall (λ x, x ≠ 0) a → Forall (λ x, x ≠ 0) b → holds o (a ++ [0]) →
  bytes_equal blob o b = Some (bool_decide (a = b)).
Proof.
  intros Ha. revert o b. induction Ha as [|x a Hx _ IH]; intros o b Hb H.
  - apply holds_byte in H. destruct Hb as [|y b Hy _]; cbn [bytes_equal]; rewrite H; cbn [mbind option_bind]; done.
  - apply holds_cons in H as [Hxo H]. destruct Hb as [|y b Hy Hb]; cbn [bytes_equal]; rewrite Hxo; cbn [mbind option_bind];
      rewrite (proj2 (Z.eqb_neq x 0)) by done; [done|].
    destruct (Z.eqb_spec x y) as [->|Hne].
    + rewrite IH by done. f_equal. apply bool_decide_ext. split; [by intros ->|by intros [= ->]].
    + rewrite bool_decide_false; [done|]. by intros [= -> ->].
Qed.

Lemma bytes_equal_prefix o l b :
  Forall (λ x, x ≠ 0) b → (length b < length l)%nat → holds o l →
  bytes_equal blob o b = Some (bool_decide (take (S (length b)) l = b ++ [0])).
Proof.
  intros Hb. revert o l. induction Hb as [|y b Hy _ IH]; intros o l Hl H; (destruct l as [|x l]; [cbn in Hl; lia|]);
    apply holds_cons in H as [Hx H]; cbn [bytes_equal]; rewrite Hx; cbn [mbind option_bind].
  - f_equal. apply eq_bool_prop_intro. rewrite bool_decide_spec, Is_true_true, Z.eqb_eq. cbn. split; [by intros ->|by intros [=]].
  - cbn [length] in *. destruct (Z.eqb_spec x 0) as [->|Hx0].
    { rewrite bool_decide_false; [done|]. cbn. intros E. injection E as E _. congruence. }
    destruct (Z.eqb_spec x y) as [->|Hne].
    + rewrite (IH (o + 1) l) by (done || lia). f_equal. apply bool_decide_ext. cbn [take app].
      split; [by intros ->|by intros [= ->]].
    + rewrite bool_decide_false; [done|]. cbn. intros E. injection E as E _. congruence.
Qed.

(** Scanning a range for a terminator. *)
Lemma scan_found a l room :
  Forall (λ x, x ≠ 0) a → Z.of_nat (length a) < room → scan (a ++ 0 :: l) room = Some (Z.of_nat (length a)).
Proof.
  intros Ha. revert room. induction Ha as [|x a Hx _ IH]; intros room Hr; cbn [app scan length] in *.
  - rewrite (proj2 (Z.leb_gt _ _)) by lia. done.
  - rewrite (proj2 (Z.leb_gt _ _)), (proj2 (Z.eqb_neq x 0)), IH by (done || lia). cbn. f_equal. lia.
Qed.

Lemma scan_missing a l : Forall (λ x, x ≠ 0) a → scan (a ++ l) (Z.of_nat (length a)) = Some (Z.of_nat (length a)).
Proof.
  intros Ha. induction Ha as [|x a Hx _ IH]; cbn [app length].
  - destruct l; done.
  - cbn [scan]. rewrite (proj2 (Z.leb_gt _ _)), (proj2 (Z.eqb_neq x 0)) by (done || lia).
    replace (Z.of_nat (S (length a)) - 1) with (Z.of_nat (length a)) by lia. rewrite IH. cbn. f_equal. lia.
Qed.

(** Every list has a terminated string at its front, or none. *)
Lemma first_string l :
  Forall (λ x, x ≠ 0) l ∨ ∃ a l', Forall (λ x, x ≠ 0) a ∧ l = a ++ 0 :: l'.
Proof.
  induction l as [|x l IH]; [by left|]. destruct (decide (x = 0)) as [->|Hx]; [right; by exists [], l|].
  destruct IH as [Hl|(a & l' & Ha & ->)]; [left; by constructor|]. right. exists (x :: a), l'. split; [by constructor|done].
Qed.

Lemma strings_of_cons acc a l : Forall (λ x, x ≠ 0) a → strings_of (a ++ 0 :: l) acc = (acc ++ a) :: strings_of l [].
Proof.
  intros Ha. revert acc. induction Ha as [|x a Hx _ IH]; intros acc; cbn [app strings_of].
  - by rewrite app_nil_r.
  - rewrite (proj2 (Z.eqb_neq x 0)), IH by done. by rewrite <-app_assoc.
Qed.

Lemma strings_of_none acc a : Forall (λ x, x ≠ 0) a → strings_of a acc = [].
Proof.
  intros Ha. revert acc. induction Ha as [|x a Hx _ IH]; intros acc; cbn [strings_of]; [done|].
  rewrite (proj2 (Z.eqb_neq x 0)), IH by done. done.
Qed.

Lemma compatible_loop_spec fuel value len off l needle :
  Forall (λ x, x ≠ 0) needle → 0 ≤ value → 0 ≤ off → holds (value + off) l → Z.of_nat (length l) = len - off →
  (length l < fuel)%nat →
  compatible_loop fuel blob value len off needle = Some (bool_decide (needle ∈ strings_of l [])).
Proof.
  intros Hn Hv. revert off l. induction fuel as [|fuel IH]; intros off l Ho H Hl Hf; [lia|]. cbn [compatible_loop].
  destruct (Z.ltb_spec off len); cbn [negb].
  2: { destruct l; [|cbn in Hl; lia]. done. }
  pose proof H as [_ [r Er]]. rewrite Er, <-Hl.
  destruct (first_string l) as [Hz|(a & l' & Ha & ->)].
  - rewrite scan_missing by done. cbn [mbind option_bind]. rewrite (proj2 (Z.leb_le _ _)) by lia.
    rewrite strings_of_none by done. rewrite bool_decide_false; [done|]. by intros ?%not_elem_of_nil.
  - rewrite length_app in *. cbn [length] in *. rewrite <-app_assoc. cbn [app].
    rewrite scan_found by (done || lia). cbn [mbind option_bind]. rewrite (proj2 (Z.leb_gt _ _)) by lia.
    rewrite strings_of_cons by done. cbn [app].
    rewrite (bytes_equal_spec (value + off) a needle).
    2, 3: done.
    2: { apply (holds_split _ (a ++ [0]) l'). by rewrite <-app_assoc. }
    cbn [mbind option_bind]. destruct (decide (a = needle)) as [->|Hne].
    + rewrite !bool_decide_true by (done || by left). done.
    + rewrite bool_decide_false by done.
      rewrite (IH (off + Z.of_nat (length a) + 1) l').
      * f_equal. apply bool_decide_ext. rewrite elem_of_cons. naive_solver.
      * lia.
      * change (a ++ 0 :: l') with (a ++ [0] ++ l') in H. rewrite app_assoc in H. apply holds_split in H as [_ H].
        rewrite length_app in H. cbn [length] in H.
        replace (value + (off + Z.of_nat (length a) + 1)) with (value + off + Z.of_nat (length a + 1)) by lia. done.
      * lia.
      * lia.
Qed.

Lemma copy_string_spec k l r :
  copy_string k (l ++ r) (Z.of_nat (length l)) = Some (take k (before_nul l)).
Proof.
  revert l. induction k as [|k IH]; intros l; cbn [copy_string]; [done|].
  destruct l as [|x l]; [done|]. cbn [length app before_nul]. rewrite (proj2 (Z.leb_gt _ _)) by lia.
  destruct (x =? 0); [done|]. replace (Z.of_nat (S (length l)) - 1) with (Z.of_nat (length l)) by lia.
  by rewrite IH.
Qed.

(** ** A property means what the walk says *)

(** The state of the parser as a state of the walk at the innermost open node. *)
Definition walk_of (node : fdt_node_state) (s : pstate) : walk :=
  mk_walk node (ps_addr_cells s) (ps_size_cells s) (ps_platform s).
Definition put (w : walk) (s : pstate) : pstate :=
  s <| ps_stack ::= <[Z.to_nat (ps_depth s - 1) := wk_node w]> |>
    <| ps_addr_cells := wk_addr w |> <| ps_size_cells := wk_size w |> <| ps_platform := wk_platform w |>.

Section property.
Context (s : pstate) (node : fdt_node_state).
Context (Hnode : ps_stack s !! Z.to_nat (ps_depth s - 1) = Some node).

Lemma put_same : put (walk_of node s) s = s.
Proof. destruct s; unfold put; cbn in *. f_equal. by apply list_insert_id. Qed.

Lemma put_node f : set_node f s = put ((walk_of node s) <| wk_node ::= f |>) s.
Proof.
  destruct s; unfold set_node, put; cbn in *. f_equal. apply list_eq. intros i.
  destruct (decide (i = Z.to_nat (ps_depth0 - 1))) as [->|Hne].
  - rewrite list_lookup_alter_eq, Hnode, list_lookup_insert_eq by (by eapply lookup_lt_Some). done.
  - by rewrite list_lookup_alter_ne, list_lookup_insert_ne.
Qed.

Lemma put_addr v : s <| ps_addr_cells := v |> = put ((walk_of node s) <| wk_addr := v |>) s.
Proof. destruct s; unfold put; cbn in *. f_equal. by rewrite list_insert_id. Qed.
Lemma put_size v : s <| ps_size_cells := v |> = put ((walk_of node s) <| wk_size := v |>) s.
Proof. destruct s; unfold put; cbn in *. f_equal. by rewrite list_insert_id. Qed.
Lemma put_platform f : s <| ps_platform ::= f |> = put ((walk_of node s) <| wk_platform ::= f |>) s.
Proof. destruct s; unfold put; cbn in *. f_equal. by rewrite list_insert_id. Qed.

Lemma memory_value value data (c : bool) :
  holds value data →
  (if c && (7 <=? Z.of_nat (length data)) then bytes_equal blob value (bytes_of "memory") else Some false) =
  Some (c && (7 <=? Z.of_nat (length data)) && bool_decide (take 7 data = bytes_of "memory" ++ [0])).
Proof.
  intros Hv. destruct (c && _) eqn:E; [|done]. cbn [andb].
  apply (bytes_equal_prefix value data (bytes_of "memory")); [literal|cbn; lia|done].
Qed.

Lemma reg_value value data a z (A : Type) (k : Z → Z → A) (d : option A) :
  holds value data → fdt_bytes data → Z.of_nat (length data) < 2 ^ 24 → 0 ≤ a < 2 ^ 29 → 0 ≤ z < 2 ^ 29 →
  (if negb (u32 (a + z) =? 0) && (u32 (u32 (a + z) * 4) <=? Z.of_nat (length data))
   then b ← be_cells blob value a; c ← be_cells blob (value + u32 (a * 4)) z; Some (k b c) else d) =
  (if negb (a + z =? 0) && (4 * (a + z) <=? Z.of_nat (length data))
   then Some (k (cells_of data a) (cells_of (drop (Z.to_nat (4 * a)) data) z)) else d).
Proof.
  intros Hv Hb Hl Ha Hz. rewrite (u32_small (a + z)), (u32_small (_ * 4)), (u32_small (a * 4)) by lia.
  rewrite (Z.mul_comm _ 4). destruct (negb _ && _) eqn:E; [|done].
  apply andb_prop in E as [_ E%Z.leb_le].
  rewrite (holds_cells value data a) by (done || lia). cbn [mbind option_bind].
  rewrite (holds_cells (value + a * 4) (drop (Z.to_nat (4 * a)) data) z); [done|by apply fdt_bytes_drop|lia| |].
  - rewrite length_drop. lia.
  - replace (value + a * 4) with (value + Z.of_nat (Z.to_nat (4 * a))) by lia. apply holds_drop; [done|lia].
Qed.

#[local] Opaque bytes_of.

Lemma property_spec prop value name data :
  holds prop (name ++ [0]) → Forall (λ x, x ≠ 0) name → holds value data → fdt_bytes data →
  Z.of_nat (length data) < 2 ^ 24 → 0 ≤ ps_addr_cells s < 2 ^ 29 → 0 ≤ ps_size_cells s < 2 ^ 29 →
  property blob prop value (Z.of_nat (length data)) s =
    Some (put (prop_effect (ps_depth s) (walk_of node s) (name, data)) s).
Proof.
  intros Hp Hname Hv Hb Hl Ha Hz.
  assert (∀ n, c_str n → bytes_equal blob prop (bytes_of n) = Some (bool_decide (name = bytes_of n))) as Hn
    by (intros n Hn; by apply bytes_equal_spec).
  assert (∀ n, c_str n → compatible_has blob value (Z.of_nat (length data)) n = Some (lists data n)) as Hh.
  { intros n Hn'. unfold compatible_has, lists. destruct Hv as [Hv0 [r Er]].
    apply (compatible_loop_spec _ value (Z.of_nat (length data)) 0 data); [done|done|lia| |lia|].
    - rewrite Z.add_0_r. split; [done|by exists r].
    - apply (f_equal length) in Er. rewrite length_app in Er. unfold from_off in Er. rewrite length_drop in Er. lia. }
  assert (∀ (c : bool) n, c_str n →
    (if c then bytes_equal blob prop (bytes_of n) else Some false) = Some (c && bool_decide (name = bytes_of n))) as Hif
    by (intros [] n Hn'; [by apply Hn|done]).
  assert (4 ≤ (Z.of_nat (length data)) → be32_load blob value = Some (word data)) as Hw0 by (intros; apply holds_word; [done|lia|done]).
  assert (8 ≤ (Z.of_nat (length data)) → be32_load blob (value + 4) = Some (word (drop 4 data))) as Hw4.
  { intros. apply holds_word; [by apply fdt_bytes_drop|rewrite length_drop; lia|]. apply (holds_drop value 4); [done|lia]. }
  unfold property, prop_effect. cbv zeta.
  rewrite (Hif (ps_depth s =? 1) "#address-cells") by literal. cbn [mbind option_bind].
  destruct ((ps_depth s =? 1) && bool_decide (name = bytes_of "#address-cells") && (4 <=? (Z.of_nat (length data)))) eqn:E1.
  { rewrite Hw0 by lia. cbn [mbind option_bind]. f_equal. apply put_addr. }
  rewrite (Hif (ps_depth s =? 1) "#size-cells") by literal. cbn [mbind option_bind].
  destruct ((ps_depth s =? 1) && bool_decide (name = bytes_of "#size-cells") && (4 <=? (Z.of_nat (length data)))) eqn:E2.
  { rewrite Hw0 by lia. cbn [mbind option_bind]. f_equal. apply put_size. }
  rewrite (Hn "device_type") by literal. cbn [mbind option_bind].
  rewrite (memory_value value data _ Hv). cbn [mbind option_bind].
  destruct (bool_decide (name = bytes_of "device_type") && _ && _); [f_equal; apply put_node|].
  rewrite (Hn "compatible") by literal. cbn [mbind option_bind]. destruct (bool_decide (name = bytes_of "compatible")).
  { rewrite (Hh "virtio,mmio"), (Hh "arm,pl011"), (Hh "arm,cortex-a15-gic"), (Hh "arm,gic-400"), (Hh "arm,pl031"),
      (Hh "pci-host-ecam-generic") by literal. cbn [mbind option_bind].
    destruct (lists data "arm,cortex-a15-gic"); cbn [orb mbind option_bind]; f_equal; apply put_node. }
  rewrite (Hn "reg") by literal. cbn [mbind option_bind]. destruct (bool_decide (name = bytes_of "reg")).
  { rewrite (reg_value value data _ _ _ _ _ Hv) by done. cbn [wk_addr wk_size walk_of].
    destruct (negb _ && _); f_equal; [apply put_node|symmetry; apply put_same]. }
  rewrite (Hn "interrupts") by literal. cbn [mbind option_bind].
  destruct (bool_decide (name = bytes_of "interrupts") && _) eqn:E7.
  { rewrite Hw0, Hw4 by lia. cbn [mbind option_bind]. f_equal. apply put_node. }
  rewrite (Hn "bus-range") by literal. cbn [mbind option_bind].
  destruct (bool_decide (name = bytes_of "bus-range") && _) eqn:E8.
  { rewrite Hw0, Hw4 by lia. cbn [mbind option_bind]. f_equal. apply put_node. }
  rewrite Hnode. cbn [mbind option_bind]. rewrite (Hif (nd_is_chosen node) "bootargs") by literal. cbn [mbind option_bind wk_node walk_of].
  destruct (nd_is_chosen node && _); [|f_equal; symmetry; apply put_same].
  destruct Hv as [_ [r ->]]. rewrite copy_string_spec. cbn [mbind option_bind]. f_equal. apply put_platform.
Qed.
#[local] Transparent bytes_of.
End property.
End decode.

(** ** The parser walks the tree *)

Section walk.
Context (base : Z) (blob : list Z) (strings send : Z) (nameoff : list Z → Z) (strs : list Z).
Context (Hbase : 0 ≤ base) (Haddr : base + send + 8 < 2 ^ 64).
Context (Hstrs : holds blob strings strs) (Hstrlen : Z.of_nat (length strs) < 2 ^ 32).
Notation strings_len := (Z.of_nat (length strs)).
Notation round := (fdt_round base blob strings strings_len send).
Notation loop := (fdt_loop base blob).

(** Some rounds lead from [s] to [s']. *)
Definition run (s s' : pstate) : Prop :=
  ∃ k, ∀ fuel, loop (k + fuel) strings strings_len send s = loop fuel strings strings_len send s'.

Lemma run_refl s : run s s.
Proof. by exists 0%nat. Qed.
Lemma run_trans s1 s2 s3 : run s1 s2 → run s2 s3 → run s1 s3.
Proof. intros [k1 H1] [k2 H2]. exists (k1 + k2)%nat. intros fuel. by rewrite <-Nat.add_assoc, H1, H2. Qed.
Lemma run_round s s' : round s = Next s' → run s s'.
Proof. intros E. exists 1%nat. intros fuel. cbn [fdt_loop Nat.add]. by rewrite E. Qed.

Lemma strings_nonzero l : is_string l → Forall (λ x, x ≠ 0) l.
Proof. intros Hl. eapply Forall_impl; [exact Hl|]. cbn. lia. Qed.

Lemma flat_prop_length nv :
  Z.of_nat (length (flat_prop nameoff nv)) = 12 + (Z.of_nat (length nv.2) + 3) / 4 * 4.
Proof. unfold flat_prop. rewrite !length_app, !be4_length. rewrite !Nat2Z.inj_add, pad4_length. lia. Qed.

(** The states in which the walk goes on. *)
Record walking (s : pstate) : Prop := {
  wg_depth : 0 ≤ ps_depth s ≤ FDT_MAX_DEPTH;
  wg_stack : length (ps_stack s) = Z.to_nat FDT_MAX_DEPTH;
  wg_addr : 0 ≤ ps_addr_cells s < 2 ^ 29;
  wg_size : 0 ≤ ps_size_cells s < 2 ^ 29;
}.

Lemma walking_sp s o : walking s → walking (s <| ps_sp := o |>).
Proof. by intros []. Qed.

Lemma prop_effect_cells d w nv :
  prop_ok nameoff strs nv → 0 ≤ wk_addr w < 2 ^ 29 → 0 ≤ wk_size w < 2 ^ 29 →
  0 ≤ wk_addr (prop_effect d w nv) < 2 ^ 29 ∧ 0 ≤ wk_size (prop_effect d w nv) < 2 ^ 29.
Proof.
  intros (_ & Hb & _ & _ & _ & Hc) Ha Hz. destruct nv as [name value]. cbn [fst snd] in *.
  pose proof (word_range value Hb). unfold prop_effect.
  destruct ((d =? 1) && bool_decide (name = bytes_of "#address-cells") && _) eqn:E1.
  { cbn. split; [|done]. rewrite !andb_true_iff, bool_decide_eq_true in E1. destruct E1 as [[_ ->] _].
    split; [lia|]. apply Hc. by left. }
  destruct ((d =? 1) && bool_decide (name = bytes_of "#size-cells") && _) eqn:E2.
  { cbn. split; [done|]. rewrite !andb_true_iff, bool_decide_eq_true in E2. destruct E2 as [[_ ->] _].
    split; [lia|]. apply Hc. by right. }
  repeat case_match; done.
Qed.

Lemma prop_round s node nv :
  walking s → 1 ≤ ps_depth s → ps_stack s !! Z.to_nat (ps_depth s - 1) = Some node → prop_ok nameoff strs nv →
  holds blob (ps_sp s) (flat_prop nameoff nv) → ps_sp s + Z.of_nat (length (flat_prop nameoff nv)) ≤ send →
  round s = Next ((put (prop_effect (ps_depth s) (walk_of node s) nv) s)
                    <| ps_sp := ps_sp s + Z.of_nat (length (flat_prop nameoff nv)) |>).
Proof.
  intros Hw Hd Hnode Hok H Hle. pose proof Hok as (Hn & Hb & Hl & Ho & (r & Hr) & _).
  rewrite flat_prop_length in *. destruct nv as [name value]. cbn [fst snd] in *.
  unfold flat_prop in H. cbn [fst snd] in H.
  apply holds_split in H as [Ht H]. apply holds_split in H as [Hlen H]. apply holds_split in H as [Hoff H].
  apply holds_split in H as [Hv _]. rewrite !be4_length in *.
  apply holds_be4 in Ht; [|unfold FDT_PROP; lia]. apply holds_be4 in Hlen; [|lia].
  pose proof Hstrs as [Hs0 _].
  apply holds_be4 in Hoff; [|lia]. change (Z.of_nat 4) with 4 in *.
  assert (holds blob (strings + nameoff name) (name ++ [0])) as Hname.
  { assert (holds blob (strings + nameoff name) (name ++ 0 :: r)) as Hnr.
    { rewrite <-Hr. replace (strings + nameoff name) with (strings + Z.of_nat (Z.to_nat (nameoff name))) by lia.
      apply holds_drop; [done|lia]. }
    change (name ++ 0 :: r) with (name ++ [0] ++ r) in Hnr. rewrite app_assoc in Hnr. by apply holds_split in Hnr as [? _]. }
  assert (fdt_align4 (Z.of_nat (length value)) = (Z.of_nat (length value) + 3) / 4 * 4) as Ha by (apply fdt_align4_spec; lia).
  assert (0 ≤ (Z.of_nat (length value) + 3) / 4) by (apply Z.div_pos; lia).
  unfold fdt_round. rewrite (proj2 (Z.ltb_ge send (ps_sp s + 4))) by lia. rewrite Ht. cbn [or_fault].
  change (FDT_PROP =? FDT_BEGIN_NODE) with false. change (FDT_PROP =? FDT_END_NODE) with false.
  change (FDT_PROP =? FDT_PROP) with true. cbv iota.
  unfold prop_token. set (s1 := s <| ps_sp := ps_sp s + 4 |>). change (ps_sp s1) with (ps_sp s + 4).
  change (ps_depth s1) with (ps_depth s). rewrite (proj2 (Z.eqb_neq (ps_depth s) 0)) by lia.
  rewrite (proj2 (Z.ltb_ge send (ps_sp s + 4 + 8))) by lia. rewrite Hlen, Hoff. cbn [orb or_fault].
  rewrite (proj2 (Z.leb_gt strings_len _)) by lia. rewrite (proj2 (Z.ltb_ge send _)) by lia. cbn [orb].
  replace (ps_sp s + 4 + 4 + 4) with (ps_sp s + 4 + 8) in Hv by lia.
  rewrite (property_spec blob s1 node Hnode (strings + nameoff name) (ps_sp s + 4 + 8) name value);
    [|done|by apply strings_nonzero|done..|apply Hw|apply Hw].
  cbn [or_fault]. rewrite Ha. f_equal. destruct s. unfold put, s1. cbn -[prop_effect]. f_equal. lia.
Qed.

(** The properties of the innermost open node. *)
Lemma props_run props s node :
  walking s → 1 ≤ ps_depth s → ps_stack s !! Z.to_nat (ps_depth s - 1) = Some node → Forall (prop_ok nameoff strs) props →
  holds blob (ps_sp s) (concat (map (flat_prop nameoff) props)) →
  ps_sp s + Z.of_nat (length (concat (map (flat_prop nameoff) props))) ≤ send →
  let w := foldl (prop_effect (ps_depth s)) (walk_of node s) props in
  let s' := (put w s) <| ps_sp := ps_sp s + Z.of_nat (length (concat (map (flat_prop nameoff) props))) |> in
  run s s' ∧ walking s'.
Proof.
  intros Hw Hd Hnode Hok. revert s node Hw Hd Hnode. induction Hok as [|nv props Hnv _ IH]; intros s node Hw Hd Hnode H Hle.
  - cbn [map concat foldl length]. rewrite Z.add_0_r, (put_same s node Hnode).
    replace (s <| ps_sp := ps_sp s |>) with s by (by destruct s). split; [apply run_refl|done].
  - cbn [map concat foldl] in *. apply holds_split in H as [H1 H2]. rewrite length_app, Nat2Z.inj_add in *.
    pose proof (prop_round s node nv Hw Hd Hnode Hnv H1 ltac:(lia)) as E.
    set (w1 := prop_effect (ps_depth s) (walk_of node s) nv) in *.
    set (s1 := (put w1 s) <| ps_sp := _ |>) in E.
    assert (walking s1) as Hw1.
    { destruct (prop_effect_cells (ps_depth s) (walk_of node s) nv Hnv) as [Hc1 Hc2]; [apply Hw|apply Hw|].
      destruct Hw. split; cbn -[prop_effect]; [done|by rewrite length_insert|done|done]. }
    destruct (IH s1 (wk_node w1) Hw1 Hd) as [Hrun Hw']; [|done| |].
    2: { change (ps_sp s1) with (ps_sp s + Z.of_nat (length (flat_prop nameoff nv))). lia. }
    { cbn. apply list_lookup_insert_eq. by eapply lookup_lt_Some. }
    change (ps_depth s1) with (ps_depth s) in *.
    assert (walk_of (wk_node w1) s1 = w1) as Hwalk by (by destruct w1). rewrite Hwalk in Hrun, Hw'.
    assert (∀ w, (put w s1) <| ps_sp := ps_sp s1 + Z.of_nat (length (concat (map (flat_prop nameoff) props))) |> =
              (put w s) <| ps_sp := ps_sp s + (Z.of_nat (length (flat_prop nameoff nv)) +
                 Z.of_nat (length (concat (map (flat_prop nameoff) props)))) |>) as Hput.
    { intros w. destruct s. unfold put, s1, put. cbn -[prop_effect]. f_equal; [lia|]. by rewrite list_insert_insert_eq. }
    rewrite Hput in Hrun, Hw'. split; [|done]. eapply run_trans; [by apply run_round|done].
Qed.

Lemma begin_round s name :
  walking s → ps_depth s < FDT_MAX_DEPTH → is_string name → (base + ps_sp s) mod 4 = 0 →
  holds blob (ps_sp s) (be4 FDT_BEGIN_NODE ++ pad4 (name ++ [0])) →
  ps_sp s + 4 + Z.of_nat (length (pad4 (name ++ [0]))) ≤ send →
  round s = Next (s <| ps_sp := ps_sp s + 4 + Z.of_nat (length (pad4 (name ++ [0]))) |> <| ps_depth := ps_depth s + 1 |>
    <| ps_stack ::= <[Z.to_nat (ps_depth s) :=
         zero_node <| nd_is_chosen := (ps_depth s =? 1) && bool_decide (name = bytes_of "chosen") |>]> |>).
Proof.
  intros Hw Hd Hn Hal H. rewrite pad4_length, length_app. cbn [length]. intros Hle.
  pose proof H as [Hsp _]. apply strings_nonzero in Hn.
  assert (0 ≤ (Z.of_nat (length name + 1) + 3) / 4) by (apply Z.div_pos; lia).
  apply holds_split in H as [Ht H]. rewrite be4_length in H. change (Z.of_nat 4) with 4 in *.
  apply holds_be4 in Ht; [|unfold FDT_BEGIN_NODE; lia].
  unfold pad4 in H. apply holds_split in H as [Hname _].
  unfold fdt_round. rewrite (proj2 (Z.ltb_ge send (ps_sp s + 4))) by lia. rewrite Ht. cbn [or_fault].
  change (FDT_BEGIN_NODE =? FDT_BEGIN_NODE) with true. cbv iota. unfold begin_node.
  set (s1 := s <| ps_sp := ps_sp s + 4 |>). change (ps_depth s1) with (ps_depth s).
  change (ps_sp s1) with (ps_sp s + 4). rewrite (proj2 (Z.leb_gt FDT_MAX_DEPTH _)) by lia.
  pose proof Hname as [_ [r Er]]. rewrite Er, <-app_assoc. cbn [app].
  rewrite scan_found by (done || divlia). cbn [or_fault].
  rewrite (proj2 (Z.leb_gt send _)) by divlia. rewrite align_ptr_spec by divlia.
  replace ((base + (ps_sp s + 4 + Z.of_nat (length name) + 1) + 3) / 4 * 4 - base)
    with (ps_sp s + 4 + (Z.of_nat (length name + 1) + 3) / 4 * 4) by divlia.
  rewrite (proj2 (Z.ltb_ge send _)) by lia.
  replace (if ps_depth s =? 1 then bytes_equal blob (ps_sp s + 4) (bytes_of "chosen") else Some false)
    with (Some ((ps_depth s =? 1) && bool_decide (name = bytes_of "chosen"))).
  2: { destruct (ps_depth s =? 1); [|done]. symmetry. apply bytes_equal_spec; [done|literal|done]. }
  cbn [or_fault]. f_equal.
Qed.

Lemma end_round s node :
  1 ≤ ps_depth s → ps_stack s !! Z.to_nat (ps_depth s - 1) = Some node →
  holds blob (ps_sp s) (be4 FDT_END_NODE) → ps_sp s + 4 ≤ send →
  round s = Next (s <| ps_sp := ps_sp s + 4 |> <| ps_depth := ps_depth s - 1 |> <| ps_platform ::= commit_node node |>).
Proof.
  intros Hd Hnode H Hle. apply holds_be4 in H; [|unfold FDT_END_NODE; lia].
  unfold fdt_round. rewrite (proj2 (Z.ltb_ge send (ps_sp s + 4))) by lia. rewrite H. cbn [or_fault].
  change (FDT_END_NODE =? FDT_BEGIN_NODE) with false. change (FDT_END_NODE =? FDT_END_NODE) with true. cbv iota.
  unfold end_node. cbn [ps_depth]. set (s1 := s <| ps_sp := ps_sp s + 4 |>).
  change (ps_depth s1) with (ps_depth s). change (ps_stack s1) with (ps_stack s).
  rewrite (proj2 (Z.eqb_neq (ps_depth s) 0)), Hnode by lia. done.
Qed.

(** What a piece of [n] bytes does to the parser. *)
Definition walks (n : Z) (effect : Z * Z * platform → Z * Z * platform) (s : pstate) : Prop :=
  ∃ s', run s s' ∧ walking s' ∧ ps_sp s' = ps_sp s + n ∧ ps_depth s' = ps_depth s ∧
    take (Z.to_nat (ps_depth s)) (ps_stack s') = take (Z.to_nat (ps_depth s)) (ps_stack s) ∧
    (ps_addr_cells s', ps_size_cells s', ps_platform s') = effect (ps_addr_cells s, ps_size_cells s, ps_platform s).

Definition tree_walks (h : nat) (t : dtree) : Prop :=
  ∀ s, walking s → ps_depth s + Z.of_nat h ≤ FDT_MAX_DEPTH → (base + ps_sp s) mod 4 = 0 →
    holds blob (ps_sp s) (flat nameoff t) → ps_sp s + Z.of_nat (length (flat nameoff t)) ≤ send →
    walks (Z.of_nat (length (flat nameoff t))) (tree_effect (ps_depth s) t) s.

Lemma concat_aligned {A} (f : A → list Z) l :
  (∀ x, Z.of_nat (length (f x)) mod 4 = 0) → Z.of_nat (length (concat (map f l))) mod 4 = 0.
Proof.
  intros Hf. induction l as [|x l IH]; [done|]. cbn [map concat]. rewrite length_app. specialize (Hf x). divlia.
Qed.

Lemma flat_prop_aligned nv : Z.of_nat (length (flat_prop nameoff nv)) mod 4 = 0.
Proof. rewrite flat_prop_length. divlia. Qed.

Lemma pad4_aligned l : Z.of_nat (length (pad4 l)) mod 4 = 0.
Proof. rewrite pad4_length. divlia. Qed.

Lemma flat_aligned h t : tree_ok nameoff strs h t → Z.of_nat (length (flat nameoff t)) mod 4 = 0.
Proof.
  revert t. induction h as [|h IH]; intros t Ht; inversion Ht as [? name props children _ _ Hc]; subst. cbn [flat].
  rewrite !length_app, !be4_length. pose proof (pad4_aligned (name ++ [0])).
  pose proof (concat_aligned _ props flat_prop_aligned).
  assert (Z.of_nat (length (concat (map (flat nameoff) children))) mod 4 = 0).
  { clear -Hc IH. induction Hc as [|c children Hc _ IHc]; [done|]. cbn [map concat]. rewrite length_app.
    specialize (IH _ Hc). divlia. }
  divlia.
Qed.

Lemma children_walk h children s :
  Forall (tree_ok nameoff strs h) children → Forall (tree_walks h) children →
  walking s → ps_depth s + Z.of_nat h ≤ FDT_MAX_DEPTH → (base + ps_sp s) mod 4 = 0 →
  holds blob (ps_sp s) (concat (map (flat nameoff) children)) →
  ps_sp s + Z.of_nat (length (concat (map (flat nameoff) children))) ≤ send →
  walks (Z.of_nat (length (concat (map (flat nameoff) children))))
    (λ st, foldl (λ st c, tree_effect (ps_depth s) c st) st children) s.
Proof.
  intros Hok Hall. revert s. induction Hall as [|c children Hc _ IH]; intros s Hw Hd Hal H Hle.
  - exists s. cbn. split_and!; try done; [apply run_refl|lia].
  - apply Forall_cons in Hok as [Hcok Hok]. cbn [map concat foldl] in *. rewrite length_app, Nat2Z.inj_add in *.
    apply holds_split in H as [H1 H2]. pose proof (flat_aligned h c Hcok) as Ha.
    destruct (Hc s) as (s1 & Hr1 & Hw1 & Hs1 & Hd1 & Ht1 & He1); [done..|lia|].
    destruct (IH Hok s1) as (s2 & Hr2 & Hw2 & Hs2 & Hd2 & Ht2 & He2); [done|lia| |by rewrite Hs1|lia|].
    { rewrite Hs1. divlia. }
    exists s2. rewrite Hd1 in *. split_and!; [by eapply run_trans|done|lia|congruence|congruence|].
    rewrite He2, He1. done.
Qed.

Lemma lookup_below {A} (l l' : list A) d i : take d l = take d l' → (i < d)%nat → l !! i = l' !! i.
Proof. intros E Hi. rewrite <-(lookup_take_lt l d i), E, lookup_take_lt by done. done. Qed.

(** The start of a node with its properties. *)
Lemma node_opens s name props :
  let d := ps_depth s in
  let bytes := be4 FDT_BEGIN_NODE ++ pad4 (name ++ [0]) ++ concat (map (flat_prop nameoff) props) in
  let w := foldl (prop_effect (d + 1))
             (mk_walk (zero_node <| nd_is_chosen := (d =? 1) && bool_decide (name = bytes_of "chosen") |>)
                (ps_addr_cells s) (ps_size_cells s) (ps_platform s)) props in
  walking s → d < FDT_MAX_DEPTH → is_string name → Forall (prop_ok nameoff strs) props → (base + ps_sp s) mod 4 = 0 →
  holds blob (ps_sp s) bytes → ps_sp s + Z.of_nat (length bytes) ≤ send →
  ∃ s', run s s' ∧ walking s' ∧ ps_sp s' = ps_sp s + Z.of_nat (length bytes) ∧ ps_depth s' = d + 1 ∧
    take (Z.to_nat d) (ps_stack s') = take (Z.to_nat d) (ps_stack s) ∧
    ps_stack s' !! Z.to_nat d = Some (wk_node w) ∧
    (ps_addr_cells s', ps_size_cells s', ps_platform s') = (wk_addr w, wk_size w, wk_platform w).
Proof.
  intros d bytes w Hw Hd Hname Hprops Hal H Hle. pose proof (wg_depth s Hw) as Hd0. pose proof (wg_stack s Hw) as Hst.
  assert (Z.of_nat (length bytes) = 4 + Z.of_nat (length (pad4 (name ++ [0]))) +
    Z.of_nat (length (concat (map (flat_prop nameoff) props)))) as Hlen
    by (unfold bytes; rewrite !length_app, !be4_length; lia).
  rewrite Hlen in *. unfold bytes in H. rewrite app_assoc in H. apply holds_split in H as [H1 H2].
  rewrite length_app, be4_length in H2.
  pose proof (begin_round s name Hw Hd Hname Hal H1 ltac:(lia)) as E1.
  set (node0 := zero_node <| nd_is_chosen := _ |>) in E1. set (s1 := s <| ps_sp := _ |> <| _ := _ |> <| _ ::= _ |>) in E1.
  assert (ps_sp s1 = ps_sp s + 4 + Z.of_nat (length (pad4 (name ++ [0])))) as Hs1 by done.
  assert (ps_stack s1 = <[Z.to_nat d := node0]> (ps_stack s)) as Hst1 by done.
  assert (ps_depth s1 = d + 1) as Hd1 by done.
  assert (walking s1) as Hw1 by (destruct Hw; split; cbn; try done; [lia|by rewrite length_insert]).
  assert (ps_stack s1 !! Z.to_nat (ps_depth s1 - 1) = Some node0) as Hn1.
  { rewrite Hst1, Hd1. replace (d + 1 - 1) with d by lia.
    apply list_lookup_insert_eq. unfold FDT_MAX_DEPTH in *. lia. }
  destruct (props_run props s1 node0 Hw1) as [Hr2 Hw2]; [lia|done|done| |lia|].
  { rewrite Hs1. replace (ps_sp s + 4 + _) with (ps_sp s + Z.of_nat (4 + length (pad4 (name ++ [0])))) by lia. done. }
  rewrite Hd1 in Hr2, Hw2. change (foldl (prop_effect (d + 1)) (walk_of node0 s1) props) with w in *.
  eexists. split; [eapply run_trans; [by apply run_round|exact Hr2]|]. split; [exact Hw2|].
  assert (∀ x y, ps_sp (y <| ps_sp := x |>) = x) as Hps by done. rewrite Hps, Hs1. split; [lia|]. split; [done|].
  assert (∀ x, ps_stack ((put w s1) <| ps_sp := x |>) = <[Z.to_nat d := wk_node w]> (ps_stack s)) as Hst2.
  { intros x. transitivity (<[Z.to_nat (ps_depth s1 - 1) := wk_node w]> (ps_stack s1)); [reflexivity|].
    rewrite Hd1, Hst1. replace (d + 1 - 1) with d by lia. apply list_insert_insert_eq. }
  rewrite Hst2. split_and!; [by rewrite take_insert_ge|apply list_lookup_insert_eq; unfold FDT_MAX_DEPTH in *; lia|done].
Qed.

(** A node: its start with the properties, its children and its end. *)
Lemma node_walk h name props children :
  is_string name → Forall (prop_ok nameoff strs) props → Forall (tree_ok nameoff strs h) children →
  Forall (tree_walks h) children → tree_walks (S h) (DNode name props children).
Proof.
  intros Hname Hprops Hok Hchildren s Hw Hd Hal H.
  set (bytes := be4 FDT_BEGIN_NODE ++ pad4 (name ++ [0]) ++ concat (map (flat_prop nameoff) props)).
  set (inner := concat (map (flat nameoff) children)).
  assert (flat nameoff (DNode name props children) = bytes ++ inner ++ be4 FDT_END_NODE) as Hflat
    by (unfold bytes, inner; cbn [flat]; by rewrite <-!app_assoc).
  rewrite Hflat in *. rewrite !length_app, be4_length, !Nat2Z.inj_add. change (Z.of_nat 4) with 4. intros Hle.
  apply holds_split in H as [H1 H]. apply holds_split in H as [H2 H3].
  assert (Z.of_nat (length bytes) mod 4 = 0) as Hba.
  { unfold bytes. rewrite !length_app, be4_length. pose proof (pad4_aligned (name ++ [0])).
    pose proof (concat_aligned _ props flat_prop_aligned). divlia. }
  destruct (node_opens s name props Hw) as (s2 & Hr2 & Hw2 & Hs2 & Hd2 & Ht2 & Hn2 & He2); [lia|done|done|done|done|fold bytes; lia|].
  fold bytes in Hs2. set (w := foldl (prop_effect (ps_depth s + 1)) _ props) in *.
  destruct (children_walk h children s2 Hok Hchildren Hw2) as (s3 & Hr3 & Hw3 & Hs3 & Hd3 & Ht3 & He3);
    [lia|rewrite Hs2; divlia|by rewrite Hs2|fold inner; lia|].
  fold inner in Hs3. rewrite Hd2 in *. rewrite He2 in He3. pose proof (wg_depth s Hw) as Hd0.
  assert (ps_stack s3 !! Z.to_nat (ps_depth s3 - 1) = Some (wk_node w)) as Hn3.
  { rewrite Hd3. replace (ps_depth s + 1 - 1) with (ps_depth s) by lia.
    rewrite (lookup_below _ _ _ _ Ht3) by lia. done. }
  pose proof (end_round s3 (wk_node w) ltac:(lia) Hn3 ltac:(by rewrite Hs3, Hs2) ltac:(lia)) as E4.
  eexists. split; [eapply run_trans; [exact Hr2|]; eapply run_trans; [exact Hr3|by apply run_round]|].
  split; [destruct Hw3; split; cbn -[commit_node]; try done; lia|].
  split; [change (ps_sp s3 + 4 = ps_sp s + (Z.of_nat (length bytes) + (Z.of_nat (length inner) + 4))); lia|].
  split; [change (ps_depth s3 - 1 = ps_depth s); lia|]. split.
  - rewrite <-Ht2. apply list_eq. intros i.
    destruct (decide (i < Z.to_nat (ps_depth s))%nat); [|by rewrite !lookup_take_ge by lia].
    rewrite !lookup_take_lt by lia. apply (lookup_below _ _ _ _ Ht3). lia.
  - cbn [tree_effect]. fold w. rewrite <-He3. done.
Qed.

Lemma tree_walk h t : tree_ok nameoff strs h t → tree_walks h t.
Proof.
  revert t. induction h as [|h IH]; intros t Ht; inversion Ht as [? name props children Hn Hp Hc]; subst.
  apply node_walk; [done..|]. eapply Forall_impl; [exact Hc|exact IH].
Qed.

Lemma end_of_tree s :
  ps_depth s = 0 → holds blob (ps_sp s) (be4 FDT_END) → ps_sp s + 4 ≤ send → round s = Ret AEGIS_OK.
Proof.
  intros Hd H Hle. apply holds_be4 in H; [|unfold FDT_END; lia].
  unfold fdt_round. rewrite (proj2 (Z.ltb_ge send (ps_sp s + 4))) by lia. rewrite H. cbn [or_fault].
  change (FDT_END =? FDT_BEGIN_NODE) with false. change (FDT_END =? FDT_END_NODE) with false.
  change (FDT_END =? FDT_PROP) with false. change (FDT_END =? FDT_NOP) with false.
  change (FDT_END =? FDT_END) with true. cbv iota. change (ps_depth (s <| ps_sp := ps_sp s + 4 |>)) with (ps_depth s).
  by rewrite Hd.
Qed.

Lemma fdt_loop_more fuel j s r :
  loop fuel strings strings_len send s = r → r ≠ Running → loop (fuel + j) strings strings_len send s = r.
Proof.
  revert s. induction fuel as [|fuel IH]; intros s E Hr; cbn [fdt_loop Nat.add] in *; [congruence|].
  destruct (round s); [by apply IH|done|done].
Qed.

(** Whatever the number of rounds, if it is enough to come to an end. *)
Lemma tree_parsed h t s fuel :
  tree_ok nameoff strs h t → walking s → ps_depth s = 0 → Z.of_nat h ≤ FDT_MAX_DEPTH → (base + ps_sp s) mod 4 = 0 →
  holds blob (ps_sp s) (flat nameoff t ++ be4 FDT_END) →
  ps_sp s + Z.of_nat (length (flat nameoff t ++ be4 FDT_END)) ≤ send →
  loop fuel strings strings_len send s ≠ Running →
  loop fuel strings strings_len send s =
    Returned AEGIS_OK
      ((tree_effect 0 t (ps_addr_cells s, ps_size_cells s, ps_platform s)).2 <| pf_valid := true |>).
Proof.
  intros Hok Hw Hd Hh Hal H Hle Hne. apply holds_split in H as [H1 H2].
  rewrite length_app, be4_length, Nat2Z.inj_add in Hle. change (Z.of_nat 4) with 4 in Hle.
  destruct (tree_walk h t Hok s) as (s' & [k Hk] & Hw' & Hs' & Hd' & _ & He); [done|lia|done|done|lia|].
  rewrite Hd in *. rewrite <-He. cbn [snd].
  assert (loop (k + 1) strings strings_len send s = Returned AEGIS_OK ((ps_platform s') <| pf_valid := true |>)) as E.
  { rewrite Hk. cbn [fdt_loop]. rewrite end_of_tree; [done|done|by rewrite Hs'|lia]. }
  rewrite <-E. rewrite <-(fdt_loop_more fuel (k + 1) s _ eq_refl Hne).
  rewrite Nat.add_comm. apply fdt_loop_more; [done|]. by rewrite E.
Qed.
End walk.

(** ** Encoded trees *)

Section encoded.
Context (nameoff : list Z → Z) (strs : list Z).

Lemma fdt_bytes_app a b : fdt_bytes a → fdt_bytes b → fdt_bytes (a ++ b).
Proof. apply Forall_app_2. Qed.
Lemma pad4_bytes l : fdt_bytes l → fdt_bytes (pad4 l).
Proof. intros Hl. apply fdt_bytes_app; [done|]. apply Forall_replicate. lia. Qed.
Lemma concat_bytes ls : Forall fdt_bytes ls → fdt_bytes (concat ls).
Proof. intros H. by apply Forall_concat. Qed.
Lemma string_bytes l : is_string l → fdt_bytes l.
Proof. intros Hl. eapply Forall_impl; [exact Hl|]. cbn. lia. Qed.

Lemma flat_bytes h t : tree_ok nameoff strs h t → fdt_bytes (flat nameoff t).
Proof.
  revert t. induction h as [|h IH]; intros t Ht; inversion Ht as [? name props children Hn Hp Hc]; subst. cbn [flat].
  apply fdt_bytes_app; [apply be4_bytes|]. apply fdt_bytes_app.
  { apply pad4_bytes, fdt_bytes_app; [by apply string_bytes|]. repeat constructor; lia. }
  apply fdt_bytes_app; [|apply fdt_bytes_app; [|apply be4_bytes]].
  - apply concat_bytes, Forall_map. eapply Forall_impl; [exact Hp|]. intros nv (_ & Hb & _). unfold flat_prop.
    do 3 (apply fdt_bytes_app; [apply be4_bytes|]). by apply pad4_bytes.
  - apply concat_bytes, Forall_map. eapply Forall_impl; [exact Hc|exact IH].
Qed.

(** The words of the header. *)
Definition header_words (t : dtree) : list Z :=
  let struct_len := Z.of_nat (length (flat nameoff t ++ be4 FDT_END)) in
  let strings_len := Z.of_nat (length strs) in
  [FDT_MAGIC; FDT_HEADER + struct_len + strings_len; FDT_HEADER; FDT_HEADER + struct_len; FDT_HEADER; 17; 16; 0;
   strings_len; struct_len].

Lemma fdt_encode_header t :
  fdt_encode nameoff t strs = concat (be4 <$> header_words t) ++ (flat nameoff t ++ be4 FDT_END) ++ strs.
Proof. reflexivity. Qed.

Lemma header_load blob ws rest k v :
  blob = concat (be4 <$> ws) ++ rest → ws !! k = Some v → 0 ≤ v < 2 ^ 32 →
  be32_load blob (4 * Z.of_nat k) = Some v.
Proof.
  intros -> Hk Hv. apply holds_be4; [done|]. split; [lia|].
  destruct (split_at _ _ _ Hk) as (w1 & w2 & -> & <- & _). clear Hk.
  eexists. unfold from_off. rewrite fmap_app, concat_app. cbn [fmap list_fmap concat]. rewrite <-!app_assoc.
  rewrite drop_app_length'; [reflexivity|].
  rewrite length_concat, <-list_fmap_compose. replace (sum_list _) with (4 * length w1)%nat; [lia|].
  induction w1 as [|w w1 IH]; cbn; [done|]. cbn in IH. lia.
Qed.

(** C21: the parser computes the walk over the tree. Every device tree of at most
    32 levels whose blob has at most 16 MiB, with its properties named in the
    block of names and cell counts below 2^29, is read back from its encoding: the
    parser reports success and the platform is the one of the walk, whatever the
    word-aligned address of the blob. *)
Theorem device_tree_roundtrip base h t :
  0 ≤ base → base mod 4 = 0 → base + 2 ^ 25 < 2 ^ 64 →
  tree_ok nameoff strs h t → Z.of_nat h ≤ FDT_MAX_DEPTH → fdt_bytes strs →
  Z.of_nat (length (fdt_encode nameoff t strs)) ≤ 16 * 1024 * 1024 →
  device_tree_init (Some (base, fdt_encode nameoff t strs)) =
    Returned AEGIS_OK
      ((tree_platform (Z.of_nat (length (fdt_encode nameoff t strs))) t) <| pf_valid := true |>).
Proof.
  intros Hbase Hal Haddr Hok Hh Hsb Hmax. pose proof (fdt_encode_header t) as Hblob.
  pose proof (flat_bytes h t Hok) as Hfb. unfold tree_platform.
  set (blob := fdt_encode nameoff t strs) in *. set (struct := flat nameoff t ++ be4 FDT_END) in *.
  assert (Z.of_nat (length blob) = 40 + Z.of_nat (length struct) + Z.of_nat (length strs)) as Hlen
    by (rewrite Hblob, !length_app; cbn [fmap list_fmap concat header_words]; rewrite !length_app, !be4_length; cbn [length]; lia).
  assert (fdt_bytes blob) as Hb.
  { rewrite Hblob. apply fdt_bytes_app; [|apply fdt_bytes_app; [|done]].
    - apply concat_bytes, Forall_fmap, Forall_true. intros. apply be4_bytes.
    - by apply fdt_bytes_app; [|apply be4_bytes]. }
  assert (∀ k v, header_words t !! k = Some v → 0 ≤ v < 2 ^ 32 → be32_load blob (4 * Z.of_nat k) = Some v) as Hl
    by (intros k v; by eapply header_load).
  pose proof (Hl 0%nat _ eq_refl ltac:(unfold FDT_MAGIC; lia)) as H0.
  pose proof (Hl 1%nat _ eq_refl ltac:(unfold FDT_HEADER; fold struct; lia)) as H1.
  pose proof (Hl 2%nat _ eq_refl ltac:(unfold FDT_HEADER; lia)) as H2.
  pose proof (Hl 3%nat _ eq_refl ltac:(unfold FDT_HEADER; fold struct; lia)) as H3.
  pose proof (Hl 8%nat _ eq_refl ltac:(lia)) as H8.
  pose proof (Hl 9%nat _ eq_refl ltac:(fold struct; lia)) as H9.
  clear Hl. fold struct in H1, H3, H9. change (4 * Z.of_nat 0) with 0 in H0. change (4 * Z.of_nat 1) with 4 in H1.
  change (4 * Z.of_nat 2) with 8 in H2. change (4 * Z.of_nat 3) with 12 in H3. change (4 * Z.of_nat 8) with 32 in H8.
  change (4 * Z.of_nat 9) with 36 in H9.
  unfold device_tree_init. rewrite H0, H1, H2, H3, H8, H9. rewrite Z.eqb_refl. cbn [negb]. unfold FDT_HEADER in *.
  rewrite (proj2 (Z.ltb_ge _ 40)) by lia. rewrite (proj2 (Z.ltb_ge (16 * 1024 * 1024) _)) by lia. cbn [orb].
  unfold range_valid. rewrite !(proj2 (Z.leb_le _ _)) by lia. cbn [andb orb negb]. rewrite <-Hlen.
  assert (holds blob 40 (struct ++ strs)) as Hs.
  { split; [lia|]. exists []. unfold from_off. rewrite Hblob, app_nil_r.
    apply drop_app_length'. cbn [header_words fmap list_fmap concat]. by rewrite !length_app, !be4_length. }
  pose proof Hs as [Hs1 Hs2]%holds_split.
  set (l := mk_layout (Z.of_nat (length blob)) 40 (Z.of_nat (length struct)) (40 + Z.of_nat (length struct)) (Z.of_nat (length strs))).
  change (mk_ps 40 _ _ _ _ _) with (parser_start l).
  apply (tree_parsed base blob (40 + Z.of_nat (length struct)) (40 + Z.of_nat (length struct)) nameoff strs
           Hbase ltac:(lia) Hs2 ltac:(lia) h t (parser_start l)); [done| |done|done| |done|cbn; fold struct; lia|].
  - split; cbn; unfold FDT_MAX_DEPTH; try done; lia.
  - cbn [ps_sp parser_start fl_struct_off l]. divlia.
  - intros E.
    pose proof (fdt_loop_ok blob Hb base (40 + Z.of_nat (length struct)) (Z.of_nat (length strs)) (40 + Z.of_nat (length struct))
      Hbase ltac:(lia) ltac:(lia) ltac:(lia) (S (Z.to_nat (Z.of_nat (length struct)))) (parser_start l) (parser_start l)
      (parser_start_inv l ltac:(cbn; lia)) (reaches_start _ _ _ _ _ _) ltac:(cbn; lia)) as Hloop.
    by rewrite E in Hloop.
Qed.
End encoded.

(** ** A machine *)

Definition name_list : list (list Z) :=
  map bytes_of ["#address-cells"; "#size-cells"; "device_type"; "compatible"; "reg"; "interrupts"; "bootargs"].
Definition names_block : list Z := concat (map (λ n, n ++ [0]) name_list).
Fixpoint offset_of (n : list Z) (l : list (list Z)) : Z :=
  match l with
  | [] => 0
  | m :: l => if decide (n = m) then 0 else Z.of_nat (length m) + 1 + offset_of n l
  end.
Definition name_offset (n : list Z) : Z := offset_of n name_list.

Definition text (s : string) : list Z := bytes_of s ++ [0].
Definition machine : dtree :=
  DNode [] [(bytes_of "#address-cells", be4 2); (bytes_of "#size-cells", be4 2)]
    [DNode (bytes_of "memory") [(bytes_of "device_type", text "memory");
                                (bytes_of "reg", be4 0 ++ be4 0x40000000 ++ be4 0 ++ be4 0x8000000)] [];
     DNode (bytes_of "pl011") [(bytes_of "compatible", text "arm,pl011" ++ text "arm,primecell");
                               (bytes_of "reg", be4 0 ++ be4 0x9000000 ++ be4 0 ++ be4 0x1000)] [];
     DNode (bytes_of "virtio") [(bytes_of "compatible", text "virtio,mmio");
                                (bytes_of "reg", be4 0 ++ be4 0xa000000 ++ be4 0 ++ be4 0x200);
                                (bytes_of "interrupts", be4 0 ++ be4 16 ++ be4 1)] [];
     DNode (bytes_of "chosen") [(bytes_of "bootargs", text "console=ttyAMA0")] []].

Lemma prop_ok_dec nv :
  forallb (λ b, (0 <? b) && (b <? 256)) nv.1 && forallb (λ b, (0 <=? b) && (b <? 256)) nv.2 &&
  (Z.of_nat (length nv.2) <? 2 ^ 24) &&
  ((0 <=? name_offset nv.1) && (name_offset nv.1 <? Z.of_nat (length names_block))) &&
  bool_decide (take (S (length nv.1)) (drop (Z.to_nat (name_offset nv.1)) names_block) = nv.1 ++ [0]) &&
  ((word nv.2 <? 2 ^ 29) ||
   negb (bool_decide (nv.1 = bytes_of "#address-cells") || bool_decide (nv.1 = bytes_of "#size-cells"))) = true →
  prop_ok name_offset names_block nv.
Proof.
  rewrite !andb_true_iff, !forallb_forall, bool_decide_eq_true, orb_true_iff, negb_true_iff, orb_false_iff, !bool_decide_eq_false.
  intros [[[[[H1 H2] H3] H4] H5] H6]. split_and!.
  - apply Forall_forall. intros x Hx%list_elem_of_In. specialize (H1 x Hx). lia.
  - apply Forall_forall. intros x Hx%list_elem_of_In. specialize (H2 x Hx). lia.
  - lia.
  - lia.
  - lia.
  - exists (drop (S (length nv.1)) (drop (Z.to_nat (name_offset nv.1)) names_block)).
    change (nv.1 ++ 0 :: ?l) with (nv.1 ++ [0] ++ l). rewrite app_assoc, <-H5. by rewrite take_drop.
  - intros [Hn|Hn]; destruct H6 as [H6|[H6 H7]]; try lia; congruence.
Qed.

Lemma machine_ok : tree_ok name_offset names_block 2 machine.
Proof.
  repeat (constructor || (apply prop_ok_dec; vm_compute; reflexivity) || (unfold is_string; apply (bool_decide_unpack _); vm_compute; exact I)).
Qed.

Lemma device_tree_roundtrip_witness :
  match device_tree_init (Some (0x44000000, fdt_encode name_offset machine names_block)) with
  | Returned rc p =>
      rc = AEGIS_OK ∧ pf_memory_base p = 0x40000000 ∧ pf_memory_size p = 0x8000000 ∧ pf_uart_base p = 0x9000000 ∧
      pf_virtio_count p = 1 ∧ device_tree_virtio 0 p = Some (mk_mmio 0xa000000 0x200 48 0 true) ∧
      pf_bootargs p = bytes_of "console=ttyAMA0"
  | _ => False
  end.
Proof.
  rewrite (device_tree_roundtrip name_offset names_block 0x44000000 2 machine).
  - vm_compute. repeat split.
  - lia.
  - reflexivity.
  - lia.
  - exact machine_ok.
  - unfold FDT_MAX_DEPTH. lia.
  - unfold fdt_bytes. apply (bool_decide_unpack _). vm_compute. exact I.
  - vm_compute. done.
Defined.

(** ** Blobs that lead the parser outside *)

Definition blob_of (struct strs : list Z) : list Z :=
  let struct_len := Z.of_nat (length struct) in
  let strings_len := Z.of_nat (length strs) in
  concat (be4 <$> [FDT_MAGIC; FDT_HEADER + struct_len + strings_len; FDT_HEADER + strings_len; FDT_HEADER; FDT_HEADER;
                   17; 16; 0; strings_len; struct_len]) ++ strs ++ struct.

(** A length that is rounded up to 0: the list of strings extends behind the blob. *)
Definition wrapped_length : list Z :=
  blob_of (be4 FDT_BEGIN_NODE ++ be4 0 ++ be4 FDT_PROP ++ be4 0xFFFFFFFF ++ be4 0 ++ be4 0x41414141) (pad4 (text "compatible")).
(** Cell counts whose sum is 1: a value of one word is read as four. *)
Definition wrapped_cells : list Z :=
  blob_of (be4 FDT_BEGIN_NODE ++ be4 0 ++ be4 FDT_PROP ++ be4 4 ++ be4 0 ++ be4 0x80000001 ++
           be4 FDT_PROP ++ be4 4 ++ be4 15 ++ be4 0x80000000 ++ be4 FDT_PROP ++ be4 4 ++ be4 27 ++ be4 7)
    (pad4 (text "#address-cells" ++ text "#size-cells" ++ text "reg")).
(** A name that runs from the block of names into the end of the memory. *)
Definition unterminated_name : list Z :=
  let struct := be4 FDT_BEGIN_NODE ++ be4 0 ++ be4 FDT_PROP ++ be4 0 ++ be4 0 in
  concat (be4 <$> [FDT_MAGIC; FDT_HEADER + 20 + 3; FDT_HEADER; FDT_HEADER + 20; FDT_HEADER; 17; 16; 0; 3; 20]) ++
  struct ++ bytes_of "dev".

Lemma wrapped_length_faults : device_tree_init (Some (0x44000000, wrapped_length)) = Faulted.
Proof. vm_compute. reflexivity. Qed.
Lemma wrapped_cells_faults : device_tree_init (Some (0x44000000, wrapped_cells)) = Faulted.
Proof. vm_compute. reflexivity. Qed.
Lemma unterminated_name_faults : device_tree_init (Some (0x44000000, unterminated_name)) = Faulted.
Proof. vm_compute. reflexivity. Qed.

Lemma device_tree_init_safe_witness :
  ∃ l s, layout_of wrapped_length = Some l ∧
    reaches wrapped_length 0x44000000 (fl_strings_off l) (fl_strings_len l) (fdt_send l) (parser_start l) s ∧
    fragile wrapped_length (fl_strings_off l) (fl_strings_len l) s.
Proof.
  assert (be32_load wrapped_length 4 = Some 76) as E by (vm_compute; reflexivity).
  pose proof (device_tree_init_safe 0x44000000 wrapped_length 76) as H. rewrite wrapped_length_faults in H.
  apply H; [|lia|vm_compute; done|vm_compute; done|exact E|vm_compute; done].
  unfold fdt_bytes. apply (bool_decide_unpack _). vm_compute. exact I.
Defined.
