(* ===== verification/Links.v ===== *)
(** Singly linked lists threaded through a fixed array, as net/firewall.c,
    net/routing.c and net/packet.c build them: a pointer is an index of the
    array, [None] is NULL, and each element holds the link to the next. *)

From S2P Require Import Prelude.

Section links.
Context {A : Type} (next : A → option nat).
Implicit Types (st : list A) (l : list nat).

(** Following links from [p] visits exactly [l] and ends at [q]. *)
Fixpoint lpath (st : list A) (p : option nat) (l : list nat) (q : option nat) : Prop :=
  match l with
  | [] => p = q
  | a :: l => p = Some a ∧ ∃ x, st !! a = Some x ∧ lpath st (next x) l q
  end.

(** [for (p = p0; p; p = p->next) if (f(p)) return p;]: the inner option is the
    pointer returned, the outer one is [None] when fuel runs out or a pointer is
    outside the array. *)
Fixpoint find_link (fuel : nat) (st : list A) (f : A → bool) (p : option nat) : option (option nat) :=
  match p with
  | None => Some None
  | Some i =>
      match fuel, st !! i with
      | S fuel, Some x => if f x then Some (Some i) else find_link fuel st f (next x)
      | _, _ => None
      end
  end.

(** [for (p = p0; p; p = p->next) acc = f(p, acc);] *)
Fixpoint fold_links {B} (fuel : nat) (st : list A) (f : nat → A → B → B) (p : option nat) (acc : B) : option B :=
  match p with
  | None => Some acc
  | Some i =>
      match fuel, st !! i with
      | S fuel, Some x => fold_links fuel st f (next x) (f i x acc)
      | _, _ => None
      end
  end.

(** [while (p->next) p = p->next;] *)
Fixpoint last_link (fuel : nat) (st : list A) (i : nat) : option nat :=
  match fuel, st !! i with
  | S fuel, Some x => match next x with None => Some i | Some j => last_link fuel st j end
  | _, _ => None
  end.

Lemma lpath_app st p l1 l2 q : lpath st p (l1 ++ l2) q ↔ ∃ r, lpath st p l1 r ∧ lpath st r l2 q.
Proof.
  revert p. induction l1 as [|a l1 IH]; intros p; cbn.
  - split; [by eauto|]. by intros (r & -> & ?).
  - split.
    + intros (-> & x & ? & (r & ? & ?)%IH). eauto 10.
    + intros (r & (-> & x & ? & ?) & ?). split; [done|]. exists x. split; [done|]. apply IH. eauto.
Qed.

Lemma lpath_frame st st' p l q :
  (∀ a, a ∈ l → next <$> st' !! a = next <$> st !! a) → lpath st p l q → lpath st' p l q.
Proof.
  revert p. induction l as [|a l IH]; intros p Hag; cbn; [done|].
  intros (-> & x & Hx & Hl). split; [done|].
  specialize (Hag a (list_elem_of_here _ _)) as Ha. rewrite Hx in Ha.
  destruct (st' !! a) as [x'|]; [|done]. cbn in Ha. injection Ha as Ha.
  exists x'. split; [done|]. rewrite Ha. apply IH; [|done]. intros b Hb. apply Hag. by right.
Qed.

Lemma lpath_lookup st p l q a : lpath st p l q → a ∈ l → ∃ x, st !! a = Some x.
Proof.
  revert p. induction l as [|b l IH]; intros p; cbn; [by intros _ ?%not_elem_of_nil|].
  intros (-> & x & ? & ?) [->|?]%elem_of_cons; eauto.
Qed.

Lemma lpath_nil st p l : lpath st p l None → p = None ↔ l = [].
Proof. destruct l; cbn; [done|]. intros (-> & _). done. Qed.

Lemma lpath_length st p l q : NoDup l → lpath st p l q → (length l ≤ length st)%nat.
Proof.
  intros Hnd Hl. assert (list_to_set l ⊆@{gset nat} list_to_set (seq 0 (length st))) as Hsub.
  { intros a. rewrite !elem_of_list_to_set, elem_of_seq. intros Ha.
    destruct (lpath_lookup _ _ _ _ _ Hl Ha) as [x Hx]. apply lookup_lt_Some in Hx. lia. }
  apply subseteq_size in Hsub.
  by rewrite !size_list_to_set, length_seq in Hsub by (done || apply NoDup_seq).
Qed.

Lemma find_link_spec fuel st f p l :
  lpath st p l None → (length l ≤ fuel)%nat →
  find_link fuel st f p = Some (List.find (λ a, from_option f false (st !! a)) l).
Proof.
  revert fuel p. induction l as [|a l IH]; intros fuel p; cbn.
  - intros -> _. by destruct fuel.
  - intros (-> & x & Hx & Hl) Hf. destruct fuel as [|fuel]; [lia|]. cbn. rewrite Hx. cbn.
    destruct (f x); [done|]. apply IH; [done|lia].
Qed.

Lemma fold_links_spec {B} fuel st (f : nat → A → B → B) p l acc :
  lpath st p l None → (length l ≤ fuel)%nat →
  fold_links fuel st f p acc = Some (fold_left (λ acc a, from_option (λ x, f a x acc) acc (st !! a)) l acc).
Proof.
  revert fuel p acc. induction l as [|a l IH]; intros fuel p acc; cbn.
  - intros -> _. by destruct fuel.
  - intros (-> & x & Hx & Hl) Hf. destruct fuel as [|fuel]; [lia|]. cbn. rewrite Hx. apply IH; [done|lia].
Qed.

Lemma last_link_spec fuel st i l a :
  lpath st (Some i) (l ++ [a]) None → (length l < fuel)%nat → last_link fuel st i = Some a.
Proof.
  revert fuel i. induction l as [|b l IH]; intros fuel i Hl Hf; (destruct fuel as [|fuel]; [lia|]); cbn in *.
  - destruct Hl as ([= <-] & x & -> & ->). done.
  - destruct Hl as ([= <-] & x & -> & Hl). destruct (next x) as [j|] eqn:E; [apply IH; [done|lia]|].
    by destruct l; cbn in Hl; destruct Hl as [? _].
Qed.

(** Pushing an element in front. *)
Lemma lpath_push st st' p l a x :
  lpath st p l None → a ∉ l → st' !! a = Some x → next x = p →
  (∀ b, b ∈ l → next <$> st' !! b = next <$> st !! b) → lpath st' (Some a) (a :: l) None.
Proof.
  intros Hl Ha Hx Hn Hag. cbn. split; [done|]. exists x. split; [done|]. rewrite Hn. by eapply lpath_frame.
Qed.
End links.
