(* ===== verification/Routing.v ===== *)
(** IP routing table: net/routing.c.

    Routes are kept in a fixed array and linked in front insertion order.  The
    abstraction is the list of linked routes; lookup is shown to be the
    best match by netmask, then metric. *)

From S2P Require Import Prelude Links.

Definition ROUTE_MAX_ENTRIES : nat := 128.

Record route := mk_route {
  r_network : Z;
  r_netmask : Z;
  r_gateway : Z;
  r_iface_ip : Z;
  r_metric : Z;
  r_next : option nat;
}.
#[export] Instance route_eta : Eta route := λ r,
  mk_route (r_network r) (r_netmask r) (r_gateway r) (r_iface_ip r) (r_metric r) (r_next r).

Record routing_state := mk_routing {
  route_storage : list route;
  route_table : option nat;
  route_count : Z;
}.
#[export] Instance routing_state_eta : Eta routing_state := λ s,
  mk_routing (route_storage s) (route_table s) (route_count s).

Definition routing_init (s : routing_state) : Z * routing_state :=
  (0, s <| route_table := None |> <| route_count := 0 |>).

Definition route_matches (dst_ip : Z) (r : route) : bool :=
  Z.land dst_ip (r_netmask r) =? Z.land (r_network r) (r_netmask r).

(** The loop variables [best], [best_mask], [best_metric]. *)
Definition lookup_step (dst_ip : Z) (i : nat) (r : route) (acc : option nat * Z * Z) : option nat * Z * Z :=
  let '(best, best_mask, best_metric) := acc in
  if route_matches dst_ip r &&
     ((best_mask <? r_netmask r) || (r_netmask r =? best_mask) && (r_metric r <? best_metric))
  then (Some i, r_netmask r, r_metric r)
  else acc.

(** The outer [None] is an ill-formed list. *)
Definition routing_lookup (dst_ip : Z) (s : routing_state) : option (option nat) :=
  match fold_links r_next (length (route_storage s)) (route_storage s) (lookup_step dst_ip) (route_table s)
          (None, 0, 0xFFFFFFFF) with
  | Some (best, _, _) => Some best
  | None => None
  end.

Definition same_route (a b : route) : bool :=
  (r_network a =? r_network b) && (r_netmask a =? r_netmask b) && (r_gateway a =? r_gateway b).

Definition routing_add (rt : option route) (s : routing_state) : option (Z * routing_state) :=
  match rt with
  | None => Some (-1, s)
  | Some rt =>
      if Z.of_nat ROUTE_MAX_ENTRIES <=? route_count s then Some (-1, s)
      else
        match find_link r_next (length (route_storage s)) (route_storage s) (λ r, same_route r rt) (route_table s) with
        | None => None
        | Some (Some i) => Some (0, s <| route_storage ::= alter (λ r, r <| r_metric := r_metric rt |>) i |>)
        | Some None =>
            let i := Z.to_nat (route_count s) in
            Some (0, s <| route_storage ::= <[i := rt <| r_next := route_table s |>]> |>
                       <| route_table := Some i |>
                       <| route_count := u32 (route_count s + 1) |>)
        end
  end.

(** The scan of [routing_del]: the predecessor of the first route for the
    network, and that route. *)
Fixpoint del_scan (fuel : nat) (st : list route) (network netmask : Z) (prev p : option nat)
    : option (option nat * option nat) :=
  match p with
  | None => Some (prev, None)
  | Some i =>
      match fuel, st !! i with
      | S fuel, Some r =>
          if (r_network r =? network) && (r_netmask r =? netmask) then Some (prev, Some i)
          else del_scan fuel st network netmask (Some i) (r_next r)
      | _, _ => None
      end
  end.

Definition routing_del (network netmask : Z) (s : routing_state) : option (Z * routing_state) :=
  match del_scan (length (route_storage s)) (route_storage s) network netmask None (route_table s) with
  | None => None
  | Some (_, None) => Some (-1, s)
  | Some (prev, Some i) =>
      let nx := match route_storage s !! i with Some r => r_next r | None => None end in
      match prev with
      | Some p => Some (0, s <| route_storage ::= alter (λ r, r <| r_next := nx |>) p |>)
      | None => Some (0, s <| route_table := nx |>)
      end
  end.

Definition routing_set_default (gateway iface_ip : Z) (s : routing_state) : option (Z * routing_state) :=
  routing_add (Some (mk_route 0 0 gateway iface_ip 100 None)) s.

Definition routing_count (s : routing_state) : Z := route_count s.

(** * Invariant and abstraction *)

Record routing_inv (l : list nat) (s : routing_state) : Prop := {
  ri_len : length (route_storage s) = ROUTE_MAX_ENTRIES;
  ri_count : 0 ≤ route_count s ≤ Z.of_nat ROUTE_MAX_ENTRIES;
  ri_path : lpath r_next (route_storage s) (route_table s) l None;
  ri_nodup : NoDup l;
  ri_used : Forall (λ i, Z.of_nat i < route_count s) l;
}.

(** A route without its link. *)
Definition entry (r : route) : route := r <| r_next := None |>.
(** The routes of the table, newest first. *)
Definition routes (l : list nat) (s : routing_state) : list route :=
  omap (λ i, entry <$> route_storage s !! i) l.

Lemma routing_length l s : routing_inv l s → (length l ≤ length (route_storage s))%nat.
Proof. intros [_ _ Hp Hn _]. by eapply lpath_length. Qed.

(** [mask], [metric] are at least as good as the route. *)
Definition dominated (mask metric : Z) (r : route) : Prop :=
  r_netmask r < mask ∨ r_netmask r = mask ∧ metric ≤ r_metric r.

(** The state of the scan after the routes of [l]. *)
Definition best_so_far (dst : Z) (st : list route) (l : list nat) (acc : option nat * Z * Z) : Prop :=
  let '(best, mask, metric) := acc in
  match best with
  | None => mask = 0 ∧ metric = 0xFFFFFFFF
  | Some b => b ∈ l ∧ ∃ r, st !! b = Some r ∧ route_matches dst r = true ∧ mask = r_netmask r ∧ metric = r_metric r
  end ∧
  ∀ i r, i ∈ l → st !! i = Some r → route_matches dst r = true → dominated mask metric r.

Lemma lookup_step_best dst st l i r acc :
  st !! i = Some r → best_so_far dst st l acc → best_so_far dst st (l ++ [i]) (lookup_step dst i r acc).
Proof.
  intros Hi. destruct acc as [[best mask] metric]. intros [Hb Hall].
  assert (Hsplit : ∀ j, j ∈ l ++ [i] ↔ j ∈ l ∨ j = i) by (intros j; by rewrite elem_of_app, list_elem_of_singleton).
  unfold lookup_step. destruct (_ && _) eqn:Ec.
  - apply andb_true_iff in Ec as [Hm Hc].
    assert (mask < r_netmask r ∨ r_netmask r = mask ∧ r_metric r < metric) as Hbetter.
    { apply orb_true_iff in Hc as [?%Z.ltb_lt|[?%Z.eqb_eq ?%Z.ltb_lt]%andb_true_iff]; lia. }
    split; [split; [apply Hsplit; by right|]; by exists r|]. intros j r' Hj Hr' Hm'. unfold dominated in *.
    apply Hsplit in Hj as [Hj| ->]; [specialize (Hall j r' Hj Hr' Hm')|assert (r' = r) by congruence; subst]; lia.
  - split; [destruct best; [|done]; destruct Hb; split; [apply Hsplit; by left|done]|].
    intros j r' Hj Hr' Hm'. apply Hsplit in Hj as [Hj| ->]; [by eapply Hall|]. assert (r' = r) as -> by congruence.
    rewrite Hm' in Ec. apply orb_false_iff in Ec as [?%Z.ltb_ge Ec]. unfold dominated.
    destruct (Z.eqb_spec (r_netmask r) mask); cbn in Ec; [apply Z.ltb_ge in Ec|]; lia.
Qed.

Lemma lookup_fold dst st l1 l2 acc :
  (∀ i, i ∈ l2 → is_Some (st !! i)) → best_so_far dst st l1 acc →
  best_so_far dst st (l1 ++ l2)
    (fold_left (λ acc i, from_option (λ r, lookup_step dst i r acc) acc (st !! i)) l2 acc).
Proof.
  revert l1 acc. induction l2 as [|i l2 IH]; intros l1 acc Hst Hacc; cbn [fold_left]; [by rewrite app_nil_r|].
  destruct (Hst i ltac:(left)) as [r Hr]. rewrite Hr. cbn [from_option].
  replace (l1 ++ i :: l2) with ((l1 ++ [i]) ++ l2) by (by rewrite <-app_assoc).
  apply IH; [intros j Hj; apply Hst; by right|]. by apply lookup_step_best.
Qed.

(** * Updates *)

Lemma routes_ext l s s' :
  (∀ i, i ∈ l → entry <$> route_storage s' !! i = entry <$> route_storage s !! i) → routes l s' = routes l s.
Proof.
  intros H. unfold routes. induction l as [|i l IH]; [done|]. cbn. rewrite (H i) by left.
  rewrite IH; [done|]. intros j Hj. apply H. by right.
Qed.

(** Changing the link of a route outside the part of the list that is kept. *)
Lemma entry_relink (st : list route) (p : nat) nx (i : nat) :
  entry <$> alter (λ r, r <| r_next := nx |>) p st !! i = entry <$> st !! i.
Proof. rewrite list_lookup_alter. case_decide; [|done]. subst. by destruct (st !! _). Qed.

Lemma del_scan_spec fuel st network netmask prev p l :
  lpath r_next st p l None → (length l ≤ fuel)%nat →
  let hit i := from_option (λ r, (r_network r =? network) && (r_netmask r =? netmask)) false (st !! i) in
  (Forall (λ i, hit i = false) l ∧ ∃ q, del_scan fuel st network netmask prev p = Some (q, None)) ∨
  (∃ l1 i l2, l = l1 ++ i :: l2 ∧ Forall (λ i, hit i = false) l1 ∧ hit i = true ∧
     del_scan fuel st network netmask prev p = Some (match last l1 with Some q => Some q | None => prev end, Some i)).
Proof.
  intros Hl Hf hit. revert fuel prev p Hl Hf. induction l as [|i l IH]; intros fuel prev p; cbn [lpath length].
  - intros -> _. left. split; [constructor|]. exists prev. by destruct fuel.
  - intros (-> & r & Hr & Hl) Hf. destruct fuel as [|fuel]; [lia|]. cbn [del_scan]. rewrite Hr.
    assert (hit i = (r_network r =? network) && (r_netmask r =? netmask)) as Hh by (unfold hit; by rewrite Hr).
    destruct (_ && _) eqn:E.
    + right. exists [], i, l. by split_and!.
    + destruct (IH fuel (Some i) (r_next r) Hl ltac:(lia)) as [[HF Hd]|(l1 & j & l2 & -> & HF & Hj & Hd)].
      * left. split; [by constructor|done].
      * right. exists (i :: l1), j, l2. split_and!; try done; [by constructor|]. rewrite Hd, last_cons. by destruct (last l1).
Qed.

Lemma routing_del_cases network netmask l s :
  routing_inv l s →
  (Forall (λ r, r_network r = network ∧ r_netmask r = netmask → False) (routes l s) ∧
   routing_del network netmask s = Some (-1, s)) ∨
  (∃ l1 i l2 r s', l = l1 ++ i :: l2 ∧ route_storage s !! i = Some r ∧
     r_network r = network ∧ r_netmask r = netmask ∧
     Forall (λ r, r_network r = network ∧ r_netmask r = netmask → False) (routes l1 s) ∧
     routing_del network netmask s = Some (0, s') ∧ routing_inv (l1 ++ l2) s' ∧
     routes (l1 ++ l2) s' = routes (l1 ++ l2) s ∧ route_count s' = route_count s).
Proof.
  intros Hinv. pose proof Hinv as [Hlen Hcnt Hp Hnd Hus]. unfold routing_del.
  assert (Hmiss : ∀ k, Forall (λ i, from_option (λ r, (r_network r =? network) && (r_netmask r =? netmask)) false
      (route_storage s !! i) = false) k → Forall (λ r, r_network r = network ∧ r_netmask r = netmask → False) (routes k s)).
  { intros k HF. apply Forall_forall. intros r (i & Hi & Hr)%list_elem_of_omap [E1 E2].
    rewrite Forall_forall in HF. specialize (HF i Hi). destruct (route_storage s !! i) as [r0|]; [|done]. cbn in *.
    injection Hr as <-. cbn in *. by rewrite E1, E2, !Z.eqb_refl in HF. }
  destruct (del_scan_spec (length (route_storage s)) (route_storage s) network netmask None (route_table s) l Hp
    (routing_length _ _ Hinv)) as [[HF [q ->]]|(l1 & i & l2 & -> & HF & Hi & ->)].
  { left. split; [by apply Hmiss|done]. }
  right. destruct (route_storage s !! i) as [r|] eqn:Hr; [|done]. cbn in Hi.
  apply andb_true_iff in Hi as [?%Z.eqb_eq ?%Z.eqb_eq].
  apply NoDup_app in Hnd as (N1 & Nd & [Ni N2]%NoDup_cons). apply Forall_app in Hus as [U1 [Ui U2]%Forall_cons].
  assert (Hnd' : NoDup (l1 ++ l2)).
  { apply NoDup_app. split; [done|]. split; [|done]. intros x H1 H2. apply (Nd x H1). by right. }
  pose proof Hp as (q & Hp1 & (-> & r' & Hr' & Hp2))%lpath_app. assert (r' = r) as -> by congruence.
  destruct (last l1) as [p|] eqn:Elast.
  - apply last_Some in Elast as [l0 ->].
    pose proof Hp1 as (q & Hp0 & (-> & rp & Hrp & _))%lpath_app.
    assert (Hpl0 : ¬ p ∈ l0) by (apply NoDup_app in N1 as (_ & Hd0 & _); intros Hx; apply (Hd0 p Hx); left).
    assert (Hpl2 : ¬ p ∈ l2) by (intros Hx; apply (Nd p); [apply elem_of_app; right; left|by right]).
    exists (l0 ++ [p]), i, l2, r. eexists. split_and!; try done; [by apply Hmiss| |].
    + split; cbn; try done; [by rewrite length_alter| |by apply Forall_app].
      rewrite <-app_assoc. apply lpath_app. exists (Some p). split.
      * eapply lpath_frame; [|exact Hp0]. intros x Hx. rewrite list_lookup_alter_ne; [done|]. by intros <-.
      * cbn. split; [done|]. rewrite list_lookup_alter_eq, Hrp. eexists. split; [done|]. cbn.
        eapply lpath_frame; [|exact Hp2]. intros x Hx. rewrite list_lookup_alter_ne; [done|]. by intros <-.
    + apply routes_ext. intros j _. cbn. apply entry_relink.
  - apply last_None in Elast as ->. cbn in Hp1. exists [], i, l2, r. eexists. split_and!; try done.
Qed.

Lemma routing_add_cases rt l s :
  routing_inv l s →
  (route_count s = Z.of_nat ROUTE_MAX_ENTRIES ∧ routing_add (Some rt) s = Some (-1, s)) ∨
  (∃ i r s', i ∈ l ∧ route_storage s !! i = Some r ∧ same_route r rt = true ∧
     routing_add (Some rt) s = Some (0, s') ∧ routing_inv l s' ∧
     s' = s <| route_storage ::= alter (λ r, r <| r_metric := r_metric rt |>) i |>) ∨
  (∃ i s', Forall (λ r, same_route r rt = false) (routes l s) ∧
     routing_add (Some rt) s = Some (0, s') ∧ routing_inv (i :: l) s' ∧
     routes (i :: l) s' = entry rt :: routes l s).
Proof.
  intros Hinv. pose proof Hinv as [Hlen Hcnt Hp Hnd Hus]. unfold routing_add.
  destruct (Z.leb_spec (Z.of_nat ROUTE_MAX_ENTRIES) (route_count s)); [left; split; [lia|done]|right].
  rewrite (find_link_spec _ _ _ _ _ l Hp (routing_length _ _ Hinv)).
  destruct (List.find _ l) as [i|] eqn:E; [left|right].
  - apply find_some in E as [Hin Hi]. apply list_elem_of_In in Hin.
    destruct (route_storage s !! i) as [r|] eqn:Hr; [|done]. cbn in Hi. exists i, r. eexists. split_and!; try done.
    split; cbn; try done; [by rewrite length_alter|]. eapply lpath_frame; [|exact Hp]. intros j _.
    rewrite list_lookup_alter. case_decide; [|done]. subst. by destruct (_ !! _).
  - set (i := Z.to_nat (route_count s)).
    set (s1 := s <| route_storage ::= <[i := rt <| r_next := route_table s |>]> |>
                 <| route_table := Some i |> <| route_count := u32 (route_count s + 1) |>). exists i, s1.
    assert (Hi : ¬ i ∈ l) by (intros Hx; rewrite Forall_forall in Hus; specialize (Hus i Hx); unfold i in Hus; lia).
    assert (Hlt : (i < length (route_storage s))%nat) by (rewrite Hlen; unfold i, ROUTE_MAX_ENTRIES in *; lia).
    split.
    { apply Forall_forall. intros r (j & Hj & Hr)%list_elem_of_omap.
      pose proof (find_none _ _ E j (proj1 (list_elem_of_In _ _) Hj)) as Hn. cbn in Hn.
      destruct (route_storage s !! j) as [r0|]; [|done]. cbn in *. by injection Hr as <-. }
    split; [done|]. split; [split; cbn; try done|].
    + by rewrite length_insert.
    + rewrite u32_small; unfold ROUTE_MAX_ENTRIES in *; lia.
    + fold i. apply (lpath_push r_next (route_storage s) _ (route_table s) l i (rt <| r_next := route_table s |>)); try done.
      * by apply list_lookup_insert_eq.
      * intros b Hb. rewrite list_lookup_insert_ne; [done|]. by intros <-.
    + fold i. by constructor.
    + rewrite u32_small by (unfold ROUTE_MAX_ENTRIES in *; lia). constructor; [unfold i; lia|].
      eapply Forall_impl; [exact Hus|]. cbn. lia.
    + assert (routes l s1 = routes l s) as <-.
      { apply routes_ext. intros j Hj. cbn. rewrite list_lookup_insert_ne; [done|]. by intros <-. }
      unfold routes. cbn. by rewrite list_lookup_insert_eq by done.
Qed.

(** * Theorems *)

(** Longest-prefix match.  On a well-formed table [routing_lookup] always
    returns, and the route it returns is in the table, matches the
    destination, and no matching route of the table has a numerically larger
    netmask, nor the same netmask with a smaller metric.  It returns NULL only
    when no route matches, apart from default routes with the metric
    0xFFFFFFFF or above. *)
Theorem routing_lookup_longest_prefix dst l s :
  routing_inv l s → (∀ i r, i ∈ l → route_storage s !! i = Some r → 0 ≤ r_netmask r) →
  (∃ i r, routing_lookup dst s = Some (Some i) ∧ i ∈ l ∧ route_storage s !! i = Some r ∧
     route_matches dst r = true ∧
     ∀ j r', j ∈ l → route_storage s !! j = Some r' → route_matches dst r' = true →
       r_netmask r' < r_netmask r ∨ r_netmask r' = r_netmask r ∧ r_metric r ≤ r_metric r') ∨
  (routing_lookup dst s = Some None ∧
     ∀ j r', j ∈ l → route_storage s !! j = Some r' → route_matches dst r' = true →
       r_netmask r' = 0 ∧ 0xFFFFFFFF ≤ r_metric r').
Proof.
  intros Hinv Hmask. pose proof Hinv as [_ _ Hp _ _]. unfold routing_lookup.
  rewrite (fold_links_spec _ _ _ _ _ l _ Hp (routing_length _ _ Hinv)).
  pose proof (lookup_fold dst (route_storage s) [] l (None, 0, 0xFFFFFFFF)) as Hb.
  destruct (fold_left _ l _) as [[best mask] metric]. destruct Hb as [Hbest Hall].
  - intros i Hi. by eapply lpath_lookup.
  - split; [done|]. by intros ? ? ?%not_elem_of_nil.
  - destruct best as [b|].
    + destruct Hbest as (Hin & r & Hr & Hm & -> & ->). left. exists b, r. split_and!; try done.
    + destruct Hbest as [-> ->]. right. split; [done|]. intros j r' Hj Hr' Hm'.
      pose proof (Hmask j r' Hj Hr'). destruct (Hall j r' Hj Hr' Hm'); lia.
Qed.

Definition empty_routing : routing_state :=
  snd (routing_init (mk_routing (replicate 128 (mk_route 0 0 0 0 0 None)) None 0)).
Definition add_route (r : route) (s : routing_state) : routing_state := from_option snd s (routing_add (Some r) s).
(** A default route, a /8 and a /24. *)
Definition example_routing : routing_state :=
  add_route (mk_route 0x0A010200 0xFFFFFF00 3 0 1 None)
    (add_route (mk_route 0x0A000000 0xFF000000 2 0 1 None)
       (add_route (mk_route 0 0 1 0 100 None) empty_routing)).

Lemma example_routing_inv : routing_inv [2; 1; 0]%nat example_routing.
Proof.
  split; [reflexivity|split; [done|vm_compute; discriminate]| | |].
  - cbn. split; [done|]. eexists. split; [reflexivity|]. split; [done|]. eexists. split; [reflexivity|].
    split; [done|]. eexists. split; [reflexivity|done].
  - repeat constructor; set_solver.
  - repeat constructor.
Qed.

Lemma routing_lookup_longest_prefix_witness :
  ∃ i r, routing_lookup 0x0A010203 example_routing = Some (Some i) ∧
    route_storage example_routing !! i = Some r ∧ r_gateway r = 3.
Proof.
  destruct (routing_lookup_longest_prefix 0x0A010203 _ _ example_routing_inv) as [(i & r & Hrun & _ & Hr & _)|[Hrun _]].
  - intros i r Hi Hr. assert (i = 2 ∨ i = 1 ∨ i = 0)%nat as [->|[->| ->]] by set_solver;
      vm_compute in Hr; injection Hr as <-; cbn; lia.
  - exists i, r. split; [exact Hrun|]. split; [exact Hr|].
    vm_compute in Hrun. injection Hrun as <-. vm_compute in Hr. injection Hr as <-. reflexivity.
  - exfalso. vm_compute in Hrun. discriminate Hrun.
Defined.

(** Deleting routes does not give their storage back: after 128 additions in
    all, every further one is refused although the table may be empty. *)
Lemma routing_storage_not_reclaimed :
  let s := Nat.iter 128 (λ s, let s := add_route (mk_route 1 1 1 1 1 None) s in
                             from_option snd s (routing_del 1 1 s)) empty_routing in
  route_table s = None ∧ route_count s = 128 ∧ fst <$> routing_add (Some (mk_route 2 2 2 2 2 None)) s = Some (-1).
Proof. vm_compute. done. Qed.
