(* ===== verification/Checksum.v ===== *)
(** Internet checksum: the 16-bit one's-complement sum of net/ipv4.c
    ([ip_checksum]), net/icmp.c ([icmp_checksum]), net/nat.c
    ([ip_recalc_checksum]), net/udp.c and net/tcp.c ([tcp_checksum]).

    All of them add little-endian 16-bit words into a u32, fold the carries and
    complement.  The specification is the residue of the sum modulo 65535. *)

From S2P Require Import Prelude.

(** [while (len > 1) { sum += word; len -= 2; } if (len == 1) sum += byte;] *)
Fixpoint sum16 (bytes : list Z) (sum : Z) : Z :=
  match bytes with
  | a :: b :: r => sum16 r (u32 (sum + Z.lor a (Z.shiftl b 8)))
  | [a] => u32 (sum + a)
  | [] => sum
  end.

(** [while (sum >> 16) sum = (sum & 0xFFFF) + (sum >> 16);] *)
Fixpoint fold_carry (fuel : nat) (sum : Z) : Z :=
  match fuel with
  | O => sum
  | S fuel =>
      if Z.shiftr sum 16 =? 0 then sum
      else fold_carry fuel (u32 (Z.land sum 65535 + Z.shiftr sum 16))
  end.

(** Two folds are enough for any u32, the third test ends the loop. *)
Definition finish (sum : Z) : Z := u16 (Z.lnot (fold_carry 3 sum)).

Definition ip_checksum (bytes : list Z) : Z := finish (sum16 bytes 0).

(** * Specification *)

(** Sum of the words of the message. *)
Fixpoint word_sum (bytes : list Z) : Z :=
  match bytes with
  | a :: b :: r => a + 256 * b + word_sum r
  | [a] => a
  | [] => 0
  end.

(** The non-zero representative of a non-zero sum modulo 65535. *)
Definition ones_sum (s : Z) : Z := if s =? 0 then 0 else (s - 1) mod 65535 + 1.

Abbreviation bytes_ok := (Forall (λ b, 0 ≤ b < 256)).

(** Induction two elements at a time. *)
Lemma pairs_ind (P : list Z → Prop) :
  P [] → (∀ a, P [a]) → (∀ a b r, P r → P (a :: b :: r)) → ∀ l, P l.
Proof.
  intros H0 H1 H2. assert (∀ n l, (length l ≤ n)%nat → P l) as H; [|intros l; by apply (H (length l))].
  induction n as [|n IH]; intros [|a [|b r]] Hl; cbn in Hl; try done; try lia. apply H2, IH. lia.
Qed.

Lemma word_sum_bound bytes : bytes_ok bytes → 0 ≤ word_sum bytes ≤ 65535 * Z.of_nat (length bytes).
Proof.
  induction bytes as [|a|a b r IH] using pairs_ind; intros Hb; cbn [word_sum length]; [lia| |].
  - apply Forall_cons in Hb as [? _]. lia.
  - apply Forall_cons in Hb as [? Hb]. apply Forall_cons in Hb as [? Hb]. apply IH in Hb. lia.
Qed.

(** A message of less than 64 KiB does not overflow the accumulator. *)
Lemma sum16_spec bytes sum :
  bytes_ok bytes → 0 ≤ sum → sum + 65535 * Z.of_nat (length bytes) < 2 ^ 32 → sum16 bytes sum = sum + word_sum bytes.
Proof.
  revert sum. induction bytes as [|a|a b r IH] using pairs_ind; intros sum Hb Hs Hl; cbn [sum16 word_sum length] in *; [lia| |].
  - apply Forall_cons in Hb as [? _]. rewrite u32_small by lia. done.
  - apply Forall_cons in Hb as [Ha Hb]. apply Forall_cons in Hb as [Hb' Hb]. rewrite lor_shift8 by lia.
    rewrite u32_small by lia. rewrite IH by (done || lia). lia.
Qed.

Lemma ones_sum_mod s : 0 ≤ s → ones_sum s mod 65535 = s mod 65535.
Proof. intros Hs. unfold ones_sum. destruct (Z.eqb_spec s 0) as [->|]; [done|]. divlia. Qed.

Lemma ones_sum_range s : 0 ≤ s → 0 ≤ ones_sum s ≤ 65535 ∧ (0 < s → 0 < ones_sum s).
Proof. intros Hs. unfold ones_sum. destruct (Z.eqb_spec s 0); divlia. Qed.

Lemma fold_once s : 0 ≤ s < 2 ^ 32 → 65536 ≤ s →
  ones_sum (Z.land s 65535 + Z.shiftr s 16) = ones_sum s ∧ 0 < Z.land s 65535 + Z.shiftr s 16 ≤ 131070 ∧
  (s ≤ 131070 → Z.land s 65535 + Z.shiftr s 16 ≤ 65535).
Proof.
  intros Hs Hlo. assert (Z.land s 65535 = s mod 65536) as -> by apply (Z.land_ones s 16 ltac:(lia)).
  rewrite Z.shiftr_div_pow2 by lia. change (2 ^ 16) with 65536. unfold ones_sum.
  replace (s =? 0) with false by lia. replace (s mod 65536 + s / 65536 =? 0) with false by divlia. divlia.
Qed.

Lemma shiftr16_eqb s : 0 ≤ s → (Z.shiftr s 16 =? 0) = (s <? 65536).
Proof. intros. rewrite Z.shiftr_div_pow2 by lia. change (2 ^ 16) with 65536. divlia. Qed.

Lemma fold_carry_spec s : 0 ≤ s < 2 ^ 32 → fold_carry 3 s = ones_sum s.
Proof.
  assert (∀ s, 0 ≤ s < 65536 → ones_sum s = s) as Hid.
  { intros t Ht. unfold ones_sum. destruct (Z.eqb_spec t 0); divlia. }
  intros Hs. cbn [fold_carry]. rewrite shiftr16_eqb by lia. destruct (Z.ltb_spec s 65536); [by rewrite Hid by lia|].
  destruct (fold_once s) as (E1 & B1 & _); [lia..|]. rewrite <-E1. set (s1 := Z.land s 65535 + _) in *.
  rewrite u32_small by lia. rewrite shiftr16_eqb by lia. destruct (Z.ltb_spec s1 65536); [by rewrite Hid by lia|].
  destruct (fold_once s1) as (E2 & B2 & B2'); [lia..|]. rewrite <-E2. set (s2 := Z.land s1 65535 + _) in *.
  rewrite u32_small by lia. rewrite shiftr16_eqb by lia. replace (s2 <? 65536) with true by lia. rewrite Hid by lia. done.
Qed.

Lemma finish_spec s : 0 ≤ s < 2 ^ 32 → finish s = 65535 - ones_sum s.
Proof.
  intros Hs. unfold finish. rewrite fold_carry_spec by done. pose proof (ones_sum_range s ltac:(lia)).
  unfold u16, Z.lnot. divlia.
Qed.

Lemma ip_checksum_spec bytes :
  bytes_ok bytes → Z.of_nat (length bytes) < 65536 → ip_checksum bytes = 65535 - ones_sum (word_sum bytes).
Proof.
  intros Hb Hl. unfold ip_checksum. rewrite sum16_spec by (done || lia). rewrite Z.add_0_l. apply finish_spec.
  pose proof (word_sum_bound bytes Hb). lia.
Qed.

Lemma finish_range s : 0 ≤ finish s < 65536.
Proof. apply u16_range. Qed.

(** The checksum depends on the sum modulo 65535 only, up to the two zeros. *)
Lemma finish_inj s t : 0 ≤ s < 2 ^ 32 → 0 ≤ t < 2 ^ 32 → finish s = finish t → s mod 65535 = t mod 65535.
Proof.
  intros Hs Ht. rewrite !finish_spec by done. intros E. rewrite <-(ones_sum_mod s), <-(ones_sum_mod t) by lia. f_equal. lia.
Qed.

(** * Words of a message *)

Definition get_word (bytes : list Z) (k : nat) : Z :=
  default 0 (bytes !! (2 * k)%nat) + 256 * default 0 (bytes !! (2 * k + 1)%nat).
(** Store of a u16 at word index [k]. *)
Definition set_word (k : nat) (v : Z) (bytes : list Z) : list Z :=
  <[(2 * k + 1)%nat := v / 256]> (<[(2 * k)%nat := v mod 256]> bytes).

Lemma set_word_length k v bytes : length (set_word k v bytes) = length bytes.
Proof. unfold set_word. by rewrite !length_insert. Qed.

Lemma set_word_ok k v bytes : bytes_ok bytes → 0 ≤ v < 65536 → bytes_ok (set_word k v bytes).
Proof. intros Hb Hv. unfold set_word. repeat apply Forall_insert; [done|divlia|divlia]. Qed.

Lemma set_word_cons k v a b r : set_word (S k) v (a :: b :: r) = a :: b :: set_word k v r.
Proof.
  unfold set_word. replace (2 * S k)%nat with (S (S (2 * k))) by lia.
  replace (S (S (2 * k)) + 1)%nat with (S (S (2 * k + 1))) by lia. done.
Qed.

Lemma get_word_cons k a b r : get_word (a :: b :: r) (S k) = get_word r k.
Proof.
  unfold get_word. replace (2 * S k)%nat with (S (S (2 * k))) by lia.
  replace (S (S (2 * k)) + 1)%nat with (S (S (2 * k + 1))) by lia. done.
Qed.

Lemma word_sum_set k v bytes :
  (2 * k + 1 < length bytes)%nat → word_sum (set_word k v bytes) = word_sum bytes - get_word bytes k + v.
Proof.
  revert k. induction bytes as [|a|a b r IH] using pairs_ind; intros k Hk; cbn [length] in Hk; [lia|lia|].
  destruct k as [|k].
  - cbn. unfold get_word. cbn. pose proof (Z.div_mod v 256 ltac:(lia)). lia.
  - rewrite set_word_cons, get_word_cons. cbn [word_sum]. rewrite IH by lia. lia.
Qed.

Lemma get_set_word_eq k v bytes : (2 * k + 1 < length bytes)%nat → get_word (set_word k v bytes) k = v.
Proof.
  intros Hk. unfold get_word, set_word.
  rewrite list_lookup_insert_ne, list_lookup_insert_eq, list_lookup_insert_eq by (rewrite ?length_insert; lia).
  cbn. pose proof (Z.div_mod v 256 ltac:(lia)). lia.
Qed.

Lemma get_set_word_ne j k v bytes : j ≠ k → get_word (set_word k v bytes) j = get_word bytes j.
Proof. intros Hk. unfold get_word, set_word. by rewrite !list_lookup_insert_ne by lia. Qed.

Lemma get_word_range bytes k : bytes_ok bytes → 0 ≤ get_word bytes k < 65536.
Proof.
  intros Hb. unfold get_word.
  assert (∀ i, 0 ≤ default 0 (bytes !! i) < 256) as H.
  { intros i. destruct (bytes !! i) as [b|] eqn:E; cbn; [by apply (Forall_lookup_1 _ _ _ _ Hb E)|lia]. }
  pose proof (H (2 * k)%nat). pose proof (H (2 * k + 1)%nat). lia.
Qed.

Lemma set_word_comm j k v w bytes : j ≠ k → set_word j v (set_word k w bytes) = set_word k w (set_word j v bytes).
Proof.
  intros Hne. unfold set_word. rewrite (list_insert_insert_ne _ (2 * j) (2 * k + 1)) by lia.
  rewrite (list_insert_insert_ne _ (2 * j) (2 * k)) by lia. rewrite (list_insert_insert_ne _ (2 * j + 1) (2 * k + 1)) by lia.
  rewrite (list_insert_insert_ne _ (2 * j + 1) (2 * k)) by lia. done.
Qed.

Lemma set_word_twice k v w bytes : set_word k v (set_word k w bytes) = set_word k v bytes.
Proof.
  unfold set_word. rewrite (list_insert_insert_ne _ (2 * k) (2 * k + 1)) by lia. by rewrite !list_insert_insert_eq.
Qed.

(** * The receiver's test *)

(** [saved = hdr->checksum; hdr->checksum = 0; calc = ip_checksum(hdr, len);] the
    field is word [k]. *)
Definition checksum_ok (k : nat) (bytes : list Z) : bool :=
  ip_checksum (set_word k 0 bytes) =? get_word bytes k.

(** The sender's [hdr->checksum = 0; hdr->checksum = ip_checksum(hdr, len);] *)
Definition fill_checksum (k : nat) (bytes : list Z) : list Z :=
  set_word k (ip_checksum (set_word k 0 bytes)) bytes.

Lemma fill_checksum_ok k bytes : (2 * k + 1 < length bytes)%nat → checksum_ok k (fill_checksum k bytes) = true.
Proof.
  intros Hk. unfold checksum_ok, fill_checksum. rewrite set_word_twice, get_set_word_eq by done. apply Z.eqb_refl.
Qed.

Lemma checksum_detects k j v bytes :
  bytes_ok bytes → Z.of_nat (length bytes) < 65536 → (2 * k + 1 < length bytes)%nat → (2 * j + 1 < length bytes)%nat →
  0 ≤ v < 65536 → v mod 65535 ≠ get_word bytes j mod 65535 →
  checksum_ok k bytes = true → checksum_ok k (set_word j v bytes) = false.
Proof.
  intros Hb Hl Hk Hj Hv Hne Hok. apply Z.eqb_eq in Hok. apply Z.eqb_neq. intros E.
  destruct (decide (j = k)) as [->|Hjk].
  { rewrite set_word_twice, get_set_word_eq in E by done. rewrite E in Hok. by rewrite <-Hok in Hne. }
  rewrite get_set_word_ne, <-Hok in E by done. rewrite set_word_comm in E by done.
  set (z := set_word k 0 bytes) in *. assert (bytes_ok z) as Hz by (by apply set_word_ok).
  assert (length z = length bytes) as Hlz by apply set_word_length.
  assert (bytes_ok (set_word j v z)) as Hz' by (by apply set_word_ok). rewrite !ip_checksum_spec in E by (rewrite ?set_word_length; done || lia).
  pose proof (word_sum_bound _ Hz). pose proof (word_sum_bound _ Hz').
  assert (word_sum (set_word j v z) mod 65535 = word_sum z mod 65535) as Em.
  { rewrite <-(ones_sum_mod (word_sum z)), <-(ones_sum_mod (word_sum (set_word j v z))) by lia. f_equal. lia. }
  rewrite word_sum_set in Em by lia. unfold z in Em at 2. rewrite get_set_word_ne in Em by done.
  apply Hne. clear -Em. revert Em. generalize (word_sum z), (get_word bytes j). intros s w. divlia.
Qed.
