(* ===== verification/Packet.v ===== *)
(** Packet buffers: net/packet.c, a pool of 64 buffers of 1514 bytes with a
    free list threaded through them.

    A [pktbuf_t *] is an index of the pool.  Reads and writes through
    [pkt->data + pkt->head + off] are bounds checked against the 1514 bytes of
    the buffer: [None] is an access outside it. *)

From S2P Require Import Prelude Links Checksum.

Definition PKT_MAX_LEN : Z := 1514.
Definition PKT_POOL_SIZE : nat := 64.

Record pktbuf := mk_pkt { pk_len : Z; pk_head : Z; pk_data : list Z; pk_next : option nat }.
#[export] Instance pktbuf_eta : Eta pktbuf := λ p, mk_pkt (pk_len p) (pk_head p) (pk_data p) (pk_next p).

Record pkt_state := mk_pkts {
  pkt_pool : list pktbuf;
  free_list : option nat;
  packet_pool_initialized : bool;
}.
#[export] Instance pkt_state_eta : Eta pkt_state := λ s,
  mk_pkts (pkt_pool s) (free_list s) (packet_pool_initialized s).

(** * Pool *)

Definition pktbuf_pool_init (s : pkt_state) : pkt_state :=
  (for_from 0 PKT_POOL_SIZE
     (λ i s, s <| pkt_pool ::= alter (λ p, p <| pk_next := free_list s |>) (Z.to_nat i) |>
               <| free_list := Some (Z.to_nat i) |>)
     (s <| free_list := None |>)) <| packet_pool_initialized := true |>.

Definition pktbuf_alloc (s : pkt_state) : option nat * pkt_state :=
  let s := if packet_pool_initialized s then s else pktbuf_pool_init s in
  match free_list s with
  | None => (None, s)
  | Some i =>
      (Some i,
       s <| free_list := match pkt_pool s !! i with Some p => pk_next p | None => None end |>
         <| pkt_pool ::= alter (λ p, p <| pk_len := 0 |> <| pk_head := PKT_MAX_LEN / 2 |> <| pk_next := None |>) i |>)
  end.

Definition pktbuf_free (pkt : option nat) (s : pkt_state) : pkt_state :=
  match pkt with
  | None => s
  | Some i =>
      s <| pkt_pool ::= alter (λ p, p <| pk_len := 0 |> <| pk_head := 0 |> <| pk_next := free_list s |>) i |>
        <| free_list := Some i |>
  end.

(** * One buffer *)

(** The pointer returned is an offset into [data]. *)
Definition pktbuf_push (bytes : Z) (p : pktbuf) : option Z * pktbuf :=
  if pk_head p <? bytes then (None, p)
  else
    let p := p <| pk_head := u16 (pk_head p - bytes) |> <| pk_len := u16 (pk_len p + bytes) |> in
    (Some (pk_head p), p).

Definition pktbuf_pull (bytes : Z) (p : pktbuf) : option Z * pktbuf :=
  if pk_len p <? bytes then (None, p)
  else
    (Some (pk_head p),
     p <| pk_head := u16 (pk_head p + bytes) |> <| pk_len := u16 (pk_len p - bytes) |>).

(** Bytes at [data + head + off], assembled as little-endian loads. *)
Definition get8 (p : pktbuf) (off : Z) : option Z := pk_data p !! Z.to_nat (pk_head p + off).
Definition get16 (p : pktbuf) (off : Z) : option Z :=
  a ← get8 p off; b ← get8 p (off + 1); Some (a + 256 * b).
Definition get32 (p : pktbuf) (off : Z) : option Z :=
  a ← get16 p off; b ← get16 p (off + 2); Some (a + 65536 * b).
Definition put8 (off v : Z) (p : pktbuf) : option pktbuf :=
  let i := Z.to_nat (pk_head p + off) in
  if (i <? length (pk_data p))%nat then Some (p <| pk_data ::= <[i := v]> |>) else None.
Definition put16 (off v : Z) (p : pktbuf) : option pktbuf :=
  p ← put8 off (v mod 256) p; put8 (off + 1) (v / 256) p.
Definition put32 (off v : Z) (p : pktbuf) : option pktbuf :=
  p ← put16 off (v mod 65536) p; put16 (off + 2) (v / 65536) p.
(** [for (i = 0; i < n; i++) (data + head + off)[i] = src[i];] *)
Fixpoint put_bytes (off : Z) (src : list Z) (p : pktbuf) : option pktbuf :=
  match src with
  | [] => Some p
  | b :: src => p ← put8 off b p; put_bytes (off + 1) src p
  end.
(** The bytes [off], ..., [off + n - 1] after the head. *)
Fixpoint get_bytes (p : pktbuf) (off : Z) (n : nat) : option (list Z) :=
  match n with
  | O => Some []
  | S n => b ← get8 p off; r ← get_bytes p (off + 1) n; Some (b :: r)
  end.

(** [(transport[0] << 8) | transport[1]] *)
Definition port_at (p : pktbuf) (off : Z) : option Z :=
  a ← get8 p off; b ← get8 p (off + 1); Some (u16 (Z.lor (Z.shiftl a 8) b)).

(** Conversion between host and network order of a 16-bit word. *)
Definition swap16 (v : Z) : Z := u16 (Z.lor (Z.shiftr v 8) (Z.shiftl v 8)).

Lemma swap16_spec v : 0 ≤ v < 65536 → swap16 v = v / 256 + 256 * (v mod 256).
Proof.
  intros Hv. unfold swap16. rewrite Z.shiftr_div_pow2, Z.shiftl_mul_pow2 by lia.
  change (2 ^ 8) with 256.
  assert (Z.land (v / 256) (v * 256) = 0) as Hd.
  { apply Z.bits_inj'. intros n Hn. rewrite Z.land_spec, Z.bits_0. change 256 with (2 ^ 8).
    rewrite Z.mul_pow2_bits by lia. rewrite Z.div_pow2_bits by lia.
    destruct (decide (n < 8)); [rewrite (Z.testbit_neg_r v (n - 8)) by lia; by rewrite andb_false_r|].
    rewrite <-(Z.mod_small v (2 ^ 16)) by lia. rewrite Z.mod_pow2_bits_high by lia. done. }
  rewrite <-Z.lxor_lor, <-Z.add_nocarry_lxor by done. unfold u16. divlia.
Qed.

Lemma swap16_invol v : 0 ≤ v < 65536 → swap16 (swap16 v) = v.
Proof.
  intros Hv. rewrite (swap16_spec v) by done. rewrite swap16_spec by divlia. divlia.
Qed.

Lemma swap16_range v : 0 ≤ swap16 v < 65536.
Proof. apply u16_range. Qed.

(** ** Well-formed buffers *)

Record pkt_wf (p : pktbuf) : Prop := {
  pw_data : length (pk_data p) = Z.to_nat PKT_MAX_LEN;
  pw_bytes : Forall (λ b, 0 ≤ b < 256) (pk_data p);
  pw_head : 0 ≤ pk_head p;
  pw_len : 0 ≤ pk_len p;
  pw_room : pk_head p + pk_len p ≤ PKT_MAX_LEN;
}.

Lemma get8_ok p off : pkt_wf p → 0 ≤ off → pk_head p + off < PKT_MAX_LEN → ∃ b, get8 p off = Some b ∧ 0 ≤ b < 256.
Proof.
  intros [Hd Hb Hh Hl Hr] Ho Hlt. unfold get8, PKT_MAX_LEN in *.
  destruct (lookup_lt_is_Some_2 (pk_data p) (Z.to_nat (pk_head p + off))) as [b E]; [lia|].
  exists b. split; [done|]. by eapply (Forall_lookup_1 _ _ _ _ Hb E).
Qed.
Lemma get16_ok p off :
  pkt_wf p → 0 ≤ off → pk_head p + off + 1 < PKT_MAX_LEN → ∃ v, get16 p off = Some v ∧ 0 ≤ v < 65536.
Proof.
  intros Hw Ho Hlt. unfold get16. destruct (get8_ok p off Hw) as (a & -> & ?); [lia|lia|].
  destruct (get8_ok p (off + 1) Hw) as (b & -> & ?); [lia|lia|]. cbn. eexists. split; [done|lia].
Qed.
Lemma get32_ok p off :
  pkt_wf p → 0 ≤ off → pk_head p + off + 3 < PKT_MAX_LEN → ∃ v, get32 p off = Some v ∧ 0 ≤ v < 2 ^ 32.
Proof.
  intros Hw Ho Hlt. unfold get32. destruct (get16_ok p off Hw) as (a & -> & ?); [lia|lia|].
  destruct (get16_ok p (off + 2) Hw) as (b & -> & ?); [lia|lia|]. cbn [mbind option_bind]. eexists. split; [done|lia].
Qed.

Lemma port_at_spec a b p off :
  get8 p off = Some a → get8 p (off + 1) = Some b → 0 ≤ a < 256 → 0 ≤ b < 256 → port_at p off = Some (256 * a + b).
Proof.
  intros Ha Hb Hra Hrb. unfold port_at. rewrite Ha, Hb. cbn [mbind option_bind]. f_equal.
  rewrite Z.lor_comm, lor_shift8 by lia. rewrite u16_small by lia. lia.
Qed.

Lemma port_at_ok p off : pkt_wf p → 0 ≤ off → pk_head p + off + 1 < PKT_MAX_LEN → ∃ v, port_at p off = Some v ∧ 0 ≤ v < 65536.
Proof.
  intros Hw Ho Hlt. unfold port_at. destruct (get8_ok p off Hw) as (a & -> & ?); [lia|lia|].
  destruct (get8_ok p (off + 1) Hw) as (b & -> & ?); [lia|lia|]. eexists. split; [done|apply u16_range].
Qed.

Lemma pull_wf bytes p q r :
  pkt_wf p → 0 ≤ bytes → pktbuf_pull bytes p = (Some r, q) →
  pkt_wf q ∧ r = pk_head p ∧ pk_head q = pk_head p + bytes ∧ pk_len q = pk_len p - bytes ∧ pk_data q = pk_data p.
Proof.
  intros [Hd Hb Hh Hl Hr] Hn. unfold pktbuf_pull, PKT_MAX_LEN in *. destruct (Z.ltb_spec (pk_len p) bytes); [done|].
  intros [= <- <-]. cbn. rewrite !u16_small by lia. split; [split; cbn; rewrite ?u16_small by lia; unfold PKT_MAX_LEN; done || lia|done].
Qed.

Lemma push_wf bytes p q r :
  pkt_wf p → 0 ≤ bytes → pktbuf_push bytes p = (Some r, q) →
  pkt_wf q ∧ r = pk_head q ∧ pk_head q = pk_head p - bytes ∧ pk_len q = pk_len p + bytes ∧ pk_data q = pk_data p.
Proof.
  intros [Hd Hb Hh Hl Hr] Hn. unfold pktbuf_push, PKT_MAX_LEN in *. destruct (Z.ltb_spec (pk_head p) bytes); [done|].
  intros [= <- <-]. cbn. rewrite !u16_small by lia. split; [split; cbn; rewrite ?u16_small by lia; unfold PKT_MAX_LEN; done || lia|done].
Qed.

(** ** Stores inside the buffer *)

Definition upd8 (off v : Z) (p : pktbuf) : pktbuf := p <| pk_data ::= <[Z.to_nat (pk_head p + off) := v]> |>.
Definition upd16 (off v : Z) (p : pktbuf) : pktbuf := upd8 (off + 1) (v / 256) (upd8 off (v mod 256) p).
Definition upd32 (off v : Z) (p : pktbuf) : pktbuf := upd16 (off + 2) (v / 65536) (upd16 off (v mod 65536) p).

Lemma upd8_head off v p : pk_head (upd8 off v p) = pk_head p.
Proof. done. Qed.
Lemma upd8_len off v p : pk_len (upd8 off v p) = pk_len p.
Proof. done. Qed.
Lemma upd8_wf off v p : pkt_wf p → 0 ≤ v < 256 → pkt_wf (upd8 off v p).
Proof. intros [] Hv. split; cbn; rewrite ?length_insert; try done. by apply Forall_insert. Qed.
Lemma upd16_wf off v p : pkt_wf p → 0 ≤ v < 65536 → pkt_wf (upd16 off v p).
Proof. intros Hw Hv. unfold upd16. repeat apply upd8_wf; [done|divlia..]. Qed.
Lemma upd32_wf off v p : pkt_wf p → 0 ≤ v < 2 ^ 32 → pkt_wf (upd32 off v p).
Proof. intros Hw Hv. unfold upd32. repeat apply upd16_wf; [done|divlia..]. Qed.

Lemma put8_ok off v p : pkt_wf p → 0 ≤ off → pk_head p + off < PKT_MAX_LEN → put8 off v p = Some (upd8 off v p).
Proof.
  intros Hw Ho Hr. unfold put8. pose proof (pw_data _ Hw). pose proof (pw_head _ Hw). unfold PKT_MAX_LEN in *.
  destruct (Nat.ltb_spec (Z.to_nat (pk_head p + off)) (length (pk_data p))); [done|lia].
Qed.
Lemma put16_ok off v p :
  pkt_wf p → 0 ≤ off → pk_head p + off + 1 < PKT_MAX_LEN → 0 ≤ v < 65536 → put16 off v p = Some (upd16 off v p).
Proof.
  intros Hw Ho Hr Hv. unfold put16. rewrite put8_ok by (done || lia). cbn [mbind option_bind].
  rewrite put8_ok by first [rewrite ?upd8_head; lia|apply upd8_wf; [done|divlia]]. done.
Qed.
Lemma put32_ok off v p :
  pkt_wf p → 0 ≤ off → pk_head p + off + 3 < PKT_MAX_LEN → 0 ≤ v < 2 ^ 32 → put32 off v p = Some (upd32 off v p).
Proof.
  intros Hw Ho Hr Hv. unfold put32. rewrite put16_ok by (done || divlia || lia). cbn [mbind option_bind].
  rewrite put16_ok by first [lia|cbn; lia|divlia|apply upd16_wf; [done|divlia]]. done.
Qed.

Lemma get8_upd8 off v p o :
  pkt_wf p → 0 ≤ off → pk_head p + off < PKT_MAX_LEN → 0 ≤ o →
  get8 (upd8 off v p) o = if o =? off then Some v else get8 p o.
Proof.
  intros [Hd Hb Hh Hl Hr] Ho Hr' Ho'. unfold get8, upd8, PKT_MAX_LEN in *. cbn.
  destruct (Z.eqb_spec o off) as [->|Hne]; [rewrite list_lookup_insert_eq; [done|lia]|].
  rewrite list_lookup_insert_ne; [done|lia].
Qed.

(** The first [n] bytes after the head. *)
Definition hbytes (p : pktbuf) (n : nat) : list Z := take n (drop (Z.to_nat (pk_head p)) (pk_data p)).

Lemma hbytes_length p n : pkt_wf p → pk_head p + Z.of_nat n ≤ PKT_MAX_LEN → length (hbytes p n) = n.
Proof.
  intros [Hd _ Hh _ _] Hn. unfold hbytes, PKT_MAX_LEN in *. rewrite length_take, length_drop, Hd. lia.
Qed.

Lemma hbytes_bytes p n : pkt_wf p → Forall (λ b, 0 ≤ b < 256) (hbytes p n).
Proof. intros [_ Hb _ _ _]. by apply Forall_take, Forall_drop. Qed.

Lemma hbytes_lookup p n o : 0 ≤ pk_head p → 0 ≤ o < Z.of_nat n → hbytes p n !! Z.to_nat o = get8 p o.
Proof.
  intros Hh Ho. unfold hbytes, get8. rewrite lookup_take_lt, lookup_drop by lia. f_equal. lia.
Qed.

Lemma hbytes_upd8 p off v n :
  0 ≤ pk_head p → 0 ≤ off → hbytes (upd8 off v p) n = <[Z.to_nat off := v]> (hbytes p n).
Proof.
  intros Hh Ho. unfold hbytes, upd8. cbn. rewrite drop_insert_ge by lia.
  replace (Z.to_nat (pk_head p + off) - Z.to_nat (pk_head p))%nat with (Z.to_nat off) by lia.
  destruct (decide (Z.to_nat off < n)%nat); [by rewrite take_insert_lt|]. rewrite take_insert_ge by lia.
  rewrite list_insert_ge; [done|]. rewrite length_take. lia.
Qed.

Lemma get_bytes_spec p off n :
  pkt_wf p → 0 ≤ off → pk_head p + off + Z.of_nat n ≤ PKT_MAX_LEN →
  get_bytes p off n = Some (take n (drop (Z.to_nat (pk_head p + off)) (pk_data p))).
Proof.
  intros Hw. revert off. induction n as [|n IH]; intros off Ho Hr; [done|]. cbn [get_bytes].
  destruct (get8_ok p off Hw) as (b & E & _); [lia|lia|]. rewrite E. cbn [mbind option_bind].
  rewrite IH by lia. cbn [mbind option_bind]. f_equal. pose proof (pw_head _ Hw). unfold get8 in E.
  replace (Z.to_nat (pk_head p + (off + 1))) with (S (Z.to_nat (pk_head p + off))) by lia.
  by rewrite (drop_S _ _ _ E).
Qed.

Lemma get_hbytes p n :
  pkt_wf p → pk_head p + Z.of_nat n ≤ PKT_MAX_LEN → get_bytes p 0 n = Some (hbytes p n).
Proof. intros Hw Hr. rewrite get_bytes_spec by (done || lia). unfold hbytes. by rewrite Z.add_0_r. Qed.

Lemma hbytes_upd16 p (k : nat) v n :
  0 ≤ pk_head p → hbytes (upd16 (2 * Z.of_nat k) v p) n = set_word k v (hbytes p n).
Proof.
  intros Hh. unfold upd16, set_word. rewrite !hbytes_upd8 by (cbn; lia).
  replace (Z.to_nat (2 * Z.of_nat k)) with (2 * k)%nat by lia.
  by replace (Z.to_nat (2 * Z.of_nat k + 1)) with (2 * k + 1)%nat by lia.
Qed.

Lemma hbytes_upd8_beyond p off v n :
  0 ≤ pk_head p → Z.of_nat n ≤ off → hbytes (upd8 off v p) n = hbytes p n.
Proof.
  intros Hh Hn. rewrite hbytes_upd8 by lia. apply list_insert_ge. unfold hbytes. rewrite length_take. lia.
Qed.

(** Side conditions of the lemmas on stores. *)
Ltac pkt_side :=
  lazymatch goal with
  | |- pkt_wf _ => first [assumption | apply upd8_wf; [pkt_side|try done; divlia] | apply upd16_wf; [pkt_side|try done; divlia]
                         | apply upd32_wf; [pkt_side|try done; divlia]]
  | |- _ => cbn [pk_head upd8 upd16 upd32 set_field]; lia
  end.
(** Evaluates a read after stores at other or the same offsets. *)
Ltac get_upd :=
  unfold upd32, upd16;
  repeat (rewrite get8_upd8 by pkt_side;
          lazymatch goal with |- context [if ?a =? ?b then _ else _] =>
            first [replace (a =? b) with true by lia | replace (a =? b) with false by lia] end).

Lemma get32_from q o v :
  get8 q o = Some (v mod 65536 mod 256) → get8 q (o + 1) = Some (v mod 65536 / 256) →
  get8 q (o + 2) = Some (v / 65536 mod 256) → get8 q (o + 2 + 1) = Some (v / 65536 / 256) → get32 q o = Some v.
Proof.
  intros E0 E1 E2 E3. unfold get32, get16. rewrite E0, E1, E2, E3. cbn [mbind option_bind]. f_equal. divlia.
Qed.

Lemma get32_ext q p o : (∀ k, 0 ≤ k < 4 → get8 q (o + k) = get8 p (o + k)) → get32 q o = get32 p o.
Proof.
  intros E. pose proof (E 0 ltac:(lia)) as E0. rewrite Z.add_0_r in E0. unfold get32, get16. rewrite E0, (E 1), (E 2) by lia.
  replace (o + 2 + 1) with (o + 3) by lia. by rewrite (E 3) by lia.
Qed.

Lemma port_at_ext q p o : (∀ k, 0 ≤ k < 2 → get8 q (o + k) = get8 p (o + k)) → port_at q o = port_at p o.
Proof.
  intros E. pose proof (E 0 ltac:(lia)) as E0. rewrite Z.add_0_r in E0. unfold port_at. by rewrite E0, (E 1) by lia.
Qed.

(** ** Pool invariant *)

Record pool_ok (fl : list nat) (s : pkt_state) : Prop := {
  pl_len : length (pkt_pool s) = PKT_POOL_SIZE;
  pl_init : packet_pool_initialized s = true;
  pl_path : lpath pk_next (pkt_pool s) (free_list s) fl None;
  pl_nodup : NoDup fl;
}.

Lemma pktbuf_alloc_cases fl s :
  pool_ok fl s →
  match fl with
  | [] => pktbuf_alloc s = (None, s)
  | i :: fl' => ∃ s' p, pktbuf_alloc s = (Some i, s') ∧ pool_ok fl' s' ∧ pkt_pool s !! i = Some p ∧
      pkt_pool s' = <[i := mk_pkt 0 (PKT_MAX_LEN / 2) (pk_data p) None]> (pkt_pool s)
  end.
Proof.
  intros [Hl Hi Hp Hn]. unfold pktbuf_alloc. rewrite Hi. destruct fl as [|i fl']; [by cbn in Hp; rewrite Hp|].
  pose proof Hp as (Hf & p & Hip & Hrest). apply NoDup_cons in Hn as [Hni Hn]. rewrite Hf, Hip.
  assert (alter (λ p, p <| pk_len := 0 |> <| pk_head := PKT_MAX_LEN / 2 |> <| pk_next := None |>) i (pkt_pool s) =
    <[i := mk_pkt 0 (PKT_MAX_LEN / 2) (pk_data p) None]> (pkt_pool s)) as Ealt.
  { apply list_eq. intros j. rewrite list_lookup_alter, list_lookup_insert.
    destruct (decide (i = j)) as [->|].
    - rewrite decide_True by (split; [done|]; by eapply lookup_lt_Some). by rewrite Hip.
    - by rewrite decide_False by naive_solver. }
  eexists _, p. split; [done|]. split; [|split; [done|exact Ealt]].
  split; cbn; rewrite ?length_alter; try done.
  eapply lpath_frame; [|exact Hrest]. intros b Hb. rewrite list_lookup_alter_ne; [done|]. by intros <-.
Qed.

Lemma pktbuf_free_ok fl s i p :
  pool_ok fl s → ¬ i ∈ fl → pkt_pool s !! i = Some p → pool_ok (i :: fl) (pktbuf_free (Some i) s).
Proof.
  intros [Hl Hi Hp Hn] Hni Hip. split; cbn; rewrite ?length_alter; try done; [|by constructor].
  split; [done|]. rewrite list_lookup_alter_eq, Hip. eexists. split; [done|]. cbn.
  eapply lpath_frame; [|exact Hp]. intros b Hb. rewrite list_lookup_alter_ne; [done|]. by intros <-.
Qed.

Lemma pktbuf_pool_init_ok s :
  length (pkt_pool s) = PKT_POOL_SIZE → pool_ok (rev (seq 0 PKT_POOL_SIZE)) (pktbuf_pool_init s).
Proof.
  intros Hlen. unfold pktbuf_pool_init.
  set (body := λ (i : Z) (s : pkt_state), s <| pkt_pool ::= alter (λ p, p <| pk_next := free_list s |>) (Z.to_nat i) |>
               <| free_list := Some (Z.to_nat i) |>).
  set (P := λ (k : Z) (t : pkt_state), length (pkt_pool t) = PKT_POOL_SIZE ∧
    lpath pk_next (pkt_pool t) (free_list t) (rev (seq 0 (Z.to_nat k))) None).
  assert (P (0 + Z.of_nat PKT_POOL_SIZE) (for_from 0 PKT_POOL_SIZE body (s <| free_list := None |>))) as [H1 H2].
  { apply (for_from_ind P); [done|]. intros i t Hi [Hl Hp]. unfold P, body. cbn. rewrite length_alter. split; [done|].
    unfold PKT_POOL_SIZE in *. replace (Z.to_nat (i + 1)) with (S (Z.to_nat i)) by lia. rewrite seq_S, rev_app_distr. cbn.
    split; [done|]. destruct (lookup_lt_is_Some_2 (pkt_pool t) (Z.to_nat i)) as [p Hpi]; [lia|].
    rewrite list_lookup_alter_eq, Hpi. eexists. split; [done|]. cbn. eapply lpath_frame; [|exact Hp].
    intros b Hb. rewrite list_lookup_alter_ne; [done|]. intros <-. apply list_elem_of_In, in_rev, in_seq in Hb. lia. }
  rewrite Z.add_0_l, Nat2Z.id in H2. revert H1 H2. generalize (for_from 0 PKT_POOL_SIZE body (s <| free_list := None |>)).
  intros t H1 H2. split; [exact H1|reflexivity|exact H2|]. apply NoDup_ListNoDup, NoDup_rev, NoDup_ListNoDup, NoDup_seq.
Qed.

Lemma pktbuf_pool_init_data s j : pk_data <$> pkt_pool (pktbuf_pool_init s) !! j = pk_data <$> pkt_pool s !! j.
Proof.
  assert (∀ n t, pkt_pool (t <| packet_pool_initialized := true |>) !! n = pkt_pool t !! n) as Hset by done.
  unfold pktbuf_pool_init. rewrite Hset.
  apply (for_from_ind (λ _ t, pk_data <$> pkt_pool t !! j = pk_data <$> pkt_pool s !! j)); [done|].
  intros i t _ Ht. rewrite <-Ht. cbn. rewrite list_lookup_alter. case_decide as E; [subst j|done]. by destruct (pkt_pool t !! Z.to_nat i).
Qed.
#[global] Opaque pktbuf_pool_init PKT_POOL_SIZE.

(** * Clients of the pool *)

(** A client allocates, frees what it owns, and writes to what it owns. *)
Inductive pkt_step : gset nat * pkt_state → gset nat * pkt_state → Prop :=
  | step_alloc own s i s' : pktbuf_alloc s = (Some i, s') → pkt_step (own, s) ({[i]} ∪ own, s')
  | step_alloc_fail own s s' : pktbuf_alloc s = (None, s') → pkt_step (own, s) (own, s')
  | step_free own s i : i ∈ own → pkt_step (own, s) (own ∖ {[i]}, pktbuf_free (Some i) s)
  | step_write own s i p p' :
      i ∈ own → pkt_pool s !! i = Some p → pk_next p' = pk_next p →
      pkt_step (own, s) (own, s <| pkt_pool ::= <[i := p']> |>).

Definition all_buffers : gset nat := list_to_set (seq 0 PKT_POOL_SIZE).

Definition client_inv (c : gset nat * pkt_state) : Prop :=
  length (pkt_pool (snd c)) = PKT_POOL_SIZE ∧
  (packet_pool_initialized (snd c) = false ∧ fst c = ∅ ∨
   ∃ fl, pool_ok fl (snd c) ∧ fst c = all_buffers ∖ list_to_set fl ∧ list_to_set fl ⊆ all_buffers).

Lemma client_start own s :
  client_inv (own, s) →
  ∃ fl s0, pktbuf_alloc s = pktbuf_alloc s0 ∧ pool_ok fl s0 ∧
    own = all_buffers ∖ list_to_set fl ∧ list_to_set fl ⊆ all_buffers ∧
    ∀ j, pk_data <$> pkt_pool s !! j = pk_data <$> pkt_pool s0 !! j.
Proof.
  intros [Hl H]. cbn [fst snd] in *. destruct H as [[Hi ->]|(fl & Hok & Ho & Hs)]; [|by exists fl, s].
  pose proof (pktbuf_pool_init_ok s Hl) as Hok. exists (rev (seq 0 PKT_POOL_SIZE)), (pktbuf_pool_init s).
  assert (list_to_set (rev (seq 0 PKT_POOL_SIZE)) = all_buffers) as ->.
  { apply set_eq. intros x. unfold all_buffers. rewrite !elem_of_list_to_set, !list_elem_of_In, <-in_rev. done. }
  split; [|split; [exact Hok|split; [by rewrite difference_diag_L|split; [done|intros j; by rewrite pktbuf_pool_init_data]]]].
  unfold pktbuf_alloc. rewrite Hi. cbn zeta. by rewrite (pl_init _ _ Hok).
Qed.

Lemma pool_index fl s i : pool_ok fl s → i ∈ all_buffers → ∃ p, pkt_pool s !! i = Some p.
Proof.
  intros [Hl _ _ _]. unfold all_buffers. rewrite elem_of_list_to_set, elem_of_seq. intros Hi.
  apply lookup_lt_is_Some_2. lia.
Qed.

Lemma client_step_inv c c' : client_inv c → pkt_step c c' → client_inv c'.
Proof.
  intros Hinv Hstep. destruct Hstep as [own s i s' Ha|own s s' Ha|own s i Hi|own s i p p' Hi Hp Hn].
  - destruct (client_start _ _ Hinv) as (fl & s0 & E & Hok & -> & Hsub & _). rewrite Ha in E. symmetry in E.
    pose proof (pktbuf_alloc_cases fl s0 Hok) as H. destruct fl as [|j fl]; [congruence|].
    destruct H as (s1 & q & E1 & Hok1 & Hq & Hpool). rewrite E in E1. injection E1 as -> <-.
    split; [apply Hok1|]. right. exists fl. split; [done|]. cbn. pose proof (pl_nodup _ _ Hok) as [Hj _]%NoDup_cons.
    rewrite list_to_set_cons in *. split; [|set_solver]. apply set_eq. intros x.
    destruct (decide (x = j)) as [->|]; [|set_solver]. set_solver.
  - destruct (client_start _ _ Hinv) as (fl & s0 & E & Hok & -> & Hsub & _). rewrite Ha in E. symmetry in E.
    pose proof (pktbuf_alloc_cases fl s0 Hok) as H. destruct fl as [|j fl]; [|by destruct H as (? & ? & ? & _); congruence].
    rewrite E in H. injection H as ->. split; [apply Hok|]. right. by exists [].
  - destruct Hinv as [Hl [[_ Ho]|(fl & Hok & Ho & Hsub)]]; cbn in *; subst own; [set_solver|].
    assert (¬ i ∈ fl) as Hnf by set_solver. destruct (pool_index fl s i Hok ltac:(set_solver)) as [p Hp].
    split; [cbn; by rewrite length_alter|]. right. exists (i :: fl). split; [by eapply pktbuf_free_ok|].
    rewrite list_to_set_cons. split; set_solver.
  - destruct Hinv as [Hl [[_ Ho]|(fl & Hok & Ho & Hsub)]]; cbn in *; subst own; [set_solver|].
    split; [cbn; by rewrite length_insert|]. right. exists fl. split; [|done]. destruct Hok as [H1 H2 H3 H4].
    split; cbn; try done; [by rewrite length_insert|]. eapply lpath_frame; [|exact H3]. intros b Hb.
    rewrite list_lookup_insert. case_decide as E; [|done]. destruct E as [<- _]. rewrite Hp. cbn. by rewrite Hn.
Qed.

Lemma client_alloc_fresh own s i s' :
  client_inv (own, s) → pktbuf_alloc s = (Some i, s') →
  ¬ i ∈ own ∧ i ∈ all_buffers ∧ ∃ p, pkt_pool s !! i = Some p ∧
    pkt_pool s' !! i = Some (mk_pkt 0 757 (pk_data p) None) ∧ ∀ j, j ≠ i → pk_data <$> pkt_pool s' !! j = pk_data <$> pkt_pool s !! j.
Proof.
  intros Hinv Ha. destruct (client_start _ _ Hinv) as (fl & s1 & E & Hok & -> & Hsub & Hdata). rewrite Ha in E. symmetry in E.
  pose proof (pktbuf_alloc_cases fl s1 Hok) as H. destruct fl as [|j fl]; [congruence|].
  destruct H as (s2 & p & E' & _ & Hp & Hpool). rewrite E in E'. injection E' as -> ->. rewrite list_to_set_cons in *.
  split; [set_solver|]. split; [set_solver|].
  pose proof (Hdata j) as Hj. rewrite Hp in Hj. destruct (pkt_pool s !! j) as [p0|] eqn:Ep0; [|done]. injection Hj as Hj.
  exists p0. split; [done|]. rewrite Hpool, list_lookup_insert_eq by (by eapply lookup_lt_Some). split; [by rewrite Hj|].
  intros k Hk. rewrite list_lookup_insert_ne by done. symmetry. apply Hdata.
Qed.

(** * Theorems *)

(** Exclusive ownership of packet buffers.  However clients allocate, free
    what they own and write to what they own, a buffer returned by
    [pktbuf_alloc] is owned by nobody, starts empty with half of its space
    as headroom, and NULL is returned exactly when all 64 buffers are owned;
    the pool initialises itself on the first call. *)
Theorem pktbuf_alloc_exclusive s0 own s :
  packet_pool_initialized s0 = false → length (pkt_pool s0) = PKT_POOL_SIZE →
  rtc pkt_step (∅, s0) (own, s) →
  match pktbuf_alloc s with
  | (Some i, s') => ¬ i ∈ own ∧ i ∈ all_buffers ∧
      ∃ p, pkt_pool s' !! i = Some p ∧ pk_len p = 0 ∧ pk_head p = 757
  | (None, _) => own = all_buffers
  end.
Proof.
  intros Hi Hl Hsteps.
  assert (client_inv (own, s)) as Hinv.
  { assert (client_inv (∅, s0)) as H0 by (split; [done|by left]). clear Hi Hl.
    remember (∅, s0) as c eqn:Ec. remember (own, s) as c' eqn:Ec'. clear Ec Ec'.
    induction Hsteps as [|x y z Hxy _ IH]; [done|]. apply IH. by eapply client_step_inv. }
  destruct (client_start _ _ Hinv) as (fl & s1 & -> & Hok & -> & Hsub & _).
  pose proof (pktbuf_alloc_cases fl s1 Hok) as H. destruct fl as [|i fl].
  - rewrite H. set_solver.
  - destruct H as (s' & p & -> & Hok' & Hp & Hpool). rewrite list_to_set_cons in *. split; [set_solver|]. split; [set_solver|].
    rewrite Hpool, list_lookup_insert_eq by (by eapply lookup_lt_Some). by eexists.
Qed.

(** A buffer that holds the given bytes after [head] bytes of headroom. *)
Definition pkt_of (head : Z) (bytes : list Z) : pktbuf :=
  mk_pkt (Z.of_nat (length bytes)) head
    (replicate (Z.to_nat head) 0 ++ bytes ++ replicate (Z.to_nat (PKT_MAX_LEN - head - Z.of_nat (length bytes))) 0) None.

Lemma pkt_of_wf head bytes :
  0 ≤ head → head + Z.of_nat (length bytes) ≤ PKT_MAX_LEN → forallb (λ b, (0 <=? b) && (b <? 256)) bytes = true →
  pkt_wf (pkt_of head bytes).
Proof.
  intros Hh Hr Hb. unfold pkt_of. split; cbn -[PKT_MAX_LEN].
  - rewrite !length_app, !length_replicate. lia.
  - rewrite !Forall_app. repeat split; try (apply Forall_replicate; lia).
    apply Forall_forall. intros b Hin. rewrite forallb_forall in Hb.
    apply list_elem_of_In in Hin. apply Hb in Hin. apply andb_true_iff in Hin as [?%Z.leb_le ?%Z.ltb_lt]. done.
  - done.
  - lia.
  - lia.
Qed.

Definition example_pkts : pkt_state :=
  mk_pkts (replicate PKT_POOL_SIZE (mk_pkt 0 0 (replicate (Z.to_nat PKT_MAX_LEN) 0) None)) None false.

Lemma pktbuf_alloc_exclusive_witness :
  ∃ s1 i s2, pktbuf_alloc example_pkts = (Some 63%nat, s1) ∧ pktbuf_alloc s1 = (Some i, s2) ∧ i ≠ 63%nat.
Proof.
  set (s1 := snd (pktbuf_alloc example_pkts)).
  assert (E1 : fst (pktbuf_alloc example_pkts) = Some 63%nat) by (vm_compute; reflexivity).
  assert (H1 : pktbuf_alloc example_pkts = (Some 63%nat, s1)) by (unfold s1; rewrite <-E1; apply surjective_pairing).
  pose proof (pktbuf_alloc_exclusive example_pkts ({[63%nat]} ∪ ∅) s1 eq_refl eq_refl) as H.
  destruct (pktbuf_alloc s1) as [[i|] s2] eqn:E2.
  - destruct H as [Hni _].
    + apply rtc_once. apply step_alloc. exact H1.
    + exists s1, i, s2. split; [exact H1|]. split; [exact E2|]. intros ->. apply Hni. set_solver.
  - exfalso. assert (fst (pktbuf_alloc s1) = Some 62%nat) as E3 by (vm_compute; reflexivity).
    rewrite E2 in E3. discriminate E3.
Defined.
