(* ===== verification/Firewall.v ===== *)
(** Packet filter: net/firewall.c, ordered rules with connection tracking.

    Rules live in a fixed array and are linked in evaluation order.  The
    specification of [firewall_check] is a decision function on the list of
    rules and the set of tracked flows. *)

From S2P Require Import Prelude Links Packet.

Definition FW_MAX_RULES : nat := 256.
Definition FW_MAX_CONN_TRACK : nat := 4096.
Definition FW_PROTO_TCP : Z := 6.
Definition FW_PROTO_UDP : Z := 17.

Inductive fw_action := FW_ACCEPT | FW_DROP | FW_REJECT.
#[export] Instance fw_action_eq_dec : EqDecision fw_action.
Proof. solve_decision. Defined.

Record fw_rule := mk_rule {
  fr_src_ip : Z;
  fr_src_mask : Z;
  fr_dst_ip : Z;
  fr_dst_mask : Z;
  fr_src_port : Z;
  fr_dst_port : Z;
  fr_protocol : Z;
  fr_action : fw_action;
  fr_next : option nat;
}.
#[export] Instance fw_rule_eta : Eta fw_rule := λ r,
  mk_rule (fr_src_ip r) (fr_src_mask r) (fr_dst_ip r) (fr_dst_mask r) (fr_src_port r) (fr_dst_port r)
    (fr_protocol r) (fr_action r) (fr_next r).

Record conn_track := mk_ct {
  ct_src_ip : Z;
  ct_dst_ip : Z;
  ct_src_port : Z;
  ct_dst_port : Z;
  ct_protocol : Z;
  ct_state : Z;
  ct_last_seen : Z;
  ct_active : bool;
}.
#[export] Instance conn_track_eta : Eta conn_track := λ c,
  mk_ct (ct_src_ip c) (ct_dst_ip c) (ct_src_port c) (ct_dst_port c) (ct_protocol c) (ct_state c) (ct_last_seen c) (ct_active c).

Record fw_state := mk_fw {
  rule_head : option nat;
  rule_storage : list fw_rule;
  rule_count : Z;
  conn_table : list conn_track;
  default_policy : fw_action;
  fw_enabled : bool;
}.
#[export] Instance fw_state_eta : Eta fw_state := λ s,
  mk_fw (rule_head s) (rule_storage s) (rule_count s) (conn_table s) (default_policy s) (fw_enabled s).

(** * Operations *)

Definition firewall_init (s : fw_state) : Z * fw_state :=
  (0, s <| rule_head := None |> <| rule_count := 0 |> <| conn_table ::= fmap (λ c, c <| ct_active := false |>) |>
        <| default_policy := FW_DROP |> <| fw_enabled := true |>).

Definition firewall_set_default_policy (policy : fw_action) (s : fw_state) : fw_state := s <| default_policy := policy |>.
Definition firewall_enable (enable : bool) (s : fw_state) : fw_state := s <| fw_enabled := enable |>.

Definition ip_match (addr rule_ip rule_mask : Z) : bool :=
  if (rule_ip =? 0) && (rule_mask =? 0) then true else Z.land addr rule_mask =? Z.land rule_ip rule_mask.

(** A flow: source, destination, ports, protocol. *)
Record flow := mk_flow { f_src : Z; f_dst : Z; f_sport : Z; f_dport : Z; f_proto : Z }.
#[export] Instance flow_eq_dec : EqDecision flow.
Proof. solve_decision. Defined.
Definition reply (f : flow) : flow := mk_flow (f_dst f) (f_src f) (f_dport f) (f_sport f) (f_proto f).

Definition ct_matches (f : flow) (c : conn_track) : bool :=
  ct_active c &&
  (((ct_src_ip c =? f_src f) && (ct_dst_ip c =? f_dst f) && (ct_src_port c =? f_sport f) &&
    (ct_dst_port c =? f_dport f) && (ct_protocol c =? f_proto f)) ||
   ((ct_src_ip c =? f_dst f) && (ct_dst_ip c =? f_src f) && (ct_src_port c =? f_dport f) &&
    (ct_dst_port c =? f_sport f) && (ct_protocol c =? f_proto f))).

Definition ct_lookup (f : flow) (s : fw_state) : option nat := find_slot (ct_matches f) (conn_table s).

Definition ct_create (f : flow) (s : fw_state) : option nat * fw_state :=
  match find_slot (λ c, negb (ct_active c)) (conn_table s) with
  | Some i =>
      (Some i, s <| conn_table ::= alter (λ c, c <| ct_src_ip := f_src f |> <| ct_dst_ip := f_dst f |>
                 <| ct_src_port := f_sport f |> <| ct_dst_port := f_dport f |> <| ct_protocol := f_proto f |>
                 <| ct_state := 0 |> <| ct_active := true |>) i |>)
  | None => (None, s)
  end.

(** Header fields of the packet; [None] is a read outside the buffer. *)
Definition parse_flow (p : pktbuf) : option flow :=
  vihl ← get8 p 0;
  src ← get32 p 12;
  dst ← get32 p 16;
  proto ← get8 p 9;
  let ihl := u8 (Z.land vihl 15 * 4) in
  if ((proto =? FW_PROTO_TCP) || (proto =? FW_PROTO_UDP)) && (ihl + 4 <=? pk_len p) then
    sport ← port_at p ihl;
    dport ← port_at p (ihl + 2);
    Some (mk_flow src dst sport dport proto)
  else Some (mk_flow src dst 0 0 proto).

Definition rule_matches (f : flow) (r : fw_rule) : bool :=
  ip_match (f_src f) (fr_src_ip r) (fr_src_mask r) &&
  ip_match (f_dst f) (fr_dst_ip r) (fr_dst_mask r) &&
  negb (negb (fr_protocol r =? 0) && negb (fr_protocol r =? f_proto f)) &&
  negb (negb (fr_src_port r =? 0) && negb (fr_src_port r =? f_sport f)) &&
  negb (negb (fr_dst_port r =? 0) && negb (fr_dst_port r =? f_dport f)).

(** [pkt] is [None] for a NULL pointer. *)
Definition firewall_check (pkt : option pktbuf) (s : fw_state) : option (fw_action * fw_state) :=
  if negb (fw_enabled s) then Some (FW_ACCEPT, s)
  else
    match pkt with
    | None => Some (default_policy s, s)
    | Some p =>
        if pk_len p <? 20 then Some (default_policy s, s)
        else
          f ← parse_flow p;
          let ct := ct_lookup f s in
          let established := match ct with
                             | Some i => match conn_table s !! i with Some c => 1 <=? ct_state c | None => false end
                             | None => false
                             end in
          if established
          then Some (FW_ACCEPT, s <| conn_table ::= alter (λ c, c <| ct_last_seen := 0 |>) (default 0%nat ct) |>)
          else
            r ← find_link fr_next (length (rule_storage s)) (rule_storage s) (rule_matches f) (rule_head s);
            match r with
            | None => Some (default_policy s, s)
            | Some i =>
                rule ← rule_storage s !! i;
                match fr_action rule, ct with
                | FW_ACCEPT, None =>
                    match ct_create f s with
                    | (Some j, s) => Some (FW_ACCEPT, s <| conn_table ::= alter (λ c, c <| ct_state := 1 |>) j |>)
                    | (None, s) => Some (FW_ACCEPT, s)
                    end
                | a, _ => Some (a, s)
                end
            end
    end.

Definition firewall_add_rule (rule : option fw_rule) (s : fw_state) : option (Z * fw_state) :=
  match rule with
  | None => Some (-1, s)
  | Some rule =>
      if Z.of_nat FW_MAX_RULES <=? rule_count s then Some (-1, s)
      else
        let i := Z.to_nat (rule_count s) in
        let s := s <| rule_storage ::= <[i := rule <| fr_next := None |>]> |>
                   <| rule_count := u32 (rule_count s + 1) |> in
        match rule_head s with
        | None => Some (0, s <| rule_head := Some i |>)
        | Some h =>
            last ← last_link fr_next (length (rule_storage s)) (rule_storage s) h;
            Some (0, s <| rule_storage ::= alter (λ r, r <| fr_next := Some i |>) last |>)
        end
  end.

(** The search for the element whose link is [target]. *)
Definition find_pred (st : list fw_rule) (target : nat) (p : option nat) : option (option nat) :=
  find_link fr_next (length st) st (λ r, bool_decide (fr_next r = Some target)) p.

Definition firewall_del_rule (rule_id : Z) (s : fw_state) : option (Z * fw_state) :=
  if rule_count s <=? rule_id then Some (-1, s)
  else
    let target := Z.to_nat rule_id in
    t ← rule_storage s !! target;
    s ← (if bool_decide (rule_head s = Some target) then Some (s <| rule_head := fr_next t |>)
         else
           q ← find_pred (rule_storage s) target (rule_head s);
           match q with
           | Some p => Some (s <| rule_storage ::= alter (λ r, r <| fr_next := fr_next t |>) p |>)
           | None => Some s
           end);
    Some (0, s <| rule_storage ::= alter (λ r, r <| fr_next := None |>) target |>).

Definition firewall_flush_rules (s : fw_state) : Z * fw_state :=
  (0, s <| rule_head := None |> <| rule_count := 0 |>).

Definition firewall_ct_cleanup (max_age : Z) (s : fw_state) : fw_state :=
  s <| conn_table ::= fmap (λ c, if ct_active c && (max_age <? ct_last_seen c) then c <| ct_active := false |> else c) |>.

Definition firewall_rule_count (s : fw_state) : Z := rule_count s.

(** * Specification *)

(** Rules in evaluation order. *)
Definition rule_list (l : list nat) (s : fw_state) : list fw_rule := omap (λ i, rule_storage s !! i) l.
(** The flow is tracked, in either direction. *)
Definition tracked (f : flow) (s : fw_state) : Prop :=
  ∃ i c, conn_table s !! i = Some c ∧ ct_matches f c = true.

Record fw_inv (l : list nat) (s : fw_state) : Prop := {
  fi_len : length (rule_storage s) = FW_MAX_RULES;
  fi_count : 0 ≤ rule_count s ≤ Z.of_nat FW_MAX_RULES;
  fi_path : lpath fr_next (rule_storage s) (rule_head s) l None;
  fi_nodup : NoDup l;
  fi_used : Forall (λ i, Z.of_nat i < rule_count s) l;
  fi_ct : Forall (λ c, ct_active c = true → ct_state c = 1) (conn_table s);
}.

(** The action for a flow that is not tracked: the first matching rule, else
    the default policy. *)
Definition decide_rules (rules : list fw_rule) (policy : fw_action) (f : flow) : fw_action :=
  from_option fr_action policy (List.find (rule_matches f) rules).

(** * Proofs *)

Lemma parse_flow_ok p : pkt_wf p → 20 ≤ pk_len p → ∃ f, parse_flow p = Some f.
Proof.
  intros Hw Hl. pose proof (pw_room _ Hw). unfold parse_flow, PKT_MAX_LEN in *.
  destruct (get8_ok p 0 Hw) as (v & -> & Hv); [unfold PKT_MAX_LEN; lia..|].
  destruct (get32_ok p 12 Hw) as (src & -> & _); [unfold PKT_MAX_LEN; lia..|].
  destruct (get32_ok p 16 Hw) as (dst & -> & _); [unfold PKT_MAX_LEN; lia..|].
  destruct (get8_ok p 9 Hw) as (proto & -> & _); [unfold PKT_MAX_LEN; lia..|]. cbn [mbind option_bind].
  set (ihl := u8 _). pose proof (u8_range (Z.land v 15 * 4)) as Hi. fold ihl in Hi.
  destruct (_ && _) eqn:E; [|by eexists]. apply andb_true_iff in E as [_ E%Z.leb_le].
  destruct (port_at_ok p ihl Hw) as (sp & -> & _); [unfold PKT_MAX_LEN; lia..|].
  destruct (port_at_ok p (ihl + 2) Hw) as (dp & -> & _); [unfold PKT_MAX_LEN; lia..|]. by eexists.
Qed.

Lemma ct_matches_true g c :
  ct_matches g c = true ↔
  ct_active c = true ∧ let f := mk_flow (ct_src_ip c) (ct_dst_ip c) (ct_src_port c) (ct_dst_port c) (ct_protocol c) in
    g = f ∨ g = reply f.
Proof.
  unfold ct_matches. rewrite andb_true_iff, orb_true_iff, !andb_true_iff, !Z.eqb_eq. destruct g. cbn. unfold reply. cbn. split.
  - intros [? [[[[[-> ->] ->] ->] ->]|[[[[-> ->] ->] ->] ->]]]; auto.
  - intros [? [[= -> -> -> -> ->]|[= -> -> -> -> ->]]]; auto 10.
Qed.

Lemma ct_lookup_tracked f s : ct_lookup f s = None ↔ ¬ tracked f s.
Proof.
  unfold ct_lookup. rewrite find_slot_None. split.
  - intros H (i & c & Hi & Hc). by rewrite (H i c Hi) in Hc.
  - intros H i c Hi. destruct (ct_matches f c) eqn:E; [|done]. exfalso. apply H. by exists i, c.
Qed.

(** The first element found by index is the first element found in the list. *)
Lemma find_omap {A} (st : list A) (f : A → bool) l :
  (∀ i, i ∈ l → is_Some (st !! i)) →
  match List.find (λ i, from_option f false (st !! i)) l with
  | Some i => ∃ x, st !! i = Some x ∧ List.find f (omap (λ i, st !! i) l) = Some x
  | None => List.find f (omap (λ i, st !! i) l) = None
  end.
Proof.
  induction l as [|i l IH]; intros H; [done|]. cbn. destruct (H i ltac:(left)) as [x Hx]. rewrite Hx. cbn.
  destruct (f x); [by exists x|]. apply IH. intros j Hj. apply H. by right.
Qed.

(** The tracking entry made for an accepted flow. *)
Lemma ct_add f s i c :
  conn_table s !! i = Some c → ct_active c = false →
  let c' := mk_ct (f_src f) (f_dst f) (f_sport f) (f_dport f) (f_proto f) 1 (ct_last_seen c) true in
  ∀ g, tracked g (s <| conn_table ::= <[i := c']> |>) ↔ tracked g s ∨ g = f ∨ g = reply f.
Proof.
  intros Hi Hc c' g. unfold tracked. cbn. pose proof (lookup_lt_Some _ _ _ Hi) as Hlt.
  assert (Hc' : ct_matches g c' = true ↔ g = f ∨ g = reply f) by (rewrite ct_matches_true; destruct f; cbn; tauto).
  split.
  - intros (j & d & Hj & Hd). rewrite list_lookup_insert in Hj. case_decide as E; [|left; eauto].
    injection Hj as <-. right. by apply Hc'.
  - intros [(j & d & Hj & Hd)|Hg].
    + exists j, d. rewrite list_lookup_insert_ne; [done|]. intros <-. apply ct_matches_true in Hd as [Ha _]. congruence.
    + exists i, c'. rewrite list_lookup_insert_eq by done. by rewrite Hc'.
Qed.

Definition accepting_rule (l : list nat) (s : fw_state) (f : flow) : Prop :=
  ∃ r, List.find (rule_matches f) (rule_list l s) = Some r ∧ fr_action r = FW_ACCEPT.

Lemma alter_alter_insert {A} (f g : A → A) (l : list A) i x :
  l !! i = Some x → alter g i (alter f i l) = <[i := g (f x)]> l.
Proof.
  intros H. apply list_eq. intros j. destruct (decide (i = j)) as [->|].
  - rewrite list_lookup_insert_eq by (by eapply lookup_lt_Some). by rewrite !list_lookup_alter_eq, H.
  - by rewrite !list_lookup_alter_ne, list_lookup_insert_ne.
Qed.

Lemma fw_inv_ct l s ct' :
  fw_inv l s → Forall (λ c, ct_active c = true → ct_state c = 1) ct' → fw_inv l (s <| conn_table := ct' |>).
Proof. intros [] ?. by split. Qed.

(** One evaluation of a parsed packet. *)
Lemma firewall_check_cases l s p f :
  fw_inv l s → fw_enabled s = true → 20 ≤ pk_len p → parse_flow p = Some f →
  ∃ a s', firewall_check (Some p) s = Some (a, s') ∧ fw_inv l s' ∧ rule_list l s' = rule_list l s ∧
    ((tracked f s ∧ a = FW_ACCEPT ∧ ∀ g, tracked g s' ↔ tracked g s) ∨
     (¬ tracked f s ∧ a = decide_rules (rule_list l s) (default_policy s) f ∧
      ((accepting_rule l s f ∧ (∃ c, c ∈ conn_table s ∧ ct_active c = false) ∧
          ∀ g, tracked g s' ↔ tracked g s ∨ g = f ∨ g = reply f) ∨
       (¬ (accepting_rule l s f ∧ ∃ c, c ∈ conn_table s ∧ ct_active c = false) ∧ s' = s)))).
Proof.
  intros Hinv Hen Hlen Hf. pose proof Hinv as [Hst Hcnt Hp Hnd Hus Hct]. unfold firewall_check.
  rewrite Hen. cbn [negb]. rewrite (proj2 (Z.ltb_ge _ _)) by done. rewrite Hf. cbn [mbind option_bind].
  destruct (ct_lookup f s) as [i|] eqn:Ect.
  - pose proof Ect as (c & Hi & Hm & _)%find_slot_Some. rewrite Hi.
    pose proof (Forall_lookup_1 _ _ _ _ Hct Hi (proj1 (proj1 (ct_matches_true _ _) Hm))) as ->. cbn [default].
    change (1 <=? 1) with true. cbv iota. eexists _, _. split; [done|]. change (default 0%nat (Some i)) with i.
    split; [apply fw_inv_ct; [done|]; by apply Forall_alter; [done|]|]. split; [done|]. left.
    split; [by exists i, c|]. split; [done|]. intros g. unfold tracked. cbn. split; intros (j & d & Hj & Hd).
    + rewrite list_lookup_alter in Hj. case_decide; [|by eauto]. subst j. rewrite Hi in Hj. injection Hj as <-.
      exists i, c. split; [done|]. by rewrite ct_matches_true in Hd |- *.
    + destruct (decide (i = j)) as [->|].
      * exists j, (d <| ct_last_seen := 0 |>). rewrite list_lookup_alter_eq, Hj. split; [done|]. by rewrite ct_matches_true in Hd |- *.
      * exists j, d. by rewrite list_lookup_alter_ne.
  - apply ct_lookup_tracked in Ect.
    rewrite (find_link_spec _ _ _ _ _ l Hp (lpath_length _ _ _ _ _ Hnd Hp)). cbn [mbind option_bind].
    pose proof (find_omap (rule_storage s) (rule_matches f) l ltac:(intros i Hi; by eapply lpath_lookup)) as Hfind.
    fold (rule_list l s) in Hfind. unfold decide_rules, accepting_rule.
    destruct (List.find _ l) as [i|].
    + destruct Hfind as (r & Hr & Hrl). rewrite Hr, Hrl. cbn [mbind option_bind].
      destruct (fr_action r) eqn:Ea.
      * unfold ct_create. destruct (find_slot _ (conn_table s)) as [j|] eqn:Ej.
        -- apply find_slot_Some in Ej as (c & Hj & Hc%negb_true_iff & _). eexists _, _. split; [done|].
           match goal with |- fw_inv l ?t ∧ _ => assert (t = s <| conn_table ::=
             <[j := mk_ct (f_src f) (f_dst f) (f_sport f) (f_dport f) (f_proto f) 1 (ct_last_seen c) true]> |>) as -> end.
           { destruct s; cbn in *. f_equal. by rewrite (alter_alter_insert _ _ _ _ _ Hj). }
           split; [apply fw_inv_ct; [done|]; by apply Forall_insert|]. split; [done|]. right. split; [done|].
           split; [cbn; by rewrite Ea|]. left. split; [by exists r|]. split; [exists c; split; [by eapply list_elem_of_lookup_2|done]|].
           by apply ct_add.
        -- eexists _, _. split; [done|]. split; [done|]. split; [done|]. right. split; [done|]. split; [cbn; by rewrite Ea|]. right. split; [|done].
           intros [_ (c & Hc & Ha)]. apply list_elem_of_lookup in Hc as [k Hk].
           pose proof (proj1 (find_slot_None _ _) Ej k c Hk) as Hn. cbn in Hn. by rewrite Ha in Hn.
      * eexists _, _. split; [done|]. split_and!; try done. right. split; [done|]. split; [cbn; by rewrite Ea|]. right. split; [|done].
        intros [(r' & [= <-] & ?) _]. congruence.
      * eexists _, _. split; [done|]. split_and!; try done. right. split; [done|]. split; [cbn; by rewrite Ea|]. right. split; [|done].
        intros [(r' & [= <-] & ?) _]. congruence.
    + rewrite Hfind. eexists _, _. split; [done|]. split_and!; try done. right. split; [done|]. split; [done|]. right. split; [|done].
      by intros [(r' & ? & _) _].
Qed.

(** ** Changing the rules *)

Lemma relink_next (st : list fw_rule) (i j : nat) nx :
  i ≠ j → fr_next <$> alter (λ r, r <| fr_next := nx |>) i st !! j = fr_next <$> st !! j.
Proof. intros. by rewrite list_lookup_alter_ne. Qed.

(** Appending a rule: it is evaluated last. *)
Lemma firewall_add_rule_cases rule l s :
  fw_inv l s →
  (rule_count s = Z.of_nat FW_MAX_RULES ∧ firewall_add_rule (Some rule) s = Some (-1, s)) ∨
  (∃ i s', firewall_add_rule (Some rule) s = Some (0, s') ∧ fw_inv (l ++ [i]) s' ∧ ¬ i ∈ l ∧ conn_table s' = conn_table s ∧
     Z.of_nat i = rule_count s ∧ rule_count s' = rule_count s + 1).
Proof.
  intros Hinv. pose proof Hinv as [Hst Hcnt Hp Hnd Hus Hct]. unfold firewall_add_rule.
  destruct (Z.leb_spec (Z.of_nat FW_MAX_RULES) (rule_count s)); [left; split; [lia|done]|right].
  set (i := Z.to_nat (rule_count s)). set (r0 := rule <| fr_next := None |>).
  assert (Hi : ¬ i ∈ l) by (intros Hx; rewrite Forall_forall in Hus; specialize (Hus i Hx); unfold i in Hus; lia).
  assert (Hlt : (i < length (rule_storage s))%nat) by (rewrite Hst; unfold i, FW_MAX_RULES in *; lia).
  assert (Hu : u32 (rule_count s + 1) = rule_count s + 1) by (rewrite u32_small; unfold FW_MAX_RULES in *; lia).
  assert (Hp' : lpath fr_next (<[i := r0]> (rule_storage s)) (rule_head s) l None).
  { eapply lpath_frame; [|exact Hp]. intros b Hb. rewrite list_lookup_insert_ne; [done|]. by intros <-. }
  assert (Hnd' : NoDup (l ++ [i])).
  { apply NoDup_app. split; [done|]. split; [|apply NoDup_singleton]. intros b Hb ->%list_elem_of_singleton. done. }
  assert (Hus' : Forall (λ j, Z.of_nat j < rule_count s + 1) (l ++ [i])).
  { apply Forall_app. split; [eapply Forall_impl; [exact Hus|cbn; lia]|]. constructor; [unfold i; lia|constructor]. }
  cbn zeta. cbn -[FW_MAX_RULES u32 Z.to_nat]. fold i r0. destruct (rule_head s) as [h|] eqn:Eh.
  - destruct (decide (l = [])) as [->|Hne]; [by cbn in Hp|]. destruct (exists_last Hne) as (l0 & q & ->).
    rewrite (last_link_spec _ _ _ _ l0 q Hp').
    2:{ pose proof (lpath_length _ _ _ _ _ Hnd Hp) as Hll. rewrite length_app in Hll. cbn in Hll. rewrite length_insert. lia. }
    cbn [mbind option_bind]. exists i. eexists. split; [done|]. split; [split|].
    + cbn -[FW_MAX_RULES u32]. by rewrite length_alter, length_insert.
    + cbn -[FW_MAX_RULES u32]. rewrite Hu. unfold FW_MAX_RULES in *. lia.
    + cbn -[FW_MAX_RULES u32]. apply lpath_app in Hp' as (q' & Hp0 & (-> & rq & Hrq & Hq)).
      assert (Hqi : q ≠ i) by (intros ->; apply Hi; apply elem_of_app; right; left).
      apply lpath_app. exists (Some i). split.
      * apply lpath_app. exists (Some q). split.
        -- eapply lpath_frame; [|exact Hp0]. intros b Hb. apply relink_next. intros <-.
           apply NoDup_app in Hnd as (_ & Hd & _). apply (Hd q Hb). left.
        -- cbn. split; [done|]. rewrite list_lookup_alter_eq, Hrq. by eexists.
      * cbn. split; [done|]. rewrite list_lookup_alter_ne, list_lookup_insert_eq by done. by eexists.
    + done.
    + cbn -[FW_MAX_RULES u32]. by rewrite Hu.
    + done.
    + split_and!; try done. unfold i. lia.
  - pose proof (proj1 (lpath_nil _ _ _ _ Hp') eq_refl) as ->. exists i. eexists. split; [done|]. split; [split|].
    + cbn -[FW_MAX_RULES u32]. by rewrite length_insert.
    + cbn -[FW_MAX_RULES u32]. rewrite Hu. unfold FW_MAX_RULES in *. lia.
    + cbn -[FW_MAX_RULES u32]. split; [done|]. rewrite list_lookup_insert_eq by done. by eexists.
    + done.
    + cbn -[FW_MAX_RULES u32]. by rewrite Hu.
    + done.
    + split_and!; try done. unfold i. lia.
Qed.

(** The element whose link is [target] is its predecessor in the list. *)
Lemma find_pred_spec st l1 l2 t p :
  lpath fr_next st p (l1 ++ t :: l2) None → NoDup (l1 ++ t :: l2) → (length (l1 ++ t :: l2) ≤ length st)%nat →
  find_pred st t p = Some (last l1).
Proof.
  intros Hp Hnd Hlen. unfold find_pred. rewrite (find_link_spec _ _ _ _ _ _ Hp Hlen). f_equal.
  clear Hlen. revert p Hp. induction l1 as [|a l1 IH]; intros p Hp.
  - destruct Hp as (-> & x & Hx & Hl2). cbn. rewrite Hx. cbn.
    apply NoDup_cons in Hnd as [Ht Hnd]. rewrite bool_decide_false.
    + clear Hx. revert x Hl2. induction l2 as [|b l2 IH2]; intros x Hl2; [done|]. cbn.
      destruct Hl2 as (Hb & y & Hy & Hl2). rewrite Hy. cbn. apply not_elem_of_cons in Ht as [Htb Ht].
      apply NoDup_cons in Hnd as [_ Hnd]. rewrite bool_decide_false; [by eapply IH2|].
      destruct l2 as [|c l2]; [cbn in Hl2; by rewrite Hl2|]. destruct Hl2 as (-> & _). intros [= ->]. apply Ht. left.
    + destruct l2 as [|b l2]; [cbn in Hl2; by rewrite Hl2|]. destruct Hl2 as (-> & _). intros [= ->]. apply Ht. left.
  - destruct Hp as (-> & x & Hx & Hp). cbn. rewrite Hx. cbn. apply NoDup_cons in Hnd as [Ha Hnd].
    destruct l1 as [|b l1].
    + destruct Hp as (Hn & _). rewrite bool_decide_true by done. done.
    + pose proof Hp as (Hn & _). rewrite bool_decide_false; [rewrite (IH Hnd _ Hp); by rewrite last_cons_cons|].
      rewrite Hn. intros [= ->]. apply NoDup_cons in Hnd as [Hb _]. apply Hb. apply elem_of_app. right. left.
Qed.

Lemma find_pred_absent st l t p :
  lpath fr_next st p l None → ¬ t ∈ l → (length l ≤ length st)%nat → find_pred st t p = Some None.
Proof.
  intros Hp Ht Hlen. unfold find_pred. rewrite (find_link_spec _ _ _ _ _ _ Hp Hlen). f_equal. clear Hlen.
  revert p Hp. induction l as [|a l IH]; intros p Hp; [done|]. destruct Hp as (-> & x & Hx & Hp). cbn. rewrite Hx. cbn.
  apply not_elem_of_cons in Ht as [_ Ht]. rewrite bool_decide_false; [by eapply IH|].
  destruct l as [|b l]; [cbn in Hp; by rewrite Hp|]. destruct Hp as (-> & _). intros [= ->]. apply Ht. left.
Qed.

(** Deleting a rule takes exactly that rule out of the evaluation order. *)
Lemma firewall_del_rule_cases id l s :
  fw_inv l s → 0 ≤ id →
  (rule_count s ≤ id ∧ firewall_del_rule id s = Some (-1, s)) ∨
  (∃ s', firewall_del_rule id s = Some (0, s') ∧ fw_inv (filter (λ i, i ≠ Z.to_nat id) l) s' ∧
     conn_table s' = conn_table s ∧ rule_count s' = rule_count s).
Proof.
  intros Hinv Hid. pose proof Hinv as [Hst Hcnt Hp Hnd Hus Hct]. unfold firewall_del_rule.
  destruct (Z.leb_spec (rule_count s) id); [by left|right]. set (t := Z.to_nat id).
  destruct (lookup_lt_is_Some_2 (rule_storage s) t) as [x Hx]; [rewrite Hst; unfold t, FW_MAX_RULES in *; lia|].
  rewrite Hx. cbn [mbind option_bind]. pose proof (lpath_length _ _ _ _ _ Hnd Hp) as Hlen.
  assert (Hkeep : NoDup (filter (λ i, i ≠ t) l) ∧ Forall (λ i, Z.of_nat i < rule_count s) (filter (λ i, i ≠ t) l) ∧
    ¬ t ∈ filter (λ i, i ≠ t) l).
  { split; [by apply NoDup_filter|]. split; [apply Forall_forall; intros y [_ Hy]%list_elem_of_filter; rewrite Forall_forall in Hus; auto|]. by intros [? _]%list_elem_of_filter. }
  destruct Hkeep as (Hnd' & Hus' & Htf).
  assert (Hclear : ∀ st h, length st = FW_MAX_RULES → lpath fr_next st h (filter (λ i, i ≠ t) l) None →
    fw_inv (filter (λ i, i ≠ t) l) (s <| rule_head := h |> <| rule_storage := alter (λ r, r <| fr_next := None |>) t st |>)).
  { intros st h Hl Hpath. split; try done; [cbn; by rewrite length_alter|]. cbn. eapply lpath_frame; [|exact Hpath].
    intros b Hb. apply relink_next. by intros <-. }
  destruct (decide (t ∈ l)) as [Hin|Hnin].
  - destruct (list_elem_of_split _ _ Hin) as (l1 & l2 & ->).
    assert (Hfl : filter (λ i, i ≠ t) (l1 ++ t :: l2) = l1 ++ l2).
    { apply NoDup_app in Hnd as (_ & Hd & [Ht2 _]%NoDup_cons). rewrite filter_app, filter_cons_False by (intros []; done).
      rewrite !list_filter_all; [done|intros y Hy ->; done|intros y Hy ->; apply (Hd t Hy); left]. }
    rewrite Hfl in *. pose proof Hp as (q & Hp1 & (-> & x' & Hx' & Hp2))%lpath_app. assert (x' = x) as -> by congruence.
    destruct (bool_decide_reflect (rule_head s = Some t)) as [Eh|Eh].
    + assert (l1 = []) as ->.
      { destruct l1 as [|a l1]; [done|]. destruct Hp as (Ea & _). assert (a = t) as -> by congruence.
        apply NoDup_cons in Hnd as [Ha _]. exfalso. apply Ha. apply elem_of_app. right. left. }
      eexists. split; [done|]. split; [|done]. by apply (Hclear (rule_storage s) (fr_next x)).
    + rewrite (find_pred_spec _ l1 l2 t _ Hp Hnd Hlen). cbn [mbind option_bind].
      destruct (last l1) as [q|] eqn:El; [|apply last_None in El as ->; by cbn in Hp1].
      eexists. split; [done|]. split; [|done].
      refine (eq_rect _ (fw_inv _) (Hclear (alter (λ r, r <| fr_next := fr_next x |>) q (rule_storage s)) (rule_head s) _ _) _ _);
        [by rewrite length_alter| |by destruct s].
      apply last_Some in El as [l0 ->]. apply lpath_app in Hp1 as (q' & Hp0 & (-> & xq & Hxq & _)).
      rewrite <-app_assoc in Hnd. pose proof Hnd as (_ & Hd0 & [Hq2 _]%NoDup_cons)%NoDup_app.
      rewrite <-app_assoc. apply lpath_app. exists (Some q). split.
      * eapply lpath_frame; [|exact Hp0]. intros b Hb. apply relink_next. intros <-. apply (Hd0 q Hb). left.
      * cbn. split; [done|]. rewrite list_lookup_alter_eq, Hxq. eexists. split; [done|]. cbn.
        eapply lpath_frame; [|exact Hp2]. intros b Hb. apply relink_next. intros <-. apply Hq2. by right.
  - rewrite (find_pred_absent _ l t _ Hp Hnin Hlen).
    rewrite bool_decide_false. 2:{ intros E. destruct l as [|a l]; [cbn in Hp; congruence|]. destruct Hp as (Ea & _).
      assert (a = t) as -> by congruence. apply Hnin. left. }
    cbn [mbind option_bind]. eexists. split; [done|]. split; [|done].
    refine (eq_rect _ (fw_inv _) (Hclear (rule_storage s) (rule_head s) Hst _) _ _); [|by destruct s].
    rewrite list_filter_all; [done|]. by intros y Hy ->.
Qed.

(** * Histories *)

(** Configurations: evaluation order, flows accepted by a rule so far, state. *)
Inductive fw_step : list nat * list flow * fw_state → list nat * list flow * fw_state → Prop :=
  | fs_check_rule l h s p f a s' :
      20 ≤ pk_len p → parse_flow p = Some f → accepting_rule l s f →
      firewall_check (Some p) s = Some (a, s') → fw_step (l, h, s) (l, f :: h, s')
  | fs_check_other l h s p f a s' :
      20 ≤ pk_len p → parse_flow p = Some f → ¬ accepting_rule l s f →
      firewall_check (Some p) s = Some (a, s') → fw_step (l, h, s) (l, h, s')
  | fs_add l h s r s' :
      firewall_add_rule (Some r) s = Some (0, s') → fw_step (l, h, s) (l ++ [Z.to_nat (rule_count s)], h, s')
  | fs_del l h s id s' :
      0 ≤ id → firewall_del_rule id s = Some (0, s') → fw_step (l, h, s) (filter (λ i, i ≠ Z.to_nat id) l, h, s')
  | fs_flush l h s : fw_step (l, h, s) ([], h, snd (firewall_flush_rules s))
  | fs_cleanup l h s age : fw_step (l, h, s) (l, h, firewall_ct_cleanup age s)
  | fs_policy l h s a : fw_step (l, h, s) (l, h, firewall_set_default_policy a s)
  | fs_enable l h s b : fw_step (l, h, s) (l, h, firewall_enable b s).

Definition history_inv (c : list nat * list flow * fw_state) : Prop :=
  let '(l, h, s) := c in fw_inv l s ∧ ∀ g, tracked g s → g ∈ h ∨ reply g ∈ h.

Lemma reply_reply f : reply (reply f) = f.
Proof. by destruct f. Qed.

Lemma tracked_cleanup g age s : tracked g (firewall_ct_cleanup age s) → tracked g s.
Proof.
  intros (i & c & Hi & Hc). cbn in Hi. apply list_lookup_fmap_Some in Hi as (d & -> & Hd).
  exists i, d. split; [done|]. destruct (ct_active d && _); [|done]. by apply ct_matches_true in Hc as [? _].
Qed.

(** A check from a known state, whether or not the filter is enabled. *)
Lemma check_history l s p f a s' :
  fw_inv l s → 20 ≤ pk_len p → parse_flow p = Some f → firewall_check (Some p) s = Some (a, s') →
  fw_inv l s' ∧ ∀ g, tracked g s' → tracked g s ∨ (accepting_rule l s f ∧ (g = f ∨ g = reply f)).
Proof.
  intros Hinv Hlen Hf Hc. destruct (fw_enabled s) eqn:Hen.
  - destruct (firewall_check_cases l s p f Hinv Hen Hlen Hf) as (a' & s1 & E & Hinv1 & _ & Hcase).
    rewrite E in Hc. injection Hc as <- <-. split; [done|]. intros g Hg.
    destruct Hcase as [(_ & _ & Ht)|(_ & _ & [(Hacc & _ & Ht)|(_ & ->)])]; [left; by apply Ht| |by left].
    apply Ht in Hg as [?|?]; auto.
  - unfold firewall_check in Hc. rewrite Hen in Hc. injection Hc as _ <-. auto.
Qed.

Lemma fw_step_inv c c' : history_inv c → fw_step c c' → history_inv c'.
Proof.
  intros Hinv Hstep. destruct Hstep as [l h s p f a s' Hl Hf Hacc Hc|l h s p f a s' Hl Hf Hacc Hc|l h s r s' Hadd
    |l h s id s' Hid Hdel|l h s|l h s age|l h s a|l h s b]; destruct Hinv as [Hinv Hh].
  - destruct (check_history l s p f a s' Hinv Hl Hf Hc) as [Hinv' Ht]. split; [done|]. intros g [Hg|[_ [->| ->]]]%Ht.
    + destruct (Hh g Hg); [left|right]; by right.
    + left. left.
    + right. rewrite reply_reply. left.
  - destruct (check_history l s p f a s' Hinv Hl Hf Hc) as [Hinv' Ht]. split; [done|]. intros g [Hg|[? _]]%Ht; [by apply Hh|done].
  - destruct (firewall_add_rule_cases r l s Hinv) as [[_ E]|(i & s1 & E & Hinv' & _ & Hct & Hi & _)];
      rewrite E in Hadd; [done|]. injection Hadd as <-. rewrite <-Hi, Nat2Z.id. split; [done|].
    intros g. unfold tracked. rewrite Hct. apply Hh.
  - destruct (firewall_del_rule_cases id l s Hinv Hid) as [[_ E]|(s1 & E & Hinv' & Hct & _)]; rewrite E in Hdel; [done|].
    injection Hdel as <-. split; [done|]. intros g. unfold tracked. rewrite Hct. apply Hh.
  - split; [|done]. destruct Hinv. by split; cbn -[FW_MAX_RULES]; try constructor.
  - split; [|intros g Hg%tracked_cleanup; by apply Hh]. destruct Hinv as [? ? ? ? ? Hct]. split; try done. cbn. apply Forall_fmap.
    eapply Forall_impl; [exact Hct|]. intros c Hc. cbn. by destruct (ct_active c && _).
  - split; [|done]. by destruct Hinv.
  - split; [|done]. by destruct Hinv.
Qed.

(** No time stamp is ever set: clean-up expires no flow. *)
Definition unstamped (s : fw_state) : Prop := Forall (λ c, ct_last_seen c = 0) (conn_table s).

Lemma unstamped_alter (f : conn_track → conn_track) i s :
  (∀ c, ct_last_seen c = 0 → ct_last_seen (f c) = 0) → unstamped s → unstamped (s <| conn_table ::= alter f i |>).
Proof.
  intros Hf Hs. apply Forall_lookup_2. intros j c Hj. cbn in Hj.
  destruct (decide (i = j)) as [->|Hne].
  - rewrite list_lookup_alter_eq in Hj. apply fmap_Some in Hj as (d & Hd & ->). apply Hf, (Forall_lookup_1 _ _ _ _ Hs Hd).
  - rewrite list_lookup_alter_ne in Hj by done. apply (Forall_lookup_1 _ _ _ _ Hs Hj).
Qed.

Lemma firewall_check_unstamped pkt s a s' : firewall_check pkt s = Some (a, s') → unstamped s → unstamped s'.
Proof.
  unfold firewall_check, ct_create. intros Hc Hs.
  repeat (match type of Hc with
    | context [match ?x with _ => _ end] => destruct x
    | context [mbind _ ?x] => destruct x; cbn [mbind option_bind] in Hc
    end; try discriminate Hc; try (injection Hc as _ <-; exact Hs)).
  all: apply (inj Some), (f_equal snd) in Hc; cbn [snd] in Hc; rewrite <-Hc; repeat (apply unstamped_alter; [done|]); exact Hs.
Qed.

Lemma firewall_ct_cleanup_unstamped age s : 0 ≤ age → unstamped s → firewall_ct_cleanup age s = s.
Proof.
  intros Ha Hs. destruct s as [h st n ct dp en]. unfold unstamped, firewall_ct_cleanup in *. cbn in *. f_equal.
  induction Hs as [|c ct Hc _ IH]; [done|]. cbn. rewrite IH. f_equal. rewrite Hc.
  replace (age <? 0) with false by lia. by rewrite andb_false_r.
Qed.

(** * Theorems *)

(** The decision of the filter.  For every well-formed packet of at least 20
    bytes [firewall_check] reads only inside the buffer and returns: a packet
    of a tracked flow, in either direction, is accepted; any other packet gets
    the action of the first rule that matches it in insertion order, and the
    default policy when none does; the flow becomes tracked exactly when a rule
    accepted it and the table has room, and nothing else changes. *)
Theorem firewall_check_decision l s p :
  fw_inv l s → fw_enabled s = true → pkt_wf p → 20 ≤ pk_len p →
  ∃ f a s', parse_flow p = Some f ∧ firewall_check (Some p) s = Some (a, s') ∧ fw_inv l s' ∧
    rule_list l s' = rule_list l s ∧
    ((tracked f s ∧ a = FW_ACCEPT ∧ ∀ g, tracked g s' ↔ tracked g s) ∨
     (¬ tracked f s ∧ a = decide_rules (rule_list l s) (default_policy s) f ∧
      ((accepting_rule l s f ∧ (∃ c, c ∈ conn_table s ∧ ct_active c = false) ∧
          ∀ g, tracked g s' ↔ tracked g s ∨ g = f ∨ g = reply f) ∨
       (¬ (accepting_rule l s f ∧ ∃ c, c ∈ conn_table s ∧ ct_active c = false) ∧ s' = s)))).
Proof.
  intros Hinv Hen Hw Hl. destruct (parse_flow_ok p Hw Hl) as [f Hf].
  destruct (firewall_check_cases l s p f Hinv Hen Hl Hf) as (a & s' & ?). by exists f, a, s'.
Qed.

(** C17: default deny.  In every state reached from [firewall_init] by any sequence
    of packet checks, rule additions and deletions, flushes, clean-ups and
    policy changes, a packet that the enabled filter accepts is accepted by the
    default policy or by a matching rule now, or belongs to a flow of which an
    earlier packet, in one of the two directions, was accepted by a rule. *)
Theorem firewall_default_deny s0 l h s p f s' :
  length (rule_storage s0) = FW_MAX_RULES →
  rtc fw_step ([], [], snd (firewall_init s0)) (l, h, s) →
  fw_enabled s = true → 20 ≤ pk_len p → parse_flow p = Some f →
  firewall_check (Some p) s = Some (FW_ACCEPT, s') →
  default_policy s = FW_ACCEPT ∨ accepting_rule l s f ∨ f ∈ h ∨ reply f ∈ h.
Proof.
  intros Hlen Hsteps Hen Hl Hf Hc.
  assert (history_inv (l, h, s)) as [Hinv Hh].
  { assert (history_inv ([], [], snd (firewall_init s0))) as H0.
    { split.
      - split; cbn -[FW_MAX_RULES]; try done; [constructor|]. by apply Forall_fmap, Forall_true.
      - intros g (i & c & Hi & Hm). cbn in Hi. apply list_lookup_fmap_Some in Hi as (d & -> & _).
        by apply ct_matches_true in Hm as [? _]. }
    clear -Hsteps H0. remember ([], [], snd (firewall_init s0)) as c. remember (l, h, s) as c'. clear Heqc Heqc'.
    induction Hsteps as [|x y z Hxy _ IH]; [done|]. apply IH. by eapply fw_step_inv. }
  destruct (firewall_check_cases l s p f Hinv Hen Hl Hf) as (a & s1 & E & _ & _ & Hcase).
  rewrite E in Hc. injection Hc as -> <-. destruct Hcase as [(Ht & _)|(_ & Ha & _)]; [right; right; by apply Hh|].
  unfold decide_rules in Ha. unfold accepting_rule.
  destruct (List.find _ _) as [r|]; cbn in Ha; [right; left; by exists r|by left].
Qed.

(** * Examples *)

Definition zero_rule : fw_rule := mk_rule 0 0 0 0 0 0 0 FW_ACCEPT None.
Definition zero_fw : fw_state :=
  mk_fw None (replicate FW_MAX_RULES zero_rule) 0 (replicate FW_MAX_CONN_TRACK (mk_ct 0 0 0 0 0 0 0 false)) FW_ACCEPT false.

(** One rule: accept TCP to port 80. *)
Definition http_rule : fw_rule := zero_rule <| fr_protocol := FW_PROTO_TCP |> <| fr_dst_port := 80 |>.
Definition example_fw : fw_state :=
  default zero_fw (snd <$> firewall_add_rule (Some http_rule) (snd (firewall_init zero_fw))).

(** A TCP packet 10.0.0.1:1024 -> 10.0.0.2:80 and the reply. *)
Definition http_request : pktbuf :=
  pkt_of 0 ([69; 0; 0; 40; 0; 0; 0; 0; 64; 6; 0; 0; 10; 0; 0; 1; 10; 0; 0; 2; 4; 0; 0; 80] ++ replicate 16 0).
Definition http_reply : pktbuf :=
  pkt_of 0 ([69; 0; 0; 40; 0; 0; 0; 0; 64; 6; 0; 0; 10; 0; 0; 2; 10; 0; 0; 1; 0; 80; 4; 0] ++ replicate 16 0).
Definition http_flow : flow := mk_flow 16777226 33554442 1024 80 6.

Lemma example_fw_inv : fw_inv [0%nat] example_fw.
Proof.
  split.
  - vm_compute. reflexivity.
  - vm_compute. split; discriminate.
  - split; [vm_compute; reflexivity|]. exists http_rule. split; vm_compute; reflexivity.
  - apply NoDup_singleton.
  - apply Forall_singleton. vm_compute. reflexivity.
  - assert (conn_table example_fw = replicate FW_MAX_CONN_TRACK (mk_ct 0 0 0 0 0 0 0 false)) as -> by (vm_compute; reflexivity).
    by apply Forall_replicate.
Qed.

Lemma http_request_wf : pkt_wf http_request.
Proof. apply pkt_of_wf; vm_compute; first [reflexivity|discriminate]. Qed.

Lemma firewall_check_decision_witness :
  ∃ s', firewall_check (Some http_request) example_fw = Some (FW_ACCEPT, s') ∧ tracked (reply http_flow) s'.
Proof.
  destruct (firewall_check_decision [0%nat] example_fw http_request example_fw_inv)
    as (f & a & s' & Hf & Hc & _ & _ & Hcase).
  - vm_compute. reflexivity.
  - apply http_request_wf.
  - vm_compute. discriminate.
  - assert (f = http_flow) as ->.
    { apply (inj Some). rewrite <-Hf. vm_compute. reflexivity. }
    destruct Hcase as [(Ht & _)|(_ & -> & Hcase)].
    + exfalso. destruct Ht as (i & c & Hi & Hm).
      assert (conn_table example_fw = replicate FW_MAX_CONN_TRACK (mk_ct 0 0 0 0 0 0 0 false)) as E by (vm_compute; reflexivity).
      rewrite E in Hi. apply lookup_replicate in Hi as [-> _]. discriminate Hm.
    + exists s'. split; [rewrite Hc; f_equal; f_equal; vm_compute; reflexivity|].
      assert (Hacc : accepting_rule [0%nat] example_fw http_flow).
      { exists http_rule. split; vm_compute; reflexivity. }
      destruct Hcase as [(_ & _ & Ht)|(Hn & _)]; [apply Ht; auto|].
      exfalso. apply Hn. split; [exact Hacc|]. exists (mk_ct 0 0 0 0 0 0 0 false). split; [|reflexivity].
      apply (list_elem_of_lookup_2 _ 0%nat). vm_compute. reflexivity.
Defined.

(** After the request the reply passes; before it, it does not. *)
Lemma firewall_default_deny_witness :
  fst <$> firewall_check (Some http_reply) example_fw = Some FW_DROP ∧
  ∃ s1 s2, firewall_check (Some http_request) example_fw = Some (FW_ACCEPT, s1) ∧
    firewall_check (Some http_reply) s1 = Some (FW_ACCEPT, s2) ∧
    (default_policy s1 = FW_ACCEPT ∨ accepting_rule [0%nat] s1 (reply http_flow) ∨
     reply http_flow ∈ [http_flow] ∨ reply (reply http_flow) ∈ [http_flow]).
Proof.
  split; [vm_compute; reflexivity|].
  set (s1 := default zero_fw (snd <$> firewall_check (Some http_request) example_fw)).
  set (s2 := default zero_fw (snd <$> firewall_check (Some http_reply) s1)).
  assert (E1 : firewall_check (Some http_request) example_fw = Some (FW_ACCEPT, s1)).
  { unfold s1. assert (fst <$> firewall_check (Some http_request) example_fw = Some FW_ACCEPT) as H by (vm_compute; reflexivity).
    destruct (firewall_check _ _) as [[a s]|]; [|discriminate]. injection H as ->. reflexivity. }
  assert (E2 : firewall_check (Some http_reply) s1 = Some (FW_ACCEPT, s2)).
  { unfold s2. assert (fst <$> firewall_check (Some http_reply) s1 = Some FW_ACCEPT) as H by (vm_compute; reflexivity).
    destruct (firewall_check _ s1) as [[a s]|]; [|discriminate]. injection H as ->. reflexivity. }
  exists s1, s2. split; [exact E1|]. split; [exact E2|].
  eapply (firewall_default_deny zero_fw [0%nat] [http_flow] s1 http_reply (reply http_flow) s2); [..|exact E2].
  - vm_compute. reflexivity.
  - eapply rtc_l; [|eapply rtc_once].
    + apply (fs_add [] [] _ http_rule example_fw). vm_compute. reflexivity.
    + eapply (fs_check_rule [0%nat] [] example_fw http_request http_flow); [vm_compute; discriminate| | |exact E1].
      * vm_compute. reflexivity.
      * exists http_rule. split; vm_compute; reflexivity.
  - vm_compute. reflexivity.
  - vm_compute. discriminate.
  - vm_compute. reflexivity.
Defined.
