(* ===== verification/Arp.v ===== *)
(** ARP cache: net/arp.c, a table of 64 addresses.

    The specification is a list of bindings, most recently set first, of at most
    64 elements: setting a binding moves it to the front and drops the last one
    when the list is full. *)

From S2P Require Import Prelude.

Definition ARP_MAX_CACHE : nat := 64.

Record arp_entry := mk_arp { ae_ip : Z; ae_mac : list Z; ae_valid : bool; ae_age : Z }.
#[export] Instance arp_entry_eta : Eta arp_entry := λ e, mk_arp (ae_ip e) (ae_mac e) (ae_valid e) (ae_age e).

Record arp_state := mk_arps { arp_cache : list arp_entry; arp_age_counter : Z }.
#[export] Instance arp_state_eta : Eta arp_state := λ s, mk_arps (arp_cache s) (arp_age_counter s).

Definition arp_init (s : arp_state) : arp_state :=
  s <| arp_cache ::= fmap (λ e, e <| ae_valid := false |>) |>.

(** [arp_cache[i].age = ++arp_age_counter] *)
Definition stamp (i : nat) (s : arp_state) : arp_state :=
  let s := s <| arp_age_counter := u32 (arp_age_counter s + 1) |> in
  s <| arp_cache ::= alter (λ e, e <| ae_age := arp_age_counter s |>) i |>.

Definition ip_slot (ip : Z) (s : arp_state) : option nat :=
  find_slot (λ e, ae_valid e && (ae_ip e =? ip)) (arp_cache s).

(** The scan for the smallest age. *)
Definition oldest_step (i : nat) (e : arp_entry) (acc : Z * nat) : Z * nat :=
  if ae_age e <? fst acc then (ae_age e, i) else acc.
Fixpoint oldest_scan (i : nat) (cache : list arp_entry) (acc : Z * nat) : Z * nat :=
  match cache with
  | [] => acc
  | e :: cache => oldest_scan (S i) cache (oldest_step i e acc)
  end.
Definition oldest_idx (s : arp_state) : nat := snd (oldest_scan 0 (arp_cache s) (4294967295, 0%nat)).

Definition arp_cache_set (ip : Z) (mac : list Z) (s : arp_state) : arp_state :=
  match ip_slot ip s with
  | Some i => stamp i (s <| arp_cache ::= alter (λ e, e <| ae_mac := mac |>) i |>)
  | None =>
      match find_slot (λ e, negb (ae_valid e)) (arp_cache s) with
      | Some i => stamp i (s <| arp_cache ::= alter (λ e, e <| ae_ip := ip |> <| ae_mac := mac |> <| ae_valid := true |>) i |>)
      | None =>
          let i := oldest_idx s in
          stamp i (s <| arp_cache ::= alter (λ e, e <| ae_ip := ip |> <| ae_mac := mac |>) i |>)
      end
  end.

Definition arp_cache_lookup (ip : Z) (s : arp_state) : option (list Z) :=
  i ← ip_slot ip s; ae_mac <$> arp_cache s !! i.

(** * Specification *)

Definition lru_set (ip : Z) (mac : list Z) (l : list (Z * list Z)) : list (Z * list Z) :=
  take ARP_MAX_CACHE ((ip, mac) :: filter (λ b, fst b ≠ ip) l).
Definition lru_lookup (ip : Z) (l : list (Z * list Z)) : option (list Z) :=
  snd <$> List.find (λ b, fst b =? ip) l.

(** [d]: the slots in use, most recently set first. *)
Record cache_order (d : list nat) (s : arp_state) : Prop := {
  co_len : length (arp_cache s) = ARP_MAX_CACHE;
  co_nodup : NoDup d;
  co_valid : ∀ i e, arp_cache s !! i = Some e → ae_valid e = true ↔ i ∈ d;
  co_lt : ∀ i, i ∈ d → (i < ARP_MAX_CACHE)%nat;
  co_ages : ∀ j k i i' e f, (j < k)%nat → d !! j = Some i → d !! k = Some i' →
    arp_cache s !! i = Some e → arp_cache s !! i' = Some f → ae_age f < ae_age e;
  co_bound : ∀ i e, i ∈ d → arp_cache s !! i = Some e → 0 ≤ ae_age e ≤ arp_age_counter s;
}.

Definition binding (e : arp_entry) : Z * list Z := (ae_ip e, ae_mac e).
Definition bindings (d : list nat) (s : arp_state) : list (Z * list Z) := omap (λ i, binding <$> arp_cache s !! i) d.

Definition cache_rel (s : arp_state) (l : list (Z * list Z)) : Prop :=
  ∃ d, cache_order d s ∧ l = bindings d s ∧ NoDup (fst <$> l).

(** * Proofs *)

Lemma slot_entry d s i : cache_order d s → i ∈ d → ∃ e, arp_cache s !! i = Some e ∧ ae_valid e = true.
Proof.
  intros Ho Hi. destruct (lookup_lt_is_Some_2 (arp_cache s) i) as [e He].
  { rewrite (co_len _ _ Ho). by apply (co_lt _ _ Ho). }
  exists e. split; [done|]. by apply (co_valid _ _ Ho i e He).
Qed.

(** Writing a binding to slot [i] with the next stamp. *)
Definition write_slot (i : nat) (ip : Z) (mac : list Z) (s : arp_state) : arp_state :=
  mk_arps (<[i := mk_arp ip mac true (arp_age_counter s + 1)]> (arp_cache s)) (arp_age_counter s + 1).

Lemma filter_lookup_lt (d : list nat) i j k a b :
  (j < k)%nat → filter (λ x, x ≠ i) d !! j = Some a → filter (λ x, x ≠ i) d !! k = Some b →
  ∃ j' k', (j' < k')%nat ∧ d !! j' = Some a ∧ d !! k' = Some b.
Proof.
  revert j k. induction d as [|c d IH]; intros j k Hjk Ha Hb; [done|]. rewrite filter_cons in Ha, Hb. case_decide as Hc.
  - destruct k as [|k]; [lia|]. destruct j as [|j].
    + cbn in Ha. injection Ha as ->. cbn in Hb. apply list_elem_of_lookup_2, list_elem_of_filter in Hb as [_ Hb].
      apply list_elem_of_lookup_1 in Hb as [k' Hk']. exists 0%nat, (S k'). split; [lia|done].
    + destruct (IH j k ltac:(lia) Ha Hb) as (j' & k' & ? & ? & ?). exists (S j'), (S k'). split; [lia|done].
  - destruct (IH j k Hjk Ha Hb) as (j' & k' & ? & ? & ?). exists (S j'), (S k'). split; [lia|done].
Qed.

Lemma write_slot_order d s i ip mac :
  cache_order d s → (i < ARP_MAX_CACHE)%nat → 0 ≤ arp_age_counter s →
  cache_order (i :: filter (λ x, x ≠ i) d) (write_slot i ip mac s).
Proof.
  intros [Hl Hn Hv Hlt Ha Hb] Hi Hc. set (e := mk_arp ip mac true (arp_age_counter s + 1)).
  assert (Hlk : ∀ j f, arp_cache (write_slot i ip mac s) !! j = Some f → (j = i ∧ f = e) ∨ (j ≠ i ∧ arp_cache s !! j = Some f)).
  { intros j f Hj. cbn in Hj. rewrite list_lookup_insert in Hj. case_decide as E; [naive_solver|].
    right. split; [|done]. intros ->. apply E. split; [done|]. by rewrite Hl. }
  assert (Hd : ∀ j, j ∈ filter (λ x, x ≠ i) d ↔ j ≠ i ∧ j ∈ d) by (intros j; by rewrite list_elem_of_filter).
  split.
  - cbn. by rewrite length_insert.
  - constructor; [rewrite Hd; naive_solver|by apply NoDup_filter].
  - intros j f [[-> ->]|[Hne Hj]]%Hlk; [split; [left|done]|]. rewrite elem_of_cons, Hd, (Hv j f Hj). naive_solver.
  - intros j [->|[_ Hj]%Hd]%elem_of_cons; [done|by apply Hlt].
  - intros j k a b f g Hjk Hja Hkb Hf Hg. destruct k as [|k]; [lia|]. cbn in Hkb.
    assert (b ≠ i ∧ b ∈ d) as [Hbi Hbd] by (apply Hd; by eapply list_elem_of_lookup_2).
    destruct (Hlk b g Hg) as [[-> _]|[_ Hg']]; [done|]. destruct j as [|j]; cbn in Hja.
    + injection Hja as <-. destruct (Hlk i f Hf) as [[_ ->]|[? _]]; [|done]. cbn. pose proof (Hb b g Hbd Hg'). lia.
    + destruct (filter_lookup_lt d i j k a b) as (j' & k' & Hjk' & Hj' & Hk'); [lia|done|done|].
      assert (a ≠ i ∧ a ∈ d) as [Hai _] by (apply Hd; by eapply list_elem_of_lookup_2).
      destruct (Hlk a f Hf) as [[-> _]|[_ Hf']]; [done|]. by eapply Ha.
  - intros j f [->|[Hne Hj]%Hd]%elem_of_cons Hf; destruct (Hlk _ f Hf) as [[? ->]|[? Hf']]; try done; cbn; [lia|].
    pose proof (Hb j f Hj Hf'). lia.
Qed.

Lemma write_slot_bindings d s i ip mac :
  length (arp_cache s) = ARP_MAX_CACHE → (i < ARP_MAX_CACHE)%nat → ¬ i ∈ d →
  bindings (i :: d) (write_slot i ip mac s) = (ip, mac) :: bindings d s.
Proof.
  intros Hl Hi Hni. unfold bindings. cbn [omap list_omap write_slot arp_cache].
  rewrite list_lookup_insert_eq by (by rewrite Hl). cbn [fmap option_fmap option_map binding ae_ip ae_mac]. f_equal.
  induction d as [|j d IH]; [done|]. cbn. rewrite list_lookup_insert_ne by set_solver. destruct (arp_cache s !! j); cbn.
  - f_equal. apply IH. set_solver.
  - apply IH. set_solver.
Qed.

Lemma bindings_length d s : cache_order d s → length (bindings d s) = length d.
Proof.
  intros Ho. assert (∀ i, i ∈ d → is_Some (arp_cache s !! i)) as H.
  { intros i Hi. destruct (slot_entry d s i Ho Hi) as (e & -> & _). by eexists. }
  clear Ho. unfold bindings. induction d as [|i d IH]; [done|]. cbn. destruct (H i) as [e ->]; [left|]. cbn. f_equal. apply IH. set_solver.
Qed.

Lemma order_length d s : cache_order d s → (length d ≤ ARP_MAX_CACHE)%nat.
Proof.
  intros Ho. rewrite <-(length_seq ARP_MAX_CACHE 0). apply submseteq_length, NoDup_submseteq; [apply Ho|].
  intros i Hi%(co_lt _ _ Ho). apply elem_of_seq. lia.
Qed.

Lemma elem_bindings d s b : b ∈ bindings d s ↔ ∃ i e, i ∈ d ∧ arp_cache s !! i = Some e ∧ b = binding e.
Proof.
  unfold bindings. rewrite list_elem_of_omap. split.
  - intros (i & Hi & Hb). destruct (arp_cache s !! i) as [e|] eqn:E; [|done]. injection Hb as <-. eauto.
  - intros (i & e & Hi & He & ->). exists i. by rewrite He.
Qed.

(** Removing a slot removes its address from the bindings. *)
Lemma bindings_filter d s i e :
  cache_order d s → NoDup (fst <$> bindings d s) → i ∈ d → arp_cache s !! i = Some e →
  bindings (filter (λ x, x ≠ i) d) s = filter (λ b, fst b ≠ ae_ip e) (bindings d s).
Proof.
  intros Ho Hn Hi He. assert (∀ j, j ∈ d → is_Some (arp_cache s !! j)) as H.
  { intros j Hj. destruct (slot_entry d s j Ho Hj) as (f & -> & _). by eexists. }
  pose proof (co_nodup _ _ Ho) as Hnd. clear Ho. unfold bindings in *. induction d as [|j d IH]; [set_solver|].
  cbn in Hn |- *. destruct (H j) as [f Hf]; [left|]. rewrite Hf in Hn |- *. cbn in Hn |- *.
  apply NoDup_cons in Hn as [Hnf Hn]. apply NoDup_cons in Hnd as [Hjd Hnd].
  destruct (decide (j = i)) as [->|Hji].
  - rewrite decide_False by naive_solver. assert (f = e) as -> by congruence. rewrite decide_False by naive_solver.
    rewrite (list_filter_all (λ x, x ≠ i) d) by (intros x Hx ->; done). symmetry. apply list_filter_all.
    intros [a m] Hb Ea. cbn in Ea. apply Hnf. rewrite <-Ea. by apply (list_elem_of_fmap_2 fst _ (a, m)).
  - rewrite decide_True by done. cbn. rewrite Hf. cbn. rewrite decide_True.
    + f_equal. apply IH; [done|set_solver|set_solver|done].
    + intros Ea. apply Hnf. rewrite Ea. apply list_elem_of_fmap. exists (binding e). split; [done|].
      apply list_elem_of_omap. exists i. rewrite He. split; [set_solver|done].
Qed.

Lemma length_filter_ne (d : list nat) i : i ∈ d → (length (filter (λ x, x ≠ i) d) < length d)%nat.
Proof.
  induction d as [|j d IH]; intros Hi; [set_solver|]. rewrite filter_cons. pose proof (length_filter (λ x, x ≠ i) d).
  case_decide as E; cbn; [|lia]. enough (length (filter (λ x, x ≠ i) d) < length d)%nat by lia. apply IH. set_solver.
Qed.

Lemma bindings_length_le d s : (length (bindings d s) ≤ length d)%nat.
Proof. unfold bindings. induction d as [|j d IH]; [done|]. cbn. destruct (arp_cache s !! j); cbn; lia. Qed.

Lemma NoDup_filter_fst {B} (P : Z * B → Prop) `{∀ b, Decision (P b)} (l : list (Z * B)) :
  NoDup (fst <$> l) → NoDup (fst <$> filter P l).
Proof.
  induction l as [|b l IH]; intros Hn; [done|]. cbn in Hn. apply NoDup_cons in Hn as [Hb Hn]. rewrite filter_cons.
  case_decide; [|by apply IH]. cbn. constructor; [|by apply IH]. intros (c & E & [_ Hc]%list_elem_of_filter)%list_elem_of_fmap.
  apply Hb. rewrite E. by apply list_elem_of_fmap_2.
Qed.

(** The scan returns a slot of smallest age. *)
Lemma oldest_scan_spec cache k acc :
  let r := oldest_scan k cache acc in
  (r = acc ∨ ∃ j e, cache !! j = Some e ∧ r = (ae_age e, k + j)%nat) ∧
  fst r ≤ fst acc ∧ ∀ j e, cache !! j = Some e → fst r ≤ ae_age e.
Proof.
  revert k acc. induction cache as [|c cache IH]; intros k acc; cbn; [split; [by left|split; [lia|done]]|].
  destruct (IH (S k) (oldest_step k c acc)) as (Hcase & Hle & Hall). set (r := oldest_scan _ _ _) in *.
  assert (fst (oldest_step k c acc) ≤ fst acc ∧ fst (oldest_step k c acc) ≤ ae_age c) as [H1 H2].
  { unfold oldest_step. destruct (Z.ltb_spec (ae_age c) (fst acc)); cbn; lia. }
  split; [|split; [lia|]].
  - destruct Hcase as [E|(j & e & Hj & E)].
    + unfold oldest_step in E. destruct (ae_age c <? fst acc); [|by left]. right. exists 0%nat, c. split; [done|].
      by rewrite Nat.add_0_r.
    + right. exists (S j), e. split; [done|]. by rewrite E, <-Nat.add_succ_comm.
  - intros [|j] e Hj; [injection Hj as ->; lia|by eapply Hall].
Qed.

Lemma oldest_last d s i :
  cache_order (d ++ [i]) s → (∀ j e, arp_cache s !! j = Some e → ae_valid e = true) → arp_age_counter s < 4294967295 →
  oldest_idx s = i.
Proof.
  intros Ho Hall Hc. unfold oldest_idx. pose proof (oldest_scan_spec (arp_cache s) 0 (4294967295, 0%nat)) as (Hcase & _ & Hmin).
  assert (Hin : ∀ j e, arp_cache s !! j = Some e → j ∈ d ++ [i]) by (intros j e Hj; apply (co_valid _ _ Ho j e Hj), (Hall j e Hj)).
  destruct (slot_entry _ s i Ho) as (f & Hf & _); [set_solver|].
  assert (Hfa : ae_age f < 4294967295).
  { pose proof (co_bound _ _ Ho i f ltac:(set_solver) Hf). lia. }
  destruct Hcase as [E|(j & e & Hj & E)].
  { specialize (Hmin i f Hf). rewrite E in Hmin. cbn in Hmin. lia. }
  rewrite E. cbn. destruct (decide (j = i)) as [|Hne]; [done|]. exfalso.
  specialize (Hmin i f Hf). rewrite E in Hmin. cbn in Hmin.
  pose proof (Hin j e Hj) as Hji. apply elem_of_app in Hji as [[a Ha]%list_elem_of_lookup_1|?%list_elem_of_singleton]; [|done].
  pose proof (lookup_lt_Some _ _ _ Ha) as Hlt.
  pose proof (co_ages _ _ Ho a (length d) j i e f Hlt) as Hage. rewrite lookup_app_l, list_lookup_middle in Hage by done. specialize (Hage Ha eq_refl Hj Hf). lia.
Qed.

Lemma ip_slot_spec d s ip :
  cache_order d s →
  match ip_slot ip s with
  | Some i => i ∈ d ∧ ∃ e, arp_cache s !! i = Some e ∧ ae_ip e = ip
  | None => ¬ ip ∈ fst <$> bindings d s
  end.
Proof.
  intros Ho. unfold ip_slot. destruct (find_slot _ _) as [i|] eqn:E.
  - apply find_slot_Some in E as (e & He & [Hv Hip%Z.eqb_eq]%andb_true_iff & _). split; [by apply (co_valid _ _ Ho i e)|by exists e].
  - pose proof (proj1 (find_slot_None _ _) E) as Hno. intros (b & -> & (i & e & Hi & He & ->)%elem_bindings)%list_elem_of_fmap.
    specialize (Hno i e He). cbn in Hno. rewrite (proj2 (co_valid _ _ Ho i e He) Hi), Z.eqb_refl in Hno. done.
Qed.

Lemma lru_lookup_Some ip mac l : NoDup (fst <$> l) → (ip, mac) ∈ l → lru_lookup ip l = Some mac.
Proof.
  unfold lru_lookup. induction l as [|[a m] l IH]; intros Hn Hin; [set_solver|]. cbn in *. apply NoDup_cons in Hn as [Ha Hn].
  apply elem_of_cons in Hin as [E|Hin]; [injection E as <- <-; by rewrite Z.eqb_refl|].
  destruct (Z.eqb_spec a ip) as [->|]; [|by apply IH]. exfalso. apply Ha. apply list_elem_of_fmap. by exists (ip, mac).
Qed.

Lemma lru_lookup_None ip l : ¬ ip ∈ fst <$> l → lru_lookup ip l = None.
Proof.
  unfold lru_lookup. induction l as [|[a m] l IH]; intros Hn; [done|]. cbn in *. destruct (Z.eqb_spec a ip) as [->|]; [set_solver|].
  apply IH. set_solver.
Qed.

Lemma bindings_app d1 d2 s : bindings (d1 ++ d2) s = bindings d1 s ++ bindings d2 s.
Proof. unfold bindings. by rewrite omap_app. Qed.

(** Every branch of [arp_cache_set] writes one slot. *)
Lemma arp_cache_set_write ip mac s i f :
  0 ≤ arp_age_counter s → arp_age_counter s + 1 < 2 ^ 32 →
  (∃ e, arp_cache s !! i = Some e ∧ f e = mk_arp ip mac true (ae_age e)) →
  stamp i (s <| arp_cache ::= alter f i |>) = write_slot i ip mac s.
Proof.
  intros H0 Hc (e & He & Hf). unfold stamp, write_slot. destruct s as [ca ct]. cbn in *. rewrite u32_small by lia. f_equal.
  apply list_eq. intros j. destruct (decide (i = j)) as [<-|]; [|by rewrite !list_lookup_alter_ne, list_lookup_insert_ne].
  rewrite !list_lookup_alter_eq, list_lookup_insert_eq by (by eapply lookup_lt_Some). rewrite He. cbn. by rewrite Hf.
Qed.

Lemma cache_set_rel s l ip mac :
  cache_rel s l → 0 ≤ arp_age_counter s → arp_age_counter s + 1 < 2 ^ 32 - 1 →
  cache_rel (arp_cache_set ip mac s) (lru_set ip mac l).
Proof.
  intros (d & Ho & -> & Hn) H0 Hc. pose proof (order_length d s Ho) as Hlen. pose proof (bindings_length d s Ho) as Hbl.
  assert (Hgo : ∀ i, (i < ARP_MAX_CACHE)%nat → lru_set ip mac (bindings d s) = (ip, mac) :: bindings (filter (λ x, x ≠ i) d) s →
    NoDup (ip :: (fst <$> bindings (filter (λ x, x ≠ i) d) s)) → cache_rel (write_slot i ip mac s) (lru_set ip mac (bindings d s))).
  { intros i Hi E Hnd. exists (i :: filter (λ x, x ≠ i) d). split; [by apply write_slot_order|].
    rewrite write_slot_bindings, E; [done|apply Ho|done|]. rewrite list_elem_of_filter. naive_solver. }
  unfold arp_cache_set. pose proof (ip_slot_spec d s ip Ho) as Hs. destruct (ip_slot ip s) as [i|].
  - destruct Hs as (Hi & e & He & Hip). destruct (slot_entry d s i Ho Hi) as (e' & He' & Hv). assert (e' = e) as -> by congruence.
    rewrite (arp_cache_set_write ip mac) by (first [lia|exists e; split; [done|destruct e; cbn in *; congruence]]).
    pose proof (bindings_filter d s i e Ho Hn Hi He) as Hf. rewrite Hip in Hf. apply Hgo; [by apply (co_lt _ _ Ho)| |].
    + unfold lru_set. rewrite <-Hf, firstn_all2; [done|]. cbn. pose proof (bindings_length_le (filter (λ x, x ≠ i) d) s). pose proof (length_filter_ne d i Hi). lia.
    + rewrite Hf. constructor; [|by apply NoDup_filter_fst]. intros (b & -> & [Hb _]%list_elem_of_filter)%list_elem_of_fmap. done.
  - destruct (find_slot (λ e, negb (ae_valid e)) (arp_cache s)) as [i|] eqn:Ef.
    + apply find_slot_Some in Ef as (e & He & Hv%negb_true_iff & _). assert (Hni : ¬ i ∈ d) by (intros Hi%(co_valid _ _ Ho i e He); congruence).
      assert (Hlt : (i < ARP_MAX_CACHE)%nat) by (rewrite <-(co_len _ _ Ho); by eapply lookup_lt_Some).
      rewrite (arp_cache_set_write ip mac) by (first [lia|by exists e]).
      assert (filter (λ x, x ≠ i) d = d) as Hfd by (apply list_filter_all; intros x Hx ->; done).
      apply Hgo; rewrite ?Hfd; [done| |by constructor]. unfold lru_set. rewrite firstn_all2.
      * f_equal. apply list_filter_all. intros b Hb E. apply Hs. rewrite <-E. by apply list_elem_of_fmap_2.
      * cbn. pose proof (length_filter (λ b, fst b ≠ ip) (bindings d s)). pose proof (order_length (i :: d) (write_slot i ip mac s)) as Hl'.
        rewrite <-Hfd in Hl' at 1. specialize (Hl' (write_slot_order d s i ip mac Ho Hlt H0)). cbn in Hl'. lia.
    + assert (Hall : ∀ j e, arp_cache s !! j = Some e → ae_valid e = true).
      { intros j e He. pose proof (proj1 (find_slot_None _ _) Ef j e He) as Hv. by apply negb_false_iff. }
      assert (Hfull : length d = ARP_MAX_CACHE).
      { apply Nat.le_antisymm; [done|]. rewrite <-(length_seq ARP_MAX_CACHE 0). apply submseteq_length, NoDup_submseteq; [apply NoDup_seq|].
        intros j Hj%elem_of_seq. destruct (lookup_lt_is_Some_2 (arp_cache s) j) as [e He]; [rewrite (co_len _ _ Ho); lia|].
        apply (co_valid _ _ Ho j e He), (Hall j e He). }
      destruct (exists_last (l := d)) as (d' & i & ->); [intros ->; done|].
      assert (Hi : i ∈ d' ++ [i]) by set_solver. destruct (slot_entry _ s i Ho Hi) as (e & He & Hv).
      rewrite (oldest_last d' s i) by (done || lia).
      rewrite (arp_cache_set_write ip mac) by (first [lia|exists e; split; [done|destruct e; cbn in *; congruence]]).
      pose proof (co_nodup _ _ Ho) as Hnd. apply NoDup_app in Hnd as (_ & Hnd & _).
      assert (filter (λ x, x ≠ i) (d' ++ [i]) = d') as Hfd.
      { rewrite filter_app, filter_cons, decide_False by naive_solver. rewrite app_nil_r. apply list_filter_all. intros x Hx ->.
        apply (Hnd i Hx). left. }
      apply Hgo; [by apply (co_lt _ _ Ho)|rewrite Hfd|rewrite Hfd].
      * unfold lru_set. rewrite list_filter_all by (intros b Hb E; apply Hs; rewrite <-E; by apply list_elem_of_fmap_2).
        rewrite bindings_app in Hbl |- *. rewrite length_app in Hfull. cbn in Hfull. rewrite length_app in Hbl.
        assert (length (bindings d' s) = 63)%nat as Hl63.
        { pose proof (bindings_length_le [i] s). pose proof (bindings_length_le d' s). cbn in *. unfold ARP_MAX_CACHE in *. rewrite !length_app in Hbl. cbn in Hbl. lia. }
        unfold ARP_MAX_CACHE. cbn [take]. f_equal. rewrite <-Hl63. apply take_app_length.
      * constructor; [rewrite bindings_app, fmap_app in Hs; set_solver|]. rewrite bindings_app, fmap_app in Hn. by apply NoDup_app in Hn as [Hn _].
Qed.

Lemma cache_lookup_rel s l ip : cache_rel s l → arp_cache_lookup ip s = lru_lookup ip l.
Proof.
  intros (d & Ho & -> & Hn). unfold arp_cache_lookup. pose proof (ip_slot_spec d s ip Ho) as Hs. destruct (ip_slot ip s) as [i|].
  - destruct Hs as (Hi & e & He & Hip). cbn. rewrite He. cbn. symmetry. apply lru_lookup_Some; [done|].
    apply elem_bindings. exists i, e. split; [done|]. split; [done|]. unfold binding. by rewrite Hip.
  - symmetry. by apply lru_lookup_None.
Qed.

Lemma arp_init_rel s : length (arp_cache s) = ARP_MAX_CACHE → cache_rel (arp_init s) [].
Proof.
  intros Hl. exists []. split; [|split; [done|constructor]]. split; try done; try set_solver.
  - cbn. by rewrite length_fmap.
  - constructor.
  - intros i e Hi. cbn in Hi. apply list_lookup_fmap_Some in Hi as (e' & -> & _). cbn. set_solver.
Qed.

Lemma set_counter ip mac s :
  0 ≤ arp_age_counter s → arp_age_counter s + 1 < 2 ^ 32 → arp_age_counter (arp_cache_set ip mac s) = arp_age_counter s + 1.
Proof.
  intros H0 Hc. unfold arp_cache_set, stamp. destruct (ip_slot ip s); [cbn; by rewrite u32_small by lia|].
  destruct (find_slot _ _); cbn; by rewrite u32_small by lia.
Qed.

(** * Theorems *)

Definition set_all (h : list (Z * list Z)) (s : arp_state) : arp_state := foldl (λ s b, arp_cache_set (fst b) (snd b) s) s h.

(** The ARP cache is a least-recently-set cache of 64 bindings.  After
    [arp_init] and any sequence of fewer than 2^32 - 2 calls of [arp_cache_set],
    [arp_cache_lookup] answers as the list of the 64 most recently set distinct
    addresses does: the last binding set for an address is returned until 64
    other addresses have been set after it, and never a binding of another
    address. *)
Theorem arp_cache_lru s0 h ip :
  length (arp_cache s0) = ARP_MAX_CACHE → 0 ≤ arp_age_counter s0 →
  arp_age_counter s0 + Z.of_nat (length h) < 2 ^ 32 - 1 →
  arp_cache_lookup ip (set_all h (arp_init s0)) = lru_lookup ip (foldl (λ l b, lru_set (fst b) (snd b) l) [] h).
Proof.
  intros Hl H0 Hc. apply cache_lookup_rel. pose proof (arp_init_rel s0 Hl) as Hrel.
  change (arp_age_counter s0) with (arp_age_counter (arp_init s0)) in H0, Hc. revert Hrel H0 Hc. clear Hl.
  generalize (arp_init s0) as s, (@nil (Z * list Z)) as l. induction h as [|[a m] h IH]; intros s l Hrel H0 Hc; [done|]. cbn in *.
  apply IH; [apply cache_set_rel; [done|done|lia]|rewrite set_counter by lia; lia..].
Qed.

Definition zero_arp : arp_state := mk_arps (replicate ARP_MAX_CACHE (mk_arp 0 [] false 0)) 0.
(** 65 addresses: the first is evicted. *)
Definition arp_history : list (Z * list Z) := (λ i, (Z.of_nat i, [2; 0; 0; 0; 0; Z.of_nat i])) <$> seq 1 65.

Lemma arp_cache_lru_witness :
  arp_cache_lookup 1 (set_all arp_history (arp_init zero_arp)) = None ∧
  arp_cache_lookup 2 (set_all arp_history (arp_init zero_arp)) = Some [2; 0; 0; 0; 0; 2].
Proof.
  split.
  - rewrite (arp_cache_lru zero_arp arp_history 1); [vm_compute; reflexivity|vm_compute; reflexivity|vm_compute; discriminate|vm_compute; reflexivity].
  - rewrite (arp_cache_lru zero_arp arp_history 2); [vm_compute; reflexivity|vm_compute; reflexivity|vm_compute; discriminate|vm_compute; reflexivity].
Defined.
