(* ===== verification/Nat.v ===== *)
(** Network address translation: net/nat.c, port translation behind the WAN
    address.

    The packet is the buffer the caller passes (never NULL in the model);
    [None] is a read or write outside its 1514 bytes.  The main theorem follows
    a mapping through any later traffic: the reply reaches the host that sent
    the first packet. *)

From S2P Require Import Prelude Links Checksum Packet Firewall.

Definition NAT_MAX_ENTRIES : nat := 4096.
Definition NAT_PORT_MIN : Z := 10000.
Definition NAT_PORT_MAX : Z := 60000.

Record nat_entry := mk_ne {
  ne_internal_ip : Z;
  ne_internal_port : Z;
  ne_external_ip : Z;
  ne_external_port : Z;
  ne_remote_ip : Z;
  ne_remote_port : Z;
  ne_protocol : Z;
  ne_last_seen : Z;
  ne_active : bool;
}.
#[export] Instance nat_entry_eta : Eta nat_entry := λ e,
  mk_ne (ne_internal_ip e) (ne_internal_port e) (ne_external_ip e) (ne_external_port e) (ne_remote_ip e)
    (ne_remote_port e) (ne_protocol e) (ne_last_seen e) (ne_active e).

Record nat_state := mk_nat {
  nat_table : list nat_entry;
  next_nat_port : Z;
  nat_enabled : bool;
  wan_ip_addr : Z;
}.
#[export] Instance nat_state_eta : Eta nat_state := λ s,
  mk_nat (nat_table s) (next_nat_port s) (nat_enabled s) (wan_ip_addr s).

(** * Operations *)

Definition nat_init (s : nat_state) : nat_state :=
  s <| nat_table ::= fmap (λ e, e <| ne_active := false |>) |> <| nat_enabled := false |>.

Definition nat_enable (wan_ip : Z) (s : nat_state) : nat_state :=
  s <| wan_ip_addr := wan_ip |> <| nat_enabled := true |>.

Definition nat_disable (s : nat_state) : nat_state := s <| nat_enabled := false |>.

Definition alloc_nat_port (s : nat_state) : Z * nat_state :=
  let port := next_nat_port s in
  let s := s <| next_nat_port := u16 (port + 1) |> in
  (port, if NAT_PORT_MAX <? next_nat_port s then s <| next_nat_port := NAT_PORT_MIN |> else s).

Definition ip_recalc_checksum (p : pktbuf) : option pktbuf :=
  p ← put16 10 0 p;
  v ← get8 p 0;
  let ihl := u8 (Z.land v 15 * 4) in
  bytes ← get_bytes p 0 (Z.to_nat ihl);
  put16 10 (ip_checksum bytes) p.

Definition outbound_matches (f : flow) (e : nat_entry) : bool :=
  ne_active e && (ne_internal_ip e =? f_src f) && (ne_internal_port e =? f_sport f) &&
  (ne_remote_ip e =? f_dst f) && (ne_remote_port e =? f_dport f) && (ne_protocol e =? f_proto f).
Definition nat_find_outbound (f : flow) (s : nat_state) : option nat := find_slot (outbound_matches f) (nat_table s).

Definition inbound_matches (external_port remote_ip remote_port proto : Z) (e : nat_entry) : bool :=
  ne_active e && (ne_external_port e =? external_port) && (ne_remote_ip e =? remote_ip) &&
  (ne_remote_port e =? remote_port) && (ne_protocol e =? proto).
Definition nat_find_inbound (external_port remote_ip remote_port proto : Z) (s : nat_state) : option nat :=
  find_slot (inbound_matches external_port remote_ip remote_port proto) (nat_table s).

Definition nat_alloc_entry (s : nat_state) : option nat := find_slot (λ e, negb (ne_active e)) (nat_table s).

(** The header fields both directions read: [ihl] and the flow. *)
Definition nat_parse (p : pktbuf) : option (Z * flow) :=
  v ← get8 p 0;
  let ihl := u8 (Z.land v 15 * 4) in
  src ← get32 p 12;
  sport ← port_at p ihl;
  dst ← get32 p 16;
  dport ← port_at p (ihl + 2);
  proto ← get8 p 9;
  Some (ihl, mk_flow src dst sport dport proto).

(** The entry for a flow, created if there is none. *)
Definition outbound_entry (wan_ip : Z) (f : flow) (s : nat_state) : option (nat * nat_state) :=
  match nat_find_outbound f s with
  | Some i => Some (i, s)
  | None =>
      i ← nat_alloc_entry s;
      let '(port, s) := alloc_nat_port s in
      Some (i, s <| nat_table ::= alter (λ e, e <| ne_internal_ip := f_src f |> <| ne_internal_port := f_sport f |>
        <| ne_external_ip := wan_ip |> <| ne_external_port := port |> <| ne_remote_ip := f_dst f |>
        <| ne_remote_port := f_dport f |> <| ne_protocol := f_proto f |> <| ne_active := true |>) i |>)
  end.

Definition nat_translate_outbound (wan_ip : Z) (p : pktbuf) (s : nat_state) : option (Z * pktbuf * nat_state) :=
  if negb (nat_enabled s) then Some (-1, p, s)
  else if pk_len p <? 20 + 4 then Some (-1, p, s)
  else
    '(ihl, f) ← nat_parse p;
    match outbound_entry wan_ip f s with
    | None => Some (-1, p, s)
    | Some (i, s) =>
        let s := s <| nat_table ::= alter (λ e, e <| ne_last_seen := 0 |>) i |> in
        e ← nat_table s !! i;
        p ← put32 12 wan_ip p;
        p ← ip_recalc_checksum p;
        p ← put8 ihl (u8 (Z.shiftr (ne_external_port e) 8)) p;
        p ← put8 (ihl + 1) (u8 (Z.land (ne_external_port e) 255)) p;
        Some (0, p, s)
    end.

Definition nat_translate_inbound (p : pktbuf) (s : nat_state) : option (Z * pktbuf * nat_state) :=
  if negb (nat_enabled s) then Some (-1, p, s)
  else if pk_len p <? 20 + 4 then Some (-1, p, s)
  else
    '(ihl, f) ← nat_parse p;
    match nat_find_inbound (f_dport f) (f_src f) (f_sport f) (f_proto f) s with
    | None => Some (-1, p, s)
    | Some i =>
        let s := s <| nat_table ::= alter (λ e, e <| ne_last_seen := 0 |>) i |> in
        e ← nat_table s !! i;
        p ← put32 16 (ne_internal_ip e) p;
        p ← ip_recalc_checksum p;
        p ← put8 (ihl + 2) (u8 (Z.shiftr (ne_internal_port e) 8)) p;
        p ← put8 (ihl + 3) (u8 (Z.land (ne_internal_port e) 255)) p;
        Some (0, p, s)
    end.

Definition nat_add_port_forward (external_ip external_port internal_ip internal_port protocol : Z) (s : nat_state)
    : Z * nat_state :=
  match nat_alloc_entry s with
  | None => (-1, s)
  | Some i =>
      (0, s <| nat_table ::= alter (λ e, e <| ne_external_ip := external_ip |> <| ne_external_port := external_port |>
        <| ne_internal_ip := internal_ip |> <| ne_internal_port := internal_port |> <| ne_remote_ip := 0 |>
        <| ne_remote_port := 0 |> <| ne_protocol := protocol |> <| ne_active := true |>) i |>)
  end.

Definition nat_cleanup (max_age : Z) (s : nat_state) : nat_state :=
  s <| nat_table ::= fmap (λ e, if ne_active e && (max_age <? ne_last_seen e) then e <| ne_active := false |> else e) |>.

Definition nat_active_count (s : nat_state) : Z :=
  foldl (λ count e, if ne_active e then u32 (count + 1) else count) 0 (nat_table s).

(** * Rewriting a header *)

Lemma ip_recalc_ok p b ihl :
  pkt_wf p → get8 p 0 = Some b → ihl = u8 (Z.land b 15 * 4) → 20 ≤ ihl → pk_head p + ihl ≤ PKT_MAX_LEN →
  let v := ip_checksum (set_word 5 0 (hbytes p (Z.to_nat ihl))) in
  ip_recalc_checksum p = Some (upd16 10 v (upd16 10 0 p)) ∧ 0 ≤ v < 65536.
Proof.
  intros Hw Hb -> Hi Hr v. pose proof (pw_head _ Hw) as Hh. unfold ip_recalc_checksum.
  rewrite put16_ok by (done || lia). cbn [mbind option_bind].
  assert (get8 (upd16 10 0 p) 0 = Some b) as ->.
  { rewrite <-Hb. get_upd. done. }
  cbn [mbind option_bind]. rewrite get_hbytes; [|pkt_side|cbn [pk_head upd8 upd16 set_field]; lia]. cbn [mbind option_bind].
  rewrite (hbytes_upd16 p 5) by done. fold v.
  assert (0 ≤ v < 65536) by apply finish_range. split; [|done]. apply put16_ok; [pkt_side|lia|cbn; lia|done].
Qed.

Lemma nat_parse_inv p ihl f :
  nat_parse p = Some (ihl, f) →
  ∃ b, get8 p 0 = Some b ∧ ihl = u8 (Z.land b 15 * 4) ∧ get32 p 12 = Some (f_src f) ∧ port_at p ihl = Some (f_sport f) ∧
    get32 p 16 = Some (f_dst f) ∧ port_at p (ihl + 2) = Some (f_dport f) ∧ get8 p 9 = Some (f_proto f).
Proof.
  unfold nat_parse. intros H. destruct (get8 p 0) as [b|]; [|done]. cbn [mbind option_bind] in H.
  destruct (get32 p 12) as [src|] eqn:Esrc; [|done]. cbn [mbind option_bind] in H.
  destruct (port_at p (u8 (Z.land b 15 * 4))) as [sp|] eqn:Esp; [|done]. cbn [mbind option_bind] in H.
  destruct (get32 p 16) as [dst|] eqn:Edst; [|done]. cbn [mbind option_bind] in H.
  destruct (port_at p (u8 (Z.land b 15 * 4) + 2)) as [dp|] eqn:Edp; [|done]. cbn [mbind option_bind] in H.
  destruct (get8 p 9) as [proto|]; [|done]. injection H as <- <-. by exists b.
Qed.

Lemma port_hi port : 0 ≤ port < 65536 → u8 (Z.shiftr port 8) = port / 256.
Proof. intros. rewrite Z.shiftr_div_pow2 by lia. apply u8_small. divlia. Qed.
Lemma port_lo port : u8 (Z.land port 255) = port mod 256.
Proof. rewrite (Z.land_ones port 8 ltac:(lia) : Z.land port 255 = port mod 256). apply u8_small. divlia. Qed.

(** The two rewrites of a header: the address at offset 12 (source) or 16
    (destination), then the checksum, then the port. *)
Lemma rewrite_src p ihl f ip port :
  pkt_wf p → nat_parse p = Some (ihl, f) → 20 ≤ ihl → ihl + 4 ≤ pk_len p → 0 ≤ ip < 2 ^ 32 → 0 ≤ port < 65536 →
  ∃ p1 p2 p3 q, put32 12 ip p = Some p1 ∧ ip_recalc_checksum p1 = Some p2 ∧
    put8 ihl (u8 (Z.shiftr port 8)) p2 = Some p3 ∧ put8 (ihl + 1) (u8 (Z.land port 255)) p3 = Some q ∧
    pkt_wf q ∧ pk_len q = pk_len p ∧ checksum_ok 5 (hbytes q (Z.to_nat ihl)) = true ∧
    nat_parse q = Some (ihl, mk_flow ip (f_dst f) port (f_dport f) (f_proto f)).
Proof.
  intros Hw Hp Hi Hl Hip Hport. pose proof (pw_head _ Hw) as Hh. pose proof (pw_room _ Hw) as Hr.
  apply nat_parse_inv in Hp as (b & E0 & Hihl & Esrc & Esp & Edst & Edp & Epr).
  rewrite port_hi, port_lo by done. set (p1 := upd32 12 ip p). assert (Hw1 : pkt_wf p1) by (unfold p1; pkt_side).
  destruct (ip_recalc_ok p1 b ihl) as [Ec Hv]; [done| |done|done|cbn; lia|].
  { rewrite <-E0. unfold p1. get_upd. done. }
  set (v := ip_checksum _) in *. set (p2 := upd16 10 v (upd16 10 0 p1)) in *.
  assert (Hw2 : pkt_wf p2) by (unfold p2; pkt_side). assert (Hh2 : pk_head p2 = pk_head p) by done.
  eexists p1, p2, (upd8 ihl (port / 256) p2), (upd8 (ihl + 1) (port mod 256) (upd8 ihl (port / 256) p2)).
  split; [apply put32_ok; [done|lia|unfold PKT_MAX_LEN in *; lia|done]|]. split; [exact Ec|].
  split; [apply put8_ok; [done|lia|cbn; lia]|]. split; [apply put8_ok; [pkt_side|lia|cbn; lia]|].
  split; [pkt_side|]. split; [done|]. split.
  - rewrite !hbytes_upd8_beyond by (cbn; lia). unfold p2. rewrite !(hbytes_upd16 _ 5) by done.
    rewrite set_word_twice. apply fill_checksum_ok. rewrite hbytes_length by (done || cbn; lia). lia.
  - unfold nat_parse. set (q := upd8 (ihl + 1) _ _).
    assert (∀ o, 0 ≤ o < 10 ∨ 16 ≤ o < ihl ∨ ihl + 2 ≤ o → get8 q o = get8 p o) as Hsame.
    { intros o Ho. unfold q, p2, p1. get_upd. done. }
    rewrite (Hsame 0), E0 by lia. cbn [mbind option_bind]. rewrite <-Hihl.
    rewrite (get32_from _ 12 ip); [|unfold q, p2, p1; get_upd; done..]. cbn [mbind option_bind].
    rewrite (port_at_spec (port / 256) (port mod 256) _ ihl); [|unfold q; get_upd; done|unfold q; get_upd; done|divlia|divlia].
    cbn [mbind option_bind]. rewrite (get32_ext _ p 16) by (intros; apply Hsame; lia). rewrite Edst. cbn [mbind option_bind].
    rewrite (port_at_ext _ p) by (intros; apply Hsame; lia). rewrite Edp. cbn [mbind option_bind].
    rewrite (Hsame 9), Epr by lia. cbn [mbind option_bind]. do 3 f_equal. divlia.
Qed.

Lemma rewrite_dst p ihl f ip port :
  pkt_wf p → nat_parse p = Some (ihl, f) → 20 ≤ ihl → ihl + 4 ≤ pk_len p → 0 ≤ ip < 2 ^ 32 → 0 ≤ port < 65536 →
  ∃ p1 p2 p3 q, put32 16 ip p = Some p1 ∧ ip_recalc_checksum p1 = Some p2 ∧
    put8 (ihl + 2) (u8 (Z.shiftr port 8)) p2 = Some p3 ∧ put8 (ihl + 3) (u8 (Z.land port 255)) p3 = Some q ∧
    pkt_wf q ∧ pk_len q = pk_len p ∧ checksum_ok 5 (hbytes q (Z.to_nat ihl)) = true ∧
    nat_parse q = Some (ihl, mk_flow (f_src f) ip (f_sport f) port (f_proto f)).
Proof.
  intros Hw Hp Hi Hl Hip Hport. pose proof (pw_head _ Hw) as Hh. pose proof (pw_room _ Hw) as Hr.
  apply nat_parse_inv in Hp as (b & E0 & Hihl & Esrc & Esp & Edst & Edp & Epr).
  rewrite port_hi, port_lo by done. set (p1 := upd32 16 ip p). assert (Hw1 : pkt_wf p1) by (unfold p1; pkt_side).
  destruct (ip_recalc_ok p1 b ihl) as [Ec Hv]; [done| |done|done|cbn; lia|].
  { rewrite <-E0. unfold p1. get_upd. done. }
  set (v := ip_checksum _) in *. set (p2 := upd16 10 v (upd16 10 0 p1)) in *.
  assert (Hw2 : pkt_wf p2) by (unfold p2; pkt_side). assert (Hh2 : pk_head p2 = pk_head p) by done.
  eexists p1, p2, (upd8 (ihl + 2) (port / 256) p2), (upd8 (ihl + 3) (port mod 256) (upd8 (ihl + 2) (port / 256) p2)).
  split; [apply put32_ok; [done|lia|unfold PKT_MAX_LEN in *; lia|done]|]. split; [exact Ec|].
  split; [apply put8_ok; [done|lia|cbn; lia]|]. split; [apply put8_ok; [pkt_side|lia|cbn; lia]|].
  split; [pkt_side|]. split; [done|]. split.
  - rewrite !hbytes_upd8_beyond by (cbn; lia). unfold p2. rewrite !(hbytes_upd16 _ 5) by done.
    rewrite set_word_twice. apply fill_checksum_ok. rewrite hbytes_length by (done || cbn; lia). lia.
  - unfold nat_parse. set (q := upd8 (ihl + 3) _ _).
    assert (∀ o, 0 ≤ o < 10 ∨ 12 ≤ o < 16 ∨ 20 ≤ o < ihl + 2 → get8 q o = get8 p o) as Hsame.
    { intros o Ho. unfold q, p2, p1. get_upd. done. }
    rewrite (Hsame 0), E0 by lia. cbn [mbind option_bind]. rewrite <-Hihl.
    rewrite (get32_ext _ p 12) by (intros; apply Hsame; lia). rewrite Esrc. cbn [mbind option_bind].
    rewrite (port_at_ext _ p ihl) by (intros; apply Hsame; lia). rewrite Esp. cbn [mbind option_bind].
    rewrite (get32_from _ 16 ip); [|unfold q, p2, p1; get_upd; done..]. cbn [mbind option_bind].
    rewrite (port_at_spec (port / 256) (port mod 256) _ (ihl + 2)); [|unfold q; get_upd; done|unfold q; get_upd; done|divlia|divlia].
    cbn [mbind option_bind]. rewrite (Hsame 9), Epr by lia. cbn [mbind option_bind]. do 3 f_equal. divlia.
Qed.

(** * Mappings *)

(** The port of the [j]-th mapping when the first one got port [base]. *)
Definition port_seq (base : Z) (j : nat) : Z := NAT_PORT_MIN + (base + Z.of_nat j) mod 50001.

Definition entry_ok (e : nat_entry) : Prop :=
  ne_last_seen e = 0 ∧ (ne_active e = true → 0 ≤ ne_internal_ip e < 2 ^ 32 ∧ 0 ≤ ne_internal_port e < 65536).

(** [d]: the slots of the translated flows, in order of creation; every other
    entry is a port forward. *)
Record ports_ok (base : Z) (d : list nat) (s : nat_state) : Prop := {
  po_base : 0 ≤ base;
  po_nodup : NoDup d;
  po_next : next_nat_port s = port_seq base (length d);
  po_slot : ∀ j i, d !! j = Some i →
    ∃ e, nat_table s !! i = Some e ∧ ne_active e = true ∧ ne_external_port e = port_seq base j;
  po_rest : ∀ i e, nat_table s !! i = Some e → ne_active e = true → i ∈ d ∨ ne_remote_ip e = 0;
}.

Record nat_inv (s : nat_state) : Prop := {
  ni_len : length (nat_table s) = NAT_MAX_ENTRIES;
  ni_entries : Forall entry_ok (nat_table s);
  ni_ports : ∃ base d, ports_ok base d s;
}.

(** Active entries are kept as they are. *)
Definition persist (s t : nat_state) : Prop :=
  ∀ i e, nat_table s !! i = Some e → ne_active e = true → nat_table t !! i = Some e.

Lemma port_seq_range base j : 0 ≤ base → NAT_PORT_MIN ≤ port_seq base j ≤ NAT_PORT_MAX.
Proof. intros. unfold port_seq, NAT_PORT_MIN, NAT_PORT_MAX. divlia. Qed.

Lemma port_seq_inj base j k : 0 ≤ base → (j < 4096)%nat → (k < 4096)%nat → port_seq base j = port_seq base k → j = k.
Proof. intros Hb Hj Hk. unfold port_seq. divlia. Qed.

Lemma alloc_port_spec base k s port s' :
  0 ≤ base → next_nat_port s = port_seq base k → alloc_nat_port s = (port, s') →
  port = port_seq base k ∧ next_nat_port s' = port_seq base (S k) ∧ nat_table s' = nat_table s ∧
  nat_enabled s' = nat_enabled s.
Proof.
  intros Hb Hn. unfold alloc_nat_port. pose proof (port_seq_range base k Hb) as Hr. rewrite Hn. cbn [next_nat_port set_field].
  unfold NAT_PORT_MIN, NAT_PORT_MAX in *. rewrite u16_small by lia. intros E.
  destruct (Z.ltb_spec 60000 (port_seq base k + 1)) as [Hlt|Hlt]; injection E as <- <-; split; [done| |done|];
    (split; [|done]); cbn; unfold port_seq, NAT_PORT_MIN in *; divlia.
Qed.

(** A list without repetition of slots is no longer than the table. *)
Lemma slots_bound (d : list nat) (n : nat) : NoDup d → (∀ i, i ∈ d → (i < n)%nat) → (length d ≤ n)%nat.
Proof.
  intros Hn Hd. rewrite <-(length_seq n 0). apply submseteq_length, NoDup_submseteq; [done|].
  intros i Hi%Hd. apply elem_of_seq. lia.
Qed.

Lemma ports_bound base d s : length (nat_table s) = NAT_MAX_ENTRIES → ports_ok base d s → (length d ≤ 4096)%nat.
Proof.
  intros Hl Hp. change 4096%nat with NAT_MAX_ENTRIES. rewrite <-Hl. apply slots_bound; [apply Hp|].
  intros i [j Hj]%list_elem_of_lookup_1. destruct (po_slot _ _ _ Hp j i Hj) as (e & He & _). by eapply lookup_lt_Some.
Qed.

(** Touching an entry whose stamp is already 0 changes nothing. *)
Lemma touch_id i s : nat_inv s → s <| nat_table ::= alter (λ e, e <| ne_last_seen := 0 |>) i |> = s.
Proof.
  intros Hinv. destruct s as [tb np en wan]. cbn. f_equal. apply list_eq. intros j.
  destruct (decide (i = j)) as [->|]; [|by rewrite list_lookup_alter_ne]. rewrite list_lookup_alter_eq.
  destruct (tb !! j) as [e|] eqn:E; [|done]. cbn. pose proof (Forall_lookup_1 _ _ _ _ (ni_entries _ Hinv) E) as [Hs _].
  destruct e. cbn in *. by rewrite Hs.
Qed.

(** Filling a free slot with entry [e]. *)
Definition fill (i : nat) (e : nat_entry) (s : nat_state) : nat_state := s <| nat_table ::= <[i := e]> |>.

Lemma fill_persist i e e0 s : nat_table s !! i = Some e0 → ne_active e0 = false → persist s (fill i e s).
Proof.
  intros Hi Ha j f Hj Hf. cbn. rewrite list_lookup_insert_ne; [done|]. intros ->. congruence.
Qed.

Lemma fill_lookup i e e0 s j f :
  nat_table s !! i = Some e0 → nat_table (fill i e s) !! j = Some f → (j = i ∧ f = e) ∨ (j ≠ i ∧ nat_table s !! j = Some f).
Proof.
  intros Hi Hj. cbn in Hj. rewrite list_lookup_insert in Hj. case_decide as E; [naive_solver|].
  destruct (decide (i = j)) as [->|]; [|naive_solver]. apply lookup_lt_Some in Hi. naive_solver.
Qed.

Lemma forward_inv i e e0 s :
  nat_inv s → nat_table s !! i = Some e0 → ne_active e0 = false → entry_ok e → ne_active e = true → ne_remote_ip e = 0 →
  nat_inv (fill i e s).
Proof.
  intros [Hl He (base & d & Hp)] Hi Ha Hok Hact Hr. split.
  - cbn. by rewrite length_insert.
  - by apply Forall_insert.
  - exists base, d. destruct Hp as [H1 H2 H3 H4 H5]. split; try done.
    + intros j k Hj. destruct (H4 j k Hj) as (f & Hf & Hfa & Hfe). exists f. split; [|done]. by apply (fill_persist i e e0 s).
    + intros j f [[-> ->]|[Hne Hj]]%(fill_lookup i e e0) Hf; [by right|by apply (H5 j f)|done].
Qed.

Lemma translate_inv base d i e e0 s port s1 :
  nat_inv s → ports_ok base d s → nat_table s !! i = Some e0 → ne_active e0 = false → entry_ok e → ne_active e = true →
  alloc_nat_port s = (port, s1) → ne_external_port e = port → nat_inv (fill i e s1).
Proof.
  intros [Hl He _] Hp Hi Ha Hok Hact Hal Hext.
  destruct (alloc_port_spec base (length d) s port s1) as (-> & Hnext & Htab & _); [apply Hp|apply Hp|done|].
  destruct Hp as [H1 H2 H3 H4 H5]. rewrite <-Htab in Hi. split.
  - cbn. by rewrite length_insert, Htab.
  - apply Forall_insert; [by rewrite Htab|done].
  - exists base, (d ++ [i]). split; [done| | | |].
    + apply NoDup_app. split; [done|]. split; [|apply NoDup_singleton]. intros k Hk ->%list_elem_of_singleton.
      apply list_elem_of_lookup_1 in Hk as [j Hj]. destruct (H4 j i Hj) as (f & Hf & Hfa & _). rewrite <-Htab in Hf. congruence.
    + rewrite length_app. cbn. by rewrite Nat.add_1_r.
    + intros j k Hj. apply lookup_app_Some in Hj as [Hj|[Hge Hj]].
      * destruct (H4 j k Hj) as (f & Hf & Hfa & Hfe). exists f. split; [|done]. rewrite <-Htab in Hf. by apply (fill_persist i e e0 s1).
      * apply list_lookup_singleton_Some in Hj as [Hj <-]. exists e. cbn. rewrite list_lookup_insert_eq by (by eapply lookup_lt_Some).
        split; [done|]. split; [done|]. rewrite Hext. f_equal. lia.
    + intros j f [[-> ->]|[Hne Hj]]%(fill_lookup i e e0) Hf; [left; set_solver| |done].
      rewrite Htab in Hj. destruct (H5 j f Hj Hf); [left; set_solver|by right].
Qed.

(** ** Steps *)

Inductive nat_step : nat_state → nat_state → Prop :=
  | ns_out s wan p r p' s' : pkt_wf p → nat_translate_outbound wan p s = Some (r, p', s') → nat_step s s'
  | ns_in s p r p' s' : nat_translate_inbound p s = Some (r, p', s') → nat_step s s'
  | ns_forward s eip eport iip iport proto :
      0 ≤ iip < 2 ^ 32 → 0 ≤ iport < 65536 → nat_step s (snd (nat_add_port_forward eip eport iip iport proto s))
  | ns_cleanup s age : 0 ≤ age → nat_step s (nat_cleanup age s)
  | ns_enable s wan : nat_step s (nat_enable wan s)
  | ns_disable s : nat_step s (nat_disable s).

Lemma alter_fill (f : nat_entry → nat_entry) i e s :
  nat_table s !! i = Some e → s <| nat_table ::= alter f i |> = fill i (f e) s.
Proof.
  intros Hi. destruct s as [tb np en wan]. unfold fill. cbn in *. f_equal. apply list_eq. intros j.
  destruct (decide (i = j)) as [->|]; [|by rewrite list_lookup_alter_ne, list_lookup_insert_ne].
  rewrite list_lookup_alter_eq, list_lookup_insert_eq by (by eapply lookup_lt_Some). by rewrite Hi.
Qed.

Definition flow_ok (f : flow) : Prop := 0 ≤ f_src f < 2 ^ 32 ∧ 0 ≤ f_sport f < 65536.

Lemma get32_range p off v : pkt_wf p → get32 p off = Some v → 0 ≤ v < 2 ^ 32.
Proof.
  intros Hw. unfold get32, get16.
  assert (∀ o b, get8 p o = Some b → 0 ≤ b < 256) as H8.
  { intros o b Hb. apply (Forall_lookup_1 _ _ _ _ (pw_bytes _ Hw) Hb). }
  destruct (get8 p off) as [a|] eqn:Ea; [|done]. destruct (get8 p (off + 1)) as [b|] eqn:Eb; [|done].
  cbn [mbind option_bind]. destruct (get8 p (off + 2)) as [c|] eqn:Ec; [|done]. cbn [mbind option_bind].
  destruct (get8 p (off + 2 + 1)) as [d|] eqn:Ed; [|done]. cbn [mbind option_bind]. intros E. injection E as <-.
  apply H8 in Ea, Eb, Ec, Ed. lia.
Qed.

Lemma port_at_range p off v : port_at p off = Some v → 0 ≤ v < 65536.
Proof.
  unfold port_at. destruct (get8 p off); [|done]. destruct (get8 p (off + 1)); [|done]. cbn. intros E. injection E as <-.
  apply u16_range.
Qed.

Lemma nat_parse_ok p ihl f : pkt_wf p → nat_parse p = Some (ihl, f) → flow_ok f.
Proof.
  intros Hw (b & _ & _ & Hs & Hp & _)%nat_parse_inv. split; [by eapply get32_range|by eapply port_at_range].
Qed.

Lemma outbound_matches_true f e :
  outbound_matches f e = true ↔
  ne_active e = true ∧ ne_internal_ip e = f_src f ∧ ne_internal_port e = f_sport f ∧ ne_remote_ip e = f_dst f ∧
  ne_remote_port e = f_dport f ∧ ne_protocol e = f_proto f.
Proof. unfold outbound_matches. rewrite !andb_true_iff, !Z.eqb_eq. tauto. Qed.

Lemma inbound_matches_true ep rip rp proto e :
  inbound_matches ep rip rp proto e = true ↔
  ne_active e = true ∧ ne_external_port e = ep ∧ ne_remote_ip e = rip ∧ ne_remote_port e = rp ∧ ne_protocol e = proto.
Proof. unfold inbound_matches. rewrite !andb_true_iff, !Z.eqb_eq. tauto. Qed.

(** The mapping of flow [f]. *)
Definition maps (f : flow) (e : nat_entry) : Prop := outbound_matches f e = true.

Lemma outbound_entry_spec wan f s :
  nat_inv s → flow_ok f →
  match outbound_entry wan f s with
  | Some (i, s') => nat_inv s' ∧ persist s s' ∧ nat_enabled s' = nat_enabled s ∧ ∃ e, nat_table s' !! i = Some e ∧ maps f e
  | None => (∀ i e, nat_table s !! i = Some e → ne_active e = true ∧ ¬ maps f e)
  end.
Proof.
  intros Hinv [Hf1 Hf2]. unfold outbound_entry, nat_find_outbound, nat_alloc_entry.
  destruct (find_slot (outbound_matches f) (nat_table s)) as [i|] eqn:Ei.
  { apply find_slot_Some in Ei as (e & He & Hm & _). split; [done|]. split; [by intros ? ?|]. split; [done|by exists e]. }
  pose proof (proj1 (find_slot_None _ _) Ei) as Hno.
  destruct (find_slot (λ e, negb (ne_active e)) (nat_table s)) as [i|] eqn:Ef; cbn [mbind option_bind].
  - apply find_slot_Some in Ef as (e0 & He0 & Ha%negb_true_iff & _). destruct (alloc_nat_port s) as [port s1] eqn:Eal.
    destruct (ni_ports _ Hinv) as (base & d & Hp).
    destruct (alloc_port_spec base (length d) s port s1) as (Hport & _ & Htab & Hen); [apply Hp|apply Hp|done|].
    pose proof (Forall_lookup_1 _ _ _ _ (ni_entries _ Hinv) He0) as [Hst _].
    assert (He1 : nat_table s1 !! i = Some e0) by by rewrite Htab.
    rewrite (alter_fill _ i e0) by done. set (e := e0 <| ne_internal_ip := _ |> <| ne_internal_port := _ |> <| ne_external_ip := _ |>
      <| ne_external_port := _ |> <| ne_remote_ip := _ |> <| ne_remote_port := _ |> <| ne_protocol := _ |> <| ne_active := _ |>).
    split; [by eapply (translate_inv base d i e e0 s port s1)|].
    split; [|split; [done|]].
    + intros j g Hj Hg. apply (fill_persist i e e0 s1); [done|done|by rewrite Htab|done].
    + exists e. split; [cbn; apply list_lookup_insert_eq; by eapply lookup_lt_Some|]. by apply outbound_matches_true.
  - intros i e He. pose proof (proj1 (find_slot_None _ _) Ef i e He) as Ha%negb_false_iff. split; [done|].
    unfold maps. by rewrite (Hno i e He).
Qed.

Lemma persist_refl s : persist s s.
Proof. by intros i e. Qed.

Lemma nat_step_inv s t : nat_inv s → nat_step s t → nat_inv t ∧ persist s t.
Proof.
  intros Hinv Hstep. destruct Hstep as [s wan p r p' s' Hw Hout|s p r p' s' Hin|s eip eport iip iport proto Hi1 Hi2|s age Hage|s wan|s].
  - unfold nat_translate_outbound in Hout.
    destruct (negb _); [injection Hout as _ _ <-; by (split; [|apply persist_refl])|]. destruct (_ <? _); [injection Hout as _ _ <-; by (split; [|apply persist_refl])|].
    destruct (nat_parse p) as [[ihl f]|] eqn:Ep; [|done]. cbn [mbind option_bind] in Hout.
    pose proof (outbound_entry_spec wan f s Hinv (nat_parse_ok p ihl f Hw Ep)) as Hspec.
    destruct (outbound_entry wan f s) as [[i s1]|]; [|injection Hout as _ _ <-; by (split; [|apply persist_refl])].
    destruct Hspec as (Hinv1 & Hper & _ & e & He & _). cbn zeta in Hout. rewrite (touch_id i s1 Hinv1), He in Hout. cbn [mbind option_bind] in Hout.
    repeat (match type of Hout with mbind _ ?x = _ => destruct x; [|done] end; cbn [mbind option_bind] in Hout).
    injection Hout as _ _ <-. done.
  - unfold nat_translate_inbound in Hin.
    destruct (negb _); [injection Hin as _ _ <-; by (split; [|apply persist_refl])|]. destruct (_ <? _); [injection Hin as _ _ <-; by (split; [|apply persist_refl])|].
    destruct (nat_parse p) as [[ihl f]|] eqn:Ep; [|done]. cbn [mbind option_bind] in Hin.
    destruct (nat_find_inbound _ _ _ _ s) as [i|]; [|injection Hin as _ _ <-; by (split; [|apply persist_refl])]. cbn zeta in Hin.
    rewrite (touch_id i s Hinv) in Hin.
    repeat (match type of Hin with mbind _ ?x = _ => destruct x; [|done] end; cbn [mbind option_bind] in Hin).
    injection Hin as _ _ <-. by (split; [|apply persist_refl]).
  - unfold nat_add_port_forward, nat_alloc_entry. destruct (find_slot _ _) as [i|] eqn:Ei; [|by (split; [|apply persist_refl])].
    apply find_slot_Some in Ei as (e0 & He0 & Ha%negb_true_iff & _). cbn [snd]. rewrite (alter_fill _ i e0) by done.
    pose proof (Forall_lookup_1 _ _ _ _ (ni_entries _ Hinv) He0) as [Hst _].
    split; [by eapply forward_inv|]. by eapply fill_persist.
  - assert (nat_cleanup age s = s) as ->; [|by (split; [|apply persist_refl])]. destruct s as [tb np en wan]. unfold nat_cleanup. cbn. f_equal.
    pose proof (ni_entries _ Hinv) as He. cbn in He. clear Hinv. induction He as [|e tb [Hs _] _ IH]; [done|]. cbn. rewrite IH. f_equal.
    rewrite Hs. replace (age <? 0) with false by lia. by rewrite andb_false_r.
  - split; [|by intros ? ?]. by destruct Hinv as [? ? (base & d & [])]; split; [..|exists base, d].
  - split; [|by intros ? ?]. by destruct Hinv as [? ? (base & d & [])]; split; [..|exists base, d].
Qed.

Lemma nat_steps_inv s t : rtc nat_step s t → nat_inv s → nat_inv t ∧ persist s t.
Proof.
  induction 1 as [s|s u t Hsu _ IH]; intros Hinv; [by (split; [|apply persist_refl])|]. destruct (nat_step_inv s u Hinv Hsu) as [Hu Hp].
  destruct (IH Hu) as [Ht Hp']. split; [done|]. intros i e Hi Ha. apply Hp'; [by apply Hp|done].
Qed.

(** An inbound lookup with the key of a translated flow finds that flow. *)
Lemma find_inbound_unique s i e :
  nat_inv s → nat_table s !! i = Some e → ne_active e = true → ne_remote_ip e ≠ 0 →
  nat_find_inbound (ne_external_port e) (ne_remote_ip e) (ne_remote_port e) (ne_protocol e) s = Some i.
Proof.
  intros Hinv Hi Ha Hr. unfold nat_find_inbound.
  destruct (find_slot _ _) as [k|] eqn:Ek.
  2: { pose proof (proj1 (find_slot_None _ _) Ek i e Hi) as E.
       by rewrite (proj2 (inbound_matches_true _ _ _ _ e)) in E. }
  apply find_slot_Some in Ek as (f & Hk & (Hfa & Hfe & Hfr & _)%inbound_matches_true & _). f_equal.
  pose proof (ni_ports _ Hinv) as (base & d & Hp). pose proof (ports_bound base d s (ni_len _ Hinv) Hp) as Hlen.
  destruct (po_rest _ _ _ Hp i e Hi Ha) as [[j Hj]%list_elem_of_lookup_1|]; [|done].
  destruct (po_rest _ _ _ Hp k f Hk Hfa) as [[l Hl]%list_elem_of_lookup_1|]; [|congruence].
  destruct (po_slot _ _ _ Hp j i Hj) as (e' & He' & _ & Hpe). destruct (po_slot _ _ _ Hp l k Hl) as (f' & Hf' & _ & Hpf).
  assert (l = j) as ->; [|congruence]. pose proof (lookup_lt_Some _ _ _ Hj). pose proof (lookup_lt_Some _ _ _ Hl).
  apply (port_seq_inj base); [apply Hp|lia|lia|congruence].
Qed.

Lemma nat_init_inv s :
  length (nat_table s) = NAT_MAX_ENTRIES → Forall (λ e, ne_last_seen e = 0) (nat_table s) →
  NAT_PORT_MIN ≤ next_nat_port s ≤ NAT_PORT_MAX → nat_inv (nat_init s).
Proof.
  intros Hl Hs Hp. split.
  - cbn. by rewrite length_fmap.
  - cbn. apply Forall_fmap. eapply Forall_impl; [exact Hs|]. intros e He. by split.
  - unfold NAT_PORT_MIN, NAT_PORT_MAX in *. exists (next_nat_port s - 10000), []. split; [lia|constructor| |done|].
    + cbn. unfold port_seq, NAT_PORT_MIN. cbn. rewrite Z.mod_small by lia. lia.
    + intros i e Hi Ha. cbn in Hi. apply list_lookup_fmap_Some in Hi as (e' & -> & _). done.
Qed.

Lemma translated_port s i e :
  nat_inv s → nat_table s !! i = Some e → ne_active e = true → ne_remote_ip e ≠ 0 →
  NAT_PORT_MIN ≤ ne_external_port e ≤ NAT_PORT_MAX.
Proof.
  intros Hinv Hi Ha Hr. destruct (ni_ports _ Hinv) as (base & d & Hp).
  destruct (po_rest _ _ _ Hp i e Hi Ha) as [[j Hj]%list_elem_of_lookup_1|]; [|done].
  destruct (po_slot _ _ _ Hp j i Hj) as (e' & He' & _ & Hpe). assert (e' = e) as -> by congruence. rewrite Hpe.
  apply port_seq_range, Hp.
Qed.

(** * Theorems *)

(** C27: replies reach the origin.  In every state reached from [nat_init] by
    translations, port forwards and clean-ups, a well-formed outbound packet is
    either refused because the table is full, or translated: its source becomes
    the WAN address and a port between 10000 and 60000, its header checksum is
    correct.  After any further traffic a packet that answers the translated
    one is rewritten to the address and port of the host that sent the
    original, again with a correct header checksum.  No two translated flows
    ever share the key of the inbound lookup. *)
Theorem nat_reply_reaches_origin s0 s wan p ihl f :
  length (nat_table s0) = NAT_MAX_ENTRIES → Forall (λ e, ne_last_seen e = 0) (nat_table s0) →
  NAT_PORT_MIN ≤ next_nat_port s0 ≤ NAT_PORT_MAX →
  rtc nat_step (nat_init s0) s → nat_enabled s = true → 0 ≤ wan < 2 ^ 32 →
  pkt_wf p → nat_parse p = Some (ihl, f) → 20 ≤ ihl → ihl + 4 ≤ pk_len p → f_dst f ≠ 0 →
  (nat_translate_outbound wan p s = Some (-1, p, s) ∧ ∀ i e, nat_table s !! i = Some e → ne_active e = true) ∨
  (∃ p' s' port, nat_translate_outbound wan p s = Some (0, p', s') ∧ NAT_PORT_MIN ≤ port ≤ NAT_PORT_MAX ∧
     let f' := mk_flow wan (f_dst f) port (f_dport f) (f_proto f) in
     nat_parse p' = Some (ihl, f') ∧ checksum_ok 5 (hbytes p' (Z.to_nat ihl)) = true ∧
     ∀ t q ihl', rtc nat_step s' t → nat_enabled t = true → pkt_wf q → nat_parse q = Some (ihl', reply f') →
       20 ≤ ihl' → ihl' + 4 ≤ pk_len q →
       ∃ q' t', nat_translate_inbound q t = Some (0, q', t') ∧ nat_parse q' = Some (ihl', reply f) ∧
         checksum_ok 5 (hbytes q' (Z.to_nat ihl')) = true).
Proof.
  intros Hl0 Hst0 Hp0 Hsteps Hen Hwan Hw Hp Hi Hl Hdst.
  assert (nat_inv s) as Hinv.
  { apply (nat_steps_inv _ _ Hsteps). by apply nat_init_inv. }
  unfold nat_translate_outbound. rewrite Hen. replace (pk_len p <? 20 + 4) with false by lia. rewrite Hp. cbn [negb mbind option_bind].
  pose proof (outbound_entry_spec wan f s Hinv (nat_parse_ok p ihl f Hw Hp)) as Hspec.
  destruct (outbound_entry wan f s) as [[i s1]|]; [right|left; split; [done|naive_solver]].
  destruct Hspec as (Hinv1 & _ & _ & e & He & Hm). cbn zeta. rewrite (touch_id i s1 Hinv1), He. cbn [mbind option_bind].
  apply outbound_matches_true in Hm as (Ha & Hm1 & Hm2 & Hm3 & Hm4 & Hm5).
  pose proof (translated_port s1 i e Hinv1 He Ha ltac:(congruence)) as Hport.
  destruct (rewrite_src p ihl f wan (ne_external_port e)) as (p1 & p2 & p3 & p' & -> & Ec & Ed & Ep & Hw' & Hl' & Hck & Hpar);
    [done..|unfold NAT_PORT_MIN, NAT_PORT_MAX in Hport; lia|]. cbn [mbind option_bind]. rewrite Ec. cbn [mbind option_bind].
  rewrite Ed. cbn [mbind option_bind]. rewrite Ep. cbn [mbind option_bind]. exists p', s1, (ne_external_port e). split; [done|]. split; [done|]. split; [done|]. split; [done|].
  intros t q ihl' Hst Hent Hwq Hq Hiq Hlq. destruct (nat_steps_inv s1 t Hst Hinv1) as [Hinvt Hper].
  pose proof (Hper i e He Ha) as Het. unfold nat_translate_inbound. rewrite Hent. replace (pk_len q <? 20 + 4) with false by lia.
  rewrite Hq. cbn [negb mbind option_bind reply f_src f_dst f_sport f_dport f_proto]. rewrite <-Hm3, <-Hm4, <-Hm5.
  rewrite (find_inbound_unique t i e Hinvt Het Ha) by congruence. cbn zeta. rewrite (touch_id i t Hinvt), Het. cbn [mbind option_bind].
  pose proof (Forall_lookup_1 _ _ _ _ (ni_entries _ Hinvt) Het) as [_ Hr]. destruct (Hr Ha) as [Hr1 Hr2].
  destruct (rewrite_dst q ihl' _ (ne_internal_ip e) (ne_internal_port e) Hwq Hq Hiq Hlq Hr1 Hr2)
    as (q1 & q2 & q3 & q' & -> & Ec' & Ep1 & Ep2 & _ & _ & Hck' & Hpar'). cbn [mbind option_bind]. rewrite Ec'. cbn [mbind option_bind].
  rewrite Ep1. cbn [mbind option_bind]. rewrite Ep2. cbn [mbind option_bind]. exists q', t. split; [done|]. split; [|done].
  rewrite Hpar'. cbn. unfold reply. by rewrite Hm1, Hm2.
Qed.

(** A port forward is stored with remote address and port 0 ("any source"), but
    the inbound lookup compares them for equality: it serves no packet. *)
Lemma nat_port_forward_refused s0 eip eport iip iport proto wan q ihl g :
  nat_parse q = Some (ihl, g) → f_src g ≠ 0 →
  let s := nat_enable wan (snd (nat_add_port_forward eip eport iip iport proto (nat_init s0))) in
  nat_translate_inbound q s = Some (-1, q, s).
Proof.
  intros Hq Hsrc s. unfold nat_translate_inbound. cbn [negb nat_enabled s nat_enable set_field].
  destruct (_ <? _); [done|]. rewrite Hq. cbn [mbind option_bind].
  unfold nat_find_inbound. destruct (find_slot _ _) as [i|] eqn:E; [|done]. exfalso.
  apply find_slot_Some in E as (e & He & (Ha & _ & Hr & _)%inbound_matches_true & _). apply Hsrc. rewrite <-Hr. clear Hr.
  assert (∀ j d, nat_table (nat_init s0) !! j = Some d → ne_active d = false) as Hoff.
  { intros j d Hj. cbn in Hj. apply list_lookup_fmap_Some in Hj as (d' & -> & _). done. }
  unfold s, nat_add_port_forward in He. destruct (nat_alloc_entry _) as [k|] eqn:Ek; cbn [snd] in He.
  - unfold nat_alloc_entry in Ek. apply find_slot_Some in Ek as (e0 & He0 & _). rewrite (alter_fill _ k e0) in He by done.
    destruct (fill_lookup k _ e0 (nat_init s0) i e He0 He) as [[-> ->]|[_ Hi]]; [done|]. rewrite (Hoff i e Hi) in Ha. done.
  - rewrite (Hoff i e He) in Ha. done.
Qed.

(** * Example *)

Definition zero_nat : nat_state := mk_nat (replicate NAT_MAX_ENTRIES (mk_ne 0 0 0 0 0 0 0 0 false)) NAT_PORT_MIN false 0.
(** 10.0.0.2:80 answers to the WAN address, port 10000. *)
Definition nat_answer : pktbuf :=
  pkt_of 0 ([69; 0; 0; 40; 0; 0; 0; 0; 64; 6; 0; 0; 10; 0; 0; 2; 5; 0; 0; 0; 0; 80; 39; 16] ++ replicate 16 0).

Lemma nat_reply_reaches_origin_witness :
  ∃ p' s' q' t', nat_translate_outbound 5 http_request (nat_enable 5 (nat_init zero_nat)) = Some (0, p', s') ∧
    nat_translate_inbound nat_answer s' = Some (0, q', t') ∧ nat_parse q' = Some (20, reply http_flow).
Proof.
  destruct (nat_reply_reaches_origin zero_nat (nat_enable 5 (nat_init zero_nat)) 5 http_request 20 http_flow)
    as [[_ H]|(p' & s' & port & Ho & _ & Hp & _ & H)].
  - vm_compute. reflexivity.
  - by apply Forall_replicate.
  - vm_compute. split; discriminate.
  - apply rtc_once, ns_enable.
  - reflexivity.
  - lia.
  - apply http_request_wf.
  - vm_compute. reflexivity.
  - lia.
  - vm_compute. discriminate.
  - vm_compute. discriminate.
  - exfalso. specialize (H 0%nat (mk_ne 0 0 0 0 0 0 0 0 false) ltac:(vm_compute; reflexivity)). discriminate H.
  - assert (port = 10000) as ->.
    { assert ((λ x, f_sport (snd x)) <$> (nat_translate_outbound 5 http_request (nat_enable 5 (nat_init zero_nat)) ≫= λ r, nat_parse (snd (fst r))) = Some 10000) as E
        by (vm_compute; reflexivity). rewrite Ho in E. cbn [mbind option_bind fst snd] in E. rewrite Hp in E. by injection E. }
    destruct (H s' nat_answer 20) as (q' & t' & Hi & Hq & _).
    + apply rtc_refl.
    + assert ((λ r, nat_enabled (snd r)) <$> nat_translate_outbound 5 http_request (nat_enable 5 (nat_init zero_nat)) = Some true) as E
        by (vm_compute; reflexivity). rewrite Ho in E. by injection E.
    + apply pkt_of_wf; vm_compute; first [reflexivity|discriminate].
    + vm_compute. reflexivity.
    + lia.
    + vm_compute. discriminate.
    + by exists p', s', q', t'.
Defined.
