(* ===== verification/Net.v ===== *)
(** The transmit side of the network stack: net/ethernet.c ([ethernet_tx]),
    net/arp.c (requests and replies) and net/ipv4.c ([ipv4_send]), over the
    virtio driver hal/drivers/ethernet/ethernet.c.

    [net] is the state of the whole stack; the receive side and the transports
    are in the files that follow.  [None] is an access outside a buffer.  The
    device is a queue of received frames, the list of frames sent, and for each
    transmission whether it completes before the driver gives up. *)

From S2P Require Import Prelude Links Checksum Packet Routing Firewall Arp.

(** * State *)

Record nic := mk_nic {
  nic_ready : bool;
  nic_completes : list bool;
  nic_sent : list (list Z);
  nic_rx : list (option (list Z));
}.
#[export] Instance nic_eta : Eta nic := λ n, mk_nic (nic_ready n) (nic_completes n) (nic_sent n) (nic_rx n).

Record ip_state := mk_ip { local_ip : Z; local_netmask : Z; local_gateway : Z; ip_id_counter : Z }.
#[export] Instance ip_state_eta : Eta ip_state := λ s,
  mk_ip (local_ip s) (local_netmask s) (local_gateway s) (ip_id_counter s).

Record udp_socket := mk_udp {
  us_local_port : Z;
  us_bound : bool;
  us_rx_buf : list Z;
  us_rx_len : Z;
  us_rx_src_ip : Z;
  us_rx_src_port : Z;
  us_rx_ready : bool;
}.
#[export] Instance udp_socket_eta : Eta udp_socket := λ s,
  mk_udp (us_local_port s) (us_bound s) (us_rx_buf s) (us_rx_len s) (us_rx_src_ip s) (us_rx_src_port s) (us_rx_ready s).

Inductive tcp_state :=
  | TCP_CLOSED | TCP_LISTEN | TCP_SYN_SENT | TCP_SYN_RECEIVED | TCP_ESTABLISHED | TCP_FIN_WAIT_1
  | TCP_FIN_WAIT_2 | TCP_CLOSE_WAIT | TCP_CLOSING | TCP_LAST_ACK | TCP_TIME_WAIT.
#[export] Instance tcp_state_eq_dec : EqDecision tcp_state.
Proof. solve_decision. Defined.

Record tcp_conn := mk_tcp {
  tc_local_ip : Z;
  tc_local_port : Z;
  tc_remote_ip : Z;
  tc_remote_port : Z;
  tc_state : tcp_state;
  tc_snd_nxt : Z;
  tc_snd_una : Z;
  tc_rcv_nxt : Z;
  tc_snd_wnd : Z;
  tc_rcv_wnd : Z;
  tc_rx_buf : list Z;
  tc_rx_len : Z;
  tc_tx_len : Z;
  tc_retransmit_count : Z;
  tc_active : bool;
  tc_accepted : bool;
}.
#[export] Instance tcp_conn_eta : Eta tcp_conn := λ c,
  mk_tcp (tc_local_ip c) (tc_local_port c) (tc_remote_ip c) (tc_remote_port c) (tc_state c) (tc_snd_nxt c)
    (tc_snd_una c) (tc_rcv_nxt c) (tc_snd_wnd c) (tc_rcv_wnd c) (tc_rx_buf c) (tc_rx_len c) (tc_tx_len c)
    (tc_retransmit_count c) (tc_active c) (tc_accepted c).

Record tcp_table := mk_tcps { connections : list tcp_conn; next_ephemeral_port : Z }.
#[export] Instance tcp_table_eta : Eta tcp_table := λ t, mk_tcps (connections t) (next_ephemeral_port t).

(** Neighbour cache entry of net/ipv6.c. *)
Record nd_entry := mk_nd { nd_ip : list Z; nd_mac : list Z; nd_state : Z; nd_valid : bool }.
#[export] Instance nd_entry_eta : Eta nd_entry := λ e, mk_nd (nd_ip e) (nd_mac e) (nd_state e) (nd_valid e).
Record ipv6_state := mk_v6 { nd_cache : list nd_entry; local_ipv6 : list Z; link_local_ipv6 : list Z; ipv6_configured : bool }.
#[export] Instance ipv6_state_eta : Eta ipv6_state := λ s,
  mk_v6 (nd_cache s) (local_ipv6 s) (link_local_ipv6 s) (ipv6_configured s).

Record net := mk_net {
  n_pkts : pkt_state;
  n_fw : fw_state;
  n_rt : routing_state;
  n_arp : arp_state;
  n_ip : ip_state;
  n_udp : list udp_socket;
  n_tcp : tcp_table;
  n_v6 : ipv6_state;
  n_mac : list Z;
  n_nic : nic;
}.
#[export] Instance net_eta : Eta net := λ s,
  mk_net (n_pkts s) (n_fw s) (n_rt s) (n_arp s) (n_ip s) (n_udp s) (n_tcp s) (n_v6 s) (n_mac s) (n_nic s).

(** The buffer behind a packet pointer. *)
Definition get_pkt (i : nat) (s : net) : option pktbuf := pkt_pool (n_pkts s) !! i.
Definition put_pkt (i : nat) (p : pktbuf) (s : net) : net := s <| n_pkts ::= λ t, t <| pkt_pool ::= <[i := p]> |> |>.
Definition free_pkt (i : nat) (s : net) : net := s <| n_pkts ::= pktbuf_free (Some i) |>.
Definition alloc_pkt (s : net) : option nat * net :=
  let '(r, t) := pktbuf_alloc (n_pkts s) in (r, s <| n_pkts := t |>).

(** * Driver *)

Definition VIRTIO_NET_FRAME_MAX : Z := 1514.

(** [ethernet_send(pkt->data + pkt->head, pkt->len)]: the arguments are checked
    before the frame is read. *)
Definition ethernet_send (p : pktbuf) (n : nic) : option (Z * nic) :=
  if negb (nic_ready n) || (pk_len p =? 0) || (VIRTIO_NET_FRAME_MAX <? pk_len p) then Some (AEGIS_EINVAL, n)
  else
    frame ← get_bytes p 0 (Z.to_nat (pk_len p));
    let n := n <| nic_sent ::= λ l, l ++ [frame] |> in
    match nic_completes n with
    | [] => Some (AEGIS_OK, n)
    | b :: r => Some (if b then AEGIS_OK else AEGIS_ETIMEDOUT, n <| nic_completes := r |>)
    end.

(** * Ethernet *)

Definition net_ethernet_init (mac : list Z) (s : net) : Z * net := (0, s <| n_mac := mac |>).

(** [pkt] and [dst_mac] are not NULL. *)
Definition ethernet_tx (dst_mac : list Z) (ethertype : Z) (i : nat) (s : net) : option (Z * net) :=
  p ← get_pkt i s;
  match pktbuf_push 14 p with
  | (None, p) => Some (-1, free_pkt i (put_pkt i p s))
  | (Some _, p) =>
      p ← put_bytes 0 dst_mac p;
      p ← put_bytes 6 (n_mac s) p;
      p ← put16 12 (swap16 ethertype) p;
      '(ret, n) ← ethernet_send p (n_nic s);
      Some (ret, free_pkt i ((put_pkt i p s) <| n_nic := n |>))
  end.

(** * ARP *)

Definition arp_htons (v : Z) : Z := swap16 v.
Definition arp_packet_size : Z := 28.

(** The stores that fill an ARP packet. *)
Definition arp_fill (op : Z) (our_mac target_mac : list Z) (our_ip target_ip : Z) (p : pktbuf) : option pktbuf :=
  let p := p <| pk_len := arp_packet_size |> in
  p ← put16 0 (arp_htons 1) p;
  p ← put16 2 (arp_htons 2048) p;
  p ← put8 4 6 p;
  p ← put8 5 4 p;
  p ← put16 6 (arp_htons op) p;
  p ← put_bytes 8 our_mac p;
  p ← put_bytes 18 target_mac p;
  p ← put32 14 our_ip p;
  put32 24 target_ip p.

Definition broadcast_mac : list Z := replicate 6 255.

Definition arp_send_reply (target_ip : Z) (target_mac : list Z) (s : net) : option net :=
  match alloc_pkt s with
  | (None, s) => Some s
  | (Some i, s) =>
      p ← get_pkt i s;
      p ← arp_fill 2 (n_mac s) target_mac (local_ip (n_ip s)) target_ip p;
      '(_, s) ← ethernet_tx target_mac 2054 i (put_pkt i p s);
      Some s
  end.

Definition arp_send_request (target_ip : Z) (s : net) : option (Z * net) :=
  match alloc_pkt s with
  | (None, s) => Some (-1, s)
  | (Some i, s) =>
      p ← get_pkt i s;
      p ← arp_fill 1 (n_mac s) broadcast_mac (local_ip (n_ip s)) target_ip p;
      ethernet_tx broadcast_mac 2054 i (put_pkt i p s)
  end.

(** * IPv4 *)

Definition ipv4_set_addr (ip : Z) (s : net) : net := s <| n_ip ::= λ t, t <| local_ip := ip |> |>.
Definition ipv4_get_addr (s : net) : Z := local_ip (n_ip s).
Definition ipv4_set_netmask (mask : Z) (s : net) : net := s <| n_ip ::= λ t, t <| local_netmask := mask |> |>.
Definition ipv4_set_gateway (gw : Z) (s : net) : net := s <| n_ip ::= λ t, t <| local_gateway := gw |> |>.

(** The header stores, checksum included. *)
Definition ipv4_fill (dst proto total_len src id : Z) (p : pktbuf) : option pktbuf :=
  p ← put8 0 69 p;
  p ← put8 1 0 p;
  p ← put16 2 (swap16 total_len) p;
  p ← put16 4 (swap16 id) p;
  p ← put16 6 64 p;
  p ← put8 8 64 p;
  p ← put8 9 proto p;
  p ← put16 10 0 p;
  p ← put32 12 src p;
  p ← put32 16 dst p;
  bytes ← get_bytes p 0 20;
  put16 10 (ip_checksum bytes) p.

Definition next_hop_for (dst : Z) (s : net) : option Z :=
  let ip := n_ip s in
  if Z.land dst (local_netmask ip) =? Z.land (local_ip ip) (local_netmask ip) then Some dst
  else
    r ← routing_lookup dst (n_rt s);
    Some (match r ≫= λ i, route_storage (n_rt s) !! i with
          | Some route => if r_gateway route =? 0 then local_gateway ip else r_gateway route
          | None => local_gateway ip
          end).

(** [payload] is not NULL; its length is the argument [len]. *)
Definition ipv4_send (dst proto : Z) (payload : list Z) (s : net) : option (Z * net) :=
  let len := Z.of_nat (length payload) in
  if len =? 0 then Some (-1, s)
  else
    match alloc_pkt s with
    | (None, s) => Some (-1, s)
    | (Some i, s) =>
        let total_len := u16 (20 + len) in
        p ← get_pkt i s;
        p ← ipv4_fill dst proto total_len (local_ip (n_ip s)) (ip_id_counter (n_ip s)) p;
        let s := s <| n_ip ::= λ t, t <| ip_id_counter := u16 (ip_id_counter t + 1) |> |> in
        p ← put_bytes 20 payload p;
        let s := put_pkt i (p <| pk_len := total_len |>) s in
        if dst =? 4294967295 then ethernet_tx broadcast_mac 2048 i s
        else
          next_hop ← next_hop_for dst s;
          if next_hop =? 0 then Some (-1, free_pkt i s)
          else
            match arp_cache_lookup next_hop (n_arp s) with
            | None => '(_, s) ← arp_send_request next_hop s; Some (-1, free_pkt i s)
            | Some dst_mac => ethernet_tx dst_mac 2048 i s
            end
    end.

(** * Ownership of buffers *)

Lemma put8_meta off v p q :
  put8 off v p = Some q → pk_next q = pk_next p ∧ pk_head q = pk_head p ∧ pk_len q = pk_len p.
Proof. unfold put8. destruct (_ <? _)%nat; [|done]. by intros [= <-]. Qed.
Lemma put16_meta off v p q :
  put16 off v p = Some q → pk_next q = pk_next p ∧ pk_head q = pk_head p ∧ pk_len q = pk_len p.
Proof.
  unfold put16. intros H. bind_inv H. apply put8_meta in H as (-> & -> & ->). by eapply put8_meta.
Qed.
Lemma put32_meta off v p q :
  put32 off v p = Some q → pk_next q = pk_next p ∧ pk_head q = pk_head p ∧ pk_len q = pk_len p.
Proof.
  unfold put32. intros H. bind_inv H. apply put16_meta in H as (-> & -> & ->). by eapply put16_meta.
Qed.
Lemma put_bytes_meta off src p q :
  put_bytes off src p = Some q → pk_next q = pk_next p ∧ pk_head q = pk_head p ∧ pk_len q = pk_len p.
Proof.
  revert off p. induction src as [|b src IH]; intros off p H; cbn in H; [by injection H as ->|].
  bind_inv H. apply IH in H as (-> & -> & ->). by eapply put8_meta.
Qed.

(** [pk_next] is not touched by a chain of stores. *)
Ltac put_next :=
  repeat match goal with
  | H : put8 _ _ _ = Some _ |- _ => apply put8_meta in H as (? & _)
  | H : put16 _ _ _ = Some _ |- _ => apply put16_meta in H as (? & _)
  | H : put32 _ _ _ = Some _ |- _ => apply put32_meta in H as (? & _)
  | H : put_bytes _ _ _ = Some _ |- _ => apply put_bytes_meta in H as (? & _)
  end; repeat match goal with H : pk_next _ = _ |- _ => progress cbn in H end; cbn; congruence.

Lemma arp_fill_next op m1 m2 i1 i2 p q : arp_fill op m1 m2 i1 i2 p = Some q → pk_next q = pk_next p.
Proof. unfold arp_fill. intros H. cbn zeta in H. bind_inv H. put_next. Qed.
Lemma ipv4_fill_next dst proto len src id p q : ipv4_fill dst proto len src id p = Some q → pk_next q = pk_next p.
Proof. unfold ipv4_fill. intros H. bind_inv H. put_next. Qed.

(** The buffers that are not on the free list are exactly those in [own]. *)
Definition pool (own : gset nat) (s : net) : Prop := client_inv (own, n_pkts s).

Lemma pool_ext own s t : n_pkts t = n_pkts s → pool own s → pool own t.
Proof. unfold pool. by intros ->. Qed.
Lemma pool_alloc own s i t : pool own s → alloc_pkt s = (Some i, t) → pool ({[i]} ∪ own) t ∧ ¬ i ∈ own.
Proof.
  unfold pool, alloc_pkt. intros Hp. destruct (pktbuf_alloc (n_pkts s)) as [r u] eqn:E. intros [= -> <-].
  split; [|by eapply client_alloc_fresh]. eapply client_step_inv; [exact Hp|by apply step_alloc].
Qed.
Lemma pool_alloc_fail own s t : pool own s → alloc_pkt s = (None, t) → pool own t.
Proof.
  unfold pool, alloc_pkt. intros Hp. destruct (pktbuf_alloc (n_pkts s)) as [r u] eqn:E. intros [= -> <-].
  eapply client_step_inv; [exact Hp|by apply step_alloc_fail].
Qed.
Lemma pool_put own s i p q :
  pool own s → i ∈ own → get_pkt i s = Some p → pk_next q = pk_next p → pool own (put_pkt i q s).
Proof. intros Hs Hi Hp Hq. eapply client_step_inv; [exact Hs|]. by eapply (step_write own (n_pkts s) i p q). Qed.
Lemma pool_free own s i : pool own s → i ∈ own → pool (own ∖ {[i]}) (free_pkt i s).
Proof. intros Hs Hi. eapply client_step_inv; [exact Hs|]. by apply step_free. Qed.
Lemma pool_free_new own s i : pool ({[i]} ∪ own) s → ¬ i ∈ own → pool own (free_pkt i s).
Proof. intros Hs Hi. replace own with (({[i]} ∪ own) ∖ {[i]}) by set_solver. apply pool_free; [done|set_solver]. Qed.

Lemma pktbuf_push_next k p r q : pktbuf_push k p = (r, q) → pk_next q = pk_next p.
Proof. unfold pktbuf_push. destruct (_ <? _); by intros [= <- <-]. Qed.

Lemma own_here (i : nat) (own : gset nat) : i ∈ {[i]} ∪ own.
Proof. set_solver. Qed.

(** Transmission takes the buffer. *)
Lemma ethernet_tx_pool own mac ty i s r t :
  pool ({[i]} ∪ own) s → ¬ i ∈ own → ethernet_tx mac ty i s = Some (r, t) → pool own t.
Proof.
  intros Hs Hi H. unfold ethernet_tx in H. bind_inv H.
  match goal with E : get_pkt i s = Some _ |- _ => rename E into Ep end.
  destruct (pktbuf_push 14 _) as [[o|] q] eqn:Eq; apply pktbuf_push_next in Eq.
  - bind_inv H. match type of H with context [let '(_, _) := ?x in _] => destruct x as [ret n] end. injection H as <- <-.
    apply pool_free_new; [|done]. eapply pool_ext; [|eapply (pool_put _ s i); [exact Hs|apply own_here|exact Ep|]]; [done|put_next].
  - injection H as <- <-. apply pool_free_new; [|done]. by eapply (pool_put _ s i); [exact Hs|apply own_here|exact Ep|].
Qed.

Lemma arp_send_request_pool own ip s r t : pool own s → arp_send_request ip s = Some (r, t) → pool own t.
Proof.
  intros Hs H. unfold arp_send_request in H. destruct (alloc_pkt s) as [[i|] u] eqn:Ea.
  - destruct (pool_alloc own s i u Hs Ea) as [Hu Hi]. bind_inv H. eapply (ethernet_tx_pool own); [|done|done].
    eapply pool_put; [done|apply own_here|done|by eapply arp_fill_next].
  - injection H as <- <-. by eapply pool_alloc_fail.
Qed.

Lemma arp_send_reply_pool own ip mac s t : pool own s → arp_send_reply ip mac s = Some t → pool own t.
Proof.
  intros Hs H. unfold arp_send_reply in H. destruct (alloc_pkt s) as [[i|] u] eqn:Ea.
  - destruct (pool_alloc own s i u Hs Ea) as [Hu Hi]. bind_inv H.
    match type of H with context [let '(_, _) := ?x in _] => destruct x as [ret n] end. injection H as <-.
    eapply (ethernet_tx_pool own); [|done|done]. eapply pool_put; [done|apply own_here|done|by eapply arp_fill_next].
  - injection H as <-. by eapply pool_alloc_fail.
Qed.

Lemma ipv4_send_pool own dst proto payload s r t : pool own s → ipv4_send dst proto payload s = Some (r, t) → pool own t.
Proof.
  intros Hs H. unfold ipv4_send in H. destruct (_ =? 0); [by injection H as <- <-|].
  destruct (alloc_pkt s) as [[i|] u] eqn:Ea; [|injection H as <- <-; by eapply pool_alloc_fail].
  destruct (pool_alloc own s i u Hs Ea) as [Hu Hi]. cbn zeta in H. bind_inv H.
  match type of H with context [put_pkt i ?q ?v] => assert (pool ({[i]} ∪ own) (put_pkt i q v)) as Hv end.
  { eapply (pool_put _ _ i); [eapply pool_ext; [|exact Hu]|apply own_here|done|]; [done|].
    match goal with E : ipv4_fill _ _ _ _ _ _ = Some _ |- _ => apply ipv4_fill_next in E end. put_next. }
  revert H Hv. generalize (put_pkt i) as f. intros f. match goal with |- context [f ?q ?v] => generalize (f q v) end.
  clear f. intros v H Hv. destruct (dst =? _); [by eapply (ethernet_tx_pool own)|]. bind_inv H.
  destruct (_ =? 0); [injection H as <- <-; by apply pool_free_new|].
  destruct (arp_cache_lookup _ _) as [mac|]; [by eapply (ethernet_tx_pool own)|]. bind_inv H.
  match type of H with context [let '(_, _) := ?x in _] => destruct x as [ret w] end. injection H as <- <-.
  apply pool_free_new; [|done]. by eapply arp_send_request_pool.
Qed.

(** * Frames *)

(** Replacing the bytes of [l] from [off] on by [src]. *)
Definition splice (off : nat) (src l : list Z) : list Z := take off l ++ src ++ drop (off + length src) l.

Lemma splice_cons off b src l :
  (off < length l)%nat → splice (S off) src (<[off := b]> l) = splice off (b :: src) l.
Proof.
  intros Hl. unfold splice. cbn [length]. rewrite (take_S_r _ off b) by (by apply list_lookup_insert_eq).
  rewrite take_insert_ge by done. rewrite drop_insert_lt by lia. rewrite <-app_assoc. cbn. by rewrite Nat.add_succ_r.
Qed.

Lemma put_bytes_ok off src p n :
  pkt_wf p → 0 ≤ off → Forall (λ b, 0 ≤ b < 256) src → off + Z.of_nat (length src) ≤ Z.of_nat n →
  pk_head p + Z.of_nat n ≤ PKT_MAX_LEN →
  ∃ q, put_bytes off src p = Some q ∧ pkt_wf q ∧ pk_next q = pk_next p ∧ pk_head q = pk_head p ∧ pk_len q = pk_len p ∧
    hbytes q n = splice (Z.to_nat off) src (hbytes p n).
Proof.
  revert off p. induction src as [|b src IH]; intros off p Hw Ho Hs Hn Hr.
  - exists p. split_and!; try done. unfold splice. cbn. by rewrite Nat.add_0_r, take_drop.
  - apply Forall_cons in Hs as [Hb Hs]. cbn [length] in Hn. cbn [put_bytes]. pose proof (pw_head _ Hw).
    rewrite put8_ok by (done || lia). cbn [mbind option_bind].
    destruct (IH (off + 1) (upd8 off b p)) as (q & -> & Hq & H1 & H2 & H3 & H4); [by apply upd8_wf|lia|done|lia|cbn; lia|].
    exists q. split_and!; try done. rewrite H4, hbytes_upd8 by lia.
    replace (Z.to_nat (off + 1)) with (S (Z.to_nat off)) by lia. apply splice_cons. rewrite hbytes_length by (done || lia). lia.
Qed.

(** Little-endian bytes of a u32. *)
Definition le32 (v : Z) : list Z := [v mod 65536 mod 256; v mod 65536 / 256; v / 65536 mod 256; v / 65536 / 256].
(** Network order of a u16. *)
Definition be16 (v : Z) : list Z := [v / 256; v mod 256].

(** The 20 bytes of the header [ipv4_send] builds. *)
Definition ipv4_header (dst proto total_len src id : Z) : list Z :=
  fill_checksum 5 ([69; 0] ++ be16 total_len ++ be16 id ++ [64; 0; 64; proto; 0; 0] ++ le32 src ++ le32 dst).
(** The 14 bytes in front of it. *)
Definition eth_frame (dst_mac src_mac : list Z) (ethertype : Z) (payload : list Z) : list Z :=
  dst_mac ++ src_mac ++ be16 ethertype ++ payload.

Definition byte (b : Z) : Prop := 0 ≤ b < 256.

Lemma swap16_lo v : 0 ≤ v < 65536 → swap16 v mod 256 = v / 256.
Proof. intros. rewrite swap16_spec by done. divlia. Qed.
Lemma swap16_hi v : 0 ≤ v < 65536 → swap16 v / 256 = v mod 256.
Proof. intros. rewrite swap16_spec by done. divlia. Qed.

Lemma fill_checksum_length k l : length (fill_checksum k l) = length l.
Proof. apply set_word_length. Qed.
Lemma fill_checksum_bytes k l : Forall byte l → Forall byte (fill_checksum k l).
Proof. intros Hl. apply set_word_ok; [done|]. apply finish_range. Qed.

Lemma set_word_app k v h r : (2 * k + 1 < length h)%nat → set_word k v (h ++ r) = set_word k v h ++ r.
Proof. intros Hk. unfold set_word. by rewrite !insert_app_l by (rewrite ?length_insert; lia). Qed.

(** Consecutive stores are one block store. *)
Lemma put8_bytes off v p : put8 off v p = put_bytes off [v] p.
Proof. cbn. by destruct (put8 off v p). Qed.
Lemma put16_bytes off v p : put16 off v p = put_bytes off [v mod 256; v / 256] p.
Proof. unfold put16. cbn. destruct (put8 off _ p) as [q|]; [|done]. cbn. by destruct (put8 _ _ q). Qed.
Lemma put_bytes_app off a b p : put_bytes off (a ++ b) p = put_bytes off a p ≫= put_bytes (off + Z.of_nat (length a)) b.
Proof.
  revert off p. induction a as [|x a IH]; intros off p; cbn [app put_bytes length].
  - cbn. by rewrite Z.add_0_r.
  - destruct (put8 off x p) as [q|]; [|done]. cbn [mbind option_bind]. rewrite IH. do 2 f_equal. lia.
Qed.
Lemma put32_bytes off v p : put32 off v p = put_bytes off (le32 v) p.
Proof.
  unfold put32, le32. rewrite put16_bytes. change [_; _; _; _] with ([v mod 65536 mod 256; v mod 65536 / 256] ++ [v / 65536 mod 256; v / 65536 / 256]).
  rewrite put_bytes_app. destruct (put_bytes off _ p) as [q|]; [|done]. cbn [mbind option_bind]. by rewrite put16_bytes.
Qed.
Lemma bytes_bind {B} off a b p (f k : pktbuf → option B) :
  (∀ q, f q = put_bytes (off + Z.of_nat (length a)) b q ≫= k) → put_bytes off a p ≫= f = put_bytes off (a ++ b) p ≫= k.
Proof. intros Hf. rewrite put_bytes_app. destruct (put_bytes off a p) as [q|]; [|done]. cbn. apply Hf. Qed.

Definition header_fields (dst proto total_len src id : Z) : list Z :=
  [69; 0] ++ be16 total_len ++ be16 id ++ [64; 0; 64; proto; 0; 0] ++ le32 src ++ le32 dst.

Lemma ipv4_fill_block dst proto total_len src id p :
  0 ≤ total_len < 65536 → 0 ≤ id < 65536 →
  ipv4_fill dst proto total_len src id p =
  (p ← put_bytes 0 (header_fields dst proto total_len src id) p; bytes ← get_bytes p 0 20; put16 10 (ip_checksum bytes) p).
Proof.
  intros Ht Hid. unfold ipv4_fill, header_fields. rewrite put8_bytes.
  erewrite bytes_bind by (intros; by rewrite put8_bytes).
  erewrite bytes_bind by (intros; by rewrite put16_bytes, swap16_lo, swap16_hi).
  erewrite bytes_bind by (intros; by rewrite put16_bytes, swap16_lo, swap16_hi).
  erewrite bytes_bind by (intros; by rewrite put16_bytes).
  erewrite bytes_bind by (intros; by rewrite put8_bytes).
  erewrite bytes_bind by (intros; by rewrite put8_bytes).
  erewrite bytes_bind by (intros; by rewrite put16_bytes).
  erewrite bytes_bind by (intros; by rewrite put32_bytes).
  erewrite bytes_bind by (intros; by rewrite put32_bytes).
  reflexivity.
Qed.

Lemma header_fields_bytes dst proto total_len src id :
  0 ≤ dst < 2 ^ 32 → byte proto → 0 ≤ total_len < 65536 → 0 ≤ src < 2 ^ 32 → 0 ≤ id < 65536 →
  Forall byte (header_fields dst proto total_len src id).
Proof.
  intros Hd Hp Ht Hs Hi. unfold header_fields, be16, le32, byte in *. repeat (apply Forall_cons; split); try apply Forall_nil; try lia; try done; divlia.
Qed.

(** [n] bytes fit after the head. *)
Lemma ipv4_fill_ok dst proto total_len src id p n :
  pkt_wf p → (20 ≤ n)%nat → pk_head p + Z.of_nat n ≤ PKT_MAX_LEN → 0 ≤ dst < 2 ^ 32 → byte proto →
  0 ≤ total_len < 65536 → 0 ≤ src < 2 ^ 32 → 0 ≤ id < 65536 →
  ∃ q, ipv4_fill dst proto total_len src id p = Some q ∧ pkt_wf q ∧ pk_next q = pk_next p ∧ pk_head q = pk_head p ∧
    pk_len q = pk_len p ∧ hbytes q n = ipv4_header dst proto total_len src id ++ drop 20 (hbytes p n).
Proof.
  intros Hw Hn Hr Hd Hpr Ht Hs Hid. pose proof (pw_head _ Hw) as Hh. rewrite ipv4_fill_block by done.
  pose proof (header_fields_bytes dst proto total_len src id Hd Hpr Ht Hs Hid) as Hf.
  unfold ipv4_header. fold (header_fields dst proto total_len src id). set (h := header_fields _ _ _ _ _) in *.
  assert (Hlh : length h = 20%nat) by done. assert (Hz : set_word 5 0 h = h) by done. clearbody h.
  destruct (put_bytes_ok 0 h p n) as (q & -> & Hq & Hqn & Hqh & Hql & Eq); [done|lia|done|lia|done|]. cbn [mbind option_bind].
  assert (splice (Z.to_nat 0) h (hbytes p n) = h ++ drop 20 (hbytes p n)) as Es by (unfold splice; by rewrite Hlh).
  rewrite Es in Eq. rewrite get_hbytes by (done || lia). cbn [mbind option_bind]. rewrite put16_ok by first [done|lia|apply finish_range].
  eexists. split; [done|]. split; [apply upd16_wf; [done|apply finish_range]|]. split; [done|]. split; [done|]. split; [done|].
  rewrite (hbytes_upd16 q 5) by lia. rewrite Eq.
  assert (hbytes q 20 = h) as ->.
  { replace (hbytes q 20) with (take 20 (hbytes q n)) by (unfold hbytes; rewrite take_take; f_equal; lia).
    rewrite Eq. rewrite <-Hlh at 1. apply take_app_length. }
  unfold fill_checksum. rewrite Hz. apply set_word_app. lia.
Qed.

Lemma hbytes_shift p q k n :
  pk_data q = pk_data p → 0 ≤ pk_head q → pk_head q + Z.of_nat k = pk_head p → drop k (hbytes q (k + n)) = hbytes p n.
Proof.
  intros Hd Hq Hk. unfold hbytes. rewrite Hd, skipn_firstn_comm, drop_drop. f_equal; [lia|]. f_equal. lia.
Qed.

Definition mac_ok (mac : list Z) : Prop := length mac = 6%nat ∧ Forall byte mac.

(** Outcome of the next transmission. *)
Definition tx_result (n : nic) : Z := if default true (head (nic_completes n)) then AEGIS_OK else AEGIS_ETIMEDOUT.

Lemma ethernet_send_ok p n :
  pkt_wf p → nic_ready n = true → 0 < pk_len p →
  ∃ n', ethernet_send p n = Some (tx_result n, n') ∧ nic_ready n' = true ∧
    nic_sent n' = nic_sent n ++ [hbytes p (Z.to_nat (pk_len p))].
Proof.
  intros Hw Hr Hl. pose proof (pw_room _ Hw) as Hroom. pose proof (pw_head _ Hw). unfold ethernet_send. rewrite Hr.
  replace (pk_len p =? 0) with false by lia. unfold VIRTIO_NET_FRAME_MAX, PKT_MAX_LEN in *. replace (1514 <? pk_len p) with false by lia.
  cbn [negb orb]. rewrite get_hbytes by (done || unfold PKT_MAX_LEN; lia). cbn [mbind option_bind].
  unfold tx_result. cbn zeta. cbn [nic_completes set_field]. destruct (nic_completes n) as [|b r] eqn:Ec; cbn; eexists; (split; [done|]); cbn; done.
Qed.

Lemma eth_header_block {B} dst_mac src_mac ty p (k : pktbuf → option B) :
  length dst_mac = 6%nat → length src_mac = 6%nat → 0 ≤ ty < 65536 →
  (p ← put_bytes 0 dst_mac p; p ← put_bytes 6 src_mac p; p ← put16 12 (swap16 ty) p; k p) =
  put_bytes 0 (dst_mac ++ src_mac ++ be16 ty) p ≫= k.
Proof.
  intros Hd Hs Ht. rewrite app_assoc.
  erewrite bytes_bind by (intros; by rewrite Hd). apply bytes_bind. intros q. rewrite length_app, Hd, Hs.
  by rewrite put16_bytes, swap16_lo, swap16_hi.
Qed.

Lemma ethernet_tx_frame mac ty i s p :
  get_pkt i s = Some p → pkt_wf p → 14 ≤ pk_head p → 0 < pk_len p → mac_ok mac → mac_ok (n_mac s) → 0 ≤ ty < 65536 →
  nic_ready (n_nic s) = true →
  ∃ t, ethernet_tx mac ty i s = Some (tx_result (n_nic s), t) ∧
    nic_sent (n_nic t) = nic_sent (n_nic s) ++ [eth_frame mac (n_mac s) ty (hbytes p (Z.to_nat (pk_len p)))] ∧
    n_ip t = n_ip s ∧ n_udp t = n_udp s ∧ n_tcp t = n_tcp s ∧ n_arp t = n_arp s ∧ n_rt t = n_rt s ∧ n_mac t = n_mac s.
Proof.
  intros Hp Hw Hh Hl [Hm Hmb] [Hm' Hmb'] Ht Hr. unfold ethernet_tx. rewrite Hp. cbn [mbind option_bind].
  destruct (pktbuf_push 14 p) as [[o|] q] eqn:Ep.
  2: { unfold pktbuf_push in Ep. replace (pk_head p <? 14) with false in Ep by lia. done. }
  destruct (push_wf 14 p q o Hw ltac:(lia) Ep) as (Hwq & _ & Hhq & Hlq & Hdq). pose proof (pw_room _ Hwq) as Hroom.
  assert (Hby : Forall byte (mac ++ n_mac s ++ be16 ty)).
  { rewrite !Forall_app. split; [done|]. split; [done|]. unfold be16, byte. repeat (apply Forall_cons; split); [divlia|divlia|apply Forall_nil]; done. }
  assert (Hlb : length (mac ++ n_mac s ++ be16 ty) = 14%nat) by (rewrite !length_app; cbn; lia).
  rewrite eth_header_block by done.
  destruct (put_bytes_ok 0 (mac ++ n_mac s ++ be16 ty) q (14 + Z.to_nat (pk_len p))) as (q' & -> & Hwq' & _ & Hhq' & Hlq' & Hb); [done|lia|done|rewrite Hlb; lia|lia|].
  cbn [mbind option_bind].
  destruct (ethernet_send_ok q' (n_nic s)) as (n' & -> & _ & Hsent); [done|done|lia|]. cbn [mbind option_bind].
  eexists. split; [done|]. split; [|done]. cbn. rewrite Hsent. f_equal. f_equal. rewrite Hlq', Hlq.
  replace (Z.to_nat (pk_len p + 14)) with (14 + Z.to_nat (pk_len p))%nat by lia. rewrite Hb. unfold splice, eth_frame. rewrite Hlb.
  change (Z.to_nat 0 + 14)%nat with 14%nat. cbn [Z.to_nat]. rewrite take_0, app_nil_l, <-!app_assoc.
  rewrite (hbytes_shift p q 14) by (done || lia). done.
Qed.

Record net_ok (s : net) : Prop := {
  no_bufs : Forall (λ p, length (pk_data p) = Z.to_nat PKT_MAX_LEN ∧ Forall byte (pk_data p)) (pkt_pool (n_pkts s));
  no_mac : mac_ok (n_mac s);
  no_addr : 0 ≤ local_ip (n_ip s) < 2 ^ 32;
  no_id : 0 ≤ ip_id_counter (n_ip s) < 65536;
}.

(** The link address a packet for [dst] is sent to. *)
Definition resolves (dst : Z) (s : net) (mac : list Z) : Prop :=
  if dst =? 4294967295 then mac = broadcast_mac
  else ∃ hop, next_hop_for dst s = Some hop ∧ hop ≠ 0 ∧ arp_cache_lookup hop (n_arp s) = Some mac.

Lemma alloc_pkt_ok own s :
  pool own s → own ≠ all_buffers → net_ok s →
  ∃ i t p, alloc_pkt s = (Some i, t) ∧ get_pkt i t = Some p ∧ pkt_wf p ∧ pk_head p = 757 ∧ ¬ i ∈ own ∧
    ∃ u, t = s <| n_pkts := u |>.
Proof.
  intros Hp Ho Hok. unfold alloc_pkt. destruct (pktbuf_alloc (n_pkts s)) as [[i|] u] eqn:E.
  - destruct (client_alloc_fresh own _ i u Hp E) as (Hni & _ & p & Hip & Hpu & _).
    pose proof (Forall_lookup_1 _ _ _ _ (no_bufs _ Hok) Hip) as [Hlen Hby].
    eexists i, _, _. split; [done|]. split; [exact Hpu|]. split; [|split; [done|split; [done|by eexists]]].
    split; cbn -[PKT_MAX_LEN]; try done.
  - exfalso. destruct (client_start _ _ Hp) as (fl & s1 & E1 & Hok1 & -> & _ & _). rewrite E in E1. symmetry in E1.
    pose proof (pktbuf_alloc_cases fl s1 Hok1) as H. destruct fl as [|j fl]; [apply Ho; set_solver|].
    destruct H as (s2 & p & E2 & _). congruence.
Qed.

Lemma splice_payload h (l payload : list Z) n :
  length h = n → length l = length payload → splice n payload (h ++ l) = h ++ payload.
Proof.
  intros Hh Hl. unfold splice. rewrite <-Hh, take_app_length. f_equal. rewrite drop_app_ge by lia.
  replace (length h + length payload - length h)%nat with (length payload) by lia. rewrite <-Hl, drop_all. apply app_nil_r.
Qed.

(** * Theorems *)

(** The frame on the wire.  When a buffer is free, the link is up and the
    next hop is known, [ipv4_send] with a payload of 1 to 737 bytes writes only
    inside its buffer and transmits exactly one frame: the Ethernet header for
    the next hop, a 20-byte IPv4 header with the given addresses, protocol and
    length whose checksum the receiver's test accepts, and the payload.  It
    returns the driver's result, gives the buffer back, and uses one identifier. *)
Theorem ipv4_send_frame own s dst proto payload mac :
  pool own s → own ≠ all_buffers → net_ok s → nic_ready (n_nic s) = true →
  0 ≤ dst < 2 ^ 32 → byte proto → Forall byte payload → (0 < length payload ≤ 737)%nat →
  resolves dst s mac → mac_ok mac →
  let header := ipv4_header dst proto (20 + Z.of_nat (length payload)) (local_ip (n_ip s)) (ip_id_counter (n_ip s)) in
  checksum_ok 5 header = true ∧
  ∃ t, ipv4_send dst proto payload s = Some (tx_result (n_nic s), t) ∧ pool own t ∧
    nic_sent (n_nic t) = nic_sent (n_nic s) ++ [eth_frame mac (n_mac s) 2048 (header ++ payload)] ∧
    ip_id_counter (n_ip t) = u16 (ip_id_counter (n_ip s) + 1).
Proof.
  intros Hpool Hown Hok Hready Hdst Hproto Hpay Hlen Hres Hmac header. split; [apply fill_checksum_ok; cbn; lia|].
  enough (∃ t, ipv4_send dst proto payload s = Some (tx_result (n_nic s), t) ∧
    nic_sent (n_nic t) = nic_sent (n_nic s) ++ [eth_frame mac (n_mac s) 2048 (header ++ payload)] ∧
    ip_id_counter (n_ip t) = u16 (ip_id_counter (n_ip s) + 1)) as (t & Esend & Hsent & Hid).
  { exists t. split; [done|]. split; [by eapply ipv4_send_pool|done]. }
  unfold ipv4_send. set (len := Z.of_nat (length payload)) in *. replace (len =? 0) with false by lia.
  destruct (alloc_pkt_ok own s Hpool Hown Hok) as (i & u & p & -> & Hp & Hw & Hh & Hi & v & ->). cbn zeta.
  rewrite Hp. cbn [mbind option_bind]. rewrite (u16_small (20 + len)) by lia. cbn [n_ip set_field].
  destruct (ipv4_fill_ok dst proto (20 + len) (local_ip (n_ip s)) (ip_id_counter (n_ip s)) p (20 + length payload))
    as (q & E1 & Hwq & _ & Hhq & _ & Hbq); [done|lia|unfold PKT_MAX_LEN; lia|done|done|lia|apply Hok|apply Hok|].
  rewrite E1. cbn [mbind option_bind]. fold header in Hbq.
  destruct (put_bytes_ok 20 payload q (20 + length payload)) as (q' & -> & Hwq' & _ & Hhq' & _ & Hbq'); [done|lia|done|lia|unfold PKT_MAX_LEN; lia|].
  cbn [mbind option_bind]. rewrite Hbq in Hbq'. rewrite splice_payload in Hbq'; [|done|].
  2: { rewrite length_drop, hbytes_length; [lia|done|unfold PKT_MAX_LEN; lia]. }
  match goal with |- context [put_pkt i ?x ?y] => set (qq := x); set (ss := y) end.
  assert (Hget : get_pkt i (put_pkt i qq ss) = Some qq).
  { unfold get_pkt. cbn. apply list_lookup_insert_eq. by eapply lookup_lt_Some. }
  assert (Hwqq : pkt_wf qq).
  { destruct Hwq' as [A1 A2 A3 A4 A5]. split; cbn -[PKT_MAX_LEN]; try done; unfold PKT_MAX_LEN; lia. }
  assert (Hpl : hbytes qq (Z.to_nat (pk_len qq)) = header ++ payload).
  { rewrite <-Hbq'. unfold hbytes. cbn. f_equal. lia. }
  assert (Hgo : ∃ t, ethernet_tx mac 2048 i (put_pkt i qq ss) = Some (tx_result (n_nic s), t) ∧
    nic_sent (n_nic t) = nic_sent (n_nic s) ++ [eth_frame mac (n_mac s) 2048 (header ++ payload)] ∧
    ip_id_counter (n_ip t) = u16 (ip_id_counter (n_ip s) + 1)).
  { destruct (ethernet_tx_frame mac 2048 i (put_pkt i qq ss) qq) as (t & Et & Hs & Hip & _);
      [done|done|change (14 ≤ pk_head q'); lia|change (0 < 20 + len); lia|done|apply Hok|lia|done|].
    exists t. split; [done|]. split; [by rewrite Hs, Hpl|by rewrite Hip]. }
  unfold resolves in Hres. destruct (dst =? 4294967295); [by subst mac|].
  destruct Hres as (hop & Hhop & Hnz & Harp). change (next_hop_for dst (put_pkt i qq ss)) with (next_hop_for dst s).
  rewrite Hhop. cbn [mbind option_bind]. replace (hop =? 0) with false by lia.
  change (n_arp (put_pkt i qq ss)) with (n_arp s). by rewrite Harp.
Qed.

(** * What sending keeps *)

Definition buf_ok (p : pktbuf) : Prop := length (pk_data p) = Z.to_nat PKT_MAX_LEN ∧ Forall byte (pk_data p).

Lemma put8_buf off v p q : put8 off v p = Some q → byte v → buf_ok p → buf_ok q.
Proof.
  unfold put8. destruct (_ <? _)%nat; [|done]. intros [= <-] Hv [Hl Hb]. split; [cbn -[PKT_MAX_LEN]; by rewrite length_insert|].
  by apply Forall_insert.
Qed.
Lemma put_bytes_buf off l p q : put_bytes off l p = Some q → Forall byte l → buf_ok p → buf_ok q.
Proof.
  revert off p. induction l as [|v l IH]; intros off p H Hl Hp; cbn [put_bytes] in H; [by injection H as <-|].
  bind_inv H. apply Forall_cons in Hl as [Hv Hl]. eapply IH; [exact H|done|]. by eapply put8_buf.
Qed.
Lemma put16_buf off v p q : put16 off v p = Some q → 0 ≤ v < 65536 → buf_ok p → buf_ok q.
Proof.
  rewrite put16_bytes. intros H Hv. eapply put_bytes_buf; [exact H|]. unfold byte. repeat (apply Forall_cons; split); [divlia|divlia|by apply Forall_nil].
Qed.

Lemma net_bufs_put i p s : buf_ok p → Forall buf_ok (pkt_pool (n_pkts s)) → Forall buf_ok (pkt_pool (n_pkts (put_pkt i p s))).
Proof. intros Hp Hs. by apply Forall_insert. Qed.
Lemma net_bufs_free i s : Forall buf_ok (pkt_pool (n_pkts s)) → Forall buf_ok (pkt_pool (n_pkts (free_pkt i s))).
Proof. intros Hs. unfold free_pkt, pktbuf_free. cbn. by apply Forall_alter; [|done]. Qed.
Lemma net_bufs_alloc r s t : alloc_pkt s = (r, t) → Forall buf_ok (pkt_pool (n_pkts s)) → Forall buf_ok (pkt_pool (n_pkts t)).
Proof.
  intros H Hs. unfold alloc_pkt, pktbuf_alloc in H. set (u := if packet_pool_initialized (n_pkts s) then n_pkts s else _) in H.
  assert (Hu : Forall buf_ok (pkt_pool u)).
  { unfold u. destruct (packet_pool_initialized (n_pkts s)); [done|]. apply Forall_lookup. intros k p Hk.
    pose proof (pktbuf_pool_init_data (n_pkts s) k) as E. rewrite Hk in E. cbn in E. symmetry in E. apply fmap_Some in E as (q & Hq & E).
    unfold buf_ok. rewrite E. exact (Forall_lookup_1 _ _ _ _ Hs Hq). }
  destruct (free_list u); injection H as _ <-; [|done]. cbn. by apply Forall_alter; [|done].
Qed.

(** Everything but the buffers, the frames sent and the identifier counter. *)
Record net_keeps (s t : net) : Prop := {
  kp_fw : n_fw t = n_fw s;
  kp_rt : n_rt t = n_rt s;
  kp_arp : n_arp t = n_arp s;
  kp_udp : n_udp t = n_udp s;
  kp_tcp : n_tcp t = n_tcp s;
  kp_v6 : n_v6 t = n_v6 s;
  kp_mac : n_mac t = n_mac s;
  kp_ip : local_ip (n_ip t) = local_ip (n_ip s) ∧ local_netmask (n_ip t) = local_netmask (n_ip s) ∧ local_gateway (n_ip t) = local_gateway (n_ip s);
  kp_nic : nic_rx (n_nic t) = nic_rx (n_nic s) ∧ nic_ready (n_nic t) = nic_ready (n_nic s);
}.

Lemma ethernet_send_total p n :
  pkt_wf p → ∃ r n', ethernet_send p n = Some (r, n') ∧ nic_rx n' = nic_rx n ∧ nic_ready n' = nic_ready n.
Proof.
  intros Hw. pose proof (pw_room _ Hw). unfold ethernet_send. destruct (_ || _) eqn:E; [by eexists _, _|].
  apply orb_false_iff in E as [[_ E]%orb_false_iff _]. pose proof (pw_len _ Hw).
  rewrite get_hbytes by (done || lia). cbn [mbind option_bind]. cbn zeta. cbn [nic_completes set_field].
  by destruct (nic_completes n); eexists _, _.
Qed.

Lemma ethernet_tx_total mac ty i s p :
  get_pkt i s = Some p → pkt_wf p → 14 ≤ pk_head p → mac_ok mac → mac_ok (n_mac s) → 0 ≤ ty < 65536 →
  Forall buf_ok (pkt_pool (n_pkts s)) →
  ∃ r t, ethernet_tx mac ty i s = Some (r, t) ∧ Forall buf_ok (pkt_pool (n_pkts t)) ∧ net_keeps s t ∧ n_ip t = n_ip s.
Proof.
  intros Hp Hw Hh [Hm Hmb] [Hm' Hmb'] Ht Hb. unfold ethernet_tx. rewrite Hp. cbn [mbind option_bind].
  destruct (pktbuf_push 14 p) as [[o|] q] eqn:Ep.
  2: { unfold pktbuf_push in Ep. replace (pk_head p <? 14) with false in Ep by lia. done. }
  destruct (push_wf 14 p q o Hw ltac:(lia) Ep) as (Hwq & _ & Hhq & Hlq & Hdq). pose proof (pw_room _ Hwq) as Hroom.
  assert (Hby : Forall byte (mac ++ n_mac s ++ be16 ty)).
  { rewrite !Forall_app. split; [done|]. split; [done|]. unfold be16, byte. repeat (apply Forall_cons; split); [divlia|divlia|apply Forall_nil]; done. }
  assert (Hlb : length (mac ++ n_mac s ++ be16 ty) = 14%nat) by (rewrite !length_app; cbn; lia).
  rewrite eth_header_block by done. pose proof (pw_len _ Hw).
  destruct (put_bytes_ok 0 (mac ++ n_mac s ++ be16 ty) q 14) as (q' & Eq' & Hwq' & _ & Hhq' & Hlq' & _); [done|lia|done|rewrite Hlb; lia|lia|].
  rewrite Eq'. cbn [mbind option_bind]. destruct (ethernet_send_total q' (n_nic s) Hwq') as (r & n' & -> & Hn). cbn [mbind option_bind].
  eexists _, _. split; [done|]. split; [|by split].
  apply net_bufs_free. cbn. apply Forall_insert; [done|]. eapply put_bytes_buf; [exact Eq'|done|]. unfold buf_ok. rewrite Hdq.
  split; [apply Hw|apply Hw].
Qed.

Lemma net_keeps_refl s : net_keeps s s.
Proof. by split. Qed.
Lemma net_keeps_trans s t u : net_keeps s t → net_keeps t u → net_keeps s u.
Proof. intros [] []. split; try congruence; naive_solver congruence. Qed.

Lemma ethernet_send_keeps p n r m : ethernet_send p n = Some (r, m) → nic_rx m = nic_rx n ∧ nic_ready m = nic_ready n.
Proof.
  unfold ethernet_send. intros H. destruct (_ || _); [by injection H as <- <-|]. bind_inv H. cbn zeta in H. cbn [nic_completes set_field] in H.
  destruct (nic_completes n); by injection H as <- <-.
Qed.
Lemma ethernet_tx_keeps mac ty i s r t : ethernet_tx mac ty i s = Some (r, t) → net_keeps s t.
Proof.
  unfold ethernet_tx. intros H. bind_inv H. destruct (pktbuf_push 14 _) as [[o|] q]; [|by injection H as <- <-]. bind_inv H.
  match type of H with context [let '(_, _) := ?x in _] => destruct x as [ret m] end.
  match goal with E : ethernet_send _ _ = _ |- _ => apply ethernet_send_keeps in E end. by injection H as <- <-.
Qed.
Lemma alloc_pkt_keeps s r t : alloc_pkt s = (r, t) → net_keeps s t.
Proof. unfold alloc_pkt. destruct (pktbuf_alloc _). by intros [= <- <-]. Qed.
Lemma arp_send_request_keeps ip s r t : arp_send_request ip s = Some (r, t) → net_keeps s t.
Proof.
  unfold arp_send_request. intros H. destruct (alloc_pkt s) as [[i|] u] eqn:Ea; apply alloc_pkt_keeps in Ea; [|by injection H as <- <-].
  bind_inv H. apply ethernet_tx_keeps in H. eapply net_keeps_trans; [exact Ea|]. eapply net_keeps_trans; [|exact H]. by split.
Qed.
Lemma ipv4_send_keeps dst proto payload s r t : ipv4_send dst proto payload s = Some (r, t) → net_keeps s t.
Proof.
  unfold ipv4_send. intros H. cbn zeta in H. destruct (_ =? 0); [injection H as <- <-; apply net_keeps_refl|].
  destruct (alloc_pkt s) as [[i|] u] eqn:Ea; apply alloc_pkt_keeps in Ea; [|by injection H as <- <-]. bind_inv H.
  eapply net_keeps_trans; [exact Ea|]. clear Ea. match type of H with context [put_pkt i ?x ?y] => assert (net_keeps u (put_pkt i x y)) as Hk by (by split);
    revert H Hk; generalize (put_pkt i x y) end. intros v H Hk. eapply net_keeps_trans; [exact Hk|].
  destruct (dst =? _); [by eapply ethernet_tx_keeps|]. bind_inv H. destruct (_ =? 0); [injection H as <- <-; by split|].
  destruct (arp_cache_lookup _ _); [by eapply ethernet_tx_keeps|]. bind_inv H.
  match type of H with context [let '(_, _) := ?x in _] => destruct x as [ret m] end.
  match goal with E : arp_send_request _ _ = _ |- _ => apply arp_send_request_keeps in E end.
  injection H as <- <-. eapply net_keeps_trans; [eassumption|]. by split.
Qed.

(** A broadcast of at most 737 bytes never leaves its buffer, whether a buffer
    is free and the link up or not. *)
Lemma ipv4_broadcast own s proto payload :
  pool own s → net_ok s → byte proto → Forall byte payload → (length payload ≤ 737)%nat →
  ∃ r t, ipv4_send 4294967295 proto payload s = Some (r, t) ∧ pool own t ∧ net_ok t ∧ net_keeps s t.
Proof.
  intros Hpool Hok Hproto Hpay Hlen.
  enough (∃ r t, ipv4_send 4294967295 proto payload s = Some (r, t) ∧ net_ok t ∧ net_keeps s t) as (r & t & E & H).
  { exists r, t. split; [done|]. split; [by eapply ipv4_send_pool|done]. }
  unfold ipv4_send. cbn zeta. destruct (_ =? 0); [eexists _, _; split; [done|]; split; [done|apply net_keeps_refl]|].
  destruct (decide (own = all_buffers)) as [Ho|Ho].
  { destruct (alloc_pkt s) as [[i|] u] eqn:Ea.
    - exfalso. pose proof (pool_alloc own s i u Hpool Ea) as [Hu Hi]. apply Hi. subst own.
      destruct Hu as [Hl [[_ Hu]|(fl & _ & Hu & _)]]; cbn in Hu; set_solver.
    - pose proof (net_bufs_alloc _ _ _ Ea (no_bufs _ Hok)) as Hb. unfold alloc_pkt in Ea.
      destruct (pktbuf_alloc (n_pkts s)) as [x v]. injection Ea as -> <-. eexists _, _. split; [done|]. destruct Hok. by split. }
  destruct (alloc_pkt_ok own s Hpool Ho Hok) as (i & u & p & Ea & Hp & Hw & Hh & Hi & v & Eu). rewrite Ea.
  pose proof (net_bufs_alloc _ _ _ Ea (no_bufs _ Hok)) as Hb. clear Ea. subst u.
  rewrite Hp. cbn [mbind option_bind]. set (len := Z.of_nat (length payload)) in *. rewrite (u16_small (20 + len)) by lia. cbn [n_ip set_field].
  destruct (ipv4_fill_ok 4294967295 proto (20 + len) (local_ip (n_ip s)) (ip_id_counter (n_ip s)) p (20 + length payload))
    as (q & E1 & Hwq & _ & Hhq & _ & Hbq); [done|lia|unfold PKT_MAX_LEN; lia|lia|done|lia|apply Hok|apply Hok|].
  rewrite E1. cbn [mbind option_bind].
  destruct (put_bytes_ok 20 payload q (20 + length payload)) as (q' & -> & Hwq' & _ & Hhq' & _); [done|lia|done|lia|unfold PKT_MAX_LEN; lia|].
  cbn [mbind option_bind]. change (4294967295 =? 4294967295) with true. cbn iota.
  match goal with |- context [put_pkt i ?x ?y] => set (qq := x); set (ss := y) end.
  assert (Hwqq : pkt_wf qq).
  { destruct Hwq' as [A1 A2 A3 A4 A5]. split; cbn -[PKT_MAX_LEN]; try done; unfold PKT_MAX_LEN; lia. }
  destruct (ethernet_tx_total broadcast_mac 2048 i (put_pkt i qq ss) qq) as (r & t & -> & Hbt & Hk & Hip).
  - unfold get_pkt. cbn. apply list_lookup_insert_eq. by eapply lookup_lt_Some.
  - done.
  - change (14 ≤ pk_head q'). lia.
  - split; [done|]. apply Forall_replicate. unfold byte. lia.
  - apply Hok.
  - lia.
  - apply net_bufs_put; [split; [apply Hwqq|apply Hwqq]|done].
  - eexists _, _. split; [done|]. split.
    + destruct Hok as [_ M A D]. destruct Hk as [_ _ _ _ _ _ Km _ _]. split; [done|by rewrite Km|by rewrite Hip|rewrite Hip; apply u16_range].
    + eapply net_keeps_trans; [|exact Hk]. by split.
Qed.

(** * Examples *)

Definition zero_net : net :=
  mk_net example_pkts zero_fw empty_routing zero_arp (mk_ip 33554442 16777215 0 7)
    (replicate 64 (mk_udp 0 false (replicate 4096 0) 0 0 0 false))
    (mk_tcps (replicate 128 (mk_tcp 0 0 0 0 TCP_CLOSED 0 0 0 0 0 (replicate 8192 0) 0 0 0 false false)) 49152)
    (mk_v6 (replicate 64 (mk_nd (replicate 16 0) (replicate 6 0) 0 false)) (replicate 16 0) (replicate 16 0) false)
    [2; 174; 97; 91; 12; 1] (mk_nic true [] [] []).

Lemma zero_net_pool : pool ∅ zero_net.
Proof. split; [vm_compute; reflexivity|]. left. split; reflexivity. Qed.

Lemma zero_net_ok : net_ok zero_net.
Proof.
  split.
  - apply Forall_replicate. split; [vm_compute; reflexivity|]. apply Forall_replicate. unfold byte. lia.
  - split; [reflexivity|]. repeat (apply Forall_cons; split; [unfold byte; lia|]). apply Forall_nil. done.
  - cbn. lia.
  - cbn. lia.
Qed.

Lemma no_buffers_used : (∅ : gset nat) ≠ all_buffers.
Proof. intros E. assert (0%nat ∈ (∅ : gset nat)) as H; [rewrite E; unfold all_buffers; by apply elem_of_list_to_set, elem_of_seq|set_solver]. Qed.

Lemma ipv4_send_frame_witness :
  ∃ t, ipv4_send 4294967295 17 [1; 2; 3] zero_net = Some (AEGIS_OK, t) ∧
    nic_sent (n_nic t) = [replicate 6 255 ++ [2; 174; 97; 91; 12; 1; 8; 0; 69; 0; 0; 23; 0; 7; 64; 0; 64; 17; 48; 206; 10; 0; 0; 2;
      255; 255; 255; 255; 1; 2; 3]].
Proof.
  destruct (ipv4_send_frame ∅ zero_net 4294967295 17 [1; 2; 3] broadcast_mac) as (_ & t & Hs & _ & Hsent & _).
  - apply zero_net_pool.
  - intros E. assert (0%nat ∈ all_buffers) as H by (unfold all_buffers; apply elem_of_list_to_set, elem_of_seq; split; [lia|]; vm_compute; lia).
    rewrite <-E in H. set_solver.
  - apply zero_net_ok.
  - reflexivity.
  - lia.
  - unfold byte. lia.
  - repeat (apply Forall_cons; split; [unfold byte; lia|]). apply Forall_nil. done.
  - cbn. lia.
  - reflexivity.
  - split; [reflexivity|]. apply Forall_replicate. unfold byte. lia.
  - exists t. split; [exact Hs|]. rewrite Hsent. vm_compute. reflexivity.
Defined.

(** A payload of 738 bytes is written past the end of the buffer: the header
    starts in the middle of it, and the length is not checked. *)
Lemma ipv4_send_overflow : ipv4_send 4294967295 17 (replicate 738 0) zero_net = None.
Proof. vm_compute. reflexivity. Qed.
