(* ===== verification/Udp.v ===== *)
(** UDP: net/udp.c, 64 sockets with a one-datagram receive buffer.

    [udp_send] builds the datagram in a 1500-byte array on the stack; [None] is a
    write past its end, or a read past the packet buffer on reception. *)

From S2P Require Import Prelude Links Checksum Packet Routing Firewall Arp Net.

Definition UDP_MAX_SOCKETS : Z := 64.
Definition UDP_RX_BUF_SIZE : Z := 4096.

Definition udp_init (s : net) : net :=
  s <| n_udp ::= fmap (λ k, k <| us_bound := false |> <| us_rx_ready := false |> <| us_rx_len := 0 |>) |>.

Definition udp_bind (port : Z) (s : net) : Z * net :=
  match find_slot (λ k, negb (us_bound k)) (n_udp s) with
  | Some i =>
      (Z.of_nat i, s <| n_udp ::= alter (λ k, k <| us_local_port := port |> <| us_bound := true |>
                          <| us_rx_ready := false |> <| us_rx_len := 0 |>) i |>)
  | None => (-1, s)
  end.

Definition udp_unbind (sock_id : Z) (s : net) : net :=
  if (0 <=? sock_id) && (sock_id <? UDP_MAX_SOCKETS)
  then s <| n_udp ::= alter (λ k, k <| us_bound := false |>) (Z.to_nat sock_id) |>
  else s.

Definition port_slot (port : Z) (s : net) : option nat :=
  find_slot (λ k, us_bound k && (us_local_port k =? port)) (n_udp s).

(** [i] is the packet, not NULL. *)
Definition udp_rx (i : nat) (src_ip : Z) (s : net) : option net :=
  p ← get_pkt i s;
  if pk_len p <? 8 then Some (free_pkt i s)
  else
    src ← get16 p 0;
    dst ← get16 p 2;
    len ← get16 p 4;
    let dst_port := swap16 dst in
    let src_port := swap16 src in
    let payload_len := u16 (swap16 len - 8) in
    match port_slot dst_port s with
    | Some j =>
        let copy := if payload_len <? UDP_RX_BUF_SIZE then payload_len else UDP_RX_BUF_SIZE in
        payload ← get_bytes p 8 (Z.to_nat copy);
        Some (free_pkt i (s <| n_udp ::= alter (λ k, k <| us_rx_buf ::= λ b, payload ++ drop (Z.to_nat copy) b |>
          <| us_rx_len := copy |> <| us_rx_src_ip := src_ip |> <| us_rx_src_port := src_port |> <| us_rx_ready := true |>) j |>))
    | None => Some (free_pkt i s)
    end.

(** The 12 bytes of the pseudo header; [length] is stored in network order. *)
Definition pseudo_header (src dst protocol total : Z) : list Z := le32 src ++ le32 dst ++ [0; protocol] ++ be16 total.

(** The datagram with its checksum field still 0. *)
Definition udp_fields (src_port dst_port total : Z) (data : list Z) : list Z :=
  be16 src_port ++ be16 dst_port ++ be16 total ++ [0; 0] ++ data.

Definition udp_sum (src_ip dst_ip total : Z) (packet : list Z) : Z :=
  let c := finish (sum16 packet (sum16 (pseudo_header src_ip dst_ip 17 total) 0)) in
  if c =? 0 then 65535 else c.

(** [data] is not NULL. *)
Definition udp_send (dst_ip dst_port src_port : Z) (data : list Z) (s : net) : option (Z * net) :=
  let len := Z.of_nat (length data) in
  if len =? 0 then Some (-1, s)
  else
    let total := u16 (8 + len) in
    if 1500 <? total then Some (-1, s)
    else if 1500 <? 8 + len then None
    else
      let packet := udp_fields src_port dst_port total data in
      ipv4_send dst_ip 17 (set_word 3 (udp_sum (ipv4_get_addr s) dst_ip total packet) packet) s.

(** The result, the bytes stored to [buf], the source address and port. *)
Definition udp_recv (sock_id max_len : Z) (s : net) : option (Z * list Z * Z * Z) * net :=
  if (sock_id <? 0) || (UDP_MAX_SOCKETS <=? sock_id) then (None, s)
  else
    match n_udp s !! Z.to_nat sock_id with
    | Some k =>
        if negb (us_bound k) || negb (us_rx_ready k) then (None, s)
        else
          let copy := if us_rx_len k <? max_len then us_rx_len k else max_len in
          (Some (copy, take (Z.to_nat copy) (us_rx_buf k), us_rx_src_ip k, us_rx_src_port k),
           s <| n_udp ::= alter (λ k, k <| us_rx_ready := false |> <| us_rx_len := 0 |>) (Z.to_nat sock_id) |>)
    | None => (None, s)
    end.

(** * Proofs *)

Lemma udp_rx_pool own i src s t :
  pool ({[i]} ∪ own) s → ¬ i ∈ own → udp_rx i src s = Some t → pool own t.
Proof.
  intros Hs Hi H. unfold udp_rx in H. bind_inv H. destruct (_ <? 8); [injection H as <-; by apply pool_free_new|]. bind_inv H.
  destruct (port_slot _ s) as [j|]; [|injection H as <-; by apply pool_free_new]. cbn zeta in H. bind_inv H. injection H as <-.
  apply pool_free_new; [|done]. by eapply pool_ext; [|exact Hs].
Qed.

Lemma udp_send_pool own ip dp sp data s r t : pool own s → udp_send ip dp sp data s = Some (r, t) → pool own t.
Proof.
  intros Hs H. unfold udp_send in H. cbn zeta in H. destruct (_ =? 0); [by injection H as <- <-|].
  destruct (1500 <? u16 _); [by injection H as <- <-|]. destruct (1500 <? _); [done|]. by eapply ipv4_send_pool.
Qed.

Lemma udp_send_keeps ip dp sp data s r t : udp_send ip dp sp data s = Some (r, t) → net_keeps s t.
Proof.
  unfold udp_send. intros H. cbn zeta in H. destruct (_ =? 0); [injection H as <- <-; apply net_keeps_refl|].
  destruct (1500 <? u16 _); [injection H as <- <-; apply net_keeps_refl|]. destruct (1500 <? _); [done|]. by eapply ipv4_send_keeps.
Qed.

(** The datagram [udp_send] hands to [ipv4_send]. *)
Definition udp_datagram (src_ip dst_ip src_port dst_port : Z) (data : list Z) : list Z :=
  let total := 8 + Z.of_nat (length data) in
  let packet := udp_fields src_port dst_port total data in
  set_word 3 (udp_sum src_ip dst_ip total packet) packet.

Lemma udp_send_datagram dst_ip dp sp data s :
  (0 < length data ≤ 1492)%nat →
  udp_send dst_ip dp sp data s = ipv4_send dst_ip 17 (udp_datagram (ipv4_get_addr s) dst_ip sp dp data) s.
Proof.
  intros Hl. unfold udp_send. cbn zeta. replace (_ =? 0) with false by lia. rewrite u16_small by lia.
  destruct (Z.ltb_spec 1500 (8 + Z.of_nat (length data))); [lia|]. done.
Qed.

(** The one's-complement sum of pseudo header and datagram is 0xFFFF. *)
Lemma checksum_completes s c : 0 ≤ s < 2 ^ 32 → c = finish s → ones_sum (s + (if c =? 0 then 65535 else c)) = 65535.
Proof.
  intros Hs ->. rewrite finish_spec by done. pose proof (ones_sum_range s ltac:(lia)) as [Hr _].
  pose proof (ones_sum_mod s ltac:(lia)) as Hm. revert Hr Hm. generalize (ones_sum s) as o. intros o Hr Hm.
  unfold ones_sum. destruct (Z.eqb_spec (65535 - o) 0) as [E|E].
  - destruct (Z.eqb_spec (s + 65535) 0); divlia.
  - destruct (Z.eqb_spec (s + (65535 - o)) 0); divlia.
Qed.

Lemma get_bytes_hbytes p (k n : nat) :
  pkt_wf p → pk_head p + Z.of_nat k + Z.of_nat n ≤ PKT_MAX_LEN → get_bytes p (Z.of_nat k) n = Some (drop k (hbytes p (k + n))).
Proof.
  intros Hw Hr. pose proof (pw_head _ Hw). rewrite get_bytes_spec by (done || lia). f_equal. unfold hbytes.
  rewrite skipn_firstn_comm, drop_drop. f_equal; [lia|]. f_equal. lia.
Qed.

(** Reading a 16-bit field stored in network order. *)
Lemma get16_be16 p n o v :
  0 ≤ pk_head p → 0 ≤ o → o + 1 < Z.of_nat n → 0 ≤ v < 65536 →
  hbytes p n !! Z.to_nat o = Some (v / 256) → hbytes p n !! Z.to_nat (o + 1) = Some (v mod 256) →
  swap16 <$> get16 p o = Some v.
Proof.
  intros Hh Ho Hn Hv E1 E2. rewrite hbytes_lookup in E1, E2 by lia. unfold get16. rewrite E1, E2. cbn. f_equal.
  rewrite swap16_spec by divlia. divlia.
Qed.

Lemma datagram_eq a b sp dp data :
  ∃ c0 c1, udp_datagram a b sp dp data =
    be16 sp ++ be16 dp ++ be16 (8 + Z.of_nat (length data)) ++ [c0; c1] ++ data.
Proof. eexists _, _. unfold udp_datagram, udp_fields. cbn zeta. unfold set_word, be16. cbn. reflexivity. Qed.

Lemma le32_word v : word_sum (le32 v) = v mod 65536 + v / 65536.
Proof. unfold le32. cbn. divlia. Qed.

Lemma word_sum_app a b : Nat.Even (length a) → word_sum (a ++ b) = word_sum a + word_sum b.
Proof.
  induction a as [|x|x y r IH] using pairs_ind; intros He; cbn [app word_sum]; [done| |].
  - destruct He as [k Hk]. cbn in Hk. lia.
  - rewrite IH; [lia|]. destruct He as [k Hk]. cbn in Hk. exists (k - 1)%nat. lia.
Qed.

Lemma pseudo_bytes src dst proto total :
  0 ≤ src < 2 ^ 32 → 0 ≤ dst < 2 ^ 32 → byte proto → 0 ≤ total < 65536 → Forall byte (pseudo_header src dst proto total).
Proof.
  intros. unfold pseudo_header, le32, be16, byte in *. repeat (apply Forall_cons; split); try apply Forall_nil; try lia; try done; divlia.
Qed.

Lemma udp_datagram_sum src_ip dst_ip sp dp data :
  0 ≤ src_ip < 2 ^ 32 → 0 ≤ dst_ip < 2 ^ 32 → 0 ≤ sp < 65536 → 0 ≤ dp < 65536 → Forall byte data →
  8 + Z.of_nat (length data) < 65500 →
  ones_sum (word_sum (pseudo_header src_ip dst_ip 17 (8 + Z.of_nat (length data)) ++ udp_datagram src_ip dst_ip sp dp data)) = 65535.
Proof.
  intros Hsrc Hdst Hsp Hdp Hdata Hn. unfold udp_datagram. cbn zeta. set (n := length data) in *.
  set (pk := udp_fields sp dp (8 + Z.of_nat n) data).
  assert (Hpk : Forall byte pk).
  { unfold pk, udp_fields, be16, byte. repeat (apply Forall_cons; split); try done; divlia. }
  assert (Hlp : length pk = (8 + n)%nat) by done.
  pose proof (pseudo_bytes src_ip dst_ip 17 (8 + Z.of_nat n) Hsrc Hdst ltac:(done) ltac:(lia)) as Hps.
  set (ps := pseudo_header _ _ _ _) in *. assert (Hlps : length ps = 12%nat) by done.
  pose proof (word_sum_bound _ Hpk) as Hb1. pose proof (word_sum_bound _ Hps) as Hb2.
  rewrite word_sum_app by (exists 6%nat; done). rewrite word_sum_set by (rewrite Hlp; lia).
  assert (get_word pk 3 = 0) as -> by reflexivity. unfold udp_sum. fold ps.
  rewrite (sum16_spec ps), (sum16_spec pk) by (done || lia). rewrite Z.add_0_l, Z.sub_0_r, Z.add_assoc.
  apply checksum_completes; [lia|done].
Qed.

Lemma udp_datagram_bytes src dst sp dp data :
  0 ≤ sp < 65536 → 0 ≤ dp < 65536 → Forall byte data → (length data ≤ 1492)%nat → Forall byte (udp_datagram src dst sp dp data).
Proof.
  intros Hsp Hdp Hd Hl. unfold udp_datagram. cbn zeta. set (v := udp_sum _ _ _ _).
  assert (0 ≤ v < 65536) as Hv.
  { unfold v, udp_sum. cbn zeta. case_match; [lia|]. apply finish_range. }
  unfold set_word. apply Forall_insert; [apply Forall_insert|unfold byte; divlia]; [|unfold byte; divlia].
  unfold udp_fields, be16. rewrite !Forall_app. split_and!; try done;
    repeat (apply Forall_cons; split; [unfold byte; divlia|]); by apply Forall_nil.
Qed.

(** * Theorems *)

(** Datagrams are delivered.  A packet that carries the datagram [udp_send]
    builds is copied without an access outside the buffer to the first socket
    bound to its destination port; [udp_recv] on that socket returns exactly the
    data, the source address and the source port, other sockets are unchanged,
    and the buffer goes back to the pool.  The checksum in the datagram makes
    the one's-complement sum of pseudo header and datagram 0xFFFF. *)
Theorem udp_delivers own s i p src_ip dst_ip sp dp data j k max :
  pool ({[i]} ∪ own) s → ¬ i ∈ own → get_pkt i s = Some p → pkt_wf p →
  0 ≤ src_ip < 2 ^ 32 → 0 ≤ dst_ip < 2 ^ 32 → 0 ≤ sp < 65536 → 0 ≤ dp < 65536 → Forall byte data →
  pk_len p = 8 + Z.of_nat (length data) → hbytes p (8 + length data) = udp_datagram src_ip dst_ip sp dp data →
  port_slot dp s = Some j → (j < 64)%nat → n_udp s !! j = Some k → length (us_rx_buf k) = 4096%nat →
  Z.of_nat (length data) ≤ max →
  ones_sum (word_sum (pseudo_header src_ip dst_ip 17 (8 + Z.of_nat (length data)) ++ udp_datagram src_ip dst_ip sp dp data)) = 65535 ∧
  ∃ t u, udp_rx i src_ip s = Some t ∧ pool own t ∧
    udp_recv (Z.of_nat j) max t = (Some (Z.of_nat (length data), data, src_ip, sp), u) ∧
    (∀ j', j' ≠ j → n_udp u !! j' = n_udp s !! j').
Proof.
  intros Hpool Hi Hp Hw Hsrc Hdst Hsp Hdp Hdata Hlen Hb Hslot Hj Hk Hbuf Hmax.
  pose proof (pw_head _ Hw) as Hh. pose proof (pw_room _ Hw) as Hroom. unfold PKT_MAX_LEN in Hroom.
  set (n := length data) in *. split.
  { by apply udp_datagram_sum; [..|lia]. }
  destruct (datagram_eq src_ip dst_ip sp dp data) as (c0 & c1 & Ed). rewrite Ed in Hb. fold n in Hb.
  assert (Hf : ∀ o v, 0 ≤ v < 65536 → 0 ≤ o < 6 → hbytes p (8 + n) !! Z.to_nat o = Some (v / 256) →
    hbytes p (8 + n) !! Z.to_nat (o + 1) = Some (v mod 256) → ∃ w, get16 p o = Some w ∧ swap16 w = v).
  { intros o v Hv Ho E1 E2. pose proof (get16_be16 p (8 + n) o v Hh ltac:(lia) ltac:(lia) Hv E1 E2) as E.
    apply fmap_Some in E as (w & Hw' & ->). by exists w. }
  destruct (Hf 0 sp) as (w0 & E0 & S0); [done|lia|by rewrite Hb|by rewrite Hb|].
  destruct (Hf 2 dp) as (w1 & E1 & S1); [done|lia|by rewrite Hb|by rewrite Hb|].
  destruct (Hf 4 (8 + Z.of_nat n)) as (w2 & E2 & S2); [lia|lia|by rewrite Hb|by rewrite Hb|].
  unfold udp_rx. rewrite Hp. cbn [mbind option_bind]. replace (pk_len p <? 8) with false by lia.
  rewrite E0, E1, E2. cbn [mbind option_bind]. rewrite S0, S1, S2, Hslot. rewrite u16_small by lia.
  unfold UDP_RX_BUF_SIZE. replace (8 + Z.of_nat n - 8 <? 4096) with true by lia. replace (Z.to_nat (8 + Z.of_nat n - 8)) with n by lia.
  change (get_bytes p 8 n) with (get_bytes p (Z.of_nat 8) n). rewrite (get_bytes_hbytes p 8 n) by (done || unfold PKT_MAX_LEN; lia). rewrite Hb. cbn [mbind option_bind]. unfold be16. cbn [app drop].
  eexists _, _. split; [reflexivity|]. split; [apply pool_free_new; [by eapply pool_ext; [|exact Hpool]|done]|].
  unfold udp_recv, UDP_MAX_SOCKETS. replace ((Z.of_nat j <? 0) || (64 <=? Z.of_nat j)) with false by lia. rewrite Nat2Z.id.
  cbn [n_udp free_pkt set_field]. rewrite list_lookup_alter_eq, Hk. cbn [fmap option_fmap option_map].
  assert (us_bound k = true) as Hbd.
  { unfold port_slot in Hslot. apply find_slot_Some in Hslot as (k' & Hk' & [? _]%andb_true_iff & _). congruence. }
  cbn [us_bound us_rx_ready us_rx_len us_rx_buf us_rx_src_ip us_rx_src_port set_field]. rewrite Hbd. cbn [negb orb].
  assert ((if 8 + Z.of_nat n - 8 <? max then 8 + Z.of_nat n - 8 else max) = Z.of_nat n) as -> by (destruct (Z.ltb_spec (8 + Z.of_nat n - 8) max); lia).
  rewrite Nat2Z.id. unfold n. rewrite take_app_length. split; [reflexivity|].
  intros j' Hj'. cbn [n_udp set_field]. by rewrite !list_lookup_alter_ne by done.
Qed.

(** Port 68 is bound to socket 0; buffer 63 holds the datagram [1; 2; 3]. *)
Definition udp_example : net :=
  let s := snd (udp_bind 68 zero_net) in
  let s := snd (alloc_pkt s) in
  put_pkt 63 (pkt_of 757 (udp_datagram 5 6 67 68 [1; 2; 3])) s.

Lemma udp_example_pool : pool ({[63%nat]} ∪ ∅) udp_example.
Proof.
  assert (Ea : fst (alloc_pkt (snd (udp_bind 68 zero_net))) = Some 63%nat) by (vm_compute; reflexivity).
  destruct (alloc_pkt (snd (udp_bind 68 zero_net))) as [r s] eqn:E. cbn in Ea. subst r.
  destruct (pool_alloc ∅ (snd (udp_bind 68 zero_net)) 63 s) as [Hs _]; [|done|].
  { eapply pool_ext; [|apply zero_net_pool]. reflexivity. }
  assert (En : pk_next <$> get_pkt 63 s = Some None).
  { replace s with (snd (alloc_pkt (snd (udp_bind 68 zero_net)))) by by rewrite E. vm_compute. reflexivity. }
  destruct (get_pkt 63 s) as [p|] eqn:Ep; [|done]. unfold udp_example. cbn zeta. rewrite E. cbn [snd].
  eapply (pool_put _ s 63 p); [exact Hs|set_solver|exact Ep|]. cbn in En. injection En as ->. reflexivity.
Qed.

Lemma udp_delivers_witness :
  ∃ t u, udp_rx 63 5 udp_example = Some t ∧ udp_recv 0 100 t = (Some (3, [1; 2; 3], 5, 67), u).
Proof.
  destruct (udp_delivers ∅ udp_example 63 (pkt_of 757 (udp_datagram 5 6 67 68 [1; 2; 3])) 5 6 67 68 [1; 2; 3] 0
    (mk_udp 68 true (replicate 4096 0) 0 0 0 false) 100) as (_ & t & u & H1 & _ & H2 & _).
  - apply udp_example_pool.
  - set_solver.
  - vm_compute. reflexivity.
  - apply pkt_of_wf; vm_compute; first [reflexivity|discriminate].
  - lia.
  - lia.
  - lia.
  - lia.
  - repeat (apply Forall_cons; split; [unfold byte; lia|]). apply Forall_nil. done.
  - vm_compute. reflexivity.
  - vm_compute. reflexivity.
  - vm_compute. reflexivity.
  - lia.
  - vm_compute. reflexivity.
  - vm_compute. reflexivity.
  - cbn. lia.
  - exists t, u. split; [exact H1|exact H2].
Defined.

(** The length field is neither compared with the packet nor with 8: a datagram
    of 8 bytes that claims 7 makes the handler read 4096 bytes of the buffer. *)
Definition short_datagram : pktbuf := pkt_of 757 [0; 67; 0; 68; 0; 7; 0; 0].
Lemma udp_rx_length_underflow : udp_rx 63 5 (put_pkt 63 short_datagram udp_example) = None.
Proof. vm_compute. reflexivity. Qed.

(** [8 + len] is reduced modulo 2^16 before the size check. *)
Lemma udp_send_length_wraps : udp_send 4294967295 68 67 (repeat 0 (Z.to_nat 65530)) zero_net = None.
Proof. vm_compute. reflexivity. Qed.
