(* ===== verification/Tcp.v ===== *)
(** TCP: net/tcp.c, 128 connections.

    [tcp_input] is the switch of [tcp_rx] for a segment that belongs to a
    connection; [None] is an access outside a buffer.  The array [tx_buf] of a
    connection is never used by the code and is left out. *)

From S2P Require Import Prelude Links Checksum Packet Routing Firewall Arp Net Udp.

Definition TCP_FLAG_FIN : Z := 1.
Definition TCP_FLAG_SYN : Z := 2.
Definition TCP_FLAG_RST : Z := 4.
Definition TCP_FLAG_PSH : Z := 8.
Definition TCP_FLAG_ACK : Z := 16.
Definition TCP_MAX_CONNECTIONS : Z := 128.
Definition TCP_WINDOW_SIZE : Z := 65535.
Definition TCP_MSS : Z := 1460.
Definition RX_BUF_SIZE : Z := 8192.

(** [__builtin_bswap32] and the bytes of a u32 in network order. *)
Definition bswap32 (v : Z) : Z :=
  v / 16777216 + 256 * (v / 65536 mod 256) + 65536 * (v / 256 mod 256) + 16777216 * (v mod 256).
Definition be32 (v : Z) : list Z := le32 (bswap32 v).

Definition tcp_checksum (src_ip dst_ip : Z) (tcp_data : list Z) : Z :=
  finish (sum16 tcp_data (sum16 (pseudo_header src_ip dst_ip 6 (Z.of_nat (length tcp_data))) 0)).

Definition tcp_init (s : net) : net :=
  s <| n_tcp ::= λ t, t <| connections ::= fmap (λ c, c <| tc_active := false |> <| tc_state := TCP_CLOSED |>) |> |>.

Definition conn_matches (remote_ip remote_port local_port : Z) (c : tcp_conn) : bool :=
  tc_active c && (tc_remote_ip c =? remote_ip) && (tc_remote_port c =? remote_port) && (tc_local_port c =? local_port).
Definition listens_on (local_port : Z) (c : tcp_conn) : bool :=
  tc_active c && bool_decide (tc_state c = TCP_LISTEN) && (tc_local_port c =? local_port).

Definition tcp_find_conn (remote_ip remote_port local_port : Z) (s : net) : option nat :=
  match find_slot (conn_matches remote_ip remote_port local_port) (connections (n_tcp s)) with
  | Some i => Some i
  | None => find_slot (listens_on local_port) (connections (n_tcp s))
  end.

(** [connections[i] = f(connections[i])] *)
Definition upd_conn (i : nat) (f : tcp_conn → tcp_conn) (s : net) : net :=
  s <| n_tcp ::= λ t, t <| connections ::= alter f i |> |>.

Definition tcp_alloc_conn (s : net) : option nat * net :=
  match find_slot (λ c, negb (tc_active c)) (connections (n_tcp s)) with
  | Some i =>
      (Some i, upd_conn i (λ c, c <| tc_active := true |> <| tc_rx_len := 0 |> <| tc_tx_len := 0 |>
                  <| tc_retransmit_count := 0 |> <| tc_accepted := false |>) s)
  | None => (None, s)
  end.

(** The header with checksum 0, followed by the data. *)
Definition tcp_fields (c : tcp_conn) (flags : Z) (data : list Z) : list Z :=
  be16 (tc_local_port c) ++ be16 (tc_remote_port c) ++ be32 (tc_snd_nxt c) ++ be32 (tc_rcv_nxt c) ++
  [80; flags] ++ be16 (tc_rcv_wnd c) ++ [0; 0; 0; 0] ++ data.

(** [data = NULL, len = 0] is the empty list.  The segment is built in an array
    of [TCP_MSS + 20] bytes. *)
Definition tcp_send_segment (i : nat) (flags : Z) (data : list Z) (s : net) : option (Z * net) :=
  c ← connections (n_tcp s) !! i;
  let len := Z.of_nat (length data) in
  if TCP_MSS <? len then None
  else
    let segment := tcp_fields c flags data in
    let segment := set_word 8 (tcp_checksum (tc_local_ip c) (tc_remote_ip c) segment) segment in
    let nxt := if has_flag flags TCP_FLAG_SYN then u32 (tc_snd_nxt c + 1) else tc_snd_nxt c in
    let nxt := if has_flag flags TCP_FLAG_FIN then u32 (nxt + 1) else nxt in
    let nxt := u32 (nxt + len) in
    ipv4_send (tc_remote_ip c) 6 segment (upd_conn i (λ c, c <| tc_snd_nxt := nxt |>) s).

(** A received segment: the fields of the header, the length of the payload and
    the bytes after the header. *)
Record segment := mk_seg {
  sg_src_port : Z;
  sg_dst_port : Z;
  sg_seq : Z;
  sg_ack : Z;
  sg_flags : Z;
  sg_payload_len : Z;
  sg_payload : Z → option (list Z);
}.

Definition tcp_parse (p : pktbuf) : option segment :=
  src ← get16 p 0;
  dst ← get16 p 2;
  seq ← get32 p 4;
  ack ← get32 p 8;
  off ← get8 p 12;
  flags ← get8 p 13;
  let data_off := u8 (Z.shiftr off 4 * 4) in
  Some (mk_seg (swap16 src) (swap16 dst) (bswap32 seq) (bswap32 ack) flags (u16 (pk_len p - data_off))
    (λ n, get_bytes p data_off (Z.to_nat n))).

(** The data branch of state ESTABLISHED. *)
Definition tcp_data (g : segment) (c : tcp_conn) : option (tcp_conn * bool) :=
  if (0 <? sg_payload_len g) && (sg_seq g =? tc_rcv_nxt c) then
    let space := u32 (RX_BUF_SIZE - tc_rx_len c) in
    let copy := if sg_payload_len g <? space then sg_payload_len g else space in
    payload ← sg_payload g copy;
    if RX_BUF_SIZE <? tc_rx_len c + copy then None
    else Some (c <| tc_rx_buf ::= splice (Z.to_nat (tc_rx_len c)) payload |> <| tc_rx_len := u32 (tc_rx_len c + copy) |>
                 <| tc_rcv_nxt := u32 (tc_rcv_nxt c + copy) |>, true)
  else Some (c, false).

(** New connection block and whether an ACK is sent. *)
Definition tcp_input (g : segment) (c : tcp_conn) : option (tcp_conn * bool) :=
  let fin := has_flag (sg_flags g) TCP_FLAG_FIN in
  let ack := has_flag (sg_flags g) TCP_FLAG_ACK in
  let after_fin st := Some (c <| tc_rcv_nxt := u32 (sg_seq g + 1) |> <| tc_state := st |>, true) in
  match tc_state c with
  | TCP_SYN_SENT =>
      if Z.land (sg_flags g) (Z.lor TCP_FLAG_SYN TCP_FLAG_ACK) =? Z.lor TCP_FLAG_SYN TCP_FLAG_ACK
      then Some (c <| tc_rcv_nxt := u32 (sg_seq g + 1) |> <| tc_snd_una := sg_ack g |> <| tc_state := TCP_ESTABLISHED |>, true)
      else Some (c, false)
  | TCP_SYN_RECEIVED =>
      if ack then Some (c <| tc_snd_una := sg_ack g |> <| tc_state := TCP_ESTABLISHED |>, false) else Some (c, false)
  | TCP_ESTABLISHED =>
      if fin then after_fin TCP_CLOSE_WAIT
      else if ack then tcp_data g (c <| tc_snd_una := sg_ack g |>)
      else Some (c, false)
  | TCP_FIN_WAIT_1 =>
      if ack && fin then after_fin TCP_TIME_WAIT
      else if ack then Some (c <| tc_state := TCP_FIN_WAIT_2 |>, false)
      else if fin then after_fin TCP_CLOSING
      else Some (c, false)
  | TCP_FIN_WAIT_2 => if fin then after_fin TCP_TIME_WAIT else Some (c, false)
  | TCP_LAST_ACK =>
      if ack then Some (c <| tc_state := TCP_CLOSED |> <| tc_active := false |>, false) else Some (c, false)
  | _ => Some (c, false)
  end.

(** A SYN for a listening port. *)
Definition tcp_passive_open (g : segment) (src_ip : Z) (s : net) : option net :=
  match tcp_alloc_conn s with
  | (None, s) => Some s
  | (Some n, s) =>
      let s := upd_conn n (λ c, c <| tc_local_ip := ipv4_get_addr s |> <| tc_local_port := sg_dst_port g |>
        <| tc_remote_ip := src_ip |> <| tc_remote_port := sg_src_port g |> <| tc_state := TCP_SYN_RECEIVED |>
        <| tc_rcv_nxt := u32 (sg_seq g + 1) |> <| tc_snd_nxt := 1000 |> <| tc_snd_wnd := TCP_WINDOW_SIZE |>
        <| tc_rcv_wnd := TCP_WINDOW_SIZE |>) s in
      '(_, s) ← tcp_send_segment n (Z.lor TCP_FLAG_SYN TCP_FLAG_ACK) [] s;
      Some s
  end.

(** [i] is the packet, not NULL. *)
Definition tcp_rx (i : nat) (src_ip : Z) (s : net) : option net :=
  p ← get_pkt i s;
  if pk_len p <? 20 then Some (free_pkt i s)
  else
    g ← tcp_parse p;
    match tcp_find_conn src_ip (sg_src_port g) (sg_dst_port g) s with
    | None => Some (free_pkt i s)
    | Some n =>
        c ← connections (n_tcp s) !! n;
        match tc_state c with
        | TCP_LISTEN =>
            if has_flag (sg_flags g) TCP_FLAG_SYN
            then s ← tcp_passive_open g src_ip s; Some (free_pkt i s)
            else Some (free_pkt i s)
        | _ =>
            '(c, reply) ← tcp_input g c;
            let s := upd_conn n (λ _, c) s in
            if (reply : bool) then '(_, s) ← tcp_send_segment n TCP_FLAG_ACK [] s; Some (free_pkt i s)
            else Some (free_pkt i s)
        end
    end.

Definition tcp_listen (port : Z) (s : net) : Z * net :=
  match tcp_alloc_conn s with
  | (None, s) => (-1, s)
  | (Some n, s) =>
      (Z.of_nat n, upd_conn n (λ c, c <| tc_local_ip := ipv4_get_addr s |> <| tc_local_port := port |>
                     <| tc_state := TCP_LISTEN |> <| tc_rcv_wnd := TCP_WINDOW_SIZE |>) s)
  end.

Definition tcp_connect (remote_ip remote_port : Z) (s : net) : option (Z * net) :=
  match tcp_alloc_conn s with
  | (None, s) => Some (-1, s)
  | (Some n, s) =>
      let port := next_ephemeral_port (n_tcp s) in
      let s := s <| n_tcp ::= λ t, t <| next_ephemeral_port := u16 (port + 1) |> |> in
      let s := upd_conn n (λ c, c <| tc_local_ip := ipv4_get_addr s |> <| tc_local_port := port |>
        <| tc_remote_ip := remote_ip |> <| tc_remote_port := remote_port |> <| tc_state := TCP_SYN_SENT |>
        <| tc_snd_nxt := 5000 |> <| tc_rcv_wnd := TCP_WINDOW_SIZE |> <| tc_snd_wnd := TCP_WINDOW_SIZE |>) s in
      '(_, s) ← tcp_send_segment n TCP_FLAG_SYN [] s;
      Some (Z.of_nat n, s)
  end.

(** The segmentation loops of [tcp_send] and [tcp_send_id]; [stop] says whether a
    failed transmission ends the loop.  One unit of fuel per chunk. *)
Fixpoint send_chunks (fuel n : nat) (stop : bool) (data : list Z) (s : net) : option (Z * net) :=
  match fuel with
  | O => Some (0, s)
  | S fuel =>
      match data with
      | [] => Some (0, s)
      | _ =>
          '(r, s) ← tcp_send_segment n (Z.lor TCP_FLAG_ACK TCP_FLAG_PSH) (take (Z.to_nat TCP_MSS) data) s;
          if stop && negb (r =? 0) then Some (-1, s)
          else send_chunks fuel n stop (drop (Z.to_nat TCP_MSS) data) s
      end
  end.

Definition tcp_send (local_port remote_ip remote_port : Z) (data : list Z) (s : net) : option (Z * net) :=
  match tcp_find_conn remote_ip remote_port local_port s with
  | None => Some (-1, s)
  | Some n =>
      c ← connections (n_tcp s) !! n;
      if bool_decide (tc_state c = TCP_ESTABLISHED)
      then '(_, s) ← send_chunks (length data) n false data s; Some (0, s)
      else Some (-1, s)
  end.

Definition fin_ack : Z := Z.lor TCP_FLAG_FIN TCP_FLAG_ACK.

Definition tcp_close (local_port remote_ip remote_port : Z) (s : net) : option (Z * net) :=
  match tcp_find_conn remote_ip remote_port local_port s with
  | None => Some (-1, s)
  | Some n =>
      c ← connections (n_tcp s) !! n;
      match tc_state c with
      | TCP_ESTABLISHED =>
          '(_, s) ← tcp_send_segment n fin_ack [] (upd_conn n (λ c, c <| tc_state := TCP_FIN_WAIT_1 |>) s); Some (0, s)
      | TCP_CLOSE_WAIT =>
          '(_, s) ← tcp_send_segment n fin_ack [] (upd_conn n (λ c, c <| tc_state := TCP_LAST_ACK |>) s); Some (0, s)
      | _ => Some (0, s)
      end
  end.

Definition acceptable (l c : tcp_conn) : bool :=
  tc_active c && bool_decide (tc_state c = TCP_ESTABLISHED) && negb (tc_accepted c) &&
  (tc_local_port c =? tc_local_port l) && negb (tc_remote_ip c =? 0).

Definition tcp_accept (listener_id : Z) (s : net) : Z * net :=
  if (listener_id <? 0) || (TCP_MAX_CONNECTIONS <=? listener_id) then (-1, s)
  else
    match connections (n_tcp s) !! Z.to_nat listener_id with
    | Some l =>
        if tc_active l && bool_decide (tc_state l = TCP_LISTEN) then
          match find_slot (acceptable l) (connections (n_tcp s)) with
          | Some i => (Z.of_nat i, upd_conn i (λ c, c <| tc_accepted := true |>) s)
          | None => (-1, s)
          end
        else (-1, s)
    | None => (-1, s)
    end.

(** The result and the bytes stored to [buf], which is not NULL. *)
Definition tcp_recv_id (conn_id max_len : Z) (s : net) : Z * list Z * net :=
  if (conn_id <? 0) || (TCP_MAX_CONNECTIONS <=? conn_id) || (max_len =? 0) then (-1, [], s)
  else
    match connections (n_tcp s) !! Z.to_nat conn_id with
    | Some c =>
        if tc_active c && (bool_decide (tc_state c = TCP_ESTABLISHED) || bool_decide (tc_state c = TCP_CLOSE_WAIT)) then
          if tc_rx_len c =? 0 then (0, [], s)
          else
            let n := if tc_rx_len c <? max_len then tc_rx_len c else max_len in
            (n, take (Z.to_nat n) (tc_rx_buf c),
             upd_conn (Z.to_nat conn_id) (λ c,
               c <| tc_rx_buf ::= λ b, splice 0 (drop (Z.to_nat n) (take (Z.to_nat (tc_rx_len c)) b)) b |>
                 <| tc_rx_len := u32 (tc_rx_len c - n) |>) s)
        else (-1, [], s)
    | None => (-1, [], s)
    end.

(** [data] is not NULL. *)
Definition tcp_send_id (conn_id : Z) (data : list Z) (s : net) : option (Z * net) :=
  let len := Z.of_nat (length data) in
  if (conn_id <? 0) || (TCP_MAX_CONNECTIONS <=? conn_id) || (len =? 0) then Some (-1, s)
  else
    c ← connections (n_tcp s) !! Z.to_nat conn_id;
    if tc_active c && bool_decide (tc_state c = TCP_ESTABLISHED) then
      '(r, s) ← send_chunks (length data) (Z.to_nat conn_id) true data s;
      Some (if r =? 0 then len else -1, s)
    else Some (-1, s).

Definition tcp_close_id (conn_id : Z) (s : net) : option (Z * net) :=
  if (conn_id <? 0) || (TCP_MAX_CONNECTIONS <=? conn_id) then Some (-1, s)
  else
    let n := Z.to_nat conn_id in
    c ← connections (n_tcp s) !! n;
    if negb (tc_active c) then Some (0, s)
    else
      match tc_state c with
      | TCP_LISTEN | TCP_CLOSED | TCP_TIME_WAIT =>
          Some (0, upd_conn n (λ c, c <| tc_active := false |> <| tc_state := TCP_CLOSED |>) s)
      | TCP_ESTABLISHED => tcp_send_segment n fin_ack [] (upd_conn n (λ c, c <| tc_state := TCP_FIN_WAIT_1 |>) s)
      | TCP_CLOSE_WAIT => tcp_send_segment n fin_ack [] (upd_conn n (λ c, c <| tc_state := TCP_LAST_ACK |>) s)
      | _ => Some (0, s)
      end.

Definition tcp_is_established (conn_id : Z) (s : net) : bool :=
  (0 <=? conn_id) && (conn_id <? TCP_MAX_CONNECTIONS) &&
  match connections (n_tcp s) !! Z.to_nat conn_id with
  | Some c => tc_active c && bool_decide (tc_state c = TCP_ESTABLISHED)
  | None => false
  end.

(** * Proofs *)

Lemma tcp_send_segment_conns n fl data s r t :
  tcp_send_segment n fl data s = Some (r, t) →
  ∃ x, connections (n_tcp t) = alter (λ c, c <| tc_snd_nxt := x |>) n (connections (n_tcp s)).
Proof.
  unfold tcp_send_segment. intros H. bind_inv H. cbn zeta in H. destruct (_ <? _); [done|].
  apply ipv4_send_keeps in H. destruct H as [_ _ _ _ -> _ _ _ _]. cbn. by eexists.
Qed.

(** ** Buffers *)

Lemma tcp_send_segment_pool own n fl data s r t :
  pool own s → tcp_send_segment n fl data s = Some (r, t) → pool own t.
Proof.
  unfold tcp_send_segment. intros Hs H. bind_inv H. cbn zeta in H. destruct (_ <? _); [done|].
  eapply ipv4_send_pool; [|exact H]. by eapply pool_ext; [|exact Hs].
Qed.

Lemma tcp_alloc_conn_pool own s r t : pool own s → tcp_alloc_conn s = (r, t) → pool own t.
Proof. unfold tcp_alloc_conn. intros Hs. destruct (find_slot _ _); intros [= <- <-]; [by eapply pool_ext; [|exact Hs]|done]. Qed.

Lemma tcp_passive_open_pool own g src s t : pool own s → tcp_passive_open g src s = Some t → pool own t.
Proof.
  unfold tcp_passive_open. intros Hs H. destruct (tcp_alloc_conn s) as [[n|] u] eqn:E; apply (tcp_alloc_conn_pool own) in E; [|done| |done].
  - cbn zeta in H. bind_inv H. match type of H with context [let '(_, _) := ?x in _] => destruct x as [ret w] end. injection H as <-.
    eapply tcp_send_segment_pool; [|eassumption]. by eapply pool_ext; [|exact E].
  - by injection H as <-.
Qed.

Lemma tcp_rx_pool own i src s t :
  pool ({[i]} ∪ own) s → ¬ i ∈ own → tcp_rx i src s = Some t → pool own t.
Proof.
  intros Hs Hi H. unfold tcp_rx in H. bind_inv H. destruct (_ <? 20); [injection H as <-; by apply pool_free_new|]. bind_inv H.
  destruct (tcp_find_conn _ _ _ s) as [n|]; [|injection H as <-; by apply pool_free_new]. bind_inv H.
  assert (Hin : ∀ c' (b : bool), (if b then '(_, s) ← tcp_send_segment n TCP_FLAG_ACK [] (upd_conn n (λ _, c') s); Some (free_pkt i s)
      else Some (free_pkt i (upd_conn n (λ _, c') s))) = Some t → pool own t).
  { intros c' [] Hb; [|injection Hb as <-; apply pool_free_new; [by eapply pool_ext; [|exact Hs]|done]].
    bind_inv Hb. match type of Hb with context [let '(_, _) := ?x in _] => destruct x as [ret w] end. injection Hb as <-.
    apply pool_free_new; [|done]. eapply tcp_send_segment_pool; [|eassumption]. by eapply pool_ext; [|exact Hs]. }
  match type of H with match ?st with _ => _ end = _ => destruct st end;
    try (bind_inv H; match type of H with context [let '(_, _) := ?x in _] => destruct x as [c' b] end; by apply (Hin c' b)).
  destruct (has_flag _ _); [|injection H as <-; by apply pool_free_new]. bind_inv H. injection H as <-.
  apply pool_free_new; [|done]. by eapply tcp_passive_open_pool.
Qed.

(** * The receive side of a connection *)

Definition content (c : tcp_conn) : list Z := take (Z.to_nat (tc_rx_len c)) (tc_rx_buf c).
Definition rx_wf (c : tcp_conn) : Prop := Z.of_nat (length (tc_rx_buf c)) = RX_BUF_SIZE ∧ 0 ≤ tc_rx_len c ≤ RX_BUF_SIZE.

Lemma splice_length off src l : (off + length src ≤ length l)%nat → length (splice off src l) = length l.
Proof. intros H. unfold splice. rewrite !length_app, length_take, length_drop. lia. Qed.

Lemma take_splice off src l :
  (off + length src ≤ length l)%nat → take (off + length src) (splice off src l) = take off l ++ src.
Proof.
  intros H. unfold splice. rewrite app_assoc, take_app_le.
  - apply take_ge. rewrite length_app, length_take. lia.
  - rewrite length_app, length_take. lia.
Qed.

(** A segment that carries bytes of the peer's stream: the [k]-th byte of the
    stream has sequence number [r0 + k]. *)
Definition genuine (stream : list Z) (r0 : Z) (g : segment) : Prop :=
  0 ≤ sg_payload_len g ∧
  (0 < sg_payload_len g → ∃ k, sg_seq g = u32 (r0 + Z.of_nat k) ∧ Z.of_nat k + sg_payload_len g ≤ Z.of_nat (length stream) ∧
     ∀ n bs, 0 ≤ n ≤ sg_payload_len g → sg_payload g n = Some bs → bs = take (Z.to_nat n) (drop k stream)).

(** What has been received is the prefix of length [m] of the stream. *)
Definition receives (stream : list Z) (r0 : Z) (delivered : list Z) (c : tcp_conn) : Prop :=
  rx_wf c ∧ ∃ m, (m ≤ length stream)%nat ∧ delivered ++ content c = take m stream ∧
    (tc_state c = TCP_ESTABLISHED → tc_rcv_nxt c = u32 (r0 + Z.of_nat m)).

(** States after the handshake. *)
Definition synchronised (st : tcp_state) : bool :=
  match st with TCP_LISTEN | TCP_SYN_SENT | TCP_SYN_RECEIVED => false | _ => true end.

Lemma u32_add_inj r0 j k : 0 ≤ j < 2 ^ 32 → 0 ≤ k < 2 ^ 32 → u32 (r0 + j) = u32 (r0 + k) → j = k.
Proof. unfold u32. intros. divlia. Qed.

Lemma tcp_data_receives stream r0 d g c c' b :
  Z.of_nat (length stream) < 2 ^ 32 → genuine stream r0 g → tc_state c = TCP_ESTABLISHED → receives stream r0 d c →
  tcp_data g c = Some (c', b) → receives stream r0 d c' ∧ tc_state c' = TCP_ESTABLISHED.
Proof.
  intros Hs [Hg0 Hg] Hst [[Hlb Hlen] (m & Hm & Hpre & Hnxt)] H. unfold tcp_data in H.
  destruct (_ && _) eqn:Ec; [|injection H as <- <-; split; [split; [by split|by exists m]|done]].
  apply andb_true_iff in Ec as [Hpl%Z.ltb_lt Hseq%Z.eqb_eq]. unfold RX_BUF_SIZE in *. cbn zeta in H. rewrite u32_small in H by lia.
  set (copy := if _ <? _ then _ else _) in H.
  assert (Hcopy : 0 ≤ copy ≤ sg_payload_len g ∧ tc_rx_len c + copy ≤ 8192).
  { unfold copy. destruct (Z.ltb_spec (sg_payload_len g) (8192 - tc_rx_len c)); lia. }
  clearbody copy. bind_inv H. match type of E with _ = Some ?x => rename x into bs end.
  replace (8192 <? tc_rx_len c + copy) with false in H by lia. injection H as <- <-.
  destruct (Hg Hpl) as (k & Hk & Hkl & Hbs). specialize (Hbs copy bs ltac:(lia) E). rewrite Hseq, (Hnxt Hst) in Hk.
  apply u32_add_inj in Hk; [|lia..]. apply Nat2Z.inj in Hk. subst k.
  assert (Hlbs : length bs = Z.to_nat copy) by (rewrite Hbs, length_take, length_drop; lia).
  split; [|done]. split; [split; cbn; unfold RX_BUF_SIZE|].
  - rewrite splice_length; lia.
  - rewrite u32_small by lia. lia.
  - exists (m + Z.to_nat copy)%nat. split; [lia|]. split.
    + unfold content in *. cbn. rewrite u32_small by lia. replace (Z.to_nat (tc_rx_len c + copy)) with (Z.to_nat (tc_rx_len c) + length bs)%nat by lia.
      rewrite take_splice by lia. rewrite app_assoc, Hpre, Hbs. rewrite <-take_take_drop. done.
    + intros _. cbn. rewrite (Hnxt Hst). unfold u32. rewrite Zplus_mod_idemp_l. f_equal. lia.
Qed.

Lemma tcp_input_receives stream r0 d g c c' b :
  Z.of_nat (length stream) < 2 ^ 32 → genuine stream r0 g → synchronised (tc_state c) = true → receives stream r0 d c →
  tcp_input g c = Some (c', b) → receives stream r0 d c' ∧ synchronised (tc_state c') = true.
Proof.
  intros Hs Hg Hsyn Hr H.
  assert (Hkeep : ∀ c1, tc_rx_buf c1 = tc_rx_buf c → tc_rx_len c1 = tc_rx_len c → tc_state c1 ≠ TCP_ESTABLISHED →
    synchronised (tc_state c1) = true → receives stream r0 d c1 ∧ synchronised (tc_state c1) = true).
  { intros c1 H1 H2 H3 H4. split; [|done]. destruct Hr as [Hw (m & Hm & Hp & _)]. unfold receives, rx_wf, content in *. rewrite H1, H2.
    split; [done|]. by exists m. }
  unfold tcp_input in H. cbn zeta in H. destruct (tc_state c) eqn:Est; try done.
  - injection H as <- <-. by rewrite Est.
  - destruct (has_flag _ TCP_FLAG_FIN); [injection H as <- <-; by apply Hkeep|].
    destruct (has_flag _ TCP_FLAG_ACK); [|injection H as <- <-; by rewrite Est].
    destruct (tcp_data_receives stream r0 d g (c <| tc_snd_una := sg_ack g |>) c' b) as [H1 H2]; try done. by rewrite H2.
  - destruct (has_flag _ TCP_FLAG_ACK), (has_flag _ TCP_FLAG_FIN); injection H as <- <-; try (by apply Hkeep). by rewrite Est.
  - destruct (has_flag _ TCP_FLAG_FIN); injection H as <- <-; [by apply Hkeep|by rewrite Est].
  - injection H as <- <-. by rewrite Est.
  - injection H as <- <-. by rewrite Est.
  - destruct (has_flag _ TCP_FLAG_ACK); injection H as <- <-; [by apply Hkeep|by rewrite Est].
  - injection H as <- <-. by rewrite Est.
Qed.

Abbreviation conn k s := (connections (n_tcp s) !! k).

Lemma tcp_alloc_conn_other s n u k c :
  tcp_alloc_conn s = (Some n, u) → conn k s = Some c → tc_active c = true → n ≠ k ∧ conn k u = Some c.
Proof.
  unfold tcp_alloc_conn. destruct (find_slot _ _) as [j|] eqn:E; [|done]. intros [= <- <-] Hk Ha.
  apply find_slot_Some in E as (e & He & Hne%negb_true_iff & _). assert (j ≠ k) by (intros ->; congruence).
  split; [done|]. cbn. by rewrite list_lookup_alter_ne.
Qed.

Lemma send_segment_other n fl data s r t k : tcp_send_segment n fl data s = Some (r, t) → n ≠ k → conn k t = conn k s.
Proof. intros H Hk. apply tcp_send_segment_conns in H as [x ->]. by rewrite list_lookup_alter_ne. Qed.

Lemma tcp_passive_open_other g src s t k c :
  tcp_passive_open g src s = Some t → conn k s = Some c → tc_active c = true → conn k t = Some c.
Proof.
  unfold tcp_passive_open. intros H Hk Ha. destruct (tcp_alloc_conn s) as [[n|] u] eqn:E.
  - destruct (tcp_alloc_conn_other s n u k c E Hk Ha) as [Hn Hu]. cbn zeta in H. bind_inv H.
    match type of H with context [let '(_, _) := ?x in _] => destruct x as [ret w] end. injection H as <-.
    match goal with E : tcp_send_segment _ _ _ _ = _ |- _ => rewrite (send_segment_other _ _ _ _ _ _ k E Hn) end.
    cbn. by rewrite list_lookup_alter_ne.
  - unfold tcp_alloc_conn in E. destruct (find_slot _ _); [done|]. injection E as <-. by injection H as <-.
Qed.

(** A received packet leaves a connection as it is, or is its input. *)
Lemma tcp_rx_conn i src s t k c :
  tcp_rx i src s = Some t → conn k s = Some c → tc_active c = true → tc_state c ≠ TCP_LISTEN →
  conn k t = Some c ∨
  ∃ p g c' b x, get_pkt i s = Some p ∧ tcp_parse p = Some g ∧ conn_matches src (sg_src_port g) (sg_dst_port g) c = true ∧
    tcp_input g c = Some (c', b) ∧ (conn k t = Some c' ∨ conn k t = Some (c' <| tc_snd_nxt := x |>)).
Proof.
  intros H Hk Ha Hl. unfold tcp_rx in H. bind_inv H. match goal with E : get_pkt i s = Some ?q |- _ => rename q into p; rename E into Ep end.
  destruct (_ <? 20); [injection H as <-; by left|]. bind_inv H. match goal with E : tcp_parse p = Some ?q |- _ => rename q into g; rename E into Eg end.
  destruct (tcp_find_conn _ _ _ s) as [n|] eqn:Ef; [|injection H as <-; by left]. bind_inv H.
  match goal with E : conn n s = Some ?q |- _ => rename q into e; rename E into En end.
  destruct (decide (n = k)) as [->|Hnk].
  - right. assert (e = c) as -> by congruence.
    assert (Hm : conn_matches src (sg_src_port g) (sg_dst_port g) c = true).
    { unfold tcp_find_conn in Ef. destruct (find_slot (conn_matches _ _ _) _) as [j|] eqn:E1.
      - injection Ef as ->. apply find_slot_Some in E1 as (e & He & Hm & _). congruence.
      - apply find_slot_Some in Ef as (e & He & Hm & _). unfold listens_on in Hm. rewrite !andb_true_iff, bool_decide_eq_true in Hm.
        assert (e = c) as -> by congruence. naive_solver. }
    assert (Hin : ('(c, reply) ← tcp_input g c; let s := upd_conn k (λ _, c) s in
            if (reply : bool) then '(_, s) ← tcp_send_segment k TCP_FLAG_ACK [] s; Some (free_pkt i s) else Some (free_pkt i s)) = Some t)
      by (by destruct (tc_state c)). clear H. bind_inv Hin.
    match goal with E : tcp_input g c = Some ?q |- _ => destruct q as [c' b]; rename E into Ei end. cbn zeta in Hin.
    assert (Hup : conn k (upd_conn k (λ _, c') s) = Some c') by (cbn; by rewrite list_lookup_alter_eq, Hk).
    destruct b; [|injection Hin as <-; exists p, g, c', false, 0; by eauto 10].
    bind_inv Hin. match type of Hin with context [let '(_, _) := ?x in _] => destruct x as [ret w] end. injection Hin as <-.
    match goal with E : tcp_send_segment _ _ _ _ = _ |- _ => apply tcp_send_segment_conns in E as [x Ex] end.
    exists p, g, c', true, x. split; [done|]. split; [done|]. split; [done|]. split; [done|]. right.
    change (conn k (free_pkt i w)) with (conn k w). by rewrite Ex, list_lookup_alter_eq, Hup.
  - left. assert (Hin : ∀ c' (b : bool), (if b then '(_, s) ← tcp_send_segment n TCP_FLAG_ACK [] (upd_conn n (λ _, c') s); Some (free_pkt i s)
      else Some (free_pkt i (upd_conn n (λ _, c') s))) = Some t → conn k t = Some c).
    { assert (∀ c', conn k (upd_conn n (λ _, c') s) = Some c) as Hu by (intros c'; cbn; by rewrite list_lookup_alter_ne).
      intros c' [] Hb; [|injection Hb as <-; apply Hu]. bind_inv Hb.
      match type of Hb with context [let '(_, _) := ?x in _] => destruct x as [ret w] end. injection Hb as <-.
      match goal with E : tcp_send_segment _ _ _ _ = _ |- _ => apply (send_segment_other _ _ _ _ _ _ k) in E; [|done]; rename E into Ew end.
      change (conn k (free_pkt i w)) with (conn k w). rewrite Ew. apply Hu. }
    destruct (tc_state e);
      try (bind_inv H; match type of H with context [let '(_, _) := ?x in _] => destruct x as [c' b] end; by apply (Hin c' b)).
    destruct (has_flag _ _); [|by injection H as <-]. bind_inv H. injection H as <-.
    match goal with E : tcp_passive_open _ _ _ = _ |- _ => by apply (tcp_passive_open_other g src s _ k c) in E end.
Qed.

(** ** Histories of one connection *)

(** [k]: the connection; the bytes the application has read so far are in the
    first component.  Packets may be lost, repeated and reordered; those that
    belong to the connection carry bytes of the peer's stream. *)
Inductive conn_step (k : nat) (stream : list Z) (r0 : Z) : list Z * net → list Z * net → Prop :=
  | cs_rx d s i src t c :
      (∀ p g e, get_pkt i s = Some p → tcp_parse p = Some g → conn k s = Some e →
         conn_matches src (sg_src_port g) (sg_dst_port g) e = true → genuine stream r0 g) →
      tcp_rx i src s = Some t → conn k t = Some c → tc_active c = true → conn_step k stream r0 (d, s) (d, t)
  | cs_recv d s max n bs t : 0 ≤ max → tcp_recv_id (Z.of_nat k) max s = (n, bs, t) → conn_step k stream r0 (d, s) (d ++ bs, t)
  | cs_other d s t c c' :
      conn k s = Some c → conn k t = Some c' → tc_active c' = true → tc_rx_buf c' = tc_rx_buf c → tc_rx_len c' = tc_rx_len c →
      synchronised (tc_state c') = true →
      (tc_state c' = TCP_ESTABLISHED → tc_state c = TCP_ESTABLISHED ∧ tc_rcv_nxt c' = tc_rcv_nxt c) →
      conn_step k stream r0 (d, s) (d, t).

Definition stream_inv (k : nat) (stream : list Z) (r0 : Z) (x : list Z * net) : Prop :=
  ∃ c, conn k (snd x) = Some c ∧ tc_active c = true ∧ synchronised (tc_state c) = true ∧ receives stream r0 (fst x) c.

Lemma tcp_recv_receives k stream r0 d s max n bs t :
  stream_inv k stream r0 (d, s) → 0 ≤ max → tcp_recv_id (Z.of_nat k) max s = (n, bs, t) → stream_inv k stream r0 (d ++ bs, t).
Proof.
  intros (c & Hc & Ha & Hsyn & Hr) Hmax H. cbn [fst snd] in *.
  assert (Hnone : stream_inv k stream r0 (d ++ [], s)) by (exists c; cbn; by rewrite app_nil_r).
  unfold tcp_recv_id in H. destruct (_ || _); [by injection H as <- <- <-|]. rewrite Nat2Z.id, Hc in H.
  destruct (tc_active c && _); [|by injection H as <- <- <-]. destruct (Z.eqb_spec (tc_rx_len c) 0); [by injection H as <- <- <-|].
  cbn zeta in H. set (m := if _ <? _ then _ else _) in H. destruct Hr as [[Hlb Hlen] (l & Hl & Hp & Hn)]. unfold RX_BUF_SIZE in *.
  assert (Hm : 0 ≤ m ≤ tc_rx_len c) by (unfold m; destruct (Z.ltb_spec (tc_rx_len c) max); lia). clearbody m.
  injection H as <- <- <-. eexists. cbn [fst snd]. split; [cbn; by rewrite list_lookup_alter_eq, Hc|]. split; [done|]. split; [done|].
  assert (Hd : length (drop (Z.to_nat m) (take (Z.to_nat (tc_rx_len c)) (tc_rx_buf c))) = Z.to_nat (tc_rx_len c - m)).
  { rewrite length_drop, length_take. lia. }
  split; [split; cbn; unfold RX_BUF_SIZE|].
  - rewrite splice_length; lia.
  - rewrite u32_small by lia. lia.
  - exists l. split; [done|]. split; [|done]. unfold content in *. cbn. rewrite u32_small by lia. rewrite <-Hd.
    pose proof (take_splice 0 _ (tc_rx_buf c) ltac:(rewrite Hd; lia)) as Et. rewrite Nat.add_0_l, take_0, app_nil_l in Et. rewrite Et. rewrite <-app_assoc, <-Hp. f_equal.
    rewrite <-(take_drop (Z.to_nat m) (take (Z.to_nat (tc_rx_len c)) _)) at 2. f_equal. rewrite take_take. f_equal. lia.
Qed.

Lemma conn_step_inv k stream r0 x y :
  Z.of_nat (length stream) < 2 ^ 32 → stream_inv k stream r0 x → conn_step k stream r0 x y → stream_inv k stream r0 y.
Proof.
  intros Hs Hinv Hstep. destruct Hstep as [d s i src t c Hgen Hrx Hc Hact|d s max n bs t Hmax Hrecv|d s t c c' Hc Hc' Ha' Hb Hl Hsyn' Hst].
  - destruct Hinv as (e & He & Ha & Hsyn & Hr). cbn [fst snd] in *.
    destruct (tcp_rx_conn i src s t k e Hrx He Ha) as [Hk|(p & g & c' & b & x & Hp & Hg & Hm & Hin & Hk)]; [by intros E; rewrite E in Hsyn|by exists e|].
    destruct (tcp_input_receives stream r0 d g e c' b Hs (Hgen p g e Hp Hg He Hm) Hsyn Hr Hin) as [Hr' Hsyn'].
    destruct Hk as [Hk|Hk]; rewrite Hk in Hc; injection Hc as <-; eexists; cbn [fst snd]; (split; [exact Hk|done]).
  - by eapply tcp_recv_receives.
  - destruct Hinv as (e & He & _ & _ & [Hw (m & Hm & Hp & Hn)]). cbn [fst snd] in *. assert (e = c) as -> by congruence.
    exists c'. cbn [fst snd]. split; [done|]. split; [done|]. split; [done|]. unfold receives, rx_wf, content in *. rewrite Hb, Hl.
    split; [done|]. exists m. split; [done|]. split; [done|]. intros E. destruct (Hst E) as [E1 ->]. by apply Hn.
Qed.

(** * Theorems *)

(** C16: the byte stream.  From an established connection with an empty receive
    buffer, whatever packets arrive, lost, repeated or out of order, as long as
    those of the connection carry bytes of the peer's stream, the bytes the
    application has read followed by the bytes in the receive buffer are a
    prefix of that stream, and the buffer never holds more than 8192 bytes. *)
Theorem tcp_stream_prefix k stream s d t c0 :
  Z.of_nat (length stream) < 2 ^ 32 → conn k s = Some c0 → tc_active c0 = true → tc_state c0 = TCP_ESTABLISHED →
  tc_rx_len c0 = 0 → Z.of_nat (length (tc_rx_buf c0)) = RX_BUF_SIZE → 0 ≤ tc_rcv_nxt c0 < 2 ^ 32 →
  rtc (conn_step k stream (tc_rcv_nxt c0)) ([], s) (d, t) →
  ∃ c m, conn k t = Some c ∧ d ++ content c = take m stream ∧ 0 ≤ tc_rx_len c ≤ RX_BUF_SIZE.
Proof.
  intros Hs Hc Ha Hst Hl Hb Hn Hsteps.
  assert (stream_inv k stream (tc_rcv_nxt c0) ([], s)) as Hinv.
  { exists c0. split; [done|]. split; [done|]. split; [by rewrite Hst|]. split; [split; [done|unfold RX_BUF_SIZE; lia]|].
    exists 0%nat. split; [lia|]. split; [unfold content; by rewrite Hl|]. intros _. by rewrite Z.add_0_r, u32_small. }
  assert (stream_inv k stream (tc_rcv_nxt c0) (d, t)) as (c & Hct & _ & _ & [[_ Hw] (m & _ & Hp & _)]).
  { remember ([], s) as x. remember (d, t) as y. clear Heqx Heqy. induction Hsteps as [|x y z Hxy _ IH]; [done|]. by eapply IH, conn_step_inv. }
  by exists c, m.
Qed.

(** * Example *)

(** Connection 0 with 10.0.0.1, port 1024, and a packet with three bytes of data. *)
Definition tcp_example_conn : tcp_conn :=
  mk_tcp 33554442 80 16777226 1024 TCP_ESTABLISHED 1001 1001 500 65535 65535 (replicate 8192 0) 0 0 0 true true.
Definition tcp_example_packet : pktbuf :=
  pkt_of 757 (be16 1024 ++ be16 80 ++ be32 500 ++ be32 1001 ++ [80; 16; 255; 255; 0; 0; 0; 0] ++ [7; 8; 9]).
Definition tcp_example : net :=
  put_pkt 0 tcp_example_packet
    (zero_net <| n_tcp := mk_tcps (tcp_example_conn :: replicate 127 (tcp_example_conn <| tc_active := false |>)) 49152 |>).

Lemma tcp_example_genuine g : tcp_parse tcp_example_packet = Some g → genuine [7; 8; 9; 10] 500 g.
Proof.
  intros E.
  assert (E0 : tcp_parse tcp_example_packet = Some (mk_seg 1024 80 500 1001 16 3 (λ n, get_bytes tcp_example_packet 20 (Z.to_nat n)))) by (vm_compute; reflexivity).
  rewrite E0 in E. apply (inj Some) in E. subst g. split; [cbn; lia|]. intros _. exists 0%nat. cbn [sg_seq sg_payload_len sg_payload length].
  split; [reflexivity|]. split; [lia|]. intros n bs Hn Hbs. assert (n = 0 ∨ n = 1 ∨ n = 2 ∨ n = 3) as [->|[->|[->| ->]]] by lia;
    (apply (inj Some); rewrite <-Hbs; vm_compute; reflexivity).
Qed.

Lemma tcp_stream_prefix_witness :
  ∃ t c m, tcp_rx 0 16777226 tcp_example = Some t ∧ conn 0%nat t = Some c ∧ content c = take m [7; 8; 9; 10] ∧ tc_rx_len c = 3.
Proof.
  set (t := default tcp_example (tcp_rx 0 16777226 tcp_example)).
  assert (Et : tcp_rx 0 16777226 tcp_example = Some t).
  { unfold t. assert (bool_decide (is_Some (tcp_rx 0 16777226 tcp_example)) = true) as E by (vm_compute; reflexivity).
    apply bool_decide_eq_true in E as [u ->]. reflexivity. }
  assert (Ec : tc_rx_len <$> conn 0%nat t = Some 3) by (vm_compute; reflexivity).
  assert (Ea : tc_active <$> conn 0%nat t = Some true) by (vm_compute; reflexivity).
  destruct (tcp_stream_prefix 0 [7; 8; 9; 10] tcp_example [] t tcp_example_conn) as (c & m & Hc & Hp & _).
  - cbn. lia.
  - reflexivity.
  - reflexivity.
  - reflexivity.
  - reflexivity.
  - vm_compute. reflexivity.
  - cbn. lia.
  - destruct (conn 0%nat t) as [c|] eqn:Hc; [|discriminate]. apply rtc_once. eapply (cs_rx 0 _ _ [] tcp_example 0 16777226 t c).
    + intros p g e Hp Hg _ _. apply tcp_example_genuine. rewrite <-Hg. f_equal. apply (inj Some). rewrite <-Hp. vm_compute. reflexivity.
    + exact Et.
    + exact Hc.
    + by injection Ea.
  - exists t, c, m. split; [exact Et|]. split; [exact Hc|]. split; [exact Hp|]. rewrite Hc in Ec. by injection Ec.
Defined.

(** The header length is not compared with the length of the packet: a 20-byte
    packet whose header claims 60 bytes has payload length 65496. *)
Definition tcp_bad_offset : pktbuf :=
  pkt_of 757 (be16 1024 ++ be16 80 ++ be32 500 ++ be32 1001 ++ [240; 16; 255; 255; 0; 0; 0; 0]).
Lemma tcp_rx_offset_underflow : tcp_rx 0 16777226 (put_pkt 0 tcp_bad_offset tcp_example) = None.
Proof. vm_compute. reflexivity. Qed.

(** A full-sized segment does not fit the buffer of [ipv4_send]. *)
Lemma tcp_send_overflow : tcp_send_id 0 (replicate 718 0) (tcp_example <| n_ip ::= λ t, t <| local_netmask := 0 |> |>) = None.
Proof. vm_compute. reflexivity. Qed.
