(* ===== verification/Rx.v ===== *)
(** The receive side: net/arp.c ([arp_rx]), net/icmp.c, net/ipv4.c ([ipv4_rx]),
    net/ipv6.c, net/ethernet.c ([ethernet_rx]) and the poll loop of net/socket.c.

    A handler takes the index of a packet that is not NULL and gives the buffer
    back to the pool on every path. *)

From S2P Require Import Prelude Links Checksum Packet Routing Firewall Arp Net Udp Tcp.

(** * ARP *)

Definition arp_rx (i : nat) (s : net) : option net :=
  p ← get_pkt i s;
  if pk_len p <? arp_packet_size then Some (free_pkt i s)
  else
    op ← get16 p 6;
    sender_ip ← get32 p 14;
    sender_mac ← get_bytes p 8 6;
    target_ip ← get32 p 24;
    let s := s <| n_arp ::= arp_cache_set sender_ip sender_mac |> in
    s ← (if (arp_htons op =? 1) && (target_ip =? ipv4_get_addr s)
         then arp_send_reply sender_ip sender_mac s
         else Some s);
    Some (free_pkt i s).

(** * ICMP *)

Definition ICMP_ECHO_REQUEST : Z := 8.
Definition ICMP_ECHO_REPLY : Z := 0.
Definition ICMP_DEST_UNREACH : Z := 3.

(** Word 1 of the message is its checksum. *)
Definition icmp_checksum (bytes : list Z) : Z := ip_checksum bytes.

Definition icmp_rx (i : nat) (src_ip : Z) (s : net) : option net :=
  p ← get_pkt i s;
  if pk_len p <? 8 then Some (free_pkt i s)
  else
    saved ← get16 p 2;
    p ← put16 2 0 p;
    bytes ← get_bytes p 0 (Z.to_nat (pk_len p));
    let calc := icmp_checksum bytes in
    p ← put16 2 saved p;
    let s := put_pkt i p s in
    if negb (calc =? saved) then Some (free_pkt i s)
    else
      type ← get8 p 0;
      if type =? ICMP_ECHO_REQUEST then
        let reply_len := if 1500 <? pk_len p then 1500 else pk_len p in
        src ← get_bytes p 0 (Z.to_nat reply_len);
        let reply := <[1%nat := 0]> (<[0%nat := ICMP_ECHO_REPLY]> src) in
        '(_, s) ← ipv4_send src_ip 1 (fill_checksum 1 reply) s;
        Some (free_pkt i s)
      else Some (free_pkt i s).

Definition icmp_send_echo_request (dst_ip id seq : Z) (s : net) : option (Z * net) :=
  let rest := Z.lor (Z.shiftl id 16) seq in
  let packet := [ICMP_ECHO_REQUEST; 0; 0; 0] ++ le32 rest ++ (Z.of_nat <$> List.seq 8 56) in
  ipv4_send dst_ip 1 (fill_checksum 1 packet) s.

Definition icmp_send_dest_unreachable (dst_ip code : Z) (orig_header : list Z) (s : net) : option (Z * net) :=
  let packet := [ICMP_DEST_UNREACH; code; 0; 0; 0; 0; 0; 0] ++ take 28 orig_header in
  ipv4_send dst_ip 1 (fill_checksum 1 packet) s.

(** * IPv4 *)

Definition IP_PROTO_ICMP : Z := 1.
Definition IP_PROTO_TCP : Z := 6.
Definition IP_PROTO_UDP : Z := 17.

(** [~x] on a u32. *)
Definition not32 (x : Z) : Z := Z.lxor x 4294967295.

(** Addressed to us, limited broadcast, or all host bits set. *)
Definition addressed_to_us (dst : Z) (ip : ip_state) : bool :=
  (dst =? local_ip ip) || (dst =? 4294967295) ||
  (Z.land dst (not32 (local_netmask ip)) =? Z.land (not32 (local_netmask ip)) 4294967295).

Definition ipv4_rx (i : nat) (s : net) : option net :=
  p ← get_pkt i s;
  if pk_len p <? 20 then Some (free_pkt i s)
  else
    vihl ← get8 p 0;
    if negb (Z.land (Z.shiftr vihl 4) 15 =? 4) then Some (free_pkt i s)
    else
      let ihl := u8 (Z.land vihl 15 * 4) in
      if (ihl <? 20) || (pk_len p <? ihl) then Some (free_pkt i s)
      else
        saved ← get16 p 10;
        p ← put16 10 0 p;
        bytes ← get_bytes p 0 (Z.to_nat ihl);
        let calc := ip_checksum bytes in
        p ← put16 10 saved p;
        let s := put_pkt i p s in
        if negb (calc =? saved) then Some (free_pkt i s)
        else
          dst ← get32 p 16;
          if negb (addressed_to_us dst (n_ip s)) then Some (free_pkt i s)
          else
            '(verdict, fw) ← firewall_check (Some p) (n_fw s);
            let s := s <| n_fw := fw |> in
            if bool_decide (verdict = FW_DROP) then Some (free_pkt i s)
            else
              protocol ← get8 p 9;
              src_ip ← get32 p 12;
              let s := put_pkt i (p <| pk_head := u16 (pk_head p + ihl) |> <| pk_len := u16 (pk_len p - ihl) |>) s in
              if protocol =? IP_PROTO_ICMP then icmp_rx i src_ip s
              else if protocol =? IP_PROTO_TCP then tcp_rx i src_ip s
              else if protocol =? IP_PROTO_UDP then udp_rx i src_ip s
              else Some (free_pkt i s).

(** * IPv6 *)

Definition ipv6_init (s : net) : net :=
  let mac k := default 0 (n_mac s !! k) in
  s <| n_v6 ::= λ v, v <| nd_cache ::= fmap (λ e, e <| nd_valid := false |>) |>
    <| link_local_ipv6 := [254; 128; 0; 0; 0; 0; 0; 0; Z.lxor (mac 0%nat) 2; mac 1%nat; mac 2%nat; 255; 254; mac 3%nat; mac 4%nat; mac 5%nat] |>
    <| ipv6_configured := true |> |>.

Definition ipv6_set_addr (addr : list Z) (s : net) : net := s <| n_v6 ::= λ v, v <| local_ipv6 := addr |> |>.

Definition ipv6_addr_eq (a b : list Z) : bool := bool_decide (a = b).
Definition ipv6_is_multicast (addr : list Z) : bool := bool_decide (head addr = Some 255).

Definition nd_cache_set (ip mac : list Z) (s : net) : net :=
  match find_slot (λ e, nd_valid e && ipv6_addr_eq (nd_ip e) ip) (nd_cache (n_v6 s)) with
  | Some k => s <| n_v6 ::= λ v, v <| nd_cache ::= alter (λ e, e <| nd_mac := mac |> <| nd_state := 1 |>) k |> |>
  | None =>
      match find_slot (λ e, negb (nd_valid e)) (nd_cache (n_v6 s)) with
      | Some k => s <| n_v6 ::= λ v, v <| nd_cache ::=
                    alter (λ e, e <| nd_ip := ip |> <| nd_mac := mac |> <| nd_state := 1 |> <| nd_valid := true |>) k |> |>
      | None => s
      end
  end.

Definition ICMPV6_ECHO_REQUEST : Z := 128.
Definition ICMPV6_ECHO_REPLY : Z := 129.
Definition ICMPV6_NEIGHBOR_SOL : Z := 135.
Definition ICMPV6_NEIGHBOR_ADV : Z := 136.

(** The echo branch: the reply is built in a second buffer. *)
Definition icmpv6_echo (p : pktbuf) (s : net) : option net :=
  match alloc_pkt s with
  | (None, s) => Some s
  | (Some r, s) =>
      let copy_len := if pk_len p <? PKT_MAX_LEN then pk_len p else PKT_MAX_LEN in
      bytes ← get_bytes p 0 (Z.to_nat copy_len);
      q ← get_pkt r s;
      q ← put_bytes 0 bytes q;
      q ← put8 0 ICMPV6_ECHO_REPLY (q <| pk_len := copy_len |>);
      q ← put16 2 0 q;
      '(_, s) ← ethernet_tx [51; 51; 0; 0; 0; 1] 34525 r (put_pkt r q s);
      Some s
  end.

Definition icmpv6_handle (i : nat) (src_addr : list Z) (s : net) : option net :=
  p ← get_pkt i s;
  if pk_len p <? 4 then Some (free_pkt i s)
  else
    type ← get8 p 0;
    s ← (if type =? ICMPV6_ECHO_REQUEST then icmpv6_echo p s
         else if type =? ICMPV6_NEIGHBOR_SOL then
           if pk_len p <? 4 + 4 + 16 then Some s
           else
             target ← get_bytes p 8 16;
             if ipv6_addr_eq target (link_local_ipv6 (n_v6 s)) || ipv6_addr_eq target (local_ipv6 (n_v6 s))
             then mac ← get_bytes p 26 6; Some (nd_cache_set src_addr mac s)
             else Some s
         else if type =? ICMPV6_NEIGHBOR_ADV then
           if 4 + 4 + 16 + 8 <=? pk_len p
           then target ← get_bytes p 8 16; mac ← get_bytes p 26 6; Some (nd_cache_set target mac s)
           else Some s
         else Some s);
    Some (free_pkt i s).

Definition ipv6_rx (i : nat) (s : net) : option net :=
  p ← get_pkt i s;
  if pk_len p <? 40 then Some (free_pkt i s)
  else
    ver_tc_fl ← get32 p 0;
    if negb (Z.land (Z.shiftr ver_tc_fl 28) 15 =? 6) then Some (free_pkt i s)
    else
      dst ← get_bytes p 24 16;
      if negb (ipv6_addr_eq dst (local_ipv6 (n_v6 s))) && negb (ipv6_addr_eq dst (link_local_ipv6 (n_v6 s))) &&
         negb (ipv6_is_multicast dst)
      then Some (free_pkt i s)
      else
        plen ← get16 p 4;
        next_header ← get8 p 6;
        src_addr ← get_bytes p 8 16;
        let s := put_pkt i (p <| pk_head := u16 (pk_head p + 40) |> <| pk_len := swap16 plen |>) s in
        if next_header =? IP_PROTO_TCP then tcp_rx i 0 s
        else if next_header =? IP_PROTO_UDP then udp_rx i 0 s
        else if next_header =? 58 then icmpv6_handle i src_addr s
        else Some (free_pkt i s).

(** * Ethernet *)

Definition ETH_TYPE_IPV4 : Z := 2048.
Definition ETH_TYPE_ARP : Z := 2054.
Definition ETH_TYPE_IPV6 : Z := 34525.

Definition ethernet_rx (i : nat) (s : net) : option net :=
  p ← get_pkt i s;
  if pk_len p <? 14 then Some (free_pkt i s)
  else
    match pktbuf_pull 14 p with
    | (None, p) => Some (free_pkt i (put_pkt i p s))
    | (Some _, q) =>
        et ← get16 p 12;
        let et := swap16 et in
        let s := put_pkt i q s in
        if et =? ETH_TYPE_IPV4 then ipv4_rx i s
        else if et =? ETH_TYPE_ARP then arp_rx i s
        else if et =? ETH_TYPE_IPV6 then ipv6_rx i s
        else Some (free_pkt i s)
    end.

(** * Polling *)

(** [ethernet_recv(p->data + p->head, &len)]: result code, buffer, length. *)
Definition ethernet_recv (p : pktbuf) (n : nic) : option (Z * pktbuf * Z * nic) :=
  if negb (nic_ready n) then Some (AEGIS_EINVAL, p, 0, n)
  else
    match nic_rx n with
    | [] => Some (AEGIS_EAGAIN, p, 0, n)
    | None :: q => Some (AEGIS_EIO, p, 0, n <| nic_rx := q |>)
    | Some frame :: q =>
        let frame := take (Z.to_nat VIRTIO_NET_FRAME_MAX) frame in
        p ← put_bytes 0 frame p;
        Some (AEGIS_OK, p, Z.of_nat (length frame), n <| nic_rx := q |>)
    end.

Fixpoint poll_loop (n : nat) (s : net) : option net :=
  match n with
  | O => Some s
  | S n =>
      match alloc_pkt s with
      | (None, s) => Some s
      | (Some i, s) =>
          p ← get_pkt i s;
          '(rc, p, len, dev) ← ethernet_recv p (n_nic s);
          let s := (put_pkt i p s) <| n_nic := dev |> in
          if negb (rc =? AEGIS_OK) then Some (free_pkt i s)
          else
            s ← ethernet_rx i (put_pkt i (p <| pk_len := len |>) s);
            poll_loop n s
      end
  end.

Definition network_poll (s : net) : option net := poll_loop 32 s.

(** * Buffers are conserved *)

(** Destructs the pair a bind has produced. *)
Ltac pair_inv H := match type of H with context [let '(_, _) := ?x in _] => destruct x as [? ?]; cbn beta iota in H end.

Lemma arp_rx_pool own i s t : pool ({[i]} ∪ own) s → ¬ i ∈ own → arp_rx i s = Some t → pool own t.
Proof.
  intros Hs Hi H. unfold arp_rx in H. bind_inv H. destruct (_ <? _); [injection H as <-; by apply pool_free_new|]. bind_inv H. cbn zeta in H.
  bind_inv H. injection H as <-. apply pool_free_new; [|done].
  match goal with E : (if ?b then _ else _) = Some _ |- _ => destruct b end.
  - eapply arp_send_reply_pool; [|eassumption]. by eapply pool_ext; [|exact Hs].
  - match goal with E : Some _ = Some _ |- _ => injection E as <- end. by eapply pool_ext; [|exact Hs].
Qed.

Lemma icmp_rx_pool own i src s t : pool ({[i]} ∪ own) s → ¬ i ∈ own → icmp_rx i src s = Some t → pool own t.
Proof.
  intros Hs Hi H. unfold icmp_rx in H. bind_inv H. destruct (_ <? 8); [injection H as <-; by apply pool_free_new|]. bind_inv H. cbn zeta in H.
  bind_inv H. match type of H with context [put_pkt i ?q s] => assert (pool ({[i]} ∪ own) (put_pkt i q s)) as Hp by
    (eapply pool_put; [exact Hs|apply own_here|eassumption|put_next]) end.
  destruct (negb _); [injection H as <-; by apply pool_free_new|]. bind_inv H.
  destruct (_ =? ICMP_ECHO_REQUEST); [|injection H as <-; by apply pool_free_new]. bind_inv H. pair_inv H. injection H as <-.
  apply pool_free_new; [|done]. eapply ipv4_send_pool; [exact Hp|eassumption].
Qed.

Lemma ipv4_rx_pool own i s t : pool ({[i]} ∪ own) s → ¬ i ∈ own → ipv4_rx i s = Some t → pool own t.
Proof.
  intros Hs Hi H. unfold ipv4_rx in H. bind_inv H. destruct (_ <? 20); [injection H as <-; by apply pool_free_new|]. bind_inv H.
  destruct (negb _); [injection H as <-; by apply pool_free_new|]. cbn zeta in H. destruct (_ || _); [injection H as <-; by apply pool_free_new|].
  bind_inv H. match type of H with context [put_pkt i ?q s] => assert (pool ({[i]} ∪ own) (put_pkt i q s)) as Hp by
    (eapply pool_put; [exact Hs|apply own_here|eassumption|put_next]); assert (Hq : get_pkt i (put_pkt i q s) = Some q) by
    (unfold get_pkt; cbn; apply list_lookup_insert_eq; by eapply lookup_lt_Some) end.
  destruct (negb _); [injection H as <-; by apply pool_free_new|]. bind_inv H. destruct (negb _); [injection H as <-; by apply pool_free_new|].
  bind_inv H. pair_inv H. destruct (bool_decide _); [injection H as <-; apply pool_free_new; [by eapply pool_ext; [|exact Hp]|done]|].
  bind_inv H. match type of H with context [icmp_rx i _ ?u] => assert (pool ({[i]} ∪ own) u) as Hu by
    (eapply pool_put; [by eapply pool_ext; [|exact Hp]|apply own_here|exact Hq|done]); revert H Hu; generalize u; intros u' H Hu end.
  destruct (_ =? IP_PROTO_ICMP); [by eapply icmp_rx_pool|]. destruct (_ =? IP_PROTO_TCP); [by eapply tcp_rx_pool|].
  destruct (_ =? IP_PROTO_UDP); [by eapply udp_rx_pool|]. injection H as <-. by apply pool_free_new.
Qed.

Lemma nd_cache_set_pkts ip mac s : n_pkts (nd_cache_set ip mac s) = n_pkts s.
Proof. unfold nd_cache_set. destruct (find_slot _ _); [done|]. by destruct (find_slot _ _). Qed.

Lemma icmpv6_echo_pool own p s t : pool own s → icmpv6_echo p s = Some t → pool own t.
Proof.
  intros Hs H. unfold icmpv6_echo in H. destruct (alloc_pkt s) as [[r|] u] eqn:Ea; [|injection H as <-; by eapply pool_alloc_fail].
  destruct (pool_alloc own s r u Hs Ea) as [Hu Hr]. cbn zeta in H. bind_inv H. pair_inv H. injection H as <-.
  eapply (ethernet_tx_pool own); [|exact Hr|eassumption]. eapply pool_put; [exact Hu|apply own_here|eassumption|put_next].
Qed.

Lemma icmpv6_handle_pool own i src s t : pool ({[i]} ∪ own) s → ¬ i ∈ own → icmpv6_handle i src s = Some t → pool own t.
Proof.
  intros Hs Hi H. unfold icmpv6_handle in H. bind_inv H. destruct (_ <? 4); [injection H as <-; by apply pool_free_new|]. bind_inv H.
  injection H as <-. apply pool_free_new; [|done]. match goal with E : (if _ then icmpv6_echo _ _ else _) = Some _ |- _ => rename E into He end.
  destruct (_ =? ICMPV6_ECHO_REQUEST); [by eapply icmpv6_echo_pool|].
  assert (Hsame : ∀ ip mac, pool ({[i]} ∪ own) (nd_cache_set ip mac s)) by (intros; eapply pool_ext; [apply nd_cache_set_pkts|exact Hs]).
  destruct (_ =? ICMPV6_NEIGHBOR_SOL).
  - destruct (_ <? _); [by injection He as <-|]. bind_inv He. destruct (_ || _); [|by injection He as <-]. bind_inv He. injection He as <-. apply Hsame.
  - destruct (_ =? ICMPV6_NEIGHBOR_ADV); [|by injection He as <-]. destruct (_ <=? _); [|by injection He as <-].
    bind_inv He. injection He as <-. apply Hsame.
Qed.

Lemma ipv6_rx_pool own i s t : pool ({[i]} ∪ own) s → ¬ i ∈ own → ipv6_rx i s = Some t → pool own t.
Proof.
  intros Hs Hi H. unfold ipv6_rx in H. bind_inv H. destruct (_ <? 40); [injection H as <-; by apply pool_free_new|]. bind_inv H.
  destruct (negb _); [injection H as <-; by apply pool_free_new|]. bind_inv H. destruct (_ && _); [injection H as <-; by apply pool_free_new|].
  bind_inv H. cbn zeta in H. match type of H with context [udp_rx i _ ?u] => assert (pool ({[i]} ∪ own) u) as Hu by
    (eapply pool_put; [exact Hs|apply own_here|eassumption|done]); revert H Hu; generalize u; intros u' H Hu end.
  destruct (_ =? IP_PROTO_TCP); [by eapply tcp_rx_pool|]. destruct (_ =? IP_PROTO_UDP); [by eapply udp_rx_pool|].
  destruct (_ =? 58); [by eapply icmpv6_handle_pool|]. injection H as <-. by apply pool_free_new.
Qed.

Lemma pktbuf_pull_next k p r q : pktbuf_pull k p = (r, q) → pk_next q = pk_next p.
Proof. unfold pktbuf_pull. destruct (_ <? _); by intros [= <- <-]. Qed.

Lemma ethernet_rx_pool own i s t : pool ({[i]} ∪ own) s → ¬ i ∈ own → ethernet_rx i s = Some t → pool own t.
Proof.
  intros Hs Hi H. unfold ethernet_rx in H. bind_inv H. destruct (_ <? 14); [injection H as <-; by apply pool_free_new|].
  destruct (pktbuf_pull 14 _) as [[o|] q] eqn:Eq; apply pktbuf_pull_next in Eq;
    (assert (pool ({[i]} ∪ own) (put_pkt i q s)) as Hp by (eapply pool_put; [exact Hs|apply own_here|eassumption|exact Eq]));
    [|injection H as <-; by apply pool_free_new]. bind_inv H. cbn zeta in H.
  destruct (_ =? ETH_TYPE_IPV4); [by eapply ipv4_rx_pool|]. destruct (_ =? ETH_TYPE_ARP); [by eapply arp_rx_pool|].
  destruct (_ =? ETH_TYPE_IPV6); [by eapply ipv6_rx_pool|]. injection H as <-. by apply pool_free_new.
Qed.

Lemma ethernet_recv_next p n rc q len m : ethernet_recv p n = Some (rc, q, len, m) → pk_next q = pk_next p.
Proof.
  unfold ethernet_recv. intros H. destruct (negb _); [by injection H as _ <- _ _|]. destruct (nic_rx n) as [|[f|] r]; [by injection H as _ <- _ _| |by injection H as _ <- _ _].
  cbn zeta in H. bind_inv H. injection H as _ <- _ _. put_next.
Qed.

Lemma poll_loop_pool own n s t : pool own s → poll_loop n s = Some t → pool own t.
Proof.
  revert s. induction n as [|n IH]; intros s Hs H; cbn [poll_loop] in H; [by injection H as <-|].
  destruct (alloc_pkt s) as [[i|] u] eqn:Ea; [|injection H as <-; by eapply pool_alloc_fail].
  destruct (pool_alloc own s i u Hs Ea) as [Hu Hi]. bind_inv H.
  match goal with E : ethernet_recv _ _ = Some ?r |- _ => destruct r as [[[rc q] len] dev]; apply ethernet_recv_next in E; rename E into Eq end.
  match goal with E : get_pkt i u = Some ?r |- _ => rename r into p; rename E into Ep end. cbn zeta in H.
  assert (Hq : pool ({[i]} ∪ own) ((put_pkt i q u) <| n_nic := dev |>)).
  { eapply pool_ext; [|eapply (pool_put _ u i p q); [exact Hu|apply own_here|exact Ep|exact Eq]]. done. }
  assert (Hg : get_pkt i ((put_pkt i q u) <| n_nic := dev |>) = Some q).
  { unfold get_pkt. cbn. apply list_lookup_insert_eq. by eapply lookup_lt_Some. }
  destruct (negb _); [injection H as <-; by apply pool_free_new|]. bind_inv H. eapply IH; [|exact H].
  eapply ethernet_rx_pool; [|exact Hi|eassumption]. eapply pool_put; [exact Hq|apply own_here|exact Hg|done].
Qed.

(** * What reception leaves alone *)

(** Which datagram transports are bound, and to which port. *)
Definition udp_ports (s : net) : list (bool * Z) := (λ k, (us_bound k, us_local_port k)) <$> n_udp s.

(** The configuration of the stack: bound ports, routes, addresses, the rules of
    the firewall, and its tracked flows while it is off. *)
Definition fw_config (f : fw_state) :=
  (rule_head f, rule_storage f, rule_count f, default_policy f, fw_enabled f, if fw_enabled f then None else Some (conn_table f)).
Definition ip_config (i : ip_state) := (local_ip i, local_netmask i, local_gateway i).
Definition config (s : net) := (udp_ports s, n_rt s, n_mac s, ip_config (n_ip s), fw_config (n_fw s)).

Lemma config_keeps s t : net_keeps s t → config t = config s.
Proof. intros [Hf Hr _ Hu _ _ Hm (H1 & H2 & H3) _]. unfold config, udp_ports, ip_config. by rewrite Hf, Hr, Hu, Hm, H1, H2, H3. Qed.

Lemma ports_alter f i s :
  (∀ k, us_bound (f k) = us_bound k ∧ us_local_port (f k) = us_local_port k) → udp_ports (s <| n_udp ::= alter f i |>) = udp_ports s.
Proof.
  intros Hf. unfold udp_ports. cbn. apply list_eq. intros j. rewrite !list_lookup_fmap.
  destruct (decide (i = j)) as [<-|]; [|by rewrite list_lookup_alter_ne]. rewrite list_lookup_alter_eq.
  destruct (_ !! i) as [k|]; [|done]. cbn. by destruct (Hf k) as [-> ->].
Qed.

Lemma config_alter f i s :
  (∀ k, us_bound (f k) = us_bound k ∧ us_local_port (f k) = us_local_port k) → config (s <| n_udp ::= alter f i |>) = config s.
Proof. intros Hf. unfold config. by rewrite ports_alter. Qed.

Lemma firewall_check_config p s v t : firewall_check p s = Some (v, t) → fw_config t = fw_config s.
Proof.
  unfold firewall_check. intros H. destruct (fw_enabled s) eqn:Ee; cbn [negb] in H; [|by injection H as <- <-].
  assert (Hct : ∀ ct', fw_config (s <| conn_table := ct' |>) = fw_config s) by (intros; unfold fw_config; cbn; by rewrite Ee).
  destruct p as [p|]; [|by injection H as <- <-]. destruct (_ <? 20); [by injection H as <- <-|]. bind_inv H. cbn zeta in H.
  match type of H with (if ?b then _ else _) = _ => destruct b end; [injection H as <- <-; apply Hct|]. bind_inv H.
  match type of H with match ?r with _ => _ end = _ => destruct r as [i|] end; [|by injection H as <- <-]. bind_inv H.
  match type of H with match ?a with _ => _ end = _ => destruct a end; [|by injection H as <- <-..].
  destruct (ct_lookup _ _); [by injection H as <- <-|]. unfold ct_create in H. destruct (find_slot _ _); injection H as <- <-; [|done].
  cbn. apply Hct.
Qed.

Lemma tcp_send_segment_config n fl data s r t : tcp_send_segment n fl data s = Some (r, t) → config t = config s.
Proof.
  unfold tcp_send_segment. intros H. bind_inv H. cbn zeta in H. destruct (_ <? _); [done|].
  apply ipv4_send_keeps, config_keeps in H. by rewrite H.
Qed.

Lemma tcp_alloc_conn_config s r t : tcp_alloc_conn s = (r, t) → config t = config s.
Proof. unfold tcp_alloc_conn. destruct (find_slot _ _); by intros [= <- <-]. Qed.

Lemma udp_rx_config i src s t : udp_rx i src s = Some t → config t = config s.
Proof.
  unfold udp_rx. intros H. bind_inv H. destruct (_ <? 8); [by injection H as <-|]. bind_inv H. cbn zeta in H.
  destruct (port_slot _ s); [|by injection H as <-]. bind_inv H. injection H as <-.
  match goal with |- context [alter ?f ?j] => exact (config_alter f j s (λ _, conj eq_refl eq_refl)) end.
Qed.

Lemma tcp_rx_config i src s t : tcp_rx i src s = Some t → config t = config s.
Proof.
  unfold tcp_rx. intros H. bind_inv H. destruct (_ <? 20); [by injection H as <-|]. bind_inv H.
  destruct (tcp_find_conn _ _ _ s) as [n|]; [|by injection H as <-]. bind_inv H.
  assert (Hin : ∀ c' (b : bool), (if b then '(_, s) ← tcp_send_segment n TCP_FLAG_ACK [] (upd_conn n (λ _, c') s); Some (free_pkt i s)
      else Some (free_pkt i (upd_conn n (λ _, c') s))) = Some t → config t = config s).
  { intros c' [] Hb; [|by injection Hb as <-]. bind_inv Hb. pair_inv Hb. injection Hb as <-.
    match goal with E : tcp_send_segment _ _ _ _ = _ |- _ => apply tcp_send_segment_config in E; exact E end. }
  match type of H with match ?st with _ => _ end = _ => destruct st end;
    try (bind_inv H; match type of H with context [let '(_, _) := ?x in _] => destruct x as [c' b] end; by apply (Hin c' b)).
  destruct (has_flag _ _); [|by injection H as <-]. bind_inv H. injection H as <-.
  match goal with E : tcp_passive_open _ _ _ = _ |- _ => rename E into Ep end. unfold tcp_passive_open in Ep.
  destruct (tcp_alloc_conn s) as [[m|] u] eqn:Ea; apply tcp_alloc_conn_config in Ea; [|by injection Ep as <-].
  cbn zeta in Ep. bind_inv Ep. pair_inv Ep. injection Ep as <-.
  match goal with E : tcp_send_segment _ _ _ _ = _ |- _ => apply tcp_send_segment_config in E; exact (eq_trans E Ea) end.
Qed.

Lemma icmp_rx_config i src s t : icmp_rx i src s = Some t → config t = config s.
Proof.
  unfold icmp_rx. intros H. bind_inv H. destruct (_ <? 8); [by injection H as <-|]. bind_inv H. cbn zeta in H. bind_inv H.
  destruct (negb _); [by injection H as <-|]. bind_inv H. destruct (_ =? _); [|by injection H as <-].
  bind_inv H. pair_inv H. injection H as <-. match goal with E : ipv4_send _ _ _ _ = _ |- _ => apply ipv4_send_keeps, config_keeps in E; exact E end.
Qed.

Lemma ipv4_rx_config i s t : ipv4_rx i s = Some t → config t = config s.
Proof.
  unfold ipv4_rx. intros H. bind_inv H. destruct (_ <? 20); [by injection H as <-|]. bind_inv H.
  destruct (negb _); [by injection H as <-|]. cbn zeta in H. destruct (_ || _); [by injection H as <-|]. bind_inv H.
  destruct (negb _); [by injection H as <-|]. bind_inv H. destruct (negb _); [by injection H as <-|]. bind_inv H. pair_inv H.
  match goal with E : firewall_check _ _ = Some (_, ?fw) |- _ => apply firewall_check_config in E; assert (config (s <| n_fw := fw |>) = config s) as Hfw by
    (unfold config; cbn; by rewrite E) end. rewrite <-Hfw.
  destruct (bool_decide _); [by injection H as <-|]. bind_inv H.
  destruct (_ =? IP_PROTO_ICMP); [exact (icmp_rx_config _ _ _ _ H)|]. destruct (_ =? IP_PROTO_TCP); [exact (tcp_rx_config _ _ _ _ H)|].
  destruct (_ =? IP_PROTO_UDP); [exact (udp_rx_config _ _ _ _ H)|]. by injection H as <-.
Qed.

Lemma nd_cache_set_config ip mac s : config (nd_cache_set ip mac s) = config s.
Proof. unfold nd_cache_set. destruct (find_slot _ _); [done|]. by destruct (find_slot _ _). Qed.

Lemma icmpv6_handle_config i src s t : icmpv6_handle i src s = Some t → config t = config s.
Proof.
  unfold icmpv6_handle. intros H. bind_inv H. destruct (_ <? 4); [by injection H as <-|]. bind_inv H. injection H as <-.
  match goal with E : (if _ then icmpv6_echo _ _ else _) = Some ?u |- _ => rename E into He; change (config u = config s) end.
  destruct (_ =? ICMPV6_ECHO_REQUEST).
  { unfold icmpv6_echo in He. destruct (alloc_pkt s) as [[r|] u] eqn:Ea; apply alloc_pkt_keeps, config_keeps in Ea; [|by injection He as <-].
    cbn zeta in He. bind_inv He. pair_inv He. injection He as <-.
    match goal with E : ethernet_tx _ _ _ _ = _ |- _ => apply ethernet_tx_keeps, config_keeps in E; exact (eq_trans E Ea) end. }
  pose proof nd_cache_set_config as Hsame.
  destruct (_ =? ICMPV6_NEIGHBOR_SOL).
  - destruct (_ <? _); [by injection He as <-|]. bind_inv He. destruct (_ || _); [|by injection He as <-]. bind_inv He. injection He as <-. apply Hsame.
  - destruct (_ =? ICMPV6_NEIGHBOR_ADV); [|by injection He as <-]. destruct (_ <=? _); [|by injection He as <-].
    bind_inv He. injection He as <-. apply Hsame.
Qed.

Lemma ethernet_rx_config i s t : ethernet_rx i s = Some t → config t = config s.
Proof.
  unfold ethernet_rx. intros H. bind_inv H. destruct (_ <? 14); [by injection H as <-|].
  destruct (pktbuf_pull 14 _) as [[o|] q]; [|by injection H as <-]. bind_inv H. cbn zeta in H.
  destruct (_ =? ETH_TYPE_IPV4); [exact (ipv4_rx_config _ _ _ H)|]. destruct (_ =? ETH_TYPE_ARP).
  - unfold arp_rx in H. bind_inv H. destruct (_ <? _); [by injection H as <-|]. bind_inv H. cbn zeta in H. bind_inv H. injection H as <-.
    match goal with E : (if ?b then _ else _) = Some _ |- _ => destruct b; [|by injection E as <-]; rename E into Er end.
    unfold arp_send_reply in Er. destruct (alloc_pkt _) as [[j|] u] eqn:Ea; apply alloc_pkt_keeps, config_keeps in Ea; [|by injection Er as <-].
    bind_inv Er. pair_inv Er. injection Er as <-.
    match goal with E : ethernet_tx _ _ _ _ = _ |- _ => apply ethernet_tx_keeps, config_keeps in E; exact (eq_trans E Ea) end.
  - destruct (_ =? ETH_TYPE_IPV6); [|by injection H as <-]. unfold ipv6_rx in H. bind_inv H. destruct (_ <? 40); [by injection H as <-|].
    bind_inv H. destruct (negb _); [by injection H as <-|]. bind_inv H. destruct (_ && _); [by injection H as <-|]. bind_inv H. cbn zeta in H.
    destruct (_ =? IP_PROTO_TCP); [exact (tcp_rx_config _ _ _ _ H)|]. destruct (_ =? IP_PROTO_UDP); [exact (udp_rx_config _ _ _ _ H)|].
    destruct (_ =? 58); [exact (icmpv6_handle_config _ _ _ _ H)|]. by injection H as <-.
Qed.

Lemma poll_loop_config n s t : poll_loop n s = Some t → config t = config s.
Proof.
  revert s. induction n as [|n IH]; intros s H; cbn [poll_loop] in H; [by injection H as <-|].
  destruct (alloc_pkt s) as [[i|] u] eqn:Ea; apply alloc_pkt_keeps, config_keeps in Ea; [|by injection H as <-].
  bind_inv H. destruct p0 as [[[rc q] len] dev]. destruct (negb _); [injection H as <-; exact Ea|]. bind_inv H.
  rewrite (IH _ H). match goal with E : ethernet_rx _ _ = _ |- _ => apply ethernet_rx_config in E; exact (eq_trans E Ea) end.
Qed.

(** * Acceptance *)

(** The tests of [ipv4_rx] on the header of a packet. *)
Definition header_accepted (p : pktbuf) (ip : ip_state) (ihl dst : Z) : Prop :=
  ∃ v, get8 p 0 = Some v ∧ Z.land (Z.shiftr v 4) 15 = 4 ∧ ihl = u8 (Z.land v 15 * 4) ∧ 20 ≤ ihl ≤ pk_len p ∧
    checksum_ok 5 (hbytes p (Z.to_nat ihl)) = true ∧ get32 p 16 = Some dst ∧ addressed_to_us dst ip = true.

(** Writing the checksum field back restores the packet. *)
Lemma restore_word p v w :
  pkt_wf p → pk_head p + 12 ≤ PKT_MAX_LEN → get16 p 10 = Some w → 0 ≤ v < 65536 →
  upd16 10 w (upd16 10 v p) = p.
Proof.
  intros Hw Hr Hg Hv. destruct (get16_ok p 10 Hw) as (w' & E & Hw'); [lia|lia|]. rewrite Hg in E. injection E as <-.
  unfold get16, get8 in Hg. pose proof (pw_head _ Hw). bind_inv Hg. injection Hg as <-.
  match goal with E1 : _ !! Z.to_nat (pk_head p + 10) = Some ?x, E2 : _ !! Z.to_nat (pk_head p + (10 + 1)) = Some ?y |- _ =>
    rename E1 into Ea; rename E2 into Eb; rename x into a; rename y into b end.
  assert (0 ≤ a < 256) by (apply (Forall_lookup_1 _ _ _ _ (pw_bytes _ Hw) Ea)).
  destruct p as [len hd data nx]. unfold upd16, upd8. cbn in *. f_equal.
  replace ((a + 256 * b) / 256) with b by divlia. replace ((a + 256 * b) mod 256) with a by divlia.
  set (k := Z.to_nat (hd + 10)) in *. set (k' := Z.to_nat (hd + 11)) in *. assert (k ≠ k') by (unfold k, k'; lia).
  rewrite (list_insert_insert_ne _ k k'), !list_insert_insert_eq by done.
  rewrite (list_insert_id data k a) by done. by apply list_insert_id.
Qed.

(** * Theorems *)


(** Only accepted packets have an effect.  A packet that changes a socket or
    a connection, or makes the stack transmit, has version 4, a header of 20
    bytes or more inside the packet with a correct checksum, a destination that
    is ours, and was not dropped by the firewall. *)
Theorem ipv4_rx_accepts_only i s p t :
  get_pkt i s = Some p → pkt_wf p → ipv4_rx i s = Some t →
  (n_tcp t = n_tcp s ∧ n_udp t = n_udp s ∧ n_nic t = n_nic s ∧ n_arp t = n_arp s) ∨
  (∃ ihl dst v fw, header_accepted p (n_ip s) ihl dst ∧ firewall_check (Some p) (n_fw s) = Some (v, fw) ∧ v ≠ FW_DROP).
Proof.
  intros Hp Hw H. pose proof (pw_head _ Hw) as Hh. pose proof (pw_room _ Hw) as Hr.
  unfold ipv4_rx in H. rewrite Hp in H. cbn [mbind option_bind] in H.
  destruct (Z.ltb_spec (pk_len p) 20); [injection H as <-; by left|]. bind_inv H.
  destruct (negb (_ =? 4)) eqn:Ev; [injection H as <-; by left|]. apply negb_false_iff, Z.eqb_eq in Ev. cbn zeta in H.
  match goal with E : get8 p 0 = Some ?x |- _ => rename x into v0; rename E into E0 end. set (ihl := u8 _) in H.
  destruct (_ || _) eqn:Ei; [injection H as <-; by left|]. apply orb_false_iff in Ei as [Ei1%Z.ltb_ge Ei2%Z.ltb_ge].
  destruct (get16_ok p 10 Hw) as (w & E10 & Hw16); [lia|unfold PKT_MAX_LEN in *; lia|]. rewrite E10 in H. cbn [mbind option_bind] in H.
  rewrite put16_ok in H by (done || unfold PKT_MAX_LEN in *; lia). cbn [mbind option_bind] in H.
  rewrite get_hbytes in H; [|apply upd16_wf; [done|lia]|cbn [pk_head upd16 upd8 set_field]; lia]. cbn [mbind option_bind] in H.
  rewrite put16_ok in H; [|apply upd16_wf; [done|lia]|lia|cbn [pk_head upd16 upd8 set_field]; unfold PKT_MAX_LEN in *; lia|done]. cbn [mbind option_bind] in H.
  rewrite restore_word in H by (done || unfold PKT_MAX_LEN in *; lia). rewrite (hbytes_upd16 p 5) in H by done.
  destruct (negb (_ =? w)) eqn:Ec; [injection H as <-; by left|]. apply negb_false_iff, Z.eqb_eq in Ec.
  bind_inv H. destruct (negb (addressed_to_us _ _)) eqn:Ea; [injection H as <-; by left|]. apply negb_false_iff in Ea.
  bind_inv H. pair_inv H. destruct (bool_decide_reflect (f = FW_DROP)); [injection H as <-; by left|]. right.
  eexists ihl, _, _, _. split; [|split; [eassumption|done]]. exists v0. split; [done|]. split; [done|]. split; [done|]. split; [lia|]. split; [|by split].
  unfold checksum_ok. rewrite Ec. apply Z.eqb_eq. unfold get_word. unfold get16 in E10. bind_inv E10. injection E10 as <-.
  match goal with Ex : get8 p 10 = Some ?x, Ey : get8 p (10 + 1) = Some ?y |- _ =>
    rewrite <-(hbytes_lookup p (Z.to_nat ihl)) in Ex by lia; rewrite <-(hbytes_lookup p (Z.to_nat ihl)) in Ey by lia;
    change (Z.to_nat 10) with (2 * 5)%nat in Ex; change (Z.to_nat (10 + 1)) with (2 * 5 + 1)%nat in Ey; by rewrite Ex, Ey end.
Qed.

(** * Examples *)

(** One UDP datagram to port 68, as a frame for our address. *)
Definition dhcp_frame : list Z :=
  eth_frame [2; 174; 97; 91; 12; 1] [2; 0; 0; 0; 0; 9] 2048
    (ipv4_header 33554442 17 31 5 1 ++ udp_datagram 5 33554442 67 68 [1; 2; 3]).
Definition rx_example : net :=
  (snd (udp_bind 68 zero_net)) <| n_nic := mk_nic true [] [] [Some dhcp_frame] |>.


(** The datagram without the Ethernet header, in buffer 0. *)
Definition ip_example : net :=
  put_pkt 0 (pkt_of 757 (drop 14 dhcp_frame)) (snd (udp_bind 68 zero_net)).

Lemma ipv4_rx_accepts_only_witness :
  ∃ t ihl dst, ipv4_rx 0 ip_example = Some t ∧ header_accepted (pkt_of 757 (drop 14 dhcp_frame)) (n_ip ip_example) ihl dst.
Proof.
  assert (E : bool_decide (is_Some (ipv4_rx 0 ip_example)) = true) by (vm_compute; reflexivity).
  apply bool_decide_eq_true in E as [t Et].
  destruct (ipv4_rx_accepts_only 0 ip_example (pkt_of 757 (drop 14 dhcp_frame)) t) as [(_ & Hu & _)|(ihl & dst & v & fw & H & _)].
  - vm_compute. reflexivity.
  - apply pkt_of_wf; vm_compute; first [reflexivity|discriminate].
  - exact Et.
  - exfalso. assert ((λ u, us_rx_ready <$> n_udp u !! 0%nat) <$> ipv4_rx 0 ip_example = Some (Some true)) as E by (vm_compute; reflexivity).
    rewrite Et in E. cbn [fmap option_fmap option_map] in E. rewrite Hu in E. vm_compute in E. discriminate E.
  - exists t, ihl, dst. split; [exact Et|exact H].
Defined.

(** The version test of IPv6 reads the high nibble of the fourth byte: a packet
    with the standard first byte 0x60 is dropped before it is examined. *)
Definition ipv6_packet : pktbuf := pkt_of 757 ([96; 0; 0; 0; 0; 8; 58; 255] ++ replicate 16 1 ++ [255] ++ replicate 15 0 ++ [136; 0; 0; 0; 0; 0; 0; 0]).
Lemma ipv6_rx_drops_standard_header :
  ipv6_rx 0 (put_pkt 0 ipv6_packet zero_net) = Some (free_pkt 0 (put_pkt 0 ipv6_packet zero_net)).
Proof. vm_compute. reflexivity. Qed.

(** A frame of 758 bytes does not fit between the middle and the end of a buffer. *)
Lemma network_poll_overflow : network_poll (zero_net <| n_nic := mk_nic true [] [] [Some (replicate 758 0)] |>) = None.
Proof. vm_compute. reflexivity. Qed.

(** The verdict is only compared with [FW_DROP]: a rejected packet is delivered. *)
Lemma ipv4_rx_delivers_rejected :
  let s := ip_example <| n_fw ::= λ f, f <| fw_enabled := true |> <| default_policy := FW_REJECT |> |> in
  fst <$> firewall_check (Some (pkt_of 757 (drop 14 dhcp_frame))) (n_fw s) = Some FW_REJECT ∧
  (λ t, us_rx_ready <$> n_udp t !! 0%nat) <$> ipv4_rx 0 s = Some (Some true).
Proof. split; vm_compute; reflexivity. Qed.
