(* ===== verification/Socket.v ===== *)
(** Sockets: net/socket.c, a table of 64 sockets on the UDP and TCP transports.

    A descriptor is 0x1000 plus the index of its entry. A socket belongs to the
    process that created it. The state holds the table, its two counters and the
    network stack below. [None] is a fault of the stack (see [Net], [Udp], [Tcp]). *)

From S2P Require Import Prelude Links Checksum Packet Routing Firewall Arp Net Udp Tcp Rx.

Definition AEGIS_SOCK_STREAM : Z := 1.
Definition AEGIS_SOCK_DGRAM : Z := 2.
Definition AEGIS_SOCKET_MAX : nat := 64.
Definition AEGIS_SOCKET_FD_BASE : Z := 0x1000.

Record socket := mk_socket {
  sk_used : bool; sk_owner_pid : Z; sk_type : Z; sk_local_port : Z; sk_remote_port : Z; sk_remote_ip : Z;
  sk_transport_id : Z; sk_listening : bool; sk_connected : bool;
}.
#[export] Instance socket_eta : Eta socket := λ s,
  mk_socket (sk_used s) (sk_owner_pid s) (sk_type s) (sk_local_port s) (sk_remote_port s) (sk_remote_ip s)
    (sk_transport_id s) (sk_listening s) (sk_connected s).
Definition zero_socket : socket := mk_socket false 0 0 0 0 0 0 false false.

Record sock_state := mk_socks { sockets : list socket; listening_count : Z; connected_count : Z; sk_net : net }.
#[export] Instance sock_state_eta : Eta sock_state := λ s,
  mk_socks (sockets s) (listening_count s) (connected_count s) (sk_net s).

(** A [aegis_socket_t *] is an index of the table. *)
Definition sock_lookup (owner fd : Z) (s : sock_state) : option nat :=
  let i := fd - AEGIS_SOCKET_FD_BASE in
  if (i <? 0) || (Z.of_nat AEGIS_SOCKET_MAX <=? i) then None
  else
    match sockets s !! Z.to_nat i with
    | Some k => if negb (sk_used k) || negb (sk_owner_pid k =? owner) then None else Some (Z.to_nat i)
    | None => None
    end.

Definition upd_sock (i : nat) (f : socket → socket) (s : sock_state) : sock_state := s <| sockets ::= alter f i |>.

Definition net_socket_init (s : sock_state) : sock_state :=
  mk_socks (replicate AEGIS_SOCKET_MAX zero_socket) 0 0 (sk_net s).

Definition net_socket_create (owner type : Z) (s : sock_state) : Z * sock_state :=
  if (owner =? 0) || (negb (type =? AEGIS_SOCK_STREAM) && negb (type =? AEGIS_SOCK_DGRAM)) then (AEGIS_EINVAL, s)
  else
    match find_slot (λ k, negb (sk_used k)) (sockets s) with
    | Some i =>
        (AEGIS_SOCKET_FD_BASE + Z.of_nat i,
         upd_sock i (λ _, zero_socket <| sk_used := true |> <| sk_owner_pid := owner |> <| sk_type := type |>
                            <| sk_transport_id := -1 |>) s)
    | None => (AEGIS_ENOMEM, s)
    end.

Definition drop_count (b : bool) (n : Z) : Z := if b && negb (n =? 0) then u32 (n - 1) else n.

Definition net_socket_close (owner fd : Z) (s : sock_state) : option (Z * sock_state) :=
  match sock_lookup owner fd s with
  | None => Some (AEGIS_ENOENT, s)
  | Some i =>
      k ← sockets s !! i;
      let s := if (sk_type k =? AEGIS_SOCK_DGRAM) && (0 <=? sk_transport_id k)
               then s <| sk_net ::= udp_unbind (sk_transport_id k) |> else s in
      s ← (if (sk_type k =? AEGIS_SOCK_STREAM) && (0 <=? sk_transport_id k)
           then '(_, n) ← tcp_close_id (sk_transport_id k) (sk_net s); Some (s <| sk_net := n |>) else Some s);
      Some (AEGIS_OK,
            upd_sock i (λ _, zero_socket)
              (s <| listening_count ::= drop_count (sk_listening k) |> <| connected_count ::= drop_count (sk_connected k) |>))
  end.

(** The loop over the entries [lo, lo + n). *)
Fixpoint close_from (owner : Z) (lo n : nat) (s : sock_state) : option sock_state :=
  match n with
  | O => Some s
  | S n =>
      k ← sockets s !! lo;
      s ← (if sk_used k && (sk_owner_pid k =? owner)
           then '(_, s) ← net_socket_close owner (AEGIS_SOCKET_FD_BASE + Z.of_nat lo) s; Some s else Some s);
      close_from owner (S lo) n s
  end.
Definition net_socket_close_all (owner : Z) (s : sock_state) : option sock_state := close_from owner 0 AEGIS_SOCKET_MAX s.
#[global] Arguments net_socket_close_all : simpl never.

Definition net_socket_bind (owner fd port : Z) (s : sock_state) : option (Z * sock_state) :=
  match sock_lookup owner fd s with
  | None => Some (AEGIS_EINVAL, s)
  | Some i =>
      if port =? 0 then Some (AEGIS_EINVAL, s)
      else
        k ← sockets s !! i;
        if negb (sk_local_port k =? 0) then Some (AEGIS_EBUSY, s)
        else
          let s := upd_sock i (λ k, k <| sk_local_port := port |>) s in
          if sk_type k =? AEGIS_SOCK_DGRAM then
            let '(t, n) := udp_bind port (sk_net s) in
            let s := upd_sock i (λ k, k <| sk_transport_id := t |>) (s <| sk_net := n |>) in
            Some (if t <? 0 then AEGIS_EBUSY else AEGIS_OK, s)
          else Some (AEGIS_OK, s)
  end.

Definition net_socket_listen (owner fd : Z) (s : sock_state) : option (Z * sock_state) :=
  match sock_lookup owner fd s with
  | None => Some (AEGIS_EINVAL, s)
  | Some i =>
      k ← sockets s !! i;
      if negb (sk_type k =? AEGIS_SOCK_STREAM) || (sk_local_port k =? 0) then Some (AEGIS_EINVAL, s)
      else
        let '(t, n) := tcp_listen (sk_local_port k) (sk_net s) in
        let s := upd_sock i (λ k, k <| sk_transport_id := t |>) (s <| sk_net := n |>) in
        if t <? 0 then Some (AEGIS_ENOMEM, s)
        else Some (AEGIS_OK, upd_sock i (λ k, k <| sk_listening := true |>) s <| listening_count ::= λ c, u32 (c + 1) |>)
  end.

Definition poll (s : sock_state) : option sock_state := n ← network_poll (sk_net s); Some (s <| sk_net := n |>).

Definition net_socket_accept (owner fd : Z) (s : sock_state) : option (Z * sock_state) :=
  match sock_lookup owner fd s with
  | None => Some (AEGIS_EINVAL, s)
  | Some i =>
      l ← sockets s !! i;
      if negb (sk_listening l) then Some (AEGIS_EINVAL, s)
      else
        s ← poll s;
        let '(tid, n) := tcp_accept (sk_transport_id l) (sk_net s) in
        let s := s <| sk_net := n |> in
        if tid <? 0 then Some (AEGIS_EAGAIN, s)
        else
          let '(child, s) := net_socket_create owner AEGIS_SOCK_STREAM s in
          if child <? 0 then Some (child, s)
          else
            c ← sock_lookup owner child s;
            Some (child, upd_sock c (λ k, k <| sk_local_port := sk_local_port l |> <| sk_transport_id := tid |>
                                           <| sk_connected := true |>) s <| connected_count ::= λ c, u32 (c + 1) |>)
  end.

Definition net_socket_connect (owner fd ip port : Z) (s : sock_state) : option (Z * sock_state) :=
  match sock_lookup owner fd s with
  | None => Some (AEGIS_EINVAL, s)
  | Some i =>
      k ← sockets s !! i;
      if negb (sk_type k =? AEGIS_SOCK_STREAM) || (ip =? 0) || (port =? 0) then Some (AEGIS_EINVAL, s)
      else
        '(t, n) ← tcp_connect ip port (sk_net s);
        let s := upd_sock i (λ k, k <| sk_transport_id := t |>) (s <| sk_net := n |>) in
        if t <? 0 then Some (AEGIS_EIO, s)
        else Some (AEGIS_OK, upd_sock i (λ k, k <| sk_remote_ip := ip |> <| sk_remote_port := port |>) s)
  end.

(** [data] is not NULL. *)
Definition net_socket_send (owner fd : Z) (data : list Z) (s : sock_state) : option (Z * sock_state) :=
  let len := Z.of_nat (length data) in
  match sock_lookup owner fd s with
  | None => Some (AEGIS_EINVAL, s)
  | Some i =>
      if (len =? 0) || (65535 <? len) then Some (AEGIS_EINVAL, s)
      else
        k ← sockets s !! i;
        if sk_type k =? AEGIS_SOCK_DGRAM then
          if (sk_local_port k =? 0) || (sk_remote_ip k =? 0) || (sk_remote_port k =? 0) then Some (AEGIS_EINVAL, s)
          else
            '(r, n) ← udp_send (sk_remote_ip k) (sk_remote_port k) (sk_local_port k) data (sk_net s);
            Some (if r =? 0 then len else AEGIS_EIO, s <| sk_net := n |>)
        else
          let s := if negb (sk_connected k) && tcp_is_established (sk_transport_id k) (sk_net s)
                   then upd_sock i (λ k, k <| sk_connected := true |>) s <| connected_count ::= λ c, u32 (c + 1) |>
                   else s in
          '(r, n) ← tcp_send_id (sk_transport_id k) data (sk_net s);
          Some (r, s <| sk_net := n |>)
  end.

(** The result and the bytes stored to [data], which is not NULL. *)
Definition net_socket_recv (owner fd len : Z) (s : sock_state) : option (Z * list Z * sock_state) :=
  match sock_lookup owner fd s with
  | None => Some (AEGIS_EINVAL, [], s)
  | Some i =>
      if len =? 0 then Some (AEGIS_EINVAL, [], s)
      else
        k ← sockets s !! i;
        s ← poll s;
        let max := if 65535 <? len then 65535 else len in
        if sk_type k =? AEGIS_SOCK_DGRAM then
          match udp_recv (sk_transport_id k) max (sk_net s) with
          | (Some (rc, bytes, ip, port), n) =>
              Some (rc, bytes, upd_sock i (λ k, k <| sk_remote_ip := ip |> <| sk_remote_port := port |>) (s <| sk_net := n |>))
          | (None, n) => Some (AEGIS_EAGAIN, [], s <| sk_net := n |>)
          end
        else
          let '(rc, bytes, n) := tcp_recv_id (sk_transport_id k) max (sk_net s) in
          Some (if rc <? 0 then AEGIS_EAGAIN else rc, bytes, s <| sk_net := n |>)
  end.

Definition selftest_owner : Z := 0xfffffff0.

Definition net_socket_selftest (s : sock_state) : option (Z * sock_state) :=
  let before := listening_count s in
  let '(stream, s) := net_socket_create selftest_owner AEGIS_SOCK_STREAM s in
  if stream <? 0 then Some (stream, s)
  else
    '(rc, s) ← net_socket_bind selftest_owner stream 49152 s;
    if negb (rc =? AEGIS_OK) then '(_, s) ← net_socket_close selftest_owner stream s; Some (rc, s)
    else
      '(rc, s) ← net_socket_listen selftest_owner stream s;
      if negb (rc =? AEGIS_OK) || negb (listening_count s =? u32 (before + 1))
      then '(_, s) ← net_socket_close selftest_owner stream s; Some (AEGIS_EIO, s)
      else
        '(rc, s) ← net_socket_close selftest_owner stream s;
        if negb (rc =? AEGIS_OK) || negb (listening_count s =? before) then Some (AEGIS_EIO, s)
        else
          let '(datagram, s) := net_socket_create selftest_owner AEGIS_SOCK_DGRAM s in
          if datagram <? 0 then Some (datagram, s)
          else
            '(rc, s) ← net_socket_bind selftest_owner datagram 49153 s;
            if negb (rc =? AEGIS_OK) then '(_, s) ← net_socket_close selftest_owner datagram s; Some (rc, s)
            else
              '(rc, s) ← net_socket_close selftest_owner datagram s;
              Some (if rc =? AEGIS_OK then AEGIS_OK else AEGIS_EIO, s).

(** * Operations of a process *)

Inductive sock_op :=
  | OCreate (type : Z) | OClose (fd : Z) | OCloseAll | OBind (fd port : Z) | OListen (fd : Z) | OAccept (fd : Z)
  | OConnect (fd ip port : Z) | OSend (fd : Z) (data : list Z) | ORecv (fd len : Z).

(** The call for process [owner]: result, bytes stored in the caller's buffer. *)
Definition sock_exec (owner : Z) (o : sock_op) (s : sock_state) : option (Z * list Z * sock_state) :=
  let plain r := '(rc, s) ← r; Some (rc, [], s) in
  match o with
  | OCreate type => plain (Some (net_socket_create owner type s))
  | OClose fd => plain (net_socket_close owner fd s)
  | OCloseAll => s ← net_socket_close_all owner s; Some (AEGIS_OK, [], s)
  | OBind fd port => plain (net_socket_bind owner fd port s)
  | OListen fd => plain (net_socket_listen owner fd s)
  | OAccept fd => plain (net_socket_accept owner fd s)
  | OConnect fd ip port => plain (net_socket_connect owner fd ip port s)
  | OSend fd data => plain (net_socket_send owner fd data s)
  | ORecv fd len => net_socket_recv owner fd len s
  end.

(** ** What an operation does to the table *)

(** The entries that belong to other processes. *)
Definition foreign (owner : Z) (k : socket) : option socket :=
  if sk_used k && negb (sk_owner_pid k =? owner) then Some k else None.
Definition others (owner : Z) (s : sock_state) : list (option socket) := foreign owner <$> sockets s.

Lemma sock_lookup_iff owner fd s i :
  sock_lookup owner fd s = Some i ↔
  (i < AEGIS_SOCKET_MAX)%nat ∧ fd = AEGIS_SOCKET_FD_BASE + Z.of_nat i ∧
  ∃ k, sockets s !! i = Some k ∧ sk_used k = true ∧ sk_owner_pid k = owner.
Proof.
  unfold sock_lookup, AEGIS_SOCKET_MAX. destruct (_ || _) eqn:E.
  - split; [done|]. intros (Hi & -> & _). apply orb_true_iff in E as [E%Z.ltb_lt|E%Z.leb_le]; lia.
  - apply orb_false_iff in E as [E1%Z.ltb_ge E2%Z.leb_gt]. split.
    + case_match eqn:Hk; [|done]. case_match eqn:E; [done|]. intros [= <-].
      apply orb_false_iff in E as [E3%negb_false_iff E4%negb_false_iff%Z.eqb_eq]. split; [lia|]. split; [lia|]. by eexists.
    + intros (Hi & -> & k & Hk & Hu & Ho). replace (Z.to_nat _) with i by lia. by rewrite Hk, Hu, Ho, Z.eqb_refl.
Qed.

Lemma sock_lookup_Some owner fd s i :
  sock_lookup owner fd s = Some i →
  ∃ k, sockets s !! i = Some k ∧ sk_used k = true ∧ sk_owner_pid k = owner ∧ fd = AEGIS_SOCKET_FD_BASE + Z.of_nat i.
Proof. intros (_ & -> & k & Hk & Hu & Ho)%sock_lookup_iff. by exists k. Qed.

Lemma others_upd owner i f s k :
  sockets s !! i = Some k → foreign owner k = None → foreign owner (f k) = None → others owner (upd_sock i f s) = others owner s.
Proof.
  intros Hk H1 H2. unfold others, upd_sock. cbn. apply list_eq. intros j. rewrite !list_lookup_fmap.
  destruct (decide (i = j)) as [<-|]; [|by rewrite list_lookup_alter_ne]. rewrite list_lookup_alter_eq, Hk. cbn. by rewrite H1, H2.
Qed.

(** An update of an entry of [owner] that leaves its owner alone. *)
Definition keeps_owner (f : socket → socket) : Prop :=
  ∀ k, sk_used k = true → sk_used (f k) = true → sk_owner_pid (f k) = sk_owner_pid k.

Lemma others_own owner i f s k :
  sockets s !! i = Some k → sk_used k = true → sk_owner_pid k = owner → keeps_owner f → others owner (upd_sock i f s) = others owner s.
Proof.
  intros Hk Hu Ho Hf. eapply others_upd; [done|..]; unfold foreign.
  - by rewrite Hu, Ho, Z.eqb_refl.
  - destruct (sk_used (f k)) eqn:E; [|done]. by rewrite (Hf k) by done; rewrite Ho, Z.eqb_refl.
Qed.

Lemma others_step owner i f s t k :
  sockets t = alter f i (sockets s) → sockets s !! i = Some k → sk_used k = true → sk_owner_pid k = owner → keeps_owner f →
  others owner t = others owner s.
Proof. intros Ht Hk Hu Ho Hf. rewrite <-(others_own owner i f s k) by done. unfold others. by rewrite Ht. Qed.

Lemma others_create owner type s : others owner (net_socket_create owner type s).2 = others owner s.
Proof.
  unfold net_socket_create. destruct (_ || _); [done|]. destruct (find_slot _ _) as [i|] eqn:E; [|done]. cbn [snd].
  apply find_slot_Some in E as (k & Hk & Hu%negb_true_iff & _). eapply others_upd; [done|..]; unfold foreign; cbn.
  - by rewrite Hu.
  - by rewrite Z.eqb_refl.
Qed.

Lemma others_ext owner s t : sockets t = sockets s → others owner t = others owner s.
Proof. unfold others. by intros ->. Qed.

Lemma poll_sockets s t : poll s = Some t → sockets t = sockets s.
Proof. unfold poll. intros H. bind_inv H. by injection H as <-. Qed.

(** Finds the entry of a successful lookup. *)
Ltac own_entry E :=
  let k := fresh "k" in
  let Hk := fresh "Hk" in
  let Hu := fresh "Hu" in
  let Ho := fresh "Ho" in
  apply sock_lookup_Some in E as (k & Hk & Hu & Ho & ->).

Lemma net_socket_close_own owner fd s rc t :
  net_socket_close owner fd s = Some (rc, t) →
  (sock_lookup owner fd s = None ∧ t = s ∧ rc = AEGIS_ENOENT) ∨
  (∃ i, sock_lookup owner fd s = Some i ∧ rc = AEGIS_OK ∧ sockets t = alter (λ _, zero_socket) i (sockets s)).
Proof.
  unfold net_socket_close. destruct (sock_lookup owner fd s) as [i|] eqn:E; [|intros [= <- <-]; by left]. intros H. right. exists i. split; [done|].
  bind_inv H. injection H as <- <-. split; [done|]. cbn. f_equal.
  match goal with E : _ = Some _ |- _ => revert E end. destruct (_ && _); case_match; intros E'; bind_inv E'; try pair_inv E'; by injection E' as <-.
Qed.

Lemma others_close owner fd s rc t : net_socket_close owner fd s = Some (rc, t) → others owner t = others owner s.
Proof.
  intros H. apply net_socket_close_own in H as [(_ & -> & _)|(i & E & _ & Ht)]; [done|]. own_entry E.
  by eapply others_step.
Qed.

Lemma others_close_from owner lo n s t : close_from owner lo n s = Some t → others owner t = others owner s.
Proof.
  revert lo s. induction n as [|n IH]; intros lo s H; [by injection H as <-|]. cbn in H. bind_inv H. bind_inv H.
  rewrite (IH _ _ H). match goal with E : (if _ then _ else _) = Some _ |- _ => rename E into Eb end.
  destruct (_ && _); [|by injection Eb as <-]. bind_inv Eb. pair_inv Eb. injection Eb as <-. by eapply others_close.
Qed.

Lemma others_bind owner fd port s rc t : net_socket_bind owner fd port s = Some (rc, t) → others owner t = others owner s.
Proof.
  unfold net_socket_bind. destruct (sock_lookup owner fd s) as [i|] eqn:E; [|by intros [= <- <-]]. own_entry E.
  destruct (port =? 0); [by intros [= <- <-]|]. rewrite Hk. cbn [mbind option_bind]. destruct (negb _); [by intros [= <- <-]|].
  destruct (_ =? AEGIS_SOCK_DGRAM); [|intros [= <- <-]; by eapply others_own].
  destruct (udp_bind _ _) as [tid m]. intros [= <- <-].
  erewrite others_own; [by eapply others_own|cbn; by rewrite list_lookup_alter_eq, Hk|done..].
Qed.

Lemma others_listen owner fd s rc t : net_socket_listen owner fd s = Some (rc, t) → others owner t = others owner s.
Proof.
  unfold net_socket_listen. destruct (sock_lookup owner fd s) as [i|] eqn:E; [|by intros [= <- <-]]. own_entry E.
  rewrite Hk. cbn [mbind option_bind]. destruct (_ || _); [by intros [= <- <-]|]. destruct (tcp_listen _ _) as [tid m].
  assert (H1 : others owner (upd_sock i (λ k, k <| sk_transport_id := tid |>) (s <| sk_net := m |>)) = others owner s)
    by (by eapply others_step).
  destruct (tid <? 0); intros [= <- <-]; [done|].
  etrans; [eapply others_step; [reflexivity|cbn; by rewrite list_lookup_alter_eq, Hk|done..]|done].
Qed.

Lemma others_accept owner fd s rc t : net_socket_accept owner fd s = Some (rc, t) → others owner t = others owner s.
Proof.
  unfold net_socket_accept. destruct (sock_lookup owner fd s) as [i|] eqn:E; [|by intros [= <- <-]]. own_entry E.
  rewrite Hk. cbn [mbind option_bind]. destruct (negb _); [by intros [= <- <-]|]. intros H. bind_inv H.
  match goal with E : poll s = Some ?u |- _ => apply poll_sockets in E; rename u into s1; rename E into Hs1 end.
  destruct (tcp_accept _ _) as [tid m]. destruct (tid <? 0); [injection H as <- <-; by apply others_ext|].
  pose proof (others_create owner AEGIS_SOCK_STREAM (s1 <| sk_net := m |>)) as Hc. destruct (net_socket_create _ _ _) as [child s2]. cbn [snd] in Hc.
  assert (others owner s2 = others owner s) as H2 by (rewrite Hc; by apply others_ext).
  destruct (child <? 0); [by injection H as <- <-|]. bind_inv H. injection H as <- <-.
  match goal with E : sock_lookup _ child s2 = Some ?j |- _ => own_entry E end.
  rewrite <-H2. by eapply others_step.
Qed.

(** ** Reception leaves the ports alone *)

Lemma ports_keeps s t : net_keeps s t → udp_ports t = udp_ports s.
Proof. intros H%config_keeps. by injection H. Qed.
Lemma tcp_send_segment_ports n fl data s r t : tcp_send_segment n fl data s = Some (r, t) → udp_ports t = udp_ports s.
Proof. intros H%tcp_send_segment_config. by injection H. Qed.
Lemma tcp_alloc_conn_ports s r t : tcp_alloc_conn s = (r, t) → udp_ports t = udp_ports s.
Proof. intros H%tcp_alloc_conn_config. by injection H. Qed.
Lemma poll_loop_ports n s t : poll_loop n s = Some t → udp_ports t = udp_ports s.
Proof. intros H%poll_loop_config. by injection H. Qed.

(** ** Datagram transports have one owner *)

(** The transport and port of a bound datagram socket. *)
Definition dgram (k : socket) : option (nat * Z) :=
  if sk_used k && (sk_type k =? AEGIS_SOCK_DGRAM) && (0 <=? sk_transport_id k)
  then Some (Z.to_nat (sk_transport_id k), sk_local_port k) else None.

Definition exclusive (v : list (option (nat * Z))) (b : list (bool * Z)) : Prop :=
  (∀ i t p, v !! i = Some (Some (t, p)) → b !! t = Some (true, p)) ∧
  (∀ i j t p q, v !! i = Some (Some (t, p)) → v !! j = Some (Some (t, q)) → i = j).
Definition owns_transports (s : sock_state) : Prop := exclusive (dgram <$> sockets s) (udp_ports (sk_net s)).

Lemma dgram_alter f i (l : list socket) : (∀ k, dgram (f k) = dgram k) → dgram <$> alter f i l = dgram <$> l.
Proof.
  intros Hf. apply list_eq. intros j. rewrite !list_lookup_fmap. destruct (decide (i = j)) as [<-|]; [|by rewrite list_lookup_alter_ne].
  rewrite list_lookup_alter_eq. destruct (_ !! i); [cbn; by rewrite Hf|done].
Qed.

Lemma dgram_insert f i (l : list socket) k : l !! i = Some k → dgram <$> alter f i l = <[i := dgram (f k)]> (dgram <$> l).
Proof.
  intros Hk. apply list_eq. intros j. rewrite list_lookup_fmap. destruct (decide (i = j)) as [<-|].
  - rewrite list_lookup_alter_eq, Hk, list_lookup_insert_eq; [done|]. rewrite length_fmap. by eapply lookup_lt_Some.
  - by rewrite list_lookup_alter_ne, list_lookup_insert_ne, list_lookup_fmap.
Qed.

Lemma exclusive_none i v b : exclusive v b → exclusive (<[i := None]> v) b.
Proof.
  intros [H1 H2]. assert (Hi : ∀ j x, <[i := None]> v !! j = Some (Some x) → v !! j = Some (Some x)).
  { intros j x E. apply list_lookup_insert_Some in E as [(_ & [=] & _)|[_ ?]]. done. }
  split; intros; [eapply H1|eapply H2]; eauto.
Qed.

Lemma exclusive_new i t p v b :
  exclusive v b → (∀ q, b !! t ≠ Some (true, q)) → is_Some (b !! t) → exclusive (<[i := Some (t, p)]> v) (<[t := (true, p)]> b).
Proof.
  intros [H1 H2] Hn Hb. assert (Hi : ∀ j u q, <[i := Some (t, p)]> v !! j = Some (Some (u, q)) →
    j = i ∧ u = t ∧ q = p ∨ u ≠ t ∧ v !! j = Some (Some (u, q))).
  { intros j u q E. apply list_lookup_insert_Some in E as [(-> & [= <- <-] & _)|[_ E]]; [by left|right].
    split; [|done]. intros ->. by apply H1, Hn in E. }
  split.
  - intros j u q [(-> & -> & ->)|[Hu E]]%Hi; [|rewrite list_lookup_insert_ne by done; by eapply H1].
    apply list_lookup_insert_eq. by apply lookup_lt_is_Some.
  - intros j j' u q q' [(-> & -> & ->)|[Hu E]]%Hi [(-> & ? & ->)|[Hu' E']]%Hi; try done. by eapply H2.
Qed.

(** A transport is released. *)
Lemma exclusive_release i t p v b :
  exclusive v b → v !! i = Some (Some (t, p)) → exclusive (<[i := None]> v) (alter (λ x, (false, x.2)) t b).
Proof.
  intros [H1 H2] Hi. assert (Hj : ∀ j u q, <[i := None]> v !! j = Some (Some (u, q)) → u ≠ t ∧ v !! j = Some (Some (u, q))).
  { intros j u q E. apply list_lookup_insert_Some in E as [(_ & [=] & _)|[Hne E]]. split; [|done]. intros ->. apply Hne. by eapply H2. }
  split.
  - intros j u q [Hu E]%Hj. rewrite list_lookup_alter_ne by done. by eapply H1.
  - intros j j' u q q' [_ E]%Hj [_ E']%Hj. by eapply H2.
Qed.

Lemma owns_same s t :
  owns_transports s → dgram <$> sockets t = dgram <$> sockets s → udp_ports (sk_net t) = udp_ports (sk_net s) → owns_transports t.
Proof. unfold owns_transports. by intros H -> ->. Qed.

(** A socket of the table loses its datagram transport or never had one. *)
Lemma owns_none i f s t k :
  owns_transports s → sockets s !! i = Some k → sockets t = alter f i (sockets s) → dgram (f k) = None →
  udp_ports (sk_net t) = udp_ports (sk_net s) → owns_transports t.
Proof. unfold owns_transports. intros H Hk -> Hd ->. rewrite (dgram_insert f i _ k), Hd by done. by apply exclusive_none. Qed.

Lemma ports_lookup t s k : n_udp s !! t = Some k → udp_ports s !! t = Some (us_bound k, us_local_port k).
Proof. intros H. unfold udp_ports. by rewrite list_lookup_fmap, H. Qed.

Lemma udp_bind_ports port s t u :
  udp_bind port s = (t, u) →
  (t = -1 ∧ u = s) ∨
  ∃ i, t = Z.of_nat i ∧ udp_ports u = <[i := (true, port)]> (udp_ports s) ∧ is_Some (udp_ports s !! i) ∧ ∀ q, udp_ports s !! i ≠ Some (true, q).
Proof.
  unfold udp_bind. destruct (find_slot _ _) as [i|] eqn:E; [|intros [= <- <-]; by left]. intros [= <- <-]. right. exists i. split; [done|].
  apply find_slot_Some in E as (k & Hk & Hb%negb_true_iff & _). rewrite (ports_lookup i s k Hk). split; [|split; [by eexists|]].
  - unfold udp_ports. cbn. apply list_eq. intros j. rewrite list_lookup_fmap. destruct (decide (i = j)) as [<-|].
    + rewrite list_lookup_alter_eq, Hk, list_lookup_insert_eq; [done|]. rewrite length_fmap. by eapply lookup_lt_Some.
    + by rewrite list_lookup_alter_ne, list_lookup_insert_ne, list_lookup_fmap.
  - intros q. rewrite Hb. congruence.
Qed.

Lemma udp_unbind_ports t s :
  udp_ports (udp_unbind (Z.of_nat t) s) = udp_ports s ∨ udp_ports (udp_unbind (Z.of_nat t) s) = alter (λ x, (false, x.2)) t (udp_ports s).
Proof.
  unfold udp_unbind. destruct (_ && _); [right|by left]. rewrite Nat2Z.id. unfold udp_ports. cbn. apply list_eq. intros j.
  rewrite list_lookup_fmap. destruct (decide (t = j)) as [<-|]; [|by rewrite !list_lookup_alter_ne, list_lookup_fmap].
  rewrite !list_lookup_alter_eq, list_lookup_fmap. by destruct (_ !! t).
Qed.

Lemma poll_ports s t : poll s = Some t → sockets t = sockets s ∧ udp_ports (sk_net t) = udp_ports (sk_net s).
Proof.
  intros H. split; [by eapply poll_sockets|]. unfold poll in H. bind_inv H. injection H as <-.
  match goal with E : network_poll _ = _ |- _ => by apply poll_loop_ports in E end.
Qed.

Lemma tcp_close_id_ports c s r t : tcp_close_id c s = Some (r, t) → udp_ports t = udp_ports s.
Proof.
  unfold tcp_close_id. intros H. destruct (_ || _); [by injection H as <- <-|]. cbn zeta in H. bind_inv H. destruct (negb _); [by injection H as <- <-|].
  match type of H with match ?st with _ => _ end = _ => destruct st end; try (by injection H as <- <-);
    apply tcp_send_segment_ports in H; exact H.
Qed.

Lemma send_chunks_ports fuel n stop data s r t : send_chunks fuel n stop data s = Some (r, t) → udp_ports t = udp_ports s.
Proof.
  revert data s. induction fuel as [|fuel IH]; intros data s H; [by injection H as <- <-|]. cbn [send_chunks] in H.
  destruct data as [|b data]; [by injection H as <- <-|]. bind_inv H. pair_inv H.
  match goal with E : tcp_send_segment _ _ _ _ = _ |- _ => apply tcp_send_segment_ports in E; rewrite <-E end.
  destruct (_ && _); [by injection H as <- <-|]. by eapply IH.
Qed.

Lemma tcp_send_id_ports c data s r t : tcp_send_id c data s = Some (r, t) → udp_ports t = udp_ports s.
Proof.
  unfold tcp_send_id. intros H. cbn zeta in H. destruct (_ || _); [by injection H as <- <-|]. bind_inv H. destruct (_ && _); [|by injection H as <- <-].
  bind_inv H. pair_inv H. injection H as <- <-. by eapply send_chunks_ports.
Qed.

Lemma udp_send_ports ip dp sp data s r t : udp_send ip dp sp data s = Some (r, t) → udp_ports t = udp_ports s.
Proof.
  unfold udp_send. intros H. cbn zeta in H. destruct (_ =? 0); [by injection H as <- <-|]. destruct (_ <? _); [by injection H as <- <-|].
  destruct (_ <? _); [done|]. by apply ipv4_send_keeps, ports_keeps in H.
Qed.

Lemma tcp_connect_ports ip port s r t : tcp_connect ip port s = Some (r, t) → udp_ports t = udp_ports s.
Proof.
  unfold tcp_connect. intros H. destruct (tcp_alloc_conn s) as [[n|] u] eqn:Ea; apply tcp_alloc_conn_ports in Ea; [|by injection H as <- <-].
  cbn zeta in H. bind_inv H. pair_inv H. injection H as <- <-.
  match goal with E : tcp_send_segment _ _ _ _ = _ |- _ => apply tcp_send_segment_ports in E; exact (eq_trans E Ea) end.
Qed.

Lemma tcp_listen_ports port s r t : tcp_listen port s = (r, t) → udp_ports t = udp_ports s.
Proof.
  unfold tcp_listen. destruct (tcp_alloc_conn s) as [[n|] u] eqn:Ea; apply tcp_alloc_conn_ports in Ea; by intros [= <- <-].
Qed.

Lemma tcp_accept_ports l s r t : tcp_accept l s = (r, t) → udp_ports t = udp_ports s.
Proof.
  unfold tcp_accept. destruct (_ || _); [by intros [= <- <-]|]. case_match; [|by intros [= <- <-]]. destruct (_ && _); [|by intros [= <- <-]].
  destruct (find_slot _ _); by intros [= <- <-].
Qed.

Lemma udp_recv_ports k max s r t : udp_recv k max s = (r, t) → udp_ports t = udp_ports s.
Proof.
  unfold udp_recv. destruct (_ || _); [by intros [= <- <-]|]. case_match; [|by intros [= <- <-]]. destruct (_ || _); [by intros [= <- <-]|].
  intros [= <- <-]. by apply ports_alter.
Qed.

Lemma tcp_recv_id_ports c max s r bs t : tcp_recv_id c max s = (r, bs, t) → udp_ports t = udp_ports s.
Proof.
  unfold tcp_recv_id. destruct (_ || _); [by intros [= <- <- <-]|]. case_match; [|by intros [= <- <- <-]]. destruct (_ && _); [|by intros [= <- <- <-]].
  destruct (_ =? 0); by intros [= <- <- <-].
Qed.

Lemma dgram_type k : sk_type k ≠ AEGIS_SOCK_DGRAM → dgram k = None.
Proof. intros H. unfold dgram. by rewrite (proj2 (Z.eqb_neq _ _) H), andb_false_r. Qed.

Lemma owns_create owner type s : owns_transports s → owns_transports (net_socket_create owner type s).2.
Proof.
  intros Hs. unfold net_socket_create. destruct (_ || _); [done|]. destruct (find_slot _ _) as [i|] eqn:E; [|done]. cbn [snd].
  apply find_slot_Some in E as (k & Hk & _ & _). eapply owns_none; [exact Hs|exact Hk|reflexivity| |done]. unfold dgram. cbn. by rewrite andb_false_r.
Qed.

Lemma owns_close owner fd s rc t : net_socket_close owner fd s = Some (rc, t) → owns_transports s → owns_transports t.
Proof.
  unfold net_socket_close. destruct (sock_lookup owner fd s) as [i|] eqn:E; [|by intros [= <- <-]]. own_entry E. rewrite Hk. cbn [mbind option_bind].
  intros H Hs. bind_inv H. injection H as _ <-. match goal with E : _ = Some ?u |- _ => rename E into Et; rename u into s2 end.
  destruct ((sk_type k =? AEGIS_SOCK_DGRAM) && _) eqn:Ed, ((sk_type k =? AEGIS_SOCK_STREAM) && _) eqn:Es.
  - apply andb_true_iff in Ed as [Ed%Z.eqb_eq _], Es as [Es%Z.eqb_eq _]. rewrite Ed in Es. done.
  - injection Et as <-. apply andb_true_iff in Ed as [Ed%Z.eqb_eq Ed2%Z.leb_le].
    assert (Hd : (dgram <$> sockets s) !! i = Some (Some (Z.to_nat (sk_transport_id k), sk_local_port k))).
    { rewrite list_lookup_fmap, Hk. cbn. unfold dgram. by rewrite Hu, Ed, (proj2 (Z.leb_le _ _) Ed2). }
    unfold owns_transports. cbn. rewrite (dgram_insert _ i _ k) by done. change (dgram zero_socket) with (@None (nat * Z)).
    destruct (udp_unbind_ports (Z.to_nat (sk_transport_id k)) (sk_net s)) as [Hb|Hb]; rewrite Z2Nat.id in Hb by done; rewrite Hb.
    + by apply exclusive_none.
    + by eapply exclusive_release.
  - bind_inv Et. pair_inv Et. injection Et as <-.
    match goal with E : tcp_close_id _ _ = _ |- _ => apply tcp_close_id_ports in E end. by eapply owns_none.
  - injection Et as <-. by eapply owns_none.
Qed.

Lemma owns_close_from owner lo n s t : close_from owner lo n s = Some t → owns_transports s → owns_transports t.
Proof.
  revert lo s. induction n as [|n IH]; intros lo s H Hs; [by injection H as <-|]. cbn in H. bind_inv H. bind_inv H.
  apply (IH _ _ H). match goal with E : (if _ then _ else _) = Some _ |- _ => rename E into Eb end.
  destruct (_ && _); [|by injection Eb as <-]. bind_inv Eb. pair_inv Eb. injection Eb as <-. by eapply owns_close.
Qed.

Lemma owns_bind owner fd port s rc t : net_socket_bind owner fd port s = Some (rc, t) → owns_transports s → owns_transports t.
Proof.
  unfold net_socket_bind. destruct (sock_lookup owner fd s) as [i|] eqn:E; [|by intros [= <- <-]]. own_entry E.
  destruct (port =? 0); [by intros [= <- <-]|]. rewrite Hk. cbn [mbind option_bind]. destruct (negb _); [by intros [= <- <-]|].
  destruct (_ =? AEGIS_SOCK_DGRAM) eqn:Ed.
  - apply Z.eqb_eq in Ed. cbn [sk_net upd_sock set_field]. destruct (udp_bind _ _) as [tid m] eqn:Eb. intros [= _ <-] Hs.
    unfold owns_transports. cbn. rewrite (dgram_insert _ i _ (k <| sk_local_port := port |>)) by (by rewrite list_lookup_alter_eq, Hk).
    rewrite (dgram_insert _ i _ k), list_insert_insert_eq by done.
    apply udp_bind_ports in Eb as [[-> ->]|(j & -> & -> & Hj & Hn)].
    + replace (dgram _) with (@None (nat * Z)); [by apply exclusive_none|]. unfold dgram. cbn. by rewrite andb_false_r.
    + replace (dgram _) with (Some (j, port)); [by apply exclusive_new|]. unfold dgram. cbn. rewrite Hu, Ed, (proj2 (Z.leb_le _ _)), Nat2Z.id by lia. done.
  - apply Z.eqb_neq in Ed. intros [= _ <-] Hs. eapply owns_none; [exact Hs|exact Hk|reflexivity|by apply dgram_type|done].
Qed.

Lemma owns_listen owner fd s rc t : net_socket_listen owner fd s = Some (rc, t) → owns_transports s → owns_transports t.
Proof.
  unfold net_socket_listen. destruct (sock_lookup owner fd s) as [i|] eqn:E; [|by intros [= <- <-]]. own_entry E.
  rewrite Hk. cbn [mbind option_bind]. destruct (_ || _) eqn:Ec; [by intros [= <- <-]|].
  apply orb_false_iff in Ec as [Ec%negb_false_iff%Z.eqb_eq _]. destruct (tcp_listen _ _) as [tid m] eqn:El. apply tcp_listen_ports in El. intros H Hs.
  assert (H1 : owns_transports (upd_sock i (λ k, k <| sk_transport_id := tid |>) (s <| sk_net := m |>)))
    by (eapply owns_none; [exact Hs|exact Hk|reflexivity|apply dgram_type; cbn; by rewrite Ec|done]).
  destruct (tid <? 0); injection H as _ <-; [done|]. eapply owns_none; [exact H1|cbn; by rewrite list_lookup_alter_eq, Hk|reflexivity| |done].
  apply dgram_type. cbn. by rewrite Ec.
Qed.

Lemma owns_accept owner fd s rc t : net_socket_accept owner fd s = Some (rc, t) → owns_transports s → owns_transports t.
Proof.
  unfold net_socket_accept. destruct (sock_lookup owner fd s) as [i|] eqn:E; [|by intros [= <- <-]]. own_entry E.
  rewrite Hk. cbn [mbind option_bind]. destruct (negb _); [by intros [= <- <-]|]. intros H Hs. bind_inv H.
  match goal with E : poll s = Some ?u |- _ => apply poll_ports in E as [Hs1 Hb1]; rename u into s1 end.
  destruct (tcp_accept _ _) as [tid m] eqn:Ea. apply tcp_accept_ports in Ea.
  assert (H1 : owns_transports (s1 <| sk_net := m |>)) by (eapply owns_same; [exact Hs|cbn; by rewrite Hs1|cbn; by rewrite Ea]).
  destruct (tid <? 0); [by injection H as _ <-|].
  pose proof (owns_create owner AEGIS_SOCK_STREAM _ H1) as H2. destruct (net_socket_create _ _ _) as [child s2] eqn:Ec. cbn [snd] in H2.
  destruct (child <? 0) eqn:Eneg; [by injection H as _ <-|]. bind_inv H. injection H as _ <-.
  match goal with E : sock_lookup _ child s2 = Some ?j |- _ => own_entry E; rename j into c end.
  eapply owns_none; [exact H2|exact Hk0|reflexivity| |done]. apply dgram_type. cbn.
  unfold net_socket_create in Ec. destruct (_ || _); [injection Ec as Ec _; unfold AEGIS_EINVAL, AEGIS_ENOMEM, AEGIS_SOCKET_FD_BASE in *; lia|]. destruct (find_slot _ _) as [c'|] eqn:Ef; [|injection Ec as Ec _; unfold AEGIS_EINVAL, AEGIS_ENOMEM, AEGIS_SOCKET_FD_BASE in *; lia].
  injection Ec as Ec <-. assert (c' = c) as -> by (unfold AEGIS_SOCKET_FD_BASE in Ec; lia). cbn in Hk0. apply find_slot_Some in Ef as (k' & Hk' & _).
  cbn in Hk'. rewrite list_lookup_alter_eq, Hk' in Hk0. by injection Hk0 as <-.
Qed.

Lemma owns_connect owner fd ip port s rc t : net_socket_connect owner fd ip port s = Some (rc, t) → owns_transports s → owns_transports t.
Proof.
  unfold net_socket_connect. destruct (sock_lookup owner fd s) as [i|] eqn:E; [|by intros [= <- <-]]. own_entry E.
  rewrite Hk. cbn [mbind option_bind]. destruct (_ || _) eqn:Ec; [by intros [= <- <-]|].
  apply orb_false_iff in Ec as [[Ec%negb_false_iff%Z.eqb_eq _]%orb_false_iff _]. intros H Hs. bind_inv H. destruct p as [tid m].
  match goal with E : tcp_connect _ _ _ = _ |- _ => apply tcp_connect_ports in E; rename E into El end.
  assert (H1 : owns_transports (upd_sock i (λ k, k <| sk_transport_id := tid |>) (s <| sk_net := m |>)))
    by (eapply owns_none; [exact Hs|exact Hk|reflexivity|apply dgram_type; cbn; by rewrite Ec|done]).
  destruct (tid <? 0); injection H as _ <-; [done|]. eapply owns_none; [exact H1|cbn; by rewrite list_lookup_alter_eq, Hk|reflexivity| |done].
  apply dgram_type. cbn. by rewrite Ec.
Qed.

Lemma owns_send owner fd data s rc t : net_socket_send owner fd data s = Some (rc, t) → owns_transports s → owns_transports t.
Proof.
  unfold net_socket_send. destruct (sock_lookup owner fd s) as [i|] eqn:E; [|by intros [= <- <-]]. own_entry E.
  destruct (_ || _); [by intros [= <- <-]|]. rewrite Hk. cbn [mbind option_bind]. destruct (_ =? AEGIS_SOCK_DGRAM).
  - destruct (_ || _); [by intros [= <- <-]|]. intros H Hs. bind_inv H. pair_inv H. injection H as _ <-.
    match goal with E : udp_send _ _ _ _ _ = _ |- _ => apply udp_send_ports in E end. by eapply owns_same.
  - intros H Hs. bind_inv H. pair_inv H. injection H as _ <-.
    match goal with E : tcp_send_id _ _ _ = _ |- _ => apply tcp_send_id_ports in E; rename E into El end.
    destruct (_ && _); (eapply owns_same; [exact Hs| |exact El]); [|done]. by apply dgram_alter.
Qed.

Lemma owns_recv owner fd len s rc bs t : net_socket_recv owner fd len s = Some (rc, bs, t) → owns_transports s → owns_transports t.
Proof.
  unfold net_socket_recv. destruct (sock_lookup owner fd s) as [i|] eqn:E; [|by intros [= <- <- <-]]. own_entry E.
  destruct (_ =? 0); [by intros [= <- <- <-]|]. rewrite Hk. cbn [mbind option_bind]. intros H Hs. bind_inv H.
  match goal with E : poll s = Some ?u |- _ => apply poll_ports in E as [Hs1 Hb1]; rename u into s1 end.
  destruct (_ =? AEGIS_SOCK_DGRAM).
  - destruct (udp_recv _ _ _) as [[[[[r b] ip] port]|] m] eqn:Er; apply udp_recv_ports in Er; injection H as _ _ <-;
      (eapply owns_same; [exact Hs| |cbn; by rewrite Er]); cbn; rewrite Hs1; [by apply dgram_alter|done].
  - destruct (tcp_recv_id _ _ _) as [[r b] m] eqn:Er. apply tcp_recv_id_ports in Er. injection H as _ _ <-.
    eapply owns_same; [exact Hs|cbn; by rewrite Hs1|cbn; by rewrite Er].
Qed.

Lemma owns_exec owner o s rc bs t : sock_exec owner o s = Some (rc, bs, t) → owns_transports s → owns_transports t.
Proof.
  destruct o; cbn [sock_exec]; intros H Hs.
  1: pose proof (owns_create owner type s Hs); destruct (net_socket_create _ _ _); by injection H as <- <- <-.
  8: by eapply owns_recv.
  2: bind_inv H; injection H as <- <- <-; by eapply owns_close_from.
  all: bind_inv H; pair_inv H; injection H as <- <- <-.
  - by eapply owns_close.
  - by eapply owns_bind.
  - by eapply owns_listen.
  - by eapply owns_accept.
  - by eapply owns_connect.
  - by eapply owns_send.
Qed.

Lemma others_connect owner fd ip port s rc t : net_socket_connect owner fd ip port s = Some (rc, t) → others owner t = others owner s.
Proof.
  unfold net_socket_connect. destruct (sock_lookup owner fd s) as [i|] eqn:E; [|by intros [= <- <-]]. own_entry E.
  rewrite Hk. cbn [mbind option_bind]. destruct (_ || _); [by intros [= <- <-]|]. intros H. bind_inv H. destruct p as [tid m].
  assert (H1 : others owner (upd_sock i (λ k, k <| sk_transport_id := tid |>) (s <| sk_net := m |>)) = others owner s)
    by (by eapply others_step).
  destruct (tid <? 0); injection H as <- <-; [done|].
  etrans; [eapply others_step; [reflexivity|cbn; by rewrite list_lookup_alter_eq, Hk|done..]|done].
Qed.

Lemma others_send owner fd data s rc t : net_socket_send owner fd data s = Some (rc, t) → others owner t = others owner s.
Proof.
  unfold net_socket_send. destruct (sock_lookup owner fd s) as [i|] eqn:E; [|by intros [= <- <-]]. own_entry E.
  destruct (_ || _); [by intros [= <- <-]|]. rewrite Hk. cbn [mbind option_bind]. destruct (_ =? AEGIS_SOCK_DGRAM).
  - destruct (_ || _); [by intros [= <- <-]|]. intros H. bind_inv H. pair_inv H. by injection H as <- <-.
  - intros H. bind_inv H. pair_inv H. injection H as <- <-. destruct (_ && _); [by eapply others_step|done].
Qed.

Lemma others_recv owner fd len s rc bs t : net_socket_recv owner fd len s = Some (rc, bs, t) → others owner t = others owner s.
Proof.
  unfold net_socket_recv. destruct (sock_lookup owner fd s) as [i|] eqn:E; [|by intros [= <- <- <-]]. own_entry E.
  destruct (_ =? 0); [by intros [= <- <- <-]|]. rewrite Hk. cbn [mbind option_bind]. intros H. bind_inv H.
  match goal with E : poll s = Some ?u |- _ => apply poll_sockets in E; rename u into s1; rename E into Hs1 end.
  destruct (_ =? AEGIS_SOCK_DGRAM).
  - destruct (udp_recv _ _ _) as [[[[[r b] ip] port]|] m]; injection H as <- <- <-; [|by apply others_ext].
    eapply others_step; [cbn; by rewrite Hs1|done..].
  - destruct (tcp_recv_id _ _ _) as [[r b] m]. injection H as <- <- <-. by apply others_ext.
Qed.

Lemma others_exec owner o s rc bs t : sock_exec owner o s = Some (rc, bs, t) → others owner t = others owner s.
Proof.
  destruct o; cbn [sock_exec]; intros H.
  1: pose proof (others_create owner type s); destruct (net_socket_create _ _ _); by injection H as <- <- <-.
  8: by eapply others_recv.
  2: bind_inv H; injection H as <- <- <-; by eapply others_close_from.
  all: bind_inv H; pair_inv H; injection H as <- <- <-.
  - by eapply others_close.
  - by eapply others_bind.
  - by eapply others_listen.
  - by eapply others_accept.
  - by eapply others_connect.
  - by eapply others_send.
Qed.

(** A history: each call with the process that makes it. *)
Fixpoint run_socks (tr : list (Z * sock_op)) (s : sock_state) : option sock_state :=
  match tr with
  | [] => Some s
  | (owner, o) :: tr => '(_, s) ← sock_exec owner o s; run_socks tr s
  end.

Lemma others_entry p s t i k :
  others p t = others p s → sk_used k = true → sk_owner_pid k ≠ p → sockets s !! i = Some k → sockets t !! i = Some k.
Proof.
  intros H Hu Ho Hk. assert (others p t !! i = Some (Some k)) as E.
  { rewrite H. unfold others. rewrite list_lookup_fmap, Hk. cbn. unfold foreign. by rewrite Hu, (proj2 (Z.eqb_neq _ _)). }
  unfold others in E. rewrite list_lookup_fmap in E. apply fmap_Some in E as (k' & Hk' & E).
  unfold foreign in E. case_match; [|done]. by injection E as ->.
Qed.

(** * Theorems *)

(** Sockets are private.  Whatever other processes do with sockets, the
    entries of the table that belong to process [pid] are the same before and
    after: none is closed, bound, connected or renamed, and none is created in
    its name.  Every descriptor of [pid] therefore names the same socket. *)
Theorem socket_isolation pid tr s t :
  Forall (λ x, x.1 ≠ pid) tr → run_socks tr s = Some t →
  (∀ i k, sk_used k = true → sk_owner_pid k = pid → (sockets s !! i = Some k ↔ sockets t !! i = Some k)) ∧
  ∀ fd, sock_lookup pid fd t = sock_lookup pid fd s.
Proof.
  intros Hf Hr. assert (Hent : ∀ i k, sk_used k = true → sk_owner_pid k = pid → (sockets s !! i = Some k ↔ sockets t !! i = Some k)).
  { revert s Hr. induction Hf as [|[p o] tr Hp Hf IH]; intros s Hr i k Hu Ho; [by injection Hr as <-|]. cbn in Hr. bind_inv Hr. destruct p0 as [[rc bs] u].
    match goal with E : sock_exec p o s = _ |- _ => apply others_exec in E; rename E into He end.
    rewrite <-(IH u Hr i k Hu Ho). cbn in Hp. split; eapply others_entry; eauto; congruence. }
  split; [done|]. intros fd. apply option_eq. intros i. rewrite !sock_lookup_iff.
  split; intros (Hi & -> & k & Hk & Hu & Ho); (split; [done|]; split; [done|]; exists k; split; [by apply (Hent i k)|done]).
Qed.

(** A datagram transport has one owner.  In every history of the socket
    layer, each bound datagram socket has a transport that is bound to the
    socket's own port, and no two sockets, of the same or of different
    processes, share one: what [net_socket_recv] takes from a datagram transport
    is never another socket's data. *)
Theorem datagram_transports tr s t :
  run_socks tr (net_socket_init s) = Some t →
  ∀ i k u p, sockets t !! i = Some k → dgram k = Some (u, p) →
  udp_ports (sk_net t) !! u = Some (true, p) ∧
  ∀ j l q, sockets t !! j = Some l → dgram l = Some (u, q) → j = i.
Proof.
  intros Hr. assert (owns_transports t) as [H1 H2].
  { assert (owns_transports (net_socket_init s)) as H0.
    { split; intros i ?; intros; rewrite list_lookup_fmap in *;
        (destruct (sockets (net_socket_init s) !! i) eqn:E; [|done]); apply lookup_replicate in E as [-> _]; done. }
    revert H0 Hr. generalize (net_socket_init s). induction tr as [|[p o] tr IH]; intros s1 H0 Hr; [by injection Hr as <-|].
    cbn in Hr. bind_inv Hr. destruct p0 as [[rc bs] s2]. apply (IH s2); [|done]. by eapply owns_exec. }
  intros i k u p Hk Hd. assert (Hv : ∀ j l x, sockets t !! j = Some l → dgram l = Some x → (dgram <$> sockets t) !! j = Some (Some x)).
  { intros j l x Hl Hx. by rewrite list_lookup_fmap, Hl, <-Hx. }
  split; [by eapply H1, Hv|]. intros j l q Hl Hq. by eapply (H2 j i u q p); eapply Hv.
Qed.

(** ** Leaving *)

Lemma close_from_closes owner lo n s t :
  close_from owner lo n s = Some t → (lo + n ≤ AEGIS_SOCKET_MAX)%nat →
  ∀ i k, sockets t !! i = Some k → sk_used k = true → sk_owner_pid k = owner → ¬ (lo ≤ i < lo + n)%nat.
Proof.
  revert lo s. induction n as [|n IH]; intros lo s H Hn i k Hk Hu Ho Hi; [lia|]. cbn [close_from] in H. bind_inv H. bind_inv H.
  destruct (decide (i = lo)) as [->|]; [|by apply (IH (S lo) _ H ltac:(lia) i k Hk Hu Ho); lia].
  match goal with E : (if _ then _ else _) = Some ?u |- _ => rename E into Eb; rename u into s1 end.
  match goal with E : sockets s !! lo = Some ?q |- _ => rename q into k0; rename E into Hk0 end.
  assert (Hn1 : ∀ k', sockets s1 !! lo = Some k' → sk_used k' = true → sk_owner_pid k' ≠ owner).
  { intros k' Hk' Hu' Ho'. destruct (sk_used k0 && (sk_owner_pid k0 =? owner)) eqn:E0.
    - bind_inv Eb. destruct p as [rc s2]. injection Eb as <-. apply andb_true_iff in E0 as [E1 E2%Z.eqb_eq].
      assert (sock_lookup owner (AEGIS_SOCKET_FD_BASE + Z.of_nat lo) s = Some lo) as El by (apply sock_lookup_iff; split; [lia|by eauto]).
      match goal with E : net_socket_close _ _ _ = _ |- _ => apply net_socket_close_own in E as [(E & _)|(j & E & _ & Hs2)]; rewrite El in E; [done|injection E as <-] end.
      rewrite Hs2, list_lookup_alter_eq, Hk0 in Hk'. by injection Hk' as <-.
    - injection Eb as <-. rewrite Hk0 in Hk'. injection Hk' as <-. by rewrite Hu', Ho', Z.eqb_refl in E0. }
  (* the rest of the loop creates nothing *)
  assert (Hmono : ∀ m l u v, close_from owner l m u = Some v → ∀ k', sockets v !! lo = Some k' → sk_used k' = true → sockets u !! lo = Some k').
  { clear. induction m as [|m IH]; intros l u v H k' Hk' Hu'; [by injection H as <-|]. cbn [close_from] in H. bind_inv H. bind_inv H.
    specialize (IH _ _ _ H _ Hk' Hu'). match goal with E : (if _ then _ else _) = Some _ |- _ => rename E into Eb end.
    destruct (_ && _); [|by injection Eb as <-]. bind_inv Eb. destruct p as [rc s2]. injection Eb as <-.
    match goal with E : net_socket_close _ _ _ = _ |- _ => apply net_socket_close_own in E as [(_ & -> & _)|(j & _ & _ & Hs2)]; [done|] end.
    rewrite Hs2 in IH. destruct (decide (j = lo)) as [->|]; [|by rewrite list_lookup_alter_ne in IH].
    rewrite list_lookup_alter_eq in IH. destruct (sockets u !! lo); [|done]. injection IH as <-. done. }
  exact (Hn1 k (Hmono _ _ _ _ H k Hk Hu) Hu Ho).
Qed.

(** A process that has gone owns no socket, and the others keep theirs. *)
Lemma net_socket_close_all_closes owner s t :
  net_socket_close_all owner s = Some t → length (sockets t) = AEGIS_SOCKET_MAX →
  (∀ k, k ∈ sockets t → sk_used k = true → sk_owner_pid k ≠ owner) ∧ others owner t = others owner s.
Proof.
  intros H Hl. split; [|by eapply others_close_from]. intros k Hk Hu Ho. apply list_elem_of_lookup_1 in Hk as [i Hi].
  apply (close_from_closes owner 0 AEGIS_SOCKET_MAX s t H) with (i := i) (k := k); [lia|done..|].
  apply lookup_lt_Some in Hi. lia.
Qed.

(** * Examples *)

Definition example_socks : sock_state := net_socket_init (mk_socks [] 0 0 zero_net).

(** Process 2 binds port 68 for datagrams, process 3 a stream socket to port 80. *)
Definition example_history : list (Z * sock_op) :=
  [(2, OCreate AEGIS_SOCK_DGRAM); (2, OBind 0x1000 68); (3, OCreate AEGIS_SOCK_STREAM); (3, OBind 0x1001 80); (3, OListen 0x1001)].

Definition example_mid : sock_state := default example_socks (run_socks (take 2 example_history) example_socks).
Definition example_end : sock_state := default example_mid (run_socks (drop 2 example_history) example_mid).
Lemma example_mid_end : run_socks (drop 2 example_history) example_mid = Some example_end.
Proof.
  assert (bool_decide (is_Some (run_socks (drop 2 example_history) example_mid)) = true) as E by (vm_compute; reflexivity).
  apply bool_decide_eq_true in E as [t Et]. unfold example_end. by rewrite Et.
Qed.
Lemma example_start_end : run_socks example_history (net_socket_init (mk_socks [] 0 0 zero_net)) = Some example_end.
Proof.
  change example_history with (take 2 example_history ++ drop 2 example_history).
  assert (H : ∀ a b s, run_socks (a ++ b) s = run_socks a s ≫= run_socks b).
  { induction a as [|[p o] a IH]; intros b s; [done|]. cbn. destruct (sock_exec p o s) as [[[? ?] u]|]; [|done]. cbn. apply IH. }
  rewrite H. change (net_socket_init (mk_socks [] 0 0 zero_net)) with example_socks.
  assert (bool_decide (is_Some (run_socks (take 2 example_history) example_socks)) = true) as E by (vm_compute; reflexivity).
  pose proof example_mid_end as Hm. unfold example_mid in Hm. apply bool_decide_eq_true in E as [t Et]. rewrite Et in *. exact Hm.
Qed.

Lemma socket_isolation_witness :
  sock_lookup 2 0x1000 example_end = Some 0%nat ∧ sock_lookup 2 0x1001 example_end = None.
Proof.
  destruct (socket_isolation 2 (drop 2 example_history) example_mid example_end) as [_ H]; [|exact example_mid_end|].
  - cbn. repeat (apply Forall_cons; split; [cbn; discriminate|]). by apply Forall_nil.
  - rewrite !H. split; vm_compute; reflexivity.
Defined.

Lemma datagram_transports_witness : udp_ports (sk_net example_end) !! 0%nat = Some (true, 68).
Proof.
  assert (dgram <$> sockets example_end !! 0%nat = Some (Some (0%nat, 68))) as E by (vm_compute; reflexivity).
  destruct (sockets example_end !! 0%nat) as [k|] eqn:Hk; [|discriminate E]. apply (inj Some) in E.
  apply (datagram_transports example_history (mk_socks [] 0 0 zero_net) example_end example_start_end 0%nat k 0%nat 68 Hk E).
Defined.

(** The self test passes and leaves the table and the counters as they were. *)
Lemma net_socket_selftest_passes :
  (λ r, (r.1, sockets r.2, listening_count r.2, connected_count r.2)) <$> net_socket_selftest example_socks =
  Some (AEGIS_OK, sockets example_socks, 0, 0).
Proof. vm_compute. reflexivity. Qed.

(** Stream transports are not exclusive: [tcp_accept] also takes connections that
    were opened by [tcp_connect] when the listener's port is their local port.
    Process 2 connects to 10.0.0.1:80 and gets local port 49152; the SYN+ACK
    arrives, and process 3, listening on port 49152, accepts the connection of
    process 2. *)
Definition syn_ack_frame : list Z :=
  eth_frame [2; 174; 97; 91; 12; 1] [2; 0; 0; 0; 0; 9] 2048
    (ipv4_header 33554442 6 40 16777226 1 ++
     tcp_fields (mk_tcp 16777226 80 33554442 49152 TCP_LISTEN 300 300 5001 0 65535 [] 0 0 0 true false) 18 []).
Definition steal_history : list (Z * sock_op) :=
  [(2, OCreate AEGIS_SOCK_STREAM); (2, OConnect 0x1000 16777226 80);
   (3, OCreate AEGIS_SOCK_STREAM); (3, OBind 0x1001 49152); (3, OListen 0x1001); (3, OAccept 0x1001)].
Lemma accept_steals_connection :
  let s := example_socks <| sk_net ::= λ n, n <| n_nic := mk_nic true [] [] [Some syn_ack_frame] |> |> in
  (λ t, (λ k, (sk_owner_pid k, sk_transport_id k, sk_connected k)) <$> filter (λ k, sk_used k = true) (sockets t)) <$> run_socks steal_history s =
  Some [(2, 0, false); (3, 1, false); (3, 0, true)].
Proof. vm_compute. reflexivity. Qed.

(** A port can be bound twice; datagrams go to the first transport only. *)
Lemma bind_port_twice :
  (λ t, udp_ports (sk_net t) !! 1%nat) <$>
    run_socks [(2, OCreate 2); (2, OBind 0x1000 68); (3, OCreate 2); (3, OBind 0x1001 68)] example_socks = Some (Some (true, 68)).
Proof. vm_compute. reflexivity. Qed.

(** Listening again allocates a second transport and counts the socket twice;
    closing it releases one transport and counts down once. *)
Lemma listen_twice_leaks :
  (λ t, (listening_count t, tc_active <$> conn 0%nat (sk_net t), tc_active <$> conn 1%nat (sk_net t))) <$>
    run_socks [(3, OCreate 1); (3, OBind 0x1000 80); (3, OListen 0x1000); (3, OListen 0x1000); (3, OClose 0x1000)] example_socks =
  Some (1, Some true, Some false).
Proof. vm_compute. reflexivity. Qed.
