(* ===== verification/Wire.v ===== *)
(** Two hosts and a wire: the sending half of the stack composed with the
    receiving half.  The frame that net_socket_send puts on the wire on one host
    is the frame the driver of the other hands to network_poll. *)

From S2P Require Import Prelude Links Checksum Packet Routing Firewall Arp Net Udp Tcp Rx Socket.

(** * Reception of one datagram *)

Lemma header_eq dst proto total src id :
  ∃ c0 c1, ipv4_header dst proto total src id =
    [69; 0] ++ be16 total ++ be16 id ++ [64; 0; 64; proto; c0; c1] ++ le32 src ++ le32 dst.
Proof. eexists _, _. unfold ipv4_header, fill_checksum, set_word, be16, le32. cbn. reflexivity. Qed.

Lemma get_put i p s q : get_pkt i s = Some q → get_pkt i (put_pkt i p s) = Some p.
Proof. intros H. unfold get_pkt in *. cbn. apply list_lookup_insert_eq. by eapply lookup_lt_Some. Qed.

(** The bytes behind a header of [k] bytes. *)
Lemma hbytes_behind p q k n h payload :
  pk_data q = pk_data p → 0 ≤ pk_head p → pk_head q = pk_head p + Z.of_nat k → length h = k →
  hbytes p (k + n) = h ++ payload → hbytes q n = payload.
Proof.
  intros Hd Hh Hk Hl Hb. rewrite <-(hbytes_shift q p k n), Hb, <-Hl; [|done|done|lia]. apply drop_app_length.
Qed.

Lemma ethernet_rx_ipv4 i s p mac src payload :
  get_pkt i s = Some p → pkt_wf p → length mac = 6%nat → length src = 6%nat → pk_len p = 14 + Z.of_nat (length payload) →
  hbytes p (14 + length payload) = eth_frame mac src 2048 payload →
  ∃ q, ethernet_rx i s = ipv4_rx i (put_pkt i q s) ∧ pkt_wf q ∧ pk_next q = pk_next p ∧
    pk_len q = Z.of_nat (length payload) ∧ hbytes q (length payload) = payload.
Proof.
  intros Hp Hw Hm Hs Hl Hb. pose proof (pw_head _ Hw) as Hh. unfold ethernet_rx. rewrite Hp. cbn [mbind option_bind].
  replace (pk_len p <? 14) with false by lia. destruct (pktbuf_pull 14 p) as [[o|] q] eqn:Eq.
  2: { unfold pktbuf_pull in Eq. replace (pk_len p <? 14) with false in Eq by lia. done. }
  pose proof (pktbuf_pull_next _ _ _ _ Eq) as Hn. destruct (pull_wf 14 p q o Hw ltac:(lia) Eq) as (Hwq & _ & Hhq & Hlq & Hdq).
  assert (Et : swap16 <$> get16 p 12 = Some 2048).
  { apply (get16_be16 p (14 + length payload) 12); [done|lia|lia|lia|..]; rewrite Hb; unfold eth_frame.
    all: rewrite (lookup_app_r mac) by (rewrite Hm; cbn; lia); rewrite (lookup_app_r src) by (rewrite Hm, Hs; cbn; lia); by rewrite Hm, Hs. }
  apply fmap_Some in Et as (w & -> & Ew). cbn [mbind option_bind]. rewrite <-Ew. exists q. split; [done|]. split; [done|]. split; [done|]. split; [lia|].
  apply (hbytes_behind p q 14 _ (mac ++ src ++ be16 2048)); [done|done|lia|by rewrite !length_app, Hm, Hs|].
  rewrite Hb. unfold eth_frame. by rewrite !app_assoc.
Qed.

(** Whether the firewall lets a packet with these bytes in. *)
Definition admits (fw : fw_state) (packet : list Z) : Prop :=
  ∀ p, pkt_wf p → pk_len p = Z.of_nat (length packet) → hbytes p (length packet) = packet →
  ∃ v fw', firewall_check (Some p) fw = Some (v, fw') ∧ v ≠ FW_DROP.

Lemma header_length dst proto total src id : length (ipv4_header dst proto total src id) = 20%nat.
Proof. by destruct (header_eq dst proto total src id) as (c0 & c1 & ->). Qed.

(** [h] is a header of 20 bytes with protocol UDP and a correct checksum. *)
Definition udp_header (h : list Z) (src dst : Z) : Prop :=
  checksum_ok 5 h = true ∧ ∃ total id c0 c1, h = [69; 0] ++ be16 total ++ be16 id ++ [64; 0; 64; 17; c0; c1] ++ le32 src ++ le32 dst.

Lemma udp_header_fields h src dst p n :
  udp_header h src dst → 0 ≤ pk_head p → (20 ≤ n)%nat → take 20 (hbytes p n) = h →
  hbytes p 20 = h ∧ get8 p 0 = Some 69 ∧ get8 p 9 = Some 17 ∧ get32 p 12 = Some src ∧ get32 p 16 = Some dst ∧
  (∀ w, get16 p 10 = Some w → (ip_checksum (set_word 5 0 h) =? w) = true).
Proof.
  intros (Hc & total & id & c0 & c1 & Eh) Hh Hn Hb.
  assert (H20 : hbytes p 20 = h) by (rewrite <-Hb; unfold hbytes; rewrite take_take; f_equal; lia).
  assert (Hg : ∀ o b, 0 ≤ o < 20 → h !! Z.to_nat o = Some b → get8 p o = Some b).
  { intros o b Ho E. rewrite <-H20 in E. by rewrite (hbytes_lookup p 20) in E by lia. }
  assert (E12 : get32 p 12 = Some src) by (apply get32_from; apply Hg; first [lia|by rewrite Eh]).
  assert (E16 : get32 p 16 = Some dst) by (apply get32_from; apply Hg; first [lia|by rewrite Eh]).
  split; [done|]. split; [apply Hg; [lia|by rewrite Eh]|]. split; [apply Hg; [lia|by rewrite Eh]|]. split; [done|]. split; [done|].
  intros w E10. unfold checksum_ok in Hc. rewrite <-Hc. f_equal. unfold get_word. rewrite <-H20.
  unfold get16 in E10. bind_inv E10. injection E10 as <-.
  match goal with Ex : get8 p 10 = Some ?x, Ey : get8 p (10 + 1) = Some ?y |- _ =>
    rewrite <-(hbytes_lookup p 20) in Ex by lia; rewrite <-(hbytes_lookup p 20) in Ey by lia;
    change (Z.to_nat 10) with (2 * 5)%nat in Ex; change (Z.to_nat (10 + 1)) with (2 * 5 + 1)%nat in Ey; by rewrite Ex, Ey end.
Qed.

Lemma ipv4_rx_udp i s p h dst src payload :
  get_pkt i s = Some p → pkt_wf p → length h = 20%nat → udp_header h src dst →
  pk_len p = Z.of_nat (length (h ++ payload)) → hbytes p (length (h ++ payload)) = h ++ payload →
  addressed_to_us dst (n_ip s) = true → admits (n_fw s) (h ++ payload) →
  ∃ q t, ipv4_rx i s = udp_rx i src t ∧ get_pkt i t = Some q ∧ pkt_wf q ∧
    pk_len q = Z.of_nat (length payload) ∧ hbytes q (length payload) = payload ∧
    n_udp t = n_udp s ∧ n_ip t = n_ip s ∧ n_nic t = n_nic s ∧ (∀ own, pool own s → i ∈ own → pool own t).
Proof.
  intros Hp Hw Hlh Hu Hl Hb Hus Hadm. pose proof (pw_head _ Hw) as Hh. pose proof (pw_room _ Hw) as Hr. unfold PKT_MAX_LEN in Hr.
  destruct (Hadm p Hw Hl Hb) as (v & fw & Efw & Hv). rewrite length_app, Hlh in *. set (n := length payload) in *.
  destruct (udp_header_fields h src dst p (20 + n) Hu Hh) as (H20 & E0 & E9 & E12 & E16 & Hsum); [lia|rewrite Hb, <-Hlh; apply take_app_length|].
  unfold ipv4_rx. rewrite Hp. cbn [mbind option_bind]. replace (pk_len p <? 20) with false by lia.
  rewrite E0. cbn [mbind option_bind]. change (Z.land (Z.shiftr 69 4) 15 =? 4) with true. cbn [negb].
  change (u8 (Z.land 69 15 * 4)) with 20. replace (pk_len p <? 20) with false by lia. change ((20 <? 20) || false) with false. cbn iota.
  destruct (get16_ok p 10 Hw) as (w & E10 & Hw16); [lia|unfold PKT_MAX_LEN; lia|]. rewrite E10. cbn [mbind option_bind].
  rewrite put16_ok by (done || unfold PKT_MAX_LEN; lia). cbn [mbind option_bind]. change (Z.to_nat 20) with 20%nat.
  rewrite get_hbytes; [|apply upd16_wf; [done|lia]|cbn [pk_head upd16 upd8 set_field]; unfold PKT_MAX_LEN; lia]. cbn [mbind option_bind].
  rewrite put16_ok; [|apply upd16_wf; [done|lia]|lia|cbn [pk_head upd16 upd8 set_field]; unfold PKT_MAX_LEN; lia|done]. cbn [mbind option_bind].
  rewrite restore_word by (done || unfold PKT_MAX_LEN; lia). rewrite (hbytes_upd16 p 5) by done. rewrite H20, (Hsum w E10).
  cbn [negb]. rewrite E16. cbn [mbind option_bind]. change (n_ip (put_pkt i p s)) with (n_ip s). rewrite Hus. cbn [negb].
  change (n_fw (put_pkt i p s)) with (n_fw s). rewrite Efw. cbn [mbind option_bind].
  rewrite bool_decide_false by done. rewrite E9. cbn [mbind option_bind]. rewrite E12. cbn [mbind option_bind].
  rewrite !u16_small by lia. eexists _, _. split; [reflexivity|].
  split; [eapply get_put; apply (get_put i p s p Hp)|]. split; [destruct Hw as [A1 A2 A3 A4 A5]; split; cbn; unfold PKT_MAX_LEN; try done; lia|].
  split; [cbn; lia|]. split; [eapply (hbytes_behind p _ 20); [done|done|cbn; lia|exact Hlh|exact Hb]|].
  split; [done|]. split; [done|]. split; [done|]. intros own Hpool Hi.
  eapply pool_put; [eapply pool_ext; [reflexivity|]; eapply pool_put; [exact Hpool|exact Hi|exact Hp|done]|exact Hi|exact (get_put i p s p Hp)|done].
Qed.

Lemma udp_rx_nic i src s t : udp_rx i src s = Some t → n_nic t = n_nic s.
Proof.
  unfold udp_rx. intros H. bind_inv H. destruct (_ <? 8); [by injection H as <-|]. bind_inv H. cbn zeta in H.
  destruct (port_slot _ s); [|by injection H as <-]. bind_inv H. by injection H as <-.
Qed.

Lemma alloc_get own s i t : pool own s → alloc_pkt s = (Some i, t) → ∃ p, get_pkt i t = Some p.
Proof.
  unfold alloc_pkt. intros Hp. destruct (pktbuf_alloc (n_pkts s)) as [r u] eqn:E. intros [= -> <-].
  destruct (client_alloc_fresh own _ i u Hp E) as (_ & _ & p & _ & Hu & _). by eexists.
Qed.

(** Polling without a frame changes neither sockets nor connections. *)
Lemma poll_loop_idle own n s :
  pool own s → nic_ready (n_nic s) = true → nic_rx (n_nic s) = [] → ∃ t, poll_loop n s = Some t ∧ n_udp t = n_udp s.
Proof.
  intros Hp Hr Hq. destruct n as [|n]; [by exists s|]. cbn [poll_loop].
  destruct (alloc_pkt s) as [[i|] u] eqn:Ea; pose proof (alloc_pkt_keeps _ _ _ Ea) as [_ _ _ Hu _ _ _ _ _]; [|by exists u].
  destruct (alloc_get own s i u Hp Ea) as [p ->]. cbn [mbind option_bind].
  assert (n_nic u = n_nic s) as -> by (unfold alloc_pkt in Ea; destruct (pktbuf_alloc _); by injection Ea as _ <-).
  unfold ethernet_recv. rewrite Hr, Hq. cbn. eexists. split; [reflexivity|]. exact Hu.
Qed.

Lemma udp_recv_ext j max s t : n_udp t = n_udp s → (udp_recv j max t).1 = (udp_recv j max s).1.
Proof. intros H. unfold udp_recv. rewrite H. by repeat case_match. Qed.

(** One datagram in a frame reaches the socket bound to its port. *)
Lemma network_poll_datagram own s mac src_mac h src dst sp dp data j k :
  pool own s → own ≠ all_buffers → net_ok s → nic_ready (n_nic s) = true →
  mac_ok mac → mac_ok src_mac → length h = 20%nat → Forall byte h → udp_header h src dst →
  0 ≤ src < 2 ^ 32 → 0 ≤ dst < 2 ^ 32 → 0 ≤ sp < 65536 → 0 ≤ dp < 65536 → Forall byte data → (length data ≤ 715)%nat →
  Forall byte (udp_datagram src dst sp dp data) →
  nic_rx (n_nic s) = [Some (eth_frame mac src_mac 2048 (h ++ udp_datagram src dst sp dp data))] →
  addressed_to_us dst (n_ip s) = true → admits (n_fw s) (h ++ udp_datagram src dst sp dp data) →
  port_slot dp s = Some j → (j < 64)%nat → n_udp s !! j = Some k → length (us_rx_buf k) = 4096%nat →
  ∃ t, network_poll s = Some t ∧
    ∀ max, Z.of_nat (length data) ≤ max → (udp_recv (Z.of_nat j) max t).1 = Some (Z.of_nat (length data), data, src, sp).
Proof.
  intros Hpool Hown Hok Hr [Hm Hmb] [Hs Hsb] Hlh Hhb Hu Hsrc Hdst Hsp Hdp Hd Hl Hdb Hq Hus Hadm Hslot Hj Hk Hbuf.
  assert (Hld : length (udp_datagram src dst sp dp data) = (8 + length data)%nat).
  { destruct (datagram_eq src dst sp dp data) as (c0 & c1 & ->). done. }
  set (dg := udp_datagram src dst sp dp data) in *. set (packet := h ++ dg) in *.
  assert (Hlp : length packet = (28 + length data)%nat) by (unfold packet; rewrite length_app; lia).
  set (frame := eth_frame mac src_mac 2048 packet) in *.
  assert (Hlf : length frame = (14 + length packet)%nat) by (unfold frame, eth_frame; rewrite !length_app, Hm, Hs; done).
  assert (Hfb : Forall byte frame).
  { unfold frame, eth_frame, packet. rewrite !Forall_app. split_and!; try done. unfold be16, byte. repeat (apply Forall_cons; split); [divlia|divlia|apply Forall_nil; done]. }
  unfold network_poll. change 32%nat with (S 31). cbn [poll_loop].
  destruct (alloc_pkt_ok own s Hpool Hown Hok) as (i & u & p & Ea & Hp & Hw & Hh & Hi & v & Hu').
  destruct (pool_alloc own s i u Hpool Ea) as [Hpu _]. rewrite Ea, Hp. cbn [mbind option_bind]. subst u. cbn [n_nic set_field].
  unfold ethernet_recv. rewrite Hr, Hq. cbn [negb]. rewrite take_ge by (unfold VIRTIO_NET_FRAME_MAX; lia).
  destruct (put_bytes_ok 0 frame p (length frame)) as (q & -> & Hwq & Hnq & Hhq & Hlq & Hbq); [done|lia|done|lia|unfold PKT_MAX_LEN; lia|]. cbn [mbind option_bind].
  change (AEGIS_OK =? AEGIS_OK) with true. cbn [negb].
  assert (Hb : hbytes q (14 + length packet) = frame).
  { rewrite Hlf in Hbq. rewrite Hbq. unfold splice. cbn [Z.to_nat take app]. rewrite drop_ge; [apply app_nil_r|]. rewrite hbytes_length; [lia|done|unfold PKT_MAX_LEN; lia]. }
  set (nic' := (n_nic s) <| nic_rx := [] |>). set (s1 := (put_pkt i q (s <| n_pkts := v |>)) <| n_nic := nic' |>).
  set (q1 := q <| pk_len := Z.of_nat (length frame) |>).
  assert (Hg1 : get_pkt i (put_pkt i q1 s1) = Some q1) by (eapply get_put; apply (get_put i q (s <| n_pkts := v |>) p Hp)).
  assert (Hwq1 : pkt_wf q1) by (destruct Hwq as [A1 A2 A3 A4 A5]; split; cbn; unfold PKT_MAX_LEN; try done; lia).
  assert (Hp1 : pool ({[i]} ∪ own) (put_pkt i q1 s1)).
  { eapply pool_put; [eapply pool_ext; [reflexivity|]; eapply pool_put; [exact Hpu|apply own_here|exact Hp|exact Hnq]|apply own_here|
      exact (get_put i q (s <| n_pkts := v |>) p Hp)|done]. }
  match goal with |- context [ethernet_rx i ?x] => change x with (put_pkt i q1 s1) end.
  destruct (ethernet_rx_ipv4 i (put_pkt i q1 s1) q1 mac src_mac packet) as (q2 & -> & Hwq2 & Hnq2 & Hlq2 & Hbq2);
    [done|done|done|done|cbn; lia|exact Hb|].
  assert (Hg2 : get_pkt i (put_pkt i q2 (put_pkt i q1 s1)) = Some q2) by (eapply get_put; exact Hg1).
  destruct (ipv4_rx_udp i (put_pkt i q2 (put_pkt i q1 s1)) q2 h dst src dg) as (q3 & t3 & -> & Hg3 & Hwq3 & Hlq3 & Hbq3 & Hud & _ & Hnic & Hpl);
    [exact Hg2|done|done|done|done|done|exact Hus|exact Hadm|].
  assert (Hp3 : pool ({[i]} ∪ own) t3) by (apply Hpl; [eapply pool_put; [exact Hp1|apply own_here|exact Hg1|done]|apply own_here]).
  assert (Hud' : n_udp t3 = n_udp s) by exact Hud.
  assert (Hslot3 : port_slot dp t3 = Some j) by (unfold port_slot; by rewrite Hud').
  assert (Hrecv : ∀ max, Z.of_nat (length data) ≤ max → ∃ t4 u, udp_rx i src t3 = Some t4 ∧ pool own t4 ∧
    udp_recv (Z.of_nat j) max t4 = (Some (Z.of_nat (length data), data, src, sp), u)).
  { intros max Hmax. destruct (udp_delivers own t3 i q3 src dst sp dp data j k max) as (_ & t4 & u & H1 & H2 & H3 & _);
      [done|done|done|done|done|done|done|done|done|lia|rewrite <-Hld; exact Hbq3|done|done|by rewrite Hud'|done|done|]. by exists t4, u. }
  destruct (Hrecv (Z.of_nat (length data)) ltac:(lia)) as (t4 & _ & E4 & Hp4 & _). rewrite E4. cbn [mbind option_bind].
  destruct (poll_loop_idle own 31 t4) as (t5 & E5 & Hu5); [done|rewrite (udp_rx_nic _ _ _ _ E4), Hnic; exact Hr|rewrite (udp_rx_nic _ _ _ _ E4), Hnic; done|].
  exists t5. split; [exact E5|]. intros max Hmax. rewrite (udp_recv_ext _ _ _ _ Hu5).
  destruct (Hrecv max Hmax) as (t4' & u & E4' & _ & Er). rewrite E4 in E4'. injection E4' as <-. by rewrite Er.
Qed.

Lemma ipv4_header_bytes dst proto total src id :
  0 ≤ dst < 2 ^ 32 → byte proto → 0 ≤ total < 65536 → 0 ≤ src < 2 ^ 32 → 0 ≤ id < 65536 → Forall byte (ipv4_header dst proto total src id).
Proof. intros. by apply fill_checksum_bytes, header_fields_bytes. Qed.

Lemma ipv4_header_udp dst total src id : udp_header (ipv4_header dst 17 total src id) src dst.
Proof.
  split; [apply fill_checksum_ok; cbn; lia|]. destruct (header_eq dst 17 total src id) as (c0 & c1 & ->). by eexists _, _, _, _.
Qed.

(** * Host to host *)

(** A host that can send to [dst]: a free buffer, a link that is up, an address
    and a known next hop. *)
Record can_send (own : gset nat) (s : net) (dst : Z) (mac : list Z) : Prop := {
  cs_pool : pool own s; cs_free : own ≠ all_buffers; cs_ok : net_ok s; cs_ready : nic_ready (n_nic s) = true;
  cs_hop : resolves dst s mac; cs_mac : mac_ok mac;
}.

(** A host that receives datagrams for port [dp] on transport [j]. *)
Record can_receive (own : gset nat) (s : net) (dp : Z) (j : nat) : Prop := {
  cr_pool : pool own s; cr_free : own ≠ all_buffers; cr_ok : net_ok s; cr_ready : nic_ready (n_nic s) = true;
  cr_slot : port_slot dp s = Some j; cr_id : (j < 64)%nat;
  cr_buf : ∃ k, n_udp s !! j = Some k ∧ length (us_rx_buf k) = 4096%nat;
}.

(** A datagram socket that can be sent from. *)
Definition sender (k : socket) : Prop :=
  sk_type k = AEGIS_SOCK_DGRAM ∧ 0 < sk_local_port k < 65536 ∧ 0 < sk_remote_port k < 65536 ∧ 0 < sk_remote_ip k < 2 ^ 32.

Lemma net_socket_send_frame owner fd data a i k own mac :
  sock_lookup owner fd a = Some i → sockets a !! i = Some k → sender k → can_send own (sk_net a) (sk_remote_ip k) mac →
  Forall byte data → (0 < length data ≤ 729)%nat →
  let n := sk_net a in
  let datagram := udp_datagram (local_ip (n_ip n)) (sk_remote_ip k) (sk_local_port k) (sk_remote_port k) data in
  let header := ipv4_header (sk_remote_ip k) 17 (20 + Z.of_nat (length datagram)) (local_ip (n_ip n)) (ip_id_counter (n_ip n)) in
  ∃ a', net_socket_send owner fd data a =
      Some (if tx_result (n_nic n) =? 0 then Z.of_nat (length data) else AEGIS_EIO, a') ∧
    nic_sent (n_nic (sk_net a')) = nic_sent (n_nic n) ++ [eth_frame mac (n_mac n) 2048 (header ++ datagram)].
Proof.
  intros El Hk (Ht & Hlp & Hrp & Hip) [Hpool Hfree Hok Hr Hres Hmac] Hd Hl n datagram header.
  unfold net_socket_send. rewrite El. replace ((_ =? 0) || _) with false by (destruct (Z.eqb_spec (Z.of_nat (length data)) 0); lia).
  rewrite Hk. cbn [mbind option_bind]. rewrite Ht, Z.eqb_refl.
  replace (sk_local_port k =? 0) with false by lia. replace (sk_remote_ip k =? 0) with false by lia.
  replace (sk_remote_port k =? 0) with false by lia. cbn [orb].
  assert (Hld : length datagram = (8 + length data)%nat).
  { unfold datagram. destruct (datagram_eq (local_ip (n_ip n)) (sk_remote_ip k) (sk_local_port k) (sk_remote_port k) data) as (c0 & c1 & ->). done. }
  rewrite udp_send_datagram by lia. fold n.
  destruct (ipv4_send_frame own n (sk_remote_ip k) 17 datagram mac) as (_ & t & E & _ & Hs & _);
    [done|done|done|done|lia|unfold byte; lia|apply udp_datagram_bytes; lia || done|lia|done|done|].
  change (ipv4_get_addr n) with (local_ip (n_ip n)). fold datagram. rewrite E. cbn [mbind option_bind]. eexists. split; [reflexivity|]. exact Hs.
Qed.


(** * Example *)

(** 10.0.0.2, where process 2 has a socket on port 5000 connected to
    10.0.0.1:68, and 10.0.0.1, where process 5 has bound port 68. *)
Definition host_b_mac : list Z := [2; 0; 0; 0; 0; 9].
Definition host_a : sock_state :=
  mk_socks (mk_socket true 2 AEGIS_SOCK_DGRAM 5000 68 16777226 0 false false :: replicate 63 zero_socket) 0 0
    ((snd (udp_bind 5000 zero_net)) <| n_arp ::= arp_cache_set 16777226 host_b_mac |>).
Definition wire_frame : list Z :=
  default [] (net_socket_send 2 0x1000 [1; 2; 3] host_a ≫= λ r, head (nic_sent (n_nic (sk_net r.2)))).
Definition host_b : sock_state :=
  mk_socks (mk_socket true 5 AEGIS_SOCK_DGRAM 68 0 0 0 false false :: replicate 63 zero_socket) 0 0
    ((snd (udp_bind 68 zero_net)) <| n_ip ::= λ t, t <| local_ip := 16777226 |> |> <| n_nic := mk_nic true [] [] [Some wire_frame] |>).

Lemma like_zero_net t :
  n_pkts t = n_pkts zero_net → n_mac t = n_mac zero_net → 0 ≤ local_ip (n_ip t) < 2 ^ 32 → ip_id_counter (n_ip t) = 7 → pool ∅ t ∧ net_ok t.
Proof.
  intros H1 H2 H3 H4. split; [eapply pool_ext; [exact H1|apply zero_net_pool]|]. destruct zero_net_ok as [A1 A2 A3 A4].
  split; [by rewrite H1|by rewrite H2|done|lia].
Qed.

