(* ===== verification/Dhcp.v ===== *)
(** The DHCP client: net/dhcp.c, the DISCOVER/OFFER/REQUEST/ACK exchange over
    UDP.

    The state is the static [dhcp_ctx] (with the static [xid_seed] of
    [dhcp_discover]) beside the network stack.  A response is the caller's whole
    buffer and the length of the message in it; [None] is a read outside the
    buffer, or the failure of the stack below.  The main theorems: every lease
    comes from an OFFER and an ACK of one transaction, a server that answers
    gets the client bound, and no message makes the parser leave the buffer of
    its caller. *)

From S2P Require Import Prelude Links Checksum Packet Routing Firewall Arp Net Udp.

Definition DHCP_SERVER_PORT : Z := 67.
Definition DHCP_CLIENT_PORT : Z := 68.
Definition DHCP_DISCOVER : Z := 1.
Definition DHCP_OFFER : Z := 2.
Definition DHCP_REQUEST : Z := 3.
Definition DHCP_ACK : Z := 5.
Definition DHCP_NAK : Z := 6.
Definition DHCP_RELEASE : Z := 7.
Definition DHCP_MAGIC_COOKIE : Z := 1666417251.

Inductive dhcp_state :=
  | DHCP_STATE_INIT | DHCP_STATE_SELECTING | DHCP_STATE_REQUESTING | DHCP_STATE_BOUND | DHCP_STATE_RENEWING.
#[export] Instance dhcp_state_eq_dec : EqDecision dhcp_state.
Proof. solve_decision. Defined.

(** [dhcp_context_t], and [xid_seed]. *)
Record dhcp_context := mk_dhcp {
  offered_ip : Z;
  server_ip : Z;
  subnet_mask : Z;
  gateway : Z;
  dns_server : Z;
  lease_time : Z;
  xid : Z;
  state : dhcp_state;
  xid_seed : Z;
}.
#[export] Instance dhcp_context_eta : Eta dhcp_context := λ c,
  mk_dhcp (offered_ip c) (server_ip c) (subnet_mask c) (gateway c) (dns_server c) (lease_time c) (xid c) (state c) (xid_seed c).

(** The static objects before the first call. *)
Definition dhcp_ctx : dhcp_context := mk_dhcp 0 0 0 0 0 0 0 DHCP_STATE_INIT 305419896.

(** * Messages *)

Definition dhcp_add_option (opts : list Z) (type : Z) (data : list Z) : list Z :=
  opts ++ type :: Z.of_nat (length data) :: data.

Definition dhcp_load_le32_unaligned (l : list Z) (i : nat) : option Z :=
  a ← l !! i; b ← l !! (i + 1)%nat; c ← l !! (i + 2)%nat; d ← l !! (i + 3)%nat;
  Some (Z.lor (Z.lor (Z.lor a (Z.shiftl b 8)) (Z.shiftl c 16)) (Z.shiftl d 24)).

Definition dhcp_load_be32_unaligned (l : list Z) (i : nat) : option Z :=
  a ← l !! i; b ← l !! (i + 1)%nat; c ← l !! (i + 2)%nat; d ← l !! (i + 3)%nat;
  Some (Z.lor (Z.lor (Z.lor (Z.shiftl a 24) (Z.shiftl b 16)) (Z.shiftl c 8)) d).

(** The bytes of [ip_bytes]. *)
Definition ip_bytes (v : Z) : list Z :=
  [Z.land v 255; Z.land (Z.shiftr v 8) 255; Z.land (Z.shiftr v 16) 255; Z.land (Z.shiftr v 24) 255].

Definition build_options (msg_type : Z) (c : dhcp_context) : list Z :=
  let opts := dhcp_add_option [] 53 [msg_type] in
  let opts := if msg_type =? DHCP_REQUEST
              then dhcp_add_option (dhcp_add_option opts 50 (ip_bytes (offered_ip c))) 54 (ip_bytes (server_ip c))
              else opts in
  dhcp_add_option opts 55 [1; 3; 6; 51] ++ [255].

(** The part of the packet that is sent; [ciaddr] is 0 in a fresh packet. *)
Definition dhcp_build_packet (msg_type ciaddr : Z) (mac : list Z) (c : dhcp_context) : list Z :=
  [1; 1; 6; 0] ++ le32 (xid c) ++ [0; 0] ++ [128; 0] ++ le32 ciaddr ++ replicate 12 0 ++
  (mac ++ replicate 10 0) ++ replicate 64 0 ++ replicate 128 0 ++ le32 DHCP_MAGIC_COOKIE ++ build_options msg_type c.

(** * The exchange *)

Definition world : Type := dhcp_context * net.

Definition dhcp_discover (w : world) : option (Z * world) :=
  let '(c, n) := w in
  let c := c <| xid_seed := u32 (xid_seed c * 1103515245 + 12345) |> in
  let c := c <| xid := xid_seed c |> <| state := DHCP_STATE_SELECTING |> in
  '(ret, n) ← udp_send 4294967295 DHCP_SERVER_PORT DHCP_CLIENT_PORT (dhcp_build_packet DHCP_DISCOVER 0 (n_mac n) c) n;
  Some (ret, (c, n)).

Definition dhcp_request (ip : Z) (w : world) : option (Z * world) :=
  let '(c, n) := w in
  let c := c <| offered_ip := ip |> <| state := DHCP_STATE_REQUESTING |> in
  '(ret, n) ← udp_send 4294967295 DHCP_SERVER_PORT DHCP_CLIENT_PORT (dhcp_build_packet DHCP_REQUEST 0 (n_mac n) c) n;
  Some (ret, (c, n)).

(** The switch on the option type: [i] is the index of the option's data. *)
Definition dhcp_option (opts : list Z) (i : nat) (opt_type opt_len msg_type : Z) (c : dhcp_context)
    : option (Z * dhcp_context) :=
  if opt_type =? 53 then m ← opts !! i; Some (m, c)
  else if opt_type =? 1 then
    if 4 <=? opt_len then v ← dhcp_load_le32_unaligned opts i; Some (msg_type, c <| subnet_mask := v |>) else Some (msg_type, c)
  else if opt_type =? 3 then
    if 4 <=? opt_len then v ← dhcp_load_le32_unaligned opts i; Some (msg_type, c <| gateway := v |>) else Some (msg_type, c)
  else if opt_type =? 6 then
    if 4 <=? opt_len then v ← dhcp_load_le32_unaligned opts i; Some (msg_type, c <| dns_server := v |>) else Some (msg_type, c)
  else if opt_type =? 51 then
    if 4 <=? opt_len then v ← dhcp_load_be32_unaligned opts i; Some (msg_type, c <| lease_time := v |>) else Some (msg_type, c)
  else if opt_type =? 54 then
    if 4 <=? opt_len then v ← dhcp_load_le32_unaligned opts i; Some (msg_type, c <| server_ip := v |>) else Some (msg_type, c)
  else Some (msg_type, c).

(** The loop over the options; every round takes at least one byte. *)
Fixpoint dhcp_options (fuel : nat) (opts : list Z) (i : nat) (msg_type : Z) (c : dhcp_context)
    : option (Z * dhcp_context) :=
  if (i <? 312)%nat then
    opt_type ← opts !! i;
    if opt_type =? 255 then Some (msg_type, c)
    else
      match fuel with
      | O => None
      | S fuel =>
          if opt_type =? 0 then dhcp_options fuel opts (i + 1) msg_type c
          else
            opt_len ← opts !! (i + 1)%nat;
            '(msg_type, c) ← dhcp_option opts (i + 2) opt_type opt_len msg_type c;
            dhcp_options fuel opts (i + 2 + Z.to_nat opt_len) msg_type c
      end
  else Some (msg_type, c).

(** Offsets of the fields of [dhcp_packet_t]. *)
Definition off_xid : nat := 4.
Definition off_yiaddr : nat := 16.
Definition off_options : nat := 240.

Definition dhcp_handle_response (data : list Z) (len : Z) (w : world) : option world :=
  let '(c, n) := w in
  if len <? Z.of_nat off_options then Some (c, n)
  else
    op ← data !! 0%nat;
    if negb (op =? 2) then Some (c, n)
    else
      id ← dhcp_load_le32_unaligned data off_xid;
      if negb (id =? xid c) then Some (c, n)
      else
        '(msg_type, c) ← dhcp_options 312 (drop off_options data) 0 0 c;
        match state c with
        | DHCP_STATE_SELECTING =>
            if msg_type =? DHCP_OFFER then
              yiaddr ← dhcp_load_le32_unaligned data off_yiaddr;
              '(_, w) ← dhcp_request yiaddr (c <| offered_ip := yiaddr |>, n);
              Some w
            else Some (c, n)
        | DHCP_STATE_REQUESTING =>
            if msg_type =? DHCP_ACK then
              let n := ipv4_set_gateway (gateway c) (ipv4_set_netmask (subnet_mask c) (ipv4_set_addr (offered_ip c) n)) in
              Some (c <| state := DHCP_STATE_BOUND |>, n)
            else if msg_type =? DHCP_NAK then
              '(_, w) ← dhcp_discover (c <| state := DHCP_STATE_INIT |>, n);
              Some w
            else Some (c, n)
        | _ => Some (c, n)
        end.

Definition dhcp_release (w : world) : option (Z * world) :=
  let '(c, n) := w in
  if negb (bool_decide (state c = DHCP_STATE_BOUND)) then Some (-1, (c, n))
  else
    let pkt := dhcp_build_packet DHCP_RELEASE (offered_ip c) (n_mac n) c in
    let c := c <| state := DHCP_STATE_INIT |> in
    '(ret, n) ← udp_send (server_ip c) DHCP_SERVER_PORT DHCP_CLIENT_PORT pkt (ipv4_set_addr 0 n);
    Some (ret, (c, n)).

Definition dhcp_get_state (c : dhcp_context) : dhcp_state := state c.
Definition dhcp_get_assigned_ip (c : dhcp_context) : Z := offered_ip c.
Definition dhcp_get_subnet_mask (c : dhcp_context) : Z := subnet_mask c.
Definition dhcp_get_gateway (c : dhcp_context) : Z := gateway c.
Definition dhcp_get_dns_server (c : dhcp_context) : Z := dns_server c.
Definition dhcp_get_lease_seconds (c : dhcp_context) : Z := lease_time c.

(** * The parser stays in the buffer *)

Lemma load_le32_some l i : (i + 3 < length l)%nat → ∃ v, dhcp_load_le32_unaligned l i = Some v.
Proof.
  intros H. unfold dhcp_load_le32_unaligned.
  destruct (lookup_lt_is_Some_2 l i) as [a ->]; [lia|]. destruct (lookup_lt_is_Some_2 l (i + 1)) as [b ->]; [lia|].
  destruct (lookup_lt_is_Some_2 l (i + 2)) as [c ->]; [lia|]. destruct (lookup_lt_is_Some_2 l (i + 3)) as [d ->]; [lia|]. by eexists.
Qed.
Lemma load_be32_some l i : (i + 3 < length l)%nat → ∃ v, dhcp_load_be32_unaligned l i = Some v.
Proof.
  intros H. unfold dhcp_load_be32_unaligned.
  destruct (lookup_lt_is_Some_2 l i) as [a ->]; [lia|]. destruct (lookup_lt_is_Some_2 l (i + 1)) as [b ->]; [lia|].
  destruct (lookup_lt_is_Some_2 l (i + 2)) as [c ->]; [lia|]. destruct (lookup_lt_is_Some_2 l (i + 3)) as [d ->]; [lia|]. by eexists.
Qed.

(** What the options cannot change. *)
Definition same_lease (c d : dhcp_context) : Prop :=
  offered_ip d = offered_ip c ∧ xid d = xid c ∧ state d = state c ∧ xid_seed d = xid_seed c.

Lemma dhcp_option_total opts i t l m c :
  (i + 3 < length opts)%nat → ∃ m' c', dhcp_option opts i t l m c = Some (m', c').
Proof.
  intros H. destruct (load_le32_some opts i H) as [v Hv]. destruct (load_be32_some opts i H) as [v' Hv'].
  destruct (lookup_lt_is_Some_2 opts i) as [x Hx]; [lia|]. unfold dhcp_option. rewrite Hv, Hv', Hx.
  repeat case_match; by eexists _, _.
Qed.
Lemma dhcp_option_same opts i t l m c m' c' : dhcp_option opts i t l m c = Some (m', c') → same_lease c c'.
Proof.
  unfold dhcp_option. intros H.
  repeat match type of H with (if ?b then _ else _) = _ => destruct b end;
    try (match type of H with mbind _ _ = _ => bind_inv H end); by injection H as <- <-.
Qed.

Lemma dhcp_options_total fuel opts i m c :
  (312 ≤ i + fuel)%nat → (317 ≤ length opts)%nat → ∃ m' c', dhcp_options fuel opts i m c = Some (m', c').
Proof.
  revert i m c. induction fuel as [|fuel IH]; intros i m c Hi Ho; cbn [dhcp_options].
  - replace (i <? 312)%nat with false by (symmetry; apply Nat.ltb_ge; lia). by eexists _, _.
  - destruct (Nat.ltb_spec i 312); [|by eexists _, _]. destruct (lookup_lt_is_Some_2 opts i) as [t ->]; [lia|]. cbn [mbind option_bind].
    destruct (t =? 255); [by eexists _, _|]. destruct (t =? 0); [apply IH; lia|].
    destruct (lookup_lt_is_Some_2 opts (i + 1)) as [l ->]; [lia|]. cbn [mbind option_bind].
    destruct (dhcp_option_total opts (i + 2) t l m c) as (m1 & c1 & ->); [lia|]. cbn [mbind option_bind]. apply IH; lia.
Qed.
Lemma dhcp_options_same fuel opts i m c m' c' : dhcp_options fuel opts i m c = Some (m', c') → same_lease c c'.
Proof.
  revert i m c. induction fuel as [|fuel IH]; intros i m c H; cbn [dhcp_options] in H.
  - destruct (_ <? _)%nat; [|by injection H as <- <-]. bind_inv H. destruct (_ =? 255); [by injection H as <- <-|done].
  - destruct (_ <? _)%nat; [|by injection H as <- <-]. bind_inv H. destruct (_ =? 255); [by injection H as <- <-|].
    destruct (_ =? 0); [by eapply IH|]. bind_inv H.
    match type of H with context [let '(_, _) := ?x in _] => destruct x as [m1 c1] end.
    match goal with E : dhcp_option _ _ _ _ _ _ = _ |- _ => apply dhcp_option_same in E as (A1 & A2 & A3 & A4) end.
    apply IH in H as (B1 & B2 & B3 & B4). unfold same_lease. split_and!; congruence.
Qed.

(** * The packets sent *)

Record dhcp_wf (c : dhcp_context) : Prop := {
  dw_xid : 0 ≤ xid c < 2 ^ 32;
  dw_ip : 0 ≤ offered_ip c < 2 ^ 32;
}.

Lemma byte_land v : byte (Z.land v 255).
Proof. unfold byte. change 255 with (Z.ones 8). rewrite Z.land_ones by lia. divlia. Qed.
Lemma ip_bytes_le32 v : 0 ≤ v < 2 ^ 32 → ip_bytes v = le32 v.
Proof.
  intros Hv. unfold ip_bytes, le32. change 255 with (Z.ones 8). rewrite !Z.land_ones, !Z.shiftr_div_pow2 by lia.
  change (2 ^ 8) with 256. change (2 ^ 16) with 65536. change (2 ^ 24) with 16777216. apply (f_equal2 cons); [divlia|].
  apply (f_equal2 cons); [divlia|]. apply (f_equal2 cons); [divlia|]. apply (f_equal2 cons); [divlia|done].
Qed.
Lemma le32_bytes v : 0 ≤ v < 2 ^ 32 → Forall byte (le32 v).
Proof. intros Hv. unfold le32, byte. repeat (apply Forall_cons; split; [divlia|]). by apply Forall_nil. Qed.

Lemma build_options_bytes m c : byte m → Forall byte (build_options m c) ∧ (length (build_options m c) ≤ 22)%nat.
Proof.
  intros Hm. unfold build_options, dhcp_add_option, ip_bytes. destruct (m =? DHCP_REQUEST); cbn [length app]; (split; [|lia]).
  all: repeat (apply Forall_cons; split; [first [apply byte_land|done|unfold byte; lia]|]); by apply Forall_nil.
Qed.

Lemma packet_bytes m ci mac c :
  byte m → dhcp_wf c → mac_ok mac → 0 ≤ ci < 2 ^ 32 →
  Forall byte (dhcp_build_packet m ci mac c) ∧ (241 ≤ length (dhcp_build_packet m ci mac c) ≤ 262)%nat.
Proof.
  intros Hm [Hx _] [Hl Hb] Hc. destruct (build_options_bytes m c Hm) as [Ho Hn].
  assert (0 < length (build_options m c))%nat by (unfold build_options; rewrite length_app; cbn; lia). unfold dhcp_build_packet. split.
  - rewrite !Forall_app. split_and!; try done; try (by apply le32_bytes); try (apply Forall_replicate; unfold byte; lia);
      repeat (apply Forall_cons; split; [unfold byte; lia|]); by apply Forall_nil.
  - rewrite !length_app, !length_replicate, Hl. cbn [length le32]. lia.
Qed.

(** The frame that carries a message the client broadcasts. *)
Definition client_frame (id msg_type : Z) (c : dhcp_context) (n : net) : list Z :=
  let data := dhcp_build_packet msg_type 0 (n_mac n) c in
  let src := local_ip (n_ip n) in
  eth_frame broadcast_mac (n_mac n) 2048
    (ipv4_header 4294967295 17 (28 + Z.of_nat (length data)) src id ++
     udp_datagram src 4294967295 DHCP_CLIENT_PORT DHCP_SERVER_PORT data).

Section send.
Context (own : gset nat) (n : net) (Hpool : pool own n) (Hok : net_ok n).

Lemma udp_broadcast dp sp data :
  0 ≤ sp < 65536 → 0 ≤ dp < 65536 → Forall byte data → (0 < length data ≤ 729)%nat →
  ∃ r t, udp_send 4294967295 dp sp data n = Some (r, t) ∧ pool own t ∧ net_ok t ∧ net_keeps n t.
Proof using Hpool Hok.
  intros Hsp Hdp Hd Hl. rewrite udp_send_datagram by lia. apply ipv4_broadcast; [done|done|unfold byte; lia| |].
  - apply udp_datagram_bytes; [done|done|done|lia].
  - destruct (datagram_eq (ipv4_get_addr n) 4294967295 sp dp data) as (c0 & c1 & ->). rewrite !length_app. cbn [length be16]. lia.
Qed.

Lemma dhcp_message_sent m c :
  byte m → dhcp_wf c →
  ∃ r t, udp_send 4294967295 DHCP_SERVER_PORT DHCP_CLIENT_PORT (dhcp_build_packet m 0 (n_mac n) c) n = Some (r, t) ∧
    pool own t ∧ net_ok t ∧ net_keeps n t.
Proof using Hpool Hok.
  intros Hm Hc. destruct (packet_bytes m 0 (n_mac n) c Hm Hc (no_mac _ Hok)) as [Hb Hl]; [lia|].
  apply udp_broadcast; unfold DHCP_CLIENT_PORT, DHCP_SERVER_PORT; [lia|lia|done|lia].
Qed.
End send.

Lemma dhcp_discover_total own c n :
  pool own n → net_ok n → dhcp_wf c →
  ∃ r d t, dhcp_discover (c, n) = Some (r, (d, t)) ∧ pool own t ∧ net_ok t ∧ net_keeps n t ∧ dhcp_wf d ∧
    d = c <| xid_seed := u32 (xid_seed c * 1103515245 + 12345) |> <| xid := u32 (xid_seed c * 1103515245 + 12345) |>
          <| state := DHCP_STATE_SELECTING |>.
Proof.
  intros Hp Hn [Hx Hi]. unfold dhcp_discover. cbn zeta.
  match goal with |- context [dhcp_build_packet _ _ _ ?x] => set (d := x) end.
  assert (Hd : dhcp_wf d) by (split; [apply u32_range|done]).
  destruct (dhcp_message_sent own n Hp Hn DHCP_DISCOVER d) as (r & t & -> & H1 & H2 & H3); [unfold byte, DHCP_DISCOVER; lia|done|].
  by eexists _, _, _.
Qed.
Lemma dhcp_request_total own ip c n :
  pool own n → net_ok n → dhcp_wf c → 0 ≤ ip < 2 ^ 32 →
  ∃ r t, dhcp_request ip (c, n) = Some (r, (c <| offered_ip := ip |> <| state := DHCP_STATE_REQUESTING |>, t)) ∧
    pool own t ∧ net_ok t ∧ net_keeps n t.
Proof.
  intros Hp Hn [Hx _] Hi. unfold dhcp_request. cbn zeta.
  match goal with |- context [dhcp_build_packet _ _ _ ?x] => set (d := x) end.
  assert (Hd : dhcp_wf d) by (by split).
  destruct (dhcp_message_sent own n Hp Hn DHCP_REQUEST d) as (r & t & -> & H1 & H2 & H3); [unfold byte, DHCP_REQUEST; lia|done|].
  by eexists _, _.
Qed.

(** * Reading a response *)

Lemma load_le32_value l i a b c d :
  l !! i = Some a → l !! (i + 1)%nat = Some b → l !! (i + 2)%nat = Some c → l !! (i + 3)%nat = Some d →
  byte a → byte b → byte c → byte d →
  dhcp_load_le32_unaligned l i = Some (a + 256 * b + 65536 * c + 16777216 * d).
Proof.
  unfold byte. intros Ha Hb Hc Hd Ra Rb Rc Rd. unfold dhcp_load_le32_unaligned. rewrite Ha, Hb, Hc, Hd. cbn [mbind option_bind].
  rewrite (lor_shift 8), (lor_shift 16), (lor_shift 24); [f_equal; lia|..]; lia.
Qed.
Lemma load_le32_range l i v : Forall byte l → dhcp_load_le32_unaligned l i = Some v → 0 ≤ v < 2 ^ 32.
Proof.
  intros Hl H. pose proof H as H'. unfold dhcp_load_le32_unaligned in H'. bind_inv H'. clear H'.
  erewrite load_le32_value in H; [injection H as <-|try eassumption; by eapply (Forall_lookup_1 byte)..].
  repeat match goal with E : l !! _ = Some _ |- _ => apply (Forall_lookup_1 byte _ _ _ Hl) in E; unfold byte in E end. lia.
Qed.

(** A 32-bit field stored in the byte order of the machine. *)
Lemma load_le32_app h v r : 0 ≤ v < 2 ^ 32 → dhcp_load_le32_unaligned (h ++ le32 v ++ r) (length h) = Some v.
Proof.
  intros Hv. pose proof (le32_bytes v Hv) as Hb. unfold le32 in *. rewrite !Forall_cons in Hb. destruct Hb as (B0 & B1 & B2 & B3 & _).
  erewrite load_le32_value; [..|exact B0|exact B1|exact B2|exact B3]; [f_equal; divlia|..];
    rewrite lookup_app_r by lia; [replace (length h - length h)%nat with 0%nat by lia|replace (length h + 1 - length h)%nat with 1%nat by lia|
    replace (length h + 2 - length h)%nat with 2%nat by lia|replace (length h + 3 - length h)%nat with 3%nat by lia]; done.
Qed.

(** The message type the options carry. *)
Definition message_type (data : list Z) : option Z := fst <$> dhcp_options 312 (drop off_options data) 0 0 dhcp_ctx.

Lemma dhcp_option_type opts i t l m c d : fst <$> dhcp_option opts i t l m c = fst <$> dhcp_option opts i t l m d.
Proof.
  unfold dhcp_option. destruct (dhcp_load_le32_unaligned opts i), (dhcp_load_be32_unaligned opts i), (opts !! i);
    repeat (case_match; try done).
Qed.
Lemma dhcp_options_type fuel opts i m c d : fst <$> dhcp_options fuel opts i m c = fst <$> dhcp_options fuel opts i m d.
Proof.
  revert i m c d. induction fuel as [|fuel IH]; intros i m c d; cbn [dhcp_options]; destruct (i <? 312)%nat; try done.
  - destruct (opts !! i) as [t|]; [|done]. cbn. by destruct (t =? 255).
  - destruct (opts !! i) as [t|]; [|done]. cbn [mbind option_bind]. destruct (t =? 255); [done|]. destruct (t =? 0); [apply IH|].
    destruct (opts !! (i + 1)%nat) as [l|]; [|done]. cbn [mbind option_bind]. pose proof (dhcp_option_type opts (i + 2) t l m c d) as E.
    destruct (dhcp_option _ _ _ _ _ c) as [[m1 c1]|], (dhcp_option _ _ _ _ _ d) as [[m2 d2]|]; try done. injection E as <-. apply IH.
Qed.
Lemma message_type_parsed data c m d : dhcp_options 312 (drop off_options data) 0 0 c = Some (m, d) → message_type data = Some m.
Proof. intros E. unfold message_type. by rewrite (dhcp_options_type _ _ _ _ dhcp_ctx c), E. Qed.

#[local] Opaque dhcp_options message_type.

(** A reply of the given type for transaction [x]. *)
Definition is_reply (data : list Z) (len x m : Z) : Prop :=
  Z.of_nat off_options ≤ len ∧ data !! 0%nat = Some 2 ∧ dhcp_load_le32_unaligned data off_xid = Some x ∧ message_type data = Some m.

Definition configure (c : dhcp_context) (n : net) : net :=
  ipv4_set_gateway (gateway c) (ipv4_set_netmask (subnet_mask c) (ipv4_set_addr (offered_ip c) n)).

(** What a response can do. *)
Inductive response_effect (data : list Z) (len : Z) (c : dhcp_context) (n : net) (d : dhcp_context) (t : net) : Prop :=
  | effect_none : same_lease c d → t = n → response_effect data len c n d t
  | effect_offer :
      state c = DHCP_STATE_SELECTING → is_reply data len (xid c) DHCP_OFFER → state d = DHCP_STATE_REQUESTING → xid d = xid c →
      dhcp_load_le32_unaligned data off_yiaddr = Some (offered_ip d) → net_keeps n t → response_effect data len c n d t
  | effect_ack :
      state c = DHCP_STATE_REQUESTING → is_reply data len (xid c) DHCP_ACK → state d = DHCP_STATE_BOUND → xid d = xid c →
      offered_ip d = offered_ip c → t = configure d n → response_effect data len c n d t
  | effect_nak :
      state c = DHCP_STATE_REQUESTING → is_reply data len (xid c) DHCP_NAK → state d = DHCP_STATE_SELECTING → net_keeps n t →
      response_effect data len c n d t.

Lemma dhcp_discover_inv c n r d t :
  dhcp_discover (c, n) = Some (r, (d, t)) →
  d = c <| xid_seed := u32 (xid_seed c * 1103515245 + 12345) |> <| xid := u32 (xid_seed c * 1103515245 + 12345) |>
        <| state := DHCP_STATE_SELECTING |> ∧ net_keeps n t.
Proof.
  unfold dhcp_discover. intros H. cbn zeta in H. bind_inv H. match type of H with context [let '(_, _) := ?x in _] => destruct x as [r' t'] end.
  injection H as <- <- <-. split; [done|]. by eapply udp_send_keeps.
Qed.
Lemma dhcp_request_inv ip c n r d t :
  dhcp_request ip (c, n) = Some (r, (d, t)) → d = c <| offered_ip := ip |> <| state := DHCP_STATE_REQUESTING |> ∧ net_keeps n t.
Proof.
  unfold dhcp_request. intros H. cbn zeta in H. bind_inv H. match type of H with context [let '(_, _) := ?x in _] => destruct x as [r' t'] end.
  injection H as <- <- <-. split; [done|]. by eapply udp_send_keeps.
Qed.

Lemma dhcp_response_inv data len c n d t :
  dhcp_handle_response data len (c, n) = Some (d, t) → response_effect data len c n d t.
Proof.
  unfold dhcp_handle_response. intros H. destruct (Z.ltb_spec len (Z.of_nat off_options)); [injection H as <- <-; by apply effect_none|].
  destruct (data !! 0%nat) as [op|] eqn:Eop; [|done]. cbn [mbind option_bind] in H.
  destruct (Z.eqb_spec op 2) as [->|]; [|injection H as <- <-; by apply effect_none]. cbn [negb] in H.
  destruct (dhcp_load_le32_unaligned data off_xid) as [id|] eqn:Eid; [|done]. cbn [mbind option_bind] in H.
  destruct (Z.eqb_spec id (xid c)) as [->|]; [|injection H as <- <-; by apply effect_none]. cbn [negb] in H.
  destruct (dhcp_options _ _ _ _ c) as [[m e]|] eqn:Eo; [|done]. cbn [mbind option_bind] in H.
  pose proof (dhcp_options_same _ _ _ _ _ _ _ Eo) as Hs. apply message_type_parsed in Eo. pose proof Hs as (S1 & S2 & S3 & S4).
  assert (Hr : is_reply data len (xid c) m) by (unfold is_reply; split_and!; [lia|assumption..]). clear Eop Eid Eo.
  destruct (state e) eqn:Es; try (injection H as <- <-; by apply effect_none).
  - destruct (Z.eqb_spec m DHCP_OFFER) as [->|]; [|injection H as <- <-; by apply effect_none]. bind_inv H.
    match type of H with context [let '(_, _) := ?x in _] => destruct x as [r [d' t']] end. injection H as <- <-.
    match goal with E : dhcp_request _ _ = _ |- _ => apply dhcp_request_inv in E as [-> Hk] end. by apply effect_offer; [congruence|..].
  - destruct (Z.eqb_spec m DHCP_ACK) as [->|]; [injection H as <- <-; by apply effect_ack; [congruence|..]|].
    destruct (Z.eqb_spec m DHCP_NAK) as [->|]; [|injection H as <- <-; by apply effect_none]. bind_inv H.
    match type of H with context [let '(_, _) := ?x in _] => destruct x as [r [d' t']] end. injection H as <- <-.
    match goal with E : dhcp_discover _ = _ |- _ => apply dhcp_discover_inv in E as [-> Hk] end. by apply effect_nak; [congruence|..].
Qed.

(** * Histories *)

Inductive dhcp_event := ev_discover | ev_response (data : list Z) (len : Z) | ev_release | ev_other.

(** The client from its initial state, with other activity of the stack, which
    keeps the address, in between. *)
Inductive dhcp_run : list dhcp_event → dhcp_context → net → Prop :=
  | run_start n : dhcp_run [] dhcp_ctx n
  | run_discover h c n r d t : dhcp_run h c n → dhcp_discover (c, n) = Some (r, (d, t)) → dhcp_run (h ++ [ev_discover]) d t
  | run_response h c n data len d t :
      dhcp_run h c n → dhcp_handle_response data len (c, n) = Some (d, t) → dhcp_run (h ++ [ev_response data len]) d t
  | run_release h c n r d t : dhcp_run h c n → dhcp_release (c, n) = Some (r, (d, t)) → dhcp_run (h ++ [ev_release]) d t
  | run_other h c n t : dhcp_run h c n → local_ip (n_ip t) = local_ip (n_ip n) → dhcp_run (h ++ [ev_other]) c t.

(** After a DISCOVER, an OFFER of [ip] in transaction [x]. *)
Definition was_offered (h : list dhcp_event) (x ip : Z) : Prop :=
  ∃ h1 offer len h2, h = h1 ++ ev_response offer len :: h2 ∧ ev_discover ∈ h1 ∧ is_reply offer len x DHCP_OFFER ∧
    dhcp_load_le32_unaligned offer off_yiaddr = Some ip.
(** After that, an ACK of the same transaction. *)
Definition was_leased (h : list dhcp_event) (x ip : Z) : Prop :=
  ∃ h1 ack len h2, h = h1 ++ ev_response ack len :: h2 ∧ was_offered h1 x ip ∧ is_reply ack len x DHCP_ACK.

Lemma was_offered_later h e x ip : was_offered h x ip → was_offered (h ++ [e]) x ip.
Proof. intros (h1 & o & l & h2 & -> & H). exists h1, o, l, (h2 ++ [e]). by rewrite <-app_assoc. Qed.
Lemma was_leased_later h e x ip : was_leased h x ip → was_leased (h ++ [e]) x ip.
Proof. intros (h1 & o & l & h2 & -> & H). exists h1, o, l, (h2 ++ [e]). by rewrite <-app_assoc. Qed.

Definition lease_inv (h : list dhcp_event) (c : dhcp_context) (n : net) : Prop :=
  match state c with
  | DHCP_STATE_INIT => True
  | DHCP_STATE_SELECTING => ev_discover ∈ h
  | DHCP_STATE_REQUESTING => was_offered h (xid c) (offered_ip c)
  | DHCP_STATE_BOUND => was_leased h (xid c) (offered_ip c) ∧ local_ip (n_ip n) = offered_ip c
  | DHCP_STATE_RENEWING => False
  end.

Lemma lease_inv_later h e c n d t :
  lease_inv h c n → same_lease c d → local_ip (n_ip t) = local_ip (n_ip n) → lease_inv (h ++ [e]) d t.
Proof.
  unfold lease_inv. intros H (S1 & S2 & S3 & _) Hip. rewrite S1, S2, S3, Hip.
  destruct (state c); [done|apply elem_of_app; by left|by apply was_offered_later|split; [apply was_leased_later; apply H|apply H]|done].
Qed.

Lemma dhcp_run_inv h c n : dhcp_run h c n → lease_inv h c n.
Proof.
  induction 1 as [n|h c n r d t _ IH E|h c n data len d t _ IH E|h c n r d t _ IH E|h c n t _ IH E]; [done|..].
  - apply dhcp_discover_inv in E as [-> _]. apply elem_of_app. right. left.
  - apply dhcp_response_inv in E as [Hs ->|E1 Hr E2 Ex Hy Hk|E1 Hr E2 Ex Ei ->|E1 Hr E2 Hk]; [by apply (lease_inv_later h _ c n)|..];
      unfold lease_inv in *; rewrite E1 in IH; rewrite E2.
    + exists h, data, len, []. by rewrite Ex.
    + split; [|done]. rewrite Ex, Ei. by exists h, data, len, [].
    + destruct IH as (h1 & o & l & h2 & -> & Hd & _). apply elem_of_app. left. apply elem_of_app. by left.
  - unfold dhcp_release in E. destruct (bool_decide _); cbn [negb] in E.
    + cbn zeta in E. bind_inv E. match type of E with context [let '(_, _) := ?x in _] => destruct x as [r' t'] end. by injection E as <- <- <-.
    + injection E as <- <- <-. by apply (lease_inv_later h _ c n).
  - by apply (lease_inv_later h _ c n).
Qed.

(** * Decoding *)

(** An option as type and data. *)
Definition option_bytes (o : Z * list Z) : list Z := fst o :: Z.of_nat (length (snd o)) :: snd o.
Definition option_ok (o : Z * list Z) : Prop :=
  fst o ≠ 0 ∧ fst o ≠ 255 ∧ Forall byte (snd o) ∧ (fst o = 53 → snd o ≠ []).

Definition le_value (l : list Z) : Z := match l with a :: b :: c :: d :: _ => a + 256 * b + 65536 * c + 16777216 * d | _ => 0 end.
Definition be_value (l : list Z) : Z := match l with a :: b :: c :: d :: _ => 16777216 * a + 65536 * b + 256 * c + d | _ => 0 end.

(** What an option means: the type of the message, or a parameter of the lease
    when it has its four bytes. *)
Definition apply_option (st : Z * dhcp_context) (o : Z * list Z) : Z * dhcp_context :=
  let '(m, c) := st in
  let '(t, data) := o in
  if t =? 53 then (default 0 (head data), c)
  else if (length data <? 4)%nat then (m, c)
  else if t =? 1 then (m, c <| subnet_mask := le_value data |>)
  else if t =? 3 then (m, c <| gateway := le_value data |>)
  else if t =? 6 then (m, c <| dns_server := le_value data |>)
  else if t =? 51 then (m, c <| lease_time := be_value data |>)
  else if t =? 54 then (m, c <| server_ip := le_value data |>)
  else (m, c).

Lemma load_be32_value l i a b c d :
  l !! i = Some a → l !! (i + 1)%nat = Some b → l !! (i + 2)%nat = Some c → l !! (i + 3)%nat = Some d →
  byte a → byte b → byte c → byte d →
  dhcp_load_be32_unaligned l i = Some (16777216 * a + 65536 * b + 256 * c + d).
Proof.
  unfold byte. intros Ha Hb Hc Hd Ra Rb Rc Rd. unfold dhcp_load_be32_unaligned. rewrite Ha, Hb, Hc, Hd. cbn [mbind option_bind].
  rewrite (Z.lor_comm _ d), (Z.lor_comm _ (Z.shiftl c 8)), (Z.lor_comm _ (Z.shiftl b 16)), !Z.lor_assoc.
  rewrite (lor_shift 8), (lor_shift 16), (lor_shift 24); [f_equal; lia|..]; lia.
Qed.

(** The data of an option, at its place among the others. *)
Lemma load_data pre data rest i :
  (4 ≤ length data)%nat → Forall byte data → length pre = i →
  dhcp_load_le32_unaligned (pre ++ data ++ rest) i = Some (le_value data) ∧
  dhcp_load_be32_unaligned (pre ++ data ++ rest) i = Some (be_value data).
Proof.
  intros Hl Hb <-. destruct data as [|a [|b [|c [|d l]]]]; try (cbn in Hl; lia). rewrite !Forall_cons in Hb. destruct Hb as (Ra & Rb & Rc & Rd & _).
  assert (Hk : ∀ k v, (a :: b :: c :: d :: l) !! k = Some v → (pre ++ (a :: b :: c :: d :: l) ++ rest) !! (length pre + k)%nat = Some v).
  { intros k v Hk. rewrite lookup_app_r by lia. replace (length pre + k - length pre)%nat with k by lia. by apply lookup_app_l_Some. }
  pose proof (Hk 0%nat a eq_refl) as H0. rewrite Nat.add_0_r in H0.
  split; [apply load_le32_value|apply load_be32_value]; try done; by apply Hk.
Qed.

Lemma dhcp_option_spec pre t data rest i m c :
  option_ok (t, data) → length pre = i →
  dhcp_option (pre ++ data ++ rest) i t (Z.of_nat (length data)) m c = Some (apply_option (m, c) (t, data)).
Proof.
  intros (_ & _ & Hb & Hm) Hi. cbn [fst snd] in *. unfold dhcp_option, apply_option. destruct (Z.eqb_spec t 53) as [->|].
  - destruct data as [|a l]; [by specialize (Hm eq_refl)|]. rewrite lookup_app_r by lia. by replace (i - length pre)%nat with 0%nat by lia.
  - destruct (Nat.ltb_spec (length data) 4).
    + replace (4 <=? Z.of_nat (length data)) with false by lia. by repeat case_match.
    + replace (4 <=? Z.of_nat (length data)) with true by lia. destruct (load_data pre data rest i) as [-> ->]; [lia|done|done|].
      cbn. by repeat case_match.
Qed.

#[local] Transparent dhcp_options.
Lemma dhcp_options_spec l fuel pre rest m c :
  Forall option_ok l → (length l ≤ fuel)%nat → (length pre + length (concat (option_bytes <$> l)) < 312)%nat →
  dhcp_options fuel (pre ++ concat (option_bytes <$> l) ++ 255 :: rest) (length pre) m c = Some (fold_left apply_option l (m, c)).
Proof.
  intros Hl. revert fuel pre m c. induction Hl as [|[t data] l Ho Hl IH]; intros fuel pre m c Hf Hn.
  - assert (Hlt : (length pre <? 312)%nat = true) by (apply Nat.ltb_lt; lia).
    assert (E : (pre ++ 255 :: rest) !! length pre = Some 255) by (by apply list_lookup_middle).
    destruct fuel; cbn [dhcp_options fmap list_fmap concat app]; by rewrite Hlt, E.
  - destruct fuel as [|fuel]; [cbn in Hf; lia|]. cbn [fmap list_fmap concat] in *. cbn [length] in Hf.
    rewrite length_app in Hn. cbn [option_bytes fst snd length] in Hn. pose proof Ho as (H0 & H255 & _). cbn [fst] in *.
    set (tail := concat (option_bytes <$> l) ++ 255 :: rest) in *. rewrite <-!app_assoc. fold tail.
    change (option_bytes (t, data) ++ tail) with (t :: Z.of_nat (length data) :: data ++ tail).
    assert (Hlt : (length pre <? 312)%nat = true) by (apply Nat.ltb_lt; lia). cbn [dhcp_options]. rewrite Hlt.
    assert (Hk : ∀ k v, (t :: Z.of_nat (length data) :: data ++ tail) !! k = Some v →
      (pre ++ t :: Z.of_nat (length data) :: data ++ tail) !! (length pre + k)%nat = Some v).
    { intros k v Hk. rewrite lookup_app_r by lia. by replace (length pre + k - length pre)%nat with k by lia. }
    pose proof (Hk 0%nat t eq_refl) as E0. rewrite Nat.add_0_r in E0. rewrite E0. cbn [mbind option_bind].
    replace (t =? 255) with false by lia. replace (t =? 0) with false by lia. rewrite (Hk 1%nat (Z.of_nat (length data)) eq_refl). cbn [mbind option_bind].
    replace (pre ++ t :: Z.of_nat (length data) :: data ++ tail) with ((pre ++ [t; Z.of_nat (length data)]) ++ data ++ tail) by (by rewrite <-app_assoc).
    rewrite dhcp_option_spec by (done || (rewrite length_app; cbn; lia)). cbn [mbind option_bind].
    destruct (apply_option (m, c) (t, data)) as [m1 c1] eqn:Ea. cbn [fold_left]. rewrite Ea, Nat2Z.id.
    replace (length pre + 2 + length data)%nat with (length ((pre ++ [t; Z.of_nat (length data)]) ++ data)) by (rewrite !length_app; cbn; lia).
    rewrite (app_assoc (pre ++ _)). unfold tail. apply IH; [lia|]. rewrite !length_app. cbn. lia.
Qed.
#[local] Opaque dhcp_options.

(** A reply of a server, in a buffer that goes on with [rest]: transaction [x],
    address [yi], options [l]; [h1], [h2] and [h3] are the fields the client
    does not read. *)
Record reply_msg := mk_reply {
  rm_h1 : list Z; rm_xid : Z; rm_h2 : list Z; rm_yiaddr : Z; rm_h3 : list Z; rm_options : list (Z * list Z); rm_rest : list Z;
}.
Definition reply_bytes (r : reply_msg) : list Z :=
  (2 :: rm_h1 r) ++ le32 (rm_xid r) ++ rm_h2 r ++ le32 (rm_yiaddr r) ++ rm_h3 r ++
  concat (option_bytes <$> rm_options r) ++ 255 :: rm_rest r.
Record reply_ok (x : Z) (r : reply_msg) : Prop := {
  ro_h1 : length (rm_h1 r) = 3%nat;
  ro_xid : rm_xid r = x;
  ro_h2 : length (rm_h2 r) = 8%nat;
  ro_yiaddr : 0 ≤ rm_yiaddr r < 2 ^ 32;
  ro_h3 : length (rm_h3 r) = 220%nat;
  ro_options : Forall option_ok (rm_options r);
  ro_room : (length (concat (option_bytes <$> rm_options r)) < 312)%nat;
}.

(** What the options of a reply leave in the context. *)
Definition decoded (r : reply_msg) (c : dhcp_context) : Z * dhcp_context := fold_left apply_option (rm_options r) (0, c).

Lemma length_le32 v : length (le32 v) = 4%nat.
Proof. done. Qed.

Section reply.
Context (x : Z) (r : reply_msg) (Hx : 0 ≤ x < 2 ^ 32) (Hr : reply_ok x r).

Lemma reply_op : reply_bytes r !! 0%nat = Some 2.
Proof using. done. Qed.
Lemma reply_xid : dhcp_load_le32_unaligned (reply_bytes r) off_xid = Some x.
Proof using Hx Hr.
  destruct Hr as [H1 Ex _ _ _ _ _]. unfold reply_bytes. rewrite Ex.
  replace off_xid with (length (2 :: rm_h1 r)) by (cbn; rewrite H1; done). by apply load_le32_app.
Qed.
Lemma reply_yiaddr : dhcp_load_le32_unaligned (reply_bytes r) off_yiaddr = Some (rm_yiaddr r).
Proof using Hr.
  destruct Hr as [H1 Ex H2 Hy _ _ _]. unfold reply_bytes. rewrite (app_assoc (_ :: _)), (app_assoc (_ ++ _)).
  replace off_yiaddr with (length (((2 :: rm_h1 r) ++ le32 (rm_xid r)) ++ rm_h2 r)) by (rewrite !length_app, length_le32; cbn; rewrite H1, H2; done).
  by apply load_le32_app.
Qed.
Lemma reply_options c : dhcp_options 312 (drop off_options (reply_bytes r)) 0 0 c = Some (decoded r c).
Proof using Hr.
  destruct Hr as [H1 Ex H2 Hy H3 Ho Hl]. unfold reply_bytes. rewrite (app_assoc (_ :: _)), (app_assoc (_ ++ _)), (app_assoc (_ ++ _)), (app_assoc (_ ++ _)).
  rewrite drop_app_length'. 2: { rewrite !length_app, !length_le32. cbn. rewrite H1, H2, H3. done. }
  apply (dhcp_options_spec (rm_options r) 312 []); [done| |done].
  enough (length (rm_options r) ≤ length (concat (option_bytes <$> rm_options r)))%nat by lia.
  clear. induction (rm_options r) as [|o l IH]; cbn [fmap list_fmap concat length]; [lia|]. rewrite length_app. cbn [option_bytes length]. lia.
Qed.
End reply.

Lemma apply_option_same m c o : same_lease c (snd (apply_option (m, c) o)).
Proof. unfold apply_option. destruct o as [t data]. by repeat case_match. Qed.
Lemma decoded_same r c : same_lease c (snd (decoded r c)).
Proof.
  unfold decoded. generalize 0. revert c. induction (rm_options r) as [|o l IH]; intros c m; [done|]. cbn [fold_left].
  pose proof (apply_option_same m c o) as (A1 & A2 & A3 & A4). destruct (apply_option (m, c) o) as [m' c']. cbn in *.
  destruct (IH c' m') as (B1 & B2 & B3 & B4). unfold same_lease. split_and!; congruence.
Qed.

(** A message sent by the client: the frame on the wire. *)
Lemma dhcp_message_frame own n m c :
  pool own n → own ≠ all_buffers → net_ok n → nic_ready (n_nic n) = true → byte m → dhcp_wf c →
  ∃ r t, udp_send 4294967295 DHCP_SERVER_PORT DHCP_CLIENT_PORT (dhcp_build_packet m 0 (n_mac n) c) n = Some (r, t) ∧
    pool own t ∧ net_ok t ∧ net_keeps n t ∧ nic_sent (n_nic t) = nic_sent (n_nic n) ++ [client_frame (ip_id_counter (n_ip n)) m c n] ∧
    ip_id_counter (n_ip t) = u16 (ip_id_counter (n_ip n) + 1).
Proof.
  intros Hpool Hown Hok Hready Hm Hc. destruct (packet_bytes m 0 (n_mac n) c Hm Hc (no_mac _ Hok)) as [Hb Hl]; [lia|].
  destruct (dhcp_message_sent own n Hpool Hok m c Hm Hc) as (r & t & E & Hp & Hn & Hk). exists r, t. split; [done|]. split; [done|]. split; [done|]. split; [done|].
  rewrite udp_send_datagram in E by lia. unfold client_frame. set (data := dhcp_build_packet _ _ _ _) in *. cbn zeta.
  set (dg := udp_datagram (ipv4_get_addr n) 4294967295 DHCP_CLIENT_PORT DHCP_SERVER_PORT data) in *.
  assert (Hld : length dg = (8 + length data)%nat).
  { unfold dg. destruct (datagram_eq (ipv4_get_addr n) 4294967295 DHCP_CLIENT_PORT DHCP_SERVER_PORT data) as (c0 & c1 & ->). rewrite !length_app. done. }
  destruct (ipv4_send_frame own n 4294967295 17 dg broadcast_mac) as (_ & t' & E' & _ & Hs & Hi); try done.
  - apply udp_datagram_bytes; unfold DHCP_CLIENT_PORT, DHCP_SERVER_PORT; [lia|lia|done|lia].
  - rewrite Hld. lia.
  - split; [done|]. apply Forall_replicate. unfold byte. lia.
  - rewrite E in E'. injection E' as -> <-. split; [|done]. replace (28 + Z.of_nat (length data)) with (20 + Z.of_nat (length dg)) by lia. exact Hs.
Qed.

Lemma decoded_type r c d : fst (decoded r c) = fst (decoded r d).
Proof.
  unfold decoded. generalize 0. revert c d. induction (rm_options r) as [|[t data] l IH]; intros c d m; [done|]. cbn [fold_left].
  unfold apply_option at 2 4. by repeat (case_match; try apply IH).
Qed.

Lemma client_frame_keeps id m c n t : net_keeps n t → client_frame id m c t = client_frame id m c n.
Proof. intros [_ _ _ _ _ _ Hm (Hip & _) _]. unfold client_frame. by rewrite Hm, Hip. Qed.

(** The two steps of the client that answer a well-formed reply. *)
Lemma handle_offer c n r len n2 q :
  0 ≤ xid c < 2 ^ 32 → reply_ok (xid c) r → fst (decoded r dhcp_ctx) = DHCP_OFFER → 240 ≤ len → state c = DHCP_STATE_SELECTING →
  let c2 := (snd (decoded r c)) <| offered_ip := rm_yiaddr r |> <| state := DHCP_STATE_REQUESTING |> in
  udp_send 4294967295 DHCP_SERVER_PORT DHCP_CLIENT_PORT (dhcp_build_packet DHCP_REQUEST 0 (n_mac n) c2) n = Some (q, n2) →
  dhcp_handle_response (reply_bytes r) len (c, n) = Some (c2, n2).
Proof.
  intros Hx Hr Ht Hlen Hs c2 E. unfold dhcp_handle_response. change (Z.of_nat off_options) with 240. replace (len <? 240) with false by lia.
  rewrite (reply_op r), (reply_xid (xid c) r Hx Hr). cbn [mbind option_bind]. change (2 =? 2) with true. rewrite Z.eqb_refl. cbn [negb].
  rewrite (reply_options (xid c) r Hr), (reply_yiaddr (xid c) r Hr). cbn [mbind option_bind]. rewrite (decoded_type r dhcp_ctx c) in Ht.
  pose proof (decoded_same r c) as (_ & _ & S3 & _). revert Ht S3 E. unfold c2. destruct (decoded r c) as [m e]. cbn [fst snd]. intros -> S3 E.
  rewrite S3, Hs. change (DHCP_OFFER =? DHCP_OFFER) with true. cbn iota. unfold dhcp_request. cbn zeta.
  change (e <| offered_ip := rm_yiaddr r |> <| offered_ip := rm_yiaddr r |>) with (e <| offered_ip := rm_yiaddr r |>). by rewrite E.
Qed.
Lemma handle_ack c n r len :
  0 ≤ xid c < 2 ^ 32 → reply_ok (xid c) r → fst (decoded r dhcp_ctx) = DHCP_ACK → 240 ≤ len → state c = DHCP_STATE_REQUESTING →
  let c3 := (snd (decoded r c)) <| state := DHCP_STATE_BOUND |> in
  dhcp_handle_response (reply_bytes r) len (c, n) = Some (c3, configure c3 n).
Proof.
  intros Hx Hr Ht Hlen Hs c3. unfold dhcp_handle_response. change (Z.of_nat off_options) with 240. replace (len <? 240) with false by lia.
  rewrite (reply_op r), (reply_xid (xid c) r Hx Hr). cbn [mbind option_bind]. change (2 =? 2) with true. rewrite Z.eqb_refl. cbn [negb].
  rewrite (reply_options (xid c) r Hr). cbn [mbind option_bind]. rewrite (decoded_type r dhcp_ctx c) in Ht.
  pose proof (decoded_same r c) as (_ & _ & S3 & _). revert Ht S3. unfold c3. destruct (decoded r c) as [m e]. cbn [fst snd]. intros -> S3.
  rewrite S3, Hs. done.
Qed.

(** * Theorems *)

(** A lease comes from one exchange.  In every history of the client, with
    any bytes as responses and any other traffic in between, a client that is
    bound has sent a DISCOVER, after it accepted an OFFER of exactly the address
    it holds, and after that an ACK, both answering its current transaction; the
    interface has that address. *)
Theorem dhcp_lease_provenance h c n :
  dhcp_run h c n → state c = DHCP_STATE_BOUND →
  was_leased h (xid c) (offered_ip c) ∧ local_ip (n_ip n) = offered_ip c.
Proof. intros H Hb. apply dhcp_run_inv in H. unfold lease_inv in H. by rewrite Hb in H. Qed.

(** C24: no message takes the client out of its buffer.  For a buffer of 557
    bytes or more (the caller has 768) with any contents and any length, the
    handler ends, reads only inside the buffer, transmits only inside a packet
    buffer, and leaves the stack and the client well formed. *)
Theorem dhcp_response_safe own data len c n :
  pool own n → net_ok n → dhcp_wf c → Forall byte data → (557 ≤ length data)%nat →
  ∃ d t, dhcp_handle_response data len (c, n) = Some (d, t) ∧ pool own t ∧ net_ok t ∧ dhcp_wf d.
Proof.
  intros Hp Hn Hc Hb Hl. unfold dhcp_handle_response. destruct (len <? _); [by eexists _, _|].
  destruct (lookup_lt_is_Some_2 data 0) as [op ->]; [lia|]. cbn [mbind option_bind]. destruct (negb (op =? 2)); [by eexists _, _|].
  destruct (load_le32_some data off_xid) as [id ->]; [unfold off_xid; lia|]. cbn [mbind option_bind]. destruct (negb (id =? xid c)); [by eexists _, _|].
  destruct (dhcp_options_total 312 (drop off_options data) 0 0 c) as (m & e & Eo); [lia|rewrite length_drop; unfold off_options; lia|].
  rewrite Eo. cbn [mbind option_bind]. apply dhcp_options_same in Eo as (S1 & S2 & S3 & S4).
  assert (He : dhcp_wf e) by (destruct Hc; split; congruence). destruct (state e); try by eexists _, _.
  - destruct (m =? DHCP_OFFER); [|by eexists _, _]. destruct (load_le32_some data off_yiaddr) as [yi Ey]; [unfold off_yiaddr; lia|]. rewrite Ey. cbn [mbind option_bind].
    pose proof (load_le32_range _ _ _ Hb Ey) as Hy.
    destruct (dhcp_request_total own yi (e <| offered_ip := yi |>) n) as (r & t & -> & P1 & P2 & P3); [done|done|destruct He; by split|done|].
    cbn [mbind option_bind]. eexists _, _. split; [done|]. split; [done|]. split; [done|]. destruct He. by split.
  - destruct (m =? DHCP_ACK).
    + eexists _, _. split; [done|]. split; [done|]. split; [|destruct He; by split]. destruct Hn as [B1 B2 B3 B4]. split; try done. apply He.
    + destruct (m =? DHCP_NAK); [|by eexists _, _].
      destruct (dhcp_discover_total own (e <| state := DHCP_STATE_INIT |>) n) as (r & d & t & -> & P1 & P2 & P3 & P4 & _); [done|done|destruct He; by split|].
      cbn [mbind option_bind]. by eexists _, _.
Qed.

(** C22: a server that answers gets the client bound.  From any state of the
    client, with the link up and a buffer free: DISCOVER, an OFFER and an ACK of
    its transaction, with the options in any order and any other option among
    them, put exactly two frames on the wire, the DISCOVER and a REQUEST for the
    offered address at the offering server, and leave the client bound with the
    offered address configured beside the netmask and the router of the ACK. *)
Theorem dhcp_handshake own c n offer ack lo la :
  pool own n → own ≠ all_buffers → net_ok n → nic_ready (n_nic n) = true → dhcp_wf c →
  let x := u32 (xid_seed c * 1103515245 + 12345) in
  reply_ok x offer → reply_ok x ack → fst (decoded offer dhcp_ctx) = DHCP_OFFER → fst (decoded ack dhcp_ctx) = DHCP_ACK →
  240 ≤ lo → 240 ≤ la →
  ∃ r c1 n1 c2 n2,
    dhcp_discover (c, n) = Some (r, (c1, n1)) ∧
    dhcp_handle_response (reply_bytes offer) lo (c1, n1) = Some (c2, n2) ∧
    nic_sent (n_nic n2) = nic_sent (n_nic n) ++
      [client_frame (ip_id_counter (n_ip n)) DHCP_DISCOVER c1 n; client_frame (u16 (ip_id_counter (n_ip n) + 1)) DHCP_REQUEST c2 n] ∧
    xid c1 = x ∧ offered_ip c2 = rm_yiaddr offer ∧ server_ip c2 = server_ip (snd (decoded offer c1)) ∧
    let c3 := (snd (decoded ack c2)) <| state := DHCP_STATE_BOUND |> in
    dhcp_handle_response (reply_bytes ack) la (c2, n2) = Some (c3, configure c3 n2) ∧
    local_ip (n_ip (configure c3 n2)) = rm_yiaddr offer.
Proof.
  intros Hpool Hown Hok Hready Hc x Ho Ha To Ta Hlo Hla.
  set (c1 := c <| xid_seed := x |> <| xid := x |> <| state := DHCP_STATE_SELECTING |>).
  assert (Hx : 0 ≤ x < 2 ^ 32) by apply u32_range. assert (Hc1 : dhcp_wf c1) by (destruct Hc; by split).
  destruct (dhcp_message_frame own n DHCP_DISCOVER c1) as (r & n1 & E1 & Hp1 & Hn1 & K1 & F1 & I1); try done.
  set (c2 := (snd (decoded offer c1)) <| offered_ip := rm_yiaddr offer |> <| state := DHCP_STATE_REQUESTING |>).
  pose proof (decoded_same offer c1) as (_ & D2 & _). assert (Hc2 : dhcp_wf c2) by (split; [unfold c2; cbn; by rewrite D2|apply Ho]).
  destruct (dhcp_message_frame own n1 DHCP_REQUEST c2) as (q & n2 & E2 & _ & _ & K2 & F2 & I2); try done; [by destruct K1 as [_ _ _ _ _ _ _ _ [_ ->]]|].
  exists r, c1, n1, c2, n2. split.
  { change (dhcp_discover (c, n)) with ('(ret, m) ← udp_send 4294967295 DHCP_SERVER_PORT DHCP_CLIENT_PORT
      (dhcp_build_packet DHCP_DISCOVER 0 (n_mac n) c1) n; Some (ret, (c1, m))). by rewrite E1. }
  split; [by apply (handle_offer c1 n1 offer lo n2 q)|].
  split; [by rewrite F2, F1, I1, (client_frame_keeps _ _ _ _ _ K1), <-app_assoc|]. split; [done|]. split; [done|]. split; [done|].
  assert (Ex2 : xid c2 = x) by (unfold c2; cbn; by rewrite D2). rewrite <-Ex2 in Ha, Hx.
  split; [by apply handle_ack|]. cbn. pose proof (decoded_same ack c2) as (-> & _). done.
Qed.

(** * Examples *)

(** 10.0.2.15, offered by 10.0.2.2 in the first transaction. *)
Definition example_xid : Z := u32 (305419896 * 1103515245 + 12345).
Definition example_reply (m : Z) : reply_msg :=
  mk_reply [1; 6; 0] example_xid (replicate 8 0) 251789322 (replicate 216 0 ++ [99; 130; 83; 99])
    [(53, [m]); (54, [10; 0; 2; 2]); (51, [0; 1; 81; 128]); (1, [255; 255; 255; 0]); (12, [97]); (3, [10; 0; 2; 2]); (6, [10; 0; 2; 3])]
    (replicate 500 0).

Lemma example_reply_ok m : byte m → reply_ok example_xid (example_reply m).
Proof.
  intros Hm. split; try done; [|cbn; lia].
  repeat (apply Forall_cons; split; [split_and!; cbn [fst snd]; [done|done| |done]; repeat (apply Forall_cons; split; [done || (unfold byte; lia)|]); by apply Forall_nil|]).
  by apply Forall_nil.
Qed.

Definition start_world : world := (dhcp_ctx, zero_net).
Definition selecting_world : world := from_option snd start_world (dhcp_discover start_world).
Definition requesting_world : world := default start_world (dhcp_handle_response (reply_bytes (example_reply DHCP_OFFER)) 400 selecting_world).
Definition bound_world : world := default start_world (dhcp_handle_response (reply_bytes (example_reply DHCP_ACK)) 400 requesting_world).
Definition example_events : list dhcp_event :=
  [ev_discover; ev_response (reply_bytes (example_reply DHCP_OFFER)) 400; ev_response (reply_bytes (example_reply DHCP_ACK)) 400].

Lemma bound_world_run : dhcp_run example_events (fst bound_world) (snd bound_world).
Proof.
  assert (bool_decide (is_Some (dhcp_discover start_world)) = true) as E1 by (vm_compute; reflexivity).
  assert (bool_decide (is_Some (dhcp_handle_response (reply_bytes (example_reply DHCP_OFFER)) 400 selecting_world)) = true) as E2 by (vm_compute; reflexivity).
  assert (bool_decide (is_Some (dhcp_handle_response (reply_bytes (example_reply DHCP_ACK)) 400 requesting_world)) = true) as E3 by (vm_compute; reflexivity).
  apply bool_decide_eq_true in E1 as [[r [c1 n1]] E1], E2 as [[c2 n2] E2], E3 as [[c3 n3] E3].
  assert (selecting_world = (c1, n1)) as H1 by (unfold selecting_world; by rewrite E1).
  assert (requesting_world = (c2, n2)) as H2 by (unfold requesting_world; by rewrite E2).
  assert (bound_world = (c3, n3)) as H3 by (unfold bound_world; by rewrite E3). rewrite H1 in E2. rewrite H2 in E3. rewrite H3.
  exact (run_response _ _ _ _ _ _ _ (run_response _ _ _ _ _ _ _ (run_discover _ _ _ _ _ _ (run_start zero_net) E1) E2) E3).
Qed.

Lemma dhcp_lease_provenance_witness :
  state (fst bound_world) = DHCP_STATE_BOUND ∧ was_leased example_events (xid (fst bound_world)) (offered_ip (fst bound_world)) ∧
  local_ip (n_ip (snd bound_world)) = 251789322.
Proof.
  assert (state (fst bound_world) = DHCP_STATE_BOUND) as Hb by (vm_compute; reflexivity).
  assert (offered_ip (fst bound_world) = 251789322) as Hi by (vm_compute; reflexivity).
  destruct (dhcp_lease_provenance example_events (fst bound_world) (snd bound_world) bound_world_run Hb) as [Hl Hip].
  split; [exact Hb|]. split; [exact Hl|]. rewrite Hip. exact Hi.
Defined.

Lemma dhcp_ctx_wf : dhcp_wf dhcp_ctx.
Proof. split; cbn; lia. Qed.

Lemma dhcp_response_safe_witness :
  ∃ d t, dhcp_handle_response (replicate 768 2) 300 (dhcp_ctx <| xid := 33686018 |> <| state := DHCP_STATE_SELECTING |>, zero_net) = Some (d, t) ∧ net_ok t.
Proof.
  destruct (dhcp_response_safe ∅ (replicate 768 2) 300 (dhcp_ctx <| xid := 33686018 |> <| state := DHCP_STATE_SELECTING |>) zero_net)
    as (d & t & E & _ & Hn & _).
  - apply zero_net_pool.
  - apply zero_net_ok.
  - split; cbn; lia.
  - apply Forall_replicate. unfold byte. lia.
  - rewrite length_replicate. lia.
  - exists d, t. split; [exact E|exact Hn].
Defined.

Lemma dhcp_handshake_witness :
  ∃ r c1 n1 c2 n2, dhcp_discover (dhcp_ctx, zero_net) = Some (r, (c1, n1)) ∧
    dhcp_handle_response (reply_bytes (example_reply DHCP_OFFER)) 400 (c1, n1) = Some (c2, n2) ∧ length (nic_sent (n_nic n2)) = 2%nat.
Proof.
  destruct (dhcp_handshake ∅ dhcp_ctx zero_net (example_reply DHCP_OFFER) (example_reply DHCP_ACK) 400 400)
    as (r & c1 & n1 & c2 & n2 & E1 & E2 & F & _).
  - apply zero_net_pool.
  - apply no_buffers_used.
  - apply zero_net_ok.
  - reflexivity.
  - apply dhcp_ctx_wf.
  - apply example_reply_ok. unfold byte, DHCP_OFFER. lia.
  - apply example_reply_ok. unfold byte, DHCP_ACK. lia.
  - vm_compute. reflexivity.
  - vm_compute. reflexivity.
  - lia.
  - lia.
  - exists r, c1, n1, c2, n2. split; [exact E1|]. split; [exact E2|]. rewrite F. reflexivity.
Defined.

(** The options are read up to the end of the option area whatever the length
    of the message: 240 bytes, no option among them, and what an earlier message
    left behind in the buffer binds the client. *)
Lemma stale_options_accepted :
  state ∘ fst <$> dhcp_handle_response (reply_bytes (example_reply DHCP_ACK)) 240 requesting_world = Some DHCP_STATE_BOUND.
Proof. vm_compute. reflexivity. Qed.

(** With a buffer of exactly one [dhcp_packet_t] the parser reads behind it. *)
Lemma options_overrun :
  dhcp_handle_response (take 240 (reply_bytes (example_reply DHCP_OFFER)) ++ replicate 311 0 ++ [1]) 552 selecting_world = None.
Proof. vm_compute. reflexivity. Qed.
