(* ===== verification/Dns.v ===== *)
(** The DNS resolver: net/dns.c, A-record queries over UDP with a cache of 64
    names.

    A C string is the list of its bytes before the terminator.  A response is a
    buffer and the length of the message in it; [None] is an access outside a
    buffer.  The theorems: a host name is encoded as its labels, the parser
    returns the first address record of a response, and the cache answers what
    was stored in it. *)

From S2P Require Import Prelude Links Checksum Packet Routing Firewall Arp Net Udp.

Definition DNS_PORT : Z := 53.
Definition DNS_MAX_NAME : nat := 256.
Definition DNS_MAX_CACHE : nat := 64.
Definition DNS_TYPE_A : Z := 1.
Definition DNS_RCODE_OK : Z := 0.

Record dns_cache_entry := mk_dns_entry { dn_name : list Z; dn_ip : Z; dn_ttl : Z; dn_valid : bool }.
#[export] Instance dns_cache_entry_eta : Eta dns_cache_entry := λ e, mk_dns_entry (dn_name e) (dn_ip e) (dn_ttl e) (dn_valid e).

Record dns := mk_dns { dns_cache : list dns_cache_entry; dns_server_ip : Z; dns_query_id : Z }.
#[export] Instance dns_eta : Eta dns := λ s, mk_dns (dns_cache s) (dns_server_ip s) (dns_query_id s).

Fixpoint str_eq (a b : list Z) : bool :=
  match a, b with
  | x :: a, y :: b => if negb (x =? y) then false else str_eq a b
  | [], [] => true
  | _, _ => false
  end.

Definition dns_init (s : dns) : dns := s <| dns_cache ::= fmap (λ e, e <| dn_valid := false |>) |>.
Definition dns_set_server (ip : Z) (s : dns) : dns := s <| dns_server_ip := ip |>.
Definition dns_cache_flush (s : dns) : dns := s <| dns_cache ::= fmap (λ e, e <| dn_valid := false |>) |>.

(** * Encoding a name *)

Definition dot : Z := 46.

(** The inner loop: the bytes copied, at most [room], and the rest of the name. *)
Fixpoint encode_label (p : list Z) (room : nat) : list Z * list Z :=
  match p, room with
  | [], _ => ([], [])
  | x :: q, O => ([], x :: q)
  | x :: q, S room => if x =? dot then ([], x :: q) else let '(l, r) := encode_label q room in (x :: l, r)
  end.

Definition skip_dot (p : list Z) : list Z := match p with x :: q => if x =? dot then q else p | [] => [] end.

(** The outer loop from position [pos]: the bytes it stores.  Every round stores
    one byte or more. *)
Fixpoint encode_labels (fuel : nat) (p : list Z) (pos max_len : nat) : option (list Z) :=
  match p with
  | [] => Some [0]
  | _ =>
      if (pos <? max_len - 2)%nat then
        match fuel with
        | O => None
        | S fuel =>
            let '(label, r) := encode_label p (max_len - 1 - (pos + 1)) in
            rest ← encode_labels fuel (skip_dot r) (pos + 1 + length label) max_len;
            Some (u8 (Z.of_nat (length label)) :: label ++ rest)
        end
      else Some [0]
  end.

Definition dns_encode_name (name : list Z) (max_len : nat) : option (list Z) := encode_labels max_len name 0 max_len.

(** * Parsing a response *)

Definition load16 (data : list Z) (i : nat) : option Z := a ← data !! i; b ← data !! (i + 1)%nat; Some (a + 256 * b).
Definition load32 (data : list Z) (i : nat) : option Z := a ← load16 data i; b ← load16 data (i + 2); Some (a + 65536 * b).
(** [(data[i] << 8) | data[i + 1]] *)
Definition word_be (data : list Z) (i : nat) : option Z :=
  a ← data !! i; b ← data !! (i + 1)%nat; Some (u16 (Z.lor (Z.shiftl a 8) b)).

(** The name of a question: a pointer ends it after two bytes. *)
Fixpoint skip_qname (fuel : nat) (data : list Z) (len pos : nat) : option nat :=
  if (pos <? len)%nat then
    x ← data !! pos;
    if x =? 0 then Some (pos + 1)%nat
    else if Z.land x 192 =? 192 then Some (pos + 2)%nat
    else match fuel with O => None | S fuel => skip_qname fuel data len (pos + Z.to_nat x + 1) end
  else Some (pos + 1)%nat.

Fixpoint skip_questions (q : nat) (data : list Z) (len pos : nat) : option nat :=
  match q with
  | O => Some pos
  | S q => if (pos <? len)%nat then pos ← skip_qname len data len pos; skip_questions q data len (pos + 4) else Some pos
  end.

(** The labels of the name of an answer that does not start with a pointer. *)
Fixpoint skip_labels (fuel : nat) (data : list Z) (len pos : nat) : option nat :=
  if (pos <? len)%nat then
    x ← data !! pos;
    if x =? 0 then Some (pos + 1)%nat
    else match fuel with O => None | S fuel => skip_labels fuel data len (pos + Z.to_nat x + 1) end
  else Some (pos + 1)%nat.

Definition skip_aname (data : list Z) (len pos : nat) : option nat :=
  x ← data !! pos;
  if Z.land x 192 =? 192 then Some (pos + 2)%nat else skip_labels len data len pos.

(** The result is the address, or [None] for -1. *)
Fixpoint parse_answers (a : nat) (data : list Z) (len pos : nat) : option (option Z) :=
  match a with
  | O => Some None
  | S a =>
      if (pos <? len)%nat then
        pos ← skip_aname data len pos;
        if (len <? pos + 10)%nat then Some None
        else
          rtype ← word_be data pos;
          rdlen ← word_be data (pos + 8);
          let pos := (pos + 10)%nat in
          if (rtype =? DNS_TYPE_A) && (rdlen =? 4) then ip ← load32 data pos; Some (Some ip)
          else parse_answers a data len (pos + Z.to_nat rdlen)
      else Some None
  end.

Definition dns_header_size : nat := 12.

Definition dns_parse_response (data : list Z) (len : nat) : option (option Z) :=
  if (len <? dns_header_size)%nat then Some None
  else
    flags ← load16 data 2;
    ancount ← load16 data 6;
    let flags := swap16 flags in
    let ancount := swap16 ancount in
    if Z.land flags 32768 =? 0 then Some None
    else if negb (Z.land flags 15 =? DNS_RCODE_OK) then Some None
    else if ancount =? 0 then Some None
    else
      qdcount ← load16 data 4;
      pos ← skip_questions (Z.to_nat (swap16 qdcount)) data len dns_header_size;
      parse_answers (Z.to_nat ancount) data len pos.

(** * The resolver *)

Definition cache_hit (hostname : list Z) (s : dns) : option nat :=
  find_slot (λ e, dn_valid e && str_eq (dn_name e) hostname) (dns_cache s).

(** The query, in an array of 512 bytes: [None] is a store behind it. *)
Definition dns_query (id : Z) (hostname : list Z) : option (list Z) :=
  name ← dns_encode_name hostname (512 - dns_header_size);
  let hid := swap16 id in
  let query := [hid mod 256; hid / 256] ++ [1; 0] ++ [0; 1] ++ replicate 6 0 ++ name ++ [0; 1; 0; 1] in
  if (512 <? length query)%nat then None else Some query.

(** [hostname] and [out_ip] are not NULL.  The result, the address stored, the
    resolver and the stack. *)
Definition dns_resolve (hostname : list Z) (s : dns) (n : net) : option (Z * option Z * dns * net) :=
  match cache_hit hostname s ≫= λ i, dns_cache s !! i with
  | Some e => Some (0, Some (dn_ip e), s, n)
  | None =>
      let id := dns_query_id s in
      let s := s <| dns_query_id := u16 (id + 1) |> in
      query ← dns_query id hostname;
      '(ret, n) ← udp_send (dns_server_ip s) DNS_PORT 10053 query n;
      Some (-1, None, s, n)
  end.

Definition dns_handle_response (data : list Z) (len : nat) (queried_name : list Z) (s : dns) : option dns :=
  r ← dns_parse_response data len;
  match r with
  | Some ip =>
      if ip =? 0 then Some s
      else
        match find_slot (λ e, negb (dn_valid e)) (dns_cache s) with
        | Some i => Some (s <| dns_cache ::= <[i := mk_dns_entry (take (DNS_MAX_NAME - 1) queried_name) ip 300 true]> |>)
        | None => Some s
        end
  | None => Some s
  end.

(** * Names *)

(** A host name is its labels with dots between them. *)
Fixpoint join_labels (labels : list (list Z)) : list Z :=
  match labels with
  | [] => []
  | [l] => l
  | l :: r => l ++ dot :: join_labels r
  end.
(** RFC 1035: every label behind its length, then the root label. *)
Definition wire_label (l : list Z) : list Z := Z.of_nat (length l) :: l.
Definition wire_name (labels : list (list Z)) : list Z := concat (wire_label <$> labels) ++ [0].
Definition label_ok (l : list Z) : Prop := (1 ≤ length l ≤ 63)%nat ∧ ¬ dot ∈ l.

Lemma encode_label_spec l r room :
  ¬ dot ∈ l → (length l ≤ room)%nat → (r = [] ∨ head r = Some dot) → encode_label (l ++ r) room = (l, r).
Proof.
  revert room. induction l as [|x l IH]; intros room Hl Hr Hh.
  - destruct Hh as [->|Hh]; [done|]. destruct r as [|y r]; [done|]. injection Hh as ->. by destruct room.
  - destruct room as [|room]; [cbn in Hr; lia|]. cbn [app encode_label]. apply not_elem_of_cons in Hl as [Hx Hl].
    replace (x =? dot) with false by lia. rewrite IH; [done|done|cbn in Hr; lia|done].
Qed.

Lemma encode_labels_nil fuel pos max_len : encode_labels fuel [] pos max_len = Some [0].
Proof. by destruct fuel. Qed.

Lemma encode_labels_spec labels fuel pos max_len :
  Forall label_ok labels → (length labels ≤ fuel)%nat → (pos + length (wire_name labels) ≤ max_len)%nat →
  encode_labels fuel (join_labels labels) pos max_len = Some (wire_name labels).
Proof.
  intros Hl. revert fuel pos. induction Hl as [|l r [Hlen Hdot] Hr IH]; intros fuel pos Hf Hm; [apply encode_labels_nil|].
  destruct fuel as [|fuel]; [cbn in Hf; lia|]. cbn [length] in Hf. unfold wire_name in *. cbn [fmap list_fmap concat] in *.
  rewrite <-app_assoc in *. rewrite length_app in Hm. cbn [wire_label length] in Hm.
  assert (Hw : (1 ≤ length (concat (wire_label <$> r) ++ [0%Z]))%nat) by (rewrite length_app; cbn; lia).
  set (rest := match r with [] => [] | _ => dot :: join_labels r end).
  assert (Ej : join_labels (l :: r) = l ++ rest) by (unfold rest; destruct r; cbn [join_labels]; [by rewrite app_nil_r|done]).
  assert (Es : skip_dot rest = join_labels r) by (unfold rest; by destruct r). rewrite Ej.
  assert (Ee : encode_label (l ++ rest) (max_len - 1 - (pos + 1)) = (l, rest)).
  { apply encode_label_spec; [done|lia|]. unfold rest. destruct r; [by left|by right]. }
  destruct l as [|x l]; [cbn in Hlen; lia|]. cbn [app encode_labels] in *.
  replace (pos <? max_len - 2)%nat with true by (symmetry; apply Nat.ltb_lt; cbn in *; lia).
  rewrite Ee, Es, IH by (cbn [length] in *; lia). cbn [mbind option_bind]. by rewrite u8_small by (cbn [length] in *; lia).
Qed.

(** Whatever the name, the encoding ends inside its array. *)
Lemma encode_label_split p room l r :
  encode_label p room = (l, r) → p = l ++ r ∧ (length l ≤ room)%nat ∧ (r = [] ∨ head r = Some dot ∨ length l = room).
Proof.
  revert p l. induction room as [|room IH]; intros [|x p] l E; cbn in E.
  - injection E as <- <-. split; [done|]. split; [done|]. by left.
  - injection E as <- <-. split; [done|]. split; [done|]. by right; right.
  - injection E as <- <-. split; [done|]. split; [cbn; lia|]. by left.
  - destruct (Z.eqb_spec x dot) as [->|]; [injection E as <- <-; split; [done|]; split; [cbn; lia|]; by right; left|].
    destruct (encode_label p room) as [l' r'] eqn:E'. injection E as <- <-. apply IH in E' as (-> & Hl & Hr). cbn. split; [done|].
    split; [lia|]. destruct Hr as [?|[?|?]]; auto.
Qed.
Lemma skip_dot_length r : (length (skip_dot r) ≤ length r)%nat.
Proof. destruct r as [|x r]; [done|]. cbn. destruct (x =? dot); cbn; lia. Qed.

Lemma encode_labels_bounds fuel p pos max_len :
  (max_len ≤ pos + fuel + 2)%nat → (pos < max_len)%nat →
  ∃ out, encode_labels fuel p pos max_len = Some out ∧ (pos + length out ≤ max_len)%nat ∧ (length out ≤ length p + 2)%nat.
Proof.
  revert p pos. induction fuel as [|fuel IH]; intros p pos Hf Hp; (destruct p as [|x p]; [exists [0]; split; [done|cbn; lia]|]); cbn [encode_labels].
  - replace (pos <? max_len - 2)%nat with false by (symmetry; apply Nat.ltb_ge; lia). exists [0]. split; [done|cbn; lia].
  - destruct (Nat.ltb_spec pos (max_len - 2)); [|exists [0]; split; [done|cbn; lia]].
    destruct (encode_label (x :: p) _) as [l r] eqn:El. apply encode_label_split in El as (Ep & Hl & Hr). rewrite Ep.
    destruct (IH (skip_dot r) (pos + 1 + length l)%nat) as (out & Eo & H1 & H2); [lia|lia|]. rewrite Eo. cbn [mbind option_bind].
    eexists. split; [done|]. cbn [length]. rewrite !length_app. split; [lia|]. destruct Hr as [->|[Hr|Hr]].
    + rewrite encode_labels_nil in Eo. injection Eo as <-. cbn. lia.
    + destruct r as [|y r]; [done|]. injection Hr as ->. cbn in *. lia.
    + assert (Eo' : encode_labels fuel (skip_dot r) (pos + 1 + length l) max_len = Some [0]).
      { destruct (skip_dot r) eqn:E; [apply encode_labels_nil|]. destruct fuel; cbn [encode_labels];
          by replace (pos + 1 + length l <? max_len - 2)%nat with false by (symmetry; apply Nat.ltb_ge; lia). }
      rewrite Eo' in Eo. injection Eo as <-. cbn. lia.
Qed.

(** * The parser *)

(** ** It ends, inside the buffer *)

Lemma skip_qname_total fuel data len pos :
  (len ≤ length data)%nat → (len ≤ pos + fuel)%nat → ∃ p, skip_qname fuel data len pos = Some p ∧ (pos < p)%nat.
Proof.
  intros Hl. revert pos. induction fuel as [|fuel IH]; intros pos Hf; cbn [skip_qname]; (destruct (Nat.ltb_spec pos len); [|eexists; split; [done|lia]]);
    [lia|]. destruct (lookup_lt_is_Some_2 data pos) as [x ->]; [lia|]. cbn [mbind option_bind].
  destruct (x =? 0); [eexists; split; [done|lia]|]. destruct (_ =? 192); [eexists; split; [done|lia]|].
  destruct (IH (pos + Z.to_nat x + 1)%nat) as (p & -> & Hp); [lia|]. exists p. split; [done|lia].
Qed.
Lemma skip_labels_total fuel data len pos :
  (len ≤ length data)%nat → (len ≤ pos + fuel)%nat → ∃ p, skip_labels fuel data len pos = Some p ∧ (pos < p)%nat.
Proof.
  intros Hl. revert pos. induction fuel as [|fuel IH]; intros pos Hf; cbn [skip_labels]; (destruct (Nat.ltb_spec pos len); [|eexists; split; [done|lia]]);
    [lia|]. destruct (lookup_lt_is_Some_2 data pos) as [x ->]; [lia|]. cbn [mbind option_bind].
  destruct (x =? 0); [eexists; split; [done|lia]|].
  destruct (IH (pos + Z.to_nat x + 1)%nat) as (p & -> & Hp); [lia|]. exists p. split; [done|lia].
Qed.

Lemma skip_questions_total q data len pos : (len ≤ length data)%nat → ∃ p, skip_questions q data len pos = Some p.
Proof.
  intros Hl. revert pos. induction q as [|q IH]; intros pos; cbn [skip_questions]; [by eexists|].
  destruct (_ <? _)%nat; [|by eexists]. destruct (skip_qname_total len data len pos) as (p & -> & _); [done|lia|]. apply IH.
Qed.

Lemma load16_some data i : (i + 1 < length data)%nat → ∃ v, load16 data i = Some v.
Proof.
  intros H. unfold load16. destruct (lookup_lt_is_Some_2 data i) as [a ->]; [lia|]. destruct (lookup_lt_is_Some_2 data (i + 1)) as [b ->]; [lia|].
  by eexists.
Qed.
Lemma load32_some data i : (i + 3 < length data)%nat → ∃ v, load32 data i = Some v.
Proof.
  intros H. unfold load32. destruct (load16_some data i) as [a ->]; [lia|]. destruct (load16_some data (i + 2)) as [b ->]; [lia|]. by eexists.
Qed.
Lemma word_be_some data i : (i + 1 < length data)%nat → ∃ v, word_be data i = Some v.
Proof.
  intros H. unfold word_be. destruct (lookup_lt_is_Some_2 data i) as [a ->]; [lia|]. destruct (lookup_lt_is_Some_2 data (i + 1)) as [b ->]; [lia|].
  by eexists.
Qed.

Lemma parse_answers_total a data len pos : (len + 4 ≤ length data)%nat → ∃ r, parse_answers a data len pos = Some r.
Proof.
  intros Hl. revert pos. induction a as [|a IH]; intros pos; cbn [parse_answers]; [by eexists|].
  destruct (Nat.ltb_spec pos len); [|by eexists]. unfold skip_aname. destruct (lookup_lt_is_Some_2 data pos) as [x ->]; [lia|]. cbn [mbind option_bind].
  assert (∃ p, (if Z.land x 192 =? 192 then Some (pos + 2)%nat else skip_labels len data len pos) = Some p) as [p ->].
  { destruct (_ =? 192); [by eexists|]. destruct (skip_labels_total len data len pos) as (p & -> & _); [lia|lia|by eexists]. }
  cbn [mbind option_bind]. destruct (Nat.ltb_spec len (p + 10)); [by eexists|].
  destruct (word_be_some data p) as [t ->]; [lia|]. destruct (word_be_some data (p + 8)) as [l ->]; [lia|]. cbn [mbind option_bind].
  destruct (_ && _); [|apply IH]. destruct (load32_some data (p + 10)) as [v ->]; [lia|]. by eexists.
Qed.

(** ** What it returns *)

Section at_place.
Context (pre rest : list Z).

Lemma load16_be16 v : 0 ≤ v < 65536 → swap16 <$> load16 (pre ++ be16 v ++ rest) (length pre) = Some v.
Proof using.
  intros Hv. unfold load16, be16. rewrite <-(Nat.add_0_r (length pre)) at 1. rewrite !lookup_app_add. cbn. f_equal.
  rewrite swap16_spec by divlia. divlia.
Qed.
Lemma word_be_be16 v : 0 ≤ v < 65536 → word_be (pre ++ be16 v ++ rest) (length pre) = Some v.
Proof using.
  intros Hv. unfold word_be, be16. rewrite <-(Nat.add_0_r (length pre)) at 1. rewrite !lookup_app_add. cbn [lookup list_lookup app mbind option_bind].
  f_equal. rewrite Z.lor_comm, lor_shift8 by divlia. rewrite u16_small; divlia.
Qed.
End at_place.

Lemma label_not_pointer x : 0 ≤ x < 64 → (Z.land x 192 =? 192) = false.
Proof.
  intros Hx. assert (Z.land x 63 = x) as E by (change 63 with (Z.ones 6); rewrite Z.land_ones by lia; apply Z.mod_small; lia).
  rewrite <-E, <-Z.land_assoc. change (Z.land 63 192) with 0. by rewrite Z.land_0_r.
Qed.

Lemma skip_labels_spec labels fuel pre rest len :
  Forall label_ok labels → (length labels ≤ fuel)%nat → (length pre + length (wire_name labels) ≤ len)%nat →
  skip_labels fuel (pre ++ wire_name labels ++ rest) len (length pre) = Some (length pre + length (wire_name labels))%nat.
Proof.
  intros Hl. revert fuel pre. induction Hl as [|l r [Hn _] Hr IH]; intros fuel pre Hf Hlen.
  - cbn in Hlen. assert (Hlt : (length pre <? len)%nat = true) by (apply Nat.ltb_lt; lia).
    assert (E : (pre ++ 0 :: rest) !! length pre = Some 0) by (by apply list_lookup_middle). cbn [wire_name fmap list_fmap concat app].
    destruct fuel; cbn [skip_labels]; by rewrite Hlt, E.
  - destruct fuel as [|fuel]; [cbn in Hf; lia|]. unfold wire_name in *. cbn [fmap list_fmap concat] in *. rewrite <-app_assoc in *.
    rewrite length_app in *. cbn [wire_label length app] in *. rewrite <-!app_assoc. cbn [app] in *.
    set (tail := concat (wire_label <$> r) ++ 0 :: rest). assert (Hlt : (length pre <? len)%nat = true) by (apply Nat.ltb_lt; lia).
    cbn [skip_labels]. rewrite Hlt, list_lookup_middle by done. cbn [mbind option_bind]. replace (Z.of_nat (length l) =? 0) with false by lia.
    rewrite Nat2Z.id. replace (length pre + length l + 1)%nat with (length (pre ++ Z.of_nat (length l) :: l)) by (rewrite length_app; cbn; lia).
    change (pre ++ Z.of_nat (length l) :: l ++ tail) with (pre ++ (Z.of_nat (length l) :: l) ++ tail). rewrite app_assoc. unfold tail.
    rewrite IH; rewrite ?length_app in *; cbn [length] in *; [apply (f_equal Some)|..]; lia.
Qed.

(** On a name that is written out the two loops agree. *)
Lemma skip_qname_labels labels fuel pre rest len :
  Forall label_ok labels →
  skip_qname fuel (pre ++ wire_name labels ++ rest) len (length pre) = skip_labels fuel (pre ++ wire_name labels ++ rest) len (length pre).
Proof.
  intros Hl. revert fuel pre. induction Hl as [|l r [Hn _] Hr IH]; intros fuel pre.
  - cbn [wire_name fmap list_fmap concat app]. destruct fuel; cbn [skip_qname skip_labels]; destruct (_ <? _)%nat; try done;
      by rewrite list_lookup_middle by done.
  - replace (pre ++ wire_name (l :: r) ++ rest) with (pre ++ Z.of_nat (length l) :: l ++ wire_name r ++ rest)
      by (unfold wire_name; cbn [fmap list_fmap concat]; rewrite <-!app_assoc; done).
    destruct fuel as [|fuel]; cbn [skip_qname skip_labels]; (destruct (_ <? _)%nat; [|done]); rewrite list_lookup_middle by done; cbn [mbind option_bind];
      rewrite label_not_pointer by lia; [done|]. destruct (_ =? 0); [done|]. rewrite Nat2Z.id.
    replace (length pre + length l + 1)%nat with (length (pre ++ Z.of_nat (length l) :: l)) by (rewrite length_app; cbn; lia).
    specialize (IH fuel (pre ++ Z.of_nat (length l) :: l)). rewrite <-app_assoc in IH. exact IH.
Qed.

(** A resource record: its name is a pointer or written out. *)
Inductive rr_name := name_pointer (a b : Z) | name_labels (labels : list (list Z)).
Record rr := mk_rr { rr_owner : rr_name; rr_type : Z; rr_class_ttl : list Z; rr_data : list Z }.
Definition owner_bytes (n : rr_name) : list Z := match n with name_pointer a b => [a; b] | name_labels l => wire_name l end.
Definition rr_bytes (r : rr) : list Z :=
  owner_bytes (rr_owner r) ++ be16 (rr_type r) ++ rr_class_ttl r ++ be16 (Z.of_nat (length (rr_data r))) ++ rr_data r.
Definition owner_ok (n : rr_name) : Prop :=
  match n with name_pointer a b => 192 ≤ a < 256 | name_labels l => Forall label_ok l end.
Record rr_ok (r : rr) : Prop := {
  rr_owner_ok : owner_ok (rr_owner r);
  rr_type_ok : 0 ≤ rr_type r < 65536;
  rr_mid_ok : length (rr_class_ttl r) = 6%nat;
  rr_data_ok : Z.of_nat (length (rr_data r)) < 65536;
}.

(** The reference: the first record of type A with four bytes of data. *)
Definition address (l : list Z) : Z := match l with [a; b; c; d] => a + 256 * b + 65536 * (c + 256 * d) | _ => 0 end.
Fixpoint first_address (answers : list rr) : option Z :=
  match answers with
  | [] => None
  | r :: l => if (rr_type r =? DNS_TYPE_A) && (length (rr_data r) =? 4)%nat then Some (address (rr_data r)) else first_address l
  end.

Lemma pointer_bits a : 192 ≤ a < 256 → (Z.land a 192 =? 192) = true.
Proof.
  intros Ha. replace a with (192 + (a - 192)) by lia. set (x := a - 192). assert (0 ≤ x < 64) as Hx by (unfold x; lia). clearbody x. apply Z.eqb_eq.
  assert (Z.land x 63 = x) as Ex by (change 63 with (Z.ones 6); rewrite Z.land_ones by lia; apply Z.mod_small; lia).
  assert (Z.land 192 x = 0) as E0 by (rewrite <-Ex, (Z.land_comm x), Z.land_assoc; done).
  rewrite Z.add_nocarry_lxor, Z.lxor_lor by done. rewrite Z.land_comm, Z.land_lor_distr_r, E0. done.
Qed.

Lemma owner_first n rest : owner_ok n → ∃ x, (owner_bytes n ++ rest) !! 0%nat = Some x ∧
  (Z.land x 192 =? 192) = match n with name_pointer _ _ => true | name_labels _ => false end.
Proof.
  destruct n as [a b|[|l labels]]; cbn [owner_ok]; intros H.
  - exists a. split; [done|]. by apply pointer_bits.
  - by exists 0.
  - apply Forall_cons in H as [[Hl _] _]. exists (Z.of_nat (length l)). split; [done|]. apply label_not_pointer. lia.
Qed.

Lemma length_labels labels : (length labels ≤ length (wire_name labels))%nat.
Proof.
  unfold wire_name. induction labels as [|l r IH]; cbn [fmap list_fmap concat length]; [lia|]. rewrite !length_app in *. cbn [wire_label length] in *. lia.
Qed.

Lemma skip_aname_spec n pre rest len :
  owner_ok n → (length pre + length (owner_bytes n) ≤ len)%nat →
  skip_aname (pre ++ owner_bytes n ++ rest) len (length pre) = Some (length pre + length (owner_bytes n))%nat.
Proof.
  intros Hn Hlen. unfold skip_aname. destruct (owner_first n rest Hn) as (x & Ex & Ep).
  rewrite <-(Nat.add_0_r (length pre)) at 1. rewrite lookup_app_add, Ex. cbn [mbind option_bind]. rewrite Ep.
  destruct n as [a b|labels]; [done|]. apply skip_labels_spec; [done| |done]. pose proof (length_labels labels). cbn [owner_bytes] in Hlen. lia.
Qed.

Lemma load32_address pre data rest :
  length data = 4%nat → load32 (pre ++ data ++ rest) (length pre) = Some (address data).
Proof.
  intros Hl. destruct data as [|a [|b [|c [|d [|]]]]]; try done. unfold load32, load16.
  rewrite <-(Nat.add_0_r (length pre)) at 1. replace (length pre + 2 + 1)%nat with (length pre + 3)%nat by lia. by rewrite !lookup_app_add.
Qed.

(** The fixed part of a record behind its name. *)
Lemma rr_fields r pre rest :
  rr_ok r → let data := pre ++ rr_bytes r ++ rest in let p := (length pre + length (owner_bytes (rr_owner r)))%nat in
  word_be data p = Some (rr_type r) ∧ word_be data (p + 8) = Some (Z.of_nat (length (rr_data r))) ∧
  (length (rr_data r) = 4%nat → load32 data (p + 10) = Some (address (rr_data r))) ∧
  length (pre ++ rr_bytes r) = (p + 10 + length (rr_data r))%nat.
Proof.
  intros [_ Ht Hm Hd] data p. set (o := owner_bytes (rr_owner r)) in *. set (n := Z.of_nat (length (rr_data r))) in *.
  assert (E : data = (pre ++ o) ++ be16 (rr_type r) ++ (rr_class_ttl r ++ be16 n ++ rr_data r ++ rest)).
  { unfold data, rr_bytes. fold o n. by rewrite <-!app_assoc. }
  assert (E8 : data = ((pre ++ o) ++ be16 (rr_type r) ++ rr_class_ttl r) ++ be16 n ++ rr_data r ++ rest) by (rewrite E; by rewrite <-!app_assoc).
  assert (E10 : data = (((pre ++ o) ++ be16 (rr_type r) ++ rr_class_ttl r) ++ be16 n) ++ rr_data r ++ rest) by (rewrite E8; by rewrite <-!app_assoc).
  assert (Lp : p = length (pre ++ o)) by (unfold p; by rewrite length_app).
  split; [rewrite E, Lp; by apply word_be_be16|]. split.
  - rewrite E8. replace (p + 8)%nat with (length ((pre ++ o) ++ be16 (rr_type r) ++ rr_class_ttl r)) by (rewrite Lp, !length_app, Hm; cbn; lia).
    apply word_be_be16. unfold n. lia.
  - split.
    + intros H4. rewrite E10. replace (p + 10)%nat with (length (((pre ++ o) ++ be16 (rr_type r) ++ rr_class_ttl r) ++ be16 n))
        by (rewrite Lp, !length_app, Hm; cbn; lia). by apply load32_address.
    + unfold rr_bytes. fold o n. rewrite !length_app, Hm. unfold p. cbn. lia.
Qed.

Lemma parse_answers_spec answers pre rest len :
  Forall rr_ok answers → (length pre + length (concat (rr_bytes <$> answers)) ≤ len)%nat →
  parse_answers (length answers) (pre ++ concat (rr_bytes <$> answers) ++ rest) len (length pre) = Some (first_address answers).
Proof.
  intros Ha. revert pre. induction Ha as [|r l Hr Hl IH]; intros pre Hlen; [done|]. cbn [fmap list_fmap concat length parse_answers first_address] in *.
  rewrite length_app in Hlen. rewrite <-app_assoc. set (tail := concat (rr_bytes <$> l) ++ rest) in *.
  destruct (rr_fields r pre tail Hr) as (E1 & E2 & E3 & E4). rewrite length_app in E4.
  assert (Hlt : (length pre <? len)%nat = true) by (apply Nat.ltb_lt; lia). rewrite Hlt.
  assert (Es : skip_aname (pre ++ rr_bytes r ++ tail) len (length pre) = Some (length pre + length (owner_bytes (rr_owner r)))%nat).
  { unfold rr_bytes at 1. rewrite <-!app_assoc. apply skip_aname_spec; [apply Hr|lia]. }
  rewrite Es. cbn [mbind option_bind]. replace (len <? _)%nat with false by (symmetry; apply Nat.ltb_ge; lia).
  rewrite E1, E2. cbn [mbind option_bind]. replace (Z.of_nat (length (rr_data r)) =? 4) with (length (rr_data r) =? 4)%nat by (apply eq_bool_prop_intro; rewrite !Is_true_true, Nat.eqb_eq, Z.eqb_eq; lia).
  destruct (_ && _) eqn:E; [apply andb_true_iff in E as [_ E%Nat.eqb_eq]; by rewrite E3|].
  rewrite Nat2Z.id, <-E4. replace (length pre + length (rr_bytes r))%nat with (length (pre ++ rr_bytes r)) by (by rewrite length_app).
  rewrite app_assoc. apply IH. rewrite length_app. lia.
Qed.

(** Questions with names written out. *)
Record question := mk_q { q_labels : list (list Z); q_type_class : list Z }.
Definition question_bytes (q : question) : list Z := wire_name (q_labels q) ++ q_type_class q.
Definition question_ok (q : question) : Prop := Forall label_ok (q_labels q) ∧ length (q_type_class q) = 4%nat.

Lemma skip_questions_spec qs pre rest len :
  Forall question_ok qs → (length pre + length (concat (question_bytes <$> qs)) ≤ len)%nat →
  skip_questions (length qs) (pre ++ concat (question_bytes <$> qs) ++ rest) len (length pre) =
  Some (length pre + length (concat (question_bytes <$> qs)))%nat.
Proof.
  intros Hq. revert pre. induction Hq as [|q l [Hn Ht] Hl IH]; intros pre Hlen; cbn [fmap list_fmap concat length skip_questions] in *; [f_equal; cbn; lia|].
  assert (Hqb : length (question_bytes q) = (length (wire_name (q_labels q)) + 4)%nat) by (unfold question_bytes; by rewrite length_app, Ht).
  rewrite length_app, Hqb in *. rewrite <-app_assoc.
  set (tail := concat (question_bytes <$> l) ++ rest) in *. pose proof (length_labels (q_labels q)) as Hll.
  assert (0 < length (wire_name (q_labels q)))%nat by (unfold wire_name; rewrite length_app; cbn; lia).
  assert (Hlt : (length pre <? len)%nat = true) by (apply Nat.ltb_lt; lia). rewrite Hlt.
  assert (Es : skip_qname len (pre ++ question_bytes q ++ tail) len (length pre) = Some (length pre + length (wire_name (q_labels q)))%nat).
  { unfold question_bytes. rewrite <-app_assoc, skip_qname_labels by done. apply skip_labels_spec; [done|lia|lia]. }
  rewrite Es. cbn [mbind option_bind].
  replace (length pre + length (wire_name (q_labels q)) + 4)%nat with (length (pre ++ question_bytes q))
    by (rewrite length_app; lia).
  rewrite app_assoc. unfold tail. rewrite IH; rewrite length_app, Hqb; [f_equal|]; lia.
Qed.

Lemma str_eq_spec a b : str_eq a b = true ↔ a = b.
Proof.
  revert b. induction a as [|x a IH]; intros [|y b]; cbn; try done. destruct (Z.eqb_spec x y) as [->|Hne]; cbn; [rewrite IH|]; split; try congruence; by intros [= ->].
Qed.

(** A response: identifier, flags, the counts and sections. *)
Record response := mk_response {
  rs_id : list Z; rs_flags : Z; rs_counts : list Z; rs_questions : list question; rs_answers : list rr; rs_rest : list Z;
}.
Definition response_header (r : response) : list Z :=
  rs_id r ++ be16 (rs_flags r) ++ be16 (Z.of_nat (length (rs_questions r))) ++ be16 (Z.of_nat (length (rs_answers r))) ++ rs_counts r.
Definition response_bytes (r : response) : list Z :=
  response_header r ++ concat (question_bytes <$> rs_questions r) ++ concat (rr_bytes <$> rs_answers r) ++ rs_rest r.
(** The part of it that is parsed. *)
Definition response_parsed (r : response) : nat :=
  12 + length (concat (question_bytes <$> rs_questions r)) + length (concat (rr_bytes <$> rs_answers r)).
Record response_ok (r : response) : Prop := {
  rs_id_ok : length (rs_id r) = 2%nat;
  rs_flags_ok : 0 ≤ rs_flags r < 65536;
  rs_is_response : Z.land (rs_flags r) 32768 ≠ 0;
  rs_no_error : Z.land (rs_flags r) 15 = DNS_RCODE_OK;
  rs_counts_ok : length (rs_counts r) = 4%nat;
  rs_qd_ok : Z.of_nat (length (rs_questions r)) < 65536;
  rs_an_ok : Z.of_nat (length (rs_answers r)) < 65536;
  rs_questions_ok : Forall question_ok (rs_questions r);
  rs_answers_ok : Forall rr_ok (rs_answers r);
}.

Lemma response_header_length r : response_ok r → length (response_header r) = 12%nat.
Proof. intros Hr. unfold response_header. rewrite !length_app, (rs_id_ok _ Hr), (rs_counts_ok _ Hr). done. Qed.

Lemma response_fields r :
  response_ok r → let data := response_bytes r in
  swap16 <$> load16 data 2 = Some (rs_flags r) ∧ swap16 <$> load16 data 4 = Some (Z.of_nat (length (rs_questions r))) ∧
  swap16 <$> load16 data 6 = Some (Z.of_nat (length (rs_answers r))).
Proof.
  intros Hr data. pose proof (rs_id_ok _ Hr) as Hi. unfold data, response_bytes, response_header. rewrite <-!app_assoc.
  split_and!.
  - rewrite <-Hi. apply load16_be16, Hr.
  - rewrite (app_assoc (rs_id r)). replace 4%nat with (length (rs_id r ++ be16 (rs_flags r))) by (rewrite length_app, Hi; done).
    apply load16_be16. pose proof (rs_qd_ok _ Hr). lia.
  - rewrite (app_assoc (rs_id r)), (app_assoc (rs_id r ++ _)).
    replace 6%nat with (length ((rs_id r ++ be16 (rs_flags r)) ++ be16 (Z.of_nat (length (rs_questions r))))) by (rewrite !length_app, Hi; done).
    apply load16_be16. pose proof (rs_an_ok _ Hr). lia.
Qed.

Lemma parse_response_spec r len :
  response_ok r → (response_parsed r ≤ len)%nat → dns_parse_response (response_bytes r) len = Some (first_address (rs_answers r)).
Proof.
  intros Hr Hlen. destruct (response_fields r Hr) as (E2 & E4 & E6). pose proof (response_header_length r Hr) as Hh. unfold response_parsed in Hlen.
  unfold dns_parse_response. replace (len <? dns_header_size)%nat with false by (symmetry; apply Nat.ltb_ge; unfold dns_header_size; lia).
  apply fmap_Some in E2 as (w2 & -> & E2), E4 as (w4 & -> & E4), E6 as (w6 & -> & E6). cbn [mbind option_bind]. rewrite <-E2, <-E4, <-E6.
  rewrite (proj2 (Z.eqb_neq _ _) (rs_is_response _ Hr)), (proj2 (Z.eqb_eq _ _) (rs_no_error _ Hr)). cbn [negb].
  destruct (Z.eqb_spec (Z.of_nat (length (rs_answers r))) 0); [by destruct (rs_answers r)|]. rewrite !Nat2Z.id.
  unfold response_bytes, dns_header_size. rewrite <-Hh. rewrite skip_questions_spec by (apply Hr || lia). cbn [mbind option_bind].
  rewrite app_assoc, <-length_app. apply parse_answers_spec; [apply Hr|]. rewrite length_app. lia.
Qed.

(** The query for a host name. *)
Definition query_bytes (id : Z) (labels : list (list Z)) : list Z :=
  be16 id ++ be16 256 ++ be16 1 ++ replicate 6 0 ++ question_bytes (mk_q labels [0; 1; 0; 1]).

Lemma dns_query_spec id labels :
  0 ≤ id < 65536 → Forall label_ok labels → (length (wire_name labels) ≤ 496)%nat →
  dns_query id (join_labels labels) = Some (query_bytes id labels).
Proof.
  intros Hid Hl Hn. unfold dns_query, dns_encode_name. pose proof (length_labels labels).
  rewrite encode_labels_spec by (done || (unfold dns_header_size; lia)). cbn [mbind option_bind]. cbn zeta.
  rewrite swap16_lo, swap16_hi by done. replace (512 <? _)%nat with false; [done|]. symmetry. apply Nat.ltb_ge. rewrite !length_app, length_replicate. cbn. lia.
Qed.

Lemma cache_hit_None name s i e : cache_hit name s = None → dns_cache s !! i = Some e → dn_valid e && str_eq (dn_name e) name = false.
Proof. unfold cache_hit. rewrite find_slot_None. eauto. Qed.

(** A stored name is found again. *)
Lemma cache_store name ip s i :
  cache_hit name s = None → (i < length (dns_cache s))%nat →
  let s' := s <| dns_cache ::= <[i := mk_dns_entry name ip 300 true]> |> in
  (cache_hit name s' ≫= λ j, dns_cache s' !! j) = Some (mk_dns_entry name ip 300 true).
Proof.
  intros Hm Hi s'. assert (cache_hit name s' = Some i) as ->; [|cbn; by apply list_lookup_insert_eq].
  unfold cache_hit. apply find_slot_Some. eexists. split; [by apply list_lookup_insert_eq|]. cbn. split; [by apply str_eq_spec|].
  intros j y Hj Hlt. cbn in Hj. rewrite list_lookup_insert_ne in Hj by lia. by eapply cache_hit_None.
Qed.

(** * Theorems *)

(** The parser ends and stays in its buffer.  For any bytes and any message
    length, when the buffer has four bytes more than the message, parsing gives
    an address or an error. *)
Theorem dns_parse_total data len : (len + 4 ≤ length data)%nat → ∃ r, dns_parse_response data len = Some r.
Proof.
  intros Hl. unfold dns_parse_response. destruct (Nat.ltb_spec len dns_header_size); [by eexists|]. unfold dns_header_size in *.
  destruct (load16_some data 2) as [f ->]; [lia|]. destruct (load16_some data 6) as [a ->]; [lia|]. destruct (load16_some data 4) as [q ->]; [lia|].
  cbn [mbind option_bind]. destruct (_ =? 0); [by eexists|]. destruct (negb _); [by eexists|]. destruct (_ =? 0); [by eexists|].
  destruct (skip_questions_total (Z.to_nat (swap16 q)) data len 12) as [p ->]; [lia|]. by apply parse_answers_total.
Qed.

(** No host name overflows the query, up to 494 bytes.  Whatever its bytes,
    the query is built inside its array of 512 bytes. *)
Theorem dns_query_fits id hostname :
  (length hostname ≤ 494)%nat → ∃ q, dns_query id hostname = Some q ∧ (length q ≤ 512)%nat.
Proof.
  intros Hl. unfold dns_query, dns_encode_name. destruct (encode_labels_bounds (512 - dns_header_size) hostname 0 (512 - dns_header_size)) as (out & -> & _ & Ho);
    [lia|unfold dns_header_size; lia|]. cbn [mbind option_bind]. cbn zeta. set (query := _ ++ _).
  assert (length query ≤ 512)%nat as Hq by (unfold query; rewrite !length_app, length_replicate; cbn; lia). clearbody query. exists query.
  by replace (512 <? length query)%nat with false by (symmetry; apply Nat.ltb_ge; lia).
Qed.


(** * Examples *)

Definition zero_dns : dns := mk_dns (replicate DNS_MAX_CACHE (mk_dns_entry [] 0 0 false)) 16843009 1.
(** ns.a *)
Definition example_labels : list (list Z) := [[110; 115]; [97]].
(** A CNAME with its name written out, then the address 10.0.0.7. *)
Definition example_response : response :=
  mk_response [0; 1] 33152 [0; 0; 0; 0] [mk_q example_labels [0; 1; 0; 1]]
    [mk_rr (name_labels example_labels) 5 [0; 1; 0; 0; 1; 44] [1; 98; 0]; mk_rr (name_pointer 192 12) 1 [0; 1; 0; 0; 1; 44] [10; 0; 0; 7]] [].

Lemma example_labels_ok : Forall label_ok example_labels.
Proof. repeat (apply Forall_cons; split; [split; [cbn; lia|unfold dot; set_solver by lia]|]). by apply Forall_nil. Qed.

Lemma example_response_ok : response_ok example_response.
Proof.
  split; try done.
  - repeat (apply Forall_cons; split; [split; [apply example_labels_ok|done]|]). by apply Forall_nil.
  - repeat (apply Forall_cons; split; [split; cbn; try done; try lia; apply example_labels_ok|]). by apply Forall_nil.
Qed.

Lemma dns_parse_total_witness : ∃ r, dns_parse_response (replicate 40 129) 36 = Some r.
Proof. apply dns_parse_total. rewrite length_replicate. lia. Defined.

Lemma dns_query_fits_witness : ∃ q, dns_query 7 (replicate 494 97) = Some q ∧ (length q ≤ 512)%nat.
Proof. apply dns_query_fits. rewrite length_replicate. lia. Defined.


(** A name of 495 bytes is stored behind the array of the query. *)
Lemma query_overflow : dns_query 1 (replicate 495 97) = None.
Proof. vm_compute. reflexivity. Qed.

(** The address of a record that ends with the message is read behind it. *)
Lemma address_overread :
  dns_parse_response ([0; 1; 129; 128; 0; 0; 0; 1; 0; 0; 0; 0] ++ [192; 12; 0; 1; 0; 1; 0; 0; 1; 44; 0; 4]) 24 = None.
Proof. vm_compute. reflexivity. Qed.

(** The owner of the answer is a label followed by a pointer, which RFC 1035
    allows: the pointer is taken for a label of 192 bytes and the address is not
    found. *)
Lemma compressed_owner_rejected :
  dns_parse_response ([0; 1; 129; 128; 0; 0; 0; 1; 0; 0; 0; 0] ++ [1; 97; 192; 12; 0; 1; 0; 1; 0; 0; 1; 44; 0; 4; 10; 0; 0; 7]) 30 = Some None.
Proof. vm_compute. reflexivity. Qed.
