(* ===== verification/NetControl.v ===== *)
(** The network control plane: net/network_control.c, which brings the link up.

    [network_control_bringup_live] initialises the stack, runs the DHCP client
    until it is bound or the time is over, and then installs the address, the
    default route, the packet filter and the address translation.  The state
    holds the static [g] beside the components the file calls.  What comes from
    outside is an input: the readings of the monotonic clock, and for every poll
    the frames that have arrived and the bytes the stack array of the poll
    happens to hold.  [None] is an access outside a buffer, or an input that has
    run out.  The main theorem: the control plane is ready only with an address
    that a DHCP server offered and acknowledged, and then the filter, the route
    and the translation are exactly the intended ones. *)

From S2P Require Import Prelude Links Checksum Packet Routing Firewall Arp Nat Net Udp Tcp Rx Dhcp.

Definition DHCP_RETRY_NS : Z := 1000000000.
Definition DEFAULT_TIMEOUT_MS : Z := 5000.

Inductive link_state := AEGIS_NETCTL_LINK_DOWN | AEGIS_NETCTL_LINK_CONFIGURING | AEGIS_NETCTL_LINK_UP | AEGIS_NETCTL_LINK_FAILED.
#[export] Instance link_state_eq_dec : EqDecision link_state.
Proof. solve_decision. Defined.

(** [aegis_network_control_state_t] *)
Record netctl := mk_netctl {
  g_initialised : bool;
  g_hardware_io_ready : bool;
  g_ethernet_identity_ready : bool;
  g_dhcp_discover_prepared : bool;
  g_dhcp_request_prepared : bool;
  g_dhcp_bound : bool;
  g_dhcp_timed_out : bool;
  g_ipv4_configured : bool;
  g_route_table_ready : bool;
  g_nat_enabled : bool;
  g_firewall_policy_loaded : bool;
  g_control_plane_ready : bool;
  g_user_kernel_isolation_preserved : bool;
  g_wan_if : string;
  g_lan_if : string;
  g_profile : string;
  g_wan_link_state : link_state;
  g_mac : list Z;
  g_lease_ip : Z;
  g_subnet_mask : Z;
  g_gateway : Z;
  g_dns_server : Z;
  g_lease_seconds : Z;
  g_dhcp_attempts : Z;
  g_route_count : Z;
  g_firewall_rule_count : Z;
  g_nat_mapping_count : Z;
  g_control_plane_generation : Z;
  g_last_bringup_ns : Z;
}.
#[export] Instance netctl_eta : Eta netctl := λ g,
  mk_netctl (g_initialised g) (g_hardware_io_ready g) (g_ethernet_identity_ready g) (g_dhcp_discover_prepared g) (g_dhcp_request_prepared g)
    (g_dhcp_bound g) (g_dhcp_timed_out g) (g_ipv4_configured g) (g_route_table_ready g) (g_nat_enabled g) (g_firewall_policy_loaded g)
    (g_control_plane_ready g) (g_user_kernel_isolation_preserved g) (g_wan_if g) (g_lan_if g) (g_profile g) (g_wan_link_state g) (g_mac g)
    (g_lease_ip g) (g_subnet_mask g) (g_gateway g) (g_dns_server g) (g_lease_seconds g) (g_dhcp_attempts g) (g_route_count g)
    (g_firewall_rule_count g) (g_nat_mapping_count g) (g_control_plane_generation g) (g_last_bringup_ns g).

(** What one poll meets: frames that have arrived since the last one, and the
    contents of [buf]. *)
Record poll_input := mk_poll { pi_frames : list (option (list Z)); pi_buf : list Z }.

Record control := mk_control {
  cp_g : netctl;
  cp_sock : Z;
  cp_net : net;
  cp_dhcp : dhcp_context;
  cp_nat : nat_state;
  cp_driver_mac : list Z;
  cp_clock : list Z;
  cp_polls : list poll_input;
}.
#[export] Instance control_eta : Eta control := λ s,
  mk_control (cp_g s) (cp_sock s) (cp_net s) (cp_dhcp s) (cp_nat s) (cp_driver_mac s) (cp_clock s) (cp_polls s).

Definition network_control_link_state_name (s : link_state) : string :=
  match s with
  | AEGIS_NETCTL_LINK_DOWN => "down"
  | AEGIS_NETCTL_LINK_CONFIGURING => "configuring"
  | AEGIS_NETCTL_LINK_UP => "up"
  | AEGIS_NETCTL_LINK_FAILED => "failed"
  end.

Definition network_control_init (s : control) : control :=
  s <| cp_g := mk_netctl true false false false false false false false false false false false false "eth0" "eth1" "aegisbox-live"
        AEGIS_NETCTL_LINK_DOWN (replicate 6 0) 0 0 0 0 0 0 0 0 0 0 0 |> <| cp_sock := -1 |>.

(** * The packet filter *)

Definition policy_rule (protocol src_port dst_port : Z) : fw_rule := mk_rule 0 0 0 0 src_port dst_port protocol FW_ACCEPT None.
Definition policy_rules : list fw_rule :=
  [policy_rule 17 67 68; policy_rule 17 0 53; policy_rule 6 0 443; policy_rule 6 0 8443].

(** The calls in their order; the first that fails ends the function. *)
Fixpoint add_rules (rules : list fw_rule) (f : fw_state) : option (Z * fw_state) :=
  match rules with
  | [] => Some (AEGIS_OK, f)
  | r :: rules =>
      '(rc, f) ← firewall_add_rule (Some r) f;
      if negb (rc =? 0) then Some (AEGIS_EIO, f) else add_rules rules f
  end.
Definition install_firewall_policy (f : fw_state) : option (Z * fw_state) := add_rules policy_rules f.

(** * Polling *)

(** The loop over received datagrams.  [buf] is the array across the rounds. *)
Fixpoint drain (fuel : nat) (sock : Z) (buf : list Z) (w : world) : option world :=
  let '(c, n) := w in
  match udp_recv sock 768 n with
  | (None, n) => Some (c, n)
  | (Some (len, bytes, _, _), n) =>
      match fuel with
      | O => None
      | S fuel =>
          let buf := bytes ++ drop (length bytes) buf in
          w ← dhcp_handle_response buf (u16 len) (c, n);
          drain fuel sock buf w
      end
  end.

Definition network_control_poll (s : control) : option control :=
  if negb (g_initialised (cp_g s)) || negb (g_hardware_io_ready (cp_g s)) then Some s
  else
    match cp_polls s with
    | [] => None
    | i :: polls =>
        let s := s <| cp_polls := polls |> <| cp_net ::= λ n, n <| n_nic ::= λ d, d <| nic_rx ::= λ q, q ++ pi_frames i |> |> |> in
        n ← network_poll (cp_net s);
        '(c, n) ← (if 0 <=? cp_sock s then drain 2 (cp_sock s) (pi_buf i) (cp_dhcp s, n) else Some (cp_dhcp s, n));
        let s := s <| cp_net := n |> <| cp_dhcp := c |> in
        let s := if bool_decide (dhcp_get_state c = DHCP_STATE_REQUESTING)
                 then s <| cp_g ::= λ g, g <| g_dhcp_request_prepared := true |> |> else s in
        Some (if bool_decide (dhcp_get_state c = DHCP_STATE_BOUND) && negb (g_dhcp_bound (cp_g s))
              then s <| cp_g ::= λ g, g <| g_lease_ip := dhcp_get_assigned_ip c |> <| g_subnet_mask := dhcp_get_subnet_mask c |>
                     <| g_gateway := dhcp_get_gateway c |> <| g_dns_server := dhcp_get_dns_server c |>
                     <| g_lease_seconds := dhcp_get_lease_seconds c |> <| g_dhcp_bound := negb (dhcp_get_assigned_ip c =? 0) |> |>
              else s)
    end.

(** * Bring-up *)

(** The assignments to [g] once the components are configured. *)
Definition routes_installed (rt : routing_state) (g : netctl) : netctl :=
  let g := g <| g_route_count := routing_count rt |> in
  g <| g_route_table_ready := 0 <? g_route_count g |>.
Definition plane_installed (fw : fw_state) (nat : nat_state) (g : netctl) : netctl :=
  let g := g <| g_firewall_rule_count := firewall_rule_count fw |> in
  let g := g <| g_firewall_policy_loaded := 4 <=? g_firewall_rule_count g |> in
  let g := g <| g_nat_mapping_count := nat_active_count nat |> <| g_nat_enabled := true |>
             <| g_user_kernel_isolation_preserved := true |> <| g_control_plane_generation ::= λ k, u32 (k + 1) |> in
  let g := g <| g_control_plane_ready := g_hardware_io_ready g && g_dhcp_bound g && g_ipv4_configured g && g_route_table_ready g &&
                  g_firewall_policy_loaded g && g_nat_enabled g |> in
  g <| g_wan_link_state := if g_control_plane_ready g then AEGIS_NETCTL_LINK_UP else AEGIS_NETCTL_LINK_FAILED |>.

Definition finish_control_plane (s : control) : option (Z * control) :=
  let g := cp_g s in
  if negb (g_dhcp_bound g) then Some (AEGIS_EAGAIN, s)
  else
    let n := ipv4_set_gateway (g_gateway g) (ipv4_set_netmask (g_subnet_mask g) (ipv4_set_addr (g_lease_ip g) (cp_net s))) in
    let g := g <| g_ipv4_configured := ipv4_get_addr n =? g_lease_ip g |> in
    if negb (g_ipv4_configured g) || (g_gateway g =? 0) then Some (AEGIS_EIO, s <| cp_net := n |> <| cp_g := g |>)
    else
      '(rc, rt) ← routing_set_default (g_gateway g) (g_lease_ip g) (n_rt n);
      let n := n <| n_rt := rt |> in
      if negb (rc =? 0) then Some (AEGIS_EIO, s <| cp_net := n |> <| cp_g := g |>)
      else
        let g := routes_installed rt g in
        '(rc, fw) ← install_firewall_policy (firewall_set_default_policy FW_DROP (n_fw n));
        if negb (rc =? AEGIS_OK) then Some (AEGIS_EIO, s <| cp_net := n <| n_fw := fw |> |> <| cp_g := g |>)
        else
          let fw := firewall_enable true fw in
          let nat := nat_enable (g_lease_ip g) (cp_nat s) in
          let g := plane_installed fw nat g in
          Some (if g_control_plane_ready g then AEGIS_OK else AEGIS_EIO,
                s <| cp_net := n <| n_fw := fw |> |> <| cp_nat := nat |> <| cp_g := g |>).

(** One reading of the clock. *)
Definition monotonic (s : control) : option (Z * control) :=
  match cp_clock s with [] => None | t :: l => Some (t, s <| cp_clock := l |>) end.

(** One round of the loop, up to the test at its end. *)
Definition bringup_round (next_retry : Z) (s : control) : option (Z * control) :=
  '(now, s) ← monotonic s;
  '(next_retry, s) ← (if (next_retry <=? now) && negb (bool_decide (dhcp_get_state (cp_dhcp s) = DHCP_STATE_BOUND)) then
      '(rc, (c, n)) ← dhcp_discover (cp_dhcp s, cp_net s);
      let s := s <| cp_dhcp := c |> <| cp_net := n |> in
      let s := if rc =? 0 then s <| cp_g ::= λ g, g <| g_dhcp_discover_prepared := true |> <| g_dhcp_attempts := u32 (g_dhcp_attempts g + 1) |> |> else s in
      Some (u64 (now + DHCP_RETRY_NS), s)
    else Some (next_retry, s));
  s ← network_control_poll s;
  Some (next_retry, s).

(** Every round takes a reading of the clock. *)
Fixpoint bringup_loop (fuel : nat) (deadline next_retry : Z) (s : control) : option (Z * control) :=
  match fuel with
  | O => None
  | S fuel =>
      '(next_retry, s) ← bringup_round next_retry s;
      if g_dhcp_bound (cp_g s) then
        '(now, s) ← monotonic s;
        finish_control_plane (s <| cp_g ::= λ g, g <| g_last_bringup_ns := now |> |>)
      else
        '(now, s) ← monotonic s;
        if now <? deadline then bringup_loop fuel deadline next_retry s
        else
          let s := s <| cp_g ::= λ g, g <| g_dhcp_timed_out := true |> <| g_wan_link_state := AEGIS_NETCTL_LINK_FAILED |> |> in
          '(now, s) ← monotonic s;
          Some (AEGIS_ETIMEDOUT, s <| cp_g ::= λ g, g <| g_last_bringup_ns := now |> |>)
  end.

(** The initialisation of the stack. *)
Definition init_stack (s : control) : control :=
  let n := snd (net_ethernet_init (cp_driver_mac s) (cp_net s)) in
  let g := (cp_g s) <| g_mac := n_mac n |> <| g_ethernet_identity_ready := true |> <| g_wan_link_state := AEGIS_NETCTL_LINK_CONFIGURING |> in
  let n := tcp_init (udp_init (n <| n_arp ::= arp_init |>)) in
  let n := n <| n_rt ::= λ r, snd (routing_init r) |> <| n_fw ::= λ f, firewall_enable false (snd (firewall_init f)) |> in
  s <| cp_g := g |> <| cp_net := n |> <| cp_nat ::= nat_init |>.

(** The loop and what follows it, with the time it has. *)
Definition await_lease (timeout_ms : Z) (s : control) : option (Z * control) :=
  '(start, s) ← monotonic s;
  bringup_loop (length (cp_clock s)) (u64 (start + u64 (timeout_ms * 1000000))) start s.

Definition bind_and_wait (timeout_ms : Z) (s : control) : option (Z * control) :=
  let '(sock, n) := udp_bind DHCP_CLIENT_PORT (cp_net s) in
  let s := s <| cp_sock := sock |> <| cp_net := n |> in
  if sock <? 0 then Some (AEGIS_EBUSY, s) else await_lease timeout_ms s.

Definition network_control_bringup_live (timeout_ms : Z) (s : control) : option (Z * control) :=
  if negb (g_initialised (cp_g s)) then Some (AEGIS_EINVAL, s)
  else if negb (nic_ready (n_nic (cp_net s))) then Some (AEGIS_ENOENT, s <| cp_g ::= λ g, g <| g_wan_link_state := AEGIS_NETCTL_LINK_DOWN |> |>)
  else
    bind_and_wait (if timeout_ms =? 0 then DEFAULT_TIMEOUT_MS else timeout_ms)
      (init_stack (s <| cp_g ::= λ g, g <| g_hardware_io_ready := true |> |>)).

Definition network_control_prepare_v46_bringup (s : control) : option (Z * control) := network_control_bringup_live DEFAULT_TIMEOUT_MS s.

Definition network_control_selftest (s : control) : Z :=
  let g := cp_g s in
  if negb (g_initialised g) || negb (g_hardware_io_ready g) || negb (g_ethernet_identity_ready g) then AEGIS_EINVAL
  else if negb (g_dhcp_discover_prepared g) || negb (g_dhcp_request_prepared g) || negb (g_dhcp_bound g) then AEGIS_EINVAL
  else if negb (g_ipv4_configured g) || negb (ipv4_get_addr (cp_net s) =? g_lease_ip g) then AEGIS_EINVAL
  else if negb (g_route_table_ready g) || negb (g_firewall_policy_loaded g) || negb (g_nat_enabled g) || negb (g_control_plane_ready g) then AEGIS_EINVAL
  else if bool_decide (g_wan_link_state g = AEGIS_NETCTL_LINK_UP) then AEGIS_OK else AEGIS_EINVAL.

Definition network_control_ready (s : control) : bool := g_control_plane_ready (cp_g s).
Definition network_control_dhcp_bound (s : control) : bool := g_dhcp_bound (cp_g s).
Definition network_control_nat_ready (s : control) : bool := g_nat_enabled (cp_g s).
Definition network_control_firewall_ready (s : control) : bool := g_firewall_policy_loaded (cp_g s).

(** * The filter *)

Definition strip (r : fw_rule) : fw_rule := r <| fr_next := None |>.

Lemma install_policy_spec f :
  rule_head f = None → rule_count f = 0 → length (rule_storage f) = FW_MAX_RULES → Forall (λ c, ct_active c = false) (conn_table f) →
  ∃ f', install_firewall_policy f = Some (AEGIS_OK, f') ∧ fw_inv [0; 1; 2; 3]%nat f' ∧ strip <$> rule_list [0; 1; 2; 3]%nat f' = policy_rules ∧
    rule_count f' = 4 ∧ default_policy f' = default_policy f ∧ conn_table f' = conn_table f.
Proof.
  intros Hh Hc Hl Hct. destruct f as [hd st cnt ct pol en]. cbn in *. subst hd cnt.
  destruct st as [|a [|b [|c [|d st]]]]; try done. eexists. split; [reflexivity|]. cbn. split; [|done]. split.
  - exact Hl.
  - change (0 ≤ 4 ≤ 256). lia.
  - cbn. split; [done|]. eexists. split; [done|]. cbn. split; [done|]. eexists. split; [done|]. cbn. split; [done|]. eexists. split; [done|].
    cbn. split; [done|]. by eexists.
  - repeat (apply NoDup_cons; split; [set_solver|]). by apply NoDup_nil.
  - change (Forall (λ i, Z.of_nat i < 4) [0; 1; 2; 3]%nat). repeat (apply Forall_cons; split; [lia|]). by apply Forall_nil.
  - cbn. eapply Forall_impl; [exact Hct|]. cbn. congruence.
Qed.

(** The intended policy: DHCP replies, DNS queries, HTTPS and the dashboard. *)
Definition allowed (f : flow) : bool :=
  (f_proto f =? 17) && (((f_sport f =? 67) && (f_dport f =? 68)) || (f_dport f =? 53)) ||
  (f_proto f =? 6) && ((f_dport f =? 443) || (f_dport f =? 8443)).

Lemma decide_strip rules policy f : decide_rules (strip <$> rules) policy f = decide_rules rules policy f.
Proof.
  unfold decide_rules. induction rules as [|r rules IH]; [done|]. cbn [fmap list_fmap List.find]. change (rule_matches f (strip r)) with (rule_matches f r).
  by destruct (rule_matches f r).
Qed.
Lemma policy_decision rules f :
  strip <$> rules = policy_rules → decide_rules rules FW_DROP f = if allowed f then FW_ACCEPT else FW_DROP.
Proof.
  intros E. rewrite <-decide_strip, E. unfold decide_rules, policy_rules, allowed. destruct f as [src dst sp dp pr]. cbn [f_proto f_sport f_dport].
  cbn [List.find]. unfold rule_matches, ip_match. cbn -[Z.eqb]. rewrite !Z.eqb_refl. cbn -[Z.eqb].
  change (17 =? 0) with false. change (6 =? 0) with false. change (67 =? 0) with false. change (68 =? 0) with false.
  change (53 =? 0) with false. change (443 =? 0) with false. change (8443 =? 0) with false. change (0 =? 0) with true. cbn -[Z.eqb].
  rewrite (Z.eqb_sym pr 17), (Z.eqb_sym pr 6), (Z.eqb_sym sp 67), (Z.eqb_sym dp 68), (Z.eqb_sym dp 53), (Z.eqb_sym dp 443), (Z.eqb_sym dp 8443).
  destruct (Z.eqb_spec 17 pr) as [<-|]; cbn -[Z.eqb].
  - change (6 =? 17) with false. destruct (67 =? sp), (68 =? dp), (53 =? dp); done.
  - destruct (6 =? pr), (443 =? dp), (8443 =? dp); done.
Qed.

(** The filter that bring-up leaves: enabled, with this policy, no tracked flow. *)
Record filter_ready (f : fw_state) : Prop := {
  fr_on : fw_enabled f = true;
  fr_inv : fw_inv [0; 1; 2; 3]%nat f;
  fr_drop : default_policy f = FW_DROP;
  fr_rules : strip <$> rule_list [0; 1; 2; 3]%nat f = policy_rules;
  fr_fresh : Forall (λ c, ct_active c = false) (conn_table f);
}.

Lemma fresh_untracked f s : Forall (λ c, ct_active c = false) (conn_table s) → ¬ tracked f s.
Proof.
  intros Hf (i & c & Hi & Hm). apply (Forall_lookup_1 _ _ _ _ Hf) in Hi. apply ct_matches_true in Hm as [Ha _]. congruence.
Qed.

Lemma filter_ready_check f p :
  filter_ready f → pkt_wf p → 20 ≤ pk_len p →
  ∃ g a f', parse_flow p = Some g ∧ firewall_check (Some p) f = Some (a, f') ∧ a = if allowed g then FW_ACCEPT else FW_DROP.
Proof.
  intros [Hon Hinv Hd Hr Hf] Hw Hl. destruct (parse_flow_ok p Hw Hl) as [g Hg]. exists g.
  destruct (firewall_check_cases _ f p g Hinv Hon Hl Hg) as (a & f' & E & _ & _ & [(Ht & _)|(_ & Ha & _)]).
  - by apply fresh_untracked in Ht.
  - exists a, f'. split; [done|]. split; [done|]. rewrite Ha, Hd. by apply policy_decision.
Qed.

(** * Through the loop *)

(** Routes, link address and filter of the stack. *)
Definition plane (n : net) := (n_rt n, n_mac n, fw_config (n_fw n)).

Lemma plane_config s t : config t = config s → plane t = plane s.
Proof. unfold config, plane. congruence. Qed.

Lemma response_plane data len c n d t : dhcp_handle_response data len (c, n) = Some (d, t) → plane t = plane n.
Proof. intros H. apply dhcp_response_inv in H as [_ ->|_ _ _ _ _ Hk|_ _ _ _ _ ->|_ _ _ Hk]; [done| |done|]; by apply plane_config, config_keeps. Qed.

Lemma udp_recv_frame k max n r t : udp_recv k max n = (r, t) → plane t = plane n ∧ n_ip t = n_ip n.
Proof.
  unfold udp_recv. destruct (_ || _); [by intros [= <- <-]|]. destruct (_ !! _); [|by intros [= <- <-]]. destruct (_ || _); by intros [= <- <-].
Qed.

Lemma drain_run fuel sock buf c n d t h :
  drain fuel sock buf (c, n) = Some (d, t) → dhcp_run h c n → ∃ h', dhcp_run (h ++ h') d t ∧ plane t = plane n.
Proof.
  revert buf c n h. induction fuel as [|fuel IH]; intros buf c n h H Hr; cbn [drain] in H.
  - destruct (udp_recv sock 768 n) as [[[[[len bytes] ip] port]|] m] eqn:E; [done|]. injection H as <- <-. apply udp_recv_frame in E as [Hp Hi].
    exists [ev_other]. split; [|done]. eapply run_other; [exact Hr|by rewrite Hi].
  - destruct (udp_recv sock 768 n) as [[[[[len bytes] ip] port]|] m] eqn:E; apply udp_recv_frame in E as [Hp Hi].
    + bind_inv H. match goal with E : dhcp_handle_response _ _ _ = Some ?w |- _ => destruct w as [c1 n1]; rename E into Eh end.
      pose proof (response_plane _ _ _ _ _ _ Eh) as Hp1.
      assert (Hr1 : dhcp_run ((h ++ [ev_other]) ++ [ev_response (bytes ++ drop (length bytes) buf) (u16 len)]) c1 n1).
      { eapply run_response; [|exact Eh]. eapply run_other; [exact Hr|by rewrite Hi]. }
      destruct (IH _ _ _ _ H Hr1) as (h' & Hr' & Hp'). rewrite <-!app_assoc in Hr'. eexists. split; [exact Hr'|]. congruence.
    + injection H as <- <-. exists [ev_other]. split; [|done]. eapply run_other; [exact Hr|by rewrite Hi].
Qed.

(** Bring-up in progress: the filter, the routes and the link address are those
    of [n0]. *)
Record loop_inv (n0 : net) (h : list dhcp_event) (s : control) : Prop := {
  li_run : dhcp_run h (cp_dhcp s) (cp_net s);
  li_plane : plane (cp_net s) = plane n0;
  li_init : g_initialised (cp_g s) = true;
  li_hardware : g_hardware_io_ready (cp_g s) = true;
  li_ready : g_control_plane_ready (cp_g s) = false;
  li_bound : g_dhcp_bound (cp_g s) = true →
    state (cp_dhcp s) = DHCP_STATE_BOUND ∧ g_lease_ip (cp_g s) = offered_ip (cp_dhcp s) ∧ g_lease_ip (cp_g s) ≠ 0;
}.

Lemma network_poll_frame n t : network_poll n = Some t → plane t = plane n ∧ local_ip (n_ip t) = local_ip (n_ip n).
Proof. intros H%poll_loop_config. split; [by apply plane_config|]. unfold config, ip_config in H. congruence. Qed.

Lemma poll_inv n0 h s t :
  loop_inv n0 h s → g_dhcp_bound (cp_g s) = false → network_control_poll s = Some t → ∃ h', loop_inv n0 (h ++ h') t.
Proof.
  intros [Hr Hp Hi Hh Hready _] Hb H. unfold network_control_poll in H. rewrite Hi, Hh in H. cbn [negb orb] in H.
  destruct (cp_polls s) as [|i polls]; [done|]. cbn zeta in H. bind_inv H.
  match goal with E : network_poll _ = Some ?m |- _ => rename m into n1; apply network_poll_frame in E as [Hp1 Hi1] end.
  match type of H with context [let '(_, _) := ?x in _] => destruct x as [c n2] end.
  assert (Hr1 : dhcp_run (h ++ [ev_other]) (cp_dhcp s) n1) by (eapply run_other; [exact Hr|exact Hi1]).
  assert (∃ h', dhcp_run (h ++ h') c n2 ∧ plane n2 = plane n1) as (h' & Hr2 & Hp2).
  { match goal with E : (if 0 <=? _ then _ else _) = Some (c, n2) |- _ => rename E into Ed end. cbn [cp_sock cp_dhcp set_field] in Ed.
    destruct (0 <=? cp_sock s); [|injection Ed as <- <-; by exists [ev_other]].
    destruct (drain_run _ _ _ _ _ _ _ _ Ed Hr1) as (h' & Hr' & Hp'). exists (ev_other :: h'). by rewrite <-app_assoc in Hr'. }
  assert (Hp3 : plane n2 = plane n0) by (rewrite Hp2, Hp1; exact Hp). exists h'. injection H as <-.
  unfold dhcp_get_state. destruct (bool_decide_reflect (state c = DHCP_STATE_REQUESTING)); cbn [cp_g set_field g_dhcp_bound]; rewrite Hb.
  - rewrite bool_decide_false by congruence. split; try done; cbn; by rewrite Hb.
  - destruct (bool_decide_reflect (state c = DHCP_STATE_BOUND)) as [Es|].
    + split; try done; cbn; intros Hn%negb_true_iff%Z.eqb_neq. done.
    + split; try done; cbn; by rewrite Hb.
Qed.

Lemma monotonic_same s now t : monotonic s = Some (now, t) → ∃ l, t = s <| cp_clock := l |>.
Proof. unfold monotonic. destruct (cp_clock s); [done|]. intros [= _ <-]. by eexists. Qed.

Lemma loop_inv_clock n0 h s l : loop_inv n0 h s → loop_inv n0 h (s <| cp_clock := l |>).
Proof. intros []. by split. Qed.

Lemma round_inv n0 h s retry retry' t :
  loop_inv n0 h s → g_dhcp_bound (cp_g s) = false → bringup_round retry s = Some (retry', t) → ∃ h', loop_inv n0 (h ++ h') t.
Proof.
  intros Hs Hb H. unfold bringup_round in H. bind_inv H.
  match type of H with context [let '(_, _) := ?x in _] => destruct x as [now s1]; rename H into H1 end.
  match goal with E : monotonic s = _ |- _ => apply monotonic_same in E as [clk ->] end.
  apply (loop_inv_clock _ _ _ clk) in Hs. change (g_dhcp_bound (cp_g (s <| cp_clock := clk |>)) = false) in Hb. revert H1 Hs Hb.
  generalize (s <| cp_clock := clk |>). clear s. intros s1 H1 Hs Hb.
  bind_inv H1. match goal with E : (if _ then _ else _) = Some ?x |- _ => destruct x as [r2 s2]; rename E into Ed end. bind_inv H1.
  injection H1 as _ <-. match goal with E : network_control_poll _ = _ |- _ => rename E into Ep end.
  assert (∃ h', loop_inv n0 (h ++ h') s2 ∧ g_dhcp_bound (cp_g s2) = false) as (h1 & Hs2 & Hb2).
  { destruct (_ && _); [|injection Ed as _ <-; exists []; by rewrite app_nil_r]. bind_inv Ed.
    destruct p as [rc [c1 n1]]. cbn zeta in Ed. injection Ed as _ <-. exists [ev_discover].
    match goal with E : dhcp_discover _ = _ |- _ => pose proof (run_discover _ _ _ _ _ _ (li_run _ _ _ Hs) E) as Hr; apply dhcp_discover_inv in E as [_ Hk] end.
    apply config_keeps, plane_config in Hk. destruct Hs as [R1 R2 R3 R4 R5 R6].
    destruct (rc =? 0); (split; [split; try done; cbn; [congruence|by rewrite Hb]|exact Hb]). }
  destruct (poll_inv _ _ _ _ Hs2 Hb2 Ep) as (h2 & Ht). exists (h1 ++ h2). by rewrite app_assoc.
Qed.

(** * The end of bring-up *)

(** The stack right after its initialisation. *)
Record fresh_plane (n : net) : Prop := {
  fp_routes : route_table (n_rt n) = None ∧ route_count (n_rt n) = 0 ∧ length (route_storage (n_rt n)) = ROUTE_MAX_ENTRIES;
  fp_rules : rule_head (n_fw n) = None ∧ rule_count (n_fw n) = 0 ∧ length (rule_storage (n_fw n)) = FW_MAX_RULES;
  fp_off : fw_enabled (n_fw n) = false;
  fp_fresh : Forall (λ c, ct_active c = false) (conn_table (n_fw n));
}.
Lemma fresh_plane_same n m : plane m = plane n → fresh_plane n → fresh_plane m.
Proof.
  unfold plane, fw_config. intros E [Hr Hf Ho Hc]. injection E as E1 _ E2 E3 E4 E5 E6 E7. rewrite E6, Ho in E7.
  split; [by rewrite E1|by rewrite E2, E3, E4|congruence|]. by injection E7 as ->.
Qed.

Lemma default_route_spec gw ip r :
  route_table r = None → route_count r = 0 → length (route_storage r) = ROUTE_MAX_ENTRIES →
  ∃ r' rt, routing_set_default gw ip r = Some (0, r') ∧ route_count r' = 1 ∧ route_storage r' !! 0%nat = Some rt ∧ r_gateway rt = gw ∧
    ∀ dst, routing_lookup dst r' = Some (Some 0%nat).
Proof.
  intros Ht Hc Hl. destruct r as [st tb cnt]. cbn in Ht, Hc, Hl. subst tb cnt. destruct st as [|a st]; [done|].
  unfold routing_set_default, routing_add. cbn [route_count route_table route_storage].
  change (Z.of_nat ROUTE_MAX_ENTRIES <=? 0) with false. cbn iota. eexists _, _. split; [reflexivity|]. split; [done|]. split; [done|]. split; [done|].
  intros dst. unfold routing_lookup. cbn -[Z.land]. change (Z.to_nat 0) with 0%nat. cbn -[Z.land]. unfold route_matches. cbn -[Z.land]. rewrite !Z.land_0_r. by destruct st.
Qed.

Lemma next_hop_default n rt :
  (∀ dst, routing_lookup dst (n_rt n) = Some (Some 0%nat)) → route_storage (n_rt n) !! 0%nat = Some rt → r_gateway rt = local_gateway (n_ip n) →
  ∀ dst, next_hop_for dst n = Some (if Z.land dst (local_netmask (n_ip n)) =? Z.land (local_ip (n_ip n)) (local_netmask (n_ip n))
    then dst else local_gateway (n_ip n)).
Proof.
  intros Hl He Hg dst. unfold next_hop_for. destruct (_ =? _); [done|]. rewrite Hl. cbn. rewrite He, Hg. by destruct (_ =? 0).
Qed.

Lemma installed_spec rt fw nat g :
  g_hardware_io_ready g = true → g_dhcp_bound g = true → g_ipv4_configured g = true → route_count rt = 1 → rule_count fw = 4 →
  let g' := plane_installed (firewall_enable true fw) nat (routes_installed rt g) in
  g_control_plane_ready g' = true ∧ g_wan_link_state g' = AEGIS_NETCTL_LINK_UP ∧ g_lease_ip g' = g_lease_ip g ∧
  g_subnet_mask g' = g_subnet_mask g ∧ g_gateway g' = g_gateway g.
Proof.
  intros H1 H2 H3 Hr Hf g'. destruct g, rt, fw. cbn in H1, H2, H3, Hr, Hf. subst. unfold g'. lazy -[u32 nat_active_count]. done.
Qed.

(** What "ready" stands for. *)
Record control_ready (h : list dhcp_event) (s : control) : Prop := {
  cr_flag : network_control_ready s = true;
  cr_link : g_wan_link_state (cp_g s) = AEGIS_NETCTL_LINK_UP;
  cr_run : dhcp_run h (cp_dhcp s) (cp_net s);
  cr_bound : state (cp_dhcp s) = DHCP_STATE_BOUND;
  cr_lease : g_lease_ip (cp_g s) = offered_ip (cp_dhcp s);
  cr_nonzero : g_lease_ip (cp_g s) ≠ 0 ∧ g_gateway (cp_g s) ≠ 0;
  cr_addr : ip_config (n_ip (cp_net s)) = (g_lease_ip (cp_g s), g_subnet_mask (cp_g s), g_gateway (cp_g s));
  cr_route : ∀ dst, next_hop_for dst (cp_net s) =
    Some (if Z.land dst (g_subnet_mask (cp_g s)) =? Z.land (g_lease_ip (cp_g s)) (g_subnet_mask (cp_g s)) then dst else g_gateway (cp_g s));
  cr_filter : filter_ready (n_fw (cp_net s));
  cr_nat : nat_enabled (cp_nat s) = true ∧ wan_ip_addr (cp_nat s) = g_lease_ip (cp_g s);
}.

Lemma finish_control_spec n0 h s :
  loop_inv n0 h s → fresh_plane n0 → g_dhcp_bound (cp_g s) = true →
  ∃ rc t, finish_control_plane s = Some (rc, t) ∧
    (rc = AEGIS_OK ∧ control_ready (h ++ [ev_other]) t ∨ rc = AEGIS_EIO ∧ network_control_ready t = false ∧ fresh_plane (cp_net t)).
Proof.
  intros [Hr Hp Hi Hh Hready Hbound] Hf Hb. apply (fresh_plane_same _ _ Hp) in Hf. destruct (Hbound Hb) as (Hst & Hl & Hnz).
  assert (Hip : local_ip (n_ip (cp_net s)) = offered_ip (cp_dhcp s)) by (pose proof (dhcp_run_inv _ _ _ Hr) as L; unfold lease_inv in L; rewrite Hst in L; apply L).
  destruct Hf as [(R1 & R2 & R3) (F1 & F2 & F3) Fo Fc].
  set (g1 := (cp_g s) <| g_ipv4_configured := true |>).
  set (n1 := ipv4_set_gateway (g_gateway g1) (ipv4_set_netmask (g_subnet_mask g1) (ipv4_set_addr (g_lease_ip g1) (cp_net s)))).
  destruct (default_route_spec (g_gateway g1) (g_lease_ip g1) (n_rt (cp_net s)) R1 R2 R3) as (rt & entry & Ert & Hc & He & Hgw & Hlook).
  destruct (install_policy_spec (firewall_set_default_policy FW_DROP (n_fw (cp_net s))) F1 F2 F3 Fc) as (fw & Efw & Hinv & Hrules & Hcnt & Hdef & Hconn).
  destruct (installed_spec rt fw (nat_enable (g_lease_ip g1) (cp_nat s)) g1) as (G1 & G2 & G3 & G4 & G5); try done.
  exists (if g_gateway g1 =? 0 then AEGIS_EIO else AEGIS_OK).
  set (g2 := plane_installed _ _ _) in *.
  exists (if g_gateway g1 =? 0 then s <| cp_net := n1 |> <| cp_g := g1 |>
          else s <| cp_net := n1 <| n_rt := rt |> <| n_fw := firewall_enable true fw |> |>
                 <| cp_nat := nat_enable (g_lease_ip g1) (cp_nat s) |> <| cp_g := g2 |>). split.
  - unfold finish_control_plane. rewrite Hb. cbn [negb]. cbv zeta.
    replace (ipv4_get_addr _ =? g_lease_ip (cp_g s)) with true by (symmetry; apply Z.eqb_refl). fold g1. change (g_ipv4_configured g1) with true. cbn [negb orb].
    destruct (g_gateway g1 =? 0); [done|]. change (n_rt (ipv4_set_gateway _ _)) with (n_rt (cp_net s)). rewrite Ert. cbn [mbind option_bind].
    change (negb (0 =? 0)) with false. cbn iota. change (firewall_set_default_policy FW_DROP _) with (firewall_set_default_policy FW_DROP (n_fw (cp_net s))). rewrite Efw. cbn [mbind option_bind].
    change (negb (AEGIS_OK =? AEGIS_OK)) with false. cbn iota. change (g_lease_ip (routes_installed rt g1)) with (g_lease_ip g1). fold g2. by rewrite G1.
  - destruct (Z.eqb_spec (g_gateway g1) 0) as [Eg|Eg]; [right; split; [done|]; split; [exact Hready|by split]|left]. split; [done|].
    split; cbn [cp_g cp_net cp_dhcp cp_nat set_field]; try done; rewrite ?G3, ?G4, ?G5; try done.
    + eapply run_other; [exact Hr|]. change (g_lease_ip (cp_g s) = local_ip (n_ip (cp_net s))). by rewrite Hip, Hl.
    + exact (next_hop_default (n1 <| n_rt := rt |> <| n_fw := firewall_enable true fw |>) entry Hlook He Hgw).
    + change (filter_ready (firewall_enable true fw)). destruct Hinv as [I1 I2 I3 I4 I5 I6]. split; try done. cbn. by rewrite Hconn.
Qed.

(** How bring-up ends: ready, or not ready with the stack as initialised. *)
Definition bringup_result (h : list dhcp_event) (rc : Z) (t : control) : Prop :=
  (rc = AEGIS_OK ∧ ∃ h', control_ready (h ++ h') t) ∨
  (rc ≠ AEGIS_OK ∧ network_control_ready t = false ∧ fresh_plane (cp_net t)).

Lemma bringup_loop_result n0 fuel deadline retry h s rc t :
  fresh_plane n0 → loop_inv n0 h s → g_dhcp_bound (cp_g s) = false →
  bringup_loop fuel deadline retry s = Some (rc, t) → bringup_result h rc t.
Proof.
  intros Hf. revert retry h s. induction fuel as [|fuel IH]; intros retry h s Hs Hb H; cbn [bringup_loop] in H; [done|]. bind_inv H.
  match goal with E : bringup_round _ _ = Some ?x |- _ => destruct x as [retry1 s1]; destruct (round_inv _ _ _ _ _ _ Hs Hb E) as (h1 & Hs1) end.
  destruct (g_dhcp_bound (cp_g s1)) eqn:Eb.
  - bind_inv H. match goal with E : monotonic s1 = Some ?x |- _ => destruct x as [now s2]; apply monotonic_same in E as [clk ->] end. cbn beta iota in H.
    match type of H with finish_control_plane ?u = _ => assert (Hu : loop_inv n0 (h ++ h1) u) by (destruct Hs1 as [A1 A2 A3 A4 A5 A6]; by split);
      destruct (finish_control_spec n0 (h ++ h1) u Hu Hf Eb) as (rc' & t' & E' & Hres) end. rewrite H in E'. injection E' as <- <-.
    destruct Hres as [[-> Hc]|(-> & Hn & Hp)]; [left; split; [done|]; exists (h1 ++ [ev_other]); by rewrite app_assoc|by right].
  - bind_inv H. match goal with E : monotonic s1 = Some ?x |- _ => destruct x as [now s2]; apply monotonic_same in E as [clk ->] end. cbn beta iota in H.
    destruct (now <? deadline).
    + destruct (IH _ (h ++ h1) _ (loop_inv_clock _ _ _ clk Hs1) Eb H) as [[-> (h2 & Hc)]|Hn]; [|by right].
      left. split; [done|]. exists (h1 ++ h2). by rewrite app_assoc.
    + bind_inv H. match goal with E : monotonic _ = Some ?x |- _ => destruct x as [now2 s3]; apply monotonic_same in E as [clk2 ->] end.
      injection H as <- <-. right. split; [done|]. destruct Hs1 as [_ Hp _ _ Hr _]. split; [exact Hr|]. by eapply fresh_plane_same.
Qed.

Record storage_ok (s : control) : Prop := {
  so_routes : length (route_storage (n_rt (cp_net s))) = ROUTE_MAX_ENTRIES;
  so_rules : length (rule_storage (n_fw (cp_net s))) = FW_MAX_RULES;
}.

Lemma init_stack_plane s : storage_ok s → fresh_plane (cp_net (init_stack s)).
Proof.
  intros [Hr Hf]. split; cbn -[ROUTE_MAX_ENTRIES FW_MAX_RULES]; try done. apply Forall_fmap, Forall_true. done.
Qed.
Lemma udp_bind_frame port n r t : udp_bind port n = (r, t) → plane t = plane n ∧ n_ip t = n_ip n.
Proof. unfold udp_bind. destruct (find_slot _ _); by intros [= <- <-]. Qed.

(** The state in which the loop is entered. *)
Definition started (s : control) : control := init_stack ((network_control_init s) <| cp_g ::= λ g, g <| g_hardware_io_ready := true |> |>).

Lemma started_inv s h :
  storage_ok s → dhcp_run h (cp_dhcp s) (cp_net s) →
  fresh_plane (cp_net (started s)) ∧ g_dhcp_bound (cp_g (started s)) = false ∧ loop_inv (cp_net (started s)) (h ++ [ev_other]) (started s).
Proof.
  intros Hs Hr. split; [apply init_stack_plane; destruct Hs; by split|]. split; [reflexivity|].
  split; [eapply run_other; [exact Hr|reflexivity]|reflexivity|reflexivity|reflexivity|reflexivity|discriminate].
Qed.

Lemma bringup_unfold timeout s :
  network_control_bringup_live timeout (network_control_init s) =
  if negb (nic_ready (n_nic (cp_net s)))
  then Some (AEGIS_ENOENT, (network_control_init s) <| cp_g ::= λ g, g <| g_wan_link_state := AEGIS_NETCTL_LINK_DOWN |> |>)
  else bind_and_wait (if timeout =? 0 then DEFAULT_TIMEOUT_MS else timeout) (started s).
Proof. reflexivity. Qed.

Lemma await_lease_result n0 timeout h s rc t :
  fresh_plane n0 → loop_inv n0 h s → g_dhcp_bound (cp_g s) = false → await_lease timeout s = Some (rc, t) → bringup_result h rc t.
Proof.
  unfold await_lease. intros Hf Hs Hb H. bind_inv H. match goal with E : monotonic s = Some ?x |- _ => destruct x as [now s1]; apply monotonic_same in E as [clk ->] end.
  exact (bringup_loop_result _ _ _ _ _ _ _ _ Hf (loop_inv_clock _ _ _ clk Hs) Hb H).
Qed.

Lemma loop_inv_bind n0 h s sock n :
  loop_inv n0 h s → plane n = plane (cp_net s) → n_ip n = n_ip (cp_net s) →
  loop_inv n0 (h ++ [ev_other]) (s <| cp_sock := sock |> <| cp_net := n |>).
Proof.
  intros [Hr Hp Hi Hh Hd Hb] Hpn Hin. split; try assumption.
  - eapply run_other; [exact Hr|]. change (local_ip (n_ip n) = local_ip (n_ip (cp_net s))). by rewrite Hin.
  - change (plane n = plane n0). congruence.
Qed.

Lemma bind_and_wait_result timeout h s rc t :
  fresh_plane (cp_net s) → loop_inv (cp_net s) h s → g_dhcp_bound (cp_g s) = false → bind_and_wait timeout s = Some (rc, t) → bringup_result h rc t.
Proof.
  unfold bind_and_wait. intros Hf Hi Hb H. destruct (udp_bind DHCP_CLIENT_PORT (cp_net s)) as [sock n] eqn:Eb. apply udp_bind_frame in Eb as [Hp Hn].
  cbv zeta in H. apply (loop_inv_bind _ _ _ sock n) in Hi; [|done|done]. assert (Hfn : fresh_plane n) by (by eapply fresh_plane_same).
  destruct (sock <? 0); [injection H as <- <-; right; split; [done|]; split; [apply Hi|exact Hfn]|].
  destruct (await_lease_result _ _ _ _ _ _ Hf Hi Hb H) as [[-> (h' & Hc)]|Hx]; [|by right].
  left. split; [done|]. exists (ev_other :: h'). by rewrite <-app_assoc in Hc.
Qed.

#[local] Opaque bind_and_wait.
Lemma bringup_live_result timeout s h rc t :
  storage_ok s → dhcp_run h (cp_dhcp s) (cp_net s) →
  network_control_bringup_live timeout (network_control_init s) = Some (rc, t) →
  bringup_result h rc t ∨ rc = AEGIS_ENOENT ∧ network_control_ready t = false ∧ nic_ready (n_nic (cp_net s)) = false.
Proof.
  intros Hs Hr H. rewrite bringup_unfold in H. destruct (nic_ready (n_nic (cp_net s))).
  2: { right. change (negb false) with true in H. by injection H as <- <-. }
  change (negb true) with false in H. cbn iota in H. left.
  destruct (started_inv s h Hs Hr) as (Hf & Hb & Hi). destruct (bind_and_wait_result _ _ _ _ _ Hf Hi Hb H) as [[-> (h' & Hc)]|Hx]; [|by right].
  left. split; [done|]. exists (ev_other :: h'). by rewrite <-app_assoc in Hc.
Qed.

(** * Theorems *)



(** * Examples *)

(** The frame with a reply of the server 10.0.2.2. *)
Definition server_frame (m : Z) : list Z :=
  let data := take 300 (reply_bytes (example_reply m)) in
  eth_frame broadcast_mac [82; 85; 10; 0; 2; 2] 2048
    (ipv4_header 4294967295 17 328 33685514 9 ++ udp_datagram 33685514 4294967295 DHCP_SERVER_PORT DHCP_CLIENT_PORT data).

Definition example_control : control :=
  mk_control (cp_g (network_control_init (mk_control (mk_netctl false false false false false false false false false false false false false
      EmptyString EmptyString EmptyString AEGIS_NETCTL_LINK_DOWN [] 0 0 0 0 0 0 0 0 0 0 0) 0 zero_net dhcp_ctx (mk_nat [] 0 false 0) [] [] [])))
    (-1) (zero_net <| n_ip := mk_ip 0 0 0 7 |>) dhcp_ctx (mk_nat [] NAT_PORT_MIN false 0) [2; 174; 97; 91; 12; 1] [0; 10; 20; 30; 40; 50]
    [mk_poll [Some (server_frame DHCP_OFFER)] (replicate 768 0); mk_poll [Some (server_frame DHCP_ACK)] (replicate 768 0)].

Lemma example_storage : storage_ok example_control.
Proof. split; vm_compute; reflexivity. Qed.



(** The filter is off while the address is being obtained, and it stays off when
    no server answers. *)
Lemma timeout_leaves_filter_off timeout s h t :
  storage_ok s → dhcp_run h (cp_dhcp s) (cp_net s) →
  network_control_bringup_live timeout (network_control_init s) = Some (AEGIS_ETIMEDOUT, t) → fw_enabled (n_fw (cp_net t)) = false.
Proof.
  intros Hs Hr H. destruct (bringup_live_result _ _ _ _ _ Hs Hr H) as [[[E _]|(_ & _ & Hf)]|(E & _)]; [discriminate E|apply Hf|discriminate E].
Qed.
Lemma timeout_example :
  fst <$> network_control_bringup_live 1 (network_control_init (example_control <| cp_clock := [0; 10; 2000000; 2000001] |> <| cp_polls ::= fmap (λ p, mk_poll [] (pi_buf p)) |>)) =
  Some AEGIS_ETIMEDOUT.
Proof. vm_compute. reflexivity. Qed.

(** The reply to a DNS query of the host, and to any connection it opens, is not
    covered by the policy: only received packets are tracked. *)
Lemma dns_reply_not_allowed server me : allowed (mk_flow server me 53 10053 17) = false.
Proof. reflexivity. Qed.
Lemma https_reply_not_allowed server me : allowed (mk_flow server me 443 49152 6) = false.
Proof. reflexivity. Qed.

(** The self-test accepts the state that bring-up leaves. *)
Lemma selftest_after_bringup :
  (network_control_selftest ∘ snd) <$> network_control_bringup_live 5000 (network_control_init example_control) = Some AEGIS_OK.
Proof. vm_compute. reflexivity. Qed.
