(* ===== verification/Vfs.v ===== *)
(** The virtual file system switch: fs/vfs.c, fs/include/vfs.h.

    A [vfs_t *] is an address whose content [vfs_at] gives (the file system
    descriptors are static objects that never change); the operations of a file
    system act on a state [W] of their own, so that the switch is independent of
    the file systems mounted on it.  [vfs_open_spec] is the contract of path
    resolution: the file system of the longest mount point above the path, and
    the rest of the path as the vnode's name. *)

From S2P Require Import Prelude.

Definition VFS_PATH_MAX : nat := 256.
Definition VFS_NAME_MAX : nat := 64.
Definition VFS_MAX_MOUNTS : nat := 32.
Definition VFS_MAX_OPEN : nat := 256.

(** [vn_priv] tells whether [priv] points to the vnode's own [path]. *)
Record vnode := mk_vnode {
  vn_ino : Z;
  vn_size : Z;
  vn_vfs : option nat;
  vn_ops : option nat;
  vn_priv : bool;
  vn_path : string;
}.
#[export] Instance vnode_eta : Eta vnode := λ v,
  mk_vnode (vn_ino v) (vn_size v) (vn_vfs v) (vn_ops v) (vn_priv v) (vn_path v).

Record mount_point := mk_mount { mp_path : string; mp_fs : option nat; mp_active : bool }.
#[export] Instance mount_point_eta : Eta mount_point := λ m,
  mk_mount (mp_path m) (mp_fs m) (mp_active m).

Record vfs_state := mk_vfs_state {
  mounts : list mount_point;
  open_vnodes : list vnode;
  next_ino : Z;
}.
#[export] Instance vfs_state_eta : Eta vfs_state := λ s,
  mk_vfs_state (mounts s) (open_vnodes s) (next_ino s).

(** The string [vn->priv] of a file system operation. *)
Definition priv_path (v : vnode) : option string := if vn_priv v then Some (vn_path v) else None.

(** The operations of a file system. A destination pointer is a boolean (is it
    non-NULL) and the bytes stored through it are part of the result; [None] as
    a result is an access outside an object. *)
Record vnode_ops (W : Type) := mk_ops {
  op_read : option (vnode → Z → bool → Z → W → option (Z * list Z * W));
  op_write : option (vnode → Z → option (list Z) → W → option (Z * vnode * W));
  op_readdir : option (vnode → Z → bool → W → option (Z * string));
  op_stat : option (vnode → bool → W → option (Z * Z));
}.
Arguments mk_ops {W}. Arguments op_read {W}. Arguments op_write {W}.
Arguments op_readdir {W}. Arguments op_stat {W}.

Record vfs (W : Type) := mk_vfs {
  fs_name : string;
  fs_mount : option (W → Z * W);
  fs_ops : option (vnode_ops W);
}.
Arguments mk_vfs {W}. Arguments fs_name {W}. Arguments fs_mount {W}. Arguments fs_ops {W}.

(** The character "/". *)
Definition slash : Ascii.ascii := Eval cbv in Ascii.ascii_of_nat 47.

Definition vfs_init (s : vfs_state) : vfs_state :=
  s <| mounts ::= fmap (λ m, m <| mp_active := false |>) |>
    <| open_vnodes ::= fmap (λ v, v <| vn_ino := 0 |> <| vn_path := EmptyString |>) |>.

(** The loop of [path_match_len]: length of the common prefix and what is left
    of both strings. *)
Fixpoint common_prefix (path mount_path : string) {struct mount_path} : nat * string * string :=
  match mount_path, path with
  | String b m, String a p =>
      if Ascii.eqb a b
      then let '(n, p', m') := common_prefix p m in (S n, p', m')
      else (0%nat, path, mount_path)
  | _, _ => (0%nat, path, mount_path)
  end.

Definition starts_with_slash (s : string) : bool :=
  match s with String c _ => Ascii.eqb c slash | EmptyString => false end.

Definition path_match_len (path mount_path : string) : nat :=
  if c_streq mount_path "/" then if starts_with_slash path then 1 else 0
  else
    let '(len, p, m) := common_prefix path mount_path in
    match m with
    | EmptyString =>
        match p with
        | EmptyString => len
        | String c _ => if Ascii.eqb c slash then len else 0
        end
    | _ => 0
    end.

Fixpoint str_drop (n : nat) (s : string) : string :=
  match n, s with
  | S n, String _ s => str_drop n s
  | _, _ => s
  end.

Definition skip_slash (s : string) : string :=
  match s with String c s' => if Ascii.eqb c slash then s' else s | EmptyString => s end.

Fixpoint resolve_scan (path : string) (l : list mount_point) (i : nat)
    (best : option nat) (best_len : nat) : option nat * nat :=
  match l with
  | [] => (best, best_len)
  | m :: l =>
      let len := if mp_active m then path_match_len path (mp_path m) else 0%nat in
      if bool_decide (best_len < len)%nat
      then resolve_scan path l (S i) (Some i) len
      else resolve_scan path l (S i) best best_len
  end.

Definition vfs_resolve_mount (path : string) (s : vfs_state) : option (nat * string) :=
  match resolve_scan path (mounts s) 0 None 0 with
  | (Some i, len) => Some (i, skip_slash (str_drop len path))
  | (None, _) => None
  end.

(** Copy of a string into a [char[VFS_PATH_MAX]], truncated. *)
Definition path_copy (s : string) : string := str_take (VFS_PATH_MAX - 1) s.
#[global] Arguments path_copy : simpl never.

Definition mounted_at (path : string) (m : mount_point) : bool :=
  mp_active m && c_streq (mp_path m) path.

(** A [vnode_t *] is an index of [open_vnodes], [None] for NULL. *)
Definition vfs_close (vn : option nat) (s : vfs_state) : vfs_state :=
  match vn with
  | None => s
  | Some i =>
      s <| open_vnodes ::= alter (λ v, mk_vnode 0 (vn_size v) None None false EmptyString) i |>
  end.

Definition vfs_mount_count (s : vfs_state) : Z :=
  Z.of_nat (length (filter (λ m, mp_active m = true) (mounts s))).

Definition vfs_is_mounted (path : option string) (s : vfs_state) : bool :=
  match path with
  | None => false
  | Some path => bool_decide (is_Some (find_slot (mounted_at path) (mounts s)))
  end.

Definition vfs_umount (path : option string) (s : vfs_state) : Z * vfs_state :=
  match path with
  | None => (AEGIS_EINVAL, s)
  | Some path =>
      match find_slot (mounted_at path) (mounts s) with
      | Some i => (AEGIS_OK, s <| mounts ::= alter (λ m, m <| mp_active := false |>) i |>)
      | None => (AEGIS_ENOENT, s)
      end
  end.

(** ** The operations that reach a file system *)

Section dispatch.
Context {W : Type} (vfs_at : nat → vfs W).

Definition vfs_mount (path : option string) (fs : option nat) (s : vfs_state) (w : W)
    : Z * vfs_state * W :=
  match path, fs with
  | Some path, Some fs =>
      if negb (starts_with_slash path) then (AEGIS_EINVAL, s, w)
      else if bool_decide (is_Some (find_slot (mounted_at path) (mounts s))) then (AEGIS_EBUSY, s, w)
      else
        let '(rc, w) := match fs_mount (vfs_at fs) with Some f => f w | None => (AEGIS_OK, w) end in
        if negb (rc =? AEGIS_OK) then (rc, s, w)
        else
          match find_slot (λ m, negb (mp_active m)) (mounts s) with
          | Some i =>
              (AEGIS_OK,
               s <| mounts ::= <[i := mk_mount (path_copy path) (Some fs) true]> |>, w)
          | None => (AEGIS_ENOMEM, s, w)
          end
  | _, _ => (AEGIS_EINVAL, s, w)
  end.

Definition vfs_open (path : option string) (s : vfs_state) : option nat * vfs_state :=
  match path with
  | None => (None, s)
  | Some path =>
      match vfs_resolve_mount path s with
      | None => (None, s)
      | Some (k, remainder) =>
          match mounts s !! k ≫= mp_fs with
          | None => (None, s)
          | Some fs =>
              if bool_decide (fs_ops (vfs_at fs) = None) then (None, s)
              else
                match find_slot (λ v, vn_ino v =? 0) (open_vnodes s) with
                | None => (None, s)
                | Some i =>
                    (Some i,
                     s <| open_vnodes ::= <[i := mk_vnode (next_ino s) 0 (Some fs) (Some fs) true
                                                   (path_copy remainder)]> |>
                       <| next_ino := u32 (next_ino s + 1) |>)
                end
          end
      end
  end.

(** [vn->ops] of a handle. *)
Definition handle_ops (vn : option nat) (s : vfs_state) : option (nat * vnode * vnode_ops W) :=
  i ← vn; v ← open_vnodes s !! i; f ← vn_ops v; o ← fs_ops (vfs_at f); Some (i, v, o).

Definition vfs_read (vn : option nat) (off : Z) (buf : bool) (len : Z) (s : vfs_state) (w : W)
    : option (Z * list Z * W) :=
  match handle_ops vn s with
  | Some (_, v, o) =>
      match op_read o with Some f => f v off buf len w | None => Some (AEGIS_EINVAL, [], w) end
  | None => Some (AEGIS_EINVAL, [], w)
  end.

Definition vfs_write (vn : option nat) (off : Z) (buf : option (list Z)) (s : vfs_state) (w : W)
    : option (Z * vfs_state * W) :=
  match handle_ops vn s with
  | Some (i, v, o) =>
      match op_write o with
      | Some f =>
          '(rc, v', w') ← f v off buf w;
          Some (rc, s <| open_vnodes ::= <[i := v']> |>, w')
      | None => Some (AEGIS_EINVAL, s, w)
      end
  | None => Some (AEGIS_EINVAL, s, w)
  end.

Definition vfs_readdir (vn : option nat) (index : Z) (name : bool) (s : vfs_state) (w : W)
    : option (Z * string) :=
  match handle_ops vn s with
  | Some (_, v, o) =>
      match op_readdir o with Some f => f v index name w | None => Some (AEGIS_EINVAL, EmptyString) end
  | None => Some (AEGIS_EINVAL, EmptyString)
  end.

Definition vfs_stat (vn : option nat) (out : bool) (s : vfs_state) (w : W) : option (Z * Z) :=
  match handle_ops vn s with
  | Some (_, v, o) =>
      match op_stat o with Some f => f v out w | None => Some (AEGIS_EINVAL, 0) end
  | None => Some (AEGIS_EINVAL, 0)
  end.

Definition vfs_mount_fs_name (path : option string) (s : vfs_state) : option string :=
  path ← path; i ← find_slot (mounted_at path) (mounts s);
  m ← mounts s !! i; fs ← mp_fs m; Some (fs_name (vfs_at fs)).

(** The addresses of the three bootstrap file systems. *)
Context (bootstrap_devfs bootstrap_procfs bootstrap_tmpfs : nat).

Definition vfs_mount_bootstrap_pseudo (path name : option string) (s : vfs_state) (w : W)
    : Z * vfs_state * W :=
  match path, name with
  | Some _, Some name =>
      if c_streq name "devfs" then vfs_mount path (Some bootstrap_devfs) s w
      else if c_streq name "procfs" then vfs_mount path (Some bootstrap_procfs) s w
      else if c_streq name "tmpfs" then vfs_mount path (Some bootstrap_tmpfs) s w
      else (AEGIS_EINVAL, s, w)
  | _, _ => (AEGIS_EINVAL, s, w)
  end.

Definition has_vfs (vn : option nat) (s : vfs_state) : bool :=
  bool_decide (is_Some (vn ≫= λ i, open_vnodes s !! i ≫= vn_vfs)).

Definition vfs_bootstrap_selftest (s : vfs_state) : Z * vfs_state :=
  if negb (vfs_is_mounted (Some "/") s) then (AEGIS_ENOENT, s)
  else if negb (vfs_is_mounted (Some "/dev") s) then (AEGIS_ENOENT, s)
  else if negb (vfs_is_mounted (Some "/proc") s) then (AEGIS_ENOENT, s)
  else if vfs_mount_count s <? 3 then (AEGIS_EINVAL, s)
  else if bool_decide (vfs_mount_fs_name (Some "/") s = None)
          || bool_decide (vfs_mount_fs_name (Some "/dev") s = None)
          || bool_decide (vfs_mount_fs_name (Some "/proc") s = None) then (AEGIS_EINVAL, s)
  else
    let '(root, s) := vfs_open (Some "/") s in
    let '(dev, s) := vfs_open (Some "/dev") s in
    let '(proc, s) := vfs_open (Some "/proc") s in
    match root, dev, proc with
    | Some _, Some _, Some _ =>
        let ok := has_vfs root s && has_vfs dev s && has_vfs proc s in
        (if ok then AEGIS_OK else AEGIS_EINVAL, vfs_close root (vfs_close dev (vfs_close proc s)))
    | _, _, _ => (AEGIS_EINVAL, vfs_close proc (vfs_close dev (vfs_close root s)))
    end.

End dispatch.

(** ** The bootstrap file systems *)

Definition pseudo_read {W : Type} (v : vnode) (offset : Z) (buf : bool) (len : Z) (w : W)
    : option (Z * list Z * W) :=
  if negb buf then Some (AEGIS_EINVAL, [], w) else Some (0, [], w).

Definition pseudo_readdir {W : Type} (v : vnode) (index : Z) (name : bool) (w : W)
    : option (Z * string) :=
  if negb name then Some (AEGIS_EINVAL, EmptyString) else Some (AEGIS_ENOENT, EmptyString).

Definition pseudo_ops {W : Type} : vnode_ops W := mk_ops (Some pseudo_read) None (Some pseudo_readdir) None.

Definition bootstrap_vfs {W : Type} (name : string) : vfs W := mk_vfs name None (Some pseudo_ops).

(** ** Path resolution *)

(** [below mp path rem]: the mount point [mp] is above [path] at a component
    boundary, and [rem] is the rest of the path. *)
Definition below (mp path rem : string) : Prop :=
  if decide (mp = "/")
  then path = ("/" +:+ rem)%string ∧ starts_with_slash rem = false ∨ path = ("//" +:+ rem)%string
  else path = mp ∧ rem = EmptyString ∨ path = (mp +:+ "/" +:+ rem)%string.

Lemma common_prefix_spec p m n p' m' :
  common_prefix p m = (n, p', m') →
  ∃ pre, p = (pre +:+ p')%string ∧ m = (pre +:+ m')%string ∧ String.length pre = n.
Proof.
  revert p n p' m'. induction m as [|b m IH]; intros p n p' m'; cbn.
  { destruct p; intros [= <- <- <-]; by exists EmptyString. }
  destruct p as [|a p]; [intros [= <- <- <-]; by exists EmptyString|].
  cbn. destruct (Ascii.eqb_spec a b) as [->|]; [|intros [= <- <- <-]; by exists EmptyString].
  destruct (common_prefix p m) as [[k p1] m1] eqn:E. intros [= <- <- <-].
  destruct (IH _ _ _ _ E) as (pre & -> & -> & <-). by exists (String b pre).
Qed.

Lemma string_app_cons c a b : (String c a +:+ b)%string = String c (a +:+ b).
Proof. done. Qed.

Lemma common_prefix_app m r : common_prefix (m +:+ r) m = (String.length m, r, EmptyString).
Proof.
  induction m as [|b m IH]; [by destruct r|]. rewrite string_app_cons. cbn.
  rewrite Ascii.eqb_refl. by rewrite IH.
Qed.

Lemma str_drop_app pre s : str_drop (String.length pre) (pre +:+ s) = s.
Proof. induction pre as [|c pre IH]; [by destruct s|]. by rewrite string_app_cons. Qed.

Lemma string_app_empty_r s : (s +:+ EmptyString)%string = s.
Proof. induction s as [|c s IH]; [done|]. rewrite string_app_cons. by f_equal. Qed.

Lemma slash_head s : starts_with_slash s = true → ∃ s', s = String slash s'.
Proof. destruct s as [|c s]; [done|]. cbn. intros ->%Ascii.eqb_eq. eauto. Qed.

Lemma path_match_len_below path mp :
  (0 < path_match_len path mp)%nat →
  path_match_len path mp = String.length mp ∧
  below mp path (skip_slash (str_drop (path_match_len path mp) path)).
Proof.
  unfold path_match_len, below. destruct (c_streq mp "/") eqn:Eroot.
  - apply c_streq_spec in Eroot as ->. rewrite decide_True by done.
    destruct (starts_with_slash path) eqn:Hs; [|lia]. intros _. split; [done|].
    apply slash_head in Hs as (p & ->). cbn. destruct p as [|c p]; cbn; [by left|].
    destruct (Ascii.eqb_spec c slash) as [->|Hc]; [by right|left]. split; [done|].
    by apply Ascii.eqb_neq.
  - destruct (common_prefix path mp) as [[n p] m] eqn:E.
    apply common_prefix_spec in E as (pre & -> & -> & <-).
    rewrite decide_False by (intros Heq; apply c_streq_spec in Heq; congruence).
    destruct m; [|lia]. rewrite string_app_empty_r. destruct p as [|c p].
    + intros _. split; [done|]. rewrite str_drop_app. left. by rewrite string_app_empty_r.
    + destruct (Ascii.eqb_spec c slash) as [->|]; [|lia]. intros _. split; [done|].
      rewrite str_drop_app. by right.
Qed.

Lemma below_match_len mp path rem :
  below mp path rem → path_match_len path mp = String.length mp.
Proof.
  unfold path_match_len, below. destruct (decide (mp = "/")) as [->|Hne].
  - intros [[-> _]| ->]; done.
  - intros H. destruct (c_streq mp "/") eqn:E; [by apply c_streq_spec in E|].
    destruct H as [[-> ->]| ->]; [|by rewrite common_prefix_app].
    replace (common_prefix mp mp) with (common_prefix (mp +:+ EmptyString)%string mp)
      by (by rewrite string_app_empty_r).
    by rewrite common_prefix_app.
Qed.

(** The scan keeps the first entry of the greatest length. *)
Lemma resolve_scan_spec path l i best n b' n' :
  resolve_scan path l i best n = (b', n') →
  (n ≤ n')%nat ∧
  (∀ j m, l !! j = Some m → mp_active m = true → (path_match_len path (mp_path m) ≤ n')%nat) ∧
  ((b' = best ∧ n' = n) ∨
   ∃ j m, b' = Some (i + j)%nat ∧ l !! j = Some m ∧ mp_active m = true ∧
          n' = path_match_len path (mp_path m) ∧ (0 < n')%nat).
Proof.
  revert i best n. induction l as [|m l IH]; intros i best n; cbn.
  { intros [= -> ->]. split_and!; [done|by intros [|?] ? ?|by left]. }
  set (len := if mp_active m then _ else _).
  assert (mp_active m = true → path_match_len path (mp_path m) = len) as Hlen
    by (subst len; by intros ->).
  case_bool_decide as Hlt; intros H; apply IH in H as (Hle & Hall & Hr).
  - split_and!; [lia| |].
    + intros [|j] m' Hm' Ha; cbn in Hm'; [|by eapply Hall]. simplify_eq. rewrite Hlen by done. lia.
    + right. destruct Hr as [[-> ->]|(j & m' & -> & ? & ? & ? & ?)].
      * exists 0%nat, m. assert (mp_active m = true) as Ha by (subst len; destruct (mp_active m); [done|lia]).
        split_and!; [f_equal; lia|done|done|by rewrite Hlen|lia].
      * exists (S j), m'. split_and!; [f_equal; lia|done..].
  - split_and!; [lia| |].
    + intros [|j] m' Hm' Ha; cbn in Hm'; [|by eapply Hall]. simplify_eq. rewrite Hlen by done. lia.
    + destruct Hr as [[-> ->]|(j & m' & -> & ? & ? & ? & ?)]; [by left|right].
      exists (S j), m'. split_and!; [f_equal; lia|done..].
Qed.

(** The mount that path resolution is to find. *)
Definition longest_mount (path : string) (k : nat) (rem : string) (s : vfs_state) : Prop :=
  ∃ m, mounts s !! k = Some m ∧ mp_active m = true ∧ below (mp_path m) path rem ∧
       ∀ j m' rem', mounts s !! j = Some m' → mp_active m' = true → below (mp_path m') path rem' →
                    (String.length (mp_path m') ≤ String.length (mp_path m))%nat.

Lemma vfs_resolve_mount_spec path k rem s :
  vfs_resolve_mount path s = Some (k, rem) → longest_mount path k rem s.
Proof.
  unfold vfs_resolve_mount. destruct (resolve_scan _ _ _ _ _) as [b n] eqn:E.
  destruct b as [i|]; [|done]. intros [= -> <-].
  apply resolve_scan_spec in E as (_ & Hall & [[? _]|(j & m & Hk & Hm & Ha & -> & Hpos)]); [done|].
  injection Hk as ->. destruct (path_match_len_below _ _ Hpos) as [Hlen Hb].
  exists m. split_and!; [done..|]. intros j' m' rem' Hm' Ha' Hb'.
  rewrite <-Hlen, <-(below_match_len _ _ _ Hb'). by eapply Hall.
Qed.

Lemma vfs_resolve_mount_complete path j m rem s :
  mounts s !! j = Some m → mp_active m = true → mp_path m ≠ EmptyString → below (mp_path m) path rem →
  is_Some (vfs_resolve_mount path s).
Proof.
  intros Hm Ha Hne Hb. unfold vfs_resolve_mount. destruct (resolve_scan _ _ _ _ _) as [b n] eqn:E.
  apply resolve_scan_spec in E as (_ & Hall & Hr). pose proof (Hall _ _ Hm Ha) as Hle.
  rewrite (below_match_len _ _ _ Hb) in Hle.
  destruct Hr as [[-> ->]|(? & ? & -> & _)]; [|eauto]. destruct (mp_path m); [done|]. cbn in Hle. lia.
Qed.

(** ** Opening and closing *)

(** What [vfs_open] promises: the vnode in a free slot, on the file system of the
    longest mount point above the path, named by the rest of the path. *)
Definition opened (path : string) (i : nat) (s s' : vfs_state) : Prop :=
  ∃ k rem m fs v0,
    longest_mount path k rem s ∧ mounts s !! k = Some m ∧ mp_fs m = Some fs ∧
    open_vnodes s !! i = Some v0 ∧ vn_ino v0 = 0 ∧
    s' = s <| open_vnodes ::=
                <[i := mk_vnode (next_ino s) 0 (Some fs) (Some fs) true (path_copy rem)]> |>
           <| next_ino := u32 (next_ino s + 1) |>.

Section open_close.
Context {W : Type} (vfs_at : nat → vfs W).

Lemma vfs_open_opened path i s s' :
  vfs_open vfs_at (Some path) s = (Some i, s') → opened path i s s'.
Proof.
  unfold vfs_open. destruct (vfs_resolve_mount path s) as [[k rem]|] eqn:Er; [|done].
  pose proof (vfs_resolve_mount_spec _ _ _ _ Er) as Hl.
  destruct (mounts s !! k) as [m|] eqn:Hm; cbn [mbind option_bind]; [|done].
  destruct (mp_fs m) as [fs|] eqn:Hfs; [|done]. case_bool_decide; [done|].
  destruct (find_slot _ _) as [j|] eqn:Hj; [|done]. intros [= -> <-].
  apply find_slot_Some in Hj as (v0 & Hv0 & Hino & _). apply Z.eqb_eq in Hino.
  exists k, rem, m, fs, v0. by split_and!.
Qed.

Lemma vfs_open_succeeds path s :
  (∀ k m, mounts s !! k = Some m → mp_active m = true →
          mp_path m ≠ EmptyString ∧ ∃ fs, mp_fs m = Some fs ∧ fs_ops (vfs_at fs) ≠ None) →
  (∃ j m rem, mounts s !! j = Some m ∧ mp_active m = true ∧ below (mp_path m) path rem) →
  (∃ i v, open_vnodes s !! i = Some v ∧ vn_ino v = 0) →
  ∃ i s', vfs_open vfs_at (Some path) s = (Some i, s').
Proof.
  intros Hok (j & m & rem & Hm & Ha & Hb) (i0 & v0 & Hv0 & Hi0).
  destruct (Hok _ _ Hm Ha) as [Hne _].
  destruct (vfs_resolve_mount_complete _ _ _ _ _ Hm Ha Hne Hb) as [[k rem'] Er].
  destruct (vfs_resolve_mount_spec _ _ _ _ Er) as (m' & Hm' & Ha' & _).
  destruct (Hok _ _ Hm' Ha') as (_ & fs & Hfs & Hops).
  unfold vfs_open. rewrite Er, Hm'. cbn [mbind option_bind]. rewrite Hfs, bool_decide_eq_false_2 by done.
  destruct (find_slot _ _) as [i|] eqn:Hi; [eauto|].
  rewrite find_slot_None in Hi. specialize (Hi _ _ Hv0). apply Z.eqb_neq in Hi. lia.
Qed.
End open_close.

(** A state in which the switch is used: every active mount has a non-empty path
    and a file system, and the inode numbers of open vnodes are below [next_ino]. *)
Definition mounts_ok {W} (vfs_at : nat → vfs W) (s : vfs_state) : Prop :=
  ∀ k m, mounts s !! k = Some m → mp_active m = true →
    mp_path m ≠ EmptyString ∧ ∃ fs, mp_fs m = Some fs ∧ fs_ops (vfs_at fs) ≠ None.

Lemma path_copy_nonempty s : s ≠ EmptyString → path_copy s ≠ EmptyString.
Proof. by destruct s. Qed.

Lemma path_copy_id s : (String.length s < VFS_PATH_MAX)%nat → path_copy s = s.
Proof. intros H. apply str_take_id. unfold VFS_PATH_MAX in *. lia. Qed.

Lemma vfs_mount_ok {W} (vfs_at : nat → vfs W) path fs s w :
  (∀ f, fs = Some f → fs_ops (vfs_at f) ≠ None) →
  mounts_ok vfs_at s → mounts_ok vfs_at (vfs_mount vfs_at path fs s w).1.2.
Proof.
  intros Hfs Hok. unfold vfs_mount. destruct path as [path|]; [|done]. destruct fs as [fs|]; [|done].
  destruct (negb (starts_with_slash path)) eqn:Hsl; [done|]. case_bool_decide; [done|].
  destruct (match fs_mount _ with Some _ => _ | None => _ end) as [rc w'].
  destruct (negb (rc =? _)); [done|].
  destruct (find_slot (λ m, negb (mp_active m)) _) as [i|] eqn:Hi; [|done].
  intros k m. cbn. intros Hk Ha. destruct (decide (k = i)) as [->|Hne].
  - rewrite list_lookup_insert_eq in Hk by (by eapply find_slot_lt). simplify_eq. cbn.
    split; [|eauto]. apply path_copy_nonempty. by destruct path.
  - rewrite list_lookup_insert_ne in Hk by done. eauto.
Qed.

(** Without a mount function the file system's state is untouched. *)
Lemma vfs_mount_world {W} (vfs_at : nat → vfs W) path fs s w rc s' w' :
  fs_mount (vfs_at fs) = None → vfs_mount vfs_at path (Some fs) s w = (rc, s', w') → w' = w.
Proof.
  intros Hfs. unfold vfs_mount. destruct path as [path|]; [|congruence]. rewrite Hfs.
  destruct (negb (starts_with_slash path)); [congruence|]. case_bool_decide; [congruence|]. cbn [negb Z.eqb AEGIS_OK].
  destruct (find_slot (λ m, negb (mp_active m)) _); congruence.
Qed.

Lemma vfs_umount_ok {W} (vfs_at : nat → vfs W) path s :
  mounts_ok vfs_at s → mounts_ok vfs_at (vfs_umount path s).2.
Proof.
  intros Hok. unfold vfs_umount. destruct path as [path|]; [|done].
  destruct (find_slot _ _) as [i|]; [|done]. intros k m. cbn.
  destruct (decide (k = i)) as [->|]; [|rewrite list_lookup_alter_ne by done; apply Hok].
  rewrite list_lookup_alter_eq. by intros (m0 & _ & ->)%fmap_Some.
Qed.

(** On every state whose active mounts have a path and operations (which
    [vfs_mount] and [vfs_umount] preserve), with a free vnode slot and a mount
    point above the path, [vfs_open] succeeds: the vnode is in a slot that was
    free, on the file system of the LONGEST mount point that is above the path at
    a component boundary, with the rest of the path as its name, and nothing else
    changes. *)
Theorem vfs_open_spec {W} (vfs_at : nat → vfs W) path s :
  mounts_ok vfs_at s →
  (∃ j m rem, mounts s !! j = Some m ∧ mp_active m = true ∧ below (mp_path m) path rem) →
  (∃ i v, open_vnodes s !! i = Some v ∧ vn_ino v = 0) →
  ∃ i s', vfs_open vfs_at (Some path) s = (Some i, s') ∧ opened path i s s'.
Proof.
  intros Hok Hm Hv. destruct (vfs_open_succeeds vfs_at path s Hok Hm Hv) as (i & s' & E).
  exists i, s'. split; [done|]. by eapply vfs_open_opened.
Qed.

(** Mounting, then asking and unmounting. *)
Lemma vfs_mount_umount {W} (vfs_at : nat → vfs W) path fs s s' w w' :
  (String.length path < VFS_PATH_MAX)%nat →
  vfs_mount vfs_at (Some path) fs s w = (AEGIS_OK, s', w') →
  vfs_is_mounted (Some path) s' = true ∧ (vfs_umount (Some path) s').1 = AEGIS_OK.
Proof.
  intros Hlen. unfold vfs_mount. destruct fs as [fs|]; [|done].
  destruct (negb _); [done|]. case_bool_decide; [done|].
  destruct (match fs_mount _ with Some _ => _ | None => _ end) as [rc w1].
  destruct (rc =? AEGIS_OK) eqn:Hrc; cbn [negb];
    [|intros [= -> <- <-]; by apply Z.eqb_neq in Hrc].
  destruct (find_slot (λ m, negb (mp_active m)) (mounts s)) as [i|] eqn:Hi; [|done].
  intros [= <- <-]. apply find_slot_lt in Hi.
  cut (is_Some (find_slot (mounted_at path)
    (<[i:=mk_mount (path_copy path) (Some fs) true]> (mounts s)))).
  { intros [k Hk]. unfold vfs_is_mounted, vfs_umount. cbn -[find_slot]. by rewrite Hk. }
  apply not_eq_None_Some. intros Hk.
  rewrite find_slot_None in Hk. specialize (Hk i _ (list_lookup_insert_eq _ _ _ Hi)).
  unfold mounted_at in Hk. cbn in Hk. rewrite path_copy_id in Hk by done.
  assert (c_streq path path = true) by by apply c_streq_spec. congruence.
Qed.

(** Longer paths are stored truncated: they cannot be unmounted by their name,
    and a second mount of the same path is not refused. *)
Definition long_path : string := String slash (String.concat EmptyString (replicate 25 "long-names")).
Definition example_vfs : vfs_state :=
  mk_vfs_state (replicate VFS_MAX_MOUNTS (mk_mount EmptyString None false))
    (replicate VFS_MAX_OPEN (mk_vnode 0 0 None None false EmptyString)) 1.
Definition pseudo_at (fs : nat) : vfs unit :=
  bootstrap_vfs match fs with 0%nat => "devfs" | 1%nat => "procfs" | _ => "tmpfs" end.
Definition boot_mounts (s : vfs_state) : vfs_state :=
  let mnt path name s := (vfs_mount_bootstrap_pseudo pseudo_at 0 1 2 (Some path) (Some name) s tt).1.2 in
  mnt "/proc" "procfs" (mnt "/dev" "devfs" (mnt "/" "tmpfs" s)).

Lemma vfs_umount_long_path :
  let p := (long_path +:+ long_path)%string in
  let s := vfs_mount pseudo_at (Some p) (Some 0%nat) example_vfs tt in
  s.1.1 = AEGIS_OK ∧ (vfs_umount (Some p) s.1.2).1 = AEGIS_ENOENT ∧
  (vfs_mount pseudo_at (Some p) (Some 1%nat) s.1.2 tt).1.1 = AEGIS_OK.
Proof. vm_compute. done. Qed.

(** The boot sequence passes its own self-test and leaves no vnode open. *)
Lemma vfs_boot_selftest :
  let '(rc, s) := vfs_bootstrap_selftest pseudo_at (boot_mounts (vfs_init example_vfs)) in
  rc = AEGIS_OK ∧ mounts s = mounts (boot_mounts example_vfs) ∧ Forall (λ v, vn_ino v = 0) (open_vnodes s).
Proof.
  vm_compute. split_and!; [done..|]. repeat constructor.
Qed.

Lemma vfs_open_spec_witness :
  let s := boot_mounts example_vfs in
  ∃ i s', vfs_open pseudo_at (Some "/dev/console") s = (Some i, s') ∧ opened "/dev/console" i s s'.
Proof.
  apply vfs_open_spec.
  - apply (vfs_mount_ok pseudo_at (Some "/proc") (Some 1%nat) _ tt); [done|].
    apply (vfs_mount_ok pseudo_at (Some "/dev") (Some 0%nat) _ tt); [done|].
    apply (vfs_mount_ok pseudo_at (Some "/") (Some 2%nat) _ tt); [done|].
    intros k m Hk. apply lookup_replicate in Hk as [-> _]. done.
  - exists 1%nat. vm_compute. eexists _, "console". split_and!; [reflexivity|reflexivity|]. by right.
  - exists 0%nat. vm_compute. eexists. split; reflexivity.
Defined.
