(* ===== verification/Block.v ===== *)
(** Block devices and partitions: kernel/core/block_storage.c,
    kernel/include/block_storage.h.

    A driver is a table of operations on a state [W] of its own; an
    [aegis_block_ops_t *] is an address whose content [ops_at] gives. What the
    layer relies on of a driver is the class [SectorDriver]; what it promises to a
    file system on one of its partitions is the class [PartitionIO], discharged by
    the instance at the end of the file: partition accesses stay inside the
    partition and partitions do not interfere. *)

From S2P Require Import Prelude.

Definition AEGIS_BLOCK_DEVICE_MAX : nat := 8.
Definition AEGIS_BLOCK_PARTITION_MAX : nat := 16.
Definition AEGIS_BLOCK_NAME_MAX : nat := 32.
Definition AEGIS_BLOCK_FLAG_READABLE : Z := 1.
Definition AEGIS_BLOCK_FLAG_WRITABLE : Z := 2.
Definition AEGIS_BLOCK_FLAG_BOOT : Z := 4.
Definition AEGIS_BLOCK_FLAG_ROOT : Z := 8.
Definition AEGIS_BLOCK_FLAG_CONFIG : Z := 16.
Definition AEGIS_BLOCK_FLAG_PERSISTENT : Z := 32.

Inductive device_state := DEVICE_EMPTY | DEVICE_REGISTERED | DEVICE_READY | DEVICE_FAULTED.
#[export] Instance device_state_eq_dec : EqDecision device_state.
Proof. solve_decision. Defined.

Inductive partition_state := PARTITION_EMPTY | PARTITION_DECLARED | PARTITION_READY.
#[export] Instance partition_state_eq_dec : EqDecision partition_state.
Proof. solve_decision. Defined.

Record blk_ops (W : Type) := mk_blk_ops {
  bo_read : option (Z → Z → Z → W → Z * list Z * W);
  bo_write : option (Z → Z → Z → list Z → W → Z * W);
  bo_flush : option (Z → W → Z * W);
}.
Arguments mk_blk_ops {W}. Arguments bo_read {W}. Arguments bo_write {W}. Arguments bo_flush {W}.

Record device := mk_device {
  d_id : Z; d_name : string; d_state : device_state;
  d_block_size : Z; d_block_count : Z; d_flags : Z;
  d_ops : option nat; d_ctx : Z;
  d_reads : Z; d_writes : Z; d_io_errors : Z;
}.
#[export] Instance device_eta : Eta device := λ d,
  mk_device (d_id d) (d_name d) (d_state d) (d_block_size d) (d_block_count d) (d_flags d)
    (d_ops d) (d_ctx d) (d_reads d) (d_writes d) (d_io_errors d).
Definition zero_device : device := mk_device 0 EmptyString DEVICE_EMPTY 0 0 0 None 0 0 0 0.

Record partition := mk_partition {
  p_id : Z; p_device_id : Z; p_name : string; p_state : partition_state;
  p_start_lba : Z; p_block_count : Z; p_flags : Z;
}.
#[export] Instance partition_eta : Eta partition := λ p,
  mk_partition (p_id p) (p_device_id p) (p_name p) (p_state p) (p_start_lba p) (p_block_count p) (p_flags p).
Definition zero_partition : partition := mk_partition 0 0 EmptyString PARTITION_EMPTY 0 0 0.

Record blk_registry := mk_registry {
  r_initialised : bool; r_layout_ready : bool; r_persistent_config_ready : bool;
  r_io_backend_ready : bool;
  r_device_count : Z; r_partition_count : Z;
  r_ready_partition_count : Z; r_persistent_partition_count : Z;
}.
#[export] Instance blk_registry_eta : Eta blk_registry := λ r,
  mk_registry (r_initialised r) (r_layout_ready r) (r_persistent_config_ready r)
    (r_io_backend_ready r) (r_device_count r) (r_partition_count r)
    (r_ready_partition_count r) (r_persistent_partition_count r).

Record blk := mk_blk {
  devices : list device;
  partitions : list partition;
  reg : blk_registry;
  next_device_id : Z;
  next_partition_id : Z;
}.
#[export] Instance blk_eta : Eta blk := λ b,
  mk_blk (devices b) (partitions b) (reg b) (next_device_id b) (next_partition_id b).

(** [copy_name] into a [char[AEGIS_BLOCK_NAME_MAX]]. *)
Definition blk_copy_name (src : option string) : string :=
  str_take (AEGIS_BLOCK_NAME_MAX - 1) (default "unnamed" src).
#[global] Arguments blk_copy_name : simpl never.

Definition block_storage_init (b : blk) : blk :=
  mk_blk ((λ _, zero_device) <$> devices b) ((λ _, zero_partition) <$> partitions b)
    (mk_registry true false false false 0 0 0 0) 1 1.

(** The entries a loop bounded by a count visits. *)
Definition block_storage_device_by_id (id : Z) (b : blk) : option nat :=
  find_slot (λ d, d_id d =? id) (take (Z.to_nat (r_device_count (reg b))) (devices b)).

Definition block_storage_find_partition (name : string) (b : blk) : option nat :=
  find_slot (λ p, negb (bool_decide (p_state p = PARTITION_EMPTY)) && c_streq (p_name p) name)
    (take (Z.to_nat (r_partition_count (reg b))) (partitions b)).

Definition block_storage_register_partition (device_id : Z) (name : option string)
    (start_lba block_count flags : Z) (b : blk) : Z * blk :=
  if negb (r_initialised (reg b)) || bool_decide (name = None) || (device_id =? 0) || (block_count =? 0)
  then (AEGIS_EINVAL, b)
  else if Z.of_nat AEGIS_BLOCK_PARTITION_MAX <=? r_partition_count (reg b) then (AEGIS_ENOMEM, b)
  else
    match block_storage_device_by_id device_id b ≫= (devices b !!.) with
    | None => (AEGIS_ENOENT, b)
    | Some dev =>
        if negb (bool_decide (d_state dev = DEVICE_READY)) then (AEGIS_ENOENT, b)
        else if (d_block_count dev <=? start_lba) || (d_block_count dev - start_lba <? block_count)
        then (AEGIS_EINVAL, b)
        else
          let fl := Z.lor flags AEGIS_BLOCK_FLAG_READABLE in
          let p := mk_partition (next_partition_id b) device_id (blk_copy_name name) PARTITION_READY
                     start_lba block_count fl in
          (AEGIS_OK,
           b <| partitions ::= <[Z.to_nat (r_partition_count (reg b)) := p]> |>
             <| next_partition_id := u32 (next_partition_id b + 1) |>
             <| reg ::= λ r,
                  r <| r_partition_count := u32 (r_partition_count r + 1) |>
                    <| r_ready_partition_count := u32 (r_ready_partition_count r + 1) |>
                    <| r_persistent_partition_count :=
                         if has_flag fl AEGIS_BLOCK_FLAG_PERSISTENT
                         then u32 (r_persistent_partition_count r + 1)
                         else r_persistent_partition_count r |> |>)
    end.

Definition non_overlap (a b : partition) : bool :=
  let ae := u64 (p_start_lba a + p_block_count a) in
  let be := u64 (p_start_lba b + p_block_count b) in
  (p_start_lba a <? ae) && (p_start_lba b <? be) && ((ae <=? p_start_lba b) || (be <=? p_start_lba a)).

(** The two nested loops of the self-test: each partition against the later ones. *)
Fixpoint layout_sound (l : list partition) : bool :=
  match l with
  | [] => true
  | p :: l =>
      bool_decide (p_state p = PARTITION_READY) && negb (p_block_count p =? 0)
      && forallb (non_overlap p) l && layout_sound l
  end.

Definition block_storage_selftest (b : blk) : Z :=
  if negb (r_initialised (reg b)) || negb (r_layout_ready (reg b))
     || negb (r_persistent_config_ready (reg b)) then AEGIS_EINVAL
  else if bool_decide (block_storage_find_partition "AEGIS_BOOT" b = None)
          || bool_decide (block_storage_find_partition "AEGIS_ROOT" b = None)
          || bool_decide (block_storage_find_partition "AEGIS_CONFIG" b = None) then AEGIS_ENOENT
  else if layout_sound (take (Z.to_nat (r_partition_count (reg b))) (partitions b))
       then AEGIS_OK else AEGIS_EINVAL.

Definition block_storage_device_state_name (s : device_state) : string :=
  match s with
  | DEVICE_EMPTY => "empty" | DEVICE_REGISTERED => "registered"
  | DEVICE_READY => "ready" | DEVICE_FAULTED => "faulted"
  end.

Definition block_storage_partition_state_name (s : partition_state) : string :=
  match s with
  | PARTITION_EMPTY => "empty" | PARTITION_DECLARED => "declared" | PARTITION_READY => "ready"
  end.

(** ** Operations that reach the driver *)

Section io.
Context {W : Type} (ops_at : nat → blk_ops W).

Definition block_storage_register_device (name : option string) (block_size block_count flags : Z)
    (ops : option nat) (driver_ctx : Z) (b : blk) : Z * Z * blk :=
  if negb (r_initialised (reg b)) || bool_decide (name = None) || (block_size =? 0) || (block_count =? 0)
  then (AEGIS_EINVAL, 0, b)
  else if Z.of_nat AEGIS_BLOCK_DEVICE_MAX <=? r_device_count (reg b) then (AEGIS_ENOMEM, 0, b)
  else
    let d := mk_device (next_device_id b) (blk_copy_name name) DEVICE_READY block_size block_count
               (Z.lor flags AEGIS_BLOCK_FLAG_READABLE) ops driver_ctx 0 0 0 in
    let readable := match ops ≫= λ o, bo_read (ops_at o) with Some _ => true | None => false end in
    (AEGIS_OK, next_device_id b,
     b <| devices ::= <[Z.to_nat (r_device_count (reg b)) := d]> |>
       <| next_device_id := u32 (next_device_id b + 1) |>
       <| reg ::= λ r, r <| r_device_count := u32 (r_device_count r + 1) |>
                         <| r_io_backend_ready ::= orb readable |> |>).

Definition flash_layout : list (string * Z * Z * Z) :=
  [("AEGIS_BOOT", 2048, 32768, AEGIS_BLOCK_FLAG_BOOT);
   ("AEGIS_ROOT", 67584, 327680, Z.lor AEGIS_BLOCK_FLAG_ROOT AEGIS_BLOCK_FLAG_WRITABLE);
   ("AEGIS_CONFIG", 395264, 65536,
    Z.lor AEGIS_BLOCK_FLAG_CONFIG (Z.lor AEGIS_BLOCK_FLAG_WRITABLE AEGIS_BLOCK_FLAG_PERSISTENT))].

Fixpoint register_all (dev_id : Z) (l : list (string * Z * Z * Z)) (b : blk) : Z * blk :=
  match l with
  | [] => (AEGIS_OK, b)
  | (name, start, count, flags) :: l =>
      let '(rc, b) := block_storage_register_partition dev_id (Some name) start count flags b in
      if rc =? AEGIS_OK then register_all dev_id l b else (rc, b)
  end.

Definition block_storage_register_v40_flash_layout (b : blk) : Z * blk :=
  if negb (r_initialised (reg b)) then (AEGIS_EINVAL, b)
  else if r_layout_ready (reg b) then (AEGIS_OK, b)
  else
    let '(rc, dev_id, b) :=
      if negb (r_device_count (reg b) =? 0)
      then (AEGIS_OK, from_option d_id 0 (devices b !! 0%nat), b)
      else block_storage_register_device (Some "aegis-flash0") 512 524288
             AEGIS_BLOCK_FLAG_WRITABLE None 0 b in
    if negb (rc =? AEGIS_OK) then (rc, b)
    else
      match block_storage_device_by_id dev_id b ≫= (devices b !!.) with
      | None => (AEGIS_EINVAL, b)
      | Some dev =>
          if d_block_count dev <? 460800 then (AEGIS_EINVAL, b)
          else
            let '(rc, b) := register_all dev_id flash_layout b in
            if negb (rc =? AEGIS_OK) then (rc, b)
            else
              let ready := bool_decide (is_Some (block_storage_find_partition "AEGIS_CONFIG" b)) in
              (if ready then AEGIS_OK else AEGIS_ENOENT,
               b <| reg ::= λ r, r <| r_layout_ready := true |>
                                   <| r_persistent_config_ready := ready |> |>)
      end.

(** The guard shared by reads and writes. *)
Definition in_device (d : device) (lba count : Z) : bool :=
  negb (count =? 0) && (lba <? d_block_count d) && (count <=? d_block_count d - lba).

Definition block_storage_read (device_id lba count : Z) (buffer : bool) (b : blk) (w : W)
    : Z * list Z * blk * W :=
  match block_storage_device_by_id device_id b with
  | None => (AEGIS_EINVAL, [], b, w)
  | Some i =>
      match devices b !! i with
      | None => (AEGIS_EINVAL, [], b, w)
      | Some d =>
          if negb (buffer && in_device d lba count) then (AEGIS_EINVAL, [], b, w)
          else
            match d_ops d ≫= λ o, bo_read (ops_at o) with
            | None => (AEGIS_ENOSYS, [], b, w)
            | Some f =>
                let '(rc, data, w) := f (d_ctx d) lba count w in
                (rc, data,
                 b <| devices ::= alter (λ d, if rc =? AEGIS_OK
                                              then d <| d_reads := u64 (d_reads d + count) |>
                                              else d <| d_io_errors := u64 (d_io_errors d + 1) |>) i |>, w)
            end
      end
  end.

Definition block_storage_write (device_id lba count : Z) (buffer : option (list Z)) (b : blk) (w : W)
    : Z * blk * W :=
  match block_storage_device_by_id device_id b with
  | None => (AEGIS_EINVAL, b, w)
  | Some i =>
      match devices b !! i, buffer with
      | Some d, Some data =>
          if negb (has_flag (d_flags d) AEGIS_BLOCK_FLAG_WRITABLE && in_device d lba count)
          then (AEGIS_EINVAL, b, w)
          else
            match d_ops d ≫= λ o, bo_write (ops_at o) with
            | None => (AEGIS_ENOSYS, b, w)
            | Some f =>
                let '(rc, w) := f (d_ctx d) lba count data w in
                (rc,
                 b <| devices ::= alter (λ d, if rc =? AEGIS_OK
                                              then d <| d_writes := u64 (d_writes d + count) |>
                                              else d <| d_io_errors := u64 (d_io_errors d + 1) |>) i |>, w)
            end
      | _, _ => (AEGIS_EINVAL, b, w)
      end
  end.

Definition block_storage_flush (device_id : Z) (b : blk) (w : W) : Z * W :=
  match block_storage_device_by_id device_id b ≫= (devices b !!.) with
  | None => (AEGIS_ENOENT, w)
  | Some d =>
      match d_ops d ≫= λ o, bo_flush (ops_at o) with
      | Some f => f (d_ctx d) w
      | None => (AEGIS_OK, w)
      end
  end.

Definition in_partition (p : partition) (rel count : Z) : bool :=
  (rel <? p_block_count p) && (count <=? p_block_count p - rel).

(** A partition pointer is an index of the table, [None] for NULL. *)
Definition block_partition_read (p : option nat) (rel count : Z) (buffer : bool) (b : blk) (w : W)
    : Z * list Z * blk * W :=
  match p ≫= (partitions b !!.) with
  | None => (AEGIS_EINVAL, [], b, w)
  | Some p =>
      if negb (in_partition p rel count) then (AEGIS_EINVAL, [], b, w)
      else block_storage_read (p_device_id p) (u64 (p_start_lba p + rel)) count buffer b w
  end.

Definition block_partition_write (p : option nat) (rel count : Z) (buffer : option (list Z))
    (b : blk) (w : W) : Z * blk * W :=
  match p ≫= (partitions b !!.) with
  | None => (AEGIS_EINVAL, b, w)
  | Some p =>
      if negb (has_flag (p_flags p) AEGIS_BLOCK_FLAG_WRITABLE && in_partition p rel count)
      then (AEGIS_EINVAL, b, w)
      else block_storage_write (p_device_id p) (u64 (p_start_lba p + rel)) count buffer b w
  end.

End io.

(** ** What a driver promises *)

Definition SECTOR : nat := 512.

(** The contents of [n] consecutive sectors. *)
Definition sectors (f : Z → list Z) (lba n : Z) : list Z := concat (f <$> seqZ lba n).

(** [sector w ctx i] is the content of sector [i] of the device behind [ctx];
    [good w] says that the device reports no I/O error from [w] on. *)
Class SectorDriver {W : Type} (ops : blk_ops W) (sector : W → Z → Z → list Z) (good : W → Prop) := {
  sd_length w c i : length (sector w c i) = SECTOR;
  sd_read f c lba n w rc data w' :
    bo_read ops = Some f → 0 ≤ lba → 0 < n → f c lba n w = (rc, data, w') →
    rc ≤ 0 ∧ (∀ c' i, sector w' c' i = sector w c' i) ∧
    (rc = AEGIS_OK → data = sectors (sector w c) lba n) ∧
    (good w → rc = AEGIS_OK ∧ good w');
  sd_write f c lba n data w rc w' :
    bo_write ops = Some f → 0 ≤ lba → 0 < n → Z.of_nat (length data) = n * Z.of_nat SECTOR →
    f c lba n data w = (rc, w') →
    rc ≤ 0 ∧ (∀ c' i, c' ≠ c ∨ ¬ (lba ≤ i < lba + n) → sector w' c' i = sector w c' i) ∧
    (rc = AEGIS_OK → sectors (sector w' c) lba n = data) ∧
    (good w → rc = AEGIS_OK ∧ good w');
  sd_flush f c w rc w' :
    bo_flush ops = Some f → f c w = (rc, w') →
    rc ≤ 0 ∧ (∀ c' i, sector w' c' i = sector w c' i) ∧ (good w → rc = AEGIS_OK ∧ good w');
}.

(** ** What the layer promises to a file system *)

(** The operations a file system uses, on a state [D] that holds the registry and
    the driver. *)
Class BlockLayer (D : Type) := {
  bl_find_partition : string → D → option nat;
  bl_partition : nat → D → option partition;
  bl_io_backend_ready : D → bool;
  bl_read : option nat → Z → Z → D → Z * list Z * D;
  bl_write : option nat → Z → Z → list Z → D → Z * D;
  bl_flush : Z → D → Z * D;
}.

(** Their laws for partition [p] in the states [ok]: [psector d i] is sector [i]
    of the partition, [healthy] states report no I/O error. *)
Class PartitionIO (D : Type) `{BlockLayer D} (p : nat) (pr : partition)
    (ok healthy : D → Prop) (psector : D → Z → list Z) := {
  pio_info d : ok d → bl_partition p d = Some pr;
  pio_length d i : length (psector d i) = SECTOR;
  pio_read d rel n rc data d' :
    ok d → 0 ≤ rel → 0 < n → bl_read (Some p) rel n d = (rc, data, d') →
    rc ≤ 0 ∧ ok d' ∧ (∀ i, psector d' i = psector d i) ∧
    (rc = AEGIS_OK → rel + n ≤ p_block_count pr ∧ data = sectors (psector d) rel n) ∧
    (healthy d → rel + n ≤ p_block_count pr → rc = AEGIS_OK ∧ healthy d');
  pio_write d rel n data rc d' :
    ok d → 0 ≤ rel → 0 < n → Z.of_nat (length data) = n * Z.of_nat SECTOR →
    bl_write (Some p) rel n data d = (rc, d') →
    rc ≤ 0 ∧ ok d' ∧ (∀ i, 0 ≤ i < p_block_count pr → ¬ (rel ≤ i < rel + n) → psector d' i = psector d i) ∧
    (rc = AEGIS_OK → rel + n ≤ p_block_count pr ∧ sectors (psector d') rel n = data) ∧
    (healthy d → rel + n ≤ p_block_count pr → rc = AEGIS_OK ∧ healthy d');
  pio_flush d rc d' :
    ok d → bl_flush (p_device_id pr) d = (rc, d') →
    rc ≤ 0 ∧ ok d' ∧ (∀ i, psector d' i = psector d i) ∧ (healthy d → rc = AEGIS_OK ∧ healthy d');
}.

(** ** Lemmas on the tables *)

Lemma list_find_ext_fmap {A} (f : A → bool) (l l' : list A) :
  f <$> l = f <$> l' → find_slot f l = find_slot f l'.
Proof.
  unfold find_slot. revert l'. induction l as [|x l IH]; intros [|y l'] [=]; [done|]. cbn.
  specialize (IH l' ltac:(done)).
  destruct (decide (f x = true)), (decide (f y = true)); try congruence; [done|].
  destruct (list_find _ l) as [[]|], (list_find _ l') as [[]|]; cbn in *; congruence.
Qed.

Lemma find_slot_take_alter {A} (f : A → bool) (g : A → A) k i (l : list A) :
  (∀ x, f (g x) = f x) → find_slot f (take k (alter g i l)) = find_slot f (take k l).
Proof.
  intros H. apply list_find_ext_fmap. rewrite !fmap_take. f_equal.
  apply list_eq. intros j. rewrite !list_lookup_fmap.
  destruct (decide (j = i)) as [->|]; [|by rewrite list_lookup_alter_ne].
  rewrite list_lookup_alter_eq. destruct (l !! i); cbn; [|done]. by rewrite H.
Qed.

(** The accounting of an access. *)
Definition count_io (is_read : bool) (rc count : Z) (d : device) : device :=
  if rc =? AEGIS_OK
  then if is_read then d <| d_reads := u64 (d_reads d + count) |>
       else d <| d_writes := u64 (d_writes d + count) |>
  else d <| d_io_errors := u64 (d_io_errors d + 1) |>.

Lemma device_by_id_count id b k r rc n :
  block_storage_device_by_id id (b <| devices ::= alter (count_io r rc n) k |>) =
  block_storage_device_by_id id b.
Proof.
  unfold block_storage_device_by_id. cbn. apply find_slot_take_alter.
  intros x. unfold count_io. by destruct (rc =? AEGIS_OK), r.
Qed.

Lemma device_by_id_lookup id b i :
  block_storage_device_by_id id b = Some i → ∃ d, devices b !! i = Some d ∧ d_id d = id.
Proof.
  intros (d & Hd & Hid & _)%find_slot_Some. apply lookup_take_Some in Hd as [Hd _].
  apply Z.eqb_eq in Hid. eauto.
Qed.

(** ** The registry invariant *)

(** Partitions end below 2^64, because devices do. *)
Definition blk_wf (b : blk) : Prop :=
  (∀ i d, devices b !! i = Some d → 0 ≤ d_block_count d < 2 ^ 64) ∧
  (∀ p pr, partitions b !! p = Some pr → Z.of_nat p < r_partition_count (reg b) →
           0 ≤ p_start_lba pr ∧ 0 ≤ p_block_count pr ∧ p_start_lba pr + p_block_count pr < 2 ^ 64).

Lemma block_storage_init_wf b : blk_wf (block_storage_init b).
Proof.
  split; cbn.
  - intros i d (? & -> & _)%list_lookup_fmap_Some. cbn. lia.
  - intros p pr _ Hp. lia.
Qed.

Lemma block_storage_register_device_wf {W} (ops_at : nat → blk_ops W) name bs bc fl ops ctx b :
  0 ≤ bc < 2 ^ 64 → blk_wf b →
  blk_wf (block_storage_register_device ops_at name bs bc fl ops ctx b).2.
Proof.
  intros Hbc [Hd Hp]. unfold block_storage_register_device.
  destruct (_ || _ || _ || _); [done|]. destruct (_ <=? _); [done|]. split; [|exact Hp].
  cbn. intros i d. destruct (decide (i = Z.to_nat (r_device_count (reg b)))) as [->|Hne].
  - intros Hl. pose proof (lookup_lt_Some _ _ _ Hl) as Hlt. rewrite length_insert in Hlt.
    rewrite list_lookup_insert_eq in Hl by done. by simplify_eq.
  - rewrite list_lookup_insert_ne by done. apply Hd.
Qed.

Lemma block_storage_register_partition_wf dev name start count fl b :
  0 ≤ start → 0 ≤ count → 0 ≤ r_partition_count (reg b) → blk_wf b →
  blk_wf (block_storage_register_partition dev name start count fl b).2.
Proof.
  intros Hs Hcnt Hc [Hd Hp]. unfold block_storage_register_partition.
  destruct (_ || _ || _ || _); [done|]. destruct (_ <=? _) eqn:Hmax; [done|].
  destruct (block_storage_device_by_id dev b) as [i|]; cbn [mbind option_bind]; [|done].
  destruct (devices b !! i) as [d|] eqn:Hi; [|done]. destruct (negb _); [done|].
  destruct (_ || _) eqn:Hr; [done|]. apply orb_false_iff in Hr as [H1 H2].
  split; [exact Hd|]. cbn. intros p pr Hl Hlt. specialize (Hd _ _ Hi).
  apply Z.leb_gt in Hmax. change (Z.of_nat AEGIS_BLOCK_PARTITION_MAX) with 16 in Hmax.
  rewrite u32_small in Hlt by lia.
  destruct (decide (p = Z.to_nat (r_partition_count (reg b)))) as [->|Hne].
  - pose proof (lookup_lt_Some _ _ _ Hl) as Hlen. rewrite length_insert in Hlen.
    rewrite list_lookup_insert_eq in Hl by done. simplify_eq. cbn. lia.
  - rewrite list_lookup_insert_ne in Hl by done. eapply Hp; [done|]. lia.
Qed.

(** ** The layer keeps its promise *)

Section layer.
Context {W : Type} (ops_at : nat → blk_ops W).
Context (sector : W → Z → Z → list Z) (good : W → Prop).
Context `{Hdrv : ∀ o, SectorDriver (ops_at o) sector good}.

#[export] Instance block_layer : BlockLayer (blk * W) := {
  bl_find_partition name d := block_storage_find_partition name d.1;
  bl_partition p d := partitions d.1 !! p;
  bl_io_backend_ready d := r_io_backend_ready (reg d.1);
  bl_read p rel n d := let '(rc, data, b, w) := block_partition_read ops_at p rel n true d.1 d.2 in
                       (rc, data, (b, w));
  bl_write p rel n data d := let '(rc, b, w) := block_partition_write ops_at p rel n (Some data) d.1 d.2 in
                             (rc, (b, w));
  bl_flush dev d := let '(rc, w) := block_storage_flush ops_at dev d.1 d.2 in (rc, (d.1, w));
}.

(** Partition [p], described by [pr], lies inside a writable device with a driver. *)
Definition part_ok (p : nat) (pr : partition) (ctx : Z) (b : blk) : Prop :=
  partitions b !! p = Some pr ∧
  ∃ i d o,
    block_storage_device_by_id (p_device_id pr) b = Some i ∧ devices b !! i = Some d ∧
    d_ctx d = ctx ∧ d_ops d = Some o ∧
    bo_read (ops_at o) ≠ None ∧ bo_write (ops_at o) ≠ None ∧
    has_flag (d_flags d) AEGIS_BLOCK_FLAG_WRITABLE = true ∧
    has_flag (p_flags pr) AEGIS_BLOCK_FLAG_WRITABLE = true ∧
    0 ≤ p_start_lba pr ∧ p_start_lba pr + p_block_count pr ≤ d_block_count d < 2 ^ 64.

Lemma part_ok_count p pr ctx b r rc n k :
  part_ok p pr ctx b → part_ok p pr ctx (b <| devices ::= alter (count_io r rc n) k |>).
Proof.
  intros (Hp & i & d & o & Hi & Hd & Hc & Ho & Hrest). split; [done|].
  exists i, (if decide (i = k) then count_io r rc n d else d), o. rewrite device_by_id_count.
  split; [done|]. split.
  { cbn. destruct (decide (i = k)) as [->|]; [by rewrite list_lookup_alter_eq, Hd|].
    by rewrite list_lookup_alter_ne. }
  case_decide; [|done]. unfold count_io. by destruct (rc =? AEGIS_OK), r.
Qed.

(** What an access leaves of the registry. *)
Inductive io_step (b : blk) : blk → Prop :=
| io_same : io_step b b
| io_counted r rc n k : io_step b (b <| devices ::= alter (count_io r rc n) k |>).

Lemma part_ok_io p pr ctx b b' : io_step b b' → part_ok p pr ctx b → part_ok p pr ctx b'.
Proof. intros []; [done|]. apply part_ok_count. Qed.

(** A device write changes no sector outside the range it names. *)
Lemma block_storage_write_confined id lba n data b w rc b' w' :
  0 ≤ lba → 0 ≤ n → Z.of_nat (length data) = n * Z.of_nat SECTOR →
  block_storage_write ops_at id lba n (Some data) b w = (rc, b', w') →
  io_step b b' ∧ (∀ c i, ¬ (lba ≤ i < lba + n) → sector w' c i = sector w c i).
Proof.
  intros Hlba Hn Hlen. unfold block_storage_write.
  destruct (block_storage_device_by_id id b) as [i|]; [|by intros [= <- <- <-]; split; [constructor|]].
  destruct (devices b !! i) as [d|]; [|by intros [= <- <- <-]; split; [constructor|]].
  destruct (_ && in_device d lba n) eqn:Hg; cbn [negb]; [|by intros [= <- <- <-]; split; [constructor|]].
  destruct (d_ops d) as [o|]; cbn [mbind option_bind]; [|by intros [= <- <- <-]; split; [constructor|]].
  destruct (bo_write (ops_at o)) as [f|] eqn:Hf; [|by intros [= <- <- <-]; split; [constructor|]].
  destruct (f _ _ _ _ w) as [rc1 w1] eqn:E. intros [= <- <- <-].
  apply andb_prop in Hg as [_ Hr]. unfold in_device in Hr. repeat rewrite andb_true_iff in Hr.
  assert (0 < n) as Hn' by (destruct Hr as [[Hr _] _]; rewrite negb_true_iff in Hr; lia).
  destruct (sd_write _ _ _ _ _ _ _ _ Hf Hlba Hn' Hlen E) as (_ & Hout & _ & _).
  split; [apply (io_counted b false rc1 n i)|]. intros c k Hk. apply Hout. by right.
Qed.

(** ** Accesses of a partition in range *)

Lemma block_partition_read_exec p pr ctx rel n b w :
  part_ok p pr ctx b → 0 ≤ rel → 0 < n →
  (rel + n ≤ p_block_count pr →
   ∃ i f o, bo_read (ops_at o) = Some f ∧
     block_partition_read ops_at (Some p) rel n true b w =
       let '(rc, data, w') := f ctx (p_start_lba pr + rel) n w in
       (rc, data, b <| devices ::= alter (count_io true rc n) i |>, w')) ∧
  (¬ rel + n ≤ p_block_count pr →
   block_partition_read ops_at (Some p) rel n true b w = (AEGIS_EINVAL, [], b, w)).
Proof.
  intros (Hp & i & d & o & Hi & Hd & Hc & Ho & Hr & Hw & Hdf & Hpf & Hs & Hin) Hrel Hn.
  unfold block_partition_read. cbn [mbind option_bind]. rewrite Hp. unfold in_partition. split; intros Hle.
  - destruct (bo_read (ops_at o)) as [f|] eqn:Hf; [|done]. exists i, f, o. split; [done|].
    rewrite (proj2 (Z.ltb_lt _ _)), (proj2 (Z.leb_le _ _)) by lia. cbn [negb andb].
    rewrite u64_small by lia. unfold block_storage_read. rewrite Hi, Hd. unfold in_device.
    rewrite (proj2 (Z.eqb_neq _ _)), (proj2 (Z.ltb_lt _ _)), (proj2 (Z.leb_le _ _)) by lia.
    cbn [negb andb]. rewrite Ho. cbn [mbind option_bind]. rewrite Hf, Hc. done.
  - destruct (_ && _) eqn:Hg; [|done]. apply andb_prop in Hg as [H1 H2]. lia.
Qed.

Lemma block_partition_write_exec p pr ctx rel n data b w :
  part_ok p pr ctx b → 0 ≤ rel → 0 < n →
  (rel + n ≤ p_block_count pr →
   ∃ i f o, bo_write (ops_at o) = Some f ∧
     block_partition_write ops_at (Some p) rel n (Some data) b w =
       let '(rc, w') := f ctx (p_start_lba pr + rel) n data w in
       (rc, b <| devices ::= alter (count_io false rc n) i |>, w')) ∧
  (¬ rel + n ≤ p_block_count pr →
   block_partition_write ops_at (Some p) rel n (Some data) b w = (AEGIS_EINVAL, b, w)).
Proof.
  intros (Hp & i & d & o & Hi & Hd & Hc & Ho & Hr & Hw & Hdf & Hpf & Hs & Hin) Hrel Hn.
  unfold block_partition_write. cbn [mbind option_bind]. rewrite Hp, Hpf. unfold in_partition.
  cbn [andb]. split; intros Hle.
  - destruct (bo_write (ops_at o)) as [f|] eqn:Hf; [|done]. exists i, f, o. split; [done|].
    rewrite (proj2 (Z.ltb_lt _ _)), (proj2 (Z.leb_le _ _)) by lia. cbn [negb andb].
    rewrite u64_small by lia. unfold block_storage_write. rewrite Hi, Hd, Hdf. unfold in_device.
    rewrite (proj2 (Z.eqb_neq _ _)), (proj2 (Z.ltb_lt _ _)), (proj2 (Z.leb_le _ _)) by lia.
    cbn [negb andb]. rewrite Ho. cbn [mbind option_bind]. rewrite Hf, Hc. done.
  - destruct (_ && _) eqn:Hg; [|done]. apply andb_prop in Hg as [H1 H2]. lia.
Qed.

Lemma sectors_shift (f : Z → list Z) k lba n : sectors (λ i, f (k + i)) lba n = sectors f (k + lba) n.
Proof.
  unfold sectors. f_equal. apply list_eq. intros j. rewrite !list_lookup_fmap.
  destruct (decide (Z.of_nat j < n)) as [Hj|Hj].
  - rewrite !lookup_seqZ_lt by lia. cbn. do 2 f_equal. lia.
  - rewrite !lookup_seqZ_ge by lia. done.
Qed.

(** The interface instance: any partition that satisfies [part_ok]. *)
#[export] Instance partition_io p pr ctx :
  PartitionIO (blk * W) p pr (λ d, part_ok p pr ctx d.1) (λ d, good d.2)
    (λ d i, sector d.2 ctx (p_start_lba pr + i)).
Proof.
  split.
  - intros d H. apply H.
  - intros d i. apply (sd_length (ops := ops_at 0)).
  - intros [b w] rel n rc data [b' w'] Hok Hrel Hn. cbn [bl_read block_layer fst snd].
    destruct (block_partition_read_exec p pr ctx rel n b w Hok Hrel Hn) as [Hin Hout].
    assert (0 ≤ p_start_lba pr + rel) as Hlba
      by (destruct Hok as (_ & ? & ? & ? & Hok); destruct_and! Hok; lia).
    destruct (decide (rel + n ≤ p_block_count pr)) as [Hle|Hgt].
    + destruct (Hin Hle) as (i & f & o & Hf & ->). destruct (f _ _ _ _) as [[rc1 data1] w1] eqn:E.
      intros [= <- <- <- <-].
      destruct (sd_read _ _ _ _ _ _ _ _ Hf Hlba Hn E) as (Hrc & Hs & Hd & Hg).
      split_and!; [done|by apply part_ok_count|done| |].
      * intros ->. split; [done|]. rewrite (sectors_shift (sector w ctx)). by apply Hd.
      * intros ? _. by apply Hg.
    + rewrite (Hout Hgt). intros [= <- <- <- <-]. split_and!; [done|done|done|done|lia].
  - intros [b w] rel n data rc [b' w'] Hok Hrel Hn Hlen. cbn [bl_write block_layer fst snd].
    destruct (block_partition_write_exec p pr ctx rel n data b w Hok Hrel Hn) as [Hin Hout].
    assert (0 ≤ p_start_lba pr + rel) as Hlba
      by (destruct Hok as (_ & ? & ? & ? & Hok); destruct_and! Hok; lia).
    destruct (decide (rel + n ≤ p_block_count pr)) as [Hle|Hgt].
    + destruct (Hin Hle) as (i & f & o & Hf & ->). destruct (f _ _ _ _ _) as [rc1 w1] eqn:E.
      intros [= <- <- <-].
      destruct (sd_write _ _ _ _ _ _ _ _ Hf Hlba Hn Hlen E) as (Hrc & Hs & Hd & Hg).
      split_and!; [done|by apply part_ok_count| | |].
      * intros k ? ?. apply Hs. right. lia.
      * intros ->. split; [done|]. rewrite (sectors_shift (sector w1 ctx)). by apply Hd.
      * intros ? _. by apply Hg.
    + rewrite (Hout Hgt). intros [= <- <- <-]. split_and!; [done|done|done|done|lia].
  - intros [b w] rc [b' w'] Hok. cbn [fst] in Hok. cbn [bl_flush block_layer fst snd]. unfold block_storage_flush.
    pose proof Hok as (Hp & i & d & o & Hi & Hd & Hc & Ho & _). rewrite Hi. cbn [mbind option_bind].
    rewrite Hd, Ho. cbn [mbind option_bind].
    destruct (bo_flush (ops_at o)) as [f|] eqn:Hf; [|intros [= <- <- <-]; by split_and!].
    destruct (f (d_ctx d) w) as [rc1 w1] eqn:E. intros [= <- <- <-].
    destruct (sd_flush _ _ _ _ _ Hf E) as (Hrc & Hs & Hg). by split_and!.
Qed.

(** ** Partitions do not interfere *)

Lemma layout_sound_disjoint l i j p q :
  layout_sound l = true → l !! i = Some p → l !! j = Some q → i ≠ j →
  non_overlap p q = true ∨ non_overlap q p = true.
Proof.
  revert i j. induction l as [|x l IH]; intros i j Hs Hi Hj Hne; [done|]. cbn in Hs.
  rewrite !andb_true_iff in Hs. destruct Hs as [[_ Hall] Hs].
  rewrite forallb_forall in Hall.
  destruct i as [|i], j as [|j]; cbn in Hi, Hj; simplify_eq.
  - left. apply Hall. apply list_elem_of_In. by eapply list_elem_of_lookup_2.
  - right. apply Hall. apply list_elem_of_In. by eapply list_elem_of_lookup_2.
  - eapply IH; [done..|lia].
Qed.

Lemma block_partition_write_confined p pr rel n data b w rc b' w' :
  partitions b !! p = Some pr → 0 ≤ p_start_lba pr → p_start_lba pr + p_block_count pr < 2 ^ 64 →
  0 ≤ rel → 0 ≤ n → Z.of_nat (length data) = n * Z.of_nat SECTOR →
  block_partition_write ops_at (Some p) rel n (Some data) b w = (rc, b', w') →
  io_step b b' ∧
  ∀ c i, ¬ (p_start_lba pr ≤ i < p_start_lba pr + p_block_count pr) → sector w' c i = sector w c i.
Proof.
  intros Hp Hs Hb Hrel Hn Hlen. unfold block_partition_write. cbn [mbind option_bind]. rewrite Hp.
  destruct (_ && in_partition pr rel n) eqn:Hg; cbn [negb]; [|by intros [= <- <- <-]; split; [constructor|]].
  apply andb_prop in Hg as [_ Hg]. unfold in_partition in Hg. apply andb_prop in Hg as [? ?].
  rewrite u64_small by lia. intros E. assert (0 ≤ p_start_lba pr + rel) as Hlba by lia.
  destruct (block_storage_write_confined _ _ _ _ _ _ _ _ _ Hlba Hn Hlen E) as [Hio Hout].
  split; [done|]. intros c i Hi. apply Hout. lia.
Qed.

Lemma block_storage_selftest_layout b :
  block_storage_selftest b = AEGIS_OK →
  layout_sound (take (Z.to_nat (r_partition_count (reg b))) (partitions b)) = true.
Proof. unfold block_storage_selftest. destruct (_ || _ || _); [done|]. destruct (_ || _ || _); [done|]. by destruct (layout_sound _). Qed.

(** C37: on a partition table that passes [block_storage_selftest], a write
    through one partition, whatever its arguments and whatever the driver reports,
    changes no sector of any other partition of the table, on any device. *)
Theorem partition_write_isolated p q pr qr rel n data b w rc b' w' :
  blk_wf b → block_storage_selftest b = AEGIS_OK →
  partitions b !! p = Some pr → partitions b !! q = Some qr → p ≠ q →
  Z.of_nat p < r_partition_count (reg b) → Z.of_nat q < r_partition_count (reg b) →
  0 ≤ rel → 0 ≤ n → Z.of_nat (length data) = n * Z.of_nat SECTOR →
  block_partition_write ops_at (Some p) rel n (Some data) b w = (rc, b', w') →
  ∀ c i, 0 ≤ i < p_block_count qr → sector w' c (p_start_lba qr + i) = sector w c (p_start_lba qr + i).
Proof.
  intros [_ Hwf] Ht Hp Hq Hne Hpc Hqc Hrel Hn Hlen E c i Hi.
  destruct (Hwf _ _ Hp Hpc) as (Hps & Hpn & Hpb), (Hwf _ _ Hq Hqc) as (Hqs & Hqn & Hqb).
  destruct (block_partition_write_confined p pr rel n data b w rc b' w') as [_ Hout]; [done..|].
  apply Hout.
  destruct (layout_sound_disjoint _ p q pr qr (block_storage_selftest_layout _ Ht)) as [Ho|Ho];
    [by apply lookup_take_Some; split; [|lia]..|done| |];
    unfold non_overlap in Ho; rewrite !u64_small in Ho by lia; lia.
Qed.

End layer.

(** ** A RAM disk *)

(** A driver for any number of devices: sectors in a finite map, zero where never
    written. *)
Notation ramdisk := (gmap (Z * Z) (list Z)).
Definition ram_sector (w : ramdisk) (c i : Z) : list Z := resize SECTOR 0 (default [] (w !! (c, i))).
Fixpoint ram_store (c lba : Z) (n : nat) (data : list Z) (w : ramdisk) : ramdisk :=
  match n with
  | O => w
  | S n => ram_store c (lba + 1) n (drop SECTOR data) (<[(c, lba) := take SECTOR data]> w)
  end.
Definition ramdisk_ops : blk_ops ramdisk :=
  mk_blk_ops (Some (λ c lba n w, (AEGIS_OK, sectors (ram_sector w c) lba n, w)))
    (Some (λ c lba n data w, (AEGIS_OK, ram_store c lba (Z.to_nat n) data w))) None.

Lemma ram_store_out c lba n data w c' i :
  c' ≠ c ∨ ¬ (lba ≤ i < lba + Z.of_nat n) → ram_sector (ram_store c lba n data w) c' i = ram_sector w c' i.
Proof.
  revert lba data w. induction n as [|n IH]; intros lba data w H; [done|]. cbn [ram_store].
  rewrite IH by lia. unfold ram_sector. rewrite lookup_insert_ne; [done|]. intros [= -> ->]. lia.
Qed.

Lemma ram_store_in c lba n data w :
  length data = (n * SECTOR)%nat →
  sectors (ram_sector (ram_store c lba n data w) c) lba (Z.of_nat n) = data.
Proof.
  revert lba data w. induction n as [|n IH]; intros lba data w Hlen; [by destruct data|].
  unfold sectors. rewrite seqZ_cons by lia. cbn [ram_store fmap list_fmap concat].
  replace (Z.pred (Z.of_nat (S n))) with (Z.of_nat n) by lia.
  replace (Z.succ lba) with (lba + 1) by lia. fold (sectors (ram_sector
    (ram_store c (lba + 1) n (drop SECTOR data) (<[(c, lba):=take SECTOR data]> w)) c) (lba + 1) (Z.of_nat n)).
  rewrite IH by (rewrite length_drop; lia). rewrite ram_store_out by lia.
  unfold ram_sector. rewrite lookup_insert_eq. cbn [default from_option id].
  assert (SECTOR = length (take SECTOR data)) as Hs by (rewrite length_take; lia).
  rewrite (resize_all_alt (take SECTOR data) SECTOR 0 Hs). apply take_drop.
Qed.

#[export] Instance ramdisk_driver : SectorDriver ramdisk_ops ram_sector (λ _, True).
Proof.
  split.
  - intros. apply length_resize.
  - intros f c lba n w rc data w' [= <-] ? ? [= <- <- <-]. by split_and!.
  - intros f c lba n data w rc w' [= <-] ? ? Hlen [= <- <-]. split_and!; [done| | |done].
    + intros c' i Hi. apply ram_store_out. lia.
    + intros _. replace n with (Z.of_nat (Z.to_nat n)) at 2 by lia. apply ram_store_in. lia.
  - by intros f c w rc w'.
Qed.

(** A registry with the release layout on a RAM disk. *)
Definition example_blk : blk :=
  let b := block_storage_init (mk_blk (replicate AEGIS_BLOCK_DEVICE_MAX zero_device)
             (replicate AEGIS_BLOCK_PARTITION_MAX zero_partition) (mk_registry false false false false 0 0 0 0) 0 0) in
  let b := (block_storage_register_device (λ _, ramdisk_ops) (Some "ram0") 512 524288
              AEGIS_BLOCK_FLAG_WRITABLE (Some 0%nat) 0 b).2 in
  (block_storage_register_v40_flash_layout (λ _, ramdisk_ops) b).2.

Lemma partition_write_isolated_witness :
  ram_sector (block_partition_write (λ _, ramdisk_ops) (Some 2%nat) 5 2 (Some (replicate 1024 7)) example_blk ∅).2
    0 (67584 + 327679) = ram_sector ∅ 0 (67584 + 327679).
Proof.
  destruct (block_partition_write (λ _, ramdisk_ops) (Some 2%nat) 5 2 (Some (replicate 1024 7)) example_blk ∅)
    as [[rc b'] w'] eqn:E. cbn [snd].
  assert (∃ pr qr, partitions example_blk !! 2%nat = Some pr ∧ partitions example_blk !! 1%nat = Some qr ∧
            p_start_lba qr = 67584 ∧ p_block_count qr = 327680) as (pr & qr & Hp & Hq & Hs & Hc)
    by (vm_compute; eexists _, _; split_and!; reflexivity).
  rewrite <-Hs.
  apply (partition_write_isolated (λ _, ramdisk_ops) ram_sector (λ _, True) 2 1 pr qr 5 2
           (replicate 1024 7) example_blk ∅ rc b' w'); try done; try lia; [|vm_compute; reflexivity..].
  split.
  - intros i d Hd. pose proof (lookup_lt_Some _ _ _ Hd) as Hlt. change (length _) with 8%nat in Hlt.
    do 8 (destruct i as [|i]; [vm_compute in Hd; injection Hd as <-; cbn; lia|]). lia.
  - intros i d Hd Hlt. change (r_partition_count _) with 3 in Hlt.
    do 3 (destruct i as [|i]; [vm_compute in Hd; injection Hd as <-; cbn; lia|]). lia.
Defined.
