(* ===== verification/AegisFs.v ===== *)
(** The persistent file system: fs/aegisfs.c, on one partition of the block layer
    and mounted through the file system switch.

    The operations are written against the class [BlockLayer] of [Block] and
    proved against the laws [PartitionIO]. Files are copy-on-write: a write puts
    the whole new image into fresh sectors, then the directory, then the
    superblock that holds the directory's checksum. The abstraction is the map
    from names to contents. *)

From S2P Require Import Prelude Vfs Block.

Definition AEGISFS_MAGIC : Z := 0x53464741.
Definition AEGISFS_VERSION : Z := 1.
Definition AEGISFS_MAX_FILES : nat := 64.
Definition AEGISFS_NAME_MAX : nat := 80.
Definition AEGISFS_DIR_LBA : Z := 1.
Definition AEGISFS_DIR_SECTORS : Z := 16.
Definition AEGISFS_DATA_LBA : Z := AEGISFS_DIR_LBA + AEGISFS_DIR_SECTORS.
Definition AEGISFS_MAX_FILE_BYTES : Z := 64 * 1024.

Record aegisfs_superblock := mk_sb {
  sb_magic : Z; sb_version : Z; sb_generation : Z; sb_file_count : Z;
  sb_next_free_lba : Z; sb_partition_blocks : Z;
  sb_directory_crc : Z; sb_flags : Z;
  sb_reserved : list Z;
}.
#[export] Instance aegisfs_superblock_eta : Eta aegisfs_superblock := λ s,
  mk_sb (sb_magic s) (sb_version s) (sb_generation s) (sb_file_count s) (sb_next_free_lba s)
    (sb_partition_blocks s) (sb_directory_crc s) (sb_flags s) (sb_reserved s).

Record aegisfs_entry := mk_entry {
  e_valid : Z; e_generation : Z; e_start_lba : Z; e_sectors : Z; e_size : Z; e_data_crc : Z;
  e_name : list Z; e_reserved : list Z;
}.
#[export] Instance aegisfs_entry_eta : Eta aegisfs_entry := λ e,
  mk_entry (e_valid e) (e_generation e) (e_start_lba e) (e_sectors e) (e_size e) (e_data_crc e)
    (e_name e) (e_reserved e).

Record agfs := mk_agfs {
  g_part : option nat;
  g_sb : aegisfs_superblock;
  g_entries : list aegisfs_entry;
  g_mounted : bool;
  g_writable : bool;
}.
#[export] Instance agfs_eta : Eta agfs := λ s,
  mk_agfs (g_part s) (g_sb s) (g_entries s) (g_mounted s) (g_writable s).

(** ** Memory images of the packed structures *)

Definition sb_image (s : aegisfs_superblock) : list Z :=
  le 4 (sb_magic s) ++ le 4 (sb_version s) ++ le 4 (sb_generation s) ++ le 4 (sb_file_count s) ++
  le 8 (sb_next_free_lba s) ++ le 8 (sb_partition_blocks s) ++
  le 4 (sb_directory_crc s) ++ le 4 (sb_flags s) ++ sb_reserved s.

Definition sb_of (l : list Z) : aegisfs_superblock :=
  mk_sb (from_le (field 0 4 l)) (from_le (field 4 4 l)) (from_le (field 8 4 l)) (from_le (field 12 4 l))
    (from_le (field 16 8 l)) (from_le (field 24 8 l)) (from_le (field 32 4 l)) (from_le (field 36 4 l))
    (field 40 472 l).

Definition entry_image (e : aegisfs_entry) : list Z :=
  le 4 (e_valid e) ++ le 4 (e_generation e) ++ le 8 (e_start_lba e) ++ le 4 (e_sectors e) ++
  le 4 (e_size e) ++ le 4 (e_data_crc e) ++ e_name e ++ e_reserved e.

Definition entry_of (l : list Z) : aegisfs_entry :=
  mk_entry (from_le (field 0 4 l)) (from_le (field 4 4 l)) (from_le (field 8 8 l)) (from_le (field 16 4 l))
    (from_le (field 20 4 l)) (from_le (field 24 4 l)) (field 28 80 l) (field 108 20 l).

Definition ENTRY : nat := 128.
Definition dir_image (l : list aegisfs_entry) : list Z := concat (entry_image <$> l).
Fixpoint dir_of (n : nat) (l : list Z) : list aegisfs_entry :=
  match n with
  | O => []
  | S n => entry_of (take ENTRY l) :: dir_of n (drop ENTRY l)
  end.

Definition zero_sb : aegisfs_superblock := mk_sb 0 0 0 0 0 0 0 0 (replicate 472 0).
Definition zero_entry : aegisfs_entry := mk_entry 0 0 0 0 0 0 (replicate AEGISFS_NAME_MAX 0) (replicate 20 0).

(** ** Strings and checksum *)

(** [streq] of the name array of an entry with a string; a name that is not
    terminated within its array equals no string. *)
Fixpoint streq (a b : list Z) : bool :=
  match a, b with
  | x :: a, y :: b => if x =? 0 then false else if x =? y then streq a b else false
  | x :: _, [] => x =? 0
  | [], _ => false
  end.

(** [copy_name] into a zeroed array of [AEGISFS_NAME_MAX] bytes. *)
Definition copy_name (s : string) : list Z :=
  resize AEGISFS_NAME_MAX 0 (take (AEGISFS_NAME_MAX - 1) (bytes_of s)).
#[global] Arguments copy_name : simpl never.

Definition crc_bit (c : Z) : Z :=
  Z.lxor (Z.shiftr c 1) (Z.land (u32 (0 - Z.land c 1)) 0xedb88320).
Definition crc32 (data : list Z) : Z :=
  u32 (Z.lnot (foldl (λ c b, Nat.iter 8 crc_bit (Z.lxor c b)) 0xffffffff data)).

Fixpoint skip_slashes (s : string) : string :=
  match s with String c s' => if Ascii.eqb c slash then skip_slashes s' else s | EmptyString => s end.

(** ** The directory *)

Definition find_entry (name : option string) (l : list aegisfs_entry) : option nat :=
  match name with
  | None => None
  | Some name =>
      find_slot (λ e, negb (e_valid e =? 0) && streq (e_name e) (bytes_of (skip_slashes name))) l
  end.

Definition alloc_entry (name : string) (s : agfs) : option (nat * agfs) :=
  i ← find_slot (λ e, e_valid e =? 0) (g_entries s);
  Some (i, s <| g_entries ::= <[i := zero_entry <| e_valid := 1 |> <| e_name := copy_name name |>]> |>
             <| g_sb ::= λ b, b <| sb_file_count := u32 (sb_file_count b + 1) |> |>).

Section aegisfs.
Context {D : Type} `{BlockLayer D}.
Notation W := (agfs * D)%type.

Definition persist_metadata (w : W) : Z * W :=
  let '(s, d) := w in
  match g_part s with
  | None => (AEGIS_ESHUTDOWN, w)
  | Some p =>
      if negb (g_writable s) then (AEGIS_ESHUTDOWN, w)
      else
        let s := s <| g_sb ::= λ b, b <| sb_directory_crc := crc32 (dir_image (g_entries s)) |> |> in
        let '(rc, d) := bl_write (Some p) AEGISFS_DIR_LBA AEGISFS_DIR_SECTORS (dir_image (g_entries s)) d in
        if negb (rc =? AEGIS_OK) then (rc, (s, d))
        else
          let '(rc, d) := bl_write (Some p) 0 1 (sb_image (g_sb s)) d in
          if negb (rc =? AEGIS_OK) then (rc, (s, d))
          else
            let '(rc, d) := bl_flush (from_option p_device_id 0 (bl_partition p d)) d in
            (rc, (s, d))
  end.

Definition format_fs (w : W) : Z * W :=
  let '(s, d) := w in
  let blocks := from_option p_block_count 0 (g_part s ≫= λ p, bl_partition p d) in
  persist_metadata
    (s <| g_sb := zero_sb <| sb_magic := AEGISFS_MAGIC |> <| sb_version := AEGISFS_VERSION |>
                          <| sb_generation := 1 |> <| sb_next_free_lba := AEGISFS_DATA_LBA |>
                          <| sb_partition_blocks := blocks |> |>
       <| g_entries := replicate AEGISFS_MAX_FILES zero_entry |>, d).

Definition agfs_read (v : vnode) (offset : Z) (buf : bool) (len : Z) (w : W) : option (Z * list Z * W) :=
  let '(s, d) := w in
  if negb buf then Some (AEGIS_EINVAL, [], w)
  else
    match find_entry (priv_path v) (g_entries s) ≫= (g_entries s !!.) with
    | None => Some (AEGIS_ENOENT, [], w)
    | Some e =>
        if e_size e <=? offset then Some (0, [], w)
        else
          let len := if e_size e - offset <? len then e_size e - offset else len in
          let first := offset `div` 512 in
          let last := (offset + len + 511) `div` 512 in
          let sectors := u32 (last - first) in
          if 128 <? sectors then Some (AEGIS_EINVAL, [], w)
          else
            let '(rc, bounce, d) := bl_read (g_part s) (u64 (e_start_lba e + first)) sectors d in
            if negb (rc =? AEGIS_OK) then Some (rc, [], (s, d))
            else Some (s32 len, take (Z.to_nat len) (drop (Z.to_nat (offset `mod` 512)) bounce), (s, d))
    end.

(** The entry a write goes to: the file's, or a new one. *)
Definition entry_for (name : string) (s : agfs) : option (nat * agfs) :=
  match find_entry (Some name) (g_entries s) with
  | Some i => Some (i, s)
  | None => alloc_entry name s
  end.

(** [copy_bytes(image + offset, buf, len)]. *)
Definition overwrite (offset : Z) (buf image : list Z) : list Z :=
  take (Z.to_nat offset) image ++ buf ++ drop (Z.to_nat offset + length buf) image.

(** The bytes of the file before the write, in an image of [sectors] sectors. *)
Definition old_image (p : nat) (e : aegisfs_entry) (sectors : Z) (d : D) : Z * list Z * D :=
  let zeros := replicate (Z.to_nat (sectors * 512)) 0 in
  if e_size e =? 0 then (AEGIS_OK, zeros, d)
  else
    let '(rc, old, d) := bl_read (Some p) (e_start_lba e) (u32 (e_size e + 511) `div` 512) d in
    (rc, overwrite 0 old zeros, d).

(** The new image into free sectors, the entry and the metadata. *)
Definition commit_image (v : vnode) (i p : nat) (e : aegisfs_entry) (new_size sectors len : Z)
    (image : list Z) (w : W) : Z * vnode * W :=
  let '(s, d) := w in
  let new_lba := sb_next_free_lba (g_sb s) in
  let '(rc, d) := bl_write (Some p) new_lba sectors image d in
  if negb (rc =? AEGIS_OK) then (rc, v, (s, d))
  else
    let gen := u32 (sb_generation (g_sb s) + 1) in
    let e' := e <| e_start_lba := new_lba |> <| e_sectors := sectors |>
                <| e_size := new_size |> <| e_generation := gen |>
                <| e_data_crc := crc32 (take (Z.to_nat new_size) image) |> in
    let s := s <| g_entries ::= <[i := e']> |>
               <| g_sb ::= λ b, b <| sb_generation := gen |>
                                  <| sb_next_free_lba := u64 (new_lba + sectors) |> |> in
    let '(rc, w) := persist_metadata (s, d) in
    if rc =? AEGIS_OK then (s32 len, v <| vn_size := new_size |>, w) else (rc, v, w).

Definition agfs_write (v : vnode) (offset : Z) (buf : option (list Z)) (w : W) : option (Z * vnode * W) :=
  let '(s, d) := w in
  match buf with
  | None => Some (AEGIS_EINVAL, v, w)
  | Some buf =>
      let len := Z.of_nat (length buf) in
      if negb (g_writable s) || (len =? 0) then Some (AEGIS_EINVAL, v, w)
      else if AEGISFS_MAX_FILE_BYTES <? u64 (offset + len) then Some (AEGIS_ENOSPC, v, w)
      else
        path ← priv_path v;
        let name := skip_slashes path in
        if c_streq name EmptyString then Some (AEGIS_EINVAL, v, w)
        else
          match entry_for name s with
          | None => Some (AEGIS_ENOSPC, v, w)
          | Some (i, s) =>
              e ← g_entries s !! i;
              p ← g_part s;
              part ← bl_partition p d;
              let new_size := u32 (offset + len) in
              let new_size := if new_size <? e_size e then e_size e else new_size in
              let sectors := u32 (new_size + 511) `div` 512 in
              if p_block_count part <? u64 (sb_next_free_lba (g_sb s) + sectors)
              then Some (AEGIS_ENOSPC, v, (s, d))
              else if AEGISFS_MAX_FILE_BYTES <? sectors * 512 then None
              else
                let '(rc, image, d) := old_image p e sectors d in
                if negb (rc =? AEGIS_OK) then Some (rc, v, (s, d))
                else if AEGISFS_MAX_FILE_BYTES <? offset + len then None
                else Some (commit_image v i p e new_size sectors len (overwrite offset buf image) (s, d))
          end
  end.

Definition agfs_readdir (v : vnode) (index : Z) (name : bool) (w : W) : option (Z * string) :=
  if negb name then Some (AEGIS_EINVAL, EmptyString)
  else
    match filter (λ e, e_valid e ≠ 0) (g_entries w.1) !! Z.to_nat index with
    | Some e => Some (AEGIS_OK, c_string (take (AEGISFS_NAME_MAX - 1) (e_name e)))
    | None => Some (AEGIS_ENOENT, EmptyString)
    end.

Definition agfs_stat (v : vnode) (out : bool) (w : W) : option (Z * Z) :=
  if negb out then Some (AEGIS_EINVAL, 0)
  else
    match find_entry (priv_path v) (g_entries w.1) ≫= (g_entries w.1 !!.) with
    | None => Some (AEGIS_ENOENT, 0)
    | Some e => Some (AEGIS_OK, e_size e)
    end.

Definition g_ops : vnode_ops W := mk_ops (Some agfs_read) (Some agfs_write) (Some agfs_readdir) (Some agfs_stat).
Definition g_fs_vfs : vfs W := mk_vfs "aegisfs" None (Some g_ops).

Definition aegisfs_is_mounted (w : W) : bool := g_mounted w.1.
Definition aegisfs_is_writable (w : W) : bool := g_writable w.1.
Definition aegisfs_file_count (w : W) : Z := sb_file_count (g_sb w.1).
Definition aegisfs_generation (w : W) : Z := sb_generation (g_sb w.1).
Definition aegisfs_sync (w : W) : Z * W := persist_metadata w.

(** [g_fs] is the address of the file system descriptor. *)
Context (vfs_at : nat → vfs W) (g_fs : nat).

(** The part of the mount that reads or formats the partition. *)
Definition load_fs (blocks : Z) (w : W) : Z * W :=
  let '(s, d) := w in
  let '(rc, block, d) := bl_read (g_part s) 0 1 d in
  if negb (rc =? AEGIS_OK) then (rc, (s, d))
  else
    let sb := sb_of block in
    let s := s <| g_sb := sb |> in
    if negb (sb_magic sb =? AEGISFS_MAGIC) || negb (sb_version sb =? AEGISFS_VERSION)
       || negb (sb_partition_blocks sb =? blocks)
    then format_fs (s, d)
    else
      let '(rc, dir, d) := bl_read (g_part s) AEGISFS_DIR_LBA AEGISFS_DIR_SECTORS d in
      if negb (rc =? AEGIS_OK) then (rc, (s, d))
      else
        let s := s <| g_entries := dir_of AEGISFS_MAX_FILES dir |> in
        (if crc32 (dir_image (g_entries s)) =? sb_directory_crc sb then AEGIS_OK else AEGIS_EIO, (s, d)).

Definition aegisfs_mount_persistent (vs : vfs_state) (w : W) : Z * vfs_state * W :=
  let '(s, d) := w in
  if g_mounted s then (AEGIS_OK, vs, w)
  else
    let part := bl_find_partition "AEGIS_CONFIG" d in
    let s := s <| g_part := part |> in
    match part ≫= λ p, bl_partition p d with
    | None => (AEGIS_ENOENT, vs, (s, d))
    | Some info =>
        let writable := bl_io_backend_ready d && has_flag (p_flags info) AEGIS_BLOCK_FLAG_WRITABLE in
        let s := s <| g_writable := writable |> in
        if negb writable then (AEGIS_ENOSYS, vs, (s, d))
        else
          let '(rc, (s, d)) := load_fs (p_block_count info) (s, d) in
          if negb (rc =? AEGIS_OK) then (rc, vs, (s, d))
          else
            let '(rc, vs, (s, d)) := vfs_mount vfs_at (Some "/persist") (Some g_fs) vs (s, d) in
            if negb (rc =? AEGIS_OK) then (rc, vs, (s, d))
            else (AEGIS_OK, vs, (s <| g_mounted := true |>, d))
    end.

Definition selftest_data : list Z := bytes_of "aegisfs-pr1" ++ [0].

Definition aegisfs_selftest (vs : vfs_state) (w : W) : option (Z * vfs_state * W) :=
  if negb (g_mounted w.1) || negb (g_writable w.1) then Some (AEGIS_EINVAL, vs, w)
  else
    match vfs_open vfs_at (Some "/persist/.pr1-selftest") vs with
    | (None, vs) => Some (AEGIS_EIO, vs, w)
    | (vn, vs) =>
        '(rc, vs, w) ← vfs_write vfs_at vn 0 (Some selftest_data) vs w;
        if negb (rc =? Z.of_nat (length selftest_data)) then Some (AEGIS_EIO, vfs_close vn vs, w)
        else
          '(rc, out, w) ← vfs_read vfs_at vn 0 true (Z.of_nat (length selftest_data)) vs w;
          let vs := vfs_close vn vs in
          if negb (rc =? Z.of_nat (length selftest_data)) then Some (AEGIS_EIO, vs, w)
          else if bool_decide (out = selftest_data) then Some (AEGIS_OK, vs, w)
          else Some (AEGIS_EIO, vs, w)
    end.

End aegisfs.

(** ** Images and their inverses *)

Lemma field_here n (a l : list Z) : length a = n → field 0 n (a ++ l) = a.
Proof. intros <-. unfold field. by rewrite drop_0, take_app_length. Qed.

Lemma field_skip o n (a l : list Z) : (length a ≤ o)%nat → field o n (a ++ l) = field (o - length a) n l.
Proof. intros Ho. unfold field. by rewrite drop_app_ge. Qed.

Lemma field_all n (l : list Z) : length l = n → field 0 n l = l.
Proof. intros <-. unfold field. by rewrite drop_0, firstn_all. Qed.

(** Reads one field of an image built with [++]. *)
Ltac read_field :=
  repeat (rewrite field_skip by (rewrite le_length by lia; cbn; lia);
          rewrite le_length by lia; cbn [Z.to_nat Pos.to_nat Pos.iter_op Nat.add Nat.sub]).

Definition sb_wf (s : aegisfs_superblock) : Prop :=
  0 ≤ sb_magic s < 2 ^ 32 ∧ 0 ≤ sb_version s < 2 ^ 32 ∧ 0 ≤ sb_generation s < 2 ^ 32 ∧
  0 ≤ sb_file_count s < 2 ^ 32 ∧ 0 ≤ sb_next_free_lba s < 2 ^ 64 ∧ 0 ≤ sb_partition_blocks s < 2 ^ 64 ∧
  0 ≤ sb_directory_crc s < 2 ^ 32 ∧ 0 ≤ sb_flags s < 2 ^ 32 ∧ length (sb_reserved s) = 472%nat.

Definition entry_wf (e : aegisfs_entry) : Prop :=
  0 ≤ e_valid e < 2 ^ 32 ∧ 0 ≤ e_generation e < 2 ^ 32 ∧ 0 ≤ e_start_lba e < 2 ^ 64 ∧
  0 ≤ e_sectors e < 2 ^ 32 ∧ 0 ≤ e_size e < 2 ^ 32 ∧ 0 ≤ e_data_crc e < 2 ^ 32 ∧
  length (e_name e) = AEGISFS_NAME_MAX ∧ length (e_reserved e) = 20%nat.

Lemma sb_image_length s : sb_wf s → length (sb_image s) = SECTOR.
Proof.
  intros (_ & _ & _ & _ & _ & _ & _ & _ & Hr). unfold sb_image.
  rewrite !length_app, !le_length by lia. rewrite Hr. reflexivity.
Qed.

Lemma entry_image_length e : entry_wf e → length (entry_image e) = ENTRY.
Proof.
  intros (_ & _ & _ & _ & _ & _ & Hn & Hr). unfold entry_image.
  rewrite !length_app, !le_length by lia. rewrite Hn, Hr. reflexivity.
Qed.

Lemma sb_of_image s : sb_wf s → sb_of (sb_image s) = s.
Proof.
  intros (? & ? & ? & ? & ? & ? & ? & ? & Hr). unfold sb_of, sb_image. destruct s; cbn in *.
  f_equal.
  all: read_field.
  all: try (rewrite field_here by (by rewrite le_length by lia); apply from_le_le; lia).
  by apply field_all.
Qed.

Lemma entry_of_image e : entry_wf e → entry_of (entry_image e) = e.
Proof.
  intros (? & ? & ? & ? & ? & ? & Hn & Hr). unfold entry_of, entry_image. destruct e; cbn in *.
  f_equal.
  all: read_field.
  all: try (rewrite field_here by (by rewrite le_length by lia); apply from_le_le; lia).
  - by apply field_here.
  - rewrite field_skip by (rewrite Hn; unfold AEGISFS_NAME_MAX; lia). rewrite Hn. by apply field_all.
Qed.

Lemma dir_image_length l : Forall entry_wf l → length (dir_image l) = (length l * ENTRY)%nat.
Proof.
  induction 1 as [|e l He _ IH]; [done|]. unfold dir_image in *. cbn [fmap list_fmap concat length].
  rewrite length_app, IH, entry_image_length by done. lia.
Qed.

Lemma dir_of_image l : Forall entry_wf l → dir_of (length l) (dir_image l) = l.
Proof.
  induction 1 as [|e l He _ IH]; [done|]. unfold dir_image in *. cbn [fmap list_fmap concat length dir_of].
  rewrite <-(entry_image_length e He). rewrite take_app_length, drop_app_length, IH.
  by rewrite entry_of_image.
Qed.

Lemma zero_entry_wf : entry_wf zero_entry.
Proof. repeat split; cbn; lia. Qed.

(** ** Sectors *)

Lemma sectors_length f lba n :
  (∀ i, length (f i) = SECTOR) → 0 ≤ n → length (sectors f lba n) = (Z.to_nat n * SECTOR)%nat.
Proof.
  intros Hf Hn. unfold sectors. rewrite <-(Z2Nat.id n) at 1 by done.
  generalize (Z.to_nat n) as k; clear n Hn. intros k. revert lba.
  induction k as [|k IH]; intros lba; [done|].
  rewrite seqZ_cons by lia. cbn [fmap list_fmap concat]. rewrite length_app, Hf.
  replace (Z.pred (Z.of_nat (S k))) with (Z.of_nat k) by lia. rewrite IH. lia.
Qed.

Lemma sectors_ext f g lba n : (∀ i, lba ≤ i < lba + n → f i = g i) → sectors f lba n = sectors g lba n.
Proof.
  intros H. unfold sectors. f_equal. apply list_fmap_ext. intros j i Hi.
  apply lookup_seqZ in Hi as [-> ?]. apply H. lia.
Qed.

Lemma sectors_app f lba m n : 0 ≤ m → 0 ≤ n → sectors f lba (m + n) = sectors f lba m ++ sectors f (lba + m) n.
Proof. intros. unfold sectors. by rewrite seqZ_app, fmap_app, concat_app by lia. Qed.

Lemma sb_wf_crc b c : sb_wf b → 0 ≤ c < 2 ^ 32 → sb_wf (b <| sb_directory_crc := c |>).
Proof. unfold sb_wf. cbn. lia. Qed.

(** ** Names *)

Lemma streq_padded (a b : list Z) k :
  Forall (λ x, x ≠ 0) a → Forall (λ x, x ≠ 0) b → streq (a ++ replicate (S k) 0) b = true ↔ a = b.
Proof.
  intros Ha. revert b. induction Ha as [|x a Hx _ IH]; intros b Hb.
  - destruct b as [|y b]; cbn; [done|]. by split.
  - destruct b as [|y b]; cbn.
    + split; [|done]. intros ?%Z.eqb_eq. done.
    + rewrite (proj2 (Z.eqb_neq x 0)) by done. apply Forall_cons in Hb as [_ Hb].
      destruct (Z.eqb_spec x y) as [->|]; [|split; congruence]. rewrite IH by done.
      split; congruence.
Qed.

Lemma copy_name_padded s :
  (length (bytes_of s) < AEGISFS_NAME_MAX)%nat →
  ∃ k, copy_name s = bytes_of s ++ replicate (S k) 0.
Proof.
  intros Hl. exists (AEGISFS_NAME_MAX - 1 - length (bytes_of s))%nat. unfold copy_name.
  rewrite take_ge by (unfold AEGISFS_NAME_MAX in *; lia). rewrite resize_spec, take_ge by lia.
  do 2 f_equal. unfold AEGISFS_NAME_MAX in *. lia.
Qed.

Lemma streq_copy_name a b :
  c_str a → c_str b → (length (bytes_of a) < AEGISFS_NAME_MAX)%nat →
  streq (copy_name a) (bytes_of b) = bool_decide (a = b).
Proof.
  intros Ha Hb Hl. destruct (copy_name_padded a Hl) as [k ->].
  apply eq_bool_prop_intro. rewrite bool_decide_spec, Is_true_true, streq_padded by done.
  split; [apply bytes_of_inj|by intros ->].
Qed.

Lemma copy_name_length s : length (copy_name s) = AEGISFS_NAME_MAX.
Proof. apply length_resize. Qed.

Lemma skip_slashes_idem s : skip_slashes (skip_slashes s) = skip_slashes s.
Proof.
  induction s as [|c s IH]; cbn; [done|]. destruct (Ascii.eqb c slash) eqn:E; [done|]. cbn. by rewrite E.
Qed.

(** The test of [find_entry]. *)
Definition names (name : string) (e : aegisfs_entry) : bool :=
  negb (e_valid e =? 0) && streq (e_name e) (bytes_of name).

Lemma find_entry_names name l :
  skip_slashes name = name → find_entry (Some name) l = find_slot (names name) l.
Proof. intros Hn. unfold find_entry. by rewrite Hn. Qed.

(** ** Invariant and abstraction *)

Definition nsec (size : Z) : Z := (size + 511) `div` 512.


(** ** Lists of bytes *)

(** The content [c] after [pwrite(data, offset)]: zero-filled up to the offset. *)
Definition written (off : nat) (data c : list Z) : list Z :=
  resize off 0 c ++ data ++ drop (off + length data) c.

Lemma overwrite_0 (old image : list Z) : overwrite 0 old image = old ++ drop (length old) image.
Proof. done. Qed.

Lemma overwrite_padded off (buf c : list Z) k :
  0 ≤ off → (Z.to_nat off + length buf ≤ length c + k)%nat →
  overwrite off buf (c ++ replicate k 0) =
    written (Z.to_nat off) buf c ++ replicate (length c + k - Nat.max (length c) (Z.to_nat off + length buf)) 0.
Proof.
  intros Hoff Hk. unfold overwrite, written. rewrite resize_spec, take_app, take_replicate.
  rewrite Nat.min_l by lia. rewrite drop_app, drop_replicate, <-!app_assoc.
  do 4 f_equal. f_equal. lia.
Qed.

Lemma written_length off (data c : list Z) :
  (0 < length data)%nat → length (written off data c) = Nat.max (length c) (off + length data).
Proof. intros ?. unfold written. rewrite !length_app, length_resize, length_drop. lia. Qed.

(** A slice of consecutive sectors through the sectors that cover it. *)
Lemma sectors_slice f start size off len :
  (∀ i, length (f i) = SECTOR) → 0 ≤ off → 0 ≤ len → off + len ≤ size →
  let n := (off + len + 511) `div` 512 - off `div` 512 in
  take (Z.to_nat len) (drop (Z.to_nat (off `mod` 512)) (sectors f (start + off `div` 512) n)) =
  take (Z.to_nat len) (drop (Z.to_nat off) (take (Z.to_nat size) (sectors f start (nsec size)))).
Proof.
  intros Hf Hoff Hlen Hsize n. rewrite skipn_firstn_comm, take_take, Nat.min_l by lia.
  unfold nsec. set (a := off `div` 512) in *.
  assert (0 ≤ a ∧ 0 ≤ n) as [Ha Hn] by (subst n a; split; divlia).
  replace ((size + 511) `div` 512) with (a + (n + ((size + 511) `div` 512 - a - n))) by lia.
  assert (0 ≤ (size + 511) `div` 512 - a - n) by (subst n a; divlia).
  rewrite !sectors_app by lia.
  assert (length (sectors f start a) = (Z.to_nat a * SECTOR)%nat) as Hla by (by apply sectors_length).
  assert (length (sectors f (start + a) n) = (Z.to_nat n * SECTOR)%nat) as Hln by (by apply sectors_length).
  unfold SECTOR in *.
  assert (Z.to_nat off = (Z.to_nat a * 512 + Z.to_nat (off `mod` 512))%nat) as -> by (subst a; divlia).
  rewrite (drop_app_ge (sectors f start a)) by lia. rewrite Hla.
  replace (Z.to_nat a * 512 + Z.to_nat (off `mod` 512) - Z.to_nat a * 512)%nat
    with (Z.to_nat (off `mod` 512)) by lia.
  assert (Z.to_nat (off `mod` 512) + Z.to_nat len ≤ Z.to_nat n * 512)%nat by (subst n a; divlia).
  rewrite drop_app_le by lia. rewrite take_app_le by (rewrite length_drop; lia). done.
Qed.

Lemma streq_fun (a b c : list Z) :
  Forall (λ x, x ≠ 0) b → Forall (λ x, x ≠ 0) c → streq a b = true → streq a c = true → b = c.
Proof.
  intros Hb. revert a c. induction Hb as [|y b Hy _ IH]; intros [|x a] [|z c] Hc; cbn; try done.
  - intros ->%Z.eqb_eq. done.
  - destruct (Z.eqb_spec x 0); [done|]. intros _ ?. done.
  - apply Forall_cons in Hc as [_ Hc]. destruct (Z.eqb_spec x 0); [done|].
    destruct (Z.eqb_spec x y) as [->|]; [|done]. destruct (Z.eqb_spec y z) as [->|]; [|done].
    intros H1 H2. f_equal. eauto.
Qed.

Lemma names_fun n m e : c_str n → c_str m → names n e = true → names m e = true → n = m.
Proof.
  unfold names. intros Hn Hm [_ H1]%andb_prop [_ H2]%andb_prop.
  apply bytes_of_inj. by eapply streq_fun.
Qed.

Lemma find_slot_update {A} (f : A → bool) l i e e' :
  l !! i = Some e → f e' = f e → find_slot f (<[i := e']> l) = find_slot f l.
Proof.
  intros Hi Hf. apply list_find_ext_fmap. rewrite list_fmap_insert, Hf.
  rewrite <-list_fmap_insert. by rewrite list_insert_id.
Qed.
Section spec.
Context {D : Type} `{BlockLayer D} (p : nat) (pr : partition) (ok healthy : D → Prop)
  (psector : D → Z → list Z).
Context `{!PartitionIO D p pr ok healthy psector}.
Notation W := (agfs * D)%type.

(** The content of a file, and the file system as a map from names. *)
Definition content (e : aegisfs_entry) (d : D) : list Z :=
  take (Z.to_nat (e_size e)) (sectors (psector d) (e_start_lba e) (nsec (e_size e))).
Definition file (w : W) (name : string) : option (list Z) :=
  i ← find_entry (Some name) (g_entries w.1); e ← g_entries w.1 !! i; Some (content e w.2).

(** Extents lie between the directory and the free space. *)
Definition extent_ok (next : Z) (e : aegisfs_entry) : Prop :=
  e_size e ≤ AEGISFS_MAX_FILE_BYTES ∧
  (0 < e_size e → AEGISFS_DATA_LBA ≤ e_start_lba e ∧ e_start_lba e + nsec (e_size e) ≤ next).

(** The last sector of a file is padded with zeros. *)
Definition padded (e : aegisfs_entry) (d : D) : Prop :=
  0 < e_size e →
  sectors (psector d) (e_start_lba e) (nsec (e_size e)) =
    content e d ++ replicate (Z.to_nat (nsec (e_size e) * 512 - e_size e)) 0.

Record fs_inv (w : W) : Prop := {
  inv_part : g_part w.1 = Some p;
  inv_writable : g_writable w.1 = true;
  inv_count : length (g_entries w.1) = AEGISFS_MAX_FILES;
  inv_entries : Forall entry_wf (g_entries w.1);
  inv_sb : sb_wf (g_sb w.1);
  inv_format : sb_magic (g_sb w.1) = AEGISFS_MAGIC ∧ sb_version (g_sb w.1) = AEGISFS_VERSION ∧
               sb_partition_blocks (g_sb w.1) = p_block_count pr;
  inv_next : AEGISFS_DATA_LBA ≤ sb_next_free_lba (g_sb w.1) ≤ p_block_count pr;
  inv_blocks : p_block_count pr < 2 ^ 63;
  inv_extents : Forall (extent_ok (sb_next_free_lba (g_sb w.1))) (g_entries w.1);
  inv_padded : Forall (λ e, padded e w.2) (g_entries w.1);
  inv_disk : ok w.2;
}.

(** The metadata on the disk is that in memory. *)
Definition synced (w : W) : Prop :=
  sectors (psector w.2) 0 1 = sb_image (g_sb w.1) ∧
  sectors (psector w.2) AEGISFS_DIR_LBA AEGISFS_DIR_SECTORS = dir_image (g_entries w.1) ∧
  sb_directory_crc (g_sb w.1) = crc32 (dir_image (g_entries w.1)).

Lemma persist_metadata_spec s d rc s' d' :
  g_part s = Some p → g_writable s = true → length (g_entries s) = AEGISFS_MAX_FILES →
  Forall entry_wf (g_entries s) → sb_wf (g_sb s) → ok d → AEGISFS_DATA_LBA ≤ p_block_count pr →
  persist_metadata (s, d) = (rc, (s', d')) →
  rc ≤ 0 ∧ ok d' ∧
  s' = s <| g_sb ::= λ b, b <| sb_directory_crc := crc32 (dir_image (g_entries s)) |> |> ∧
  (∀ i, AEGISFS_DATA_LBA ≤ i < p_block_count pr → psector d' i = psector d i) ∧
  (rc = AEGIS_OK → synced (s', d')) ∧ (healthy d → rc = AEGIS_OK ∧ healthy d').
Proof.
  intros Hp Hw Hlen Hwf Hsb Hok Hblocks. unfold persist_metadata. rewrite Hp, Hw. cbn [negb].
  set (s1 := s <| g_sb ::= _ |>). change (g_entries s1) with (g_entries s).
  assert (sb_wf (g_sb s1)) as Hsb1.
  { apply (sb_wf_crc (g_sb s)); [done|]. apply u32_range. }
  unfold AEGISFS_DATA_LBA, AEGISFS_DIR_LBA, AEGISFS_DIR_SECTORS in *.
  assert (Z.of_nat (length (dir_image (g_entries s))) = 16 * Z.of_nat SECTOR) as Hdl.
  { rewrite dir_image_length, Hlen by done. reflexivity. }
  assert (Z.of_nat (length (sb_image (g_sb s1))) = 1 * Z.of_nat SECTOR) as Hsl.
  { rewrite sb_image_length by done. lia. }
  destruct (bl_write (Some p) 1 16 _ d) as [rc1 d1] eqn:E1.
  destruct (pio_write d 1 16 _ _ _ Hok ltac:(lia) ltac:(lia) Hdl E1) as (Hr1 & Hok1 & Ho1 & Hs1 & Hh1).
  destruct (Z.eqb_spec rc1 AEGIS_OK) as [->|Hne]; cbn [negb]; [|intros [= <- <- <-]; split_and!; try done].
  2: { intros i Hi. apply Ho1; lia. }
  2: { intros Hh. destruct (Hh1 Hh) as [? _]; [lia|done]. }
  destruct (bl_write (Some p) 0 1 _ d1) as [rc2 d2] eqn:E2.
  destruct (pio_write d1 0 1 _ _ _ Hok1 ltac:(lia) ltac:(lia) Hsl E2) as (Hr2 & Hok2 & Ho2 & Hs2 & Hh2).
  destruct (Z.eqb_spec rc2 AEGIS_OK) as [->|Hne]; cbn [negb]; [|intros [= <- <- <-]; split_and!; try done].
  2: { intros i Hi. rewrite Ho2, Ho1; [done|lia..]. }
  2: { intros Hh. destruct (Hh1 Hh) as [_ Hhd1]; [lia|]. destruct (Hh2 Hhd1) as [? _]; [lia|done]. }
  rewrite (pio_info d2 Hok2). cbn [from_option].
  destruct (bl_flush _ d2) as [rc3 d3] eqn:E3.
  destruct (pio_flush _ _ _ Hok2 E3) as (Hr3 & Hok3 & Ho3 & Hh3).
  intros [= <- <- <-]. split_and!; try done.
  - intros i Hi. rewrite Ho3, Ho2, Ho1; [done|lia..].
  - intros _. split_and!; [| |done]; cbn [fst snd].
    + rewrite (sectors_ext _ (psector d2)) by (intros; apply Ho3). by apply Hs2.
    + rewrite (sectors_ext _ (psector d1)); [by apply Hs1|].
      intros i Hi. unfold AEGISFS_DIR_LBA, AEGISFS_DIR_SECTORS in Hi. rewrite Ho3, Ho2; [done|lia..].
  - intros Hh. destruct (Hh1 Hh) as [_ Hhd1]; [lia|]. destruct (Hh2 Hhd1) as [_ ?]; [lia|]. by apply Hh3.
Qed.

(** ** Reading *)

Lemma content_length e d : extent_ok (p_block_count pr) e → 0 ≤ e_size e → length (content e d) = Z.to_nat (e_size e).
Proof.
  intros [Hmax _] Hs. unfold content. rewrite length_take.
  rewrite sectors_length by (try apply pio_length; unfold nsec; divlia).
  unfold nsec, SECTOR in *. divlia.
Qed.

Lemma content_ext next e d d' :
  extent_ok next e → 0 ≤ e_size e → (∀ i, AEGISFS_DATA_LBA ≤ i < next → psector d' i = psector d i) →
  content e d' = content e d.
Proof.
  intros [_ He] Hs Hd. unfold content. destruct (decide (0 < e_size e)) as [Hpos|].
  - destruct (He Hpos). f_equal. apply sectors_ext. intros i Hi. apply Hd. lia.
  - by replace (e_size e) with 0 by lia.
Qed.

Lemma file_lookup s d name i e :
  find_entry (Some name) (g_entries s) = Some i → g_entries s !! i = Some e →
  file (s, d) name = Some (content e d).
Proof. intros Hi He. unfold file. cbn [fst snd]. rewrite Hi. cbn. by rewrite He. Qed.

Lemma find_entry_lookup n l i : find_entry n l = Some i → ∃ e, l !! i = Some e.
Proof. destruct n; [|done]. intros (e & ? & _)%find_slot_Some. eauto. Qed.

Lemma agfs_read_spec v off len s d :
  fs_inv (s, d) → vn_priv v = true → 0 ≤ off → 0 < len →
  ∃ rc data d',
    agfs_read v off true len (s, d) = Some (rc, data, (s, d')) ∧
    ok d' ∧ (∀ i, psector d' i = psector d i) ∧ (healthy d → healthy d') ∧
    match file (s, d) (vn_path v) with
    | None => rc = AEGIS_ENOENT ∧ data = []
    | Some c =>
        (rc < 0 ∧ data = [] ∧ ¬ healthy d) ∨
        (data = take (Z.to_nat len) (drop (Z.to_nat off) c) ∧ rc = Z.of_nat (length data))
    end.
Proof.
  intros Hinv Hpriv Hoff Hlen. unfold agfs_read, priv_path. rewrite Hpriv. cbn [negb].
  destruct (find_entry (Some (vn_path v)) (g_entries s)) as [i|] eqn:Hi; cbn [mbind option_bind].
  2: { eexists _, _, d. split; [done|]. split_and!; [apply Hinv|done..|]. unfold file. cbn [fst]. by rewrite Hi. }
  destruct (find_entry_lookup _ _ _ Hi) as [e He]. rewrite He, (file_lookup _ _ _ _ _ Hi He).
  pose proof (proj1 (Forall_lookup _ _) (inv_entries _ Hinv) _ _ He) as Hwf.
  pose proof (proj1 (Forall_lookup _ _) (inv_extents _ Hinv) _ _ He) as Hext.
  destruct Hwf as (_ & _ & Hst & _ & Hsz & _). destruct (inv_next _ Hinv) as [_ Hnext].
  pose proof (inv_blocks _ Hinv) as Hb. pose proof (inv_part _ Hinv) as Hpart.
  pose proof (inv_disk _ Hinv) as Hdisk. cbn [fst snd] in *.
  assert (extent_ok (p_block_count pr) e) as Hext'.
  { destruct Hext as [? Hx]. split; [done|]. intros Hs. destruct (Hx Hs). lia. }
  destruct (Z.leb_spec (e_size e) off) as [Hge|Hlt].
  { eexists _, _, d. split; [done|]. split_and!; [apply Hinv|done..|]. right.
    rewrite drop_ge by (rewrite content_length; [lia|done|lia]). rewrite take_nil. done. }
  set (len' := if _ <? len then _ else _).
  assert (0 < len' ≤ e_size e - off) as Hl' by (subst len'; destruct (Z.ltb_spec (e_size e - off) len); lia).
  assert (take (Z.to_nat len) (drop (Z.to_nat off) (content e d)) =
          take (Z.to_nat len') (drop (Z.to_nat off) (content e d))) as ->.
  { subst len'. destruct (Z.ltb_spec (e_size e - off) len); [|done].
    rewrite !take_ge; [done|rewrite length_drop, content_length; [lia|done|lia]..]. }
  destruct Hext as [Hmax Hx]. destruct Hx as [Hlo Hhi]; [lia|].
  unfold AEGISFS_MAX_FILE_BYTES, AEGISFS_DATA_LBA, AEGISFS_DIR_LBA, AEGISFS_DIR_SECTORS in *.
  set (n := (off + len' + 511) `div` 512 - off `div` 512).
  assert (0 < n ≤ 128 ∧ 0 ≤ off `div` 512 ∧ off `div` 512 + n ≤ nsec (e_size e)) as (Hn & Ho & Hon)
    by (subst n; unfold nsec; split_and!; divlia).
  rewrite u32_small by lia. rewrite (proj2 (Z.ltb_ge 128 n)) by lia.
  rewrite u64_small by lia. rewrite Hpart.
  destruct (bl_read (Some p) _ n d) as [[rc bounce] d'] eqn:E.
  destruct (pio_read d (e_start_lba e + off `div` 512) n _ _ _ Hdisk ltac:(lia) ltac:(lia) E) as (Hrc & Hok & Hsame & Hdata & Hh).
  destruct (Z.eqb_spec rc AEGIS_OK) as [->|Hne]; cbn [negb].
  - eexists _, _, _. split; [done|]. split_and!; [done..| |].
    { intros Hd. apply Hh; [done|lia]. }
    right. destruct (Hdata eq_refl) as [_ ->].
    rewrite (sectors_slice _ _ (e_size e)) by (try apply pio_length; lia). split; [done|].
    rewrite length_take, length_drop. fold (content e d). rewrite content_length by (done || lia).
    unfold s32. divlia.
  - eexists _, _, _. split; [done|]. split_and!; [done..| |].
    { intros Hd. apply Hh; [done|lia]. }
    left. unfold AEGIS_OK in Hne. split_and!; [lia|done|]. intros Hd. destruct (Hh Hd); [lia|done].
Qed.

(** ** Updating one entry *)

(** Other names see neither the entry nor its sectors change. *)
Lemma file_other s s' d d' i e e' other :
  fs_inv (s, d) → g_entries s !! i = Some e → g_entries s' = <[i := e']> (g_entries s) →
  names other e = false → names other e' = false → skip_slashes other = other →
  (∀ k, AEGISFS_DATA_LBA ≤ k < sb_next_free_lba (g_sb s) → psector d' k = psector d k) →
  file (s', d') other = file (s, d) other.
Proof.
  intros Hinv He Hs' Hn Hn' Hsk Hd. unfold file. cbn [fst snd]. rewrite Hs'.
  rewrite !find_entry_names by done. rewrite (find_slot_update _ _ _ e) by congruence.
  destruct (find_slot (names other) (g_entries s)) as [j|] eqn:Hj; cbn [mbind option_bind]; [|done].
  apply find_slot_Some in Hj as (ej & Hej & Hnj & _).
  rewrite list_lookup_insert_ne by (intros ->; congruence). rewrite Hej. cbn. f_equal.
  eapply content_ext; [|..|exact Hd].
  - by eapply (proj1 (Forall_lookup _ _) (inv_extents _ Hinv)).
  - pose proof (proj1 (Forall_lookup _ _) (inv_entries _ Hinv) _ _ Hej) as Hw. apply Hw.
Qed.

Lemma new_entry_ok name next d :
  entry_wf (zero_entry <| e_valid := 1 |> <| e_name := copy_name name |>) ∧
  extent_ok next (zero_entry <| e_valid := 1 |> <| e_name := copy_name name |>) ∧
  padded (zero_entry <| e_valid := 1 |> <| e_name := copy_name name |>) d.
Proof.
  split_and!.
  - unfold entry_wf. cbn. pose proof (copy_name_length name). split_and!; [lia..|done].
  - split; cbn; [unfold AEGISFS_MAX_FILE_BYTES; lia|lia].
  - intros Hs. cbn in Hs. lia.
Qed.

Lemma entry_for_spec name s d i s1 :
  fs_inv (s, d) → skip_slashes name = name → c_str name → (length (bytes_of name) < AEGISFS_NAME_MAX)%nat →
  entry_for name s = Some (i, s1) →
  ∃ e, g_entries s1 !! i = Some e ∧ find_entry (Some name) (g_entries s1) = Some i ∧
    fs_inv (s1, d) ∧ content e d = default [] (file (s, d) name) ∧
    sb_next_free_lba (g_sb s1) = sb_next_free_lba (g_sb s) ∧
    ∀ other, c_str other → skip_slashes other = other → other ≠ name → file (s1, d) other = file (s, d) other.
Proof.
  intros Hinv Hsk Hc Hl. unfold entry_for. destruct (find_entry (Some name) (g_entries s)) as [j|] eqn:Hj.
  { intros [= -> ->]. destruct (find_entry_lookup _ _ _ Hj) as [e He]. exists e.
    rewrite (file_lookup _ _ _ _ _ Hj He). by split_and!. }
  unfold alloc_entry. destruct (find_slot (λ e, e_valid e =? 0) (g_entries s)) as [k|] eqn:Hk; [|done].
  cbn [mbind option_bind]. intros [= -> <-]. cbn [g_entries g_sb set_field sb_next_free_lba].
  set (e' := zero_entry <| e_valid := 1 |> <| e_name := copy_name name |>).
  pose proof (find_slot_lt _ _ _ Hk) as Hlt. apply find_slot_Some in Hk as (e0 & He0 & Hv0 & _).
  destruct (new_entry_ok name (sb_next_free_lba (g_sb s)) d) as (Hw' & Hx' & Hp'). fold e' in Hw', Hx', Hp'.
  assert (∀ n, c_str n → names n e' = bool_decide (name = n)) as Hnames.
  { intros n Hn. unfold names. cbn. by apply streq_copy_name. }
  exists e'. split; [by apply list_lookup_insert_eq|].
  assert (file (s, d) name = None) as -> by (unfold file; cbn [fst]; by rewrite Hj).
  split_and!; [| |done|done|].
  - rewrite find_entry_names in Hj |- * by done. apply find_slot_Some. exists e'.
    rewrite find_slot_None in Hj. split; [by apply list_lookup_insert_eq|].
    split; [by rewrite Hnames, bool_decide_eq_true_2|]. intros m y Hy Hm.
    rewrite list_lookup_insert_ne in Hy by lia. by eapply Hj.
  - destruct Hinv. cbn [fst snd] in *. split; cbn; try done.
    + by rewrite length_insert.
    + by apply Forall_insert.
    + unfold sb_wf in *. cbn. pose proof (u32_range (sb_file_count (g_sb s) + 1)). lia.
    + by apply Forall_insert.
    + by apply Forall_insert.
  - intros other Hco Hso Hne. eapply (file_other s _ d d i e0 e'); try done.
    + unfold names. by rewrite Hv0.
    + by rewrite Hnames, bool_decide_eq_false_2.
Qed.

(** ** Writing *)

(** The image before the new bytes are copied in. *)
Lemma old_image_spec e next d rc image d1 sectors_new :
  ok d → entry_wf e → extent_ok next e → padded e d → next ≤ p_block_count pr →
  nsec (e_size e) ≤ sectors_new →
  old_image p e sectors_new d = (rc, image, d1) →
  rc ≤ 0 ∧ ok d1 ∧ (∀ i, psector d1 i = psector d i) ∧ (healthy d → rc = AEGIS_OK ∧ healthy d1) ∧
  (rc = AEGIS_OK → image = content e d ++ replicate (Z.to_nat (sectors_new * 512 - e_size e)) 0).
Proof.
  intros Hok (_ & _ & Hst & _ & Hsz & _) [Hmax Hx] Hpad Hnext Hnew. unfold old_image.
  destruct (Z.eqb_spec (e_size e) 0) as [Hz|Hnz].
  { intros [= <- <- <-]. split_and!; try done. intros _. unfold content.
    rewrite Hz, Z.sub_0_r. done. }
  destruct Hx as [Hlo Hhi]; [lia|]. specialize (Hpad ltac:(lia)).
  unfold AEGISFS_MAX_FILE_BYTES, AEGISFS_DATA_LBA, AEGISFS_DIR_LBA, AEGISFS_DIR_SECTORS in *.
  rewrite u32_small by lia. fold (nsec (e_size e)).
  assert (0 < nsec (e_size e) ∧ e_size e ≤ nsec (e_size e) * 512) as [Hpos Hle] by (unfold nsec; split; divlia).
  destruct (bl_read (Some p) _ _ d) as [[rc1 old] d'] eqn:E.
  destruct (pio_read d (e_start_lba e) (nsec (e_size e)) _ _ _ Hok ltac:(lia) Hpos E)
    as (Hrc & Hok1 & Hsame & Hdata & Hh).
  intros [= <- <- <-]. split_and!; [done..| |].
  { intros Hd. apply Hh; [done|lia]. }
  intros Hrc0. destruct (Hdata Hrc0) as [_ ->].
  rewrite overwrite_0, sectors_length by (try apply pio_length; lia). rewrite Hpad, drop_replicate, <-app_assoc.
  rewrite <-replicate_add. do 2 f_equal. unfold SECTOR. lia.
Qed.

(** Sectors outside the extents are free to change. *)
Lemma free_space_write s d d' :
  fs_inv (s, d) → ok d' →
  (∀ k, AEGISFS_DATA_LBA ≤ k < sb_next_free_lba (g_sb s) → psector d' k = psector d k) →
  fs_inv (s, d') ∧ ∀ n, file (s, d') n = file (s, d) n.
Proof.
  intros Hinv Hok Hd.
  assert (∀ i x, g_entries s !! i = Some x → content x d' = content x d) as Hc.
  { intros i x Hx. apply (content_ext (sb_next_free_lba (g_sb s))); [| |done].
    - by apply (proj1 (Forall_lookup _ _) (inv_extents _ Hinv) i x Hx).
    - pose proof (proj1 (Forall_lookup _ _) (inv_entries _ Hinv) _ _ Hx) as Hw. apply Hw. }
  split.
  - pose proof (inv_extents _ Hinv) as Hext. destruct Hinv. split; try done. cbn [fst snd] in *.
    apply Forall_lookup. intros i x Hx Hpos.
    rewrite (Hc _ _ Hx), <-(proj1 (Forall_lookup _ _) inv_padded0 _ _ Hx Hpos).
    apply sectors_ext. intros k Hk. apply Hd.
    destruct (proj1 (Forall_lookup _ _) Hext _ _ Hx) as [_ Hx']. destruct (Hx' Hpos). lia.
  - intros n. unfold file. cbn [fst snd]. destruct (find_entry _ _) as [j|]; cbn; [|done].
    destruct (g_entries s !! j) as [x|] eqn:Hx; cbn; [|done]. by rewrite (Hc _ _ Hx).
Qed.

(** After the data and the metadata have been written. *)
Lemma commit_spec name s d d2 i e image new_size rc s4 d4 :
  fs_inv (s, d) → g_entries s !! i = Some e → find_entry (Some name) (g_entries s) = Some i →
  skip_slashes name = name → c_str name →
  0 < new_size ≤ AEGISFS_MAX_FILE_BYTES →
  let next := sb_next_free_lba (g_sb s) in
  next + nsec new_size ≤ p_block_count pr → ok d2 →
  (∀ k, 0 ≤ k < p_block_count pr → ¬ (next ≤ k < next + nsec new_size) → psector d2 k = psector d k) →
  sectors (psector d2) next (nsec new_size) = image ++ replicate (Z.to_nat (nsec new_size * 512 - new_size)) 0 →
  length image = Z.to_nat new_size →
  let gen := u32 (sb_generation (g_sb s) + 1) in
  let e' := e <| e_start_lba := next |> <| e_sectors := nsec new_size |>
              <| e_size := new_size |> <| e_generation := gen |> <| e_data_crc := crc32 image |> in
  persist_metadata
    (s <| g_entries ::= <[i := e']> |>
       <| g_sb ::= λ b, b <| sb_generation := gen |> <| sb_next_free_lba := next + nsec new_size |> |>, d2)
    = (rc, (s4, d4)) →
  rc ≤ 0 ∧ fs_inv (s4, d4) ∧ file (s4, d4) name = Some image ∧ (rc = AEGIS_OK → synced (s4, d4)) ∧
  (healthy d2 → rc = AEGIS_OK ∧ healthy d4) ∧
  ∀ other, c_str other → skip_slashes other = other → other ≠ name → file (s4, d4) other = file (s, d) other.
Proof.
  intros Hinv He Hfind Hsk Hc Hsz next Hroom Hok Hout Hin Hlen gen e'.
  pose proof (find_entry_names name (g_entries s) Hsk) as Hfn. rewrite Hfind in Hfn. symmetry in Hfn.
  pose proof Hfn as (e1 & He1 & Hnm & _)%find_slot_Some. assert (e1 = e) as -> by congruence.
  destruct (inv_next _ Hinv) as [Hlo Hhi]. pose proof (inv_blocks _ Hinv) as Hb. cbn [fst snd] in Hlo, Hhi.
  fold next in Hlo, Hhi.
  unfold AEGISFS_MAX_FILE_BYTES, AEGISFS_DATA_LBA, AEGISFS_DIR_LBA, AEGISFS_DIR_SECTORS in *.
  assert (0 < nsec new_size ≤ 128) as Hns by (unfold nsec; divlia).
  pose proof (u32_range (sb_generation (g_sb s) + 1)) as Hgen. fold gen in Hgen.
  pose proof (proj1 (Forall_lookup _ _) (inv_entries _ Hinv) _ _ He) as Hwe.
  assert (entry_wf e') as Hwe'.
  { pose proof (u32_range (Z.lnot (foldl (λ c b, Nat.iter 8 crc_bit (Z.lxor c b)) 0xffffffff image))) as Hcrc.
    fold (crc32 image) in Hcrc. subst e'. revert Hwe. unfold entry_wf. cbn -[crc32]. lia. }
  set (s3 := s <| g_entries ::= _ |> <| g_sb ::= _ |>). intros E.
  destruct (persist_metadata_spec s3 d2 rc s4 d4) as (Hrc & Hok4 & -> & Hd4 & Hsync & Hh); try done.
  { apply Hinv. } { apply Hinv. } { cbn. rewrite length_insert. apply Hinv. }
  { cbn. apply Forall_insert; [apply Hinv|done]. }
  { pose proof (inv_sb _ Hinv) as Hsb. revert Hsb. unfold sb_wf. cbn. lia. }
  { unfold AEGISFS_DATA_LBA, AEGISFS_DIR_LBA, AEGISFS_DIR_SECTORS. lia. }
  unfold AEGISFS_DATA_LBA, AEGISFS_DIR_LBA, AEGISFS_DIR_SECTORS in Hd4.
  set (s4 := s3 <| g_sb ::= _ |>) in *.
  assert (∀ k, AEGISFS_DATA_LBA ≤ k < next → psector d4 k = psector d k) as Hold.
  { unfold AEGISFS_DATA_LBA, AEGISFS_DIR_LBA, AEGISFS_DIR_SECTORS. intros k Hk.
    rewrite Hd4, Hout; [done|lia..]. }
  assert (sectors (psector d4) next (nsec new_size) =
          image ++ replicate (Z.to_nat (nsec new_size * 512 - new_size)) 0) as Hnew.
  { rewrite <-Hin. apply sectors_ext. intros k Hk. apply Hd4. lia. }
  assert (content e' d4 = image) as Hcont.
  { unfold content. subst e'. cbn [e_size e_start_lba set_field]. cbn. rewrite Hnew.
    rewrite <-Hlen. by rewrite take_app_length. }
  split_and!; [done| | |done|done|].
  - split; cbn [fst snd]; [apply Hinv|apply Hinv| | | |apply (inv_format _ Hinv)| |done| | |done].
    + cbn. rewrite length_insert. apply Hinv.
    + cbn. apply Forall_insert; [apply Hinv|done].
    + pose proof (inv_sb _ Hinv) as Hsb.
      apply (sb_wf_crc (g_sb s3)); [|apply u32_range]. revert Hsb. unfold sb_wf. cbn. lia.
    + unfold AEGISFS_DATA_LBA, AEGISFS_DIR_LBA, AEGISFS_DIR_SECTORS. cbn. lia.
    + cbn. apply Forall_insert.
      * eapply Forall_impl; [apply (inv_extents _ Hinv)|]. cbn [fst]. fold next. intros x [Hm Hx]. split; [exact Hm|].
        intros Hpos. destruct (Hx Hpos). lia.
      * split; cbn; unfold AEGISFS_MAX_FILE_BYTES, AEGISFS_DATA_LBA, AEGISFS_DIR_LBA, AEGISFS_DIR_SECTORS; lia.
    + cbn. apply Forall_insert.
      * apply Forall_lookup. intros j x Hx.
        pose proof (proj1 (Forall_lookup _ _) (inv_padded _ Hinv) _ _ Hx) as Hp.
        pose proof (proj1 (Forall_lookup _ _) (inv_extents _ Hinv) _ _ Hx) as Hex.
        pose proof (proj1 (Forall_lookup _ _) (inv_entries _ Hinv) _ _ Hx) as Hw. cbn [fst snd] in Hp, Hex.
        fold next in Hex. intros Hpos. destruct Hw as (_ & _ & _ & _ & Hw & _).
        rewrite (content_ext next x d d4) by (done || lia). rewrite <-(Hp Hpos).
        apply sectors_ext. intros k Hk. apply Hold. destruct Hex as [_ Hex]. destruct (Hex Hpos). lia.
      * intros _. rewrite Hcont. exact Hnew.
  - rewrite <-Hcont. apply (file_lookup _ _ _ i e').
    + rewrite find_entry_names by done. change (g_entries s4) with (<[i := e']> (g_entries s)).
      by rewrite (find_slot_update _ _ _ e).
    + apply list_lookup_insert_eq. by eapply lookup_lt_Some.
  - intros other Hco Hso Hne. eapply (file_other s s4 d d4 i e e'); try done.
    + destruct (names other e) eqn:Hoe; [|done]. by pose proof (names_fun _ _ _ Hco Hc Hoe Hnm).
    + destruct (names other e') eqn:Hoe; [|done]. by pose proof (names_fun _ _ _ Hco Hc Hoe Hnm).
Qed.

(** There is an entry and space for [size] bytes under [name]. *)
Definition has_room (s : agfs) (name : string) (size : Z) : Prop :=
  (is_Some (find_entry (Some name) (g_entries s)) ∨ ∃ i e, g_entries s !! i = Some e ∧ e_valid e = 0) ∧
  sb_next_free_lba (g_sb s) + nsec size ≤ p_block_count pr ∧ size ≤ AEGISFS_MAX_FILE_BYTES.

(** A name the directory can hold. *)
Definition valid_name (name : string) : Prop :=
  name ≠ EmptyString ∧ skip_slashes name = name ∧ c_str name ∧
  (length (bytes_of name) < AEGISFS_NAME_MAX)%nat.

Lemma entry_for_None name s :
  entry_for name s = None →
  find_entry (Some name) (g_entries s) = None ∧ ¬ ∃ i e, g_entries s !! i = Some e ∧ e_valid e = 0.
Proof.
  unfold entry_for. destruct (find_entry _ _); [done|]. unfold alloc_entry.
  destruct (find_slot _ _) eqn:Hk; [done|]. intros _. split; [done|].
  intros (i & e & He & Hv). rewrite find_slot_None in Hk. specialize (Hk _ _ He). cbn in Hk. lia.
Qed.

(** What a write does, whatever the driver reports. *)
Definition write_outcome (name : string) (off : Z) (buf : list Z) (s : agfs) (d : D)
    (rc : Z) (s' : agfs) (d' : D) : Prop :=
  let c := default [] (file (s, d) name) in
  fs_inv (s', d') ∧
  (∀ other, c_str other → skip_slashes other = other → other ≠ name → file (s', d') other = file (s, d) other) ∧
  (0 < rc → rc = Z.of_nat (length buf) ∧ synced (s', d') ∧
            file (s', d') name = Some (written (Z.to_nat off) buf c)) ∧
  (healthy d → has_room s name (Z.max (Z.of_nat (length c)) (off + Z.of_nat (length buf))) →
   0 < rc ∧ healthy d').

Lemma commit_image_outcome v name s d i e size buf off :
  let c := content e d in
  let new := written (Z.to_nat off) buf c in
  fs_inv (s, d) → g_entries s !! i = Some e → find_entry (Some name) (g_entries s) = Some i →
  skip_slashes name = name → c_str name → 0 < size ≤ AEGISFS_MAX_FILE_BYTES → length new = Z.to_nat size →
  Z.of_nat (length buf) ≤ size → (0 < length buf)%nat →
  sb_next_free_lba (g_sb s) + nsec size ≤ p_block_count pr →
  ∃ rc v' s' d',
    commit_image v i p e size (nsec size) (Z.of_nat (length buf))
      (new ++ replicate (Z.to_nat (nsec size * 512 - size)) 0) (s, d) = (rc, v', (s', d')) ∧
    fs_inv (s', d') ∧
    (∀ other, c_str other → skip_slashes other = other → other ≠ name → file (s', d') other = file (s, d) other) ∧
    (0 < rc → rc = Z.of_nat (length buf) ∧ synced (s', d') ∧ file (s', d') name = Some new) ∧
    (healthy d → 0 < rc ∧ healthy d').
Proof.
  intros c new Hinv He Hfi Hsk Hc Hsize Hnew Hle Hbuf Hroom. unfold commit_image.
  destruct (inv_next _ Hinv) as [Hlo Hhi]. pose proof (inv_blocks _ Hinv) as Hb. cbn [fst snd] in Hlo, Hhi.
  unfold AEGISFS_MAX_FILE_BYTES, AEGISFS_DATA_LBA, AEGISFS_DIR_LBA, AEGISFS_DIR_SECTORS in *.
  set (next := sb_next_free_lba (g_sb s)) in *.
  assert (0 < nsec size ≤ 128 ∧ size ≤ nsec size * 512) as [Hns Hns2] by (unfold nsec; split; divlia).
  set (image := new ++ _).
  assert (Z.of_nat (length image) = nsec size * Z.of_nat SECTOR) as Hil
    by (subst image; rewrite length_app, length_replicate, Hnew; unfold SECTOR; lia).
  destruct (bl_write (Some p) next (nsec size) _ d) as [rc2 d2] eqn:E2.
  destruct (pio_write d next (nsec size) _ _ _ (inv_disk _ Hinv) ltac:(lia) ltac:(lia) Hil E2)
    as (Hrc2 & Hok2 & Hout2 & Hin2 & Hh2).
  destruct (Z.eqb_spec rc2 AEGIS_OK) as [->|Hne2]; cbn [negb].
  2: { eexists _, _, _, _. split; [done|]. destruct (free_space_write s d d2 Hinv Hok2) as [? ?].
       { unfold AEGISFS_DATA_LBA, AEGISFS_DIR_LBA, AEGISFS_DIR_SECTORS. intros k Hk. apply Hout2; lia. }
       split_and!; [done|done|lia|]. intros Hd. by destruct (Hh2 Hd Hroom). }
  assert (take (Z.to_nat size) image = new) as -> by (rewrite <-Hnew; apply take_app_length).
  rewrite u64_small by lia.
  destruct (persist_metadata _) as [rc4 [s4 d4]] eqn:E4.
  destruct (commit_spec name s d d2 i e new size rc4 s4 d4 Hinv He Hfi Hsk Hc Hsize Hroom Hok2)
    as (Hrc4 & Hinv4 & Hf4 & Hsync & Hh4 & Hoth); [|by apply Hin2|done|done|].
  { intros k Hk Hk'. apply Hout2; [lia|exact Hk']. }
  assert (s32 (Z.of_nat (length buf)) = Z.of_nat (length buf)) as Hs32 by (unfold s32; divlia).
  destruct (Z.eqb_spec rc4 AEGIS_OK) as [->|Hne4].
  - eexists _, _, _, _. split; [done|]. rewrite Hs32. split_and!; [done|done| |].
    + intros _. split; [done|]. by split; [apply Hsync|].
    + intros Hd. split; [lia|]. by apply Hh4, Hh2.
  - eexists _, _, _, _. split; [done|]. split_and!; [done|done|lia|].
    intros Hd. destruct (Hh4 (proj2 (Hh2 Hd Hroom))). done.
Qed.

Lemma agfs_write_outcome v off buf s d :
  let name := skip_slashes (vn_path v) in
  fs_inv (s, d) → vn_priv v = true → valid_name name → 0 ≤ off → (0 < length buf)%nat →
  off + Z.of_nat (length buf) < 2 ^ 64 →
  ∃ rc v' s' d', agfs_write v off (Some buf) (s, d) = Some (rc, v', (s', d')) ∧
                 write_outcome name off buf s d rc s' d'.
Proof.
  intros name Hinv Hpriv (Hne & Hsk & Hc & Hnl) Hoff Hbuf Hwrap.
  unfold agfs_write, priv_path. rewrite Hpriv. pose proof (inv_writable _ Hinv) as Hwr. cbn [fst] in Hwr.
  rewrite Hwr. cbn [negb orb mbind option_bind]. rewrite (proj2 (Z.eqb_neq _ 0)) by lia.
  rewrite u64_small by lia.
  destruct (Z.ltb_spec AEGISFS_MAX_FILE_BYTES (off + Z.of_nat (length buf))) as [Hbig|Hsmall].
  { eexists _, _, _, _. split; [done|]. split_and!; [done..| |].
    { unfold AEGIS_ENOSPC. lia. } { intros _ (_ & _ & Hm). lia. } }
  fold name. destruct (c_streq name EmptyString) eqn:Hemp; [by apply c_streq_spec in Hemp|].
  destruct (entry_for name s) as [[i s1]|] eqn:Hent.
  2: { apply entry_for_None in Hent as [Hf Hfree].
       eexists _, _, _, _. split; [done|]. split_and!; [done..| |].
       { unfold AEGIS_ENOSPC. lia. } { intros _ ([Hs|Hs] & _); [|done]. rewrite Hf in Hs. by destruct Hs. } }
  destruct (entry_for_spec name s d i s1 Hinv Hsk Hc Hnl Hent) as (e & He & Hfi & Hinv1 & Hcont & Hnx & Hoth1).
  rewrite He. cbn [mbind option_bind].
  pose proof (inv_part _ Hinv1) as Hpart. pose proof (inv_disk _ Hinv1) as Hok. cbn [fst snd] in Hpart, Hok.
  rewrite Hpart. cbn [mbind option_bind]. rewrite (pio_info d Hok). cbn [mbind option_bind].
  pose proof (proj1 (Forall_lookup _ _) (inv_entries _ Hinv1) _ _ He) as Hwf.
  pose proof (proj1 (Forall_lookup _ _) (inv_extents _ Hinv1) _ _ He) as Hext. cbn [fst snd] in Hext.
  pose proof (proj1 (Forall_lookup _ _) (inv_padded _ Hinv1) _ _ He) as Hpad. cbn [fst snd] in Hpad.
  destruct (inv_next _ Hinv1) as [Hlo Hhi]. pose proof (inv_blocks _ Hinv1) as Hb. cbn [fst snd] in Hlo, Hhi.
  set (next := sb_next_free_lba (g_sb s1)) in *.
  assert (0 ≤ e_size e) as Hsz0 by (destruct Hwf as (_ & _ & _ & _ & Hsz & _); lia).
  assert (extent_ok (p_block_count pr) e) as Hext'.
  { destruct Hext as [Hm Hx]. split; [done|]. intros Hpos. destruct (Hx Hpos). lia. }
  assert (length (content e d) = Z.to_nat (e_size e)) as Hclen by (by apply content_length).
  unfold write_outcome. rewrite <-Hcont, Hclen. rewrite Z2Nat.id by done.
  unfold AEGISFS_MAX_FILE_BYTES, AEGISFS_DATA_LBA, AEGISFS_DIR_LBA, AEGISFS_DIR_SECTORS in *.
  rewrite (u32_small (off + Z.of_nat (length buf))) by lia.
  set (size := Z.max (e_size e) (off + Z.of_nat (length buf))).
  replace (if off + Z.of_nat (length buf) <? e_size e then e_size e else off + Z.of_nat (length buf))
    with size by (subst size; destruct (Z.ltb_spec (off + Z.of_nat (length buf)) (e_size e)); lia).
  assert (0 < size ≤ 64 * 1024) as Hsize by (destruct Hext as [Hm _]; unfold AEGISFS_MAX_FILE_BYTES in Hm; lia).
  rewrite u32_small by lia. fold (nsec size).
  assert (0 < nsec size ≤ 128 ∧ size ≤ nsec size * 512 ∧ nsec (e_size e) ≤ nsec size) as (Hns & Hns2 & Hns3)
    by (unfold nsec; subst size; split_and!; divlia).
  rewrite (u64_small (next + nsec size)) by lia.
  destruct (Z.ltb_spec (p_block_count pr) (next + nsec size)) as [Hfull|Hroom].
  { eexists _, _, _, _. split; [done|]. split_and!; [done..| |].
    { unfold AEGIS_ENOSPC. lia. } { intros _ (_ & Hr & _). rewrite <-Hnx in Hr. lia. } }
  rewrite (proj2 (Z.ltb_ge _ (nsec size * 512))) by lia.
  destruct (old_image p e (nsec size) d) as [[rc1 img] d1] eqn:Eold.
  destruct (old_image_spec e next d rc1 img d1 (nsec size) Hok Hwf Hext Hpad Hhi Hns3 Eold)
    as (Hrc1 & Hok1 & Hd1 & Hh1 & Himg).
  destruct (free_space_write s1 d d1 Hinv1 Hok1) as [Hinvd1 Hfd1]; [by intros; apply Hd1|].
  destruct (Z.eqb_spec rc1 AEGIS_OK) as [->|Hne1]; cbn [negb].
  2: { eexists _, _, _, _. split; [done|]. split_and!; [done| |lia|].
       { intros other H1 H2 H3. rewrite Hfd1. by apply Hoth1. }
       { intros Hd _. by destruct (Hh1 Hd). } }
  rewrite (Himg eq_refl). rewrite overwrite_padded by lia. rewrite Hclen.
  replace (Z.to_nat (e_size e) + Z.to_nat (nsec size * 512 - e_size e) -
    Nat.max (Z.to_nat (e_size e)) (Z.to_nat off + length buf))%nat
    with (Z.to_nat (nsec size * 512 - size)) by (subst size; lia).
  assert (content e d = content e d1) as Hcd.
  { unfold content. f_equal. apply sectors_ext. intros. symmetry. apply Hd1. }
  destruct (commit_image_outcome v name s1 d1 i e size buf off) as (rc & v' & s' & d' & Hcom & Hi' & Ho' & Hs' & Hh');
    try done.
  { rewrite written_length, <-Hcd, Hclen by done. subst size. lia. } { subst size. lia. }
  rewrite <-Hcd in Hcom, Hs'. eexists _, _, _, _. split; [by rewrite Hcom|]. split_and!; [done| |done|].
  - intros other H1 H2 H3. rewrite Ho', Hfd1 by done. by apply Hoth1.
  - intros Hd _. apply Hh'. by apply Hh1.
Qed.

(** ** Write, then read *)

Lemma file_skip w n : file w (skip_slashes n) = file w n.
Proof. unfold file, find_entry. by rewrite skip_slashes_idem. Qed.

(** What a read of [len] bytes at [off] returns of a file. *)
Definition read_result (f : option (list Z)) (off len : Z) : Z * list Z :=
  match f with
  | None => (AEGIS_ENOENT, [])
  | Some c => let data := take (Z.to_nat len) (drop (Z.to_nat off) c) in (Z.of_nat (length data), data)
  end.


(** ** Mounting *)

Lemma format_fs_spec s d rc s' d' :
  g_part s = Some p → g_writable s = true → ok d →
  AEGISFS_DATA_LBA ≤ p_block_count pr < 2 ^ 63 → format_fs (s, d) = (rc, (s', d')) →
  fs_inv (s', d') ∧ (rc = AEGIS_OK → synced (s', d')) ∧ (healthy d → rc = AEGIS_OK ∧ healthy d') ∧
  (∀ n, valid_name n → file (s', d') n = None).
Proof.
  intros Hp Hw Hok Hb. unfold format_fs. rewrite Hp. cbn [mbind option_bind].
  rewrite (pio_info d Hok). cbn [from_option]. set (s1 := s <| g_sb := _ |> <| g_entries := _ |>). intros E.
  assert (Forall entry_wf (g_entries s1)) as Hwf by (apply Forall_replicate, zero_entry_wf).
  assert (sb_wf (g_sb s1)) as Hsb.
  { unfold AEGISFS_DATA_LBA, AEGISFS_DIR_LBA, AEGISFS_DIR_SECTORS in *.
    unfold sb_wf. split_and!; cbn; try done; lia. }
  destruct (persist_metadata_spec s1 d rc s' d' Hp Hw eq_refl Hwf Hsb Hok (proj1 Hb) E)
    as (_ & Hok' & -> & _ & Hsync & Hh).
  assert (0 ≤ crc32 (dir_image (g_entries s1)) < 2 ^ 32) as Hc by apply u32_range.
  clear E. generalize dependent (crc32 (dir_image (g_entries s1))). intros crc Hsync Hc.
  split_and!; [|done|done|].
  - split; cbn [fst snd]; try done.
    + by apply (sb_wf_crc (g_sb s1)).
    + cbn. unfold AEGISFS_DATA_LBA, AEGISFS_DIR_LBA, AEGISFS_DIR_SECTORS in *. lia.
    + lia.
    + apply Forall_replicate. split; cbn; [unfold AEGISFS_MAX_FILE_BYTES; lia|lia].
    + apply Forall_replicate. intros Hs. cbn in Hs. lia.
  - intros n (_ & Hsk & _). unfold file. cbn [fst]. rewrite find_entry_names by done.
    destruct (find_slot _ _) as [i|] eqn:Hi; [|done].
    apply find_slot_Some in Hi as (e & He & Hn & _).
    assert (replicate AEGISFS_MAX_FILES zero_entry !! i = Some e) as [-> _]%lookup_replicate by exact He. done.
Qed.

(** Loading a partition that holds the metadata of [s]. *)
Lemma load_fs_synced s d s0 d0 :
  fs_inv (s, d) → sectors (psector d0) 0 1 = sb_image (g_sb s) →
  sectors (psector d0) AEGISFS_DIR_LBA AEGISFS_DIR_SECTORS = dir_image (g_entries s) →
  sb_directory_crc (g_sb s) = crc32 (dir_image (g_entries s)) →
  g_part s0 = Some p → ok d0 → healthy d0 →
  ∃ d1, load_fs (p_block_count pr) (s0, d0) =
          (AEGIS_OK, (s0 <| g_sb := g_sb s |> <| g_entries := g_entries s |>, d1)) ∧
        ok d1 ∧ healthy d1 ∧ ∀ i, psector d1 i = psector d0 i.
Proof.
  intros Hinv Hsb Hdir Hcrc Hp Hok Hh. unfold load_fs. rewrite Hp.
  destruct (inv_next _ Hinv) as [Hlo Hhi]. cbn [fst] in Hlo, Hhi.
  unfold AEGISFS_DATA_LBA, AEGISFS_DIR_LBA, AEGISFS_DIR_SECTORS in *.
  destruct (bl_read (Some p) 0 1 d0) as [[rc1 block] d1] eqn:E1.
  destruct (pio_read d0 0 1 _ _ _ Hok ltac:(lia) ltac:(lia) E1) as (_ & Hok1 & Hs1 & Hd1 & Hh1).
  destruct (Hh1 Hh ltac:(lia)) as [-> Hhd1]. destruct (Hd1 eq_refl) as [_ ->].
  cbn [negb Z.eqb AEGIS_OK]. rewrite Hsb. cbn zeta. rewrite sb_of_image by apply Hinv.
  destruct (inv_format _ Hinv) as (Hm & Hv & Hbl). cbn [fst] in Hm, Hv, Hbl.
  rewrite Hm, Hv, Hbl, !Z.eqb_refl. cbn [negb orb].
  change (g_part (s0 <| g_sb := g_sb s |>)) with (g_part s0). rewrite Hp.
  destruct (bl_read (Some p) 1 16 d1) as [[rc2 dir] d2] eqn:E2.
  destruct (pio_read d1 1 16 _ _ _ Hok1 ltac:(lia) ltac:(lia) E2) as (_ & Hok2 & Hs2 & Hd2 & Hh2).
  destruct (Hh2 Hhd1 ltac:(lia)) as [-> Hhd2]. destruct (Hd2 eq_refl) as [_ ->].
  rewrite Z.eqb_refl. cbn [negb]. rewrite (sectors_ext _ (psector d0)) by (intros; apply Hs1). rewrite Hdir.
  pose proof (dir_of_image _ (inv_entries _ Hinv)) as Hdi. rewrite (inv_count _ Hinv) in Hdi.
  cbn [fst] in Hdi. rewrite Hdi. cbn [g_entries set_field]. cbn zeta.
  change (g_entries (s0 <| g_sb := g_sb s |> <| g_entries := g_entries s |>)) with (g_entries s).
  rewrite <-Hcrc, Z.eqb_refl. exists d2. split_and!; [done..|]. intros i. by rewrite Hs2.
Qed.

Section mount.
Context (vfs_at : nat → vfs W) (g_fs : nat).

(** A kernel that has just booted: the file system is not mounted, the partition
    is registered, and the switch has a free mount slot. *)
Definition booted (vs : vfs_state) (s : agfs) (d : D) : Prop :=
  g_mounted s = false ∧ bl_find_partition "AEGIS_CONFIG" d = Some p ∧
  bl_io_backend_ready d = true ∧ has_flag (p_flags pr) AEGIS_BLOCK_FLAG_WRITABLE = true ∧
  fs_mount (vfs_at g_fs) = None ∧ vfs_is_mounted (Some "/persist") vs = false ∧
  is_Some (find_slot (λ m, negb (mp_active m)) (mounts vs)).

Lemma mount_loaded vs s0 d0 s1 d1 :
  booted vs s0 d0 → ok d0 →
  load_fs (p_block_count pr) (s0 <| g_part := Some p |> <| g_writable := true |>, d0) = (AEGIS_OK, (s1, d1)) →
  ∃ vs', aegisfs_mount_persistent vfs_at g_fs vs (s0, d0) = (AEGIS_OK, vs', (s1 <| g_mounted := true |>, d1)).
Proof.
  intros (Hm & Hf & Hr & Hw & Hfs & Hvm & [k Hk]) Hok E. unfold aegisfs_mount_persistent.
  rewrite Hm, Hf. cbn [mbind option_bind]. rewrite (pio_info d0 Hok), Hr, Hw. cbn [andb negb].
  rewrite E. cbn [Z.eqb AEGIS_OK negb].
  unfold vfs_mount. rewrite Hfs. unfold vfs_is_mounted in Hvm. cbn [starts_with_slash].
  rewrite Hvm. cbn [Z.eqb AEGIS_OK negb]. rewrite Hk. cbn [Z.eqb AEGIS_OK negb]. eexists. done.
Qed.

(** A disk with the metadata of [s], and its sectors up to the free space. *)
Lemma mount_recovers s d vs s0 d0 :
  fs_inv (s, d) → synced (s, d) →
  (∀ k, 0 ≤ k < sb_next_free_lba (g_sb s) → psector d0 k = psector d k) →
  ok d0 → healthy d0 → booted vs s0 d0 →
  ∃ vs' s1 d1, aegisfs_mount_persistent vfs_at g_fs vs (s0, d0) = (AEGIS_OK, vs', (s1, d1)) ∧
    fs_inv (s1, d1) ∧ healthy d1 ∧ ∀ n, file (s1, d1) n = file (s, d) n.
Proof.
  intros Hinv (Hsb & Hdir & Hcrc) Hagree Hok Hh Hboot. cbn [fst snd] in *.
  destruct (inv_next _ Hinv) as [Hlo Hhi]. cbn [fst] in Hlo, Hhi.
  unfold AEGISFS_DATA_LBA, AEGISFS_DIR_LBA, AEGISFS_DIR_SECTORS in *.
  destruct (load_fs_synced s d (s0 <| g_part := Some p |> <| g_writable := true |>) d0 Hinv)
    as (d1 & E & Hok1 & Hh1 & Hd1); try done.
  { rewrite (sectors_ext _ (psector d)); [done|]. intros i Hi. apply Hagree. lia. }
  { rewrite (sectors_ext _ (psector d)); [done|].
    unfold AEGISFS_DIR_LBA, AEGISFS_DIR_SECTORS. intros i Hi. apply Hagree. lia. }
  destruct (mount_loaded vs s0 d0 _ _ Hboot Hok E) as [vs' Em]. eexists vs', _, d1. split; [exact Em|].
  destruct (free_space_write s d d1 Hinv Hok1) as [Hinv1 Hf1].
  { unfold AEGISFS_DATA_LBA, AEGISFS_DIR_LBA, AEGISFS_DIR_SECTORS. intros k Hk. rewrite Hd1. apply Hagree. lia. }
  split; [|split; [done|exact Hf1]]. by destruct Hinv1.
Qed.

End mount.

End spec.

(** ** A file system on a RAM disk *)

#[export] Instance ram_layer : BlockLayer (blk * ramdisk) := block_layer (λ _, ramdisk_ops).

Definition config_partition : partition := default zero_partition (partitions example_blk !! 2%nat).
Definition ram_ok : blk * ramdisk → Prop := λ d, part_ok (λ _, ramdisk_ops) 2 config_partition 0 d.1.
Definition ram_psector (d : blk * ramdisk) (i : Z) : list Z := ram_sector d.2 0 (p_start_lba config_partition + i).

#[export] Instance ram_partition_io :
  PartitionIO (blk * ramdisk) 2 config_partition ram_ok (λ _, True) ram_psector.
Proof. apply (partition_io (λ _, ramdisk_ops) ram_sector (λ _, True)). Qed.

Lemma example_blk_ok w : ram_ok (example_blk, w).
Proof.
  split; [vm_compute; reflexivity|].
  eexists 0%nat, _, 0%nat. split_and!; try (vm_compute; done).
Qed.

(** A formatted partition, and a handle on one of its files. *)
Definition example_fs : agfs * (blk * ramdisk) :=
  (format_fs (mk_agfs (Some 2%nat) zero_sb [] false true, (example_blk, ∅))).2.
Definition notes : vnode := mk_vnode 1 0 (Some 0%nat) (Some 0%nat) true "/notes".
Definition example_vfs_at (fs : nat) : vfs (agfs * (blk * ramdisk)) := g_fs_vfs.

Lemma example_fs_inv :
  fs_inv 2 config_partition ram_ok ram_psector example_fs ∧
  ∀ n, valid_name n → file ram_psector example_fs n = None.
Proof.
  destruct example_fs as [s' d'] eqn:Ew.
  destruct (format_fs_spec 2 config_partition ram_ok (λ _, True) ram_psector
              (mk_agfs (Some 2%nat) zero_sb [] false true) (example_blk, ∅)
              (format_fs (mk_agfs (Some 2%nat) zero_sb [] false true, (example_blk, ∅))).1 s' d')
    as (Hinv & _ & _ & Hf); try done.
  - apply example_blk_ok.
  - rewrite <-Ew. unfold example_fs. by destruct (format_fs _).
Qed.

Lemma notes_name : valid_name (skip_slashes (vn_path notes)).
Proof. split_and!; [done|done| |vm_compute; lia]. repeat constructor; vm_compute; done. Qed.


(** The memory of a kernel that has just booted. *)
Definition fresh_agfs : agfs := mk_agfs None zero_sb [] false false.


(** ** What the code does not handle *)

(** The sum of offset and length is reduced to 64 bits before it is compared with
    the maximal file size: the copy then starts outside the image. *)
Lemma agfs_write_offset_wraps :
  agfs_write notes (2 ^ 64 - 1) (Some [7]) example_fs = None.
Proof. vm_compute. done. Qed.

(** A name of 80 characters or more is stored truncated: the file that was just
    written cannot be read, and the next write allocates another entry. *)
Definition long_name : vnode := mk_vnode 1 0 (Some 0%nat) (Some 0%nat) true (String.concat EmptyString (replicate 9 "a-long-one")).
Lemma agfs_long_name_lost :
  match agfs_write long_name 0 (Some [1]) example_fs with
  | Some (1, _, w) =>
      (λ r, r.1.1) <$> agfs_read long_name 0 true 1 w = Some AEGIS_ENOENT ∧
      (λ r, aegisfs_file_count r.2) <$> agfs_write long_name 0 (Some [1]) w = Some 2
  | _ => False
  end.
Proof. vm_compute. done. Qed.

(** The self-test of the file system passes on a fresh partition. *)
Lemma aegisfs_boot_selftest :
  let '(rc, vs, w) := aegisfs_mount_persistent example_vfs_at 0 example_vfs (fresh_agfs, (example_blk, ∅)) in
  rc = AEGIS_OK ∧ (λ r, r.1.1) <$> aegisfs_selftest example_vfs_at vs w = Some AEGIS_OK.
Proof. vm_compute. done. Qed.
