(* ===== verification/Integrity.v ===== *)
(** Integrity of the persistent file system (fs/aegisfs.c): its checksum detects
    every change confined to one byte, so that the mount refuses a directory
    damaged in one byte. *)

From S2P Require Import Prelude Vfs Block AegisFs.

(** ** The checksum *)

Lemma land_1_mod c : Z.land c 1 = c mod 2.
Proof. change 1 with (Z.ones 1). by rewrite Z.land_ones by lia. Qed.

Lemma crc_bit_cases c :
  crc_bit c = if c mod 2 =? 0 then Z.shiftr c 1 else Z.lxor (Z.shiftr c 1) 0xedb88320.
Proof.
  unfold crc_bit. rewrite land_1_mod. destruct (Z.mod_pos_bound c 2 ltac:(lia)) as [H0 H1].
  assert (c mod 2 = 0 ∨ c mod 2 = 1) as [-> | ->] by lia; cbn -[Z.shiftr Z.lxor]; [by rewrite Z.lxor_0_r|done].
Qed.

Lemma testbit_above w x n : 0 ≤ w ≤ n → 0 ≤ x < 2 ^ w → Z.testbit x n = false.
Proof. intros Hn Hx. rewrite <-(Z.mod_small x (2 ^ w)) by done. by apply Z.mod_pow2_bits_high. Qed.

Lemma lxor_range w x y : 0 ≤ w → 0 ≤ x < 2 ^ w → 0 ≤ y < 2 ^ w → 0 ≤ Z.lxor x y < 2 ^ w.
Proof.
  intros Hw Hx Hy. split; [apply Z.lxor_nonneg; lia|]. apply Z_nonneg_lt_pow2_bits; [done|apply Z.lxor_nonneg; lia|].
  intros n Hn. by rewrite Z.lxor_spec, !(testbit_above w).
Qed.

Lemma lxor_cancel_r x y z : Z.lxor x z = Z.lxor y z → x = y.
Proof.
  intros E. rewrite <-(Z.lxor_0_r x), <-(Z.lxor_0_r y), <-(Z.lxor_nilpotent z), <-!Z.lxor_assoc. by rewrite E.
Qed.

Lemma shiftr_range c : 0 ≤ c < 2 ^ 32 → 0 ≤ Z.shiftr c 1 < 2 ^ 31.
Proof. intros Hc. rewrite Z.shiftr_div_pow2 by lia. change (2 ^ 1) with 2. divlia. Qed.

Lemma crc_bit_range c : 0 ≤ c < 2 ^ 32 → 0 ≤ crc_bit c < 2 ^ 32.
Proof.
  intros Hc%shiftr_range. rewrite crc_bit_cases. destruct (_ =? 0); [lia|]. apply (lxor_range 32); lia.
Qed.

(** A step loses nothing: the top bit of the result tells whether the polynomial
    was added. *)
Lemma crc_bit_inj c c' : 0 ≤ c < 2 ^ 32 → 0 ≤ c' < 2 ^ 32 → crc_bit c = crc_bit c' → c = c'.
Proof.
  intros Hc Hc'. pose proof (shiftr_range _ Hc) as Hs. pose proof (shiftr_range _ Hc') as Hs'.
  pose proof (testbit_above 31 _ 31 ltac:(lia) Hs) as Ht. pose proof (testbit_above 31 _ 31 ltac:(lia) Hs') as Ht'.
  assert (Z.testbit 0xEDB88320 31 = true) as Hp by done.
  assert (c mod 2 = c' mod 2 → Z.shiftr c 1 = Z.shiftr c' 1 → c = c') as Hfin.
  { rewrite !Z.shiftr_div_pow2 by lia. change (2 ^ 1) with 2. divlia. }
  rewrite !crc_bit_cases. destruct (Z.eqb_spec (c mod 2) 0), (Z.eqb_spec (c' mod 2) 0); intros E.
  - apply Hfin; [lia|done].
  - apply (f_equal (λ x, Z.testbit x 31)) in E. by rewrite Z.lxor_spec, Ht, Ht', Hp in E.
  - apply (f_equal (λ x, Z.testbit x 31)) in E. by rewrite Z.lxor_spec, Ht, Ht', Hp in E.
  - apply Hfin; [divlia|]. by apply lxor_cancel_r in E.
Qed.

Definition crc_byte (c b : Z) : Z := Nat.iter 8 crc_bit (Z.lxor c b).
Definition is_byte (b : Z) : Prop := 0 ≤ b < 256.

Lemma crc_byte_spec c b :
  0 ≤ c < 2 ^ 32 → is_byte b →
  0 ≤ crc_byte c b < 2 ^ 32 ∧
  ∀ c' b', 0 ≤ c' < 2 ^ 32 → is_byte b' → crc_byte c b = crc_byte c' b' → Z.lxor c b = Z.lxor c' b'.
Proof.
  assert (∀ n x, 0 ≤ x < 2 ^ 32 → 0 ≤ Nat.iter n crc_bit x < 2 ^ 32 ∧
            ∀ y, 0 ≤ y < 2 ^ 32 → Nat.iter n crc_bit x = Nat.iter n crc_bit y → x = y) as Hit.
  { assert (∀ n x, 0 ≤ x < 2 ^ 32 → 0 ≤ Nat.iter n crc_bit x < 2 ^ 32) as Hr.
    { intros n x Hx. induction n as [|n IH]; [done|]. rewrite Nat.iter_succ. by apply crc_bit_range. }
    intros n x Hx. split; [by apply Hr|]. intros y Hy. induction n as [|n IH]; [done|].
    rewrite !Nat.iter_succ. intros E. apply IH. by eapply crc_bit_inj; [apply Hr..|]. }
  assert (∀ c b, 0 ≤ c < 2 ^ 32 → is_byte b → 0 ≤ Z.lxor c b < 2 ^ 32) as Hx
    by (unfold is_byte; intros; apply (lxor_range 32); lia).
  intros Hc Hb. split; [by apply Hit, Hx|]. intros c' b' Hc' Hb'. by apply Hit; apply Hx.
Qed.

Lemma crc32_fold data : crc32 data = u32 (Z.lnot (foldl crc_byte 0xffffffff data)).
Proof. unfold crc32, crc_byte. reflexivity. Qed.

#[local] Opaque crc_byte.

Lemma crc_fold_range data c : 0 ≤ c < 2 ^ 32 → Forall is_byte data → 0 ≤ foldl crc_byte c data < 2 ^ 32.
Proof.
  revert c. induction data as [|b data IH]; intros c Hc; [done|]. intros [Hb Hd]%Forall_cons. cbn.
  apply IH; [|done]. by apply crc_byte_spec.
Qed.

Lemma crc_fold_inj data c c' :
  0 ≤ c < 2 ^ 32 → 0 ≤ c' < 2 ^ 32 → Forall is_byte data → foldl crc_byte c data = foldl crc_byte c' data → c = c'.
Proof.
  revert c c'. induction data as [|b data IH]; intros c c' Hc Hc'; [done|]. intros [Hb Hd]%Forall_cons. cbn. intros E.
  apply IH in E; [|by apply crc_byte_spec..|done].
  apply (crc_byte_spec c b) in E; [|done..]. by apply lxor_cancel_r in E.
Qed.

Lemma u32_lnot_inj x y : 0 ≤ x < 2 ^ 32 → 0 ≤ y < 2 ^ 32 → u32 (Z.lnot x) = u32 (Z.lnot y) → x = y.
Proof. unfold u32, Z.lnot. divlia. Qed.

(** The checksum detects every change confined to one byte. *)
Lemma crc32_detects_byte d1 b b' d2 :
  Forall is_byte d1 → Forall is_byte d2 → is_byte b → is_byte b' → b ≠ b' →
  crc32 (d1 ++ b :: d2) ≠ crc32 (d1 ++ b' :: d2).
Proof.
  intros Hd1 Hd2 Hb Hb' Hne E. apply Hne. rewrite !crc32_fold in E.
  assert (0 ≤ 0xffffffff < 2 ^ 32) as H0 by lia. pose proof (crc_fold_range _ _ H0 Hd1) as H1.
  apply u32_lnot_inj in E; [|apply crc_fold_range; [lia|]; by apply Forall_app_2; [|constructor]..].
  rewrite !foldl_app in E. cbn [foldl] in E. apply crc_fold_inj in E; [|by apply crc_byte_spec..|done].
  apply (crc_byte_spec _ b) in E; [|done..]. rewrite !(Z.lxor_comm (foldl _ _ _)) in E. by apply lxor_cancel_r in E.
Qed.

(** ** Images of byte arrays *)

Lemma le_from_le n l : length l = n → Forall is_byte l → le (Z.of_nat n) (from_le l) = l.
Proof.
  intros <- Hl. unfold le, from_le. apply Z_to_little_endian_to_Z; [done|lia|].
  eapply Forall_impl; [exact Hl|]. unfold is_byte. cbn. lia.
Qed.

Lemma field_split o n (l : list Z) : field o n l ++ drop (o + n) l = drop o l.
Proof. unfold field. rewrite <-drop_drop. apply take_drop. Qed.

Lemma field_bytes o n l : Forall is_byte l → Forall is_byte (field o n l).
Proof. intros. by apply Forall_take, Forall_drop. Qed.

Lemma field_length o n (l : list Z) : (o + n ≤ length l)%nat → length (field o n l) = n.
Proof. intros. unfold field. rewrite length_take, length_drop. lia. Qed.

Lemma le_field k o n l :
  k = Z.of_nat n → (o + n ≤ length l)%nat → Forall is_byte l → le k (from_le (field o n l)) = field o n l.
Proof. intros -> ? ?. apply le_from_le; [by apply field_length|by apply field_bytes]. Qed.

Lemma entry_image_of l : length l = ENTRY → Forall is_byte l → entry_image (entry_of l) = l.
Proof.
  unfold ENTRY. intros Hl Hb. unfold entry_image, entry_of. cbn [e_valid e_generation e_start_lba e_sectors e_size e_data_crc e_name e_reserved].
  rewrite !le_field by (done || lia). rewrite <-(app_nil_r (field 108 20 l)).
  replace [] with (drop (108 + 20) l) by (apply drop_ge; lia).
  rewrite (field_split 108), (field_split 28), (field_split 24), (field_split 20), (field_split 16),
    (field_split 8), (field_split 4), (field_split 0). done.
Qed.

Lemma dir_image_of n l : length l = (n * ENTRY)%nat → Forall is_byte l → dir_image (dir_of n l) = l.
Proof.
  revert l. induction n as [|n IH]; intros l Hl Hb; [by apply nil_length_inv in Hl|].
  cbn [dir_of]. unfold dir_image in *. cbn [fmap list_fmap concat].
  rewrite IH by (rewrite ?length_drop; by apply Forall_drop || lia).
  rewrite entry_image_of by (rewrite ?length_take; by apply Forall_take || lia). apply take_drop.
Qed.

(** ** Damage to the directory *)

Section damage.
Context {D : Type} `{BlockLayer D} (p : nat) (pr : partition) (ok healthy : D → Prop) (psector : D → Z → list Z).
Context `{!PartitionIO D p pr ok healthy psector}.
Context (vfs_at : nat → vfs (agfs * D)) (g_fs : nat).

Lemma load_fs_damaged s d s0 d0 dir :
  fs_inv p pr ok psector (s, d) → sectors (psector d0) 0 1 = sb_image (g_sb s) →
  sectors (psector d0) AEGISFS_DIR_LBA AEGISFS_DIR_SECTORS = dir → Forall is_byte dir →
  crc32 dir ≠ sb_directory_crc (g_sb s) → g_part s0 = Some p → ok d0 → healthy d0 →
  (load_fs (p_block_count pr) (s0, d0)).1 = AEGIS_EIO ∧
  g_mounted (load_fs (p_block_count pr) (s0, d0)).2.1 = g_mounted s0.
Proof.
  intros Hinv Hsb Hdir Hbytes Hcrc Hp Hok Hh. unfold load_fs. rewrite Hp.
  destruct (inv_next _ _ _ _ _ Hinv) as [Hlo Hhi]. cbn [fst] in Hlo, Hhi.
  assert (length dir = (AEGISFS_MAX_FILES * ENTRY)%nat) as Hlen.
  { rewrite <-Hdir. by rewrite sectors_length by (done || apply pio_length). }
  unfold AEGISFS_DATA_LBA, AEGISFS_DIR_LBA, AEGISFS_DIR_SECTORS in *.
  destruct (bl_read (Some p) 0 1 d0) as [[rc1 block] d1] eqn:E1.
  destruct (pio_read d0 0 1 _ _ _ Hok ltac:(lia) ltac:(lia) E1) as (_ & Hok1 & Hs1 & Hd1 & Hh1).
  destruct (Hh1 Hh ltac:(lia)) as [-> Hhd1]. destruct (Hd1 eq_refl) as [_ ->].
  cbn [negb Z.eqb AEGIS_OK]. rewrite Hsb. cbn zeta. rewrite sb_of_image by apply Hinv.
  destruct (inv_format _ _ _ _ _ Hinv) as (Hm & Hv & Hbl). cbn [fst] in Hm, Hv, Hbl.
  rewrite Hm, Hv, Hbl, !Z.eqb_refl. cbn [negb orb].
  change (g_part (s0 <| g_sb := g_sb s |>)) with (g_part s0). rewrite Hp.
  destruct (bl_read (Some p) 1 16 d1) as [[rc2 dir2] d2] eqn:E2.
  destruct (pio_read d1 1 16 _ _ _ Hok1 ltac:(lia) ltac:(lia) E2) as (_ & Hok2 & Hs2 & Hd2 & Hh2).
  destruct (Hh2 Hhd1 ltac:(lia)) as [-> Hhd2]. destruct (Hd2 eq_refl) as [_ ->].
  rewrite Z.eqb_refl. cbn [negb]. rewrite (sectors_ext _ (psector d0)) by (intros; apply Hs1). rewrite Hdir.
  cbn [g_entries set_field]. rewrite dir_image_of by done. by rewrite (proj2 (Z.eqb_neq _ _)).
Qed.

(** C38: when the directory on the disk differs in one byte from the one that was
    written, mounting the partition fails with AEGIS_EIO and mounts nothing. *)
Theorem mount_detects_damage vs s d s0 d0 l1 b b' l2 :
  fs_inv p pr ok psector (s, d) → synced psector (s, d) →
  dir_image (g_entries s) = l1 ++ b :: l2 → Forall is_byte (l1 ++ b :: l2) → is_byte b' → b ≠ b' →
  psector d0 0 = psector d 0 →
  sectors (psector d0) AEGISFS_DIR_LBA AEGISFS_DIR_SECTORS = l1 ++ b' :: l2 →
  ok d0 → healthy d0 → booted p pr vfs_at g_fs vs s0 d0 →
  ∃ s1 d1, aegisfs_mount_persistent vfs_at g_fs vs (s0, d0) = (AEGIS_EIO, vs, (s1, d1)) ∧ g_mounted s1 = false.
Proof.
  intros Hinv (Hsb & _ & Hcrc) Himg Hbytes Hb' Hne H0 Hdir Hok Hh (Hm & Hfind & Hready & Hw & _). cbn [fst snd] in *.
  apply Forall_app in Hbytes as [Hl1 [Hb Hl2]%Forall_cons].
  destruct (load_fs_damaged s d (s0 <| g_part := Some p |> <| g_writable := true |>) d0 (l1 ++ b' :: l2) Hinv) as [Hrc Hmt];
    [|done| |rewrite Hcrc, Himg; by apply not_eq_sym, crc32_detects_byte|done..|].
  - rewrite <-Hsb. apply sectors_ext. intros i Hi. by replace i with 0 by lia.
  - by apply Forall_app_2; [|constructor].
  - unfold aegisfs_mount_persistent. rewrite Hm, Hfind. cbn [mbind option_bind].
    rewrite (pio_info d0 Hok), Hready, Hw. cbn [andb negb].
    destruct (load_fs _ _) as [rc [s1 d1]]. cbn [fst snd] in Hrc, Hmt. subst rc.
    exists s1, d1. split; [done|]. by rewrite Hmt.
Qed.
End damage.

(** A formatted partition whose directory has its first byte changed. *)
Definition damaged_disk : blk * ramdisk :=
  (example_fs.2.1, ram_store 0 (p_start_lba config_partition + 1) 1 (1 :: replicate 511 0) example_fs.2.2).

Lemma example_fs_dir : dir_image (g_entries example_fs.1) = 0 :: replicate 8191 0.
Proof. vm_compute. reflexivity. Qed.
Lemma example_fs_synced : synced ram_psector example_fs.
Proof. split_and!; vm_compute; reflexivity. Qed.
Lemma damaged_disk_dir : sectors (ram_psector damaged_disk) AEGISFS_DIR_LBA AEGISFS_DIR_SECTORS = 1 :: replicate 8191 0.
Proof. vm_compute. reflexivity. Qed.
Lemma damaged_disk_booted : booted 2 config_partition example_vfs_at 0 example_vfs fresh_agfs damaged_disk.
Proof. split_and!; try done; vm_compute; eauto. Qed.
Lemma ram_ok_fst d w : ram_ok d → ram_ok (d.1, w).
Proof. done. Qed.
Lemma inv_ok w : fs_inv 2 config_partition ram_ok ram_psector w → ram_ok w.2.
Proof. intros Hinv. exact (inv_disk _ _ _ _ _ Hinv). Qed.
Lemma damaged_disk_ok : ram_ok damaged_disk.
Proof. unfold damaged_disk. apply ram_ok_fst, inv_ok, (proj1 example_fs_inv). Qed.

Lemma mount_detects_damage_witness :
  ∃ s1 d1, aegisfs_mount_persistent example_vfs_at 0 example_vfs (fresh_agfs, damaged_disk) =
             (AEGIS_EIO, example_vfs, (s1, d1)) ∧ g_mounted s1 = false.
Proof.
  destruct example_fs_inv as [Hinv _]. pose proof example_fs_synced as Hsync.
  rewrite (surjective_pairing example_fs) in Hinv, Hsync.
  apply (mount_detects_damage 2 config_partition ram_ok (λ _, True) ram_psector example_vfs_at 0 example_vfs
           example_fs.1 example_fs.2 fresh_agfs damaged_disk [] 0 1 (replicate 8191 0)).
  - exact Hinv.
  - exact Hsync.
  - exact example_fs_dir.
  - constructor; [unfold is_byte; lia|]. apply Forall_replicate. unfold is_byte. lia.
  - unfold is_byte. lia.
  - lia.
  - vm_compute. reflexivity.
  - exact damaged_disk_dir.
  - exact damaged_disk_ok.
  - exact I.
  - exact damaged_disk_booted.
Defined.
