(* ===== verification/Update.v ===== *)
(** Staged updates with two boot slots: kernel/core/update.c,
    kernel/include/update.h.

    The record of the active and the pending slot is one sector of the partition
    AEGIS_CONFIG, protected by a checksum. The operations are written against the
    class [BlockLayer] of [Block]. The abstract view of the record is a slot in
    use and possibly a slot on trial; the code is shown to implement it across
    power cycles. The last section shows that the sector of the record lies
    inside the data area of the file system on the same partition. *)

From S2P Require Import Prelude Vfs Block AegisFs.

Definition UPDATE_MAGIC : Z := 0x55474541.
Definition UPDATE_FORMAT : Z := 1.
Definition UPDATE_METADATA_LBA : Z := 96.
Definition AEGIS_UPDATE_HASH_BYTES : nat := 32.
Definition AEGIS_UPDATE_VERSION_MAX : nat := 32.

(** [aegis_update_slot_t]. *)
Definition AEGIS_UPDATE_SLOT_A : Z := 0.
Definition AEGIS_UPDATE_SLOT_B : Z := 1.
Definition AEGIS_UPDATE_SLOT_NONE : Z := 0xff.

Record update_state := mk_update {
  u_initialised : bool; u_metadata_valid : bool; u_pending : bool; u_rollback_required : bool;
  u_active_slot : Z; u_pending_slot : Z;
  u_boot_attempts : Z; u_max_boot_attempts : Z; u_generation : Z;
  u_active_version : string; u_pending_version : string;
  u_active_hash : list Z; u_pending_hash : list Z;
}.
#[export] Instance update_state_eta : Eta update_state := λ g,
  mk_update (u_initialised g) (u_metadata_valid g) (u_pending g) (u_rollback_required g)
    (u_active_slot g) (u_pending_slot g) (u_boot_attempts g) (u_max_boot_attempts g) (u_generation g)
    (u_active_version g) (u_pending_version g) (u_active_hash g) (u_pending_hash g).

(** The static variables [g] and [part]. *)
Record upd := mk_upd { u_g : update_state; u_part : option nat }.
#[export] Instance upd_eta : Eta upd := λ u, mk_upd (u_g u) (u_part u).

(** ** The record on disk *)

Record update_disk := mk_ud {
  ud_magic : Z; ud_format : Z; ud_crc32 : Z; ud_reserved : Z; ud_generation : Z;
  ud_active_slot : Z; ud_pending_slot : Z; ud_pending : Z; ud_rollback_required : Z;
  ud_boot_attempts : Z; ud_max_boot_attempts : Z;
  ud_active_version : list Z; ud_pending_version : list Z;
  ud_active_hash : list Z; ud_pending_hash : list Z; ud_pad : list Z;
}.
#[export] Instance update_disk_eta : Eta update_disk := λ d,
  mk_ud (ud_magic d) (ud_format d) (ud_crc32 d) (ud_reserved d) (ud_generation d)
    (ud_active_slot d) (ud_pending_slot d) (ud_pending d) (ud_rollback_required d)
    (ud_boot_attempts d) (ud_max_boot_attempts d) (ud_active_version d) (ud_pending_version d)
    (ud_active_hash d) (ud_pending_hash d) (ud_pad d).

Definition ud_image (d : update_disk) : list Z :=
  le 4 (ud_magic d) ++ le 4 (ud_format d) ++ le 4 (ud_crc32 d) ++ le 4 (ud_reserved d) ++
  le 8 (ud_generation d) ++ le 1 (ud_active_slot d) ++ le 1 (ud_pending_slot d) ++
  le 1 (ud_pending d) ++ le 1 (ud_rollback_required d) ++
  le 4 (ud_boot_attempts d) ++ le 4 (ud_max_boot_attempts d) ++
  ud_active_version d ++ ud_pending_version d ++ ud_active_hash d ++ ud_pending_hash d ++ ud_pad d.

Definition ud_of (l : list Z) : update_disk :=
  mk_ud (from_le (field 0 4 l)) (from_le (field 4 4 l)) (from_le (field 8 4 l)) (from_le (field 12 4 l))
    (from_le (field 16 8 l)) (from_le (field 24 1 l)) (from_le (field 25 1 l)) (from_le (field 26 1 l))
    (from_le (field 27 1 l)) (from_le (field 28 4 l)) (from_le (field 32 4 l))
    (field 36 32 l) (field 68 32 l) (field 100 32 l) (field 132 32 l) (field 164 348 l).

(** [strcopy] into a zeroed array, into a string of the state, and from an array
    of the record. *)
Definition strcopy_array (s : string) : list Z :=
  resize AEGIS_UPDATE_VERSION_MAX 0 (take (AEGIS_UPDATE_VERSION_MAX - 1) (bytes_of s)).
Definition strcopy (s : string) : string := str_take (AEGIS_UPDATE_VERSION_MAX - 1) s.
Definition strcopy_from (l : list Z) : string := c_string (take (AEGIS_UPDATE_VERSION_MAX - 1) l).
#[global] Arguments strcopy_array : simpl never.
#[global] Arguments strcopy : simpl never.
#[global] Arguments strcopy_from : simpl never.

(** [crc32] is the loop of fs/aegisfs.c. *)
Definition disk_crc (d : update_disk) : Z := crc32 (ud_image (d <| ud_crc32 := 0 |>)).

Definition zero_ud : update_disk :=
  mk_ud 0 0 0 0 0 0 0 0 0 0 0 (replicate 32 0) (replicate 32 0) (replicate 32 0) (replicate 32 0)
    (replicate 348 0).

(** The record [store] writes. *)
Definition disk_of (g : update_state) : update_disk :=
  let d := zero_ud <| ud_magic := UPDATE_MAGIC |> <| ud_format := UPDATE_FORMAT |>
             <| ud_generation := u_generation g |>
             <| ud_active_slot := u8 (u_active_slot g) |> <| ud_pending_slot := u8 (u_pending_slot g) |>
             <| ud_pending := Z.b2z (u_pending g) |> <| ud_rollback_required := Z.b2z (u_rollback_required g) |>
             <| ud_boot_attempts := u_boot_attempts g |> <| ud_max_boot_attempts := u_max_boot_attempts g |>
             <| ud_active_version := strcopy_array (u_active_version g) |>
             <| ud_pending_version := strcopy_array (u_pending_version g) |>
             <| ud_active_hash := u_active_hash g |> <| ud_pending_hash := u_pending_hash g |> in
  d <| ud_crc32 := disk_crc d |>.

Definition zero_update : update_state :=
  mk_update false false false false 0 0 0 0 0 EmptyString EmptyString
    (replicate AEGIS_UPDATE_HASH_BYTES 0) (replicate AEGIS_UPDATE_HASH_BYTES 0).

Definition defaults : update_state :=
  zero_update <| u_initialised := true |> <| u_metadata_valid := true |>
    <| u_active_slot := AEGIS_UPDATE_SLOT_A |> <| u_pending_slot := AEGIS_UPDATE_SLOT_NONE |>
    <| u_max_boot_attempts := 3 |> <| u_active_version := strcopy "2.0.0-development" |>.

(** The assignments of [update_init] from an accepted record. *)
Definition load (d : update_disk) (g : update_state) : update_state :=
  g <| u_generation := ud_generation d |>
    <| u_active_slot := ud_active_slot d |> <| u_pending_slot := ud_pending_slot d |>
    <| u_pending := negb (ud_pending d =? 0) |>
    <| u_rollback_required := negb (ud_rollback_required d =? 0) |>
    <| u_boot_attempts := ud_boot_attempts d |>
    <| u_max_boot_attempts := if negb (ud_max_boot_attempts d =? 0) then ud_max_boot_attempts d else 3 |>
    <| u_active_version := strcopy_from (ud_active_version d) |>
    <| u_pending_version := strcopy_from (ud_pending_version d) |>
    <| u_active_hash := ud_active_hash d |> <| u_pending_hash := ud_pending_hash d |>.

Definition record_valid (d : update_disk) : bool :=
  (ud_magic d =? UPDATE_MAGIC) && (ud_format d =? UPDATE_FORMAT) && (disk_crc d =? ud_crc32 d).

Section update.
Context {D : Type} `{BlockLayer D}.
Notation W := (upd * D)%type.

Definition store (w : W) : Z * W :=
  let '(u, d) := w in
  match u_part u with
  | None => (AEGIS_ENOENT, w)
  | Some p =>
      let '(rc, d) := bl_write (Some p) UPDATE_METADATA_LBA 1 (ud_image (disk_of (u_g u))) d in
      if rc =? AEGIS_OK
      then let '(rc, d) := bl_flush (from_option p_device_id 0 (bl_partition p d)) d in (rc, (u, d))
      else (rc, (u, d))
  end.

Definition update_init (w : W) : Z * W :=
  let d := w.2 in
  let part := bl_find_partition "AEGIS_CONFIG" d in
  let u := mk_upd defaults part in
  match part with
  | None => (AEGIS_ENOENT, (u, d))
  | Some p =>
      if negb (bl_io_backend_ready d) then (AEGIS_ENOENT, (u, d))
      else
        let '(rc, data, d) := bl_read (Some p) UPDATE_METADATA_LBA 1 d in
        if negb (rc =? AEGIS_OK) || negb (record_valid (ud_of data))
        then store (u <| u_g ::= λ g, g <| u_generation := 1 |> |>, d)
        else
          let g := load (ud_of data) defaults in
          if u_pending g && (u_max_boot_attempts g <=? u_boot_attempts g)
          then
            let g := g <| u_rollback_required := true |> <| u_pending := false |>
                       <| u_pending_slot := AEGIS_UPDATE_SLOT_NONE |>
                       <| u_generation := u64 (u_generation g + 1) |> in
            (AEGIS_OK, (store (u <| u_g := g |>, d)).2)
          else (AEGIS_OK, (u <| u_g := g |>, d))
  end.

Definition update_stage (slot : Z) (version : option string) (hash : option (list Z)) (w : W) : Z * W :=
  let '(u, d) := w in
  let g := u_g u in
  match version, hash with
  | Some version, Some hash =>
      if negb (u_initialised g) || bool_decide (u_part u = None) || (AEGIS_UPDATE_SLOT_B <? slot)
         || (slot =? u_active_slot g)
      then (AEGIS_EINVAL, w)
      else
        store (u <| u_g := g <| u_pending := true |> <| u_rollback_required := false |>
                             <| u_pending_slot := slot |> <| u_boot_attempts := 0 |>
                             <| u_pending_version := strcopy version |>
                             <| u_pending_hash := take AEGIS_UPDATE_HASH_BYTES hash |>
                             <| u_generation := u64 (u_generation g + 1) |> |>, d)
  | _, _ => (AEGIS_EINVAL, w)
  end.

Definition update_note_boot_attempt (w : W) : Z * W :=
  let '(u, d) := w in
  if negb (u_pending (u_g u)) then (AEGIS_OK, w)
  else
    let g := (u_g u) <| u_boot_attempts := u32 (u_boot_attempts (u_g u) + 1) |> in
    let g := if u_max_boot_attempts g <=? u_boot_attempts g then g <| u_rollback_required := true |> else g in
    store (u <| u_g := g <| u_generation := u64 (u_generation g + 1) |> |>, d).

Definition update_mark_boot_success (w : W) : Z * W :=
  let '(u, d) := w in
  let g := u_g u in
  if negb (u_pending g) then (AEGIS_EINVAL, w)
  else
    store (u <| u_g := g <| u_active_slot := u_pending_slot g |>
                         <| u_pending_slot := AEGIS_UPDATE_SLOT_NONE |>
                         <| u_pending := false |> <| u_rollback_required := false |>
                         <| u_boot_attempts := 0 |>
                         <| u_active_version := strcopy (u_pending_version g) |>
                         <| u_active_hash := u_pending_hash g |>
                         <| u_pending_version := EmptyString |>
                         <| u_pending_hash := replicate AEGIS_UPDATE_HASH_BYTES 0 |>
                         <| u_generation := u64 (u_generation g + 1) |> |>, d).

Definition update_request_rollback (w : W) : Z * W :=
  let '(u, d) := w in
  let g := u_g u in
  store (u <| u_g := g <| u_rollback_required := true |> <| u_pending := false |>
                       <| u_pending_slot := AEGIS_UPDATE_SLOT_NONE |> <| u_boot_attempts := 0 |>
                       <| u_generation := u64 (u_generation g + 1) |> |>, d).

End update.

(** ** The record can be read back *)

Definition ud_wf (d : update_disk) : Prop :=
  0 ≤ ud_magic d < 2 ^ 32 ∧ 0 ≤ ud_format d < 2 ^ 32 ∧ 0 ≤ ud_crc32 d < 2 ^ 32 ∧ 0 ≤ ud_reserved d < 2 ^ 32 ∧
  0 ≤ ud_generation d < 2 ^ 64 ∧ 0 ≤ ud_active_slot d < 2 ^ 8 ∧ 0 ≤ ud_pending_slot d < 2 ^ 8 ∧
  0 ≤ ud_pending d < 2 ^ 8 ∧ 0 ≤ ud_rollback_required d < 2 ^ 8 ∧
  0 ≤ ud_boot_attempts d < 2 ^ 32 ∧ 0 ≤ ud_max_boot_attempts d < 2 ^ 32 ∧
  length (ud_active_version d) = 32%nat ∧ length (ud_pending_version d) = 32%nat ∧
  length (ud_active_hash d) = 32%nat ∧ length (ud_pending_hash d) = 32%nat ∧ length (ud_pad d) = 348%nat.

Lemma ud_image_length d : ud_wf d → length (ud_image d) = SECTOR.
Proof.
  intros (_ & _ & _ & _ & _ & _ & _ & _ & _ & _ & _ & H1 & H2 & H3 & H4 & H5). unfold ud_image.
  rewrite !length_app, !le_length by lia. rewrite H1, H2, H3, H4, H5. reflexivity.
Qed.

Lemma field_32 o n (a l : list Z) : length a = 32%nat → (32 ≤ o)%nat → field o n (a ++ l) = field (o - 32) n l.
Proof. intros Ha Ho. rewrite field_skip by lia. by rewrite Ha. Qed.

Lemma ud_of_image d : ud_wf d → ud_of (ud_image d) = d.
Proof.
  intros (? & ? & ? & ? & ? & ? & ? & ? & ? & ? & ? & H1 & H2 & H3 & H4 & H5).
  unfold ud_of, ud_image. destruct d; cbn in *. f_equal.
  all: read_field.
  all: try (rewrite field_here by (by rewrite le_length by lia); apply from_le_le; lia).
  all: repeat (rewrite field_32 by (done || lia); cbn [Nat.sub]).
  all: by (apply field_here || apply field_all).
Qed.

Lemma bytes_of_str_take n s : bytes_of (str_take n s) = take n (bytes_of s).
Proof.
  unfold bytes_of. revert s. induction n as [|n IH]; intros [|c s]; cbn; [done..|]. f_equal. apply IH.
Qed.

Lemma bytes_of_length s : length (bytes_of s) = String.length s.
Proof. unfold bytes_of. rewrite length_fmap. induction s as [|c s IH]; cbn; [done|]. by rewrite IH. Qed.

(** A version as the state holds it. *)
Definition version_wf (v : string) : Prop := c_str v ∧ (String.length v < AEGIS_UPDATE_VERSION_MAX)%nat.

Lemma strcopy_wf v : c_str v → version_wf (strcopy v).
Proof.
  intros Hv. split.
  - unfold c_str, strcopy. rewrite bytes_of_str_take. by apply Forall_take.
  - unfold strcopy. pose proof (str_take_length (AEGIS_UPDATE_VERSION_MAX - 1) v). unfold AEGIS_UPDATE_VERSION_MAX in *. lia.
Qed.

Lemma strcopy_id v : version_wf v → strcopy v = v.
Proof. intros [_ Hl]. apply str_take_id. unfold AEGIS_UPDATE_VERSION_MAX in *. lia. Qed.

Lemma strcopy_roundtrip v : version_wf v → strcopy_from (strcopy_array v) = v.
Proof.
  intros [Hc Hl]. rewrite <-bytes_of_length in Hl. unfold strcopy_from, strcopy_array, AEGIS_UPDATE_VERSION_MAX in *.
  rewrite (take_ge (bytes_of v)) by lia. rewrite resize_spec, (take_ge (bytes_of v)) by lia.
  destruct (decide (length (bytes_of v) = 31)%nat) as [E|Hne].
  - rewrite take_app_le by lia. rewrite take_ge by lia.
    pose proof (c_string_bytes v [] Hc) as Hv. revert Hv. clear. generalize (bytes_of v) as l.
    intros l Hv. rewrite <-Hv. clear Hv. induction l as [|x l IH]; cbn; [done|]. destruct (x =? 0); [done|]. by rewrite IH at 1.
  - rewrite take_app_ge by lia.
    destruct (32 - length (bytes_of v))%nat as [|[|k]] eqn:Ek; [lia..|].
    destruct (32 - 1 - length (bytes_of v))%nat as [|j] eqn:Ej; [lia|]. cbn. by apply c_string_bytes.
Qed.

Lemma strcopy_array_length v : length (strcopy_array v) = 32%nat.
Proof. apply length_resize. Qed.

(** ** Well-formed states *)

(** One slot is in use; a trial names the other one. *)
Record state_wf (g : update_state) : Prop := {
  sw_init : u_initialised g = true ∧ u_metadata_valid g = true;
  sw_max : u_max_boot_attempts g = 3;
  sw_attempts : 0 ≤ u_boot_attempts g < 2 ^ 32;
  sw_generation : 0 ≤ u_generation g < 2 ^ 64;
  sw_active : u_active_slot g = AEGIS_UPDATE_SLOT_A ∨ u_active_slot g = AEGIS_UPDATE_SLOT_B;
  sw_pending : if u_pending g then u_pending_slot g = 1 - u_active_slot g
               else u_pending_slot g = AEGIS_UPDATE_SLOT_NONE;
  sw_versions : version_wf (u_active_version g) ∧ version_wf (u_pending_version g);
  sw_hashes : length (u_active_hash g) = AEGIS_UPDATE_HASH_BYTES ∧ length (u_pending_hash g) = AEGIS_UPDATE_HASH_BYTES;
}.

Lemma defaults_wf : state_wf (defaults <| u_generation := 1 |>).
Proof.
  split; cbn; try done; try lia; try by left. split; [|split; [constructor|cbn; unfold AEGIS_UPDATE_VERSION_MAX; lia]].
  apply strcopy_wf. repeat constructor; vm_compute; done.
Qed.

Lemma wf_slots g : state_wf g → 0 ≤ u_active_slot g < 256 ∧ 0 ≤ u_pending_slot g < 256.
Proof.
  intros [_ _ _ _ Ha Hp _ _]. unfold AEGIS_UPDATE_SLOT_A, AEGIS_UPDATE_SLOT_B, AEGIS_UPDATE_SLOT_NONE in *.
  destruct (u_pending g); lia.
Qed.

Lemma disk_of_wf g : state_wf g → ud_wf (disk_of g).
Proof.
  intros Hwf. destruct (wf_slots g Hwf). destruct Hwf as [_ Hm Ha Hg _ _ _ [Hh1 Hh2]].
  unfold ud_wf, disk_of. cbn -[disk_crc u8]. rewrite !u8_small by lia.
  split_and!; try (unfold UPDATE_MAGIC, UPDATE_FORMAT; lia); try apply u32_range;
    try (destruct (u_pending g), (u_rollback_required g); cbn; lia); try apply strcopy_array_length; done.
Qed.

Lemma disk_of_valid g : record_valid (disk_of g) = true.
Proof. unfold record_valid, disk_of. cbn -[crc32 ud_image Z.eqb]. rewrite !Z.eqb_refl. done. Qed.

Lemma load_disk_of g : state_wf g → load (disk_of g) defaults = g.
Proof.
  intros Hwf. destruct (wf_slots g Hwf). destruct Hwf as [[Hi Hv] Hm _ _ _ _ [Hv1 Hv2] _].
  apply strcopy_roundtrip in Hv1, Hv2. destruct g; unfold load, disk_of; cbn -[crc32 ud_image u8] in *.
  subst. rewrite !u8_small by lia. rewrite Hv1, Hv2. by destruct u_pending0, u_rollback_required0.
Qed.

(** ** The abstract update plan *)

Record boot_image := mk_image { bi_slot : Z; bi_version : string; bi_hash : list Z }.

(** The image in use, the image on trial with the number of boots it was given,
    and whether the last trial was given up. *)
Record plan := mk_plan { pl_active : boot_image; pl_trial : option (boot_image * Z); pl_rollback : bool }.

Definition view (g : update_state) : plan :=
  mk_plan (mk_image (u_active_slot g) (u_active_version g) (u_active_hash g))
    (if u_pending g
     then Some (mk_image (u_pending_slot g) (u_pending_version g) (u_pending_hash g), u_boot_attempts g)
     else None)
    (u_rollback_required g).

Inductive update_op :=
| Stage (slot : Z) (version : string) (hash : list Z)
| NoteBoot
| MarkSuccess
| RequestRollback
| Reboot.

Definition MAX_TRIALS : Z := 3.

Definition plan_step (op : update_op) (pl : plan) : Z * plan :=
  match op, pl_trial pl with
  | Stage slot version hash, _ =>
      if slot =? 1 - bi_slot (pl_active pl)
      then (AEGIS_OK, mk_plan (pl_active pl) (Some (mk_image slot (strcopy version) hash, 0)) false)
      else (AEGIS_EINVAL, pl)
  | NoteBoot, Some (i, n) =>
      (AEGIS_OK, mk_plan (pl_active pl) (Some (i, u32 (n + 1))) (pl_rollback pl || (MAX_TRIALS <=? u32 (n + 1))))
  | NoteBoot, None => (AEGIS_OK, pl)
  | MarkSuccess, Some (i, _) => (AEGIS_OK, mk_plan i None false)
  | MarkSuccess, None => (AEGIS_EINVAL, pl)
  | RequestRollback, _ => (AEGIS_OK, mk_plan (pl_active pl) None true)
  | Reboot, Some (i, n) =>
      (AEGIS_OK, if MAX_TRIALS <=? n then mk_plan (pl_active pl) None true else pl)
  | Reboot, None => (AEGIS_OK, pl)
  end.

Fixpoint plan_run (ops : list update_op) (pl : plan) : list Z * plan :=
  match ops with
  | [] => ([], pl)
  | op :: ops => let '(rc, pl) := plan_step op pl in let '(rcs, pl) := plan_run ops pl in (rc :: rcs, pl)
  end.

Definition factory : plan :=
  mk_plan (mk_image AEGIS_UPDATE_SLOT_A "2.0.0-development" (replicate AEGIS_UPDATE_HASH_BYTES 0)) None false.

(** What the arguments of an operation satisfy by their types: a slot is
    unsigned, a version a C string, a hash 32 bytes. *)
Definition op_typed (op : update_op) : Prop :=
  match op with
  | Stage slot version hash => 0 ≤ slot ∧ c_str version ∧ length hash = AEGIS_UPDATE_HASH_BYTES
  | _ => True
  end.

Section run.
Context {D : Type} `{BlockLayer D}.

(** A reboot loses the variables of the module and keeps the disk. *)
Definition power_cycle (w : upd * D) : upd * D := (mk_upd zero_update None, w.2).

Definition update_exec (op : update_op) (w : upd * D) : Z * (upd * D) :=
  match op with
  | Stage slot version hash => update_stage slot (Some version) (Some hash) w
  | NoteBoot => update_note_boot_attempt w
  | MarkSuccess => update_mark_boot_success w
  | RequestRollback => update_request_rollback w
  | Reboot => update_init (power_cycle w)
  end.

Fixpoint update_run (ops : list update_op) (w : upd * D) : list Z * (upd * D) :=
  match ops with
  | [] => ([], w)
  | op :: ops => let '(rc, w) := update_exec op w in let '(rcs, w) := update_run ops w in (rc :: rcs, w)
  end.

End run.

(** What a module relies on to find its partition at every boot. *)
Class NamedPartition (D : Type) `{BlockLayer D} (name : string) (p : nat) (ok : D → Prop) := {
  np_find d : ok d → bl_find_partition name d = Some p;
  np_ready d : ok d → bl_io_backend_ready d = true;
}.

Section spec.
Context {D : Type} `{BlockLayer D} (p : nat) (pr : partition) (ok healthy : D → Prop)
  (psector : D → Z → list Z).
Context `{!PartitionIO D p pr ok healthy psector} `{!NamedPartition D "AEGIS_CONFIG" p ok}.
Context (Hroom : UPDATE_METADATA_LBA < p_block_count pr).

(** The record on disk is the state in memory. *)
Record upd_inv (w : upd * D) : Prop := {
  ui_part : u_part w.1 = Some p;
  ui_wf : state_wf (u_g w.1);
  ui_ok : ok w.2;
  ui_healthy : healthy w.2;
  ui_disk : psector w.2 UPDATE_METADATA_LBA = ud_image (disk_of (u_g w.1));
}.

Lemma sectors_one f i : sectors f i 1 = f i.
Proof. unfold sectors. rewrite seqZ_cons by lia. cbn [fmap list_fmap concat]. apply app_nil_r. Qed.

Lemma store_spec u d :
  u_part u = Some p → state_wf (u_g u) → ok d → healthy d →
  ∃ d', store (u, d) = (AEGIS_OK, (u, d')) ∧ upd_inv (u, d').
Proof.
  intros Hp Hwf Hok Hh. unfold store. rewrite Hp.
  assert (Z.of_nat (length (ud_image (disk_of (u_g u)))) = 1 * Z.of_nat SECTOR) as Hlen
    by (rewrite ud_image_length by (by apply disk_of_wf); lia).
  destruct (bl_write _ _ _ _ d) as [rc d1] eqn:E1.
  destruct (pio_write d UPDATE_METADATA_LBA 1 _ _ _ Hok ltac:(unfold UPDATE_METADATA_LBA; lia) ltac:(lia) Hlen E1)
    as (_ & Hok1 & _ & Hs1 & Hh1).
  destruct (Hh1 Hh ltac:(lia)) as [-> Hhd1]. destruct (Hs1 eq_refl) as [_ Hs]. rewrite sectors_one in Hs.
  rewrite (pio_info d1 Hok1). cbn [Z.eqb AEGIS_OK from_option].
  destruct (bl_flush _ d1) as [rc2 d2] eqn:E2.
  destruct (pio_flush _ _ _ Hok1 E2) as (_ & Hok2 & Hsec & Hh2). destruct (Hh2 Hhd1) as [-> Hhd2].
  exists d2. split; [done|]. split; cbn [fst snd]; try done. by rewrite Hsec.
Qed.

(** Booting from a disk whose record is a well-formed state. *)
Lemma update_init_restores u0 d g :
  ok d → healthy d → state_wf g → psector d UPDATE_METADATA_LBA = ud_image (disk_of g) →
  ∃ u' d', update_init (u0, d) = (AEGIS_OK, (u', d')) ∧ upd_inv (u', d') ∧
    view (u_g u') = (plan_step Reboot (view g)).2.
Proof.
  intros Hok Hh Hwf Hs. unfold update_init. cbn [snd]. rewrite (np_find d Hok), (np_ready d Hok). cbn [negb].
  destruct (bl_read _ _ _ d) as [[rc data] d1] eqn:E.
  destruct (pio_read d UPDATE_METADATA_LBA 1 _ _ _ Hok ltac:(unfold UPDATE_METADATA_LBA; lia) ltac:(lia) E)
    as (_ & Hok1 & Hsec & Hd & Hh1).
  destruct (Hh1 Hh ltac:(lia)) as [-> Hhd1]. destruct (Hd eq_refl) as [_ ->].
  rewrite sectors_one, Hs, ud_of_image, disk_of_valid, load_disk_of by (done || by apply disk_of_wf).
  cbn [Z.eqb AEGIS_OK negb orb]. unfold plan_step, view. cbn [pl_trial].
  rewrite (sw_max g Hwf). destruct (u_pending g) eqn:Ep; cbn [andb].
  - unfold MAX_TRIALS. destruct (3 <=? u_boot_attempts g).
    + match goal with |- context [store (?u, d1)] => destruct (store_spec u d1) as (d' & E' & Hinv) end;
        [done| |done..|].
      { destruct Hwf. split; cbn; try done. apply u64_range. }
      eexists _, d'. rewrite E'. split; [done|]. split; [done|]. done.
    + eexists _, d1. split; [done|]. split; [|cbn; by rewrite Ep]. split; cbn; try done. by rewrite Hsec.
  - eexists _, d1. split; [done|]. split; [|cbn; by rewrite Ep]. split; cbn; try done. by rewrite Hsec.
Qed.

(** Booting from a disk without a record. *)
Lemma update_init_blank u0 d :
  ok d → healthy d → record_valid (ud_of (psector d UPDATE_METADATA_LBA)) = false →
  ∃ u' d', update_init (u0, d) = (AEGIS_OK, (u', d')) ∧ upd_inv (u', d') ∧ view (u_g u') = factory.
Proof.
  intros Hok Hh Hs. unfold update_init. cbn [snd]. rewrite (np_find d Hok), (np_ready d Hok). cbn [negb].
  destruct (bl_read _ _ _ d) as [[rc data] d1] eqn:E.
  destruct (pio_read d UPDATE_METADATA_LBA 1 _ _ _ Hok ltac:(unfold UPDATE_METADATA_LBA; lia) ltac:(lia) E)
    as (_ & Hok1 & Hsec & Hd & Hh1).
  destruct (Hh1 Hh ltac:(lia)) as [-> Hhd1]. destruct (Hd eq_refl) as [_ ->].
  rewrite sectors_one, Hs, orb_true_r.
  match goal with |- context [store (?u, d1)] => destruct (store_spec u d1) as (d' & E' & Hinv) end;
    [done|apply defaults_wf|done..|].
  eexists _, d'. by split_and!.
Qed.

Lemma stage_guard slot g :
  state_wf g → 0 ≤ slot →
  (AEGIS_UPDATE_SLOT_B <? slot) || (slot =? u_active_slot g) = negb (slot =? 1 - u_active_slot g).
Proof.
  intros [_ _ _ _ Ha _ _ _] Hs. unfold AEGIS_UPDATE_SLOT_A, AEGIS_UPDATE_SLOT_B in *.
  destruct (Z.eqb_spec slot (1 - u_active_slot g)), (Z.ltb_spec 1 slot), (Z.eqb_spec slot (u_active_slot g));
    cbn; try done; lia.
Qed.

(** Stores the state a goal names and leaves its well-formedness. *)
Ltac by_store Hp Hok Hh :=
  match goal with |- context [store (?u, ?d)] =>
    destruct (store_spec u d) as (?d' & ?E' & ?Hinv'); [exact Hp| |exact Hok|exact Hh|];
    [|match goal with E : store _ = _ |- _ => rewrite E end; eexists _, (_, _);
      split; [reflexivity|]; split; [eassumption|]]
  end.

Lemma update_exec_refines op w :
  upd_inv w → op_typed op →
  ∃ rc w', update_exec op w = (rc, w') ∧ upd_inv w' ∧
    (rc, view (u_g w'.1)) = plan_step op (view (u_g w.1)).
Proof.
  intros Hinv Hop. destruct w as [u d]. pose proof Hinv as [Hp Hwf Hok Hh Hdisk]. cbn [fst snd] in *.
  destruct op as [slot version hash| | | |]; cbn [update_exec].
  - destruct Hop as (Hs & Hv & Hl). unfold update_stage. rewrite (proj1 (sw_init _ Hwf)), Hp.
    rewrite bool_decide_false by done. cbn [negb orb]. rewrite stage_guard by done.
    unfold plan_step. change (bi_slot (pl_active (view (u_g u)))) with (u_active_slot (u_g u)).
    destruct (Z.eqb_spec slot (1 - u_active_slot (u_g u))) as [->|Hne]; cbn [negb].
    + rewrite (take_ge hash) by lia. by_store Hp Hok Hh; [|reflexivity].
      destruct Hwf. split; cbn; try done; [apply u64_range|split; [apply sw_versions0|by apply strcopy_wf]|].
      split; [apply sw_hashes0|done].
    + by eexists _, _.
  - unfold update_note_boot_attempt, plan_step, view. cbn [fst pl_trial].
    destruct (u_pending (u_g u)) eqn:Ep; cbn [negb]; [|eexists _, _; split_and!; try done; cbn; by rewrite Ep].
    set (n := u32 (u_boot_attempts (u_g u) + 1)).
    change (u_max_boot_attempts ((u_g u) <| u_boot_attempts := n |>)) with (u_max_boot_attempts (u_g u)).
    change (u_boot_attempts ((u_g u) <| u_boot_attempts := n |>)) with n.
    rewrite (sw_max _ Hwf). by_store Hp Hok Hh.
    + destruct Hwf. destruct (_ <=? _); split; cbn; try done; try apply u32_range; apply u64_range.
    + unfold MAX_TRIALS. cbn. destruct (3 <=? _); cbn; rewrite Ep; by rewrite ?orb_true_r, ?orb_false_r.
  - unfold update_mark_boot_success, plan_step, view. cbn [fst pl_trial].
    destruct (u_pending (u_g u)) eqn:Ep; cbn [negb]; [|eexists _, _; split_and!; try done; cbn; by rewrite Ep].
    by_store Hp Hok Hh.
    + destruct Hwf as [? ? ? ? Ha Hpd [_ Hv] [_ Hl]]. rewrite Ep in Hpd.
      split; cbn; unfold AEGIS_UPDATE_SLOT_A, AEGIS_UPDATE_SLOT_B in *; try done; try lia; try apply u64_range.
      rewrite strcopy_id by done. split; [done|]. split; [constructor|cbn; unfold AEGIS_UPDATE_VERSION_MAX; lia].
    + destruct Hwf as [_ _ _ _ _ _ [_ Hv] _]. cbn. by rewrite strcopy_id.
  - unfold update_request_rollback. by_store Hp Hok Hh; [|done].
    destruct Hwf. split; cbn; try done; try lia; apply u64_range.
  - destruct (update_init_restores (mk_upd zero_update None) d (u_g u)) as (u' & d' & E & Hinv' & Hview); [done..|].
    exists AEGIS_OK, (u', d'). split; [exact E|]. split; [done|]. cbn [fst]. rewrite Hview. unfold plan_step.
    by destruct (pl_trial _) as [[]|].
Qed.

Lemma update_run_refines ops w :
  upd_inv w → Forall op_typed ops →
  ∃ w', update_run ops w = ((plan_run ops (view (u_g w.1))).1, w') ∧ upd_inv w' ∧
    view (u_g w'.1) = (plan_run ops (view (u_g w.1))).2.
Proof.
  intros Hinv Hops. revert w Hinv. induction Hops as [|op ops Hop _ IH]; intros w Hinv; [by exists w|].
  cbn [update_run plan_run].
  destruct (update_exec_refines op w Hinv Hop) as (rc & w1 & E1 & Hinv1 & Hv1).
  destruct (IH w1 Hinv1) as (w2 & E2 & Hinv2 & Hv2).
  rewrite E1, E2, <-Hv1. exists w2. destruct (plan_run ops _) as [rcs pl]. by split_and!.
Qed.

(** C19: the update module implements the abstract plan. On a partition without a
    record and a device without I/O errors, the first boot gives the factory plan,
    and after any sequence of staging, boot attempts, confirmations, rollbacks and
    power cycles the plan in memory and the results of the calls are those of the
    abstract one, one slot is in use, a trial names the other slot, and the record
    on disk is the state in memory, so that no power cycle between two calls loses
    anything. *)
Theorem update_refines_plan ops u0 d :
  ok d → healthy d → record_valid (ud_of (psector d UPDATE_METADATA_LBA)) = false →
  Forall op_typed ops →
  ∃ w', update_run (Reboot :: ops) (u0, d) = (AEGIS_OK :: (plan_run ops factory).1, w') ∧
    view (u_g w'.1) = (plan_run ops factory).2 ∧ upd_inv w'.
Proof.
  intros Hok Hh Hs Hops. cbn [update_run update_exec].
  change (power_cycle (u0, d)) with (mk_upd zero_update None, d).
  destruct (update_init_blank (mk_upd zero_update None) d) as (u1 & d1 & E1 & Hinv1 & Hv1); [done..|].
  destruct (update_run_refines ops (u1, d1) Hinv1 Hops) as (w2 & E2 & Hinv2 & Hv2).
  cbn [fst] in E2, Hv2. rewrite Hv1 in E2, Hv2. rewrite E1, E2. by exists w2.
Qed.

(** A boot that starts and never reports success. *)
Definition failed_boots (k : nat) : list update_op := concat (replicate k [Reboot; NoteBoot]).

Lemma failed_boots_S k : failed_boots (S k) = failed_boots k ++ [Reboot; NoteBoot].
Proof. unfold failed_boots. rewrite replicate_S_end, concat_app. done. Qed.

Lemma plan_run_app ops ops' pl : (plan_run (ops ++ ops') pl).2 = (plan_run ops' (plan_run ops pl).2).2.
Proof.
  revert pl. induction ops as [|op ops IH]; intros pl; [done|]. cbn [plan_run app].
  destruct (plan_step op pl) as [rc pl1]. specialize (IH pl1).
  destruct (plan_run (ops ++ ops') pl1), (plan_run ops pl1). done.
Qed.

Lemma failed_boots_plan a i k :
  (plan_run (failed_boots k) (mk_plan a (Some (i, 0)) false)).2 =
  if Z.of_nat k <=? MAX_TRIALS then mk_plan a (Some (i, Z.of_nat k)) (Z.of_nat k =? MAX_TRIALS)
  else mk_plan a None true.
Proof.
  unfold MAX_TRIALS. induction k as [|k IH]; [done|]. rewrite failed_boots_S, plan_run_app, IH.
  destruct (Z.leb_spec (Z.of_nat k) 3) as [Hk|Hk].
  - unfold plan_run, plan_step. cbn [pl_trial pl_active pl_rollback]. unfold MAX_TRIALS.
    destruct (Z.leb_spec 3 (Z.of_nat k)) as [Hk'|Hk'].
    + cbn [pl_trial snd]. rewrite (proj2 (Z.leb_gt _ _)) by lia. done.
    + cbn [pl_trial snd pl_active pl_rollback]. rewrite (proj2 (Z.leb_le (Z.of_nat (S k)) 3)) by lia.
      rewrite u32_small by lia. replace (Z.of_nat k + 1) with (Z.of_nat (S k)) by lia. f_equal.
      destruct (Z.eqb_spec (Z.of_nat k) 3), (Z.leb_spec 3 (Z.of_nat (S k))), (Z.eqb_spec (Z.of_nat (S k)) 3);
        (done || lia).
  - cbn. rewrite (proj2 (Z.leb_gt _ _)) by lia. done.
Qed.


End spec.

(** ** The block layer finds the partition again *)

Section named.
Context {W : Type} (ops_at : nat → blk_ops W).
Context (sector : W → Z → Z → list Z) (good : W → Prop).
Context `{Hdrv : ∀ o, SectorDriver (ops_at o) sector good}.

Definition named_ok (name : string) (p : nat) (pr : partition) (ctx : Z) (d : blk * W) : Prop :=
  part_ok ops_at p pr ctx d.1 ∧ block_storage_find_partition name d.1 = Some p ∧
  r_io_backend_ready (reg d.1) = true.

(** An access leaves the registry and the partition table alone. *)
Definition same_tables (b b' : blk) : Prop := partitions b' = partitions b ∧ reg b' = reg b.

Lemma block_partition_read_tables p rel n b w rc data b' w' :
  block_partition_read ops_at p rel n true b w = (rc, data, b', w') → same_tables b b'.
Proof.
  unfold block_partition_read, block_storage_read. intros E. repeat case_match; simplify_eq; done.
Qed.

Lemma block_partition_write_tables p rel n data b w rc b' w' :
  block_partition_write ops_at p rel n data b w = (rc, b', w') → same_tables b b'.
Proof.
  unfold block_partition_write, block_storage_write. intros E. repeat case_match; simplify_eq; done.
Qed.

Lemma same_tables_find name b b' :
  same_tables b b' → block_storage_find_partition name b' = block_storage_find_partition name b.
Proof. intros [Hp Hr]. unfold block_storage_find_partition. by rewrite Hp, Hr. Qed.

#[export] Instance named_partition name p pr ctx : @NamedPartition (blk * W) (block_layer ops_at) name p (named_ok name p pr ctx).
Proof. split; intros d (_ & ? & ?); done. Qed.

#[export] Instance named_partition_io name p pr ctx :
  @PartitionIO (blk * W) (block_layer ops_at) p pr (named_ok name p pr ctx) (λ d, good d.2)
    (λ d i, sector d.2 ctx (p_start_lba pr + i)).
Proof.
  pose proof (partition_io ops_at sector good p pr ctx) as [Hinfo Hlen Hread Hwrite Hflush]. split.
  - intros d (Hok & _). by apply Hinfo.
  - done.
  - intros [b w] rel n rc data [b' w'] (Hok & Hf & Hr) Hrel Hn E.
    destruct (Hread _ _ _ _ _ _ Hok Hrel Hn E) as (? & ? & ? & ? & ?). split_and!; [done| |done..].
    cbn in E. destruct (block_partition_read _ _ _ _ _ _ _) as [[[rc1 data1] b1] w1] eqn:E1. simplify_eq.
    apply block_partition_read_tables in E1. split; [done|].
    cbn. rewrite (same_tables_find name b b') by done. destruct E1 as [_ ->]. done.
  - intros [b w] rel n data rc [b' w'] (Hok & Hf & Hr) Hrel Hn Hl E.
    destruct (Hwrite _ _ _ _ _ _ Hok Hrel Hn Hl E) as (? & ? & ? & ? & ?). split_and!; [done| |done..].
    cbn in E. destruct (block_partition_write _ _ _ _ _ _ _) as [[rc1 b1] w1] eqn:E1. simplify_eq.
    apply block_partition_write_tables in E1. split; [done|].
    cbn. rewrite (same_tables_find name b b') by done. destruct E1 as [_ ->]. done.
  - intros [b w] rc [b' w'] (Hok & Hf & Hr) E.
    destruct (Hflush _ _ _ Hok E) as (? & ? & ? & ?). split_and!; [done| |done..].
    cbn in E. destruct (block_storage_flush _ _ _ _) as [rc1 w1]. simplify_eq. done.
Qed.

End named.

(** ** Updates on a RAM disk *)

Definition ram_named_ok : blk * ramdisk → Prop := named_ok (λ _, ramdisk_ops) "AEGIS_CONFIG" 2 config_partition 0.
#[local] Existing Instance ram_layer.

#[local] Instance ram_named : NamedPartition (blk * ramdisk) "AEGIS_CONFIG" 2 ram_named_ok.
Proof. apply (named_partition (λ _, ramdisk_ops)). Qed.
#[local] Instance ram_named_io : PartitionIO (blk * ramdisk) 2 config_partition ram_named_ok (λ _, True) ram_psector.
Proof. apply (named_partition_io (λ _, ramdisk_ops) ram_sector (λ _, True)). Qed.

Lemma example_named_ok w : ram_named_ok (example_blk, w).
Proof. split; [apply (example_blk_ok w)|]. split; vm_compute; reflexivity. Qed.

Definition new_image : list Z := replicate AEGIS_UPDATE_HASH_BYTES 7.
Definition unset : upd := mk_upd zero_update None.

Lemma update_refines_plan_witness :
  ∃ w', update_run [Reboot; Stage 0 "x" new_image; Stage 1 "2.1.0" new_image; Reboot; NoteBoot; MarkSuccess; Reboot]
          (unset, (example_blk, ∅)) =
          ([AEGIS_OK; AEGIS_EINVAL; AEGIS_OK; AEGIS_OK; AEGIS_OK; AEGIS_OK; AEGIS_OK], w') ∧
        view (u_g w'.1) = mk_plan (mk_image 1 "2.1.0" new_image) None false.
Proof.
  destruct (update_refines_plan 2 config_partition ram_named_ok (λ _, True) ram_psector ltac:(vm_compute; done)
              [Stage 0 "x" new_image; Stage 1 "2.1.0" new_image; Reboot; NoteBoot; MarkSuccess; Reboot]
              unset (example_blk, ∅)) as (w' & E & Hv & _).
  - apply example_named_ok.
  - exact I.
  - vm_compute. reflexivity.
  - repeat constructor; vm_compute; done.
  - exists w'. split; [exact E|exact Hv].
Defined.


(** ** The record and the file system share sectors *)

(** The partition is the one the file system is mounted on, and the sector of the
    record belongs to its data area. A file that has been written with success and
    can be read back loses a sector when the update module initialises itself at
    the next boot: reading it still succeeds and returns the record (the bytes
    "AEGU") in place of the file. *)
Definition big_file : list Z := replicate (80 * SECTOR) 7.
Definition read_at {B} (k : nat) (r : option (Z * list Z * B)) : option (Z * list Z) :=
  (λ x, (x.1.1, take 4 (drop k x.1.2))) <$> r.

Lemma update_init_destroys_file :
  match agfs_write notes 0 (Some big_file) example_fs with
  | Some (rc, _, (s, d)) =>
      rc = 40960 ∧
      read_at (79 * SECTOR) (agfs_read notes 0 true 40960 (s, d)) = Some (40960, [7; 7; 7; 7]) ∧
      read_at (79 * SECTOR) (agfs_read notes 0 true 40960 (s, (update_init (unset, d)).2.2)) =
        Some (40960, [0x41; 0x45; 0x47; 0x55])
  | None => False
  end.
Proof. vm_compute. repeat split. Qed.

(** In the other direction, a staged update is forgotten when a file is written. *)
Lemma file_destroys_record :
  let '(u, d) := (update_run [Reboot; Stage 1 "2.1.0" new_image] (unset, example_fs.2)).2 in
  pl_trial (view (u_g u)) ≠ None ∧
  match agfs_write notes 0 (Some big_file) (example_fs.1, d) with
  | Some (rc, _, (_, d')) => rc = 40960 ∧ view (u_g (update_init (unset, d')).2.1) = factory
  | None => False
  end.
Proof. vm_compute. repeat split. done. Qed.
