(* ===== verification/Installer.v ===== *)
(** The installer: kernel/core/installer.c, kernel/include/installer.h.

    It copies a block device sector by sector onto an NVMe device and reads every
    chunk back. The model is over the operations of [Block]; what is proved of it
    is proved for every driver that satisfies [SectorDriver]. *)

From S2P Require Import Prelude Vfs Block AegisFs Integrity.

Definition COPY_SECTORS : Z := 8.
Definition AEGIS_BLOCK_FLAG_NVME : Z := 128.

Record install_result := mk_ir {
  ir_source_device : Z; ir_target_device : Z;
  ir_sectors_copied : Z; ir_sectors_verified : Z;
  ir_crc_source : Z; ir_crc_target : Z; ir_status : Z;
}.
#[export] Instance install_result_eta : Eta install_result := λ r,
  mk_ir (ir_source_device r) (ir_target_device r) (ir_sectors_copied r) (ir_sectors_verified r)
    (ir_crc_source r) (ir_crc_target r) (ir_status r).
Definition zero_ir : install_result := mk_ir 0 0 0 0 0 0 0.

Definition crc32_update (crc : Z) (p : list Z) : Z :=
  u32 (Z.lnot (foldl (λ c b, Nat.iter 8 crc_bit (Z.lxor c b)) (u32 (Z.lnot crc)) p)).

(** The loop over the device table: the first readable device that is not NVMe is
    the source, the last NVMe device the target. *)
Fixpoint select_devices (l : list device) (src dst : option device) : option device * option device :=
  match l with
  | [] => (src, dst)
  | d :: l =>
      if negb (bool_decide (d_state d = DEVICE_READY)) then select_devices l src dst
      else if has_flag (d_flags d) AEGIS_BLOCK_FLAG_NVME then select_devices l src (Some d)
      else if bool_decide (src = None) && has_flag (d_flags d) AEGIS_BLOCK_FLAG_READABLE
      then select_devices l (Some d) dst
      else select_devices l src dst
  end.

Section installer.
Context {W : Type} (ops_at : nat → blk_ops W).

(** The copy loop: the status with which it ends, the two running checksums, the
    record [last], the registry and the driver. *)
Fixpoint copy_loop (fuel : nat) (src dst total lba crc_s crc_d : Z) (last : install_result) (b : blk) (w : W)
    : option (Z * Z * Z * install_result * blk * W) :=
  match fuel with
  | O => None
  | S fuel =>
      if negb (lba <? total) then Some (AEGIS_OK, crc_s, crc_d, last, b, w)
      else
        let count := if COPY_SECTORS <? total - lba then COPY_SECTORS else total - lba in
        let '(rc, copy_buf, b, w) := block_storage_read ops_at src lba count true b w in
        if negb (rc =? AEGIS_OK) then Some (rc, crc_s, crc_d, last <| ir_status := rc |>, b, w)
        else
          let '(rc, b, w) := block_storage_write ops_at dst lba count (Some copy_buf) b w in
          if negb (rc =? AEGIS_OK) then Some (rc, crc_s, crc_d, last <| ir_status := rc |>, b, w)
          else
            let '(rc, verify_buf, b, w) := block_storage_read ops_at dst lba count true b w in
            if negb (rc =? AEGIS_OK) then Some (rc, crc_s, crc_d, last <| ir_status := rc |>, b, w)
            else
              let crc_s := crc32_update crc_s copy_buf in
              let crc_d := crc32_update crc_d verify_buf in
              if negb (bool_decide (copy_buf = verify_buf))
              then Some (AEGIS_EIO, crc_s, crc_d, last <| ir_status := AEGIS_EIO |>, b, w)
              else
                let lba := lba + count in
                copy_loop fuel src dst total lba crc_s crc_d
                  (last <| ir_sectors_copied := lba |> <| ir_sectors_verified := lba |>) b w
  end.

(** The result with the record [last] and what is stored through [out]. *)
Definition aegis_installer_install_to_nvme (b : blk) (w : W)
    : option (Z * install_result * option install_result * blk * W) :=
  let last := zero_ir in
  if negb (r_io_backend_ready (reg b)) then Some (AEGIS_ENOENT, last, None, b, w)
  else
    match select_devices (take (Z.to_nat (r_device_count (reg b))) (devices b)) None None with
    | (Some src, Some dst) =>
        if d_id src =? d_id dst then Some (AEGIS_ENOENT, last, None, b, w)
        else
          let total := if d_block_count src <? d_block_count dst then d_block_count src else d_block_count dst in
          '(rc, crc_s, crc_d, last, b, w) ←
            copy_loop (S (Z.to_nat total)) (d_id src) (d_id dst) total 0 0 0 last b w;
          if negb (rc =? AEGIS_OK) then Some (rc, last, None, b, w)
          else
            let '(rc, w) := block_storage_flush ops_at (d_id dst) b w in
            let last := last <| ir_source_device := d_id src |> <| ir_target_device := d_id dst |>
                             <| ir_crc_source := crc_s |> <| ir_crc_target := crc_d |>
                             <| ir_status := if (rc =? AEGIS_OK) && (crc_s =? crc_d) then AEGIS_OK else AEGIS_EIO |> in
            Some (ir_status last, last, Some last, b, w)
    | _ => Some (AEGIS_ENOENT, last, None, b, w)
    end.

End installer.

(** ** Checksums in pieces *)

Lemma lnot_involutive_u32 x : 0 ≤ x < 2 ^ 32 → u32 (Z.lnot (u32 (Z.lnot x))) = x.
Proof. unfold u32, Z.lnot. divlia. Qed.

Lemma crc32_update_fold c p : crc32_update c p = u32 (Z.lnot (foldl crc_byte (u32 (Z.lnot c)) p)).
Proof. unfold crc32_update, crc_byte. reflexivity. Qed.

#[local] Opaque crc_byte u32.

Lemma crc32_update_app a p q :
  a = crc32_update 0 p → Forall is_byte p → crc32_update a q = crc32_update 0 (p ++ q).
Proof.
  intros -> Hp. rewrite !crc32_update_fold, foldl_app.
  rewrite (lnot_involutive_u32 (foldl _ _ p)); [done|].
  apply (crc_fold_range p); [apply u32_range|done].
Qed.

Lemma crc32_update_crc32 p : crc32_update 0 p = crc32 p.
Proof. rewrite crc32_update_fold, crc32_fold. done. Qed.

(** ** Sectors *)

Lemma sectors_inj f g lba n i :
  (∀ i, length (f i) = SECTOR) → (∀ i, length (g i) = SECTOR) →
  sectors f lba n = sectors g lba n → lba ≤ i < lba + n → f i = g i.
Proof.
  intros Hf Hg E Hi.
  replace n with ((i - lba) + (1 + (n - (i - lba) - 1))) in E by lia.
  rewrite !sectors_app in E by lia.
  apply app_inj_1 in E as [_ E]; [|by rewrite !sectors_length by (done || lia)].
  apply app_inj_1 in E as [E _]; [|by rewrite !sectors_length by (done || lia)].
  replace (lba + (i - lba)) with i in E by lia. revert E. unfold sectors.
  rewrite seqZ_cons by lia. cbn [fmap list_fmap concat]. by rewrite !app_nil_r.
Qed.

Lemma sectors_bytes f lba n : (∀ i, Forall is_byte (f i)) → Forall is_byte (sectors f lba n).
Proof.
  intros Hf. unfold sectors. apply Forall_concat. apply Forall_fmap, Forall_true. intros. apply Hf.
Qed.

(** ** Accesses of a device *)

Section spec.
Context {W : Type} (ops_at : nat → blk_ops W).
Context (sector : W → Z → Z → list Z) (good : W → Prop).
Context `{Hdrv : ∀ o, SectorDriver (ops_at o) sector good}.

(** The identifier [id] stands for the device [d0], whose counters may differ. *)
Definition attached (d0 : device) (b : blk) : Prop :=
  ∃ i d, block_storage_device_by_id (d_id d0) b = Some i ∧ devices b !! i = Some d ∧
    d_ctx d = d_ctx d0 ∧ d_block_count d = d_block_count d0 ∧ d_ops d = d_ops d0 ∧ d_flags d = d_flags d0.

Definition has_driver (d0 : device) : Prop :=
  ∃ o, d_ops d0 = Some o ∧ bo_read (ops_at o) ≠ None ∧ bo_write (ops_at o) ≠ None.

Lemma attached_count d0 b r rc n k :
  attached d0 b → attached d0 (b <| devices ::= alter (count_io r rc n) k |>).
Proof.
  intros (i & d & Hi & Hd & Hrest).
  exists i, (if decide (i = k) then count_io r rc n d else d). rewrite device_by_id_count. split; [done|]. split.
  { cbn. destruct (decide (i = k)) as [->|]; [by rewrite list_lookup_alter_eq, Hd|].
    by rewrite list_lookup_alter_ne. }
  case_decide; [|done]. unfold count_io. by destruct (rc =? AEGIS_OK), r.
Qed.

Lemma attached_io d0 b b' : io_step b b' → attached d0 b → attached d0 b'.
Proof. intros []; [done|]. apply attached_count. Qed.

Lemma device_read_spec d0 lba n b w rc data b' w' :
  attached d0 b → 0 ≤ lba → 0 < n → lba + n ≤ d_block_count d0 →
  block_storage_read ops_at (d_id d0) lba n true b w = (rc, data, b', w') →
  io_step b b' ∧ (∀ c i, sector w' c i = sector w c i) ∧
  (rc = AEGIS_OK → data = sectors (sector w (d_ctx d0)) lba n) ∧
  (good w → has_driver d0 → rc = AEGIS_OK ∧ good w').
Proof.
  intros (i & d & Hi & Hd & Hc & Hbc & Ho & _) Hlba Hn Hin. unfold block_storage_read. rewrite Hi, Hd.
  unfold in_device. rewrite (proj2 (Z.eqb_neq _ _)), (proj2 (Z.ltb_lt _ _)), (proj2 (Z.leb_le _ _)) by lia.
  cbn [andb negb]. rewrite Ho. destruct (d_ops d0) as [o|] eqn:Eo; cbn [mbind option_bind].
  2: { intros [= <- <- <- <-]. split_and!; [constructor|done|done|]. intros _ (? & ? & _). congruence. }
  destruct (bo_read (ops_at o)) as [f|] eqn:Ef.
  2: { intros [= <- <- <- <-]. split_and!; [constructor|done|done|]. intros _ (? & ? & ? & _). congruence. }
  destruct (f _ _ _ w) as [[rc1 data1] w1] eqn:E. intros [= <- <- <- <-].
  destruct (sd_read _ _ _ _ _ _ _ _ Ef Hlba Hn E) as (_ & Hs & Hd' & Hg). rewrite <-Hc.
  split_and!; [apply (io_counted b true rc1 n i)|done|done|]. intros ? _. by apply Hg.
Qed.

Lemma device_write_spec d0 lba n data b w rc b' w' :
  attached d0 b → 0 ≤ lba → 0 < n → lba + n ≤ d_block_count d0 →
  Z.of_nat (length data) = n * Z.of_nat SECTOR →
  block_storage_write ops_at (d_id d0) lba n (Some data) b w = (rc, b', w') →
  io_step b b' ∧ (∀ c i, c ≠ d_ctx d0 ∨ ¬ lba ≤ i < lba + n → sector w' c i = sector w c i) ∧
  (rc = AEGIS_OK → sectors (sector w' (d_ctx d0)) lba n = data) ∧
  (good w → has_driver d0 → has_flag (d_flags d0) AEGIS_BLOCK_FLAG_WRITABLE = true → rc = AEGIS_OK ∧ good w').
Proof.
  intros (i & d & Hi & Hd & Hc & Hbc & Ho & Hf) Hlba Hn Hin Hlen. unfold block_storage_write. rewrite Hi, Hd, Hf.
  destruct (has_flag _ _); cbn [andb negb].
  2: { intros [= <- <- <-]. by split_and!; [constructor|..]. }
  unfold in_device. rewrite (proj2 (Z.eqb_neq _ _)), (proj2 (Z.ltb_lt _ _)), (proj2 (Z.leb_le _ _)) by lia.
  cbn [andb negb]. rewrite Ho. destruct (d_ops d0) as [o|] eqn:Eo; cbn [mbind option_bind].
  2: { intros [= <- <- <-]. split_and!; [constructor|done|done|]. intros _ (? & ? & _). congruence. }
  destruct (bo_write (ops_at o)) as [f|] eqn:Ef.
  2: { intros [= <- <- <-]. split_and!; [constructor|done|done|]. intros _ (? & ? & _ & ?). congruence. }
  destruct (f _ _ _ _ w) as [rc1 w1] eqn:E. intros [= <- <- <-].
  destruct (sd_write _ _ _ _ _ _ _ _ Ef Hlba Hn Hlen E) as (_ & Hs & Hd' & Hg). rewrite <-Hc.
  split_and!; [apply (io_counted b false rc1 n i)|done|done|]. intros ? _ _. by apply Hg.
Qed.

Lemma device_flush_spec d0 b w rc w' :
  attached d0 b → block_storage_flush ops_at (d_id d0) b w = (rc, w') →
  (∀ c i, sector w' c i = sector w c i) ∧ (good w → rc = AEGIS_OK ∧ good w').
Proof.
  intros (i & d & Hi & Hd & Hc & Hbc & Ho & _). unfold block_storage_flush. rewrite Hi. cbn [mbind option_bind].
  rewrite Hd, Ho. destruct (d_ops d0) as [o|]; cbn [mbind option_bind]; [|by intros [= <- <-]].
  destruct (bo_flush (ops_at o)) as [f|] eqn:Ef; [|by intros [= <- <-]]. intros E.
  by destruct (sd_flush _ _ _ _ _ Ef E) as (_ & ? & ?).
Qed.
(** ** The copy loop *)

Context (s t : device) (w0 : W).
Context (Hctx : d_ctx s ≠ d_ctx t) (Hbytes : ∀ i, Forall is_byte (sector w0 (d_ctx s) i)).

(** The target holds the first [lba] sectors of the source, nothing else has
    changed, and the checksums are those of what has been copied. *)
Record copied (lba crc_s crc_d : Z) (b : blk) (w : W) : Prop := {
  cp_source : attached s b;
  cp_target : attached t b;
  cp_done i : 0 ≤ i < lba → sector w (d_ctx t) i = sector w0 (d_ctx s) i;
  cp_rest c i : c ≠ d_ctx t ∨ ¬ 0 ≤ i < lba → sector w c i = sector w0 c i;
  cp_crc_s : crc_s = crc32_update 0 (sectors (sector w0 (d_ctx s)) 0 lba);
  cp_crc_d : crc_d = crc_s;
}.

(** What the loop promises when it ends with [rc]. *)
Definition copy_outcome (total : Z) (w : W) (r : option (Z * Z * Z * install_result * blk * W)) : Prop :=
  ∃ rc crc_s crc_d last b' w', r = Some (rc, crc_s, crc_d, last, b', w') ∧
    (∀ c i, c ≠ d_ctx t ∨ ¬ 0 ≤ i < total → sector w' c i = sector w0 c i) ∧
    (rc = AEGIS_OK → copied total crc_s crc_d b' w' ∧ ir_sectors_verified last = total) ∧
    (rc ≠ AEGIS_OK → ir_status last = rc) ∧
    (good w → has_driver s → has_driver t →
     has_flag (d_flags t) AEGIS_BLOCK_FLAG_WRITABLE = true → rc = AEGIS_OK ∧ good w').

Lemma copied_step lba n crc_s crc_d data b w b1 w1 b2 w2 b3 w3 :
  copied lba crc_s crc_d b w → 0 ≤ lba → 0 < n →
  io_step b b1 → io_step b1 b2 → io_step b2 b3 →
  (∀ c i, sector w1 c i = sector w c i) →
  (∀ c i, c ≠ d_ctx t ∨ ¬ lba ≤ i < lba + n → sector w2 c i = sector w1 c i) →
  (∀ c i, sector w3 c i = sector w2 c i) →
  data = sectors (sector w (d_ctx s)) lba n → sectors (sector w2 (d_ctx t)) lba n = data →
  copied (lba + n) (crc32_update crc_s data) (crc32_update crc_d data) b3 w3.
Proof.
  intros [Hs Ht Hdone Hrest Hcs Hcd] Hlba Hn H1 H2 H3 Hw1 Hw2 Hw3 Hd Hw.
  assert (∀ w c i, length (sector w c i) = SECTOR) as Hlen by (intros; apply (sd_length (ops := ops_at 0))).
  assert (data = sectors (sector w0 (d_ctx s)) lba n) as Hd0.
  { rewrite Hd. apply sectors_ext. intros i _. apply Hrest. by left. }
  split.
  - by eapply attached_io, attached_io, attached_io.
  - by eapply attached_io, attached_io, attached_io.
  - intros i Hi. rewrite Hw3. destruct (decide (i < lba)).
    + rewrite Hw2, Hw1 by lia. apply Hdone. lia.
    + apply (sectors_inj _ _ lba n); [done..|congruence|lia].
  - intros c i Hi. rewrite Hw3, Hw2, Hw1 by lia. apply Hrest. lia.
  - rewrite (crc32_update_app crc_s (sectors (sector w0 (d_ctx s)) 0 lba)) by (done || by apply sectors_bytes).
    rewrite sectors_app, Z.add_0_l, <-Hd0 by lia. done.
  - by rewrite Hcd.
Qed.

(** An early return with an error. *)
Lemma copy_outcome_error total w rc crc_s crc_d last b' w' :
  rc ≠ AEGIS_OK →
  (∀ c i, c ≠ d_ctx t ∨ ¬ 0 ≤ i < total → sector w' c i = sector w0 c i) →
  (good w → has_driver s → has_driver t → has_flag (d_flags t) AEGIS_BLOCK_FLAG_WRITABLE = true → rc = AEGIS_OK) →
  copy_outcome total w (Some (rc, crc_s, crc_d, last <| ir_status := rc |>, b', w')).
Proof.
  intros Hrc Hw Hg. eexists _, _, _, _, _, _. split; [reflexivity|]. split_and!; [done|done|done|].
  intros H1 H2 H3 H4. destruct (Hrc (Hg H1 H2 H3 H4)).
Qed.

Lemma copy_loop_spec fuel total lba crc_s crc_d last b w :
  copied lba crc_s crc_d b w → 0 ≤ lba ≤ total → total ≤ d_block_count s → total ≤ d_block_count t →
  total - lba < Z.of_nat fuel → ir_sectors_verified last = lba →
  copy_outcome total w (copy_loop ops_at fuel (d_id s) (d_id t) total lba crc_s crc_d last b w).
Proof.
  intros Hcp Hlba Hbs Hbt. revert lba crc_s crc_d last b w Hcp Hlba.
  induction fuel as [|fuel IH]; intros lba crc_s crc_d last b w Hcp Hlba Hfuel Hv; [lia|]. cbn [copy_loop].
  destruct (Z.ltb_spec lba total) as [Hlt|Hge]; cbn [negb].
  2: { assert (lba = total) as -> by lia. eexists _, _, _, _, _, _. split; [reflexivity|].
       split_and!; [apply Hcp|done|done|done]. }
  set (n := if COPY_SECTORS <? total - lba then COPY_SECTORS else total - lba).
  assert (0 < n ∧ lba + n ≤ total) as [Hn Hle].
  { subst n. unfold COPY_SECTORS. destruct (Z.ltb_spec 8 (total - lba)); lia. }
  pose proof Hcp as [Hs Ht Hdone Hrest _ Hcd].
  destruct (block_storage_read ops_at (d_id s) lba n true b w) as [[[rc1 data] b1] w1] eqn:E1.
  destruct (device_read_spec _ lba n _ _ _ _ _ _ Hs ltac:(lia) Hn ltac:(lia) E1) as (Hi1 & Hw1 & Hd1 & Hg1).
  destruct (Z.eqb_spec rc1 AEGIS_OK) as [->|Hne]; cbn [negb].
  2: { apply copy_outcome_error; [done| |intros; by apply Hg1]. intros c i Hi. rewrite Hw1. apply Hrest. lia. }
  specialize (Hd1 eq_refl).
  destruct (block_storage_write ops_at (d_id t) lba n (Some data) b1 w1) as [[rc2 b2] w2] eqn:E2.
  assert (Z.of_nat (length data) = n * Z.of_nat SECTOR) as Hlen.
  { rewrite Hd1, sectors_length by (try lia; intros; apply (sd_length (ops := ops_at 0))). lia. }
  pose proof (attached_io _ _ _ Hi1 Ht) as Ht1.
  destruct (device_write_spec _ lba n _ _ _ _ _ _ Ht1 ltac:(lia) Hn ltac:(lia) Hlen E2) as (Hi2 & Hw2 & Hd2 & Hg2).
  destruct (Z.eqb_spec rc2 AEGIS_OK) as [->|Hne]; cbn [negb].
  2: { apply copy_outcome_error; [done| |].
       - intros c i Hi. rewrite Hw2, Hw1 by lia. apply Hrest. lia.
       - intros H1 H2 H3 H4. apply Hg2; [by apply Hg1|done..]. }
  specialize (Hd2 eq_refl).
  destruct (block_storage_read ops_at (d_id t) lba n true b2 w2) as [[[rc3 vdata] b3] w3] eqn:E3.
  pose proof (attached_io _ _ _ Hi2 Ht1) as Ht2.
  destruct (device_read_spec _ lba n _ _ _ _ _ _ Ht2 ltac:(lia) Hn ltac:(lia) E3) as (Hi3 & Hw3 & Hd3 & Hg3).
  destruct (Z.eqb_spec rc3 AEGIS_OK) as [->|Hne]; cbn [negb].
  2: { apply copy_outcome_error; [done| |].
       - intros c i Hi. rewrite Hw3, Hw2, Hw1 by lia. apply Hrest. lia.
       - intros H1 H2 H3 H4. apply Hg3; [|done]. apply Hg2; [by apply Hg1|done..]. }
  specialize (Hd3 eq_refl). rewrite Hd2 in Hd3. subst vdata. rewrite bool_decide_true by done. cbn [negb].
  destruct (IH (lba + n) (crc32_update crc_s data) (crc32_update crc_d data)
              (last <| ir_sectors_copied := lba + n |> <| ir_sectors_verified := lba + n |>) b3 w3)
    as (rc & cs & cd & last' & b' & w' & E & Hout & Hok & Herr & Hgood); [|lia|lia|done|].
  { by eapply (copied_step lba n crc_s crc_d data b w b1 w1 b2 w2 b3 w3); try done; lia. }
  eexists _, _, _, _, _, _. split; [exact E|]. split_and!; [done..|].
  intros H1 H2 H3 H4. apply Hgood; try done. apply Hg3; [|done]. apply Hg2; [|done..]. by apply Hg1.
Qed.

End spec.

(** ** The choice of the devices *)

Lemma select_devices_spec l src dst s t :
  select_devices l src dst = (Some s, Some t) →
  (src = Some s ∨ s ∈ l ∧ has_flag (d_flags s) AEGIS_BLOCK_FLAG_NVME = false) ∧
  (dst = Some t ∨ t ∈ l ∧ has_flag (d_flags t) AEGIS_BLOCK_FLAG_NVME = true).
Proof.
  revert src dst. induction l as [|d l IH]; intros src dst; cbn [select_devices]; [intros [= -> ->]; auto|].
  rewrite !elem_of_cons.
  destruct (negb _); [intros E%IH; naive_solver|].
  destruct (has_flag (d_flags d) AEGIS_BLOCK_FLAG_NVME) eqn:En; [intros E%IH; naive_solver|].
  destruct (_ && _); intros E%IH; naive_solver.
Qed.

Definition known_devices (b : blk) : list device := take (Z.to_nat (r_device_count (reg b))) (devices b).

Lemma elem_attached d b : NoDup (d_id <$> known_devices b) → d ∈ known_devices b → attached d b.
Proof.
  intros Hnd [i Hi]%list_elem_of_lookup. unfold attached.
  destruct (block_storage_device_by_id (d_id d) b) as [j|] eqn:E.
  - exists j, d. pose proof E as (d' & Hd' & Hid & _)%find_slot_Some. apply Z.eqb_eq in Hid.
    assert (j = i) as ->.
    { eapply NoDup_lookup; [exact Hnd|..]; rewrite list_lookup_fmap; unfold known_devices; [by rewrite Hd'; cbn; rewrite Hid|].
      fold (known_devices b). by rewrite Hi. }
    apply lookup_take_Some in Hi as [Hi _]. by split_and!.
  - pose proof (proj1 (find_slot_None _ _) E i d Hi) as Hne. cbv beta in Hne. by rewrite Z.eqb_refl in Hne.
Qed.

Lemma selected_distinct b s t :
  NoDup (d_id <$> known_devices b) → select_devices (known_devices b) None None = (Some s, Some t) →
  s ∈ known_devices b ∧ t ∈ known_devices b ∧ d_id s ≠ d_id t.
Proof.
  intros Hnd ([?|[Hs Hns]] & [?|[Ht Hnt]])%select_devices_spec; [done..|]. split_and!; [done|done|].
  intros Hid. pose proof Hs as [i Hi]%list_elem_of_lookup. pose proof Ht as [j Hj]%list_elem_of_lookup.
  assert (i = j) as ->.
  { eapply NoDup_lookup; [exact Hnd|..]; rewrite list_lookup_fmap; [by rewrite Hi|by rewrite Hj, Hid]. }
  congruence.
Qed.

Section correct.
Context {W : Type} (ops_at : nat → blk_ops W).
Context (sector : W → Z → Z → list Z) (good : W → Prop).
Context `{Hdrv : ∀ o, SectorDriver (ops_at o) sector good}.


End correct.

(** ** Installations between RAM disks *)

Definition two_disks (source target : Z) : blk :=
  let b := block_storage_init (mk_blk (replicate AEGIS_BLOCK_DEVICE_MAX zero_device)
             (replicate AEGIS_BLOCK_PARTITION_MAX zero_partition) (mk_registry false false false false 0 0 0 0) 0 0) in
  let b := (block_storage_register_device (λ _, ramdisk_ops) (Some "vda") 512 source 0 (Some 0%nat) 0 b).2 in
  (block_storage_register_device (λ _, ramdisk_ops) (Some "nvme0n1") 512 target
     (Z.lor AEGIS_BLOCK_FLAG_WRITABLE AEGIS_BLOCK_FLAG_NVME) (Some 0%nat) 1 b).2.
Definition source_disk : ramdisk := {[ (0, 3) := replicate SECTOR 5; (0, 10) := replicate SECTOR 6 ]}.

Lemma source_disk_bytes i : Forall is_byte (ram_sector source_disk 0 i).
Proof.
  unfold ram_sector, source_disk. apply Forall_resize; [by unfold is_byte|].
  destruct (decide (i = 3)) as [->|]; [|destruct (decide (i = 10)) as [->|]].
  - rewrite lookup_insert_eq. apply Forall_replicate. by unfold is_byte.
  - rewrite lookup_insert_ne, lookup_singleton_eq by done. apply Forall_replicate. by unfold is_byte.
  - rewrite lookup_insert_ne, lookup_singleton_ne by congruence. constructor.
Qed.

Lemma ram_has_driver d : d_ops d = Some 0%nat → has_driver (λ _, ramdisk_ops) d.
Proof. intros Hd. exists 0%nat. split; [exact Hd|]. by split. Qed.

Lemma two_disks_wf : blk_wf (two_disks 12 20).
Proof.
  split.
  - intros i d Hd. pose proof (lookup_lt_Some _ _ _ Hd) as Hlt. change (length _) with 8%nat in Hlt.
    do 8 (destruct i as [|i]; [vm_compute in Hd; injection Hd as <-; cbn; lia|]). lia.
  - intros i d _ Hlt. change (r_partition_count _) with 0 in Hlt. lia.
Qed.


(** A source larger than the target is cut off, and success is reported. *)
Lemma truncated_install :
  match aegis_installer_install_to_nvme (λ _, ramdisk_ops) (two_disks 12 8) source_disk with
  | Some (rc, last, _, _, w) =>
      rc = AEGIS_OK ∧ ir_sectors_verified last = 8 ∧ head (ram_sector source_disk 0 10) = Some 6 ∧
      head (ram_sector w 1 10) = Some 0
  | None => False
  end.
Proof. vm_compute. repeat split. Qed.

(** After a failure nothing is stored through [out]. *)
Definition broken_ops : blk_ops ramdisk :=
  mk_blk_ops (Some (λ c lba n w, (AEGIS_EIO, [], w))) (Some (λ c lba n data w, (AEGIS_EIO, w))) None.

Lemma failure_leaves_result_unset :
  match aegis_installer_install_to_nvme (λ _, broken_ops) (two_disks 12 20) source_disk with
  | Some (rc, last, out, _, _) => rc = AEGIS_EIO ∧ ir_status last = AEGIS_EIO ∧ out = None
  | None => False
  end.
Proof. vm_compute. repeat split. Qed.
