(* ===== verification/Initramfs.v ===== *)
(** The initial RAM file system: fs/initramfs.c.

    The archive is the list of its bytes; a pointer into it is the list of the
    bytes from there on, so that a read past the end of the archive is visible
    ([None]). [initramfs_mount_archive] is the contract: every file of a newc
    archive can be read back, byte for byte, through the file system operations. *)

From S2P Require Import Prelude Vfs.

Definition INITRAMFS_MAX_FILES : nat := 256.
Definition INITRAMFS_MAX_NAME : nat := 128.
(** [sizeof(cpio_header_t)]. *)
Definition cpio_header_size : Z := 110.

Record initramfs_entry := mk_ient {
  ie_name : string;
  ie_data : list Z;
  ie_size : Z;
  ie_mode : Z;
  ie_is_dir : bool;
  ie_valid : bool;
}.
#[export] Instance initramfs_entry_eta : Eta initramfs_entry := λ e,
  mk_ient (ie_name e) (ie_data e) (ie_size e) (ie_mode e) (ie_is_dir e) (ie_valid e).

Record initramfs := mk_initramfs { files : list initramfs_entry; file_count : Z; mounted : bool }.
#[export] Instance initramfs_eta : Eta initramfs := λ s, mk_initramfs (files s) (file_count s) (mounted s).

Definition initramfs_copy_name (src : string) : string := str_take (INITRAMFS_MAX_NAME - 1) src.
#[global] Arguments initramfs_copy_name : simpl never.

(** A NULL name is [None]; the data pointer is the bytes behind it. *)
Definition initramfs_add_entry (name : option string) (data : list Z) (size mode : Z) (is_dir : bool)
    (s : initramfs) : Z * initramfs :=
  match name with
  | None => (AEGIS_EINVAL, s)
  | Some name =>
      if Z.of_nat INITRAMFS_MAX_FILES <=? file_count s then (AEGIS_EINVAL, s)
      else
        (AEGIS_OK,
         s <| files ::= <[Z.to_nat (file_count s) :=
                            mk_ient (initramfs_copy_name name) data size mode is_dir true]> |>
           <| file_count := u32 (file_count s + 1) |>)
  end.

(** ** The newc format *)

Definition hex_digit (c : Z) : Z :=
  if (48 <=? c) && (c <=? 57) then c - 48
  else if (97 <=? c) && (c <=? 102) then c - 97 + 10
  else if (65 <=? c) && (c <=? 70) then c - 65 + 10
  else 0.

Definition hex8_to_u32 (s : list Z) : Z :=
  foldl (λ val c, Z.lor (u32 (Z.shiftl val 4)) (hex_digit c)) 0 (take 8 s).

Definition align4 (offset : Z) : Z := Z.land (u64 (offset + 3)) (u64 (Z.lnot 3)).

Definition cpio_magic : list Z := [48; 55; 48; 55; 48; 49].
Definition trailer : list Z := bytes_of "TRAILER!!!".

(** Comparison with a string literal, character by character; [None] when it
    reads past the end of the archive. *)
Fixpoint same_prefix (pat l : list Z) : option bool :=
  match pat, l with
  | [], _ => Some true
  | x :: pat, y :: l => if x =? y then same_prefix pat l else Some false
  | _ :: _, [] => None
  end.

(** The copy of a name out of the archive, at most [k] characters. *)
Fixpoint copy_cstr (k : nat) (l : list Z) : option string :=
  match l with
  | [] => None
  | x :: l =>
      if x =? 0 then Some EmptyString
      else
        match k with
        | O => Some EmptyString
        | S k => String (Ascii.ascii_of_nat (Z.to_nat x)) <$> copy_cstr k l
        end
  end.

(** [n += 2] over a leading [./]; the second character is only read after a dot. *)
Definition skip_dot_slash (l : list Z) : option (list Z) :=
  c0 ← l !! 0%nat;
  if negb (c0 =? 46) then Some l
  else c1 ← l !! 1%nat; Some (if c1 =? 47 then drop 2 l else l).

(** Is the record kept: [namesize > 1 || name[0] != '.']. *)
Definition keep_entry (namesize : Z) (name : list Z) : option bool :=
  if 1 <? namesize then Some true else c ← name !! 0%nat; Some (negb (c =? 46)).

(** One iteration of the loop at [ptr]: [Some None] leaves the loop, the other
    result is the state and the bytes to advance. *)
Definition cpio_record (ptr : list Z) (s : initramfs) : option (option (initramfs * Z)) :=
  if negb (bool_decide (take 6 ptr = cpio_magic)) then Some None
  else
    let namesize := hex8_to_u32 (drop 94 ptr) in
    let filesize := hex8_to_u32 (drop 54 ptr) in
    let mode := hex8_to_u32 (drop 14 ptr) in
    let name := drop (Z.to_nat cpio_header_size) ptr in
    is_trailer ← (if namesize =? 11 then same_prefix trailer name else Some false);
    if (is_trailer : bool) then Some None
    else
      keep ← keep_entry namesize name;
      let data_offset := align4 (cpio_header_size + namesize) in
      s ← (if (keep : bool)
           then
             n ← skip_dot_slash name;
             entry_name ← copy_cstr (INITRAMFS_MAX_NAME - 1) n;
             Some (s <| files ::= <[Z.to_nat (file_count s) :=
                          mk_ient entry_name (drop (Z.to_nat data_offset) ptr) filesize mode
                            (has_flag mode 0x4000) true]> |>
                     <| file_count := u32 (file_count s + 1) |>)
           else Some s);
      Some (Some (s, data_offset + align4 filesize)).

Inductive parsed :=
| Parsed (s : initramfs)
| Fault
| OutOfFuel.

Fixpoint parse_loop (fuel : nat) (ptr : list Z) (s : initramfs) : parsed :=
  match fuel with
  | O => OutOfFuel
  | S fuel =>
      if (cpio_header_size <=? Z.of_nat (length ptr)) && (file_count s <? Z.of_nat INITRAMFS_MAX_FILES)
      then
        match cpio_record ptr s with
        | None => Fault
        | Some None => Parsed s
        | Some (Some (s, total)) => parse_loop fuel (drop (Z.to_nat total) ptr) s
        end
      else Parsed s
  end.

(** ** Lookup *)

Definition initramfs_lookup_internal (path : option string) (s : initramfs) : option nat :=
  path ← path;
  let path := skip_slash path in
  find_slot (λ e, ie_valid e && c_streq path (ie_name e)) (take (Z.to_nat (file_count s)) (files s)).

Definition initramfs_lookup (path : option string) (s : initramfs) : option nat :=
  initramfs_lookup_internal path s.

Definition lookup_entry (path : option string) (s : initramfs) : option initramfs_entry :=
  initramfs_lookup_internal path s ≫= (files s !!.).

Definition initramfs_read (v : vnode) (offset : Z) (buf : bool) (len : Z) (s : initramfs)
    : option (Z * list Z * initramfs) :=
  if negb buf then Some (AEGIS_EINVAL, [], s)
  else
    match lookup_entry (priv_path v) s with
    | None => Some (AEGIS_ENOENT, [], s)
    | Some e =>
        if ie_size e <=? offset then Some (0, [], s)
        else
          let avail := ie_size e - offset in
          let to_read := if len <? avail then len else avail in
          if Z.of_nat (length (ie_data e)) <? offset + to_read then None
          else Some (s32 to_read, take (Z.to_nat to_read) (drop (Z.to_nat offset) (ie_data e)), s)
    end.

Definition initramfs_readdir (v : vnode) (index : Z) (name : bool) (s : initramfs) : option (Z * string) :=
  if file_count s <=? index then Some (-1, EmptyString)
  else
    e ← files s !! Z.to_nat index;
    if negb (ie_valid e) then Some (-1, EmptyString)
    else if negb name then None
    else Some (0, str_take (VFS_NAME_MAX - 1) (ie_name e)).

Definition initramfs_ops : vnode_ops initramfs :=
  mk_ops (Some initramfs_read) None (Some initramfs_readdir) None.
Definition initramfs_vfs : vfs initramfs := mk_vfs "initramfs" None (Some initramfs_ops).

Definition initramfs_is_mounted (s : initramfs) : bool := mounted s.

Definition initramfs_has_file (path : option string) (s : initramfs) : bool :=
  match lookup_entry path s with Some e => ie_valid e && negb (ie_is_dir e) | None => false end.

Definition initramfs_file_size (path : option string) (s : initramfs) : Z :=
  match lookup_entry path s with
  | Some e => if negb (ie_valid e) || ie_is_dir e then 0 else ie_size e
  | None => 0
  end.

Definition initramfs_file_name (index : Z) (s : initramfs) : option string :=
  if file_count s <=? index then None
  else e ← files s !! Z.to_nat index; if ie_valid e then Some (ie_name e) else None.

Definition initramfs_file_is_dir (index : Z) (s : initramfs) : bool :=
  if file_count s <=? index then false
  else match files s !! Z.to_nat index with
       | Some e => if negb (ie_valid e) then false else ie_is_dir e
       | None => false
       end.

Definition initramfs_read_text_file (path : option string) (s : initramfs) : Z * list Z * Z :=
  match path with
  | None => (AEGIS_EINVAL, [], 0)
  | Some _ =>
      match lookup_entry path s with
      | Some e =>
          if negb (ie_valid e) || ie_is_dir e then (AEGIS_ENOENT, [], 0)
          else (AEGIS_OK, ie_data e, ie_size e)
      | None => (AEGIS_ENOENT, [], 0)
      end
  end.

Definition initramfs_file_count (s : initramfs) : Z := file_count s.

Definition zero_ient : initramfs_entry := mk_ient EmptyString [] 0 0 false false.

(** ** Mounting *)

Section mount.
Context (vfs_at : nat → vfs initramfs) (fs : nat).

(** The number of iterations is bounded by the archive's length, see
    [parse_loop_terminates]. The result of [vfs_mount] is ignored, as in the code. *)
Definition initramfs_mount (data : option (list Z)) (vs : vfs_state) (s : initramfs)
    : option (Z * vfs_state * initramfs) :=
  match data with
  | None | Some [] => Some (AEGIS_EINVAL, vs, s)
  | Some data =>
      if mounted s then Some (AEGIS_EBUSY, vs, s)
      else
        match parse_loop (S (length data)) data (s <| file_count := 0 |>) with
        | Parsed s =>
            let '(_, vs, s) := vfs_mount vfs_at (Some "/") (Some fs) vs s in
            Some (AEGIS_OK, vs, s <| mounted := true |>)
        | _ => None
        end
  end.

Definition initramfs_mount_empty_root (vs : vfs_state) (s : initramfs) : Z * vfs_state * initramfs :=
  if mounted s then (AEGIS_EBUSY, vs, s)
  else
    let s := s <| file_count := 0 |> <| files ::= fmap (λ _, zero_ient) |> in
    let '(rc, vs, s) := vfs_mount vfs_at (Some "/") (Some fs) vs s in
    if negb (rc =? AEGIS_OK) then (rc, vs, s) else (AEGIS_OK, vs, s <| mounted := true |>).
End mount.

(** ** Built-in files *)

(** A sequence of additions that stops at the first error. *)
Fixpoint add_all (l : list (string * list Z * Z * bool)) (s : initramfs) : Z * initramfs :=
  match l with
  | [] => (AEGIS_OK, s)
  | (name, data, mode, is_dir) :: l =>
      let '(rc, s) := initramfs_add_entry (Some name) data (Z.of_nat (length data)) mode is_dir s in
      if rc =? AEGIS_OK then add_all l s else (rc, s)
  end.

Definition S_DIR : Z := 0x41ed.   (* 0040755 *)
Definition S_EXEC : Z := 0x81ed.  (* 0100755 *)
Definition S_FILE : Z := 0x81a4.  (* 0100644 *)

(** The ELF images are generated files included by the build. *)
Section builtin.
Context (init_elf service_manager_elf aegisd_elf dashboard_elf rustmyadmin_elf : list Z).
Context (native_rust_full : bool).

Definition initramfs_install_builtin_userland (s : initramfs) : Z * initramfs :=
  if negb (mounted s) then (AEGIS_EINVAL, s)
  else if bool_decide (is_Some (initramfs_lookup_internal (Some "/sbin/aegis-init") s)) then (AEGIS_EBUSY, s)
  else
    add_all
      ([("sbin", [], S_DIR, true); ("sbin/aegis-init", init_elf, S_EXEC, false);
        ("sbin/service-manager", service_manager_elf, S_EXEC, false);
        ("sbin/aegisd", aegisd_elf, S_EXEC, false)] ++
       if native_rust_full
       then [("sbin/dashboard", dashboard_elf, S_EXEC, false); ("opt", [], S_DIR, true);
             ("opt/aegisos", [], S_DIR, true); ("opt/aegisos/rustmyadmin", rustmyadmin_elf, S_EXEC, false)]
       else []) s.
End builtin.

Definition initramfs_add_entry_if_missing (name : string) (data : list Z) (mode : Z) (is_dir : bool)
    (s : initramfs) : Z * initramfs :=
  if bool_decide (is_Some (initramfs_lookup_internal (Some name) s)) then (AEGIS_OK, s)
  else initramfs_add_entry (Some name) data (Z.of_nat (length data)) mode is_dir s.

Fixpoint add_missing (l : list (string * list Z * Z * bool)) (s : initramfs) : Z * initramfs :=
  match l with
  | [] => (AEGIS_OK, s)
  | (name, data, mode, is_dir) :: l =>
      let '(rc, s) := initramfs_add_entry_if_missing name data mode is_dir s in
      if rc =? AEGIS_OK then add_missing l s else (rc, s)
  end.

(** The text files of the release root file system: lines, in which ['] stands for
    a double quote, each followed by a newline. *)
Definition text (lines : list string) : list Z :=
  concat ((λ l, ((λ c, if c =? 39 then 34 else c) <$> bytes_of l) ++ [10]) <$> lines).

Definition rootfs_aegisos_toml : list Z := text [
  "[aegisos]";
  "version = 'v2.0-v57-native-supervisor-runtime'";
  "edition = 'release'";
  "console = 'ttyAMA0'";
  "shell = '/bin/aegis-shell'";
  "rootfs_mode = 'initramfs-bridged'"].

Definition rootfs_services_toml : list Z := text [
  "[services]";
  "aegis-init = '/userland/init'";
  "aegis-shell = '/userland/shell'";
  "aegisctl = '/userland/aegisctl'";
  "netctl = '/userland/netctl'";
  "service-manager = '/userland/service-manager'";
  "diagnostics = '/userland/diagnostics'";
  "recovery = '/userland/recovery'";
  "update-manager = '/userland/update-manager'";
  "rustmyadmin = '/rustmyadmin'";
  "dashboard = '/dashboard'";
  "dns-filter = '/services/dns-filter'";
  "firewall = '/services/firewall'";
  "vpn = '/services/vpn'";
  "traffic-monitor = '/services/traffic-monitor'";
  "intrusion-watch = '/services/intrusion-watch'";
  "cloudflare-tunnel = '/services/cloudflare-tunnel'";
  "container-runner = '/services/container-runner'";
  "device-discovery = '/services/device-discovery'";
  "radio-manager = '/services/radio-manager'";
  "web-hosting = '/services/web-hosting'"].

Definition rootfs_network_toml : list Z := text [
  "[network]";
  "profile = 'aegisbox-router-dp'";
  "wan = 'eth0'";
  "lan = 'eth1'";
  "dhcp = true";
  "nat = true";
  "firewall = true"].

Definition rootfs_firewall_toml : list Z := text [
  "[firewall]";
  "default_input = 'drop'";
  "default_forward = 'drop'";
  "allow_established = true";
  "allow_lan_admin = true";
  "nat_masquerade_wan = true"].

Definition rootfs_hardening_toml : list Z := text [
  "[hardening]";
  "user_kernel_page_table_isolation = true";
  "stack_guard_pages = true";
  "service_supervisor_fault_accounting = true";
  "rustmyadmin_least_privilege = true";
  "release_checksums_required = true"].

Definition rootfs_rust_bridge_manifest : list Z := text [
  "AegisOS v57 native supervisor bridge manifest";
  "userland/init -> /sbin/aegis-init";
  "userland/shell -> /bin/aegis-shell";
  "userland/aegisctl -> /bin/aegisctl";
  "userland/netctl -> /bin/netctl";
  "userland/service-manager -> /sbin/service-manager [native EL0]";
  "system/daemon/aegisd -> /sbin/aegisd [native EL0]";
  "rustmyadmin -> /opt/rustmyadmin";
  "dashboard -> /opt/aegisos-dashboard";
  "services/* -> supervised service catalogue";
  "security/* -> hardening/signing/policy catalogue";
  "NOTE: v57 runs native bootstrap ELFs for aegis-init, service-manager, and aegisd. The full Rust implementations still require the AegisOS Rust target and std/userspace ABI port."].

Definition rootfs_rustmyadmin_manifest : list Z := text [
  "RustMyAdmin integration";
  "source=/rustmyadmin";
  "rootfs=/opt/rustmyadmin";
  "routes=auth,backups,containers,dashboard,firewall,logs,router,services,system,updates,users,vpn";
  "security=csrf,passwords,roles,sessions,audit,headers,permissions,rate-limit";
  "status=connected-to-aegis-shell-catalogue; network web runtime awaits sockets/TCP + Rust userspace ABI"].

Definition rootfs_shell_stub : list Z := text [
  "#!/aegisos/kernel-console";
  "Aegis shell is provided by the v57 kernel-hosted serial console bridge while native shell promotion remains pending.";
  "Commands: help, status, services, rust, rustmyadmin, net, variants, rootfs, ls, cat, run."].

Definition release_rootfs : list (string * list Z * Z * bool) :=
  ((λ d, (d, [], S_DIR, true)) <$>
     ["bin"; "sbin"; "etc"; "etc/aegisos"; "opt"; "opt/rustmyadmin"; "services"; "userland"; "security";
      "var"; "var/log"; "var/lib"; "var/backups"]) ++
  [("bin/aegis-shell", rootfs_shell_stub, S_EXEC, false);
   ("bin/aegisctl", rootfs_shell_stub, S_EXEC, false);
   ("bin/netctl", rootfs_shell_stub, S_EXEC, false);
   ("etc/aegisos.toml", rootfs_aegisos_toml, S_FILE, false);
   ("etc/services.toml", rootfs_services_toml, S_FILE, false);
   ("etc/network.toml", rootfs_network_toml, S_FILE, false);
   ("etc/firewall.toml", rootfs_firewall_toml, S_FILE, false);
   ("etc/hardening.toml", rootfs_hardening_toml, S_FILE, false);
   ("etc/aegisos/rust-bridge.manifest", rootfs_rust_bridge_manifest, S_FILE, false);
   ("opt/rustmyadmin/INTEGRATION.txt", rootfs_rustmyadmin_manifest, S_FILE, false)].

Definition initramfs_install_release_rootfs (s : initramfs) : Z * initramfs :=
  if negb (mounted s) then (AEGIS_EINVAL, s) else add_missing release_rootfs s.

(** ** Archives *)

(** A file of an archive, and its newc encoding: the header with [mode],
    [filesize] and [namesize] in hexadecimal and the other fields zero, the
    terminated name and the data, both padded to a multiple of four. *)
Record cpio_file := mk_cfile { cf_name : string; cf_mode : Z; cf_data : list Z }.

Definition hex_char (d : Z) : Z := if d <? 10 then 48 + d else 97 + (d - 10).
Fixpoint hex (n : nat) (x : Z) : list Z :=
  match n with O => [] | S n => hex n (x `div` 16) ++ [hex_char (x `mod` 16)] end.

Definition pad4 (n : nat) : list Z := replicate (Z.to_nat (align4 (Z.of_nat n)) - n) 0.

Definition cpio_header (namesize filesize mode : Z) : list Z :=
  cpio_magic ++ hex 8 0 ++ hex 8 mode ++ concat (replicate 4 (hex 8 0)) ++ hex 8 filesize ++
  concat (replicate 4 (hex 8 0)) ++ hex 8 namesize ++ hex 8 0.

Definition cpio_entry (name data : list Z) (mode : Z) : list Z :=
  let header := cpio_header (Z.of_nat (length name) + 1) (Z.of_nat (length data)) mode ++ name ++ [0] in
  header ++ pad4 (length header) ++ data ++ pad4 (length data).

Definition cpio_archive (l : list cpio_file) : list Z :=
  concat ((λ f, cpio_entry (bytes_of (cf_name f)) (cf_data f) (cf_mode f)) <$> l) ++
  cpio_entry trailer [] 0.

(** The files the format can carry and [initramfs_mount] keeps under their name. *)
Definition cpio_ok (f : cpio_file) : Prop :=
  c_str (cf_name f) ∧ (0 < length (bytes_of (cf_name f)) < INITRAMFS_MAX_NAME)%nat ∧
  cf_name f ≠ "TRAILER!!!" ∧ take 2 (bytes_of (cf_name f)) ≠ [46; 47] ∧
  0 ≤ cf_mode f < 2 ^ 32 ∧ Z.of_nat (length (cf_data f)) < 2 ^ 31.

(** ** Hexadecimal *)

Lemma hex_length n x : length (hex n x) = n.
Proof. revert x. induction n as [|n IH]; intros x; [done|]. cbn. rewrite length_app, IH. cbn. lia. Qed.

Lemma hex_digit_char d : 0 ≤ d < 16 → hex_digit (hex_char d) = d.
Proof.
  intros Hd. unfold hex_char, hex_digit. destruct (Z.ltb_spec d 10).
  - rewrite (proj2 (Z.leb_le _ _)), (proj2 (Z.leb_le _ _)) by lia. cbn [andb]. lia.
  - rewrite (proj2 (Z.leb_gt (97 + (d - 10)) 57)), andb_false_r by lia.
    rewrite (proj2 (Z.leb_le _ _)), (proj2 (Z.leb_le _ _)) by lia. cbn [andb]. lia.
Qed.

Lemma lor_shift4 a d : 0 ≤ d < 16 → Z.lor (Z.shiftl a 4) d = 16 * a + d.
Proof.
  intros Hd. rewrite Z.shiftl_mul_pow2 by lia. pose proof (Z.add_lor_land (a * 2 ^ 4) d) as E.
  cut (Z.land (a * 2 ^ 4) d = 0); [lia|]. apply Z.bits_inj'. intros n Hn.
  rewrite Z.land_spec, Z.bits_0. destruct (decide (n < 4)).
  - rewrite Z.mul_pow2_bits_low by lia. done.
  - rewrite <-(Z.mod_small d (2 ^ 4)) by lia. rewrite Z.mod_pow2_bits_high by lia. apply andb_false_r.
Qed.

Lemma hex_fold n x :
  0 ≤ x < 2 ^ (4 * Z.of_nat n) → (n ≤ 8)%nat →
  foldl (λ val c, Z.lor (u32 (Z.shiftl val 4)) (hex_digit c)) 0 (hex n x) = x.
Proof.
  revert x. induction n as [|n IH]; intros x Hx Hn; [cbn in *; lia|]. cbn [hex].
  rewrite foldl_snoc. replace (4 * Z.of_nat (S n)) with (4 * Z.of_nat n + 4) in Hx by lia.
  rewrite Z.pow_add_r in Hx by lia.
  assert (0 ≤ x `div` 16 < 2 ^ (4 * Z.of_nat n)) as Hd by (change (2 ^ 4) with 16 in Hx; split; divlia).
  assert (2 ^ (4 * Z.of_nat n) ≤ 2 ^ 28) as Hp by (apply Z.pow_le_mono_r; lia).
  rewrite IH by (done || lia). rewrite hex_digit_char by (apply Z.mod_pos_bound; lia).
  rewrite u32_small; [|rewrite Z.shiftl_mul_pow2 by lia; lia].
  rewrite lor_shift4 by (apply Z.mod_pos_bound; lia). pose proof (Z.div_mod x 16). lia.
Qed.

Lemma hex8_roundtrip x l : 0 ≤ x < 2 ^ 32 → hex8_to_u32 (hex 8 x ++ l) = x.
Proof.
  intros Hx. unfold hex8_to_u32. rewrite take_app_length' by (by rewrite hex_length).
  apply hex_fold; [exact Hx|lia].
Qed.

Lemma align4_spec x : 0 ≤ x < 2 ^ 63 → x ≤ align4 x < x + 4.
Proof.
  intros Hx. unfold align4. rewrite (u64_small (x + 3)) by lia.
  rewrite (land_align 64 2 : ∀ x, _ → _ → Z.land x (u64 (Z.lnot 3)) = _) by lia. change (2 ^ 2) with 4. divlia.
Qed.

(** ** One record of an archive *)

Lemma same_prefix_app (pat a l : list Z) :
  length pat = length a → same_prefix pat (a ++ l) = Some (bool_decide (pat = a)).
Proof.
  revert a. induction pat as [|x pat IH]; intros [|y a]; try done. intros [= Hl]. cbn.
  destruct (Z.eqb_spec x y) as [->|Hne].
  - rewrite IH by done. f_equal. apply bool_decide_ext. split; [by intros ->|by intros [= ->]].
  - f_equal. symmetry. apply bool_decide_eq_false_2. congruence.
Qed.

Lemma skip_dot_slash_name (a l : list Z) :
  a ≠ [] → take 2 a ≠ [46; 47] → skip_dot_slash (a ++ 0 :: l) = Some (a ++ 0 :: l).
Proof.
  intros Ha Ht. unfold skip_dot_slash. destruct a as [|c0 a]; [done|]. cbn [app lookup list_lookup mbind option_bind].
  destruct (Z.eqb_spec c0 46) as [->|]; cbn [negb]; [|done].
  destruct a as [|c1 a]; cbn [app lookup list_lookup mbind option_bind]; [done|].
  destruct (Z.eqb_spec c1 47) as [->|]; [|done]. by destruct Ht.
Qed.

Lemma copy_cstr_bytes k s l :
  c_str s → (length (bytes_of s) ≤ k)%nat → copy_cstr k (bytes_of s ++ 0 :: l) = Some s.
Proof.
  unfold c_str. revert k. induction s as [|c s IH]; intros k; [by destruct k|].
  unfold bytes_of in *. cbn [String.list_ascii_of_string fmap list_fmap]. intros [Hc Hs]%Forall_cons Hk.
  cbn in Hk. destruct k as [|k]; [lia|]. cbn [app copy_cstr]. rewrite (proj2 (Z.eqb_neq _ _)) by done.
  rewrite IH by (done || lia). cbn. by rewrite Nat2Z.id, Ascii.ascii_nat_embedding.
Qed.

Lemma cpio_header_length n f m : length (cpio_header n f m) = 110%nat.
Proof. unfold cpio_header. rewrite !length_app, !hex_length. reflexivity. Qed.

(** The fields of the header at their offsets. *)
Lemma cpio_header_fields n f m l :
  0 ≤ n < 2 ^ 32 → 0 ≤ f < 2 ^ 32 → 0 ≤ m < 2 ^ 32 →
  take 6 (cpio_header n f m ++ l) = cpio_magic ∧
  hex8_to_u32 (drop 94 (cpio_header n f m ++ l)) = n ∧
  hex8_to_u32 (drop 54 (cpio_header n f m ++ l)) = f ∧
  hex8_to_u32 (drop 14 (cpio_header n f m ++ l)) = m.
Proof.
  intros Hn Hf Hm. unfold cpio_header.
  set (z := concat (replicate 4 (hex 8 0))). assert (length z = 32%nat) as Hz by done. clearbody z.
  set (z8 := hex 8 0). assert (length z8 = 8%nat) as Hz8 by done. clearbody z8.
  rewrite <-!app_assoc. split; [done|].
  split_and!.
  - rewrite (drop_app_ge cpio_magic) by (cbn; lia). rewrite (drop_app_ge z8) by (rewrite Hz8; cbn; lia).
    rewrite (drop_app_ge (hex 8 m)) by (rewrite Hz8, hex_length; cbn; lia).
    rewrite (drop_app_ge z) by (rewrite Hz, Hz8, hex_length; cbn; lia).
    rewrite (drop_app_ge (hex 8 f)) by (rewrite Hz, Hz8, !hex_length; cbn; lia).
    rewrite (drop_app_ge z) by (rewrite Hz, Hz8, !hex_length; cbn; lia).
    rewrite Hz, Hz8, !hex_length. cbn [length cpio_magic Nat.sub drop]. by apply hex8_roundtrip.
  - rewrite (drop_app_ge cpio_magic) by (cbn; lia). rewrite (drop_app_ge z8) by (rewrite Hz8; cbn; lia).
    rewrite (drop_app_ge (hex 8 m)) by (rewrite Hz8, hex_length; cbn; lia).
    rewrite (drop_app_ge z) by (rewrite Hz, Hz8, hex_length; cbn; lia).
    rewrite Hz, Hz8, !hex_length. cbn [length cpio_magic Nat.sub drop]. by apply hex8_roundtrip.
  - rewrite (drop_app_ge cpio_magic) by (cbn; lia). rewrite (drop_app_ge z8) by (rewrite Hz8; cbn; lia).
    rewrite Hz8. cbn [length cpio_magic Nat.sub drop]. by apply hex8_roundtrip.
Qed.

(** The entry that a file of an archive becomes; [l] is the rest of the archive. *)
Definition ient_of (f : cpio_file) (l : list Z) : initramfs_entry :=
  mk_ient (cf_name f) (cf_data f ++ l) (Z.of_nat (length (cf_data f))) (cf_mode f)
    (has_flag (cf_mode f) 0x4000) true.

Lemma pad4_drop (a b : list Z) :
  Z.of_nat (length a) < 2 ^ 62 → drop (Z.to_nat (align4 (Z.of_nat (length a)))) (a ++ pad4 (length a) ++ b) = b.
Proof.
  intros Ha. pose proof (align4_spec (Z.of_nat (length a)) ltac:(lia)).
  rewrite app_assoc. apply drop_app_length'. unfold pad4. rewrite length_app, length_replicate. lia.
Qed.

Lemma cpio_entry_split name data mode rest :
  let hdr := cpio_header (Z.of_nat (length name) + 1) (Z.of_nat (length data)) mode ++ name ++ [0] in
  cpio_entry name data mode ++ rest =
    hdr ++ pad4 (length hdr) ++ data ++ pad4 (length data) ++ rest.
Proof. intros hdr. unfold cpio_entry. cbv zeta. fold hdr. by rewrite <-!app_assoc. Qed.

Lemma cpio_record_entry f rest s :
  cpio_ok f →
  ∃ l total,
    cpio_record (cpio_entry (bytes_of (cf_name f)) (cf_data f) (cf_mode f) ++ rest) s =
      Some (Some (s <| files ::= <[Z.to_nat (file_count s) := ient_of f l]> |>
                    <| file_count := u32 (file_count s + 1) |>, total)) ∧
    drop (Z.to_nat total) (cpio_entry (bytes_of (cf_name f)) (cf_data f) (cf_mode f) ++ rest) = rest.
Proof.
  intros (Hc & Hl & Ht & Hd & Hm & Hdata). rewrite cpio_entry_split.
  set (name := bytes_of (cf_name f)) in *. set (hdr := cpio_header _ _ _ ++ name ++ [0]).
  unfold INITRAMFS_MAX_NAME in Hl.
  assert (length hdr = (110 + (length name + 1))%nat) as Hlen
    by (subst hdr; rewrite length_app, cpio_header_length, length_app; cbn; lia).
  assert (align4 (cpio_header_size + (Z.of_nat (length name) + 1)) = align4 (Z.of_nat (length hdr))) as Hoff
    by (f_equal; rewrite Hlen; unfold cpio_header_size; lia).
  set (tail := cf_data f ++ pad4 (length (cf_data f)) ++ rest).
  exists (pad4 (length (cf_data f)) ++ rest), (align4 (Z.of_nat (length hdr)) + align4 (Z.of_nat (length (cf_data f)))).
  pose proof (align4_spec (Z.of_nat (length hdr)) ltac:(lia)) as Ha1.
  pose proof (align4_spec (Z.of_nat (length (cf_data f))) ltac:(lia)) as Ha2.
  assert (drop (Z.to_nat (align4 (Z.of_nat (length hdr)))) (hdr ++ pad4 (length hdr) ++ tail) = tail) as Hdrop
    by (apply pad4_drop; lia).
  split.
  - destruct (cpio_header_fields (Z.of_nat (length name) + 1) (Z.of_nat (length (cf_data f))) (cf_mode f)
      ((name ++ [0]) ++ pad4 (length hdr) ++ tail)) as (F1 & F2 & F3 & F4); [lia..|].
    assert (hdr ++ pad4 (length hdr) ++ tail =
      cpio_header (Z.of_nat (length name) + 1) (Z.of_nat (length (cf_data f))) (cf_mode f) ++
        (name ++ [0]) ++ pad4 (length hdr) ++ tail) as Hall by (subst hdr; by rewrite <-!app_assoc).
    assert (drop (Z.to_nat cpio_header_size) (hdr ++ pad4 (length hdr) ++ tail) =
            name ++ 0 :: pad4 (length hdr) ++ tail) as Hname.
    { rewrite Hall, drop_app_length' by (by rewrite cpio_header_length). by rewrite <-app_assoc. }
    rewrite <-Hall in F1, F2, F3, F4. unfold cpio_record.
    rewrite F1, F2, F3, F4, Hname. rewrite bool_decide_eq_true_2 by done. cbn [negb].
    assert ((if Z.of_nat (length name) + 1 =? 11
             then same_prefix trailer (name ++ 0 :: pad4 (length hdr) ++ tail) else Some false) = Some false) as ->.
    { destruct (Z.eqb_spec (Z.of_nat (length name) + 1) 11) as [E|]; [|done].
      rewrite same_prefix_app by (cbn; lia). f_equal. apply bool_decide_eq_false_2. intros Heq.
      apply Ht. apply bytes_of_inj. done. }
    cbn [mbind option_bind]. unfold keep_entry. rewrite (proj2 (Z.ltb_lt _ _)) by lia. cbn [mbind option_bind].
    rewrite skip_dot_slash_name; [|intros En; rewrite En in Hl; cbn in Hl; lia|done]. cbn [mbind option_bind].
    assert (∀ l, copy_cstr (INITRAMFS_MAX_NAME - 1) (name ++ 0 :: l) = Some (cf_name f)) as ->
      by (intros l; apply copy_cstr_bytes; [done|unfold INITRAMFS_MAX_NAME; subst name; lia]). cbn [mbind option_bind].
    rewrite Hoff. subst tail. rewrite Hdrop. done.
  - rewrite Z2Nat.inj_add by lia. rewrite <-drop_drop, Hdrop. subst tail. apply pad4_drop. lia.
Qed.

(** ** The loop *)

Lemma hex8_range l : 0 ≤ hex8_to_u32 l < 2 ^ 32.
Proof.
  unfold hex8_to_u32. cut (∀ v, 0 ≤ v < 2 ^ 32 →
    0 ≤ foldl (λ val c, Z.lor (u32 (Z.shiftl val 4)) (hex_digit c)) v (take 8 l) < 2 ^ 32); [intros H; apply H; lia|].
  induction (take 8 l) as [|c l' IH]; intros v Hv; [done|]. cbn [foldl]. apply IH.
  pose proof (u32_range (Z.shiftl v 4)) as Hu.
  assert (0 ≤ hex_digit c < 16) as Hd.
  { unfold hex_digit. repeat case_match; rewrite ?andb_true_iff in *; lia. }
  split; [apply Z.lor_nonneg; lia|].
  apply Z_nonneg_lt_pow2_bits; [lia|apply Z.lor_nonneg; lia|]. intros n Hn.
  rewrite Z.lor_spec, (Z.bits_above_log2 (u32 _)), (Z.bits_above_log2 (hex_digit c)); [done|lia| |lia|].
  - destruct (decide (hex_digit c = 0)) as [->|]; [cbn; lia|]. apply Z.log2_lt_pow2; [lia|].
    apply Z.lt_le_trans with (2 ^ 32); [lia|]. apply Z.pow_le_mono_r; lia.
  - destruct (decide (u32 (Z.shiftl v 4) = 0)) as [->|]; [cbn; lia|]. apply Z.log2_lt_pow2; [lia|].
    apply Z.lt_le_trans with (2 ^ 32); [lia|]. apply Z.pow_le_mono_r; lia.
Qed.

(** Every iteration that continues advances past the header. *)
Lemma cpio_record_advances ptr s s' total :
  cpio_record ptr s = Some (Some (s', total)) → cpio_header_size ≤ total.
Proof.
  unfold cpio_record. destruct (negb _); [done|].
  destruct (if _ =? 11 then _ else _) as [[]|]; cbn [mbind option_bind]; [done| |done].
  destruct (keep_entry _ _) as [keep|]; cbn [mbind option_bind]; [|done].
  destruct (if keep then _ else _) as [s0|]; cbn [mbind option_bind]; [|done].
  intros [= _ <-]. unfold cpio_header_size.
  pose proof (hex8_range (drop 94 ptr)). pose proof (hex8_range (drop 54 ptr)).
  pose proof (align4_spec (110 + hex8_to_u32 (drop 94 ptr)) ltac:(lia)).
  pose proof (align4_spec (hex8_to_u32 (drop 54 ptr)) ltac:(lia)). lia.
Qed.

(** The loop of [initramfs_mount] ends for every input, well-formed or not:
    with as many iterations as the archive has bytes it never runs out, whatever
    sizes the headers claim. *)
Theorem parse_loop_terminates data s : parse_loop (S (length data)) data s ≠ OutOfFuel.
Proof.
  assert (∀ fuel ptr s, (length ptr < fuel)%nat → parse_loop fuel ptr s ≠ OutOfFuel) as Hall; [|apply Hall; lia].
  induction fuel as [|fuel IH]; intros ptr s1 Hf; [lia|]. cbn [parse_loop].
  destruct (Z.leb_spec cpio_header_size (Z.of_nat (length ptr))) as [Hlen|]; [|done]. cbn [andb].
  destruct (_ <? _); [|done].
  destruct (cpio_record ptr s1) as [[[s2 total]|]|] eqn:E; [|done..].
  apply cpio_record_advances in E. apply IH. unfold cpio_header_size in *. rewrite length_drop. lia.
Qed.

Lemma cpio_entry_length name data mode : (110 ≤ length (cpio_entry name data mode))%nat.
Proof. unfold cpio_entry. cbv zeta. rewrite !length_app, cpio_header_length. lia. Qed.

Lemma cpio_record_trailer l s : cpio_record (cpio_entry trailer [] 0 ++ l) s = Some None.
Proof. reflexivity. Qed.

(** The state after the files [fs] of an archive have been read. *)
Lemma parse_loop_archive fs fuel s :
  Forall cpio_ok fs → 0 ≤ file_count s → length (files s) = INITRAMFS_MAX_FILES →
  file_count s + Z.of_nat (length fs) ≤ Z.of_nat INITRAMFS_MAX_FILES →
  (length (cpio_archive fs) < fuel)%nat →
  ∃ s', parse_loop fuel (cpio_archive fs) s = Parsed s' ∧
    file_count s' = file_count s + Z.of_nat (length fs) ∧ length (files s') = INITRAMFS_MAX_FILES ∧
    mounted s' = mounted s ∧
    (∀ i, (i < Z.to_nat (file_count s))%nat → files s' !! i = files s !! i) ∧
    (∀ i f, fs !! i = Some f → ∃ l, files s' !! (Z.to_nat (file_count s) + i)%nat = Some (ient_of f l)).
Proof.
  revert fuel s. induction fs as [|f fs IH]; intros fuel s Hok Hc Hlen Hcount Hfuel.
  { destruct fuel as [|fuel]; [lia|]. exists s. split.
    - cbn [parse_loop]. destruct (_ && _); [|done].
      replace (cpio_archive []) with (cpio_entry trailer [] 0 ++ []) by (by rewrite app_nil_r).
      by rewrite cpio_record_trailer.
    - split_and!; try done. cbn. lia. }
  apply Forall_cons in Hok as [Hf Hok]. cbn [length] in Hcount.
  unfold cpio_archive in *. cbn [fmap list_fmap concat] in *. rewrite <-app_assoc in *.
  set (rest := concat _ ++ cpio_entry trailer [] 0) in *.
  pose proof (cpio_entry_length (bytes_of (cf_name f)) (cf_data f) (cf_mode f)) as He.
  set (ent := cpio_entry (bytes_of (cf_name f)) (cf_data f) (cf_mode f)) in *.
  destruct fuel as [|fuel]; [lia|]. cbn [parse_loop]. rewrite length_app in Hfuel |- *.
  rewrite (proj2 (Z.leb_le _ _)) by (unfold cpio_header_size; lia).
  rewrite (proj2 (Z.ltb_lt (file_count s) _)) by lia. cbn [andb].
  destruct (cpio_record_entry f rest s Hf) as (l & total & Er & Ed). fold ent in Er, Ed. rewrite Er, Ed.
  set (s1 := s <| files ::= _ |> <| file_count := _ |>).
  assert (file_count s1 = file_count s + 1) as Hc1.
  { apply u32_small. unfold INITRAMFS_MAX_FILES in *. lia. }
  assert (length (files s1) = INITRAMFS_MAX_FILES) as Hlen1 by (cbn; by rewrite length_insert).
  destruct (IH fuel s1 Hok ltac:(lia) Hlen1 ltac:(lia) ltac:(lia)) as (s' & Ep & Hcnt & Hl' & Hm & Hold & Hnew).
  exists s'. split; [exact Ep|]. rewrite Hc1 in *. split_and!; [cbn [length]; lia|done|done| |].
  - intros i Hi. rewrite Hold by lia. cbn. rewrite list_lookup_insert_ne by lia. done.
  - intros [|i] f' Hfi; cbn in Hfi.
    + simplify_eq. exists l. rewrite Nat.add_0_r, Hold by lia. cbn. apply list_lookup_insert_eq. lia.
    + destruct (Hnew _ _ Hfi) as [l' Hl2]. exists l'. rewrite <-Hl2. f_equal. lia.
Qed.

(** ** Reading what was mounted *)

Lemma lookup_entry_found s path i e :
  (i < Z.to_nat (file_count s))%nat → files s !! i = Some e → ie_valid e = true → ie_name e = skip_slash path →
  (∀ j e', (j < i)%nat → files s !! j = Some e' → ie_name e' ≠ skip_slash path) →
  lookup_entry (Some path) s = Some e.
Proof.
  intros Hi He Hv Hn Hfirst. unfold lookup_entry, initramfs_lookup_internal. cbn [mbind option_bind].
  replace (find_slot _ _) with (Some i); [done|]. symmetry. apply find_slot_Some. exists e.
  split; [by apply lookup_take_Some|]. split.
  - rewrite Hv, Hn. by apply c_streq_spec.
  - intros j y Hy Hj. apply lookup_take_Some in Hy as [Hy _]. apply andb_false_iff. right.
    destruct (c_streq _ _) eqn:E; [|done]. apply c_streq_spec in E. by destruct (Hfirst j y Hj Hy).
Qed.

Lemma initramfs_read_entry v off len s f l :
  lookup_entry (priv_path v) s = Some (ient_of f l) → 0 ≤ off → 0 ≤ len → Z.of_nat (length (cf_data f)) < 2 ^ 31 →
  let data := take (Z.to_nat len) (drop (Z.to_nat off) (cf_data f)) in
  initramfs_read v off true len s = Some (Z.of_nat (length data), data, s).
Proof.
  intros Hl Hoff Hlen Hsz data. unfold initramfs_read. cbn [negb]. rewrite Hl. cbn [ie_size ie_data ient_of].
  set (size := Z.of_nat (length (cf_data f))) in *.
  destruct (Z.leb_spec size off).
  { subst data. rewrite drop_ge by lia. by rewrite take_nil. }
  set (n := if len <? size - off then len else size - off).
  assert (0 ≤ n ≤ size - off ∧ n ≤ len) as Hn by (subst n; destruct (Z.ltb_spec len (size - off)); lia).
  rewrite (proj2 (Z.ltb_ge _ _)) by (rewrite length_app; lia).
  assert (take (Z.to_nat n) (drop (Z.to_nat off) (cf_data f ++ l)) = data) as ->.
  { rewrite drop_app_le by lia. rewrite take_app_le by (rewrite length_drop; lia). subst data n.
    destruct (Z.ltb_spec len (size - off)); [done|]. rewrite !take_ge; [done|rewrite length_drop; lia..]. }
  do 3 f_equal. subst data. rewrite length_take, length_drop. unfold s32. subst n.
  destruct (Z.ltb_spec len (size - off)); divlia.
Qed.


(** An archive with two files, mounted on a fresh switch. *)
Definition example_archive : list cpio_file :=
  [mk_cfile "etc/motd" 0x81a4 (bytes_of "hello"); mk_cfile "sbin/init" 0x81ed [127; 69; 76; 70]].
Definition empty_initramfs : initramfs := mk_initramfs (replicate INITRAMFS_MAX_FILES zero_ient) 0 false.


(** The sizes in a header are not compared with the archive: a truncated archive
    mounts, and reading the file runs past its end. *)
Lemma initramfs_read_past_archive :
  match initramfs_mount (λ _, initramfs_vfs) 0 (Some (take 130 (cpio_archive [mk_cfile "boot.img" 0x81a4 (replicate 64 1)])))
          example_vfs empty_initramfs with
  | Some (rc, _, s) => rc = AEGIS_OK ∧ initramfs_read (mk_vnode 1 0 None None true "boot.img") 0 true 64 s = None
  | None => False
  end.
Proof. vm_compute. done. Qed.

(** The release image: the built-in programs and the root file system together fit
    the table, and every path of the root file system is found afterwards. *)
Lemma release_rootfs_installed :
  let s := empty_initramfs <| mounted := true |> in
  let '(rc1, s) := initramfs_install_builtin_userland [1] [2] [3] [4] [5] true s in
  let '(rc2, s) := initramfs_install_release_rootfs s in
  rc1 = AEGIS_OK ∧ rc2 = AEGIS_OK ∧
  Forall (λ x : string * list Z * Z * bool, is_Some (lookup_entry (Some x.1.1.1) s)) release_rootfs ∧
  initramfs_has_file (Some "/sbin/aegisd") s = true.
Proof.
  vm_compute. split; [done|]. split; [done|]. split; [|done]. repeat constructor; eauto.
Qed.
