(* ===== verification/Storage.v ===== *)
(** The block storage interface of hal/include/storage.h, on which the log and the
    configuration store keep their sectors. The driver behind it
    (hal/drivers/storage/sdcard.c) drives a memory mapped controller; what its
    clients rely on are the laws of [StorageLaws]. *)

From S2P Require Import Prelude.

Definition BLOCK_SIZE : nat := 512.

(** [storage_read(lba, 1, buf)] and [storage_write(lba, 1, buf)] on a device state
    [W]; both clients transfer one block at a time. *)
Class Storage (W : Type) := {
  storage_read : Z → W → Z * list Z * W;
  storage_write : Z → list Z → W → Z * W;
}.

(** Blocks keep what was written last; [good] are the states in which the device
    answers. *)
Class StorageLaws (W : Type) `{Storage W} (block : W → Z → list Z) (good : W → Prop) := {
  st_read lba w rc data w' :
    storage_read lba w = (rc, data, w') →
    (∀ i, block w' i = block w i) ∧ (good w → rc = 0 ∧ data = block w lba ∧ good w');
  st_write lba data w rc w' :
    length data = BLOCK_SIZE → storage_write lba data w = (rc, w') →
    (∀ i, i ≠ lba → block w' i = block w i) ∧ (good w → rc = 0 ∧ block w' lba = data ∧ good w');
}.

(** A card: the blocks written so far, zeroes elsewhere, and whether it is
    present. *)
Record card := mk_card { card_present : bool; card_blocks : gmap Z (list Z) }.

Definition card_block (c : card) (lba : Z) : list Z := default (replicate BLOCK_SIZE 0) (card_blocks c !! lba).

#[export] Instance card_storage : Storage card := {|
  storage_read lba c := if card_present c then (0, card_block c lba, c) else (-1, [], c);
  storage_write lba data c :=
    if card_present c then (0, mk_card true (<[lba := data]> (card_blocks c))) else (-1, c);
|}.

#[export] Instance card_storage_laws : StorageLaws card card_block (λ c, card_present c = true).
Proof.
  split.
  - intros lba c rc data c'. unfold storage_read, card_storage. destruct (card_present c) eqn:E;
      intros [= <- <- <-]; (split; [done|]); intros Hg; congruence || done.
  - intros lba data c rc c' Hl. unfold storage_write, card_storage.
    destruct (card_present c) eqn:E; intros [= <- <-]; [|split; [done|congruence]]. split.
    + intros i Hi. unfold card_block. cbn. by rewrite lookup_insert_ne.
    + intros _. unfold card_block. cbn. by rewrite lookup_insert_eq.
Qed.
