(* ===== verification/ConfigFs.v ===== *)
(** The configuration store: fs/configfs.c, a hash table with linear probing over
    fixed arrays of keys and values.

    The abstraction is the finite map from keys to values; without deletions the
    table implements it exactly, which is the refinement theorem. [configfs_delete]
    breaks the probe chains, and nothing but the superblock ever reaches the
    disk. *)

From S2P Require Import Prelude Storage.

Definition CONFIGFS_MAGIC : Z := 0x434F4E46.
Definition CONFIGFS_MAX_ENTRIES : nat := 512.
Definition CONFIGFS_KEY_MAX : nat := 64.
Definition CONFIGFS_VAL_MAX : nat := 256.

(** The character arrays of an entry, up to their terminators. *)
Record config_entry := mk_centry { c_key : string; c_value : string; c_valid : bool; c_hash : Z }.
#[export] Instance config_entry_eta : Eta config_entry := λ e,
  mk_centry (c_key e) (c_value e) (c_valid e) (c_hash e).
Definition zero_centry : config_entry := mk_centry EmptyString EmptyString false 0.

Record configfs_superblock := mk_csb { csb_magic : Z; csb_version : Z; csb_entry_count : Z; csb_base_lba : Z }.
#[export] Instance configfs_superblock_eta : Eta configfs_superblock := λ b,
  mk_csb (csb_magic b) (csb_version b) (csb_entry_count b) (csb_base_lba b).

Record configfs := mk_configfs { entries : list config_entry; csb : configfs_superblock; configfs_mounted : bool }.
#[export] Instance configfs_eta : Eta configfs := λ s, mk_configfs (entries s) (csb s) (configfs_mounted s).

(** The static variables at start. *)
Definition boot_configfs : configfs :=
  mk_configfs (replicate CONFIGFS_MAX_ENTRIES zero_centry) (mk_csb 0 0 0 0) false.

Fixpoint hash_from (h : Z) (key : string) : Z :=
  match key with
  | EmptyString => h
  | String c key => hash_from (Z.lxor (u32 (u32 (Z.shiftl h 5) + h)) (Z.of_nat (Ascii.nat_of_ascii c))) key
  end.
Definition hash_key (key : string) : Z := hash_from 5381 key.

(** The probe sequence of a hash, and where a probe for a key stops: at the first
    entry that is not valid or that holds the key. *)
Definition probe_idx (h i : Z) : nat :=
  Z.to_nat ((h mod Z.of_nat CONFIGFS_MAX_ENTRIES + i) mod Z.of_nat CONFIGFS_MAX_ENTRIES).

Definition entry_at (idx : nat) (s : configfs) : config_entry := default zero_centry (entries s !! idx).

Definition holds_key (key : string) (e : config_entry) : bool :=
  (c_hash e =? hash_key key) && c_streq (c_key e) key.

Definition probe (key : string) (s : configfs) : option nat :=
  probe_idx (hash_key key) <$>
  find_from (λ i, let e := entry_at (probe_idx (hash_key key) i) s in negb (c_valid e) || holds_key key e)
    0 CONFIGFS_MAX_ENTRIES.

(** The value written through the pointer, if any, beside the return code. *)
Definition configfs_get (key : option string) (has_value : bool) (max_len : Z) (s : configfs) : Z * option string :=
  match key with
  | Some key =>
      if negb (configfs_mounted s) || negb has_value || (max_len =? 0) then (-1, None)
      else
        match probe key s with
        | Some idx =>
            let e := entry_at idx s in
            if c_valid e then (0, Some (str_take (Z.to_nat (max_len - 1)) (c_value e))) else (-1, None)
        | None => (-1, None)
        end
  | None => (-1, None)
  end.

Definition configfs_set (key value : option string) (s : configfs) : Z * configfs :=
  match key, value with
  | Some key, Some value =>
      if negb (configfs_mounted s) then (-1, s)
      else
        match probe key s with
        | Some idx =>
            if c_valid (entry_at idx s)
            then (0, s <| entries ::= alter (λ e, e <| c_value := str_take (CONFIGFS_VAL_MAX - 1) value |>) idx |>)
            else
              (0, s <| entries ::= <[idx := mk_centry (str_take (CONFIGFS_KEY_MAX - 1) key)
                                              (str_take (CONFIGFS_VAL_MAX - 1) value) true (hash_key key)]> |>
                    <| csb ::= λ b, b <| csb_entry_count := u32 (csb_entry_count b + 1) |> |>)
        | None => (-1, s)
        end
  | _, _ => (-1, s)
  end.

Definition configfs_delete (key : option string) (s : configfs) : Z * configfs :=
  match key with
  | Some key =>
      if negb (configfs_mounted s) then (-1, s)
      else
        match probe key s with
        | Some idx =>
            if c_valid (entry_at idx s)
            then (0, s <| entries ::= alter (λ e, e <| c_valid := false |>) idx |>
                       <| csb ::= λ b, b <| csb_entry_count := u32 (csb_entry_count b - 1) |> |>)
            else (-1, s)
        | None => (-1, s)
        end
  | None => (-1, s)
  end.

(** The calls of the callback, in order. *)
Definition configfs_list (callback : bool) (s : configfs) : Z * list (string * string) :=
  if negb (configfs_mounted s) || negb callback then (-1, [])
  else (0, omap (λ e, if c_valid e then Some (c_key e, c_value e) else None) (entries s)).

Definition csb_image (b : configfs_superblock) : list Z :=
  le 4 (csb_magic b) ++ le 4 (csb_version b) ++ le 4 (csb_entry_count b) ++ le 4 (csb_base_lba b).

Definition default_settings : list (string * string) := [
  ("hostname", "aegisbox"); ("domain", "local"); ("dns.primary", "1.1.1.1"); ("dns.secondary", "8.8.8.8");
  ("ntp.server", "pool.ntp.org"); ("log.level", "info"); ("firewall.default_policy", "deny");
  ("update.channel", "stable"); ("ssh.port", "22"); ("dashboard.port", "8080")]%string.

Definition set_settings (l : list (string * string)) (s : configfs) : configfs :=
  foldl (λ s kv, (configfs_set (Some kv.1) (Some kv.2) s).2) s l.

Section storage.
Context {W : Type} `{Storage W}.

Definition configfs_mount (path : option string) (s : configfs) (w : W) : Z * configfs * W :=
  match path with
  | None => (-1, s, w)
  | Some _ =>
      if configfs_mounted s then (0, s, w)
      else
        let s := s <| entries ::= fmap (λ e, e <| c_valid := false |>) |>
                   <| csb := mk_csb CONFIGFS_MAGIC 1 0 2048 |> in
        let '(rc, block, w) := storage_read 2048 w in
        let s := if (rc =? 0) && (from_le (field 0 4 block) =? CONFIGFS_MAGIC)
                 then s <| csb ::= λ b, b <| csb_entry_count := from_le (field 8 4 block) |> |> else s in
        (0, set_settings default_settings (s <| configfs_mounted := true |>), w)
  end.

Definition configfs_sync (s : configfs) (w : W) : Z * W :=
  if negb (configfs_mounted s) then (-1, w)
  else
    let block := resize BLOCK_SIZE 0 (csb_image (csb s)) in
    (0, (storage_write (csb_base_lba (csb s)) block w).2).

End storage.

(** ** The table as a finite map *)

Record cfs_inv (s : configfs) (m : gmap string string) : Prop := {
  ci_mounted : configfs_mounted s = true;
  ci_length : length (entries s) = CONFIGFS_MAX_ENTRIES;
  ci_entry i e : entries s !! i = Some e → c_valid e = true →
    m !! c_key e = Some (c_value e) ∧ c_hash e = hash_key (c_key e) ∧
    ∃ p, 0 ≤ p < 512 ∧ i = probe_idx (hash_key (c_key e)) p ∧
         ∀ j, 0 ≤ j < p → c_valid (entry_at (probe_idx (hash_key (c_key e)) j) s) = true;
  ci_key k v : m !! k = Some v → ∃ i e, entries s !! i = Some e ∧ c_valid e = true ∧ c_key e = k ∧ c_value e = v;
  ci_unique i j e e' : entries s !! i = Some e → entries s !! j = Some e' →
    c_valid e = true → c_valid e' = true → c_key e = c_key e' → i = j;
}.

Lemma probe_idx_lt h i : (probe_idx h i < 512)%nat.
Proof. unfold probe_idx. change (Z.of_nat CONFIGFS_MAX_ENTRIES) with 512. divlia. Qed.

Lemma probe_idx_inj h i j : 0 ≤ i < 512 → 0 ≤ j < 512 → probe_idx h i = probe_idx h j → i = j.
Proof. unfold probe_idx. change (Z.of_nat CONFIGFS_MAX_ENTRIES) with 512. divlia. Qed.

(** A probe sequence visits every slot. *)
Lemma probe_idx_surj h n : (n < 512)%nat → ∃ i, 0 ≤ i < 512 ∧ probe_idx h i = n.
Proof.
  intros Hn. exists ((Z.of_nat n - h mod 512) mod 512). split; [divlia|].
  unfold probe_idx. change (Z.of_nat CONFIGFS_MAX_ENTRIES) with 512. divlia.
Qed.

Lemma holds_key_true k e : holds_key k e = true ↔ c_hash e = hash_key k ∧ c_key e = k.
Proof. unfold holds_key. by rewrite andb_true_iff, Z.eqb_eq, c_streq_spec. Qed.

Lemma entry_at_lookup i e s : entries s !! i = Some e → entry_at i s = e.
Proof. unfold entry_at. by intros ->. Qed.

Lemma entry_at_Some i s m : cfs_inv s m → (i < 512)%nat → entries s !! i = Some (entry_at i s).
Proof.
  intros Hinv Hi. unfold entry_at. destruct (lookup_lt_is_Some_2 (entries s) i) as [e He]; [|by rewrite He].
  by rewrite (ci_length _ _ Hinv).
Qed.

(** What a probe finds: the entry of the key, or that the map has no such key and
    the slot where the chain of the key ends, if the table has room. *)
Lemma probe_spec k s m :
  cfs_inv s m →
  match probe k s with
  | Some idx =>
      ∃ e, entries s !! idx = Some e ∧
      if c_valid e then c_key e = k ∧ m !! k = Some (c_value e)
      else m !! k = None ∧ ∃ p, 0 ≤ p < 512 ∧ idx = probe_idx (hash_key k) p ∧
             ∀ j, 0 ≤ j < p → c_valid (entry_at (probe_idx (hash_key k) j) s) = true
  | None => m !! k = None ∧ ∀ i e, entries s !! i = Some e → c_valid e = true
  end.
Proof.
  intros Hinv. unfold probe. destruct (find_from _ _ _) as [p|] eqn:Hp; cbn [fmap option_fmap option_map].
  - apply find_from_Some in Hp as (Hr & Hstop & Hbefore).
    change (0 + Z.of_nat CONFIGFS_MAX_ENTRIES) with 512 in Hr.
    exists (entry_at (probe_idx (hash_key k) p) s).
    split; [eapply entry_at_Some; [done|apply probe_idx_lt]|]. cbn zeta in *.
    destruct (c_valid (entry_at _ s)) eqn:Hv.
    + apply holds_key_true in Hstop as [_ Hk]. split; [done|]. rewrite <-Hk at 1.
      destruct (ci_entry _ _ Hinv _ _ (entry_at_Some _ _ _ Hinv (probe_idx_lt (hash_key k) p)) Hv) as (Hm & _).
      exact Hm.
    + assert (∀ j, 0 ≤ j < p → c_valid (entry_at (probe_idx (hash_key k) j) s) = true) as Hchain.
      { intros j Hj. specialize (Hbefore j Hj). apply orb_false_iff in Hbefore as [Hb _]. by apply negb_false_iff. }
      split; [|by exists p].
      destruct (m !! k) as [v|] eqn:Hm; [|done].
      destruct (ci_key _ _ Hinv _ _ Hm) as (i & e & He & Hve & Hke & _).
      destruct (ci_entry _ _ Hinv _ _ He Hve) as (_ & Hh & q & Hq & -> & Hqc). rewrite Hke in *.
      pose proof (entry_at_lookup _ _ _ He) as Hat.
      destruct (Z.lt_trichotomy p q) as [Hlt|[->|Hlt]].
      * by rewrite Hqc in Hv by lia.
      * congruence.
      * specialize (Hbefore q (conj (proj1 Hq) Hlt)). rewrite Hat in Hbefore.
        apply orb_false_iff in Hbefore as [_ Hb]. by rewrite (proj2 (holds_key_true _ _)) in Hb.
  - rewrite find_from_None in Hp. change (0 + Z.of_nat CONFIGFS_MAX_ENTRIES) with 512 in Hp.
    assert (∀ i e, entries s !! i = Some e → c_valid e = true ∧ holds_key k e = false) as Hall.
    { intros i e He. destruct (probe_idx_surj (hash_key k) i) as (q & Hq & Ei).
      { apply lookup_lt_Some in He. by rewrite (ci_length _ _ Hinv) in He. }
      specialize (Hp q Hq). cbn in Hp. rewrite Ei, (entry_at_lookup _ _ _ He) in Hp.
      apply orb_false_iff in Hp as [Hp ?]. split; [by apply negb_false_iff|done]. }
    split; [|intros i e He; by apply (Hall i e)].
    destruct (m !! k) as [v|] eqn:Hm; [|done].
    destruct (ci_key _ _ Hinv _ _ Hm) as (i & e & He & Hve & Hke & _).
    destruct (ci_entry _ _ Hinv _ _ He Hve) as (_ & Hh & _). rewrite Hke in Hh.
    destruct (Hall _ _ He) as [_ Hb]. by rewrite (proj2 (holds_key_true _ _) (conj Hh Hke)) in Hb.
Qed.

(** The keys of the valid entries are the domain of the map. *)
Definition valid_key (e : config_entry) : option string := if c_valid e then Some (c_key e) else None.

Lemma NoDup_omap_unique {A B} (f : A → option B) (l : list A) :
  (∀ i j x y b, l !! i = Some x → l !! j = Some y → f x = Some b → f y = Some b → i = j) → NoDup (omap f l).
Proof.
  induction l as [|x l IH]; intros Hu; [constructor|]. cbn. destruct (f x) as [b|] eqn:Hb.
  - constructor.
    + intros (y & Hy & Hfy)%list_elem_of_omap. apply list_elem_of_lookup_1 in Hy as [j Hj].
      by specialize (Hu 0%nat (S j) x y b eq_refl Hj Hb Hfy).
    + apply IH. intros i j x' y b' Hx Hy Hfx Hfy. specialize (Hu (S i) (S j) x' y b' Hx Hy Hfx Hfy). lia.
  - apply IH. intros i j x' y b' Hx Hy Hfx Hfy. specialize (Hu (S i) (S j) x' y b' Hx Hy Hfx Hfy). lia.
Qed.

Lemma length_omap_le {A B} (f : A → option B) (l : list A) : (length (omap f l) ≤ length l)%nat.
Proof. induction l as [|x l IH]; cbn; [lia|]. destruct (f x); cbn; lia. Qed.

Lemma length_omap_lt {A B} (f : A → option B) (l : list A) i x :
  l !! i = Some x → f x = None → (length (omap f l) < length l)%nat.
Proof.
  revert i. induction l as [|y l IH]; intros [|i]; cbn; try done.
  - intros [= ->] ->. pose proof (length_omap_le f l). lia.
  - intros Hi Hx. specialize (IH _ Hi Hx). destruct (f y); cbn; lia.
Qed.

Lemma length_omap_all {A B} (f : A → option B) (l : list A) :
  (∀ i x, l !! i = Some x → is_Some (f x)) → length (omap f l) = length l.
Proof.
  induction l as [|y l IH]; cbn; [done|]. intros Hall. destruct (Hall 0%nat y eq_refl) as [b ->]. cbn. f_equal.
  apply IH. intros i x Hi. by apply (Hall (S i)).
Qed.

Lemma cfs_inv_size s m : cfs_inv s m → size m = length (omap valid_key (entries s)).
Proof.
  intros Hinv. rewrite <-size_dom.
  replace (dom m) with (list_to_set (omap valid_key (entries s)) : gset string).
  - rewrite size_list_to_set; [done|]. apply NoDup_omap_unique. unfold valid_key.
    intros i j x y b Hx Hy. destruct (c_valid x) eqn:Hvx, (c_valid y) eqn:Hvy; try done.
    intros [= <-] [= Hk]. by eapply (ci_unique _ _ Hinv).
  - apply set_eq. intros k. rewrite elem_of_list_to_set, elem_of_dom, list_elem_of_omap. unfold valid_key. split.
    + intros (e & He & Hk). destruct (c_valid e) eqn:Hv; [|done]. injection Hk as <-.
      apply list_elem_of_lookup_1 in He as [i He]. destruct (ci_entry _ _ Hinv _ _ He Hv) as (-> & _). eauto.
    + intros [v Hm]. destruct (ci_key _ _ Hinv _ _ Hm) as (i & e & He & Hv & Hk & _).
      exists e. split; [by eapply list_elem_of_lookup_2|]. by rewrite Hv, Hk.
Qed.

Definition short (k : string) : Prop := (String.length k < CONFIGFS_KEY_MAX)%nat.

Lemma configfs_get_spec k n s m :
  cfs_inv s m →
  configfs_get (Some k) true n s =
  if n =? 0 then (-1, None)
  else match m !! k with Some v => (0, Some (str_take (Z.to_nat (n - 1)) v)) | None => (-1, None) end.
Proof.
  intros Hinv. unfold configfs_get. rewrite (ci_mounted _ _ Hinv). cbn [negb orb].
  destruct (n =? 0); [done|]. pose proof (probe_spec k _ _ Hinv) as Hp.
  destruct (probe k s) as [idx|]; [|by destruct Hp as [-> _]].
  destruct Hp as (e & He & Hp). rewrite (entry_at_lookup _ _ _ He).
  destruct (c_valid e); [by destruct Hp as [_ ->]|by destruct Hp as [-> _]].
Qed.

(** Updating the value of the entry of a key. *)
Lemma cfs_inv_update s m b idx e v :
  cfs_inv s m → entries s !! idx = Some e → c_valid e = true →
  cfs_inv (mk_configfs (alter (λ e, e <| c_value := v |>) idx (entries s)) b true) (<[c_key e := v]> m).
Proof.
  intros Hinv He Hve. set (l := alter _ idx (entries s)).
  assert (∀ i e', l !! i = Some e' → ∃ e0, entries s !! i = Some e0 ∧ c_key e' = c_key e0 ∧
            c_valid e' = c_valid e0 ∧ c_hash e' = c_hash e0 ∧ c_value e' = if decide (i = idx) then v else c_value e0) as Hl.
  { intros i e'. unfold l. destruct (decide (i = idx)) as [->|].
    - rewrite list_lookup_alter_eq, He. intros [= <-]. by exists e.
    - rewrite list_lookup_alter_ne by done. intros Hi. by exists e'. }
  assert (∀ i, c_valid (entry_at i (mk_configfs l b true)) = c_valid (entry_at i s)) as Hat.
  { intros i. unfold entry_at, l. cbn [entries]. destruct (decide (i = idx)) as [->|].
    - by rewrite list_lookup_alter_eq, He.
    - by rewrite list_lookup_alter_ne. }
  split; cbn [entries configfs_mounted].
  - done.
  - unfold l. rewrite length_alter. apply Hinv.
  - intros i e' (e0 & He0 & Hk & Hv & Hh & Hval)%Hl Hv'. rewrite Hk, Hh, Hval. rewrite Hv in Hv'.
    destruct (ci_entry _ _ Hinv _ _ He0 Hv') as (Hm & Hh0 & p & Hp & Hi & Hc). split_and!; [|done|].
    + case_decide as Ei; [subst; assert (e0 = e) as -> by congruence; by rewrite lookup_insert_eq|].
      rewrite lookup_insert_ne; [done|]. intros E. apply Ei. by eapply (ci_unique _ _ Hinv).
    + exists p. split_and!; [lia..|done|]. intros j Hj. rewrite Hat. by apply Hc.
  - intros k v' Hm. destruct (decide (k = c_key e)) as [->|Hne].
    + rewrite lookup_insert_eq in Hm. injection Hm as <-. exists idx, (e <| c_value := v |>).
      unfold l. rewrite list_lookup_alter_eq, He. done.
    + rewrite lookup_insert_ne in Hm by done. destruct (ci_key _ _ Hinv _ _ Hm) as (i & e' & He' & ? & ? & ?).
      exists i, e'. unfold l. rewrite list_lookup_alter_ne; [done|]. intros ->. congruence.
  - intros i j e1 e2 (e1' & H1 & Hk1 & Hv1 & _)%Hl (e2' & H2 & Hk2 & Hv2 & _)%Hl ? ? ?.
    eapply (ci_unique _ _ Hinv); [exact H1|exact H2|congruence..].
Qed.

(** A new entry at the end of the chain of its key. *)
Lemma cfs_inv_insert s m b idx e k v p :
  cfs_inv s m → m !! k = None → entries s !! idx = Some e → c_valid e = false →
  0 ≤ p < 512 → idx = probe_idx (hash_key k) p →
  (∀ j, 0 ≤ j < p → c_valid (entry_at (probe_idx (hash_key k) j) s) = true) →
  cfs_inv (mk_configfs (<[idx := mk_centry k v true (hash_key k)]> (entries s)) b true) (<[k := v]> m).
Proof.
  intros Hinv Hk He Hve Hp Hidx Hchain. set (ne := mk_centry k v true (hash_key k)).
  pose proof (lookup_lt_Some _ _ _ He) as Hlt. set (l := <[idx := ne]> (entries s)).
  assert (l !! idx = Some ne) as Hnew by (by apply list_lookup_insert_eq).
  assert (∀ i, i ≠ idx → l !! i = entries s !! i) as Hold by (intros; by apply list_lookup_insert_ne).
  assert (∀ i, c_valid (entry_at i s) = true → c_valid (entry_at i (mk_configfs l b true)) = true) as Hat.
  { intros i Hi. unfold entry_at. cbn [entries]. destruct (decide (i = idx)) as [->|]; [by rewrite Hnew|].
    by rewrite Hold. }
  assert (∀ i e', entries s !! i = Some e' → c_valid e' = true → c_key e' ≠ k) as Hfresh.
  { intros i e' Hi Hv <-. destruct (ci_entry _ _ Hinv _ _ Hi Hv) as (? & _). congruence. }
  split; cbn [entries configfs_mounted].
  - done.
  - unfold l. rewrite length_insert. apply Hinv.
  - intros i e'. destruct (decide (i = idx)) as [->|Hi].
    + rewrite Hnew. intros [= <-] _. cbn. rewrite lookup_insert_eq. split_and!; [done..|].
      exists p. split_and!; [lia..|done|]. intros j Hj. by apply Hat, Hchain.
    + rewrite Hold by done. intros He' Hv. pose proof (Hfresh _ _ He' Hv).
      destruct (ci_entry _ _ Hinv _ _ He' Hv) as (? & ? & q & ? & ? & Hc).
      rewrite lookup_insert_ne by done. split_and!; [done..|]. exists q. split_and!; [lia..|done|].
      intros j Hj. by apply Hat, Hc.
  - intros k' v'. destruct (decide (k' = k)) as [->|Hne].
    + rewrite lookup_insert_eq. intros [= <-]. by exists idx, ne.
    + rewrite lookup_insert_ne by done. intros Hm. destruct (ci_key _ _ Hinv _ _ Hm) as (i & e' & He' & Hv & ? & ?).
      exists i, e'. rewrite Hold; [done|]. intros ->. congruence.
  - intros i j e1 e2. destruct (decide (i = idx)) as [->|Hi], (decide (j = idx)) as [->|Hj]; [done|..].
    + rewrite Hnew, (Hold j) by done. intros [= <-] H2 _ Hv2 Hkk. by destruct (Hfresh _ _ H2 Hv2).
    + rewrite Hnew, (Hold i) by done. intros H1 [= <-] Hv1 _ Hkk. by destruct (Hfresh _ _ H1 Hv1).
    + rewrite !Hold by done. apply (ci_unique _ _ Hinv).
Qed.

Lemma configfs_set_spec k v s m :
  cfs_inv s m → short k →
  let (rc, s') := configfs_set (Some k) (Some v) s in
  if decide (k ∈ dom m ∨ (size m < CONFIGFS_MAX_ENTRIES)%nat)
  then rc = 0 ∧ cfs_inv s' (<[k := str_take (CONFIGFS_VAL_MAX - 1) v]> m)
  else rc = -1 ∧ s' = s.
Proof.
  intros Hinv Hshort. unfold configfs_set. rewrite (ci_mounted _ _ Hinv). cbn [negb].
  pose proof (cfs_inv_size _ _ Hinv) as Hsz. pose proof (ci_length _ _ Hinv) as Hlen.
  pose proof (probe_spec k _ _ Hinv) as Hp. destruct (probe k s) as [idx|].
  - destruct Hp as (e & He & Hp). rewrite (entry_at_lookup _ _ _ He). destruct (c_valid e) eqn:Hv.
    + destruct Hp as [<- Hm]. rewrite decide_True by (left; by apply elem_of_dom_2 in Hm).
      split; [done|]. destruct s as [l b mt]. pose proof (ci_mounted _ _ Hinv) as Hmt. cbn in Hmt. subst mt.
      by apply (cfs_inv_update (mk_configfs l b true)).
    + destruct Hp as (Hm & p & Hpr & Hi & Hc). rewrite decide_True.
      * split; [done|]. rewrite str_take_id by (unfold short, CONFIGFS_KEY_MAX in *; lia).
        destruct s as [l b mt]. pose proof (ci_mounted _ _ Hinv) as Hmt. cbn in Hmt. subst mt.
        by apply (cfs_inv_insert (mk_configfs l b true) m _ idx e k _ p).
      * right. rewrite Hsz, <-Hlen. eapply length_omap_lt; [exact He|]. unfold valid_key. by rewrite Hv.
  - destruct Hp as [Hm Hall]. rewrite decide_False; [done|]. intros [Hd|Hlt].
    + apply elem_of_dom in Hd as [? ?]. congruence.
    + rewrite Hsz, length_omap_all in Hlt; [lia|]. intros i x Hx. unfold valid_key. by rewrite (Hall _ _ Hx).
Qed.

(** ** Refinement *)

Inductive config_op :=
| CSet (key value : string)
| CGet (key : string) (max_len : Z).

Definition op_key (o : config_op) : string := match o with CSet k _ | CGet k _ => k end.

Definition code_step (o : config_op) (s : configfs) : (Z * option string) * configfs :=
  match o with
  | CSet k v => let (rc, s') := configfs_set (Some k) (Some v) s in ((rc, None), s')
  | CGet k n => (configfs_get (Some k) true n s, s)
  end.

(** The specification: a map of at most 512 keys. *)
Definition map_step (o : config_op) (m : gmap string string) : (Z * option string) * gmap string string :=
  match o with
  | CSet k v =>
      if decide (k ∈ dom m ∨ (size m < CONFIGFS_MAX_ENTRIES)%nat)
      then ((0, None), <[k := str_take (CONFIGFS_VAL_MAX - 1) v]> m) else ((-1, None), m)
  | CGet k n =>
      (if n =? 0 then (-1, None)
       else match m !! k with Some v => (0, Some (str_take (Z.to_nat (n - 1)) v)) | None => (-1, None) end, m)
  end.

Fixpoint run_config {S} (step : config_op → S → (Z * option string) * S) (ops : list config_op) (s : S) : list (Z * option string) :=
  match ops with
  | [] => []
  | o :: ops => let (out, s') := step o s in out :: run_config step ops s'
  end.

Lemma code_step_refines o s m :
  cfs_inv s m → short (op_key o) →
  (code_step o s).1 = (map_step o m).1 ∧ cfs_inv (code_step o s).2 (map_step o m).2.
Proof.
  intros Hinv Hs. destruct o as [k v|k n]; cbn [code_step map_step op_key] in *.
  - pose proof (configfs_set_spec k v s m Hinv Hs) as Hset. destruct (configfs_set _ _ s) as [rc s'].
    case_decide; destruct Hset as [-> ?]; [done|by subst].
  - cbn [fst snd]. by rewrite (configfs_get_spec k n s m Hinv).
Qed.

Lemma run_config_refines ops s m :
  cfs_inv s m → Forall (λ o, short (op_key o)) ops → run_config code_step ops s = run_config map_step ops m.
Proof.
  revert s m. induction ops as [|o ops IH]; intros s m Hinv; [done|]. intros [Ho Hops]%Forall_cons. cbn.
  destruct (code_step_refines o s m Hinv Ho) as [Hout Hinv'].
  destruct (code_step o s) as [out s'], (map_step o m) as [out' m']. cbn in *. subst. f_equal. by apply IH.
Qed.

Definition default_map : gmap string string :=
  foldl (λ m kv, <[kv.1 := kv.2]> m) ∅ default_settings.

Lemma set_settings_inv l s m :
  cfs_inv s m → (size m + length l ≤ 512)%nat →
  Forall (λ kv, short kv.1 ∧ (String.length kv.2 < CONFIGFS_VAL_MAX)%nat) l →
  cfs_inv (set_settings l s) (foldl (λ m kv, <[kv.1 := kv.2]> m) m l).
Proof.
  revert s m. induction l as [|[k v] l IH]; intros s m Hinv Hsz; [done|].
  intros [[Hk Hv] Hl]%Forall_cons. cbn [fst snd] in *. cbn [length] in Hsz.
  unfold set_settings. cbn [foldl]. apply IH; [| |done].
  - pose proof (configfs_set_spec k v s m Hinv Hk) as Hset. cbn [fst snd].
    destruct (configfs_set _ _ s) as [rc s']. rewrite decide_True in Hset by (right; unfold CONFIGFS_MAX_ENTRIES; lia).
    rewrite str_take_id in Hset by (unfold CONFIGFS_VAL_MAX in *; lia). apply Hset.
  - cbn [fst snd]. rewrite map_size_insert. destruct (m !! k); cbn; lia.
Qed.

Lemma configfs_mount_inv {W} `{Storage W} path s w :
  configfs_mounted s = false → length (entries s) = CONFIGFS_MAX_ENTRIES →
  let '(rc, s', _) := configfs_mount (Some path) s w in rc = 0 ∧ cfs_inv s' default_map.
Proof.
  intros Hm Hl. unfold configfs_mount. rewrite Hm. destruct (storage_read 2048 w) as [[rc block] w'].
  split; [done|]. apply set_settings_inv.
  - assert (∀ i e, ((λ e, e <| c_valid := false |>) <$> entries s) !! i = Some e → c_valid e = false) as Hno.
    { intros i e. rewrite list_lookup_fmap. by intros (? & _ & ->)%fmap_Some. }
    split; cbn [entries configfs_mounted].
    + done.
    + destruct (_ && _); cbn; by rewrite length_fmap.
    + intros i e He Hv. destruct (_ && _); cbn in He; by rewrite (Hno _ _ He) in Hv.
    + done.
    + intros i j e e' He _ Hv. destruct (_ && _); cbn in He; by rewrite (Hno _ _ He) in Hv.
  - rewrite map_size_empty. cbn. lia.
  - unfold short, CONFIGFS_KEY_MAX, CONFIGFS_VAL_MAX. repeat constructor; cbn; lia.
Qed.

(** C32: after mounting, every sequence of [configfs_set] and [configfs_get] calls
    with keys of less than 64 characters returns what a finite map of at most 512
    keys, filled with the default settings, returns: a get returns the value set
    last (truncated to the arrays), a set fails exactly when the key is new and the
    table is full. Whatever the storage answers, and whatever the table held
    before. *)
Theorem configfs_refines_map {W} `{Storage W} path s w rc s' w' ops :
  configfs_mounted s = false → length (entries s) = CONFIGFS_MAX_ENTRIES →
  configfs_mount (Some path) s w = (rc, s', w') →
  Forall (λ o, short (op_key o)) ops →
  rc = 0 ∧ run_config code_step ops s' = run_config map_step ops default_map.
Proof.
  intros Hm Hl Hmount Hops. pose proof (configfs_mount_inv path s w Hm Hl) as Hinv. rewrite Hmount in Hinv.
  destruct Hinv as [-> Hinv]. split; [done|]. by apply run_config_refines.
Qed.

Definition mounted_configfs : configfs := (configfs_mount (Some "/config"%string) boot_configfs (mk_card true ∅)).1.2.

Lemma configfs_refines_map_witness :
  let ops := [CSet "hostname" "box"; CGet "hostname" 3; CGet "ssh.port" 16; CGet "missing" 16]%string in
  run_config code_step ops mounted_configfs = run_config map_step ops default_map ∧
  run_config map_step ops default_map = [(0, None); (0, Some "bo"%string); (0, Some "22"%string); (-1, None)].
Proof.
  split; [|vm_compute; reflexivity].
  apply (configfs_refines_map "/config" boot_configfs (mk_card true ∅) 0 mounted_configfs (mk_card true ∅)).
  - reflexivity.
  - reflexivity.
  - vm_compute. reflexivity.
  - unfold short, CONFIGFS_KEY_MAX. repeat constructor; cbn; lia.
Defined.

(** ** What the code does not handle *)

(** Deleting a key makes the keys behind it in the probe chain unreachable. *)
Lemma configfs_delete_breaks_chain :
  let s := (configfs_set (Some "net.ao") (Some "on") mounted_configfs).2%string in
  let s' := (configfs_delete (Some "ssh.port") s).2%string in
  configfs_get (Some "net.ao"%string) true 16 s = (0, Some "on"%string) ∧
  configfs_get (Some "net.ao"%string) true 16 s' = (-1, None).
Proof. vm_compute. done. Qed.

(** A key of 64 characters or more is stored truncated and compared in full: it is
    never found again, and every set takes another slot. *)
Lemma configfs_long_key_lost :
  let k := String.concat "" (replicate 16 "abcd"%string) in
  let s := (configfs_set (Some k) (Some "v"%string) mounted_configfs).2 in
  (configfs_set (Some k) (Some "v"%string) mounted_configfs).1 = 0 ∧
  configfs_get (Some k) true 16 s = (-1, None) ∧
  csb_entry_count (csb (configfs_set (Some k) (Some "v"%string) s).2) = csb_entry_count (csb s) + 1.
Proof. vm_compute. done. Qed.

(** [configfs_sync] writes the superblock only: a setting that was synchronised is
    gone after the next mount, and the entry count is too large by the number of
    defaults. *)
Lemma configfs_sync_loses_settings :
  let s := (configfs_set (Some "net.ao") (Some "on") mounted_configfs).2%string in
  let (rc, w) := configfs_sync s (mk_card true ∅) in
  let '(_, s', _) := configfs_mount (Some "/config"%string) boot_configfs w in
  rc = 0 ∧ csb_entry_count (csb s) = 11 ∧
  configfs_get (Some "net.ao"%string) true 16 s' = (-1, None) ∧ csb_entry_count (csb s') = 21.
Proof. vm_compute. done. Qed.
