(* ===== verification/LogFs.v ===== *)
(** The system log: fs/logfs.c, a ring of records in memory that are also written
    to storage one block each.

    The records are the byte arrays of the code, stale bytes behind the
    terminators included, because the checksum and the block written cover them.
    The abstraction is the history of messages: [logfs_read_last] prints its last
    ones. *)

From S2P Require Import Prelude Vfs Block AegisFs Integrity Storage.

Definition LOGFS_MAGIC : Z := 0x4C4F4746.
Definition LOGFS_MAX_TAG : nat := 32.
Definition LOGFS_MAX_MSG : nat := 448.
Definition LOGFS_MAX_ENTRIES : Z := 65536.
Definition LOGFS_RING_SIZE : Z := 8192.

Record logfs_entry := mk_lentry {
  l_magic : Z; l_seq : Z; l_timestamp : Z; l_tag : list Z; l_msg : list Z; l_crc32 : Z; l_reserved : Z;
}.
#[export] Instance logfs_entry_eta : Eta logfs_entry := λ e,
  mk_lentry (l_magic e) (l_seq e) (l_timestamp e) (l_tag e) (l_msg e) (l_crc32 e) (l_reserved e).
Definition zero_lentry : logfs_entry :=
  mk_lentry 0 0 0 (replicate LOGFS_MAX_TAG 0) (replicate LOGFS_MAX_MSG 0) 0 0.

Record logfs_superblock := mk_lsb {
  lsb_magic : Z; lsb_version : Z; lsb_total_entries : Z; lsb_write_head : Z; lsb_base_lba : Z;
  lsb_max_entries : Z; lsb_create_time : Z;
}.
#[export] Instance logfs_superblock_eta : Eta logfs_superblock := λ b,
  mk_lsb (lsb_magic b) (lsb_version b) (lsb_total_entries b) (lsb_write_head b) (lsb_base_lba b)
    (lsb_max_entries b) (lsb_create_time b).

Record logfs := mk_logfs {
  ring_buffer : list logfs_entry; ring_head : Z; ring_count : Z; sequence : Z;
  logfs_mounted : bool; lsb : logfs_superblock;
}.
#[export] Instance logfs_eta : Eta logfs := λ s,
  mk_logfs (ring_buffer s) (ring_head s) (ring_count s) (sequence s) (logfs_mounted s) (lsb s).

(** The bytes of a record before its checksum, and the whole block. *)
Definition entry_prefix (e : logfs_entry) : list Z :=
  le 4 (l_magic e) ++ le 4 (l_seq e) ++ le 8 (l_timestamp e) ++ l_tag e ++ l_msg e.
Definition lentry_image (e : logfs_entry) : list Z := entry_prefix e ++ le 4 (l_crc32 e) ++ le 4 (l_reserved e).

Definition crc_step (crc : Z) : Z :=
  if negb (Z.land crc 1 =? 0) then Z.lxor (Z.shiftr crc 1) 0xEDB88320 else Z.shiftr crc 1.
Definition crc32_simple (data : list Z) : Z :=
  u32 (Z.lnot (foldl (λ crc b, Nat.iter 8 crc_step (Z.lxor crc b)) 0xFFFFFFFF data)).

(** [while (s[i] && i < n - 1) dst[i] = s[i]; dst[i] = 0]: the bytes behind the
    terminator stay. *)
Definition copy_log_text (s : string) (dst : list Z) : list Z :=
  let src := take (length dst - 1) (bytes_of s) ++ [0] in src ++ drop (length src) dst.

Definition logfs_mount (path : option string) (s : logfs) : Z * logfs :=
  if bool_decide (path = None) then (-1, s)
  else if logfs_mounted s then (0, s)
  else (0, mk_logfs ((λ e, e <| l_magic := 0 |>) <$> ring_buffer s) 0 0 0 true
             (mk_lsb LOGFS_MAGIC 1 0 0 1024 LOGFS_MAX_ENTRIES 0)).

Definition log_entry (tag msg : string) (seq : Z) (e : logfs_entry) : logfs_entry :=
  let e := e <| l_magic := LOGFS_MAGIC |> <| l_seq := seq |> <| l_timestamp := 0 |>
             <| l_tag ::= copy_log_text tag |> <| l_msg ::= copy_log_text msg |> in
  e <| l_crc32 := crc32_simple (entry_prefix e) |> <| l_reserved := 0 |>.

(** The record is 504 bytes long, the block that is written from its address is 512:
    the block ends with the first bytes of the next record of the ring, or, for the
    last one, with those the linker puts behind the ring ([after_ring]). *)
Definition block_at (after_ring : list Z) (i : nat) (ring : list logfs_entry) : list Z :=
  let image j := lentry_image <$> ring !! j in
  take BLOCK_SIZE (default [] (image i) ++ default after_ring (image (S i))).

Section append.
Context {W : Type} `{Storage W} (after_ring : list Z).

Definition logfs_append (tag msg : option string) (s : logfs) (w : W) : Z * logfs * W :=
  match tag, msg with
  | Some tag, Some msg =>
      if negb (logfs_mounted s) then (-1, s, w)
      else
        let i := Z.to_nat (ring_head s) in
        let entry := log_entry tag msg (sequence s) (default zero_lentry (ring_buffer s !! i)) in
        let s := s <| ring_buffer ::= <[i := entry]> |> <| sequence ::= λ q, u32 (q + 1) |>
                   <| ring_head ::= λ h, u32 (h + 1) mod LOGFS_RING_SIZE |>
                   <| ring_count ::= λ n, if n <? LOGFS_RING_SIZE then n + 1 else n |>
                   <| lsb ::= λ b, b <| lsb_total_entries := u32 (lsb_total_entries b + 1) |>
                                     <| lsb_write_head := u32 (lsb_write_head b + 1) mod lsb_max_entries b |> |> in
        let lba := u32 (lsb_base_lba (lsb s) + u32 (lsb_write_head (lsb s) - 1) mod lsb_max_entries (lsb s)) in
        (0, s, (storage_write lba (block_at after_ring i (ring_buffer s)) w).2)
  | _, _ => (-1, s, w)
  end.

End append.

(** ** Reading the log *)

(** [buf[pos++] = c] on a buffer; [None] is a write behind its end. *)
Definition put_byte (c : Z) (p : Z * list Z) : option (Z * list Z) :=
  let (pos, buf) := p in
  if pos <? Z.of_nat (length buf) then Some (u32 (pos + 1), <[Z.to_nat pos := c]> buf) else None.

(** [for (j = 0; text[j] && pos < limit; j++) buf[pos++] = text[j]]; a text without
    terminator is read behind its array. *)
Fixpoint put_text (limit : Z) (text : list Z) (p : Z * list Z) : option (Z * list Z) :=
  match text with
  | [] => None
  | c :: text =>
      if (c =? 0) || (limit <=? p.1) then Some p
      else p ← put_byte c p; put_text limit text p
  end.

(** One pass of the loop: "[tag] msg\n". *)
Definition put_entry (buf_len : Z) (e : logfs_entry) (p : Z * list Z) : option (Z * list Z) :=
  p ← put_byte 91 p;
  p ← put_text (u32 (buf_len - 3)) (l_tag e) p;
  p ← put_byte 93 p;
  p ← put_byte 32 p;
  p ← put_text (u32 (buf_len - 2)) (l_msg e) p;
  put_byte 10 p.

Fixpoint read_loop (buf_len start i : Z) (n : nat) (ring : list logfs_entry) (p : Z * list Z) : option (Z * list Z) :=
  match n with
  | O => Some p
  | S n =>
      if u32 (buf_len - 1) <=? p.1 then Some p
      else
        e ← ring !! Z.to_nat (u32 (start + i) mod LOGFS_RING_SIZE);
        p ← (if l_magic e =? LOGFS_MAGIC then put_entry buf_len e p else Some p);
        read_loop buf_len start (i + 1) n ring p
  end.

(** The result and the buffer, [None] for a write outside it. [buf_len] is what the
    caller says, the list what it passes. *)
Definition logfs_read_last (n : Z) (buf : option (list Z)) (buf_len : Z) (s : logfs) : option (Z * option (list Z)) :=
  match buf with
  | None => Some (-1, None)
  | Some b =>
      if negb (logfs_mounted s) || (buf_len =? 0) then Some (-1, Some b)
      else
        let n := if ring_count s <? n then ring_count s else n in
        if n =? 0 then Some (0, Some b)
        else
          let start :=
            if ring_count s <? LOGFS_RING_SIZE then (if n <=? ring_count s then ring_count s - n else 0)
            else u32 (ring_head s + LOGFS_RING_SIZE - n) mod LOGFS_RING_SIZE in
          '(pos, b) ← read_loop buf_len start 0 (Z.to_nat n) (ring_buffer s) (0, b);
          '(_, b) ← put_byte 0 (pos, b);
          Some (s32 pos, Some b)
  end.

Definition logfs_flush (s : logfs) : Z := if logfs_mounted s then 0 else -1.
Definition logfs_entry_count (s : logfs) : Z := lsb_total_entries (lsb s).

(** ** The checksum *)

Lemma crc_step_crc_bit c : crc_step c = crc_bit c.
Proof. unfold crc_step. rewrite crc_bit_cases, land_1_mod. by destruct (_ =? 0). Qed.

Lemma iter_crc_step n x : Nat.iter n crc_step x = Nat.iter n crc_bit x.
Proof. induction n as [|n IH]; [done|]. by rewrite !Nat.iter_succ, crc_step_crc_bit, IH. Qed.

(** C39: the branching checksum loop of the log and the branch-free one of the file
    system compute the same function on every input. *)
Theorem crc32_simple_crc32 (data : list Z) : crc32_simple data = crc32 data.
Proof.
  unfold crc32_simple, crc32. do 2 f_equal. generalize 0xFFFFFFFF as c.
  induction data as [|b data IH]; intros c; [done|]. cbn [foldl]. rewrite IH. f_equal.
  apply iter_crc_step.
Qed.

(** ** Text in arrays *)

(** The bytes of an array before its terminator. *)
Fixpoint cbytes (l : list Z) : list Z :=
  match l with [] => [] | x :: l => if x =? 0 then [] else x :: cbytes l end.

Lemma cbytes_app s l : Forall (λ b, b ≠ 0) s → cbytes (s ++ 0 :: l) = s.
Proof. induction 1 as [|b s Hb _ IH]; [done|]. cbn. by rewrite (proj2 (Z.eqb_neq _ _)), IH. Qed.

Lemma copy_log_text_spec s dst :
  c_str s → (0 < length dst)%nat →
  length (copy_log_text s dst) = length dst ∧ cbytes (copy_log_text s dst) = take (length dst - 1) (bytes_of s) ∧
  In 0 (copy_log_text s dst).
Proof.
  intros Hs Hd. unfold copy_log_text. cbv zeta. set (src := take (length dst - 1) (bytes_of s)).
  assert (length src ≤ length dst - 1)%nat as Hl by (unfold src; rewrite length_take; lia). split_and!.
  - rewrite !length_app, length_drop. cbn. lia.
  - rewrite <-app_assoc. apply cbytes_app. by apply Forall_take.
  - apply in_or_app. left. apply in_or_app. right. by left.
Qed.

(** Printing into a buffer [out ++ rest] whose position is the length of [out]. *)
Definition at_end (out rest : list Z) : Z * list Z := (Z.of_nat (length out), out ++ rest).

Lemma put_byte_at c out x rest :
  Z.of_nat (length out) + 1 < 2 ^ 32 → put_byte c (at_end out (x :: rest)) = Some (at_end (out ++ [c]) rest).
Proof.
  intros Hl. unfold put_byte, at_end. rewrite length_app. cbn [length].
  rewrite (proj2 (Z.ltb_lt _ _)) by lia. rewrite u32_small by lia. rewrite Nat2Z.id, insert_app_r_alt by lia.
  rewrite Nat.sub_diag, length_app, <-app_assoc. cbn. do 2 f_equal. lia.
Qed.

Lemma put_text_at limit text out mid rest :
  In 0 text → length mid = length (cbytes text) → Z.of_nat (length out + length mid) ≤ limit < 2 ^ 32 →
  put_text limit text (at_end out (mid ++ rest)) = Some (at_end (out ++ cbytes text) rest).
Proof.
  revert out mid. induction text as [|c text IH]; intros out mid Hin Hmid Hlim; [done|].
  cbn [put_text cbytes] in *. destruct (Z.eqb_spec c 0) as [->|Hc].
  { cbn in Hmid. apply nil_length_inv in Hmid as ->. by rewrite app_nil_r. }
  destruct mid as [|x mid]; [done|]. cbn [length] in *. cbn [orb app].
  assert ((at_end out (x :: mid ++ rest)).1 = Z.of_nat (length out)) as -> by done.
  rewrite (proj2 (Z.leb_gt _ _)) by lia.
  rewrite put_byte_at by lia. cbn [mbind option_bind].
  rewrite IH; [by rewrite <-app_assoc|by destruct Hin|lia|rewrite length_app; cbn; lia].
Qed.

(** A record as it is printed. *)
Definition line (e : logfs_entry) : list Z := [91] ++ cbytes (l_tag e) ++ [93; 32] ++ cbytes (l_msg e) ++ [10].
Definition terminated (e : logfs_entry) : Prop := In 0 (l_tag e) ∧ In 0 (l_msg e).

Lemma line_length e : length (line e) = (4 + length (cbytes (l_tag e)) + length (cbytes (l_msg e)))%nat.
Proof. unfold line. rewrite !length_app. cbn. lia. Qed.

Lemma put_entry_at buf_len e out mid rest :
  terminated e → length mid = length (line e) →
  Z.of_nat (length out + length mid) < buf_len < 2 ^ 32 →
  put_entry buf_len e (at_end out (mid ++ rest)) = Some (at_end (out ++ line e) rest).
Proof.
  intros [Ht Hm] Hmid Hb. rewrite line_length in Hmid.
  set (t := cbytes (l_tag e)) in *. set (m := cbytes (l_msg e)) in *.
  destruct mid as [|x0 mid]; [done|]. cbn [length] in Hmid.
  assert (∃ m1 x1 x2 m2 x3, mid = m1 ++ x1 :: x2 :: m2 ++ [x3] ∧ length m1 = length t ∧ length m2 = length m)
    as (m1 & x1 & x2 & m2 & x3 & -> & H1 & H2).
  { exists (take (length t) mid). rewrite <-(take_drop (length t) mid) in Hmid.
    rewrite length_app, length_take in Hmid.
    assert (length (drop (length t) mid) = 3 + length m)%nat as Hd by (rewrite length_drop in *; lia).
    rewrite length_drop in Hd.
    destruct (drop (length t) mid) as [|x1 [|x2 l]] eqn:E; apply (f_equal length) in E as El; rewrite length_drop in El;
      cbn in El; [lia..|].
    destruct l as [|x3 m2 _] using rev_ind; [cbn in El; lia|]. rewrite length_app in El. cbn in El.
    exists x1, x2, m2, x3. split_and!; [|rewrite length_take; lia|lia]. rewrite <-E. by rewrite take_drop. }
  cbn [length] in Hb. rewrite !length_app in Hb. cbn [length] in Hb. rewrite length_app in Hb. cbn [length] in Hb.
  unfold put_entry. cbn [app]. rewrite put_byte_at by lia. cbn [mbind option_bind].
  rewrite <-app_assoc. rewrite put_text_at; [|done|done|rewrite u32_small, length_app by lia; cbn; lia].
  cbn [mbind option_bind app]. rewrite put_byte_at by (rewrite !length_app; cbn [length]; fold t; lia). cbn [mbind option_bind].
  rewrite put_byte_at by (rewrite !length_app; cbn [length]; fold t; lia). cbn [mbind option_bind].
  rewrite <-(app_assoc m2). rewrite put_text_at; [|done|done|rewrite u32_small, !length_app by lia; cbn [length]; fold t; lia].
  cbn [mbind option_bind app]. rewrite put_byte_at by (rewrite !length_app; cbn [length]; fold t m; lia).
  unfold line. by rewrite <-!app_assoc.
Qed.

(** ** The log as the history of its messages *)

Definition arrays_ok (e : logfs_entry) : Prop :=
  length (l_tag e) = LOGFS_MAX_TAG ∧ length (l_msg e) = LOGFS_MAX_MSG.
Definition ring_wf (s : logfs) : Prop :=
  Z.of_nat (length (ring_buffer s)) = LOGFS_RING_SIZE ∧ Forall arrays_ok (ring_buffer s).

(** [e] is the record of message number [k]. *)
Definition recorded (k : nat) (tm : string * string) (e : logfs_entry) : Prop :=
  l_magic e = LOGFS_MAGIC ∧ l_seq e = u32 (Z.of_nat k) ∧ terminated e ∧ arrays_ok e ∧
  cbytes (l_tag e) = take (LOGFS_MAX_TAG - 1) (bytes_of tm.1) ∧
  cbytes (l_msg e) = take (LOGFS_MAX_MSG - 1) (bytes_of tm.2) ∧
  l_crc32 e = crc32_simple (entry_prefix e).

Definition slot_of (k : nat) : nat := Z.to_nat (Z.of_nat k mod LOGFS_RING_SIZE).

Record log_inv (s : logfs) (hist : list (string * string)) : Prop := {
  li_mounted : logfs_mounted s = true;
  li_ring : ring_wf s;
  li_head : ring_head s = Z.of_nat (length hist) mod LOGFS_RING_SIZE;
  li_count : ring_count s = Z.min (Z.of_nat (length hist)) LOGFS_RING_SIZE;
  li_seq : sequence s = u32 (Z.of_nat (length hist));
  li_sb : lsb s = mk_lsb LOGFS_MAGIC 1 (u32 (Z.of_nat (length hist)))
                    (Z.of_nat (length hist) mod LOGFS_MAX_ENTRIES) 1024 LOGFS_MAX_ENTRIES 0;
  li_term : Forall (λ e, l_magic e = LOGFS_MAGIC → terminated e) (ring_buffer s);
  li_entry k tm : hist !! k = Some tm → Z.of_nat (length hist) - LOGFS_RING_SIZE ≤ Z.of_nat k →
    ∃ e, ring_buffer s !! slot_of k = Some e ∧ recorded k tm e;
}.

Lemma logfs_mount_inv path s :
  logfs_mounted s = false → ring_wf s → log_inv (logfs_mount (Some path) s).2 [].
Proof.
  intros Hm [Hl Ha]. unfold logfs_mount. rewrite bool_decide_eq_false_2, Hm by done. split; try done.
  2:{ apply Forall_fmap, Forall_true. done. }
  split; cbn [snd ring_buffer]; [by rewrite length_fmap|]. apply Forall_fmap. eapply Forall_impl; [exact Ha|]. done.
Qed.

Lemma log_entry_recorded k tm e :
  arrays_ok e → c_str tm.1 → c_str tm.2 → recorded k tm (log_entry tm.1 tm.2 (u32 (Z.of_nat k)) e).
Proof.
  intros [Ht Hm] Hst Hsm. destruct (copy_log_text_spec tm.1 (l_tag e) Hst) as (Ht1 & Ht2 & Ht3); [rewrite Ht; unfold LOGFS_MAX_TAG; lia|].
  destruct (copy_log_text_spec tm.2 (l_msg e) Hsm) as (Hm1 & Hm2 & Hm3); [rewrite Hm; unfold LOGFS_MAX_MSG; lia|].
  rewrite Ht in *. rewrite Hm in *. unfold recorded, terminated, arrays_ok, log_entry.
  cbn [l_magic l_seq l_tag l_msg l_crc32]. split_and!; done.
Qed.

Section appends.
Context {W : Type} `{Storage W} (after_ring : list Z).

Lemma lentry_image_length e : arrays_ok e → length (lentry_image e) = 504%nat.
Proof.
  intros [Ht Hm]. unfold lentry_image, entry_prefix. rewrite !length_app, !le_length by lia. by rewrite Ht, Hm.
Qed.

Lemma block_at_spec i e ring :
  Forall arrays_ok ring → length after_ring = 8%nat → ring !! i = Some e →
  length (block_at after_ring i ring) = BLOCK_SIZE ∧ take 504 (block_at after_ring i ring) = lentry_image e.
Proof.
  intros Hring Ha He. unfold block_at. rewrite He. cbn [fmap option_fmap option_map default from_option id].
  pose proof (lentry_image_length e (proj1 (Forall_lookup _ _) Hring _ _ He)) as Hl.
  assert (8 ≤ length (default after_ring (lentry_image <$> ring !! S i)))%nat as H8.
  { destruct (ring !! S i) as [e'|] eqn:E; cbn; [|lia].
    rewrite lentry_image_length by (by apply (proj1 (Forall_lookup _ _) Hring _ _ E)). lia. }
  split.
  - rewrite length_take, length_app, Hl. unfold BLOCK_SIZE. lia.
  - unfold BLOCK_SIZE. rewrite take_take, take_app_le by lia. apply take_ge. lia.
Qed.


(** One append: the record goes into the next ring slot and, as one block, to the
    next sector of the log. *)
Lemma logfs_append_spec s hist tm w :
  log_inv s hist → c_str tm.1 → c_str tm.2 →
  ∃ s' e, logfs_append after_ring (Some tm.1) (Some tm.2) s w =
            (0, s', (storage_write (1024 + Z.of_nat (length hist) mod LOGFS_MAX_ENTRIES)
                       (block_at after_ring (slot_of (length hist)) (ring_buffer s')) w).2) ∧
          ring_buffer s' !! slot_of (length hist) = Some e ∧
          recorded (length hist) tm e ∧ log_inv s' (hist ++ [tm]).
Proof.
  intros Hinv Hst Hsm. destruct (li_ring _ _ Hinv) as [Hlen Harr]. pose proof (li_head _ _ Hinv) as Hhead.
  set (n := length hist) in *. assert (Z.to_nat (ring_head s) = slot_of n) as Hslot by (by rewrite Hhead).
  assert (slot_of n < length (ring_buffer s))%nat as Hlt.
  { unfold slot_of, LOGFS_RING_SIZE in *. divlia. }
  destruct (lookup_lt_is_Some_2 _ _ Hlt) as [e0 He0].
  pose proof (log_entry_recorded n tm e0 (proj1 (Forall_lookup _ _) Harr _ _ He0) Hst Hsm) as Hrec.
  set (e := log_entry tm.1 tm.2 (u32 (Z.of_nat n)) e0) in *.
  unfold logfs_append. rewrite (li_mounted _ _ Hinv), Hslot, He0, (li_seq _ _ Hinv). fold n. cbn [negb default from_option id].
  fold e. eexists _, e. split; [|split; [|split; [exact Hrec|]]].
  - cbn [lsb set_field]. rewrite (li_sb _ _ Hinv). fold n. cbn [lsb_base_lba lsb_write_head lsb_max_entries lsb_total_entries].
    f_equal. f_equal. f_equal. unfold u32, LOGFS_MAX_ENTRIES. divlia.
  - by apply list_lookup_insert_eq.
  - split; cbn [logfs_mounted ring_buffer ring_head ring_count sequence lsb]; rewrite ?length_app; cbn [length]; fold n.
    + apply Hinv.
    + split; cbn [ring_buffer]; [by rewrite length_insert|]. apply Forall_insert; [done|]. apply Hrec.
    + rewrite Hhead. fold n. unfold u32, LOGFS_RING_SIZE in *. divlia.
    + rewrite (li_count _ _ Hinv). fold n. unfold LOGFS_RING_SIZE in *. destruct (Z.ltb_spec (Z.min (Z.of_nat n) 8192) 8192); lia.
    + rewrite ?(li_seq _ _ Hinv). fold n. unfold u32. rewrite Nat2Z.inj_add. divlia.
    + rewrite ?(li_sb _ _ Hinv). fold n. cbn [lsb_total_entries lsb_write_head lsb_max_entries lsb_magic lsb_version lsb_base_lba lsb_create_time].
      f_equal; unfold u32, LOGFS_MAX_ENTRIES; divlia.
    + apply Forall_insert; [apply Hinv|]. intros _. apply Hrec.
    + intros k tm' Hk Hrange. destruct (decide (k = n)) as [->|Hkn].
      * rewrite lookup_app_r, Nat.sub_diag in Hk by done. injection Hk as <-.
        exists e. split; [by apply list_lookup_insert_eq|done].
      * apply lookup_lt_Some in Hk as Hkl. rewrite length_app in Hkl. cbn in Hkl. fold n in Hkl.
        rewrite lookup_app_l in Hk by (fold n; lia).
        destruct (li_entry _ _ Hinv k tm' Hk) as (e' & He' & Hr'); [fold n; lia|].
        exists e'. split; [|done]. rewrite list_lookup_insert_ne; [done|].
        unfold slot_of, LOGFS_RING_SIZE in *. divlia.
Qed.
Definition append_all (hist : list (string * string)) (s : logfs) (w : W) : logfs * W :=
  foldl (λ sw tm, let '(_, s, w) := logfs_append after_ring (Some tm.1) (Some tm.2) sw.1 sw.2 in (s, w)) (s, w) hist.

Definition c_strs (tm : string * string) : Prop := c_str tm.1 ∧ c_str tm.2.

Lemma append_all_inv hist s w old :
  log_inv s old → Forall c_strs hist → log_inv (append_all hist s w).1 (old ++ hist).
Proof.
  revert s w old. induction hist as [|tm hist IH]; intros s w old Hinv; [by rewrite app_nil_r|].
  intros [[Ht Hm] Hh]%Forall_cons. unfold append_all. cbn [foldl fst snd].
  destruct (logfs_append_spec s old tm w Hinv Ht Hm) as (s' & e & -> & _ & _ & Hinv').
  rewrite (cons_middle tm), app_assoc. by apply IH.
Qed.

(** ** Durability *)

Hypothesis Hafter : length after_ring = 8%nat.
Context {block : W → Z → list Z} {good : W → Prop} `{!StorageLaws W block good}.

Definition stored (w : W) (hist : list (string * string)) : Prop :=
  ∀ k tm, hist !! k = Some tm → Z.of_nat (length hist) - LOGFS_MAX_ENTRIES ≤ Z.of_nat k →
    ∃ e, take 504 (block w (1024 + Z.of_nat k mod LOGFS_MAX_ENTRIES)) = lentry_image e ∧ recorded k tm e.

Lemma append_all_stored hist s w old :
  log_inv s old → Forall c_strs hist → good w → stored w old →
  good (append_all hist s w).2 ∧ stored (append_all hist s w).2 (old ++ hist).
Proof.
  revert s w old. induction hist as [|tm hist IH]; intros s w old Hinv; [by rewrite app_nil_r|].
  intros [[Ht Hm] Hh]%Forall_cons Hg Hst. unfold append_all. cbn [foldl fst snd].
  destruct (logfs_append_spec s old tm w Hinv Ht Hm) as (s' & e & -> & He & Hrec & Hinv').
  rewrite (cons_middle tm), app_assoc.
  destruct (block_at_spec _ e _ (proj2 (li_ring _ _ Hinv')) Hafter He) as [Hbl Hbi].
  destruct (storage_write _ (block_at _ _ _) w) as [rc w'] eqn:E. apply st_write in E as [Hoth Hnew]; [|exact Hbl].
  destruct (Hnew Hg) as (_ & Hb & Hg'). apply IH; [done..|].
  intros k tm' Hk Hr. rewrite length_app in Hr. cbn in Hr. destruct (decide (k = length old)) as [->|Hkn].
  - rewrite lookup_app_r, Nat.sub_diag in Hk by done. injection Hk as <-. exists e.
    split; [|done]. cbn [snd]. by rewrite Hb.
  - apply lookup_lt_Some in Hk as Hkl. rewrite length_app in Hkl. cbn in Hkl.
    rewrite lookup_app_l in Hk by lia. destruct (Hst k tm' Hk) as (e' & He' & Hr'); [lia|].
    exists e'. split; [|done]. rewrite <-He'. f_equal. apply Hoth. unfold LOGFS_MAX_ENTRIES in *. divlia.
Qed.

(** On storage that keeps what is written, after mounting and any sequence of
    appends each of the last 65536 messages is on disk: the block of message [k]
    (counted modulo 65536 from sector 1024) holds a record with that sequence
    number, its tag and text (truncated to the arrays), and a checksum that matches
    the bytes before it. *)
Theorem logfs_durable path s0 w hist k tm :
  logfs_mounted s0 = false → ring_wf s0 → good w → Forall c_strs hist →
  hist !! k = Some tm → Z.of_nat (length hist) - LOGFS_MAX_ENTRIES ≤ Z.of_nat k →
  ∃ e, take 504 (block (append_all hist (logfs_mount (Some path) s0).2 w).2 (1024 + Z.of_nat k mod LOGFS_MAX_ENTRIES)) =
         lentry_image e ∧
       recorded k tm e.
Proof.
  intros Hm Hwf Hg Hh Hk Hr. pose proof (logfs_mount_inv path s0 Hm Hwf) as Hinv.
  destruct (append_all_stored hist _ w [] Hinv Hh Hg) as [_ Hst]; [|by apply (Hst k tm)].
  intros k' tm'. by rewrite lookup_nil.
Qed.
End appends.

(** ** Reading back *)

Definition text_line (tm : string * string) : list Z :=
  [91] ++ take (LOGFS_MAX_TAG - 1) (bytes_of tm.1) ++ [93; 32] ++ take (LOGFS_MAX_MSG - 1) (bytes_of tm.2) ++ [10].

Lemma recorded_line k tm e : recorded k tm e → line e = text_line tm.
Proof. intros (_ & _ & _ & _ & Ht & Hm & _). unfold line, text_line. by rewrite Ht, Hm. Qed.

Lemma read_loop_at buf_len start i es ring out mid rest :
  (∀ j e, es !! j = Some e →
     ring !! Z.to_nat (u32 (start + (i + Z.of_nat j)) mod LOGFS_RING_SIZE) = Some e ∧
     l_magic e = LOGFS_MAGIC ∧ terminated e) →
  length mid = length (concat (line <$> es)) → Z.of_nat (length out + length mid) < buf_len < 2 ^ 32 →
  read_loop buf_len start i (length es) ring (at_end out (mid ++ rest)) =
  Some (at_end (out ++ concat (line <$> es)) rest).
Proof.
  revert i out mid. induction es as [|e es IH]; intros i out mid Hes Hmid Hb.
  { cbn in Hmid. apply nil_length_inv in Hmid as ->. cbn. by rewrite app_nil_r. }
  cbn [fmap list_fmap concat] in *. rewrite length_app in Hmid.
  assert (∃ m1 m2, mid = m1 ++ m2 ∧ length m1 = length (line e) ∧ length m2 = length (concat (line <$> es)))
    as (m1 & m2 & -> & H1 & H2).
  { exists (take (length (line e)) mid), (drop (length (line e)) mid). 
    split_and!; [by rewrite take_drop|rewrite length_take; lia|rewrite length_drop; lia]. }
  rewrite length_app in Hb. pose proof (line_length e). cbn [read_loop length].
  assert ((at_end out ((m1 ++ m2) ++ rest)).1 = Z.of_nat (length out)) as -> by done.
  rewrite (proj2 (Z.leb_gt _ _)) by (rewrite u32_small by lia; lia).
  destruct (Hes 0%nat e eq_refl) as (He & Hmg & Ht). rewrite Z.add_0_r in He. rewrite He. cbn [mbind option_bind].
  rewrite Hmg, Z.eqb_refl, <-app_assoc, put_entry_at by (done || lia). cbn [mbind option_bind].
  rewrite IH; [by rewrite <-app_assoc| |done|rewrite length_app; lia].
  intros j e' Hj. specialize (Hes (S j) e' Hj). by replace (i + 1 + Z.of_nat j) with (i + Z.of_nat (S j)) by lia.
Qed.

(** The records of the last [k] messages, found in the ring. *)
Lemma last_records s hist k :
  log_inv s hist → (k ≤ length hist)%nat → Z.of_nat k ≤ LOGFS_RING_SIZE →
  ∃ es, length es = k ∧ line <$> es = text_line <$> drop (length hist - k) hist ∧
    ∀ j e, es !! j = Some e →
      ring_buffer s !! slot_of (length hist - k + j) = Some e ∧ l_magic e = LOGFS_MAGIC ∧ terminated e.
Proof.
  intros Hinv. induction k as [|k IH]; intros Hk Hr.
  { exists []. rewrite Nat.sub_0_r, drop_all. split_and!; [done..|]. intros j e. by rewrite lookup_nil. }
  destruct IH as (es & Hl & Hline & Hes); [lia..|].
  destruct (lookup_lt_is_Some_2 hist (length hist - S k)) as [tm Htm]; [lia|].
  destruct (li_entry _ _ Hinv _ _ Htm) as (e & He & Hrec); [lia|]. exists (e :: es). split_and!.
  - cbn. lia.
  - rewrite (drop_S _ _ _ Htm). replace (S (length hist - S k)) with (length hist - k)%nat by lia.
    cbn [fmap list_fmap]. by rewrite (recorded_line _ _ _ Hrec), <-Hline.
  - intros [|j] e'; cbn [lookup list_lookup].
    + intros [= <-]. rewrite Nat.add_0_r. split; [done|]. split; apply Hrec.
    + intros Hj. replace (length hist - S k + S j)%nat with (length hist - k + j)%nat by lia. by apply Hes.
Qed.

Definition last_lines (n : Z) (hist : list (string * string)) : list Z :=
  let k := Z.to_nat (Z.min n (Z.min (Z.of_nat (length hist)) LOGFS_RING_SIZE)) in
  concat (text_line <$> drop (length hist - k) hist).

Lemma logfs_read_last_inv s hist n buf buf_len :
  log_inv s hist → 0 < n < 2 ^ 32 → hist ≠ [] →
  Z.of_nat (length (last_lines n hist)) < buf_len ≤ Z.of_nat (length buf) → buf_len < 2 ^ 31 →
  logfs_read_last n (Some buf) buf_len s =
  Some (Z.of_nat (length (last_lines n hist)),
        Some (last_lines n hist ++ 0 :: drop (S (length (last_lines n hist))) buf)).
Proof.
  intros Hinv Hn Hne Hb Hb31. unfold last_lines in *. set (k := Z.to_nat (Z.min n _)) in *.
  assert (0 < length hist)%nat as Hpos by (destruct hist; [done|cbn; lia]).
  assert (Z.of_nat k = Z.min n (Z.min (Z.of_nat (length hist)) LOGFS_RING_SIZE)) as Hk
    by (unfold k, LOGFS_RING_SIZE; lia).
  destruct (last_records s hist k Hinv) as (es & Hel & Hline & Hes); [unfold LOGFS_RING_SIZE in *; lia..|].
  rewrite <-Hline in *. set (out := concat (line <$> es)) in *.
  unfold logfs_read_last. rewrite (li_mounted _ _ Hinv), (proj2 (Z.eqb_neq buf_len 0)) by lia. cbn [negb orb].
  rewrite (li_count _ _ Hinv), (li_head _ _ Hinv).
  replace (if Z.min (Z.of_nat (length hist)) LOGFS_RING_SIZE <? n
           then Z.min (Z.of_nat (length hist)) LOGFS_RING_SIZE else n) with (Z.of_nat k)
    by (destruct (Z.ltb_spec (Z.min (Z.of_nat (length hist)) LOGFS_RING_SIZE) n); lia).
  rewrite (proj2 (Z.eqb_neq (Z.of_nat k) 0)) by (unfold LOGFS_RING_SIZE in *; lia). set (start := if _ <? _ then _ else _).
  assert (start = (Z.of_nat (length hist) - Z.of_nat k) mod LOGFS_RING_SIZE) as Hstart.
  { unfold start. destruct (Z.ltb_spec (Z.min (Z.of_nat (length hist)) LOGFS_RING_SIZE) LOGFS_RING_SIZE) as [Hc|Hc].
    - rewrite (proj2 (Z.leb_le _ _)) by lia. unfold LOGFS_RING_SIZE in *. divlia.
    - unfold u32, LOGFS_RING_SIZE in *. divlia. }
  clearbody start. rewrite Nat2Z.id, <-Hel.
  destruct (lookup_lt_is_Some_2 buf (length out)) as [x Hx]; [lia|].
  rewrite <-(take_drop_middle buf _ _ Hx).
  change (0, take (length out) buf ++ x :: drop (S (length out)) buf) with
    (at_end [] (take (length out) buf ++ x :: drop (S (length out)) buf)).
  assert (length (take (length out) buf) = length out) as Htake by (rewrite length_take; lia).
  rewrite read_loop_at; [|intros j e Hj; destruct (Hes j e Hj) as [Hrj Hm]|done|cbn; lia].
  - fold out. pose proof (put_byte_at 0 out x (drop (S (length out)) buf) ltac:(lia)) as Hput.
    unfold at_end in Hput |- *. cbn [mbind option_bind app]. rewrite Hput. cbn [mbind option_bind]. f_equal. f_equal.
    + unfold s32. divlia.
    + rewrite <-app_assoc. do 3 f_equal.
      rewrite drop_app_ge by lia. rewrite Htake. by replace (S (length out) - length out)%nat with 1%nat by lia.
  - split; [|done]. rewrite <-Hrj. f_equal. unfold slot_of, u32. rewrite Hstart. apply lookup_lt_Some in Hj.
    unfold LOGFS_RING_SIZE in *. divlia.
Qed.

(** After mounting and any non-empty sequence of appends, [logfs_read_last]
    with a buffer large enough for the text returns the length of the last [n]
    messages (at most the 8192 of the ring), oldest first, each as "[tag] text" and
    a newline, leaves exactly that text and a terminator in the buffer, and touches
    nothing behind it. *)
Theorem logfs_read_last_spec {W} `{Storage W} after_ring path s0 w hist n buf buf_len :
  logfs_mounted s0 = false → ring_wf s0 → Forall c_strs hist → hist ≠ [] → 0 < n < 2 ^ 32 →
  Z.of_nat (length (last_lines n hist)) < buf_len ≤ Z.of_nat (length buf) → buf_len < 2 ^ 31 →
  logfs_read_last n (Some buf) buf_len (append_all after_ring hist (logfs_mount (Some path) s0).2 w).1 =
  Some (Z.of_nat (length (last_lines n hist)),
        Some (last_lines n hist ++ 0 :: drop (S (length (last_lines n hist))) buf)).
Proof.
  intros Hm Hwf Hh Hne Hn Hb Hb31. pose proof (logfs_mount_inv path s0 Hm Hwf) as Hinv.
  apply logfs_read_last_inv; [|done..]. exact (append_all_inv after_ring hist _ w [] Hinv Hh).
Qed.

(** ** How far a read can overrun its buffer *)

Lemma put_byte_bound c pos buf :
  0 ≤ pos < Z.of_nat (length buf) → Z.of_nat (length buf) < 2 ^ 32 →
  ∃ buf', put_byte c (pos, buf) = Some (pos + 1, buf') ∧ length buf' = length buf.
Proof.
  intros Hp Hl. unfold put_byte. rewrite (proj2 (Z.ltb_lt _ _)), u32_small by lia.
  eexists. split; [done|]. by rewrite length_insert.
Qed.

Lemma put_text_bound limit text pos buf :
  In 0 text → 0 ≤ pos → limit ≤ Z.of_nat (length buf) → Z.of_nat (length buf) < 2 ^ 32 →
  ∃ pos' buf', put_text limit text (pos, buf) = Some (pos', buf') ∧ length buf' = length buf ∧
    pos ≤ pos' ≤ Z.max pos limit.
Proof.
  revert pos buf. induction text as [|c text IH]; intros pos buf Hin Hp Hlim Hl; [done|].
  cbn [put_text fst]. destruct (Z.eqb_spec c 0) as [->|Hc]; [exists pos, buf; split_and!; done || lia|]. cbn [orb].
  destruct (Z.leb_spec limit pos); [exists pos, buf; split_and!; done || lia|].
  destruct (put_byte_bound c pos buf) as (buf1 & -> & Hl1); [lia..|]. cbn [mbind option_bind].
  destruct (IH (pos + 1) buf1) as (pos' & buf' & -> & Hl' & Hp'); [by destruct Hin|lia..|].
  exists pos', buf'. split_and!; [done|lia..].
Qed.

Lemma put_entry_bound buf_len e pos buf :
  terminated e → 3 ≤ buf_len → 0 ≤ pos ≤ buf_len - 2 → buf_len + 3 ≤ Z.of_nat (length buf) < 2 ^ 32 →
  ∃ pos' buf', put_entry buf_len e (pos, buf) = Some (pos', buf') ∧ length buf' = length buf ∧ pos ≤ pos' ≤ buf_len + 2.
Proof.
  intros [Ht Hm] Hb Hp Hl. unfold put_entry.
  destruct (put_byte_bound 91 pos buf) as (b1 & -> & Hl1); [lia..|]. cbn [mbind option_bind].
  destruct (put_text_bound (u32 (buf_len - 3)) (l_tag e) (pos + 1) b1) as (p2 & b2 & -> & Hl2 & Hp2);
    [done|rewrite ?u32_small by lia; lia..|]. rewrite u32_small in Hp2 by lia. cbn [mbind option_bind].
  destruct (put_byte_bound 93 p2 b2) as (b3 & -> & Hl3); [lia..|]. cbn [mbind option_bind].
  destruct (put_byte_bound 32 (p2 + 1) b3) as (b4 & -> & Hl4); [lia..|]. cbn [mbind option_bind].
  destruct (put_text_bound (u32 (buf_len - 2)) (l_msg e) (p2 + 1 + 1) b4) as (p5 & b5 & -> & Hl5 & Hp5);
    [done|rewrite ?u32_small by lia; lia..|]. rewrite u32_small in Hp5 by lia. cbn [mbind option_bind].
  destruct (put_byte_bound 10 p5 b5) as (b6 & -> & Hl6); [lia..|].
  exists (p5 + 1), b6. split_and!; [done|lia..].
Qed.

Lemma read_loop_bound buf_len start i n ring pos buf :
  Z.of_nat (length ring) = LOGFS_RING_SIZE → Forall (λ e, l_magic e = LOGFS_MAGIC → terminated e) ring →
  3 ≤ buf_len → 0 ≤ pos ≤ buf_len + 2 → buf_len + 3 ≤ Z.of_nat (length buf) < 2 ^ 32 →
  ∃ pos' buf', read_loop buf_len start i n ring (pos, buf) = Some (pos', buf') ∧
    length buf' = length buf ∧ 0 ≤ pos' ≤ buf_len + 2.
Proof.
  intros Hr Ht Hb. revert i pos buf. induction n as [|n IH]; intros i pos buf Hp Hl; cbn [read_loop fst].
  { by exists pos, buf. }
  rewrite u32_small by lia. destruct (Z.leb_spec (buf_len - 1) pos); [by exists pos, buf|].
  destruct (lookup_lt_is_Some_2 ring (Z.to_nat (u32 (start + i) mod LOGFS_RING_SIZE))) as [e He].
  { unfold LOGFS_RING_SIZE in *. divlia. }
  rewrite He. cbn [mbind option_bind]. destruct (Z.eqb_spec (l_magic e) LOGFS_MAGIC) as [Hm|Hm].
  - destruct (put_entry_bound buf_len e pos buf) as (p1 & b1 & -> & Hl1 & Hp1); [|lia..|].
    { by apply (proj1 (Forall_lookup _ _) Ht _ _ He). }
    cbn [mbind option_bind]. destruct (IH (i + 1) p1 b1) as (p2 & b2 & E & Hl2 & Hp2); [lia..|].
    exists p2, b2. split_and!; [done|lia..].
  - cbn [mbind option_bind]. by apply IH.
Qed.

(** After mounting and any sequence of appends, a read with a declared buffer
    length of at least 3 writes at most three bytes behind it: it succeeds on every
    buffer that has three bytes more than declared, and never reports a position
    more than two behind the end. *)
Theorem logfs_read_last_overrun {W} `{Storage W} after_ring path s0 w hist n buf buf_len :
  logfs_mounted s0 = false → ring_wf s0 → Forall c_strs hist → 0 ≤ n →
  3 ≤ buf_len → buf_len + 3 ≤ Z.of_nat (length buf) < 2 ^ 31 →
  ∃ rc buf', logfs_read_last n (Some buf) buf_len (append_all after_ring hist (logfs_mount (Some path) s0).2 w).1 =
               Some (rc, Some buf') ∧ 0 ≤ rc ≤ buf_len + 2 ∧ length buf' = length buf.
Proof.
  intros Hm Hwf Hh Hn Hb Hl. pose proof (logfs_mount_inv path s0 Hm Hwf) as Hinv.
  pose proof (append_all_inv after_ring hist _ w [] Hinv Hh) as Hinv'.
  destruct (append_all after_ring hist _ w) as [s w']. cbn [fst] in *. clear Hinv.
  unfold logfs_read_last. rewrite (li_mounted _ _ Hinv'), (proj2 (Z.eqb_neq buf_len 0)) by lia. cbn [negb orb].
  destruct (_ =? 0); [exists 0, buf; split_and!; done || lia|].
  match goal with |- context [read_loop buf_len ?st 0 ?k (ring_buffer s) (0, buf)] =>
    destruct (read_loop_bound buf_len st 0 k (ring_buffer s) 0 buf (proj1 (li_ring _ _ Hinv')) (li_term _ _ Hinv'))
      as (pos & b1 & -> & Hl1 & Hp1); [lia..|] end.
  cbn [mbind option_bind]. destruct (put_byte_bound 0 pos b1) as (b2 & -> & Hl2); [lia..|].
  cbn [mbind option_bind]. exists (s32 pos), b2.
  assert (s32 pos = pos) as -> by (unfold s32; divlia). split_and!; [done|lia..].
Qed.

(** ** Examples *)

Definition boot_logfs : logfs :=
  mk_logfs (replicate 8192 zero_lentry) 0 0 0 false (mk_lsb 0 0 0 0 0 0 0).
Definition example_log : list (string * string) := [("a", ""); ("net", "up"); ("a", "b")]%string.
Definition eight_zeros : list Z := replicate 8 0.

Lemma boot_logfs_wf : ring_wf boot_logfs.
Proof. split; [vm_compute; reflexivity|]. by apply Forall_replicate. Qed.
Lemma example_log_strs : Forall c_strs example_log.
Proof. repeat constructor; vm_compute; discriminate. Qed.

Lemma logfs_durable_witness :
  ∃ e, take 504 (card_block (append_all eight_zeros example_log (logfs_mount (Some "/log"%string) boot_logfs).2
                               (mk_card true ∅)).2 1025) = lentry_image e ∧
       recorded 1 ("net", "up")%string e.
Proof.
  apply (logfs_durable eight_zeros eq_refl "/log" boot_logfs (mk_card true ∅) example_log 1 ("net", "up")%string).
  - reflexivity.
  - exact boot_logfs_wf.
  - reflexivity.
  - exact example_log_strs.
  - reflexivity.
  - cbn. unfold LOGFS_MAX_ENTRIES. lia.
Defined.

Lemma logfs_read_last_spec_witness :
  logfs_read_last 2 (Some (replicate 32 7)) 32
    (append_all eight_zeros example_log (logfs_mount (Some "/log"%string) boot_logfs).2 (mk_card true ∅)).1 =
  Some (15, Some (bytes_of "[net] up" ++ [10] ++ bytes_of "[a] b" ++ [10; 0] ++ replicate 16 7)).
Proof.
  apply (logfs_read_last_spec eight_zeros "/log" boot_logfs (mk_card true ∅) example_log 2 (replicate 32 7) 32).
  - reflexivity.
  - exact boot_logfs_wf.
  - exact example_log_strs.
  - discriminate.
  - lia.
  - vm_compute. split; discriminate || reflexivity.
  - lia.
Defined.

Lemma logfs_read_last_overrun_witness :
  ∃ rc buf', logfs_read_last 3 (Some (replicate 10 7)) 7
      (append_all eight_zeros example_log (logfs_mount (Some "/log"%string) boot_logfs).2 (mk_card true ∅)).1 =
    Some (rc, Some buf') ∧ 0 ≤ rc ≤ 9 ∧ length buf' = 10%nat.
Proof.
  apply (logfs_read_last_overrun eight_zeros "/log" boot_logfs (mk_card true ∅) example_log 3 (replicate 10 7) 7).
  - reflexivity.
  - exact boot_logfs_wf.
  - exact example_log_strs.
  - lia.
  - lia.
  - vm_compute. split; discriminate || reflexivity.
Defined.

(** ** What the code does not handle *)

Definition example_logfs : logfs :=
  (append_all eight_zeros example_log (logfs_mount (Some "/log"%string) boot_logfs).2 (mk_card true ∅)).1.

(** The overrun happens: with a declared length of 7 the second message is started
    at position 5 and nine bytes of buffer are not enough. *)
Lemma logfs_read_last_overruns : logfs_read_last 3 (Some (replicate 9 7)) 7 example_logfs = None.
Proof. vm_compute. reflexivity. Qed.

(** With a declared length of 2 the limit [buf_len - 3] wraps around and the whole
    tag is copied. *)
Lemma logfs_read_last_limit_wraps : logfs_read_last 1 (Some (replicate 5 7)) 2 example_logfs = None.
Proof. vm_compute. reflexivity. Qed.

(** The record of the last ring slot is written with eight bytes from behind the
    ring. *)
Lemma logfs_block_behind_ring after_ring i e ring :
  length ring = S i → ring !! i = Some e → length (lentry_image e) = 504%nat → length after_ring = 8%nat →
  block_at after_ring i ring = lentry_image e ++ after_ring.
Proof.
  intros Hl He Hi Ha. unfold block_at. rewrite He, (lookup_ge_None_2 ring) by lia. cbn.
  apply take_ge. rewrite length_app. unfold BLOCK_SIZE. lia.
Qed.
