(* ===== verification/FdTable.v ===== *)
(** File descriptors: kernel/core/fd_table.c, a table of 32 descriptors for each
    of the process numbers 1 to 255.

    An object is a vnode of the file system switch; closing a descriptor closes
    the vnode. *)

From S2P Require Import Prelude Vfs.

Definition FD_PROCESS_SLOTS : nat := 256.
Definition AEGIS_FD_FIRST : Z := 3.
Definition AEGIS_FD_MAX_PER_PROCESS : nat := 32.

Record fd_entry := mk_fd {
  fd_used : bool; fd_readable : bool; fd_writable : bool; fd_object : option nat; fd_offset : Z;
}.
#[export] Instance fd_entry_eta : Eta fd_entry := λ e,
  mk_fd (fd_used e) (fd_readable e) (fd_writable e) (fd_object e) (fd_offset e).
Definition zero_fd : fd_entry := mk_fd false false false None 0.

(** [g_fd] *)
Notation fd_table := (list (list fd_entry)).

Definition fd_table_init (t : fd_table) : fd_table := (λ r : list fd_entry, (λ _, zero_fd) <$> r) <$> t.

Definition bad_pid (pid : Z) : bool := (pid =? 0) || (Z.of_nat FD_PROCESS_SLOTS <=? pid).

Definition fd_row (pid : Z) (t : fd_table) : list fd_entry := default [] (t !! Z.to_nat pid).

Definition fd_install (pid : Z) (object : option nat) (readable writable : bool) (t : fd_table) : Z * fd_table :=
  if bad_pid pid || bool_decide (object = None) then (AEGIS_EINVAL, t)
  else
    match find_slot (λ e, negb (fd_used e)) (fd_row pid t) with
    | Some i => (Z.of_nat i + AEGIS_FD_FIRST,
                 alter (<[i := mk_fd true readable writable object 0]>) (Z.to_nat pid) t)
    | None => (AEGIS_ENOSPC, t)
    end.

(** The entry of an open descriptor. *)
Definition fd_lookup (pid fd : Z) (t : fd_table) : option fd_entry :=
  if bad_pid pid || (fd <? AEGIS_FD_FIRST) || (Z.of_nat AEGIS_FD_MAX_PER_PROCESS <=? fd - AEGIS_FD_FIRST) then None
  else e ← fd_row pid t !! Z.to_nat (fd - AEGIS_FD_FIRST); if fd_used e then Some e else None.

(** The object and the offset behind [offset_out]. *)
Definition fd_get (pid fd : Z) (for_write : bool) (t : fd_table) : option (nat * Z) :=
  e ← fd_lookup pid fd t;
  if (if for_write then fd_writable e else fd_readable e)
  then o ← fd_object e; Some (o, fd_offset e) else None.

(** A store through the pointer that [fd_get] returns. *)
Definition fd_set_offset (pid fd offset : Z) (t : fd_table) : fd_table :=
  alter (alter (λ e, e <| fd_offset := offset |>) (Z.to_nat (fd - AEGIS_FD_FIRST))) (Z.to_nat pid) t.

Definition fd_close (pid fd : Z) (t : fd_table) (vs : vfs_state) : Z * fd_table * vfs_state :=
  if bad_pid pid || (fd <? AEGIS_FD_FIRST) then (AEGIS_EINVAL, t, vs)
  else
    match fd_lookup pid fd t with
    | None => (AEGIS_ENOENT, t, vs)
    | Some e =>
        (AEGIS_OK, alter (<[Z.to_nat (fd - AEGIS_FD_FIRST) := zero_fd]>) (Z.to_nat pid) t,
         vfs_close (fd_object e) vs)
    end.

Definition fd_close_all (pid : Z) (t : fd_table) (vs : vfs_state) : fd_table * vfs_state :=
  if bad_pid pid then (t, vs)
  else
    (alter (fmap (λ e, if fd_used e then zero_fd else e)) (Z.to_nat pid) t,
     foldl (λ vs e, if fd_used e then vfs_close (fd_object e) vs else vs) vs (fd_row pid t)).

(** ** Properties *)

Definition fd_wf (t : fd_table) : Prop :=
  length t = FD_PROCESS_SLOTS ∧ Forall (λ r, length r = AEGIS_FD_MAX_PER_PROCESS) t.

Lemma fd_row_alter pid pid' f t :
  fd_row pid' (alter f (Z.to_nat pid) t) =
  if decide (Z.to_nat pid = Z.to_nat pid') then default [] (f <$> t !! Z.to_nat pid') else fd_row pid' t.
Proof.
  unfold fd_row. case_decide as E; [rewrite E; by rewrite list_lookup_alter_eq|].
  by rewrite list_lookup_alter_ne.
Qed.

Lemma bad_pid_false pid : bad_pid pid = false → 0 ≤ pid → 0 < pid < 256.
Proof.
  unfold bad_pid. change (Z.of_nat FD_PROCESS_SLOTS) with 256. intros [? ?]%orb_false_iff ?. lia.
Qed.

(** A descriptor that was installed gives its object back with the access asked
    for, was not in use before, and leaves every other descriptor of every process
    alone. *)
Lemma fd_install_get pid o r w t fd t' :
  fd_wf t → 0 ≤ pid → fd_install pid (Some o) r w t = (fd, t') → 0 ≤ fd →
  fd_wf t' ∧ fd_lookup pid fd t = None ∧
  fd_get pid fd false t' = (if r then Some (o, 0) else None) ∧
  fd_get pid fd true t' = (if w then Some (o, 0) else None) ∧
  ∀ pid' fd' b, 0 ≤ pid' → (pid', fd') ≠ (pid, fd) → fd_get pid' fd' b t' = fd_get pid' fd' b t.
Proof.
  intros [Hl Hr] Hp. unfold fd_install. rewrite (bool_decide_eq_false_2 (Some o = None)), orb_false_r by done.
  destruct (bad_pid pid) eqn:Hbad; [intros [= <- <-]; unfold AEGIS_EINVAL; lia|].
  pose proof (bad_pid_false _ Hbad Hp) as Hpid.
  destruct (find_slot _ _) as [i|] eqn:Hi; [|intros [= <- <-]; unfold AEGIS_ENOSPC; lia].
  intros [= <- <-] _. destruct (lookup_lt_is_Some_2 t (Z.to_nat pid)) as [row Hrow];
    [rewrite Hl; unfold FD_PROCESS_SLOTS; lia|].
  assert (fd_row pid t = row) as Er by (unfold fd_row; by rewrite Hrow). rewrite Er in Hi.
  pose proof (proj1 (Forall_lookup _ _) Hr _ _ Hrow) as Hrl. cbn in Hrl.
  pose proof (find_slot_lt _ _ _ Hi) as Hilt. apply find_slot_Some in Hi as (e0 & He0 & Hfree & _).
  unfold AEGIS_FD_MAX_PER_PROCESS in Hrl.
  assert (∀ tt, fd_lookup pid (Z.of_nat i + 3) tt =
            (e ← fd_row pid tt !! i; if fd_used e then Some e else None)) as Hlook.
  { intros tt. unfold fd_lookup, AEGIS_FD_FIRST, AEGIS_FD_MAX_PER_PROCESS. rewrite Hbad.
    rewrite (proj2 (Z.ltb_ge _ _)), (proj2 (Z.leb_gt _ _)) by lia. cbn [orb].
    by replace (Z.to_nat (Z.of_nat i + 3 - 3)) with i by lia. }
  assert (fd_row pid (alter <[i := mk_fd true r w (Some o) 0]> (Z.to_nat pid) t) !! i =
          Some (mk_fd true r w (Some o) 0)) as Hnew.
  { rewrite fd_row_alter, decide_True, Hrow by done. cbn. by apply list_lookup_insert_eq. }
  unfold AEGIS_FD_FIRST. split_and!.
  - split; [by rewrite length_alter|]. apply Forall_lookup. intros j x.
    destruct (decide (j = Z.to_nat pid)) as [->|].
    + rewrite list_lookup_alter_eq, Hrow. cbn. intros [= <-]. by rewrite length_insert.
    + rewrite list_lookup_alter_ne by done. by apply (proj1 (Forall_lookup _ _) Hr).
  - rewrite Hlook, Er, He0. cbn. by destruct (fd_used e0).
  - unfold fd_get. rewrite Hlook, Hnew. cbn. by destruct r.
  - unfold fd_get. rewrite Hlook, Hnew. cbn. by destruct w.
  - intros pid' fd' b Hp' Hne. unfold fd_get. f_equal. unfold fd_lookup.
    destruct (_ || _ || _) eqn:Hg; [done|]. rewrite fd_row_alter. case_decide as E; [|done].
    assert (pid' = pid) as -> by lia. rewrite Hrow, Er. cbn [fmap option_fmap option_map default from_option id].
    rewrite list_lookup_insert_ne; [done|].
    rewrite !orb_false_iff in Hg. unfold AEGIS_FD_FIRST in *.
    destruct Hg as [[_ Hg] _]. intros Ei. apply Hne. f_equal. lia.
Qed.

(** The lowest free descriptor is used. *)
Lemma fd_install_lowest pid o r w t fd t' fd' :
  fd_wf t → 0 ≤ pid → fd_install pid (Some o) r w t = (fd, t') → 0 ≤ fd →
  AEGIS_FD_FIRST ≤ fd' < fd → is_Some (fd_lookup pid fd' t).
Proof.
  intros [Hl Hr] Hp. unfold fd_install. rewrite (bool_decide_eq_false_2 (Some o = None)), orb_false_r by done.
  destruct (bad_pid pid) eqn:Hbad; [intros [= <- <-]; unfold AEGIS_EINVAL; lia|].
  destruct (find_slot _ _) as [i|] eqn:Hi; [|intros [= <- <-]; unfold AEGIS_ENOSPC; lia].
  intros [= <- <-] _ Hfd. unfold AEGIS_FD_FIRST in *. pose proof (find_slot_lt _ _ _ Hi) as Hlt.
  apply find_slot_Some in Hi as (_ & _ & _ & Hmin).
  destruct (lookup_lt_is_Some_2 (fd_row pid t) (Z.to_nat (fd' - 3))) as [e He]; [lia|].
  specialize (Hmin _ _ He ltac:(lia)).
  assert (length (fd_row pid t) ≤ 32)%nat.
  { unfold fd_row. destruct (t !! Z.to_nat pid) as [row|] eqn:Hrow; cbn; [|lia].
    pose proof (proj1 (Forall_lookup _ _) Hr _ _ Hrow) as Hrl. cbn in Hrl. rewrite Hrl. done. }
  unfold fd_lookup, AEGIS_FD_FIRST, AEGIS_FD_MAX_PER_PROCESS. rewrite Hbad.
  rewrite (proj2 (Z.ltb_ge _ _)), (proj2 (Z.leb_gt _ _)) by lia. cbn [orb]. rewrite He. cbn.
  destruct (fd_used e); [by eexists|done].
Qed.

(** After [fd_close_all] no descriptor of the process is open. *)
Lemma fd_close_all_closed pid t vs fd :
  bad_pid pid = false → fd_lookup pid fd (fd_close_all pid t vs).1 = None.
Proof.
  intros Hbad. unfold fd_close_all, fd_lookup. rewrite Hbad. cbn [fst].
  destruct (_ || _ || _); [done|]. rewrite fd_row_alter, decide_True by done.
  destruct (t !! Z.to_nat pid) as [row|]; cbn; [|done]. rewrite list_lookup_fmap.
  destruct (row !! _) as [e|]; cbn; [|done]. destruct (fd_used e) eqn:E; cbn; [done|]. by rewrite E.
Qed.

(** Process identifiers grow without bound, the descriptor table has 256 rows: a
    process with a larger identifier cannot open anything. *)
Lemma fd_install_large_pid pid o r w t : 256 ≤ pid → fd_install pid o r w t = (AEGIS_EINVAL, t).
Proof.
  intros Hp. unfold fd_install, bad_pid, FD_PROCESS_SLOTS.
  by rewrite (proj2 (Z.leb_le _ _)), orb_true_r by lia.
Qed.
