(* ===== verification/Supervisor.v ===== *)
(** The service supervisor: kernel/core/service_supervisor.c, and the decoding of
    faults it records (kernel/core/exception.c).

    A table of at most 16 services with a restart policy: a service that exits
    waits for a time that doubles with every failure, and is stopped for good when
    it fails too often within its window. The monotonic clock
    ([service_supervisor_clock_ticks]) is an argument of the operation that reads
    it; the process descriptors of the userland catalogue are an argument of the
    registration. *)

From S2P Require Import Prelude.

Definition AEGIS_SUPERVISOR_SERVICE_MAX : nat := 16.
Definition AEGIS_SUPERVISOR_NAME_MAX : nat := 32.
Definition POLICY_REQUIRED : Z := 1.
Definition POLICY_RESTART_ON_FAULT : Z := 2.
Definition POLICY_CONTROL_PLANE : Z := 4.

Inductive service_state :=
| SUPERVISED_EMPTY | SUPERVISED_REGISTERED | SUPERVISED_STARTING | SUPERVISED_RUNNING
| SUPERVISED_FAULTED | SUPERVISED_RESTARTING | SUPERVISED_STOPPED.
#[export] Instance service_state_eq_dec : EqDecision service_state.
Proof. solve_decision. Defined.

Inductive fault_kind := FAULT_NONE | FAULT_EXIT | FAULT_PAGE_FAULT | FAULT_WATCHDOG | FAULT_IPC.
#[export] Instance fault_kind_eq_dec : EqDecision fault_kind.
Proof. solve_decision. Defined.

(** ** Faults *)

Record exception_fault := mk_fault {
  x_esr : Z; x_far : Z; x_elr : Z; x_ec : Z; x_iss : Z; x_fsc : Z;
  x_write : bool; x_instruction_abort : bool; x_data_abort : bool;
  x_from_lower_el : bool; x_from_current_el : bool; x_is_page_fault : bool;
}.

Definition exception_decode_fault (esr far elr : Z) : exception_fault :=
  let ec := Z.land (Z.shiftr esr 26) 0x3f in
  let iss := Z.land esr 0x01ffffff in
  let fsc := Z.land iss 0x3f in
  let instruction_abort := (ec =? 0x20) || (ec =? 0x21) in
  let data_abort := (ec =? 0x24) || (ec =? 0x25) in
  mk_fault esr far elr ec iss fsc (negb (Z.land (Z.shiftr iss 6) 1 =? 0)) instruction_abort data_abort
    ((ec =? 0x20) || (ec =? 0x24)) ((ec =? 0x21) || (ec =? 0x25))
    ((instruction_abort || data_abort) &&
     ((0x04 <=? fsc) && (fsc <=? 0x07) || (0x09 <=? fsc) && (fsc <=? 0x0b) ||
      (0x0d <=? fsc) && (fsc <=? 0x0f) || (fsc =? 0x21))).

Definition exception_fault_is_user_page_fault (fault : option exception_fault) : bool :=
  match fault with Some f => x_is_page_fault f && x_from_lower_el f | None => false end.

(** ** The table *)

Record fault_record := mk_fault_record {
  f_kind : fault_kind; f_service_id : Z; f_pid : Z; f_fault_count_snapshot : Z; f_exit_code : Z;
  f_esr : Z; f_far : Z; f_elr : Z; f_ec : Z; f_fsc : Z; f_lower_el : bool; f_write : bool; f_page_fault : bool;
}.
#[export] Instance fault_record_eta : Eta fault_record := λ f,
  mk_fault_record (f_kind f) (f_service_id f) (f_pid f) (f_fault_count_snapshot f) (f_exit_code f)
    (f_esr f) (f_far f) (f_elr f) (f_ec f) (f_fsc f) (f_lower_el f) (f_write f) (f_page_fault f).
Definition zero_fault : fault_record := mk_fault_record FAULT_NONE 0 0 0 0 0 0 0 0 0 false false false.

Record service := mk_service {
  sv_id : Z; sv_service_id : Z; sv_pid : Z; sv_name : string; sv_state : service_state; sv_policy : Z;
  sv_restart_count : Z; sv_fault_count : Z; sv_consecutive_failures : Z; sv_max_restarts : Z;
  sv_restart_window_ticks : Z; sv_base_backoff_ticks : Z; sv_first_failure_tick : Z; sv_next_restart_tick : Z;
  sv_shutdown_requested : bool; sv_last_exit_code : Z; sv_last_fault : fault_record;
}.
#[export] Instance service_eta : Eta service := λ v,
  mk_service (sv_id v) (sv_service_id v) (sv_pid v) (sv_name v) (sv_state v) (sv_policy v)
    (sv_restart_count v) (sv_fault_count v) (sv_consecutive_failures v) (sv_max_restarts v)
    (sv_restart_window_ticks v) (sv_base_backoff_ticks v) (sv_first_failure_tick v) (sv_next_restart_tick v)
    (sv_shutdown_requested v) (sv_last_exit_code v) (sv_last_fault v).
Definition zero_service : service :=
  mk_service 0 0 0 EmptyString SUPERVISED_EMPTY 0 0 0 0 0 0 0 0 0 false 0 zero_fault.

Record supervisor_state := mk_sstate {
  ss_initialised : bool; ss_registry_ready : bool; ss_services_running : bool; ss_fault_proof_ready : bool;
  ss_page_fault_proof_ready : bool; ss_service_marked_faulted : bool; ss_handoff_preserved : bool;
  ss_service_count : Z; ss_running_count : Z; ss_faulted_count : Z; ss_total_faults : Z; ss_total_restarts : Z;
  ss_last_fault_service_id : Z; ss_last_fault_pid : Z; ss_restart_throttled_count : Z;
  ss_permanently_faulted_count : Z; ss_shutdown_in_progress : bool;
  ss_last_fault_far : Z; ss_last_fault_elr : Z; ss_last_fault_esr : Z;
}.
#[export] Instance supervisor_state_eta : Eta supervisor_state := λ s,
  mk_sstate (ss_initialised s) (ss_registry_ready s) (ss_services_running s) (ss_fault_proof_ready s)
    (ss_page_fault_proof_ready s) (ss_service_marked_faulted s) (ss_handoff_preserved s)
    (ss_service_count s) (ss_running_count s) (ss_faulted_count s) (ss_total_faults s) (ss_total_restarts s)
    (ss_last_fault_service_id s) (ss_last_fault_pid s) (ss_restart_throttled_count s)
    (ss_permanently_faulted_count s) (ss_shutdown_in_progress s)
    (ss_last_fault_far s) (ss_last_fault_elr s) (ss_last_fault_esr s).
Definition zero_sstate : supervisor_state :=
  mk_sstate false false false false false false false 0 0 0 0 0 0 0 0 0 false 0 0 0.

Record supervisor := mk_supervisor { supervised : list service; sup : supervisor_state; next_supervised_id : Z }.
#[export] Instance supervisor_eta : Eta supervisor := λ s,
  mk_supervisor (supervised s) (sup s) (next_supervised_id s).

Definition supervisor_copy_name (src : option string) : string :=
  str_take (AEGIS_SUPERVISOR_NAME_MAX - 1) (default "unnamed"%string src).

Definition service_supervisor_init (s : supervisor) : supervisor :=
  mk_supervisor ((λ _, zero_service) <$> supervised s) (zero_sstate <| ss_initialised := true |>) 1.

Definition service_supervisor_get (id : Z) (s : supervisor) : option service :=
  if (id =? 0) || (ss_service_count (sup s) <? id) then None else supervised s !! Z.to_nat (id - 1).

(** [service_supervisor_find] and [service_supervisor_find_mut]: the index. *)
Definition service_supervisor_find (name : option string) (s : supervisor) : option nat :=
  n ← name;
  find_slot (λ v, negb (bool_decide (sv_state v = SUPERVISED_EMPTY)) && c_streq (sv_name v) n)
    (take (Z.to_nat (ss_service_count (sup s))) (supervised s)).

Definition upd_svc (i : nat) (f : service → service) (s : supervisor) : supervisor := s <| supervised ::= alter f i |>.
Definition upd_sup (f : supervisor_state → supervisor_state) (s : supervisor) : supervisor := s <| sup ::= f |>.

(** ** Registration *)

(** What the supervisor reads of a process descriptor. *)
Record proc_descriptor := mk_descriptor { pd_id : Z; pd_service_id : Z; pd_name : string }.

Definition new_service (id service_id pid : Z) (st : service_state) (policy : Z) (name : string) : service :=
  zero_service <| sv_id := id |> <| sv_service_id := service_id |> <| sv_pid := pid |> <| sv_state := st |>
    <| sv_policy := policy |> <| sv_name := supervisor_copy_name (Some name) |>
    <| sv_max_restarts := 5 |> <| sv_restart_window_ticks := 60 * 100 |> <| sv_base_backoff_ticks := 10 |>.

Definition append_service (st : service_state) (service_id pid policy : Z) (name : string) (s : supervisor) : supervisor :=
  s <| supervised ::= <[Z.to_nat (ss_service_count (sup s)) := new_service (next_supervised_id s) service_id pid st policy name]> |>
    <| next_supervised_id ::= λ n, u32 (n + 1) |>
    <| sup ::= λ b, b <| ss_service_count := ss_service_count b + 1 |> |>.

Definition service_supervisor_register_descriptor (proc : option proc_descriptor) (s : supervisor) : Z * supervisor :=
  if negb (ss_initialised (sup s)) then (AEGIS_EINVAL, s)
  else
    match proc with
    | None => (AEGIS_EINVAL, s)
    | Some p =>
        if (String.length (pd_name p) =? 0)%nat then (AEGIS_EINVAL, s)
        else if Z.of_nat AEGIS_SUPERVISOR_SERVICE_MAX <=? ss_service_count (sup s) then (AEGIS_ENOMEM, s)
        else if bool_decide (is_Some (service_supervisor_find (Some (pd_name p)) s)) then (AEGIS_EBUSY, s)
        else if (pd_id p =? 0) || (pd_service_id p =? 0) then (AEGIS_EINVAL, s)
        else
          let policy := Z.lor POLICY_RESTART_ON_FAULT (if next_supervised_id s =? 1 then POLICY_REQUIRED else 0) in
          let policy := if c_streq (pd_name p) "aegisd" || c_streq (pd_name p) "routerd" || c_streq (pd_name p) "rustmyadmin"
                        then Z.lor policy POLICY_CONTROL_PLANE else policy in
          (AEGIS_OK, append_service SUPERVISED_REGISTERED (pd_service_id p) (pd_id p) policy (pd_name p) s)
    end.

Fixpoint register_all_descriptors (l : list proc_descriptor) (s : supervisor) : Z * supervisor :=
  match l with
  | [] => (AEGIS_OK, s)
  | p :: l =>
      let (rc, s) := service_supervisor_register_descriptor (Some p) s in
      if rc =? AEGIS_OK then register_all_descriptors l s else (rc, s)
  end.

Definition service_supervisor_register_user_processes (launch_ready roundtrip_ready : bool)
    (descriptors : list proc_descriptor) (s : supervisor) : Z * supervisor :=
  if negb (ss_initialised (sup s)) || negb launch_ready || negb roundtrip_ready then (AEGIS_EINVAL, s)
  else if negb (ss_service_count (sup s) =? 0) then (AEGIS_EBUSY, s)
  else if (length descriptors <? 4)%nat then (AEGIS_EINVAL, s)
  else
    let (rc, s) := register_all_descriptors (take AEGIS_SUPERVISOR_SERVICE_MAX descriptors) s in
    if negb (rc =? AEGIS_OK) then (rc, s)
    else
      let s := upd_sup (λ b, b <| ss_registry_ready := 4 <=? ss_service_count b |>) s in
      (if ss_registry_ready (sup s) then AEGIS_OK else AEGIS_EINVAL, s).

Fixpoint start_loop (i n : nat) (s : supervisor) : bool * supervisor :=
  match n with
  | O => (true, s)
  | S n =>
      match supervised s !! i with
      | Some v =>
          if bool_decide (sv_state v = SUPERVISED_REGISTERED) || bool_decide (sv_state v = SUPERVISED_STARTING)
          then start_loop (S i) n
                 (upd_sup (λ b, b <| ss_running_count := u32 (ss_running_count b + 1) |>)
                    (upd_svc i (λ v, v <| sv_state := SUPERVISED_RUNNING |>) s))
          else (false, s)
      | None => (false, s)
      end
  end.

Definition service_supervisor_start_registered (s : supervisor) : Z * supervisor :=
  if negb (ss_registry_ready (sup s)) then (AEGIS_EINVAL, s)
  else
    let (ok, s) := start_loop 0 (Z.to_nat (ss_service_count (sup s)))
                     (upd_sup (λ b, b <| ss_running_count := 0 |>) s) in
    if negb ok then (AEGIS_EINVAL, s)
    else
      let s := upd_sup (λ b, b <| ss_services_running := ss_running_count b =? ss_service_count b |>) s in
      (if ss_services_running (sup s) then AEGIS_OK else AEGIS_EINVAL, s).

(** ** Faults and exits *)

Definition dec_if (b : bool) (n : Z) : Z := if b && negb (n =? 0) then n - 1 else n.
Definition state_is (st : service_state) (v : service) : bool := bool_decide (sv_state v = st).

Definition service_supervisor_record_fault (name : option string) (kind : fault_kind)
    (fault : option exception_fault) (exit_code : Z) (s : supervisor) : Z * supervisor :=
  if negb (ss_services_running (sup s)) then (AEGIS_EINVAL, s)
  else
    match name, fault with
    | Some _, Some f =>
        match service_supervisor_find name s ≫= λ i, pair i <$> supervised s !! i with
        | None => (AEGIS_ENOENT, s)
        | Some (i, v) =>
            if negb (state_is SUPERVISED_RUNNING v) then (AEGIS_EINVAL, s)
            else if bool_decide (kind = FAULT_PAGE_FAULT) && negb (x_is_page_fault f) then (AEGIS_EINVAL, s)
            else
              let count := u32 (sv_fault_count v + 1) in
              (AEGIS_OK,
               upd_sup (λ b, b <| ss_total_faults := u32 (ss_total_faults b + 1) |>
                               <| ss_faulted_count := u32 (ss_faulted_count b + 1) |>
                               <| ss_running_count := dec_if true (ss_running_count b) |>
                               <| ss_last_fault_service_id := sv_service_id v |> <| ss_last_fault_pid := sv_pid v |>
                               <| ss_last_fault_far := x_far f |> <| ss_last_fault_elr := x_elr f |>
                               <| ss_last_fault_esr := x_esr f |> <| ss_fault_proof_ready := true |>
                               <| ss_page_fault_proof_ready := bool_decide (kind = FAULT_PAGE_FAULT) && x_is_page_fault f |>
                               <| ss_service_marked_faulted := true |> <| ss_handoff_preserved := true |>)
                 (upd_svc i (λ v, v <| sv_fault_count := count |> <| sv_last_exit_code := exit_code |>
                                    <| sv_state := SUPERVISED_FAULTED |>
                                    <| sv_last_fault := mk_fault_record kind (sv_service_id v) (sv_pid v) count exit_code
                                         (x_esr f) (x_far f) (x_elr f) (x_ec f) (x_fsc f)
                                         (x_from_lower_el f) (x_write f) (x_is_page_fault f) |>) s))
        end
    | _, _ => (AEGIS_EINVAL, s)
    end.

Definition v44_esr : Z := Z.lor (Z.lor (Z.shiftl 0x24 26) (Z.shiftl 1 6)) 0x07.
Definition v44_fault : exception_fault := exception_decode_fault v44_esr 0x7ffffef000 0x4001000.

Definition service_supervisor_prepare_v44_fault_proof (s : supervisor) : Z * supervisor :=
  if negb (ss_registry_ready (sup s)) || negb (ss_services_running (sup s)) then (AEGIS_EINVAL, s)
  else if bool_decide (service_supervisor_find (Some "routerd"%string) s = None) then (AEGIS_ENOENT, s)
  else if negb (exception_fault_is_user_page_fault (Some v44_fault)) then (AEGIS_EINVAL, s)
  else service_supervisor_record_fault (Some "routerd"%string) FAULT_PAGE_FAULT (Some v44_fault) AEGIS_EPERM s.

Definition find_service (name : string) (s : supervisor) : option service :=
  service_supervisor_find (Some name) s ≫= (supervised s !!.).

Definition service_supervisor_selftest (s : supervisor) : Z :=
  let b := sup s in
  if negb (ss_initialised b) || negb (ss_registry_ready b) || (ss_service_count b <? 4) || negb (ss_services_running b)
     || negb (ss_fault_proof_ready b) || negb (ss_page_fault_proof_ready b) || negb (ss_service_marked_faulted b)
     || negb (ss_handoff_preserved b) || negb (ss_total_faults b =? 1) || negb (ss_faulted_count b =? 1)
  then AEGIS_EINVAL
  else
    match find_service "aegis-init" s, find_service "aegisd" s, find_service "routerd" s, find_service "rustmyadmin" s with
    | Some init, Some aegisd, Some router, Some admin =>
        if state_is SUPERVISED_RUNNING init && state_is SUPERVISED_RUNNING aegisd && state_is SUPERVISED_RUNNING admin
           && state_is SUPERVISED_FAULTED router && (sv_fault_count router =? 1)
           && bool_decide (f_kind (sv_last_fault router) = FAULT_PAGE_FAULT)
           && f_page_fault (sv_last_fault router) && f_lower_el (sv_last_fault router)
           && (f_far (sv_last_fault router) =? ss_last_fault_far b)
        then AEGIS_OK else AEGIS_EINVAL
    | _, _, _, _ => AEGIS_ENOENT
    end.

(** ** Native services *)

Definition refresh_running (b : supervisor_state) : supervisor_state :=
  b <| ss_services_running := negb (ss_running_count b =? 0) |>.

Definition service_supervisor_native_register_starting (name : option string) (service_id pid policy : Z)
    (s : supervisor) : Z * supervisor :=
  match name with
  | None => (AEGIS_EINVAL, s)
  | Some n =>
      if negb (ss_initialised (sup s)) || c_streq n EmptyString || (pid =? 0) then (AEGIS_EINVAL, s)
      else
        match service_supervisor_find name s ≫= λ i, pair i <$> supervised s !! i with
        | Some (i, v) =>
            let restarting := state_is SUPERVISED_FAULTED v || state_is SUPERVISED_STOPPED v in
            (AEGIS_OK,
             upd_sup (λ b, refresh_running
                             (b <| ss_running_count := dec_if (state_is SUPERVISED_RUNNING v) (ss_running_count b) |>
                                <| ss_faulted_count := dec_if (state_is SUPERVISED_FAULTED v) (ss_faulted_count b) |>))
               (upd_svc i (λ v, v <| sv_pid := pid |> <| sv_service_id := service_id |>
                                  <| sv_state := if restarting then SUPERVISED_RESTARTING else SUPERVISED_STARTING |>
                                  <| sv_policy := policy |>) s))
        | None =>
            if Z.of_nat AEGIS_SUPERVISOR_SERVICE_MAX <=? ss_service_count (sup s) then (AEGIS_ENOMEM, s)
            else (AEGIS_OK, upd_sup (λ b, b <| ss_registry_ready := true |>)
                              (append_service SUPERVISED_STARTING service_id pid policy n s))
        end
  end.

(** The service a name and a process number belong to. *)
Definition service_of (name : option string) (pid : Z) (s : supervisor) : option (nat * service) :=
  i ← service_supervisor_find name s;
  v ← supervised s !! i;
  if sv_pid v =? pid then Some (i, v) else None.

Definition service_supervisor_native_mark_running (name : option string) (pid : Z) (s : supervisor) : Z * supervisor :=
  if negb (ss_initialised (sup s)) || bool_decide (name = None) || (pid =? 0) then (AEGIS_EINVAL, s)
  else
    match service_of name pid s with
    | None => (AEGIS_ENOENT, s)
    | Some (i, v) =>
        (AEGIS_OK,
         upd_sup (λ b, refresh_running
                         (b <| ss_running_count := if state_is SUPERVISED_RUNNING v then ss_running_count b
                                                   else u32 (ss_running_count b + 1) |>
                            <| ss_faulted_count := dec_if (state_is SUPERVISED_FAULTED v) (ss_faulted_count b) |>))
           (upd_svc i (λ v, v <| sv_state := SUPERVISED_RUNNING |>) s))
    end.

(** What an exit at time [now] does to the record of the service. *)
Definition exit_service (pid exit_code now : Z) (v : service) : service :=
  let v := v <| sv_state := SUPERVISED_FAULTED |> <| sv_fault_count := u32 (sv_fault_count v + 1) |>
             <| sv_consecutive_failures := u32 (sv_consecutive_failures v + 1) |> <| sv_last_exit_code := exit_code |>
             <| sv_last_fault ::= λ f, f <| f_kind := FAULT_EXIT |> <| f_pid := pid |>
                                         <| f_service_id := sv_service_id v |> <| f_exit_code := exit_code |> |> in
  let v := if (sv_first_failure_tick v =? 0) || (sv_restart_window_ticks v <? u64 (now - sv_first_failure_tick v))
           then v <| sv_first_failure_tick := now |> <| sv_consecutive_failures := 1 |> else v in
  let shift := if 6 <? sv_consecutive_failures v then 6 else u32 (sv_consecutive_failures v - 1) in
  let v := v <| sv_next_restart_tick := u64 (now + u64 (Z.shiftl (sv_base_backoff_ticks v) shift)) |> in
  if negb (sv_max_restarts v =? 0) && (sv_max_restarts v <? sv_consecutive_failures v)
  then v <| sv_state := SUPERVISED_STOPPED |> else v.

Definition service_supervisor_native_mark_exit (name : option string) (pid exit_code now : Z) (s : supervisor)
    : Z * supervisor :=
  if negb (ss_initialised (sup s)) || bool_decide (name = None) || (pid =? 0) then (AEGIS_EINVAL, s)
  else
    match service_of name pid s with
    | None => (AEGIS_ENOENT, s)
    | Some (i, v) =>
        let v' := exit_service pid exit_code now v in
        (AEGIS_OK,
         upd_sup (λ b, refresh_running
                         (b <| ss_running_count := dec_if (state_is SUPERVISED_RUNNING v) (ss_running_count b) |>
                            <| ss_permanently_faulted_count :=
                                 if state_is SUPERVISED_STOPPED v' then u32 (ss_permanently_faulted_count b + 1)
                                 else ss_permanently_faulted_count b |>
                            <| ss_faulted_count := u32 (ss_faulted_count b + 1) |>
                            <| ss_total_faults := u32 (ss_total_faults b + 1) |>))
           (upd_svc i (λ _, v') s))
    end.

(** ** Restart policy *)

Definition service_supervisor_set_restart_policy (name : option string) (max_restarts window backoff : Z)
    (s : supervisor) : Z * supervisor :=
  match service_supervisor_find name s with
  | None => (AEGIS_EINVAL, s)
  | Some i =>
      if (max_restarts =? 0) || (window =? 0) || (backoff =? 0) then (AEGIS_EINVAL, s)
      else (AEGIS_OK, upd_svc i (λ v, v <| sv_max_restarts := max_restarts |> <| sv_restart_window_ticks := window |>
                                        <| sv_base_backoff_ticks := backoff |>) s)
  end.

(** The waiting time is what is written through the pointer, if it is not NULL. *)
Definition service_supervisor_restart_allowed (name : option string) (now_ticks : Z) (s : supervisor)
    : Z * option Z * supervisor :=
  match service_supervisor_find name s ≫= (supervised s !!.) with
  | None => (AEGIS_ENOENT, None, s)
  | Some v =>
      if ss_shutdown_in_progress (sup s) || sv_shutdown_requested v then (AEGIS_ESHUTDOWN, None, s)
      else if Z.land (sv_policy v) POLICY_RESTART_ON_FAULT =? 0 then (AEGIS_EPERM, None, s)
      else if state_is SUPERVISED_STOPPED v
              || negb (sv_max_restarts v =? 0) && (sv_max_restarts v <? sv_consecutive_failures v)
      then (AEGIS_EPERM, None, s)
      else if now_ticks <? sv_next_restart_tick v
      then (AEGIS_EAGAIN, Some (sv_next_restart_tick v - now_ticks),
            upd_sup (λ b, b <| ss_restart_throttled_count := u32 (ss_restart_throttled_count b + 1) |>) s)
      else (AEGIS_OK, Some 0, s)
  end.

Definition service_supervisor_note_restart (name : option string) (new_pid now_ticks : Z) (s : supervisor)
    : Z * supervisor :=
  match service_supervisor_find name s ≫= λ i, pair i <$> supervised s !! i with
  | None => (AEGIS_EINVAL, s)
  | Some (i, v) =>
      if new_pid =? 0 then (AEGIS_EINVAL, s)
      else if ss_shutdown_in_progress (sup s) || sv_shutdown_requested v then (AEGIS_ESHUTDOWN, s)
      else
        (AEGIS_OK,
         upd_sup (λ b, b <| ss_faulted_count := dec_if (state_is SUPERVISED_FAULTED v) (ss_faulted_count b) |>
                         <| ss_total_restarts := u32 (ss_total_restarts b + 1) |>)
           (upd_svc i (λ v, v <| sv_pid := new_pid |> <| sv_state := SUPERVISED_RESTARTING |>
                              <| sv_restart_count := u32 (sv_restart_count v + 1) |>
                              <| sv_next_restart_tick := now_ticks |>) s))
  end.

Definition service_supervisor_request_shutdown (name : option string) (s : supervisor) : Z * supervisor :=
  match service_supervisor_find name s ≫= λ i, pair i <$> supervised s !! i with
  | None => (AEGIS_ENOENT, s)
  | Some (i, v) =>
      (AEGIS_OK,
       upd_sup (λ b, b <| ss_running_count := dec_if (state_is SUPERVISED_RUNNING v) (ss_running_count b) |>)
         (upd_svc i (λ v, v <| sv_shutdown_requested := true |> <| sv_state := SUPERVISED_STOPPED |>) s))
  end.

Definition service_supervisor_begin_shutdown (s : supervisor) : supervisor :=
  mk_supervisor
    (imap (λ i v, if (i <? Z.to_nat (ss_service_count (sup s)))%nat then v <| sv_shutdown_requested := true |> else v)
       (supervised s))
    ((sup s) <| ss_shutdown_in_progress := true |>) (next_supervised_id s).

(** ** Sequences of operations *)

Inductive sup_op :=
| ORegister (name : option string) (service_id pid policy : Z)
| ODescriptor (proc : option proc_descriptor)
| OStart
| ORunning (name : option string) (pid : Z)
| OExit (name : option string) (pid exit_code now : Z)
| OFault (name : option string) (kind : fault_kind) (fault : option exception_fault) (exit_code : Z)
| OPolicy (name : option string) (max_restarts window backoff : Z)
| OAllowed (name : option string) (now_ticks : Z)
| ORestart (name : option string) (new_pid now_ticks : Z)
| OShutdown (name : option string)
| OBegin.

Definition sup_exec (o : sup_op) (s : supervisor) : Z * supervisor :=
  match o with
  | ORegister n sid pid policy => service_supervisor_native_register_starting n sid pid policy s
  | ODescriptor p => service_supervisor_register_descriptor p s
  | OStart => service_supervisor_start_registered s
  | ORunning n pid => service_supervisor_native_mark_running n pid s
  | OExit n pid code now => service_supervisor_native_mark_exit n pid code now s
  | OFault n k f code => service_supervisor_record_fault n k f code s
  | OPolicy n m w b => service_supervisor_set_restart_policy n m w b s
  | OAllowed n now => let '(rc, _, s) := service_supervisor_restart_allowed n now s in (rc, s)
  | ORestart n pid now => service_supervisor_note_restart n pid now s
  | OShutdown n => service_supervisor_request_shutdown n s
  | OBegin => (AEGIS_OK, service_supervisor_begin_shutdown s)
  end.

Definition is_named (n : string) (v : service) : bool :=
  negb (bool_decide (sv_state v = SUPERVISED_EMPTY)) && c_streq (sv_name v) n.

Lemma is_named_true n v : is_named n v = true ↔ sv_state v ≠ SUPERVISED_EMPTY ∧ sv_name v = n.
Proof. unfold is_named. by rewrite andb_true_iff, negb_true_iff, bool_decide_eq_false, c_streq_spec. Qed.

Lemma find_Some n s i :
  service_supervisor_find (Some n) s = Some i ↔
  Z.of_nat i < ss_service_count (sup s) ∧
  (∃ v, supervised s !! i = Some v ∧ sv_state v ≠ SUPERVISED_EMPTY ∧ sv_name v = n) ∧
  ∀ j u, supervised s !! j = Some u → (j < i)%nat → is_named n u = false.
Proof.
  unfold service_supervisor_find. cbn [mbind option_bind]. fold (is_named n). rewrite find_slot_Some. split.
  - intros (v & Hv & Hn & Hmin). apply lookup_take_Some in Hv as [Hv Hi]. split_and!; [lia| |].
    + exists v. split; [done|]. by apply is_named_true.
    + intros j u Hu Hj. apply (Hmin j u); [|done]. apply lookup_take_Some. split; [done|lia].
  - intros (Hi & (v & Hv & Hn) & Hmin). exists v. split_and!.
    + apply lookup_take_Some. split; [done|lia].
    + by apply is_named_true.
    + intros j u [Hu _]%lookup_take_Some Hj. by eapply Hmin.
Qed.

(** The fields the restart budget depends on. *)
Definition budget (v : service) : Z * Z * Z * Z :=
  (sv_consecutive_failures v, sv_first_failure_tick v, sv_max_restarts v, sv_restart_window_ticks v).

(** An update of a service that keeps what it is found by. *)
Definition keeps (f : service → service) (v : service) : Prop :=
  sv_name (f v) = sv_name v ∧ sv_state v ≠ SUPERVISED_EMPTY ∧ sv_state (f v) ≠ SUPERVISED_EMPTY.

Lemma find_alter n s s' i k f v :
  service_supervisor_find (Some n) s = Some i → supervised s' = alter f k (supervised s) →
  ss_service_count (sup s') = ss_service_count (sup s) → (∀ u, supervised s !! k = Some u → keeps f u) →
  supervised s !! i = Some v →
  service_supervisor_find (Some n) s' = Some i ∧ supervised s' !! i = Some (if decide (k = i) then f v else v).
Proof.
  intros (Hi & (v0 & Hv0 & Hne & Hn) & Hmin)%find_Some Hs Hc Hk Hv.
  assert (v0 = v) as -> by congruence.
  assert (supervised s' !! i = Some (if decide (k = i) then f v else v)) as Hv'.
  { rewrite Hs. case_decide as E; [subst; by rewrite list_lookup_alter_eq, Hv|by rewrite list_lookup_alter_ne]. }
  split; [|done]. apply find_Some. rewrite Hc. split; [done|]. split.
  - eexists. split; [exact Hv'|]. case_decide; [subst; destruct (Hk v Hv) as (? & ? & ?); by split; congruence|done].
  - intros j u Hu Hj. rewrite Hs in Hu. destruct (decide (k = j)) as [->|Hkj].
    + rewrite list_lookup_alter_eq in Hu. apply fmap_Some in Hu as (u0 & Hu0 & ->).
      destruct (Hk u0 Hu0) as (Hnm & ? & ?). specialize (Hmin j u0 Hu0 Hj).
      apply not_true_is_false. rewrite is_named_true. intros [_ E]. apply not_true_iff_false in Hmin.
      apply Hmin. apply is_named_true. split; [done|congruence].
    + rewrite list_lookup_alter_ne in Hu by done. by eapply Hmin.
Qed.

Lemma find_append n s s' i c x v :
  service_supervisor_find (Some n) s = Some i → supervised s' = <[c := x]> (supervised s) →
  (i < c)%nat → ss_service_count (sup s) ≤ ss_service_count (sup s') → supervised s !! i = Some v →
  service_supervisor_find (Some n) s' = Some i ∧ supervised s' !! i = Some v.
Proof.
  intros (Hi & (v0 & Hv0 & Hne & Hn) & Hmin)%find_Some Hs Hic Hc Hv.
  assert (∀ j, (j < c)%nat → supervised s' !! j = supervised s !! j) as Hsame
    by (intros; rewrite Hs; apply list_lookup_insert_ne; lia).
  rewrite Hsame by done. split; [|done]. apply find_Some. split; [lia|]. split.
  - exists v0. by rewrite Hsame.
  - intros j u Hu Hj. rewrite Hsame in Hu by lia. by eapply Hmin.
Qed.

(** A service found under a name. *)
Lemma found_inv name s k u :
  (service_supervisor_find name s ≫= λ i, pair i <$> supervised s !! i) = Some (k, u) →
  ∃ n, name = Some n ∧ service_supervisor_find (Some n) s = Some k ∧ supervised s !! k = Some u ∧
       sv_state u ≠ SUPERVISED_EMPTY ∧ sv_name u = n.
Proof.
  destruct name as [n|]; [|done]. destruct (service_supervisor_find (Some n) s) as [k'|] eqn:E; [|done].
  cbn [mbind option_bind]. intros (u' & Hu & [= -> ->])%fmap_Some. exists n. split_and!; try done.
  all: apply find_Some in E as (_ & (v & Hv & Hne & Hn) & _); congruence.
Qed.

Lemma found_None name s :
  (service_supervisor_find name s ≫= λ i, pair i <$> supervised s !! i) = None → service_supervisor_find name s = None.
Proof.
  destruct name as [n|]; [|done]. destruct (service_supervisor_find (Some n) s) as [k|] eqn:E; [|done].
  apply find_Some in E as (_ & (v & Hv & _) & _). cbn. by rewrite Hv.
Qed.

Lemma service_of_inv name pid s k u :
  service_of name pid s = Some (k, u) →
  sv_pid u = pid ∧ (service_supervisor_find name s ≫= λ i, pair i <$> supervised s !! i) = Some (k, u).
Proof.
  unfold service_of. destruct (service_supervisor_find name s) as [i|]; [|done]. cbn [mbind option_bind].
  destruct (supervised s !! i) as [v|]; [|done]. cbn. destruct (Z.eqb_spec (sv_pid v) pid); [|done]. by intros [= -> ->].
Qed.

(** What an operation leaves of the service found under [n] in slot [i]. *)
Definition stays (n : string) (i : nat) (v : service) (s' : supervisor) (v' : service) : Prop :=
  service_supervisor_find (Some n) s' = Some i ∧ supervised s' !! i = Some v'.

Lemma stays_refl n i v s :
  service_supervisor_find (Some n) s = Some i → supervised s !! i = Some v → ∃ v', stays n i v s v' ∧ budget v' = budget v.
Proof. intros. by exists v. Qed.

Lemma stays_alter n i v s s' k f name u :
  service_supervisor_find (Some n) s = Some i → supervised s !! i = Some v →
  (service_supervisor_find name s ≫= λ i, pair i <$> supervised s !! i) = Some (k, u) →
  supervised s' = alter f k (supervised s) → ss_service_count (sup s') = ss_service_count (sup s) →
  sv_name (f u) = sv_name u → sv_state (f u) ≠ SUPERVISED_EMPTY →
  ∃ v', stays n i v s' v' ∧ v' = if decide (name = Some n) then f v else v.
Proof.
  intros Hf Hv (n' & -> & Hk & Hu & Hne & Hn)%found_inv Hs Hc Hfn Hfs.
  destruct (find_alter n s s' i k f v Hf Hs Hc) as [Hf' Hv']; [|done|].
  { intros u' Hu'. assert (u' = u) as -> by congruence. done. }
  exists (if decide (k = i) then f v else v). split; [done|].
  destruct (decide (Some n' = Some n)) as [[= ->]|Hnn].
  - rewrite decide_True; [done|]. congruence.
  - rewrite decide_False; [done|]. intros ->. apply Hnn. f_equal.
    apply find_Some in Hf as (_ & (v0 & Hv0 & _ & Hn0) & _). congruence.
Qed.

Lemma start_loop_stays n i v lo m s :
  service_supervisor_find (Some n) s = Some i → supervised s !! i = Some v →
  ∃ v', stays n i v (start_loop lo m s).2 v' ∧ budget v' = budget v.
Proof.
  revert lo v s. induction m as [|m IH]; intros lo v s Hf Hv; [by apply stays_refl|]. cbn [start_loop].
  destruct (supervised s !! lo) as [u|] eqn:Hu; [|by apply stays_refl].
  destruct (bool_decide (sv_state u = SUPERVISED_REGISTERED) || bool_decide (sv_state u = SUPERVISED_STARTING)) eqn:Hst;
    [|by apply stays_refl].
  assert (sv_state u ≠ SUPERVISED_EMPTY) as Hne by (intros E; by rewrite E in Hst).
  set (s1 := upd_sup _ _). destruct (find_alter n s s1 i lo (λ v, v <| sv_state := SUPERVISED_RUNNING |>) v) as [Hf1 Hv1];
    [done..| |done|].
  { intros u' Hu'. assert (u' = u) as -> by congruence. done. }
  destruct (IH (S lo) _ s1 Hf1 Hv1) as (v' & Hst' & Hb). exists v'. split; [done|]. rewrite Hb. by case_decide.
Qed.

Lemma find_upd_sup name g s :
  ss_service_count (g (sup s)) = ss_service_count (sup s) →
  service_supervisor_find name (upd_sup g s) = service_supervisor_find name s.
Proof. intros Hg. unfold service_supervisor_find. cbn [sup supervised upd_sup set_field]. cbn. by rewrite Hg. Qed.

Lemma stays_upd_sup n i v s v' g :
  ss_service_count (g (sup s)) = ss_service_count (sup s) → stays n i v s v' → stays n i v (upd_sup g s) v'.
Proof. intros Hg [Hf Hv]. split; [by rewrite find_upd_sup|done]. Qed.

(** The operation changed the service found by [Hk]. *)
Ltac stays_by_alter Hf Hv Hk :=
  match goal with
  | |- ∃ v', stays ?n ?i ?v (_, ?X).2 v' ∧ _ =>
      destruct (stays_alter n i v _ X _ _ _ _ Hf Hv Hk eq_refl eq_refl) as (v' & Hst & ->);
        [try done|try first [done|by apply found_inv in Hk as (? & _ & _ & _ & ? & _)]|eexists; split; [exact Hst|]]
  end.

Ltac stays_by_append Hf Hv :=
  eexists; split; [|reflexivity];
  eapply find_append; [exact Hf|reflexivity|apply find_Some in Hf; lia|cbn; lia|exact Hv].

Lemma find_pair name s k :
  service_supervisor_find name s = Some k →
  ∃ u, (service_supervisor_find name s ≫= λ i, pair i <$> supervised s !! i) = Some (k, u).
Proof.
  destruct name as [n|]; [|done]. intros Hk. pose proof Hk as (_ & (u & Hu & _) & _)%find_Some.
  exists u. rewrite Hk. cbn. by rewrite Hu.
Qed.

Lemma exec_stays o n i v s :
  service_supervisor_find (Some n) s = Some i → supervised s !! i = Some v →
  ∃ v', stays n i v (sup_exec o s).2 v' ∧
    match o with
    | OExit name pid code now =>
        v' = if decide (name = Some n ∧ (sup_exec o s).1 = AEGIS_OK) then exit_service pid code now v else v
    | OPolicy name _ _ _ => name = Some n ∨ budget v' = budget v
    | _ => budget v' = budget v
    end.
Proof.
  intros Hf Hv. destruct o as [name sid pid policy|proc| |name pid|name pid code now|name kind f code|name m w b|name now|name pid now|name|];
    cbn [sup_exec].
  - unfold service_supervisor_native_register_starting. destruct name as [nm|]; [|by apply stays_refl].
    destruct (_ || _ || _); [by apply stays_refl|].
    destruct (_ ≫= _) as [[k u]|] eqn:Hk.
    + stays_by_alter Hf Hv Hk; [cbn; by destruct (_ || _)|by case_decide].
    + case_match; [by apply stays_refl|]. stays_by_append Hf Hv.
  - unfold service_supervisor_register_descriptor. destruct (negb _); [by apply stays_refl|].
    destruct proc as [p|]; [|by apply stays_refl]. do 4 (case_match; [by apply stays_refl|]). stays_by_append Hf Hv.
  - unfold service_supervisor_start_registered. destruct (negb _); [by apply stays_refl|].
    destruct (start_loop_stays n i v 0 (Z.to_nat (ss_service_count (sup s)))
                (upd_sup (λ b, b <| ss_running_count := 0 |>) s)) as (v' & Hst & Hb); [by rewrite find_upd_sup|done|].
    destruct (start_loop _ _ _) as [ok s1]. cbn [snd] in Hst. destruct (negb ok); [by exists v'|].
    exists v'. split; [by apply stays_upd_sup|done].
  - unfold service_supervisor_native_mark_running. destruct (_ || _ || _); [by apply stays_refl|].
    destruct (service_of name pid s) as [[k u]|] eqn:Hk; [|by apply stays_refl]. apply service_of_inv in Hk as [_ Hk].
    stays_by_alter Hf Hv Hk. by case_decide.
  - unfold service_supervisor_native_mark_exit. destruct (_ || _ || _).
    { exists v. split; [done|]. rewrite decide_False; [done|]. by intros [_ ?]. }
    destruct (service_of name pid s) as [[k u]|] eqn:Hk.
    2:{ exists v. split; [done|]. rewrite decide_False; [done|]. by intros [_ ?]. }
    apply service_of_inv in Hk as [Hpid Hk].
    destruct (stays_alter n i v s (upd_svc k (λ _, exit_service pid code now u) s) k _ _ u Hf Hv Hk eq_refl eq_refl)
      as (v' & Hst & ->).
    { unfold exit_service. by destruct (_ || _), (_ && _). }
    { unfold exit_service. by destruct (_ || _), (_ && _). }
    eexists. split; [exact Hst|]. apply found_inv in Hk as (n' & -> & Hk & Hu & _).
    destruct (decide (Some n' = Some n)) as [[= ->]|Hnn].
    + rewrite decide_True by done. congruence.
    + rewrite decide_False; [done|]. by intros [? _].
  - unfold service_supervisor_record_fault. destruct (negb _); [by apply stays_refl|].
    destruct name as [nm|]; [|by apply stays_refl]. destruct f as [f|]; [|by apply stays_refl].
    destruct (_ ≫= _) as [[k u]|] eqn:Hk; [|by apply stays_refl].
    do 2 (case_match; [by apply stays_refl|]).
    stays_by_alter Hf Hv Hk. by case_decide.
  - unfold service_supervisor_set_restart_policy.
    destruct (service_supervisor_find name s) as [k|] eqn:Hk; [|exists v; split; [done|by right]].
    case_match; [exists v; split; [done|by right]|].
    destruct (find_pair name s k Hk) as [u Hu]. stays_by_alter Hf Hv Hu. case_decide; [by left|by right].
  - unfold service_supervisor_restart_allowed. repeat case_match; simplify_eq; (exists v; split; [|done]).
    all: first [by apply stays_upd_sup|done].
  - unfold service_supervisor_note_restart. destruct (_ ≫= _) as [[k u]|] eqn:Hk; [|by apply stays_refl].
    do 2 (case_match; [by apply stays_refl|]). stays_by_alter Hf Hv Hk. by case_decide.
  - unfold service_supervisor_request_shutdown. destruct (_ ≫= _) as [[k u]|] eqn:Hk; [|by apply stays_refl].
    stays_by_alter Hf Hv Hk. by case_decide.
  - cbn [snd]. set (g := λ (j : nat) (u : service), if (j <? Z.to_nat (ss_service_count (sup s)))%nat
                                            then u <| sv_shutdown_requested := true |> else u).
    assert (∀ j, supervised (service_supervisor_begin_shutdown s) !! j = g j <$> supervised s !! j) as Hg
      by (intros; apply list_lookup_imap).
    assert (∀ j u, sv_name (g j u) = sv_name u ∧ sv_state (g j u) = sv_state u ∧ budget (g j u) = budget u) as Hgs
      by (intros; unfold g; by case_match).
    exists (g i v). split; [|apply Hgs]. split; [|by rewrite Hg, Hv].
    apply find_Some in Hf as (Hi & (v0 & Hv0 & Hne & Hn) & Hmin). apply find_Some. split; [done|]. split.
    + exists (g i v). rewrite Hg, Hv. destruct (Hgs i v) as (-> & -> & _). assert (v0 = v) as -> by congruence. done.
    + intros j u Hu Hj. rewrite Hg in Hu. apply fmap_Some in Hu as (u0 & Hu0 & ->).
      specialize (Hmin j u0 Hu0 Hj). unfold is_named in *. by destruct (Hgs j u0) as (-> & -> & _).
Qed.

(** ** The restart budget *)

Definition run_sup (ops : list sup_op) (s : supervisor) : supervisor := foldl (λ s o, (sup_exec o s).2) s ops.

(** The exits of [n] that the supervisor accepted. *)
Fixpoint exits (n : string) (ops : list sup_op) (s : supervisor) : nat :=
  match ops with
  | [] => 0
  | o :: ops =>
      let rest := exits n ops (sup_exec o s).2 in
      match o with
      | OExit name _ _ _ => if decide (name = Some n ∧ (sup_exec o s).1 = AEGIS_OK) then S rest else rest
      | _ => rest
      end
  end.

(** The clock is read between [lo] and [hi] and does not go back. *)
Fixpoint clocked (lo hi : Z) (ops : list sup_op) : Prop :=
  match ops with
  | [] => True
  | OExit _ _ _ now :: ops => lo ≤ now ≤ hi ∧ clocked now hi ops
  | _ :: ops => clocked lo hi ops
  end.

(** The policy of [n] is not changed. *)
Definition same_policy (n : string) (o : sup_op) : Prop :=
  match o with OPolicy name _ _ _ => name ≠ Some n | _ => True end.

(** An exit within the window of the first failure counts one more failure. *)
Lemma exit_service_budget pid code now v k t m w T :
  budget v = (Z.of_nat k, t, m, w) → (k = 0%nat ∧ t = 0) ∨ T ≤ t ≤ now →
  0 < T ≤ now → now ≤ T + w → T + w < 2 ^ 64 → Z.of_nat k + 1 < 2 ^ 32 →
  ∃ t', budget (exit_service pid code now v) = (Z.of_nat (S k), t', m, w) ∧ T ≤ t' ≤ now ∧
        (m ≠ 0 → m < Z.of_nat (S k) → sv_state (exit_service pid code now v) = SUPERVISED_STOPPED).
Proof.
  intros [= Hc Ht Hm Hw] Hcase HT Hnow Hov Hk. unfold exit_service. set (v1 := v <| sv_state := _ |> <| _ := _ |> <| _ := _ |> <| _ := _ |> <| _ ::= _ |>).
  assert (budget v1 = (Z.of_nat (S k), t, m, w)) as Hb1.
  { unfold budget, v1. cbn. rewrite Hc, Ht, Hm, Hw, u32_small by lia. do 3 f_equal. lia. }
  clearbody v1.
  set (v2 := if _ || _ then _ else v1).
  assert (∃ t', budget v2 = (Z.of_nat (S k), t', m, w) ∧ T ≤ t' ≤ now) as (t' & Hb2 & Ht').
  { unfold v2. injection Hb1 as E1 E2 E3 E4. rewrite E2, E4. destruct Hcase as [[-> ->]|Hr].
    - rewrite Z.eqb_refl. cbn [orb]. exists now. split; [|lia]. unfold budget. cbn. by rewrite E3, E4.
    - rewrite (proj2 (Z.eqb_neq t 0)), u64_small, (proj2 (Z.ltb_ge _ _)) by lia. cbn [orb].
      exists t. split; [|done]. unfold budget. by rewrite E1, E2, E3, E4. }
  clearbody v2. injection Hb2 as E1 E2 E3 E4. exists t'.
  cbn [sv_max_restarts sv_consecutive_failures set_field]. rewrite E1, E3.
  split; [unfold budget; destruct (_ && _); cbn; by rewrite ?E1, ?E2, ?E3, ?E4|]. split; [done|].
  intros Hm0 Hlt. rewrite (proj2 (Z.eqb_neq m 0)), (proj2 (Z.ltb_lt _ _)) by done. done.
Qed.

Lemma budget_run n i m w T hi ops lo s v k t :
  service_supervisor_find (Some n) s = Some i → supervised s !! i = Some v →
  budget v = (Z.of_nat k, t, m, w) → (k = 0%nat ∧ t = 0) ∨ T ≤ t ≤ lo →
  0 < T ≤ lo → hi ≤ T + w → T + w < 2 ^ 64 → clocked lo hi ops → Forall (same_policy n) ops →
  Z.of_nat k + Z.of_nat (length ops) < 2 ^ 32 →
  ∃ v' t', service_supervisor_find (Some n) (run_sup ops s) = Some i ∧ supervised (run_sup ops s) !! i = Some v' ∧
           budget v' = (Z.of_nat (k + exits n ops s), t', m, w).
Proof.
  revert lo s v k t. induction ops as [|o ops IH]; intros lo s v k t Hf Hv Hb Hcase HT Hhi Hov Hcl Hsp Hk.
  { exists v, t. rewrite Nat.add_0_r. done. }
  apply Forall_cons in Hsp as [Ho Hsp]. cbn [length] in Hk.
  destruct (exec_stays o n i v s Hf Hv) as (v1 & [Hf1 Hv1] & Heff).
  unfold run_sup. cbn [foldl exits]. fold (run_sup ops (sup_exec o s).2).
  assert (budget v1 = budget v → clocked lo hi ops → ∃ v' t',
    service_supervisor_find (Some n) (run_sup ops (sup_exec o s).2) = Some i ∧
    supervised (run_sup ops (sup_exec o s).2) !! i = Some v' ∧
    budget v' = (Z.of_nat (k + exits n ops (sup_exec o s).2), t', m, w)) as Hsame.
  { intros Hb1 Hcl1. eapply (IH lo _ v1 k t Hf1 Hv1); try done; [congruence|lia]. }
  destruct o as [| | | |name pid code now| |name ? ? ?| | | |]; try (by apply Hsame).
  - destruct Hcl as [Hnow Hcl]. case_decide as Hd.
    + destruct (exit_service_budget pid code now v k t m w T Hb) as (t1 & Hb1 & Ht1 & _); [|lia..|].
      { destruct Hcase as [?|?]; [by left|right; lia]. }
      subst v1. rewrite Nat.add_succ_r, <-Nat.add_succ_l.
      eapply (IH now _ _ (S k) t1 Hf1 Hv1); try done; [right; lia|lia..].
    + subst v1. apply (IH now _ v k t Hf1 Hv1); try done; [|lia..].
      destruct Hcase as [?|?]; [by left|right; lia].
  - destruct Heff as [->|Heff]; [done|]. by apply Hsame.
Qed.

(** C6: crash loops are cut. Take a service that has not failed yet, with restart
    limit [m] and window [w], and any sequence of supervisor operations during one
    window (any services, any order; only the service's own policy is left alone).
    Once the supervisor has accepted more than [m] exits of the service, it never
    allows a restart again during the window: [service_supervisor_restart_allowed]
    answers AEGIS_EPERM, or AEGIS_ESHUTDOWN when the system goes down. *)
Theorem restart_budget n i v s ops T now :
  service_supervisor_find (Some n) s = Some i → supervised s !! i = Some v →
  sv_consecutive_failures v = 0 → sv_first_failure_tick v = 0 → 0 < sv_max_restarts v →
  0 < T → T + sv_restart_window_ticks v < 2 ^ 64 → clocked T (T + sv_restart_window_ticks v) ops →
  Forall (same_policy n) ops → Z.of_nat (length ops) < 2 ^ 32 →
  sv_max_restarts v < Z.of_nat (exits n ops s) →
  (service_supervisor_restart_allowed (Some n) now (run_sup ops s)).1.1 ∈ [AEGIS_EPERM; AEGIS_ESHUTDOWN].
Proof.
  intros Hf Hv Hc Ht Hm HT Hov Hcl Hsp Hlen Hex.
  destruct (budget_run n i (sv_max_restarts v) (sv_restart_window_ticks v) T (T + sv_restart_window_ticks v) ops T s v 0 0)
    as (v' & t' & Hf' & Hv' & [= Hb _ Hb3 _]); try done; [unfold budget; by rewrite Hc, Ht|by left|lia..|].
  unfold service_supervisor_restart_allowed. rewrite Hf'. cbn [mbind option_bind]. rewrite Hv'.
  destruct (_ || _); [set_solver|]. destruct (_ =? 0); [set_solver|].
  rewrite Hb, Hb3, (proj2 (Z.eqb_neq _ _)), (proj2 (Z.ltb_lt _ _)), orb_true_r by lia. cbn. set_solver.
Qed.

(** The waiting time doubles. When a service with [k] failures in its current
    window exits at time [now] and its limit is not exceeded, the supervisor
    accepts the exit and delays the restart by the base time shifted left by [k]
    (at most 6): before that it answers AEGIS_EAGAIN with the remaining time,
    afterwards AEGIS_OK. *)
Theorem restart_backoff n i v s k now code now' :
  let wait := Z.shiftl (sv_base_backoff_ticks v) (Z.min (Z.of_nat k) 6) in
  ss_initialised (sup s) = true → ss_shutdown_in_progress (sup s) = false →
  service_supervisor_find (Some n) s = Some i → supervised s !! i = Some v →
  sv_pid v ≠ 0 → sv_shutdown_requested v = false → Z.land (sv_policy v) POLICY_RESTART_ON_FAULT ≠ 0 →
  sv_consecutive_failures v = Z.of_nat k → Z.of_nat k < sv_max_restarts v < 2 ^ 32 →
  (k = 0%nat ∧ sv_first_failure_tick v = 0 ∨
   0 < sv_first_failure_tick v ≤ now ∧ now - sv_first_failure_tick v ≤ sv_restart_window_ticks v) →
  0 < now → 0 ≤ wait → now + wait < 2 ^ 64 →
  let (rc, s') := service_supervisor_native_mark_exit (Some n) (sv_pid v) code now s in
  rc = AEGIS_OK ∧
  (service_supervisor_restart_allowed (Some n) now' s').1 =
    if now' <? now + wait then (AEGIS_EAGAIN, Some (now + wait - now')) else (AEGIS_OK, Some 0).
Proof.
  intros wait Hi Hsd Hf Hv Hpid Hreq Hpol Hk Hm Hwin Hnow Hw0 Hw.
  pose proof (exec_stays (OExit (Some n) (sv_pid v) code now) n i v s Hf Hv) as Hst. cbn [sup_exec] in Hst.
  unfold service_supervisor_native_mark_exit, service_of in *. rewrite Hi, Hf in *. cbn [mbind option_bind] in *.
  rewrite Hv in *. cbn [negb orb mbind option_bind] in *. rewrite Z.eqb_refl in *.
  rewrite (proj2 (Z.eqb_neq (sv_pid v) 0)), bool_decide_eq_false_2 in * by done. cbn [orb fst snd] in *.
  split; [done|]. destruct Hst as (v' & [Hf' Hv'] & ->). rewrite decide_True in Hv' by done.
  unfold service_supervisor_restart_allowed. rewrite Hf'. cbn [mbind option_bind]. rewrite Hv'.
  match goal with |- context [ss_shutdown_in_progress ?b] => change (ss_shutdown_in_progress b) with (ss_shutdown_in_progress (sup s)) end.
  rewrite Hsd. cbn [orb]. unfold exit_service. set (v1 := if _ || _ then _ else _).
  assert (sv_consecutive_failures v1 = Z.of_nat (S k) ∧ sv_max_restarts v1 = sv_max_restarts v ∧
          sv_base_backoff_ticks v1 = sv_base_backoff_ticks v ∧ sv_state v1 = SUPERVISED_FAULTED ∧
          sv_shutdown_requested v1 = false ∧ sv_policy v1 = sv_policy v) as (E1 & E2 & E3 & E4 & E5 & E6).
  { unfold v1. cbn -[u32 u64 Z.of_nat]. rewrite Hk, (u32_small (Z.of_nat k + 1)) by lia.
    destruct Hwin as [[-> ->]|Hwin]; [by rewrite Z.eqb_refl|].
    rewrite (proj2 (Z.eqb_neq _ 0)), u64_small, (proj2 (Z.ltb_ge _ _)) by lia. cbn. split_and!; done || lia. }
  clearbody v1. cbn -[u32 u64 Z.of_nat Z.shiftl Z.land]. rewrite E1, E2, (proj2 (Z.ltb_ge _ (Z.of_nat (S k)))), andb_false_r by lia.
  unfold state_is. cbn -[u32 u64 Z.of_nat Z.shiftl Z.land].
  rewrite ?E1, ?E2, ?E3, ?E4, ?E5, ?E6.
  rewrite (proj2 (Z.eqb_neq _ _) Hpol), (proj2 (Z.ltb_ge _ (Z.of_nat (S k)))), andb_false_r by lia.
  replace (if 6 <? Z.of_nat (S k) then 6 else u32 (Z.of_nat (S k) - 1)) with (Z.min (Z.of_nat k) 6).
  2:{ destruct (Z.ltb_spec 6 (Z.of_nat (S k))); [lia|]. rewrite u32_small; lia. }
  fold wait. rewrite (u64_small wait), u64_small by lia. cbn. by destruct (now' <? now + wait).
Qed.

(** ** The count of running services *)

Definition running (l : list service) : nat := length (filter (λ v, sv_state v = SUPERVISED_RUNNING) l).

Record sup_wf (s : supervisor) : Prop := {
  wf_length : length (supervised s) = AEGIS_SUPERVISOR_SERVICE_MAX;
  wf_count : 0 ≤ ss_service_count (sup s) ≤ 16;
  wf_unused i v : supervised s !! i = Some v → ss_service_count (sup s) ≤ Z.of_nat i → sv_state v = SUPERVISED_EMPTY;
  wf_used i v : supervised s !! i = Some v → Z.of_nat i < ss_service_count (sup s) → sv_state v ≠ SUPERVISED_EMPTY;
  wf_running : ss_running_count (sup s) = Z.of_nat (running (supervised s));
}.

Definition one (v : service) : nat := if decide (sv_state v = SUPERVISED_RUNNING) then 1 else 0.

Lemma running_cons v l : running (v :: l) = (one v + running l)%nat.
Proof. unfold running, one. rewrite filter_cons. by case_decide. Qed.

Lemma running_alter f k l v :
  l !! k = Some v → (running (alter f k l) + one v = running l + one (f v))%nat.
Proof.
  revert k. induction l as [|x l IH]; intros [|k]; try done.
  - intros [= ->]. change (alter f 0%nat (v :: l)) with (f v :: l). rewrite !running_cons. lia.
  - intros Hk. change (alter f (S k) (x :: l)) with (x :: alter f k l). rewrite !running_cons. specialize (IH k Hk). lia.
Qed.

Lemma running_le l : (running l ≤ length l)%nat.
Proof. apply length_filter. Qed.

Lemma one_le v : (one v ≤ 1)%nat.
Proof. unfold one. case_decide; lia. Qed.


(** A change of one used service, with the counter adjusted. *)
Lemma sup_wf_alter s s' k f v :
  sup_wf s → supervised s !! k = Some v → sv_state v ≠ SUPERVISED_EMPTY → sv_state (f v) ≠ SUPERVISED_EMPTY →
  supervised s' = alter f k (supervised s) → ss_service_count (sup s') = ss_service_count (sup s) →
  ss_running_count (sup s') = ss_running_count (sup s) + Z.of_nat (one (f v)) - Z.of_nat (one v) →
  sup_wf s'.
Proof.
  intros Hwf Hv Hne Hne' Hs Hc Hr. split.
  - rewrite Hs, length_alter. apply Hwf.
  - rewrite Hc. apply Hwf.
  - intros i u. rewrite Hs, Hc. destruct (decide (i = k)) as [->|].
    + intros _ Hi. by rewrite (wf_unused _ Hwf k v Hv Hi) in Hne.
    + rewrite list_lookup_alter_ne by done. apply Hwf.
  - intros i u. rewrite Hs, Hc. destruct (decide (i = k)) as [->|].
    + rewrite list_lookup_alter_eq, Hv. by intros [= <-].
    + rewrite list_lookup_alter_ne by done. apply Hwf.
  - rewrite Hr, Hs, (wf_running _ Hwf). pose proof (running_alter f k (supervised s) v Hv). lia.
Qed.

Lemma sup_upd_sup g s : sup (upd_sup g s) = g (sup s).
Proof. reflexivity. Qed.
Lemma supervised_upd_sup g s : supervised (upd_sup g s) = supervised s.
Proof. reflexivity. Qed.
Lemma supervised_append st sid pid policy n s :
  supervised (append_service st sid pid policy n s) =
  <[Z.to_nat (ss_service_count (sup s)) := new_service (next_supervised_id s) sid pid st policy n]> (supervised s).
Proof. reflexivity. Qed.
Lemma new_service_state id sid pid st policy n : sv_state (new_service id sid pid st policy n) = st.
Proof. reflexivity. Qed.
Lemma append_counts st sid pid policy n s :
  ss_service_count (sup (append_service st sid pid policy n s)) = ss_service_count (sup s) + 1 ∧
  ss_running_count (sup (append_service st sid pid policy n s)) = ss_running_count (sup s).
Proof. done. Qed.

Lemma insert_alter {A} (l : list A) i x y : l !! i = Some y → <[i := x]> l = alter (λ _, x) i l.
Proof.
  intros Hi. apply list_eq. intros j. destruct (decide (i = j)) as [<-|].
  - rewrite list_lookup_alter_eq, Hi. apply list_lookup_insert_eq. by eapply lookup_lt_Some.
  - by rewrite list_lookup_insert_ne, list_lookup_alter_ne.
Qed.

Lemma sup_wf_insert s s' x :
  sup_wf s → ss_service_count (sup s) < 16 → sv_state x ≠ SUPERVISED_EMPTY → sv_state x ≠ SUPERVISED_RUNNING →
  supervised s' = <[Z.to_nat (ss_service_count (sup s)) := x]> (supervised s) →
  ss_service_count (sup s') = ss_service_count (sup s) + 1 → ss_running_count (sup s') = ss_running_count (sup s) →
  sup_wf s'.
Proof.
  intros Hwf Hc Hx Hx' Hs Hcount Hrun. pose proof (wf_count _ Hwf) as Hc0. pose proof (wf_length _ Hwf) as Hlen.
  remember (Z.to_nat (ss_service_count (sup s))) as c eqn:Ec.
  destruct (lookup_lt_is_Some_2 (supervised s) c) as [v Hv]; [unfold AEGIS_SUPERVISOR_SERVICE_MAX in Hlen; lia|].
  pose proof (lookup_lt_Some _ _ _ Hv) as Hlt.
  assert (sv_state v = SUPERVISED_EMPTY) as Hve by (apply (wf_unused _ Hwf c v Hv); lia).
  split; rewrite ?Hs, ?Hcount, ?Hrun.
  - by rewrite length_insert.
  - lia.
  - intros i u Hu Hi. rewrite list_lookup_insert_ne in Hu by lia. apply (wf_unused _ Hwf i u Hu). lia.
  - intros i u Hu Hi. destruct (decide (i = c)) as [->|Hic].
    + rewrite list_lookup_insert_eq in Hu by lia. by injection Hu as <-.
    + rewrite list_lookup_insert_ne in Hu by done. apply (wf_used _ Hwf i u Hu). lia.
  - rewrite (wf_running _ Hwf), (insert_alter _ _ _ _ Hv). pose proof (running_alter (λ _, x) c (supervised s) v Hv) as Hr.
    unfold one in Hr. rewrite Hve in Hr. rewrite !decide_False in Hr by done. lia.
Qed.

Lemma one_running s k v : sup_wf s → supervised s !! k = Some v → Z.of_nat (one v) ≤ ss_running_count (sup s) ≤ 16.
Proof.
  intros Hwf Hv. rewrite (wf_running _ Hwf). pose proof (running_le (supervised s)) as Hl. rewrite (wf_length _ Hwf) in Hl.
  unfold AEGIS_SUPERVISOR_SERVICE_MAX in Hl.
  pose proof (running_alter (λ _, zero_service) k (supervised s) v Hv) as Hr. cbn beta in Hr.
  change (one zero_service) with 0%nat in Hr. lia.
Qed.

Lemma one_state v : one v = if state_is SUPERVISED_RUNNING v then 1%nat else 0%nat.
Proof. unfold one, state_is. case_decide as E; [by rewrite E|by rewrite bool_decide_eq_false_2]. Qed.

Lemma one_not_running v : sv_state v ≠ SUPERVISED_RUNNING → one v = 0%nat.
Proof. intros Hv. unfold one. by rewrite decide_False. Qed.

(** The changed service does not run. *)
Ltac not_running tac :=
  match goal with |- _ = _ + Z.of_nat (one ?x) - _ => rewrite (one_not_running x) by tac end; try lia.

Lemma dec_running s k v :
  sup_wf s → supervised s !! k = Some v →
  dec_if (state_is SUPERVISED_RUNNING v) (ss_running_count (sup s)) = ss_running_count (sup s) - Z.of_nat (one v).
Proof.
  intros Hwf Hv. pose proof (one_running s k v Hwf Hv) as H1. rewrite one_state in *. unfold dec_if.
  destruct (state_is SUPERVISED_RUNNING v); cbn [andb]; [|lia]. rewrite (proj2 (Z.eqb_neq _ _)) by lia. cbn [negb]. lia.
Qed.

Lemma sup_wf_upd_sup g s :
  sup_wf s → ss_service_count (g (sup s)) = ss_service_count (sup s) →
  ss_running_count (g (sup s)) = ss_running_count (sup s) → sup_wf (upd_sup g s).
Proof.
  intros Hwf Hc Hr. split; rewrite ?supervised_upd_sup, ?sup_upd_sup, ?Hc, ?Hr; apply Hwf.
Qed.

(** When an operation on running services keeps the count right. *)
Definition op_allowed (o : sup_op) (s : supervisor) : Prop :=
  match o with
  | OStart => ∀ i v, supervised s !! i = Some v → sv_state v ≠ SUPERVISED_RUNNING
  | ORestart name _ _ => ∀ i v, service_supervisor_find name s = Some i → supervised s !! i = Some v → sv_state v ≠ SUPERVISED_RUNNING
  | _ => True
  end.

Lemma start_loop_wf lo m s : sup_wf s → sup_wf (start_loop lo m s).2.
Proof.
  revert lo s. induction m as [|m IH]; intros lo s Hwf; [done|]. cbn [start_loop].
  destruct (supervised s !! lo) as [v|] eqn:Hv; [|done].
  destruct (bool_decide (sv_state v = SUPERVISED_REGISTERED) || bool_decide (sv_state v = SUPERVISED_STARTING)) eqn:Hst; [|done].
  pose proof (one_running s lo v Hwf Hv) as H1.
  apply IH. apply (sup_wf_alter s _ lo (λ v, v <| sv_state := SUPERVISED_RUNNING |>) v Hwf Hv); try done.
  - intros E. by rewrite E in Hst.
  - transitivity (u32 (ss_running_count (sup s) + 1)); [reflexivity|].
    rewrite u32_small by lia. change (one (v <| sv_state := SUPERVISED_RUNNING |>)) with 1%nat.
    rewrite one_state. unfold state_is. rewrite bool_decide_eq_false_2; [lia|]. intros E. by rewrite E in Hst.
Qed.

Lemma running_zero l : (∀ i v, l !! i = Some v → sv_state v ≠ SUPERVISED_RUNNING) → running l = 0%nat.
Proof.
  induction l as [|v l IH]; intros Hl; [done|]. rewrite running_cons, IH by (intros i; apply (Hl (S i))).
  unfold one. rewrite decide_False by (by apply (Hl 0%nat)). done.
Qed.

(** The operation changed the found service [u]; [e] is the new count. *)
Ltac wf_by_alter Hwf Hk :=
  let n := fresh in
  let Hu := fresh "Hu" in let Hne := fresh "Hne" in
  destruct (found_inv _ _ _ _ Hk) as (n & _ & _ & Hu & Hne & _);
  match goal with
  | |- sup_wf (_, ?X).2 => eapply (sup_wf_alter _ X _ _ _ Hwf Hu Hne); [|reflexivity|reflexivity|]; [try done|]
  end.

Ltac wf_by_append Hwf Hc :=
  unfold AEGIS_SUPERVISOR_SERVICE_MAX in Hc;
  eapply (sup_wf_insert _ _ (new_service _ _ _ _ _ _) Hwf); [lia|..|apply supervised_append|apply append_counts|apply append_counts];
  rewrite new_service_state; done.

Lemma exec_wf o s : sup_wf s → op_allowed o s → sup_wf (sup_exec o s).2.
Proof.
  intros Hwf Hal. destruct o as [name sid pid policy|proc| |name pid|name pid code now|name kind f code|name m w b|name now|name pid now|name|];
    cbn [sup_exec].
  - unfold service_supervisor_native_register_starting. destruct name as [nm|]; [|done].
    destruct (_ || _ || _); [done|]. destruct (_ ≫= _) as [[k u]|] eqn:Hk.
    + wf_by_alter Hwf Hk; [cbn; by destruct (_ || _)|]. cbn -[dec_if one Z.add].
      rewrite (dec_running s k u) by done.
      not_running ltac:(cbn; by destruct (_ || _)).
    + destruct (Z.leb_spec (Z.of_nat AEGIS_SUPERVISOR_SERVICE_MAX) (ss_service_count (sup s))) as [|Hc]; [done|].
      apply sup_wf_upd_sup; [|done..]. wf_by_append Hwf Hc.
  - unfold service_supervisor_register_descriptor. destruct (negb _); [done|]. destruct proc as [p|]; [|done].
    destruct (_ =? 0)%nat; [done|].
    destruct (Z.leb_spec (Z.of_nat AEGIS_SUPERVISOR_SERVICE_MAX) (ss_service_count (sup s))) as [|Hc]; [done|].
    do 2 (case_match; [done|]). wf_by_append Hwf Hc.
  - unfold service_supervisor_start_registered. destruct (negb _); [done|].
    pose proof (start_loop_wf 0 (Z.to_nat (ss_service_count (sup s))) (upd_sup (λ b, b <| ss_running_count := 0 |>) s)) as Hl.
    destruct (start_loop _ _ _) as [ok s1]. cbn [snd] in Hl.
    assert (sup_wf s1) as H1.
    { apply Hl, sup_wf_upd_sup; [done..|]. change (0 = ss_running_count (sup s)).
      by rewrite (wf_running _ Hwf), (running_zero _ Hal). }
    destruct (negb ok); [done|]. by apply sup_wf_upd_sup.
  - unfold service_supervisor_native_mark_running. destruct (_ || _ || _); [done|].
    destruct (service_of name pid s) as [[k u]|] eqn:Hk; [|done]. apply service_of_inv in Hk as [_ Hk].
    wf_by_alter Hwf Hk. cbn -[u32 one Z.add Z.sub]. pose proof (one_running s k u Hwf Hu) as H1. rewrite (one_state u) in *.
    change (one _) with 1%nat. destruct (state_is SUPERVISED_RUNNING u); [lia|]. rewrite u32_small by lia. lia.
  - unfold service_supervisor_native_mark_exit. destruct (_ || _ || _); [done|].
    destruct (service_of name pid s) as [[k u]|] eqn:Hk; [|done]. apply service_of_inv in Hk as [_ Hk].
    wf_by_alter Hwf Hk.
    + unfold exit_service. by destruct (_ || _), (_ && _).
    + cbn -[dec_if one Z.add Z.sub exit_service]. rewrite (dec_running s k u) by done.
      not_running ltac:(unfold exit_service; by destruct (_ || _), (_ && _)).
  - unfold service_supervisor_record_fault. destruct (negb _); [done|]. destruct name as [nm|]; [|done].
    destruct f as [f|]; [|done]. destruct (_ ≫= _) as [[k u]|] eqn:Hk; [|done].
    destruct (negb (state_is SUPERVISED_RUNNING u)) eqn:Hr; [done|]. apply negb_false_iff in Hr. case_match; [done|].
    wf_by_alter Hwf Hk. cbn -[dec_if one Z.add Z.sub u32]. rewrite <-Hr, (dec_running s k u) by done. not_running done.
  - unfold service_supervisor_set_restart_policy.
    destruct (service_supervisor_find name s) as [k|] eqn:Hk; [|done]. case_match; [done|].
    destruct (find_pair name s k Hk) as [u Hu]. wf_by_alter Hwf Hu. cbn -[one Z.add Z.sub].
    rewrite !one_state. unfold state_is. cbn. lia.
  - unfold service_supervisor_restart_allowed. repeat case_match; simplify_eq; try done. by apply sup_wf_upd_sup.
  - unfold service_supervisor_note_restart. destruct (_ ≫= _) as [[k u]|] eqn:Hk; [|done].
    do 2 (case_match; [done|]). wf_by_alter Hwf Hk. cbn -[one Z.add Z.sub u32]. not_running done.
    rewrite (one_not_running u); [lia|]. apply found_inv in Hk as (n & -> & Hk & _). by eapply Hal.
  - unfold service_supervisor_request_shutdown. destruct (_ ≫= _) as [[k u]|] eqn:Hk; [|done].
    wf_by_alter Hwf Hk. cbn -[dec_if one Z.add Z.sub]. rewrite (dec_running s k u) by done. not_running done.
  - cbn [snd]. set (g := λ (j : nat) (u : service), if (j <? Z.to_nat (ss_service_count (sup s)))%nat
                                            then u <| sv_shutdown_requested := true |> else u).
    assert (∀ j, supervised (service_supervisor_begin_shutdown s) !! j = g j <$> supervised s !! j) as Hg
      by (intros; apply list_lookup_imap).
    assert (∀ j u, sv_state (g j u) = sv_state u) as Hgs by (intros; unfold g; by case_match).
    split; [cbn; rewrite length_imap; apply Hwf|apply Hwf| | |].
    + intros i v Hv Hi. rewrite Hg in Hv. apply fmap_Some in Hv as (u & Hu & ->). rewrite Hgs. by apply (wf_unused _ Hwf i u Hu).
    + intros i v Hv Hi. rewrite Hg in Hv. apply fmap_Some in Hv as (u & Hu & ->). rewrite Hgs. by apply (wf_used _ Hwf i u Hu).
    + change (ss_running_count (sup s) = Z.of_nat (running (imap g (supervised s)))). rewrite (wf_running _ Hwf).
      f_equal. clear -Hgs. clearbody g. revert g Hgs. induction (supervised s) as [|v l IH]; intros g Hgs; [done|].
      rewrite imap_cons, !running_cons. rewrite <-(IH (g ∘ S)) by (intros; apply Hgs). unfold one. by rewrite Hgs.
Qed.

Definition sup_step (s s' : supervisor) : Prop := ∃ o, op_allowed o s ∧ s' = (sup_exec o s).2.

Lemma service_supervisor_init_wf s :
  length (supervised s) = AEGIS_SUPERVISOR_SERVICE_MAX → sup_wf (service_supervisor_init s).
Proof.
  intros Hl.
  assert (∀ i v, supervised (service_supervisor_init s) !! i = Some v → v = zero_service) as Hz.
  { intros i v. cbn. rewrite list_lookup_fmap. by intros (? & _ & ->)%fmap_Some. }
  split; cbn [sup service_supervisor_init].
  - cbn. by rewrite length_fmap.
  - cbn. lia.
  - intros i v Hv _. by rewrite (Hz i v Hv).
  - cbn. lia.
  - cbn -[service_supervisor_init]. change (0 = Z.of_nat (running (supervised (service_supervisor_init s)))).
    rewrite running_zero; [done|]. intros i v Hv. by rewrite (Hz i v Hv).
Qed.

(** C40: the table stays well-formed. Along every sequence of operations after
    [service_supervisor_init] (starting only services none of which runs, noting
    restarts only of services that do not run), the used slots are the first
    [service_count] of the sixteen, and [running_count] is the number of services
    in state RUNNING. *)
Theorem supervisor_table_wf s0 s :
  length (supervised s0) = AEGIS_SUPERVISOR_SERVICE_MAX →
  rtc sup_step (service_supervisor_init s0) s → sup_wf s.
Proof.
  intros Hl Hr. pose proof (service_supervisor_init_wf s0 Hl) as Hwf. revert Hwf.
  induction Hr as [s|s1 s2 s3 (o & Ho & ->) _ IH]; [done|]. intros Hwf. by apply IH, exec_wf.
Qed.

Fixpoint ops_allowed (ops : list sup_op) (s : supervisor) : Prop :=
  match ops with [] => True | o :: ops => op_allowed o s ∧ ops_allowed ops (sup_exec o s).2 end.

Lemma run_sup_steps ops s : ops_allowed ops s → rtc sup_step s (run_sup ops s).
Proof.
  revert s. induction ops as [|o ops IH]; intros s; [intros _; apply rtc_refl|]. intros [Ho Hops].
  eapply rtc_l; [by exists o|]. by apply IH.
Qed.

(** ** Examples *)

Definition zero_supervisor : supervisor := mk_supervisor (replicate 16 zero_service) zero_sstate 0.
Definition two_services : list sup_op :=
  [ORegister (Some "web") 7 40 POLICY_RESTART_ON_FAULT; ORegister (Some "dns") 8 41 POLICY_RESTART_ON_FAULT;
   ORunning (Some "web") 40; ORunning (Some "dns") 41]%string.
Definition example_sup : supervisor := run_sup two_services (service_supervisor_init zero_supervisor).

(** A service that exits as soon as it has been restarted. *)
Definition crash (t : Z) : list sup_op :=
  [OExit (Some "web") 40 1 t; ORestart (Some "web") 40 t; ORunning (Some "web") 40; OAllowed (Some "dns") t]%string.
Definition crash_loop : list sup_op := concat (crash <$> [100; 101; 102; 103; 104; 105]).

Lemma supervisor_table_wf_witness : sup_wf (run_sup (two_services ++ crash 100) (service_supervisor_init zero_supervisor)).
Proof.
  apply (supervisor_table_wf zero_supervisor); [reflexivity|].
  apply run_sup_steps. do 5 (split; [exact I|]). split; [|split; [exact I|split; exact I]].
  intros i v Hi Hv. vm_compute in Hi. injection Hi as <-. vm_compute in Hv. injection Hv as <-. vm_compute. discriminate.
Defined.

Lemma restart_budget_witness :
  (service_supervisor_restart_allowed (Some "web"%string) 5000 (run_sup crash_loop example_sup)).1.1
    ∈ [AEGIS_EPERM; AEGIS_ESHUTDOWN].
Proof.
  destruct (supervised example_sup !! 0%nat) as [v|] eqn:Hv; [|vm_compute in Hv; discriminate].
  assert (sv_consecutive_failures v = 0 ∧ sv_first_failure_tick v = 0 ∧ sv_max_restarts v = 5 ∧ sv_restart_window_ticks v = 6000)
    as (H1 & H2 & H3 & H4).
  { vm_compute in Hv. injection Hv as <-. done. }
  apply (restart_budget "web" 0 v example_sup crash_loop 100 5000).
  - vm_compute. reflexivity.
  - exact Hv.
  - exact H1.
  - exact H2.
  - lia.
  - lia.
  - lia.
  - rewrite H4. cbn. lia.
  - repeat constructor; discriminate.
  - cbn. lia.
  - rewrite H3. vm_compute. reflexivity.
Defined.

Definition crashed_web : service :=
  mk_service 1 7 40 "web" SUPERVISED_RUNNING 2 1 1 1 5 6000 10 100 100 false 1
    (mk_fault_record FAULT_EXIT 7 40 0 1 0 0 0 0 0 false false false).

Lemma restart_backoff_witness :
  let (rc, s') := service_supervisor_native_mark_exit (Some "web"%string) 40 1 101 (run_sup (crash 100) example_sup) in
  rc = AEGIS_OK ∧ (service_supervisor_restart_allowed (Some "web"%string) 110 s').1 = (AEGIS_EAGAIN, Some 11).
Proof.
  apply (restart_backoff "web" 0 crashed_web (run_sup (crash 100) example_sup) 1 101 1 110).
  - reflexivity.
  - reflexivity.
  - vm_compute. reflexivity.
  - vm_compute. reflexivity.
  - discriminate.
  - reflexivity.
  - discriminate.
  - reflexivity.
  - vm_compute. done.
  - right. vm_compute. split; [split; [reflexivity|discriminate]|discriminate].
  - lia.
  - vm_compute. discriminate.
  - vm_compute. reflexivity.
Defined.

(** ** What the code does not handle *)

(** Starting the registered services again fails, but has already reset the count
    of running services. *)
Lemma start_twice_resets_count :
  let s := example_sup in
  let (rc, s') := service_supervisor_start_registered s in
  rc = AEGIS_EINVAL ∧ ss_running_count (sup s) = 2 ∧ ss_running_count (sup s') = 0 ∧ running (supervised s') = 2%nat.
Proof. vm_compute. done. Qed.

(** A restart noted for a running service leaves the count one too high. *)
Lemma note_restart_of_running :
  let (rc, s') := service_supervisor_note_restart (Some "web"%string) 50 100 example_sup in
  rc = AEGIS_OK ∧ ss_running_count (sup s') = 2 ∧ running (supervised s') = 1%nat.
Proof. vm_compute. done. Qed.

(** A service stopped for good is counted as faulted; registering it again does not
    take it out of the count. *)
Lemma stopped_service_stays_faulted :
  let s := run_sup (crash_loop ++ [OExit (Some "web") 40 1 106; ORegister (Some "web") 7 60 2; ORunning (Some "web") 60]%string)
             example_sup in
  ss_running_count (sup s) = 2 ∧ 0 < ss_faulted_count (sup s) ∧
  running (supervised s) = 2%nat ∧ ∀ i v, supervised s !! i = Some v → sv_state v ≠ SUPERVISED_FAULTED.
Proof.
  vm_compute. split; [done|]. split; [done|]. split; [done|]. intros i v Hv.
  do 16 (destruct i as [|i]; [by injection Hv as <-|]). done.
Qed.

(** A name of 32 characters or more is stored truncated and never found again:
    every registration takes another slot. *)
Lemma long_name_registered_twice :
  let n := "a-service-name-of-thirty-two-chars"%string in
  let s := run_sup [ORegister (Some n) 7 40 2; ORegister (Some n) 7 40 2] (service_supervisor_init zero_supervisor) in
  ss_service_count (sup s) = 2 ∧ service_supervisor_find (Some n) s = None.
Proof. vm_compute. done. Qed.
