(* ===== verification/Services.v ===== *)
(** The registry of kernel services: kernel/core/service_manager.c.

    Services are registered with the names of services they depend on, which have
    to be registered before; [service_manager_prepare] then marks every service
    whose dependencies are marked, pass by pass. A pointer to a service is its
    index. [None] is a read past the caller's array of names. *)

From S2P Require Import Prelude.

Definition AEGIS_SERVICE_NAME_MAX : nat := 32.
Definition AEGIS_SERVICE_MAX : nat := 32.
Definition AEGIS_SERVICE_DEPS_MAX : Z := 4.
Definition AEGIS_SERVICE_FLAG_REQUIRED : Z := 1.
Definition AEGIS_SERVICE_FLAG_KERNEL : Z := 2.

Inductive kservice_state := SERVICE_EMPTY | SERVICE_REGISTERED | SERVICE_PREPARED | SERVICE_RUNNING | SERVICE_FAILED.
#[export] Instance kservice_state_eq_dec : EqDecision kservice_state.
Proof. solve_decision. Defined.

Record kservice := mk_kservice {
  kv_id : Z; kv_name : string; kv_state : kservice_state; kv_flags : Z; kv_dependency_count : Z; kv_dependencies : list Z;
}.
#[export] Instance kservice_eta : Eta kservice := λ s,
  mk_kservice (kv_id s) (kv_name s) (kv_state s) (kv_flags s) (kv_dependency_count s) (kv_dependencies s).
(** [service_zero] *)
Definition zero_kservice : kservice := mk_kservice 0 EmptyString SERVICE_EMPTY 0 0 (replicate 4 0).

Record service_manager := mk_manager { services : list kservice; service_count : Z; manager_prepared : bool }.
#[export] Instance service_manager_eta : Eta service_manager := λ s,
  mk_manager (services s) (service_count s) (manager_prepared s).

Definition service_name_copy (src : option string) : string :=
  str_take (AEGIS_SERVICE_NAME_MAX - 1) (default "unnamed"%string src).

Definition service_manager_init (s : service_manager) : service_manager :=
  mk_manager (replicate AEGIS_SERVICE_MAX zero_kservice) 0 false.

Definition service_manager_get (id : Z) (s : service_manager) : option nat :=
  if (id =? 0) || (service_count s <? id) then None else Some (Z.to_nat (id - 1)).

(** The services below [service_count]. *)
Definition registered (s : service_manager) : list kservice := take (Z.to_nat (service_count s)) (services s).

Definition service_manager_find (name : option string) (s : service_manager) : option nat :=
  match name with
  | None => None
  | Some name => find_slot (λ v, negb (bool_decide (kv_state v = SERVICE_EMPTY)) && c_streq (kv_name v) name) (registered s)
  end.

Definition upd_kservice (i : nat) (f : kservice → kservice) (s : service_manager) : service_manager :=
  s <| services ::= alter f i |>.

(** The loop over the names, from [i]; the entry under construction is [slot]. *)
Fixpoint fill_dependencies (n i slot : nat) (dependencies : option (list (option string))) (s : service_manager)
    : option (Z * service_manager) :=
  match n with
  | O => Some (AEGIS_OK, s)
  | S n =>
      match dependencies with
      | None => Some (AEGIS_EINVAL, s)
      | Some l =>
          name ← l !! i;
          match name with
          | None => Some (AEGIS_EINVAL, s)
          | Some _ =>
              match service_manager_find name s ≫= λ d, services s !! d with
              | None => Some (AEGIS_ENOENT, s)
              | Some dep =>
                  fill_dependencies n (S i) slot dependencies
                    (upd_kservice slot (λ v, v <| kv_dependencies ::= <[i := kv_id dep]> |>) s)
              end
          end
      end
  end.

(** The result and the identifier stored through [out_id]. *)
Definition service_manager_register_kernel (name : option string) (flags : Z) (dependencies : option (list (option string)))
    (dependency_count : Z) (s : service_manager) : option (Z * option Z * service_manager) :=
  if match name with None => true | Some n => c_streq n EmptyString end || (AEGIS_SERVICE_DEPS_MAX <? dependency_count)
  then Some (AEGIS_EINVAL, None, s)
  else if manager_prepared s then Some (AEGIS_EBUSY, None, s)
  else if Z.of_nat AEGIS_SERVICE_MAX <=? service_count s then Some (AEGIS_ENOMEM, None, s)
  else if bool_decide (is_Some (service_manager_find name s)) then Some (AEGIS_EBUSY, None, s)
  else
    let slot := Z.to_nat (service_count s) in
    let id := u32 (service_count s + 1) in
    let s := upd_kservice slot (λ _, zero_kservice <| kv_id := id |> <| kv_state := SERVICE_REGISTERED |>
               <| kv_flags := Z.lor flags AEGIS_SERVICE_FLAG_KERNEL |> <| kv_dependency_count := dependency_count |>
               <| kv_name := service_name_copy name |>) s in
    '(rc, s) ← fill_dependencies (Z.to_nat dependency_count) 0 slot dependencies s;
    if rc =? AEGIS_OK then Some (AEGIS_OK, Some id, s <| service_count ::= λ c, u32 (c + 1) |>)
    else Some (rc, None, s).

(** The table of [service_manager_register_builtin_kernel_services]. *)
Definition builtin_services : list (string * list string) :=
  [("vfs", []); ("initramfs", ["vfs"]); ("devfs", ["vfs"]); ("procfs", ["vfs"]); ("capability", []); ("ipc", ["capability"]);
   ("security", ["capability"; "ipc"]); ("network", []); ("firewall", []); ("router", ["network"; "firewall"; "security"]);
   ("aegisd", ["vfs"; "ipc"; "security"; "router"])]%string.

Fixpoint register_builtin (l : list (string * list string)) (s : service_manager) : option (Z * service_manager) :=
  match l with
  | [] => Some (AEGIS_OK, s)
  | (name, deps) :: l =>
      '(rc, _, s) ← service_manager_register_kernel (Some name) AEGIS_SERVICE_FLAG_REQUIRED
        (match deps with [] => None | _ => Some (Some <$> deps) end) (Z.of_nat (length deps)) s;
      if rc =? AEGIS_OK then register_builtin l s else Some (rc, s)
  end.

Definition service_manager_register_builtin_kernel_services (s : service_manager) : option (Z * service_manager) :=
  register_builtin builtin_services s.

Definition dependency_is_prepared (dep_id : Z) (s : service_manager) : bool :=
  match service_manager_get dep_id s ≫= λ i, services s !! i with
  | Some dep => bool_decide (kv_state dep = SERVICE_PREPARED)
  | None => false
  end.

Definition deps_ok (v : kservice) (s : service_manager) : bool :=
  forallb (λ d, dependency_is_prepared d s) (take (Z.to_nat (kv_dependency_count v)) (kv_dependencies v)).

(** The inner loop from service [i]: [inr] is the early return; else the state,
    [prepared_total] and [progressed]. *)
Fixpoint prepare_pass (n i : nat) (total : Z) (progressed : bool) (s : service_manager)
    : option (service_manager * Z * bool + service_manager) :=
  match n with
  | O => Some (inl (s, total, progressed))
  | S n =>
      v ← services s !! i;
      match kv_state v with
      | SERVICE_PREPARED => prepare_pass n (S i) total progressed s
      | SERVICE_REGISTERED =>
          if deps_ok v s
          then prepare_pass n (S i) (u32 (total + 1)) true (upd_kservice i (λ v, v <| kv_state := SERVICE_PREPARED |>) s)
          else prepare_pass n (S i) total progressed s
      | _ => Some (inr s)
      end
  end.

(** The outer loop; [inr] is the early return. *)
Fixpoint prepare_passes (passes : nat) (total : Z) (s : service_manager) : option (service_manager * Z + service_manager) :=
  match passes with
  | O => Some (inl (s, total))
  | S passes =>
      if total <? service_count s then
        r ← prepare_pass (Z.to_nat (service_count s)) 0 total false s;
        match r with
        | inr s => Some (inr s)
        | inl (s, total, progressed) => if (progressed : bool) then prepare_passes passes total s else Some (inl (s, total))
        end
      else Some (inl (s, total))
  end.

Definition service_manager_prepare (s : service_manager) : option (Z * service_manager) :=
  if service_count s =? 0 then Some (AEGIS_EINVAL, s)
  else
    r ← prepare_passes AEGIS_SERVICE_MAX 0 s;
    match r with
    | inr s => Some (AEGIS_EINVAL, s)
    | inl (s, total) =>
        if negb (total =? service_count s) then Some (AEGIS_EINVAL, s) else Some (AEGIS_OK, s <| manager_prepared := true |>)
    end.

Definition service_manager_registered_count (s : service_manager) : Z :=
  Z.of_nat (length (filter (λ v, kv_state v = SERVICE_REGISTERED) (registered s))).
Definition service_manager_prepared_count (s : service_manager) : Z :=
  Z.of_nat (length (filter (λ v, kv_state v = SERVICE_PREPARED) (registered s))).
Definition service_manager_is_prepared (s : service_manager) : bool := manager_prepared s.

Definition find_kservice (name : string) (s : service_manager) : option kservice :=
  service_manager_find (Some name) s ≫= λ i, services s !! i.

Definition service_manager_selftest (s : service_manager) : Z :=
  if negb (manager_prepared s) then AEGIS_EINVAL
  else if service_count s <? 10 then AEGIS_EINVAL
  else if negb (service_manager_prepared_count s =? service_count s) then AEGIS_EINVAL
  else
    match find_kservice "vfs" s, find_kservice "initramfs" s, find_kservice "aegisd" s, find_kservice "router" s with
    | Some vfs, Some initramfs, Some aegisd, Some router =>
        if negb (bool_decide (kv_state vfs = SERVICE_PREPARED)) then AEGIS_EINVAL
        else if negb (kv_dependency_count initramfs =? 1) || negb (default 0 (kv_dependencies initramfs !! 0%nat) =? kv_id vfs)
        then AEGIS_EINVAL
        else if negb (kv_dependency_count router =? 3) then AEGIS_EINVAL
        else if negb (kv_dependency_count aegisd =? 4) then AEGIS_EINVAL
        else if negb (has_flag (kv_flags aegisd) AEGIS_SERVICE_FLAG_KERNEL) then AEGIS_EINVAL
        else AEGIS_OK
    | _, _, _, _ => AEGIS_ENOENT
    end.

(** * The dependency graph *)

(** Every registered service waits to be prepared and depends on services
    registered before it. *)
Record graph_wf (s : service_manager) : Prop := {
  gw_len : length (services s) = AEGIS_SERVICE_MAX;
  gw_count : 0 ≤ service_count s ≤ Z.of_nat AEGIS_SERVICE_MAX;
  gw_fresh : manager_prepared s = false;
  gw_entry : ∀ i v, services s !! i = Some v → Z.of_nat i < service_count s →
    kv_id v = Z.of_nat i + 1 ∧ kv_state v = SERVICE_REGISTERED ∧
    Forall (λ d, 1 ≤ d ≤ Z.of_nat i) (take (Z.to_nat (kv_dependency_count v)) (kv_dependencies v));
}.

Lemma service_manager_find_Some name s i :
  service_manager_find name s = Some i → ∃ v, services s !! i = Some v ∧ Z.of_nat i < Z.max 0 (service_count s).
Proof.
  unfold service_manager_find. destruct name; [|done]. intros H. apply find_slot_Some in H as (v & Hv & _ & _).
  unfold registered in Hv. apply lookup_take_Some in Hv as [Hv Hi]. exists v. split; [done|lia].
Qed.

Lemma find_upd name slot f s :
  (Z.to_nat (service_count s) ≤ slot)%nat → service_manager_find name (upd_kservice slot f s) = service_manager_find name s.
Proof.
  intros H. unfold service_manager_find. destruct name; [|done]. f_equal. unfold registered. cbn. by rewrite take_alter_ge.
Qed.

(** Filling the dependencies writes identifiers of registered services. *)
Lemma fill_dependencies_spec n i slot deps s rc t v :
  fill_dependencies n i slot deps s = Some (rc, t) →
  slot = Z.to_nat (service_count s) → 0 ≤ service_count s → services s !! slot = Some v →
  (∀ j w, services s !! j = Some w → Z.of_nat j < service_count s → kv_id w = Z.of_nat j + 1) →
  Forall (λ d, 1 ≤ d ≤ service_count s) (take i (kv_dependencies v)) → (i + n ≤ length (kv_dependencies v))%nat →
  service_count t = service_count s ∧ manager_prepared t = manager_prepared s ∧
  ∃ l, services t = alter (λ v, v <| kv_dependencies := l |>) slot (services s) ∧
    (rc = AEGIS_OK → Forall (λ d, 1 ≤ d ≤ service_count s) (take (i + n) l)).
Proof.
  revert i s v. induction n as [|n IH]; intros i s v H Hslot Hc Hv Hid Hf Hl; cbn [fill_dependencies] in H.
  { injection H as <- <-. split; [done|]. split; [done|]. exists (kv_dependencies v). split; [|by rewrite Nat.add_0_r].
    symmetry. rewrite <-(list_insert_id (services s) slot v) at 2 by done. apply list_eq. intros j. destruct (decide (j = slot)) as [->|].
    - rewrite list_lookup_alter_eq, Hv, list_lookup_insert_eq by (by eapply lookup_lt_Some). by destruct v.
    - by rewrite list_lookup_alter_ne, list_lookup_insert_ne. }
  assert (Hsame : ∀ rc', rc' ≠ AEGIS_OK → Some (rc', s) = Some (rc, t) → service_count t = service_count s ∧ manager_prepared t = manager_prepared s ∧
    ∃ l, services t = alter (λ v, v <| kv_dependencies := l |>) slot (services s) ∧ (rc = AEGIS_OK → Forall (λ d, 1 ≤ d ≤ service_count s) (take (i + S n) l))).
  { intros rc' Hne [= -> <-]. split; [done|]. split; [done|]. exists (kv_dependencies v). split; [|done].
    apply list_eq. intros j. destruct (decide (j = slot)) as [->|]; [|by rewrite list_lookup_alter_ne].
    rewrite list_lookup_alter_eq, Hv. cbn. by destruct v. }
  destruct deps as [names|]; [|by eapply Hsame; [|exact H]]. bind_inv H.
  match type of H with match ?x with _ => _ end = _ => destruct x as [name|] end; [|by eapply Hsame; [|exact H]].
  destruct (service_manager_find (Some name) s ≫= λ d, services s !! d) as [dep|] eqn:Ed; [|by eapply Hsame; [|exact H]].
  destruct (service_manager_find (Some name) s) as [d|] eqn:Ef; [|done]. cbn in Ed.
  destruct (service_manager_find_Some _ _ _ Ef) as (w & Hw & Hd). rewrite Hw in Ed. injection Ed as ->.
  assert (Hdep : 1 ≤ kv_id dep ≤ service_count s) by (rewrite (Hid d dep Hw); lia).
  set (s1 := upd_kservice slot (λ v, v <| kv_dependencies ::= <[i := kv_id dep]> |>) s) in *.
  assert (Hv1 : services s1 !! slot = Some (v <| kv_dependencies ::= <[i := kv_id dep]> |>)) by (cbn; by rewrite list_lookup_alter_eq, Hv).
  destruct (IH (S i) s1 _ H Hslot Hc Hv1) as (H1 & H2 & l & H3 & H4).
  - intros j u Hu Hj. cbn in Hj. assert (j ≠ slot) by lia. cbn in Hu. rewrite list_lookup_alter_ne in Hu by done. by apply Hid.
  - cbn. erewrite take_S_r by (apply list_lookup_insert_eq; lia). rewrite take_insert_ge by lia. apply Forall_app. split; [done|]. by apply Forall_singleton.
  - cbn. rewrite length_insert. lia.
  - split; [exact H1|]. split; [exact H2|]. exists l. split; [|by replace (i + S n)%nat with (S i + n)%nat by lia].
    rewrite H3. cbn. apply list_eq. intros j. destruct (decide (j = slot)) as [->|]; [|by rewrite !list_lookup_alter_ne]. by rewrite !list_lookup_alter_eq, Hv.
Qed.

Lemma register_graph_wf name flags deps dc s rc id t :
  service_manager_register_kernel name flags deps dc s = Some (rc, id, t) → graph_wf s → graph_wf t.
Proof.
  unfold service_manager_register_kernel. intros H [Hl Hc Hf He]. destruct (_ || _) eqn:E1; [by injection H as <- <- <-|].
  rewrite Hf in H. destruct (Z.leb_spec (Z.of_nat AEGIS_SERVICE_MAX) (service_count s)); [by injection H as <- <- <-|].
  destruct (bool_decide _); [by injection H as <- <- <-|]. cbn zeta in H. set (slot := Z.to_nat (service_count s)) in *.
  set (v := zero_kservice <| kv_id := u32 (service_count s + 1) |> <| kv_state := SERVICE_REGISTERED |>
    <| kv_flags := Z.lor flags AEGIS_SERVICE_FLAG_KERNEL |> <| kv_dependency_count := dc |> <| kv_name := service_name_copy name |>) in *.
  set (s1 := upd_kservice slot (λ _, v) s) in *. bind_inv H. destruct p as [rc' t'].
  match goal with E : fill_dependencies _ _ _ _ _ = _ |- _ => rename E into Ef end.
  destruct (lookup_lt_is_Some_2 (services s) slot) as [w Hw]; [unfold slot; lia|].
  assert (Hv1 : services s1 !! slot = Some v) by (cbn; by rewrite list_lookup_alter_eq, Hw).
  apply orb_false_iff in E1 as [_ E1%Z.ltb_ge]. unfold AEGIS_SERVICE_DEPS_MAX, AEGIS_SERVICE_MAX in *.
  destruct (fill_dependencies_spec _ _ _ _ _ _ _ v Ef) as (H1 & H2 & l & H3 & H4); [done|cbn; lia|exact Hv1| |constructor|cbn; lia|].
  { intros j u Hu Hj. cbn in Hj, Hu. rewrite list_lookup_alter_ne in Hu by lia. by apply He. }
  cbn in H1, H2. assert (Hbelow : ∀ j u, services t' !! j = Some u → Z.of_nat j < service_count s → services s !! j = Some u).
  { intros j u Hu Hj. rewrite H3 in Hu. cbn in Hu. by rewrite !list_lookup_alter_ne in Hu by lia. }
  destruct (Z.eqb_spec rc' AEGIS_OK) as [->|]; injection H as <- <- <-.
  - split; cbn; rewrite ?H1.
    + rewrite H3. cbn. by rewrite !length_alter.
    + rewrite u32_small by lia. unfold AEGIS_SERVICE_MAX. lia.
    + by rewrite H2.
    + intros j u Hu Hj. rewrite u32_small in Hj by lia. destruct (decide (j = slot)) as [->|]; [|apply He; [apply Hbelow; [done|lia]|lia]].
      rewrite H3 in Hu. cbn in Hu. rewrite !list_lookup_alter_eq, Hw in Hu. injection Hu as <-. cbn. rewrite u32_small by lia.
      split; [lia|]. split; [done|]. replace (Z.of_nat slot) with (service_count s) by lia. apply (H4 eq_refl).
  - split; rewrite ?H1; [rewrite H3; cbn; by rewrite !length_alter|unfold AEGIS_SERVICE_MAX; lia|by rewrite H2|].
    intros j u Hu Hj. apply He; [by apply Hbelow|lia].
Qed.

Lemma init_graph_wf s : graph_wf (service_manager_init s).
Proof. split; [done|cbn; lia|done|]. intros i v _ Hi. cbn in Hi. lia. Qed.

(** One pass over services whose dependencies come first prepares all of them. *)
Lemma prepare_pass_all n i total b s t0 :
  graph_wf t0 → service_count s = service_count t0 → manager_prepared s = manager_prepared t0 →
  (i + n = Z.to_nat (service_count t0))%nat → total = Z.of_nat i →
  services s = ((λ v, v <| kv_state := SERVICE_PREPARED |>) <$> take i (services t0)) ++ drop i (services t0) →
  prepare_pass n i total b s = Some (inl (mk_manager
    (((λ v, v <| kv_state := SERVICE_PREPARED |>) <$> take (i + n) (services t0)) ++ drop (i + n) (services t0))
    (service_count t0) (manager_prepared t0), Z.of_nat (i + n), b || bool_decide (0 < n)%nat)).
Proof.
  intros Hw Hc Hm. revert i total b s Hc Hm. induction n as [|n IH]; intros i total b s Hc Hm Hn Ht Hs; cbn [prepare_pass].
  { rewrite Nat.add_0_r, bool_decide_false, orb_false_r by lia. destruct s as [l c m]. cbn in *. by subst. }
  pose proof (gw_count _ Hw) as Hcount. pose proof (gw_len _ Hw) as Hlen. unfold AEGIS_SERVICE_MAX in *.
  assert (Hlk : length ((λ v, v <| kv_state := SERVICE_PREPARED |>) <$> take i (services t0)) = i) by (rewrite length_fmap, length_take; lia).
  destruct (lookup_lt_is_Some_2 (services t0) i) as [v Hv]; [lia|].
  assert (Hsi : services s !! i = Some v) by (rewrite Hs, lookup_app_r, Hlk, Nat.sub_diag, lookup_drop, Nat.add_0_r by lia; done).
  rewrite Hsi. cbn [mbind option_bind]. destruct (gw_entry _ Hw i v Hv ltac:(lia)) as (_ & -> & Hd).
  assert (deps_ok v s = true) as ->.
  { unfold deps_ok. apply forallb_forall. intros d Hin. apply list_elem_of_In in Hin.
    rewrite Forall_forall in Hd. specialize (Hd d Hin). cbn in Hd.
    unfold dependency_is_prepared, service_manager_get. rewrite Hc. replace ((d =? 0) || (service_count t0 <? d)) with false by lia. cbn [mbind option_bind].
    rewrite Hs, lookup_app_l, list_lookup_fmap, lookup_take_lt by lia.
    destruct (lookup_lt_is_Some_2 (services t0) (Z.to_nat (d - 1))) as [w ->]; [lia|]. done. }
  rewrite (IH (S i)); [|done|done|lia|rewrite u32_small by lia; lia|].
  - replace (S i + n)%nat with (i + S n)%nat by lia. rewrite (bool_decide_true (0 < S n)%nat), orb_true_r by lia. done.
  - cbn. rewrite Hs, alter_app_r_alt, Hlk, Nat.sub_diag by lia. rewrite (drop_S _ _ _ Hv). cbn.
    by rewrite (take_S_r _ _ _ Hv), fmap_app, <-app_assoc.
Qed.

(** A sequence of registrations; failed ones are allowed. *)
Fixpoint run_registrations (l : list (option string * Z * option (list (option string)) * Z)) (s : service_manager)
    : option service_manager :=
  match l with
  | [] => Some s
  | (name, flags, deps, dc) :: l => '(_, s) ← service_manager_register_kernel name flags deps dc s; run_registrations l s
  end.

(** * Theorems *)

(** The dependency graph never blocks.  Whatever is registered, in whatever
    order and with whatever failures on the way, preparing afterwards succeeds as
    soon as there is one service: a dependency has to be registered before the
    service that names it, so one pass in table order finds every dependency
    prepared.  All services end up prepared, and nothing but their state changes. *)
Theorem service_manager_prepare_succeeds l s t :
  run_registrations l (service_manager_init s) = Some t → 0 < service_count t →
  ∃ u, service_manager_prepare t = Some (AEGIS_OK, u) ∧ service_manager_is_prepared u = true ∧
    service_count u = service_count t ∧
    registered u = (λ v, v <| kv_state := SERVICE_PREPARED |>) <$> registered t ∧
    service_manager_prepared_count u = service_count t.
Proof.
  intros Hr Hc. assert (graph_wf t) as Hw.
  { pose proof (init_graph_wf s) as H0. revert H0 Hr. generalize (service_manager_init s).
    induction l as [|[[[name flags] deps] dc] l IH]; intros s1 H0 Hr; [by injection Hr as <-|]. cbn in Hr. bind_inv Hr. destruct p as [[rc id] s2].
    apply (IH s2); [|done]. by eapply register_graph_wf. }
  pose proof (gw_count _ Hw) as Hcount. pose proof (gw_len _ Hw) as Hlen. unfold AEGIS_SERVICE_MAX in Hlen, Hcount.
  set (n := Z.to_nat (service_count t)). set (done_ := (λ v, v <| kv_state := SERVICE_PREPARED |>) <$> take n (services t)).
  pose proof (prepare_pass_all n 0 0 false t t Hw eq_refl eq_refl eq_refl eq_refl eq_refl) as Hp. cbn [Nat.add] in Hp. fold n done_ in Hp.
  exists (mk_manager (done_ ++ drop n (services t)) (service_count t) true).
  assert (Htake : take n (done_ ++ drop n (services t)) = done_).
  { replace n with (length done_) at 1; [apply take_app_length|]. unfold done_. rewrite length_fmap, length_take. lia. }
  split; [|split; [done|]; split; [done|]; split; [by unfold registered; cbn; fold n; rewrite Htake|]].
  - unfold service_manager_prepare. replace (service_count t =? 0) with false by lia. unfold AEGIS_SERVICE_MAX. cbn [prepare_passes].
    replace (0 <? service_count t) with true by lia. fold n. rewrite Hp. cbn [mbind option_bind]. rewrite bool_decide_true by lia. cbn [orb].
    replace (Z.of_nat n <? _) with false by (cbn; lia). cbn [mbind option_bind]. replace (Z.of_nat n =? _) with true by (cbn; lia). done.
  - unfold service_manager_prepared_count, registered. cbn. fold n. rewrite Htake, list_filter_all.
    + unfold done_. rewrite length_fmap, length_take. lia.
    + unfold done_. intros v Hv. apply list_elem_of_fmap in Hv as (w & -> & _). done.
Qed.

(** * Examples *)

Definition builtin_manager : service_manager :=
  match service_manager_register_builtin_kernel_services (service_manager_init (mk_manager [] 0 false)) with
  | Some (_, s) => s
  | None => mk_manager [] 0 false
  end.
Definition prepared_manager : service_manager :=
  match service_manager_prepare builtin_manager with Some (_, s) => s | None => builtin_manager end.

(** The builtin services register, prepare and pass the self test. *)
Lemma builtin_services_ready :
  fst <$> service_manager_register_builtin_kernel_services (service_manager_init (mk_manager [] 0 false)) = Some AEGIS_OK ∧
  service_manager_selftest prepared_manager = AEGIS_OK ∧ service_count prepared_manager = 11.
Proof. vm_compute. done. Qed.

Definition two_registrations : list (option string * Z * option (list (option string)) * Z) :=
  [(Some "vfs"%string, 1, None, 0); (Some "initramfs"%string, 1, Some [Some "vfs"%string], 1); (Some "x"%string, 1, Some [Some "y"%string], 1)].
Definition two_manager : service_manager :=
  default builtin_manager (run_registrations two_registrations (service_manager_init builtin_manager)).

Lemma service_manager_prepare_succeeds_witness :
  ∃ u, service_manager_prepare two_manager = Some (AEGIS_OK, u) ∧ service_manager_prepared_count u = 2.
Proof.
  destruct (service_manager_prepare_succeeds two_registrations builtin_manager two_manager) as (u & H & _ & _ & _ & Hn).
  - vm_compute. reflexivity.
  - vm_compute. reflexivity.
  - exists u. split; [exact H|]. rewrite Hn. vm_compute. reflexivity.
Defined.

(** Preparing twice reports an error: the second call counts no service. *)
Lemma service_manager_prepare_twice : fst <$> service_manager_prepare prepared_manager = Some AEGIS_EINVAL.
Proof. vm_compute. reflexivity. Qed.
