(* ===== verification/Userland.v ===== *)
(** The userland catalogue: kernel/core/userland.c, from the registration of
    features to the descriptors of the processes that run them.

    A feature is a program the system can start, bound to a kernel service; a
    process descriptor says where such a program lives in the address space. The
    results of system calls the handoff makes on itself and the file system switch
    are arguments. A pointer to a feature or descriptor is its index. *)

From S2P Require Import Prelude Elf Vfs Services.

Definition AEGIS_USERLAND_FEATURE_MAX : Z := 24.
Definition AEGIS_USERLAND_NAME_MAX : nat := 32.
Definition AEGIS_USERLAND_PATH_MAX : nat := 64.
Definition AEGIS_USERLAND_PROCESS_MAX : Z := 8.
Definition AEGIS_USER_ARG_STRING_MAX : nat := 64.
Definition AEGIS_USER_STACK_BOOTSTRAP_SIZE : Z := 512.
Definition AEGIS_USER_PROCESS_STRIDE : Z := 0x1000000.
Definition AEGIS_USER_STACK_STRIDE : Z := 0x20000.
Definition AEGIS_USER_TEXT_SIZE : Z := 0x200000.
Definition AEGIS_USER_HEAP_BASE : Z := 0x10000000.
Definition AEGIS_USER_HEAP_SIZE : Z := 0x1000000.
Definition AEGIS_USER_IPC_BASE : Z := 0x20000000.
Definition AEGIS_USER_IPC_SIZE : Z := 0x100000.
Definition AEGIS_USER_STACK_TOP : Z := 0x7fff000000.
Definition AEGIS_USER_SYSCALL_GATE : Z := 0x7fffff0000.
Definition REGION_READ : Z := 1.
Definition REGION_WRITE : Z := 2.
Definition REGION_EXEC : Z := 4.
Definition REGION_USER : Z := 8.
Definition REGION_GUARD : Z := 16.
Definition REGION_KERNEL : Z := 32.
Definition REGION_MAPPED : Z := 64.
Definition FLAG_REQUIRED : Z := 1.
Definition FLAG_KERNEL_BACKED : Z := 2.
Definition FLAG_PROCESS : Z := 4.
Definition FLAG_CONTROL_PLANE : Z := 8.
Definition USER_PAGE_SIZE : Z := 4096.

Inductive userland_state :=
  USERLAND_EMPTY | USERLAND_REGISTERED | USERLAND_BOUND | USERLAND_HANDOFF_READY | USERLAND_NATIVE_RUNNING | USERLAND_FAILED.
#[export] Instance userland_state_eq_dec : EqDecision userland_state.
Proof. solve_decision. Defined.

Inductive user_process_state :=
  | UP_EMPTY | UP_DESCRIPTOR_READY | UP_LAYOUT_READY | UP_SYSCALL_ABI_READY | UP_ELF_LOADED | UP_EL0_PROBE_READY
  | UP_EL0_ENTERED | UP_EL0_SVC_TRAPPED | UP_FIRST_LAUNCH_READY | UP_FIRST_RUNNING | UP_FIRST_SYSCALL_TRAPPED
  | UP_FIRST_SYSCALL_RETURN_READY | UP_FIRST_CONTINUED_AFTER_SYSCALL | UP_ARGV_ENVP_READY | UP_SECONDARY_DESCRIPTOR_READY
  | UP_MULTIPROCESS_LAUNCH_READY | UP_NATIVE_SCHEDULED | UP_NATIVE_RUNNING | UP_FIRST_EXITED.
#[export] Instance user_process_state_eq_dec : EqDecision user_process_state.
Proof. solve_decision. Defined.

Record user_region := mk_region { ur_base : Z; ur_size : Z; ur_flags : Z }.
#[export] Instance user_region_eta : Eta user_region := λ r, mk_region (ur_base r) (ur_size r) (ur_flags r).
Definition zero_region : user_region := mk_region 0 0 0.

Record user_descriptor := mk_descriptor {
  ud_id : Z; ud_feature_id : Z; ud_service_id : Z; ud_name : string; ud_image_path : string; ud_state : user_process_state;
  ud_entry : Z; ud_text : user_region; ud_heap : user_region; ud_ipc : user_region; ud_stack : user_region;
  ud_stack_guard : user_region; ud_syscall_gate : Z; ud_initial_sp : Z; ud_argc : Z; ud_envc : Z; ud_argv_user : Z;
  ud_envp_user : Z; ud_auxv_user : Z; ud_bootstrap_sp : Z; ud_bootstrap_stack_bytes : Z; ud_argv : list string; ud_envp : list string;
}.
#[export] Instance user_descriptor_eta : Eta user_descriptor := λ p,
  mk_descriptor (ud_id p) (ud_feature_id p) (ud_service_id p) (ud_name p) (ud_image_path p) (ud_state p) (ud_entry p) (ud_text p)
    (ud_heap p) (ud_ipc p) (ud_stack p) (ud_stack_guard p) (ud_syscall_gate p) (ud_initial_sp p) (ud_argc p) (ud_envc p)
    (ud_argv_user p) (ud_envp_user p) (ud_auxv_user p) (ud_bootstrap_sp p) (ud_bootstrap_stack_bytes p) (ud_argv p) (ud_envp p).
Definition zero_descriptor : user_descriptor :=
  mk_descriptor 0 0 0 EmptyString EmptyString UP_EMPTY 0 zero_region zero_region zero_region zero_region zero_region 0 0 0 0 0 0 0 0 0
    (replicate 4 EmptyString) (replicate 4 EmptyString).

Record userland_feature := mk_feature {
  uf_id : Z; uf_name : string; uf_service_name : string; uf_image_path : string; uf_state : userland_state; uf_flags : Z;
  uf_service_id : Z; uf_live_pid : Z;
}.
#[export] Instance userland_feature_eta : Eta userland_feature := λ f,
  mk_feature (uf_id f) (uf_name f) (uf_service_name f) (uf_image_path f) (uf_state f) (uf_flags f) (uf_service_id f) (uf_live_pid f).
Definition zero_feature : userland_feature := mk_feature 0 EmptyString EmptyString EmptyString USERLAND_EMPTY 0 0 0.

(** The fields of [aegis_userland_handoff_t] that the functions below use. *)
Record userland_handoff := mk_handoff {
  uh_initialised : bool; uh_feature_catalogue_ready : bool; uh_services_bound : bool; uh_syscall_surface_ready : bool;
  uh_handoff_ready : bool; uh_fake_process_descriptor_ready : bool; uh_user_stack_layout_ready : bool;
  uh_syscall_abi_kernel_safe_ready : bool; uh_pre_el0_ready : bool; uh_elf_ready : bool; uh_user_stack_argv_envp_ready : bool;
  uh_multiple_process_descriptors_ready : bool; uh_real_multiprocess_launch_ready : bool;
  uh_elf_entry : Z; uh_elf_text_base : Z; uh_elf_text_size : Z; uh_elf_file_bytes : Z; uh_elf_zero_bytes : Z; uh_elf_flags : Z;
  uh_bootstrap_sp : Z; uh_bootstrap_argv : Z; uh_bootstrap_envp : Z; uh_bootstrap_auxv : Z;
  uh_feature_count : Z; uh_ready_count : Z; uh_bound_count : Z; uh_process_descriptor_count : Z;
  uh_secondary_count : Z; uh_launchable_count : Z; uh_scheduled_count : Z; uh_spawn_request_count : Z; uh_last_spawn_pid : Z;
}.
#[export] Instance userland_handoff_eta : Eta userland_handoff := λ h,
  mk_handoff (uh_initialised h) (uh_feature_catalogue_ready h) (uh_services_bound h) (uh_syscall_surface_ready h) (uh_handoff_ready h)
    (uh_fake_process_descriptor_ready h) (uh_user_stack_layout_ready h) (uh_syscall_abi_kernel_safe_ready h) (uh_pre_el0_ready h)
    (uh_elf_ready h) (uh_user_stack_argv_envp_ready h) (uh_multiple_process_descriptors_ready h) (uh_real_multiprocess_launch_ready h)
    (uh_elf_entry h) (uh_elf_text_base h) (uh_elf_text_size h) (uh_elf_file_bytes h) (uh_elf_zero_bytes h) (uh_elf_flags h)
    (uh_bootstrap_sp h) (uh_bootstrap_argv h) (uh_bootstrap_envp h) (uh_bootstrap_auxv h) (uh_feature_count h) (uh_ready_count h)
    (uh_bound_count h) (uh_process_descriptor_count h) (uh_secondary_count h) (uh_launchable_count h) (uh_scheduled_count h)
    (uh_spawn_request_count h) (uh_last_spawn_pid h).
Definition zero_handoff : userland_handoff :=
  mk_handoff false false false false false false false false false false false false false 0 0 0 0 0 0 0 0 0 0 0 0 0 0 0 0 0 0 0.

Record userland := mk_userland {
  features : list userland_feature; user_processes : list user_descriptor; handoff : userland_handoff;
  next_feature_id : Z; next_process_id : Z;
}.
#[export] Instance userland_eta : Eta userland := λ u,
  mk_userland (features u) (user_processes u) (handoff u) (next_feature_id u) (next_process_id u).

Definition userland_copy_name (dst_len : nat) (src : option string) : string := str_take (dst_len - 1) (default "unnamed"%string src).

(** ** Regions *)

Definition page_aligned (x : Z) : bool := Z.land x (USER_PAGE_SIZE - 1) =? 0.

Definition region_aligned (r : user_region) : bool :=
  negb (ur_size r =? 0) && page_aligned (ur_base r) && page_aligned (ur_size r).

Definition region_end (base size : Z) : option Z :=
  let e := u64 (base + size) in
  if e <=? base then None else Some e.

Definition regions_do_not_overlap (a b : user_region) : bool :=
  match region_end (ur_base a) (ur_size a), region_end (ur_base b) (ur_size b) with
  | Some a_end, Some b_end => (a_end <=? ur_base b) || (b_end <=? ur_base a)
  | _, _ => false
  end.

Definition per_process_text_base (index : Z) : Z := u64 (AEGIS_USER_TEXT_BASE + index * AEGIS_USER_PROCESS_STRIDE).
Definition per_process_heap_base (index : Z) : Z := u64 (AEGIS_USER_HEAP_BASE + index * AEGIS_USER_PROCESS_STRIDE).
Definition per_process_ipc_base (index : Z) : Z := u64 (AEGIS_USER_IPC_BASE + index * (AEGIS_USER_IPC_SIZE * 2)).
Definition per_process_stack_top (index : Z) : Z := u64 (AEGIS_USER_STACK_TOP - index * AEGIS_USER_STACK_STRIDE).

Definition layout (index : Z) (p : user_descriptor) : user_descriptor :=
  let top := per_process_stack_top index in
  let rw := Z.lor (Z.lor REGION_READ REGION_WRITE) REGION_USER in
  let p := p <| ud_text := mk_region (per_process_text_base index) AEGIS_USER_TEXT_SIZE (Z.lor (Z.lor REGION_READ REGION_EXEC) REGION_USER) |>
    <| ud_heap := mk_region (per_process_heap_base index) AEGIS_USER_HEAP_SIZE rw |>
    <| ud_ipc := mk_region (per_process_ipc_base index) AEGIS_USER_IPC_SIZE rw |>
    <| ud_stack := mk_region (u64 (top - AEGIS_USER_STACK_SIZE)) AEGIS_USER_STACK_SIZE rw |> in
  p <| ud_stack_guard := mk_region (u64 (ur_base (ud_stack p) - USER_PAGE_SIZE)) USER_PAGE_SIZE (Z.lor REGION_GUARD REGION_USER) |>
    <| ud_initial_sp := u64 (top - 16) |>.

Definition layout_ok (p : user_descriptor) : bool :=
  (Z.land (ud_initial_sp p) 15 =? 0) &&
  region_aligned (ud_text p) && region_aligned (ud_heap p) && region_aligned (ud_ipc p) && region_aligned (ud_stack p) &&
  region_aligned (ud_stack_guard p) &&
  (u64 (ur_base (ud_stack_guard p) + ur_size (ud_stack_guard p)) =? ur_base (ud_stack p)) &&
  regions_do_not_overlap (ud_text p) (ud_heap p) && regions_do_not_overlap (ud_text p) (ud_ipc p) &&
  regions_do_not_overlap (ud_text p) (ud_stack p) && regions_do_not_overlap (ud_heap p) (ud_ipc p) &&
  regions_do_not_overlap (ud_heap p) (ud_stack p) && regions_do_not_overlap (ud_ipc p) (ud_stack p).

(** The descriptor is assigned before the checks. *)
Definition assign_process_layout (index : Z) (p : user_descriptor) : Z * user_descriptor :=
  let p := layout index p in (if layout_ok p then AEGIS_OK else AEGIS_EINVAL, p).

(** ** Features *)

Definition userland_handoff_init (u : userland) : userland :=
  mk_userland (replicate 24 zero_feature) (replicate 8 zero_descriptor) (zero_handoff <| uh_initialised := true |>) 1 1.

Definition live_features (u : userland) : list userland_feature := take (Z.to_nat (uh_feature_count (handoff u))) (features u).

Definition userland_get_feature (id : Z) (u : userland) : option nat :=
  if (id =? 0) || (uh_feature_count (handoff u) <? id) then None else Some (Z.to_nat (id - 1)).

Definition userland_find_feature (name : option string) (u : userland) : option nat :=
  match name with
  | None => None
  | Some name => find_slot (λ f, negb (bool_decide (uf_state f = USERLAND_EMPTY)) && c_streq (uf_name f) name) (live_features u)
  end.

Definition userland_find_feature_by_path (path : option string) (u : userland) : option nat :=
  match path with
  | None => None
  | Some path => find_slot (λ f, negb (bool_decide (uf_state f = USERLAND_EMPTY)) && c_streq (uf_image_path f) path) (live_features u)
  end.

Definition userland_feature_id_by_name (name : option string) (u : userland) : Z :=
  from_option uf_id 0 (userland_find_feature name u ≫= λ i, features u !! i).

Definition upd_feature (i : nat) (f : userland_feature → userland_feature) (u : userland) : userland := u <| features ::= alter f i |>.
Definition upd_descriptor (i : nat) (f : user_descriptor → user_descriptor) (u : userland) : userland := u <| user_processes ::= alter f i |>.
Definition upd_handoff (f : userland_handoff → userland_handoff) (u : userland) : userland := u <| handoff ::= f |>.
Definition feature (name : string) (u : userland) : option userland_feature := userland_find_feature (Some name) u ≫= λ i, features u !! i.
Definition descriptors (u : userland) : list user_descriptor := take (Z.to_nat (uh_process_descriptor_count (handoff u))) (user_processes u).

(** Where a spawned program was placed. *)
Record placement := mk_placement { pl_entry : Z; pl_text_base : Z; pl_text_size : Z; pl_stack_base : Z; pl_stack_size : Z }.

(** The assignments both branches of [userland_note_native_process_spawn] share. *)
Definition place (pid : Z) (w : placement) (p : user_descriptor) : user_descriptor :=
  p <| ud_id := pid |> <| ud_entry := pl_entry w |>
    <| ud_text := mk_region (pl_text_base w) (pl_text_size w) (Z.lor (Z.lor (Z.lor REGION_READ REGION_EXEC) REGION_USER) REGION_MAPPED) |>
    <| ud_stack := mk_region (pl_stack_base w) (pl_stack_size w) (Z.lor (Z.lor (Z.lor REGION_READ REGION_WRITE) REGION_USER) REGION_MAPPED) |>
    <| ud_initial_sp := Z.ldiff (u64 (pl_stack_base w + pl_stack_size w)) 15 |>
    <| ud_state := UP_NATIVE_SCHEDULED |>.

Definition userland_note_native_process_spawn (name path : option string) (pid : Z) (w : placement) (u : userland) : option (Z * userland) :=
  match name, path with
  | Some name, Some path =>
      if (pid =? 0) || (pl_entry w =? 0) || (pl_text_base w =? 0) || (pl_text_size w =? 0) || (pl_stack_base w =? 0) || (pl_stack_size w =? 0)
      then Some (AEGIS_EINVAL, u)
      else
        match userland_find_feature (Some name) u with
        | None => Some (AEGIS_ENOENT, u)
        | Some i =>
            f ← features u !! i;
            if negb (c_streq (uf_image_path f) path) then Some (AEGIS_ENOENT, u)
            else if negb (uf_live_pid f =? 0) && negb (uf_live_pid f =? pid) then Some (AEGIS_EBUSY, u)
            else
              let u := upd_feature i (λ f, f <| uf_live_pid := pid |>) u in
              match find_slot (λ p, (ud_id p =? pid) || c_streq (ud_name p) name) (descriptors u) with
              | Some k => Some (AEGIS_OK, upd_descriptor k (place pid w) u)
              | None =>
                  let count := uh_process_descriptor_count (handoff u) in
                  if AEGIS_USERLAND_PROCESS_MAX <=? count then Some (AEGIS_ENOMEM, u)
                  else
                    Some (AEGIS_OK,
                      upd_descriptor (Z.to_nat count) (λ _, place pid w zero_descriptor <| ud_feature_id := uf_id f |>
                          <| ud_service_id := uf_service_id f |> <| ud_name := userland_copy_name AEGIS_USERLAND_NAME_MAX (Some name) |>
                          <| ud_image_path := userland_copy_name AEGIS_USERLAND_PATH_MAX (Some path) |>)
                        (upd_handoff (λ h, h <| uh_process_descriptor_count := u32 (count + 1) |>) u))
              end
        end
  | _, _ => Some (AEGIS_EINVAL, u)
  end.

(** The descriptor of [pid] and [name], whose state is set. *)
Definition set_descriptor_state (name : string) (pid : Z) (st : user_process_state) (u : userland) : userland :=
  match find_slot (λ p, (ud_id p =? pid) && c_streq (ud_name p) name) (descriptors u) with
  | Some k => upd_descriptor k (λ p, p <| ud_state := st |>) u
  | None => u
  end.

Definition userland_mark_feature_native_running (name : string) (pid : Z) (u : userland) : option (Z * userland) :=
  match userland_find_feature (Some name) u with
  | None => Some (AEGIS_ENOENT, u)
  | Some i =>
      if pid =? 0 then Some (AEGIS_ENOENT, u)
      else
        f ← features u !! i;
        if negb (bool_decide (uf_state f = USERLAND_HANDOFF_READY)) && negb (bool_decide (uf_state f = USERLAND_NATIVE_RUNNING))
        then Some (AEGIS_EBUSY, u)
        else Some (AEGIS_OK, set_descriptor_state name pid UP_NATIVE_RUNNING
               (upd_feature i (λ f, f <| uf_state := USERLAND_NATIVE_RUNNING |> <| uf_live_pid := pid |>) u))
  end.

Definition userland_mark_feature_native_exited (name : string) (pid exit_code : Z) (u : userland) : option (Z * userland) :=
  match userland_find_feature (Some name) u with
  | None => Some (AEGIS_ENOENT, u)
  | Some i =>
      if pid =? 0 then Some (AEGIS_ENOENT, u)
      else
        f ← features u !! i;
        if negb (uf_live_pid f =? pid) then Some (AEGIS_EPERM, u)
        else Some (AEGIS_OK, set_descriptor_state name pid UP_FIRST_EXITED
               (upd_feature i (λ f, f <| uf_live_pid := 0 |> <| uf_state := USERLAND_HANDOFF_READY |>) u))
  end.

Definition userland_first_process_descriptor (u : userland) : option nat :=
  if uh_process_descriptor_count (handoff u) =? 0 then None else Some 0%nat.
Definition userland_process_descriptor (index : Z) (u : userland) : option nat :=
  if uh_process_descriptor_count (handoff u) <=? index then None else Some (Z.to_nat index).

Definition str_empty (s : string) : bool := c_streq s EmptyString.

Definition register_feature (name service_name image_path : option string) (flags : Z) (u : userland) : Z * userland :=
  if negb (uh_initialised (handoff u)) then (AEGIS_EINVAL, u)
  else
    match name, service_name, image_path with
    | Some n, Some sn, Some ip =>
        if str_empty n || str_empty sn || str_empty ip then (AEGIS_EINVAL, u)
        else if AEGIS_USERLAND_FEATURE_MAX <=? uh_feature_count (handoff u) then (AEGIS_ENOMEM, u)
        else if bool_decide (is_Some (userland_find_feature name u)) then (AEGIS_EBUSY, u)
        else
          let i := Z.to_nat (uh_feature_count (handoff u)) in
          (AEGIS_OK,
           upd_handoff (λ h, h <| uh_feature_count ::= λ c, u32 (c + 1) |>)
             (upd_feature i (λ _, mk_feature (next_feature_id u) (userland_copy_name AEGIS_USERLAND_NAME_MAX name)
                (userland_copy_name AEGIS_USERLAND_NAME_MAX service_name) (userland_copy_name AEGIS_USERLAND_PATH_MAX image_path)
                USERLAND_REGISTERED flags 0 0) u) <| next_feature_id ::= λ n, u32 (n + 1) |>)
    | _, _, _ => (AEGIS_EINVAL, u)
    end.

(** The loop of [bind_registered_features] from feature [i]. *)
Fixpoint bind_from (n i : nat) (m : service_manager) (u : userland) : option (Z * userland) :=
  match n with
  | O => Some (AEGIS_OK, u)
  | S n =>
      f ← features u !! i;
      if negb (bool_decide (uf_state f = USERLAND_REGISTERED)) then Some (AEGIS_EINVAL, u)
      else
        match find_kservice (uf_service_name f) m with
        | Some v =>
            if bool_decide (kv_state v = SERVICE_PREPARED)
            then bind_from n (S i) m (upd_handoff (λ h, h <| uh_bound_count ::= λ c, u32 (c + 1) |>)
                   (upd_feature i (λ f, f <| uf_service_id := kv_id v |> <| uf_state := USERLAND_BOUND |>) u))
            else Some (AEGIS_ENOENT, upd_feature i (λ f, f <| uf_state := USERLAND_FAILED |>) u)
        | None => Some (AEGIS_ENOENT, upd_feature i (λ f, f <| uf_state := USERLAND_FAILED |>) u)
        end
  end.

Definition bind_registered_features (m : service_manager) (u : userland) : option (Z * userland) :=
  if negb (service_manager_is_prepared m) then Some (AEGIS_EINVAL, u)
  else
    '(rc, u) ← bind_from (Z.to_nat (uh_feature_count (handoff u))) 0 m (upd_handoff (λ h, h <| uh_bound_count := 0 |>) u);
    if negb (rc =? AEGIS_OK) then Some (rc, u)
    else
      let bound := uh_bound_count (handoff u) =? uh_feature_count (handoff u) in
      Some (if bound then AEGIS_OK else AEGIS_EINVAL, upd_handoff (λ h, h <| uh_services_bound := bound |>) u).

(** The table of [userland_connect_builtin_features]. *)
Definition builtin_features : list (string * string * string * Z) :=
  let req := Z.lor FLAG_REQUIRED FLAG_PROCESS in
  [("aegis-init", "aegisd", "/sbin/aegis-init", Z.lor req FLAG_CONTROL_PLANE);
   ("service-manager", "aegisd", "/sbin/service-manager", Z.lor req FLAG_CONTROL_PLANE);
   ("aegisd", "aegisd", "/sbin/aegisd", Z.lor req FLAG_CONTROL_PLANE);
   ("securityd", "security", "/sbin/securityd", Z.lor req FLAG_CONTROL_PLANE);
   ("ipcd", "ipc", "/sbin/ipcd", Z.lor req FLAG_KERNEL_BACKED);
   ("capability-broker", "capability", "/sbin/capability-broker", Z.lor req FLAG_KERNEL_BACKED);
   ("netd", "network", "/sbin/netd", req);
   ("firewalld", "firewall", "/sbin/firewalld", req);
   ("routerd", "router", "/sbin/routerd", Z.lor req FLAG_CONTROL_PLANE);
   ("devmgr", "devfs", "/sbin/devmgr", Z.lor req FLAG_KERNEL_BACKED);
   ("procd", "procfs", "/sbin/procd", Z.lor req FLAG_KERNEL_BACKED);
   ("rustmyadmin", "aegisd", "/opt/aegisos/rustmyadmin", Z.lor FLAG_PROCESS FLAG_CONTROL_PLANE);
   ("dashboard", "aegisd", "/sbin/dashboard", Z.lor FLAG_PROCESS FLAG_CONTROL_PLANE);
   ("phoenix-feature-bridge", "router", "/sbin/phoenix-feature-bridge", Z.lor FLAG_PROCESS FLAG_CONTROL_PLANE)]%string.

Fixpoint register_features (l : list (string * string * string * Z)) (u : userland) : Z * userland :=
  match l with
  | [] => (AEGIS_OK, u)
  | (name, service, path, flags) :: l =>
      let '(rc, u) := register_feature (Some name) (Some service) (Some path) flags u in
      if rc =? AEGIS_OK then register_features l u else (rc, u)
  end.

Definition userland_connect_builtin_features (m : service_manager) (u : userland) : option (Z * userland) :=
  if negb (uh_initialised (handoff u)) then Some (AEGIS_EINVAL, u)
  else
    let '(rc, u) := register_features builtin_features u in
    if rc =? AEGIS_OK then bind_registered_features m (upd_handoff (λ h, h <| uh_feature_catalogue_ready := true |>) u)
    else Some (rc, u).

(** ** Handoff *)

Definition SYS_WRITE : Z := 1.
Definition SYS_OPEN : Z := 2.
Definition SYS_GETPID : Z := 5.
Definition SYS_MMAP : Z := 6.

Section handoff.
(** The result of a system call with the given number and first argument; the
    other arguments are 0. *)
Context (nr_syscalls : Z) (syscall_dispatch : Z → Z → Z).

Definition syscall_surface_selftest : Z :=
  if syscall_dispatch SYS_GETPID 0 <? 0 then AEGIS_EINVAL
  else if negb (syscall_dispatch (nr_syscalls + 16) 0 =? AEGIS_EINVAL) then AEGIS_EINVAL
  else AEGIS_OK.

Fixpoint ready_from (n i : nat) (u : userland) : option (Z * userland) :=
  match n with
  | O => Some (AEGIS_OK, u)
  | S n =>
      f ← features u !! i;
      if negb (bool_decide (uf_state f = USERLAND_BOUND)) then Some (AEGIS_EINVAL, u)
      else ready_from n (S i) (upd_handoff (λ h, h <| uh_ready_count ::= λ c, u32 (c + 1) |>)
             (upd_feature i (λ f, f <| uf_state := USERLAND_HANDOFF_READY |>) u))
  end.

Definition userland_prepare_handoff (v : vfs_state) (u : userland) : option (Z * userland) :=
  let h := handoff u in
  if negb (uh_initialised h) || negb (uh_feature_catalogue_ready h) || negb (uh_services_bound h) then Some (AEGIS_EINVAL, u)
  else if negb (vfs_is_mounted (Some "/"%string) v) || negb (vfs_is_mounted (Some "/dev"%string) v) || negb (vfs_is_mounted (Some "/proc"%string) v)
  then Some (AEGIS_EINVAL, u)
  else if negb (syscall_surface_selftest =? AEGIS_OK) then Some (AEGIS_EINVAL, u)
  else
    '(rc, u) ← ready_from (Z.to_nat (uh_feature_count h)) 0
                 (upd_handoff (λ h, h <| uh_syscall_surface_ready := true |> <| uh_ready_count := 0 |>) u);
    if negb (rc =? AEGIS_OK) then Some (rc, u)
    else
      let ready := uh_ready_count (handoff u) =? uh_feature_count (handoff u) in
      Some (if ready then AEGIS_OK else AEGIS_EINVAL, upd_handoff (λ h, h <| uh_handoff_ready := ready |>) u).

Definition create_fake_first_process_descriptor (u : userland) : Z * userland :=
  if negb (uh_handoff_ready (handoff u)) then (AEGIS_EINVAL, u)
  else if negb (uh_process_descriptor_count (handoff u) =? 0) then (AEGIS_EBUSY, u)
  else
    match feature "aegis-init" u with
    | None => (AEGIS_ENOENT, u)
    | Some init =>
        if negb (bool_decide (uf_state init = USERLAND_HANDOFF_READY)) then (AEGIS_ENOENT, u)
        else if negb (has_flag (uf_flags init) FLAG_PROCESS) then (AEGIS_EINVAL, u)
        else
          (AEGIS_OK,
           upd_handoff (λ h, h <| uh_process_descriptor_count := 1 |> <| uh_fake_process_descriptor_ready := true |>)
             (upd_descriptor 0 (λ _, zero_descriptor <| ud_id := next_process_id u |> <| ud_feature_id := uf_id init |>
                <| ud_service_id := uf_service_id init |> <| ud_state := UP_DESCRIPTOR_READY |> <| ud_entry := AEGIS_USER_TEXT_BASE |>
                <| ud_syscall_gate := AEGIS_USER_SYSCALL_GATE |> <| ud_name := userland_copy_name AEGIS_USERLAND_NAME_MAX (Some (uf_name init)) |>
                <| ud_image_path := userland_copy_name AEGIS_USERLAND_PATH_MAX (Some (uf_image_path init)) |>) u)
             <| next_process_id ::= λ n, u32 (n + 1) |>)
    end.

Definition prove_user_stack_and_address_layout (u : userland) : option (Z * userland) :=
  p ← user_processes u !! 0%nat;
  if negb (uh_fake_process_descriptor_ready (handoff u)) || negb (bool_decide (ud_state p = UP_DESCRIPTOR_READY)) then Some (AEGIS_EINVAL, u)
  else
    let '(rc, p) := assign_process_layout 0 p in
    let u := upd_descriptor 0 (λ _, p) u in
    if negb (rc =? AEGIS_OK) then Some (AEGIS_EINVAL, u)
    else if (ud_entry p <? ur_base (ud_text p)) || (u64 (ur_base (ud_text p) + ur_size (ud_text p)) <=? ud_entry p) then Some (AEGIS_EINVAL, u)
    else Some (AEGIS_OK, upd_handoff (λ h, h <| uh_user_stack_layout_ready := true |>) (upd_descriptor 0 (λ p, p <| ud_state := UP_LAYOUT_READY |>) u)).

Definition prove_syscall_abi_kernel_safe (u : userland) : option (Z * userland) :=
  p ← user_processes u !! 0%nat;
  if negb (uh_user_stack_layout_ready (handoff u)) || negb (bool_decide (ud_state p = UP_LAYOUT_READY)) then Some (AEGIS_EINVAL, u)
  else if (syscall_dispatch SYS_GETPID 0 <? 0) || negb (syscall_dispatch SYS_WRITE 1 =? AEGIS_EINVAL) ||
          negb (syscall_dispatch SYS_OPEN 0 =? AEGIS_EINVAL) || negb (syscall_dispatch SYS_MMAP AEGIS_USER_HEAP_BASE =? AEGIS_EINVAL) ||
          negb (syscall_dispatch (nr_syscalls + 64) 0 =? AEGIS_EINVAL)
  then Some (AEGIS_EINVAL, u)
  else if negb (page_aligned (ud_syscall_gate p)) || (ud_syscall_gate p <=? ur_base (ud_stack p)) then Some (AEGIS_EINVAL, u)
  else Some (AEGIS_OK, upd_handoff (λ h, h <| uh_syscall_abi_kernel_safe_ready := true |>)
         (upd_descriptor 0 (λ p, p <| ud_state := UP_SYSCALL_ABI_READY |>) u)).

Definition userland_prepare_pre_el0_contract (u : userland) : option (Z * userland) :=
  if negb (uh_handoff_ready (handoff u)) then Some (AEGIS_EINVAL, u)
  else
    let '(rc, u) := create_fake_first_process_descriptor u in
    if negb (rc =? AEGIS_OK) then Some (rc, u)
    else
      '(rc, u) ← prove_user_stack_and_address_layout u;
      if negb (rc =? AEGIS_OK) then Some (rc, u)
      else
        '(rc, u) ← prove_syscall_abi_kernel_safe u;
        if negb (rc =? AEGIS_OK) then Some (rc, u)
        else Some (AEGIS_OK, upd_handoff (λ h, h <| uh_pre_el0_ready := true |>) u).

End handoff.

Definition feature_ready (f : userland_feature) : bool := bool_decide (uf_state f = USERLAND_HANDOFF_READY).

Definition userland_selftest (u : userland) : Z :=
  let h := handoff u in
  if negb (uh_initialised h) || negb (uh_feature_catalogue_ready h) || negb (uh_services_bound h) ||
     negb (uh_syscall_surface_ready h) || negb (uh_handoff_ready h) || (uh_feature_count h <? 10) ||
     negb (uh_bound_count h =? uh_feature_count h) || negb (uh_ready_count h =? uh_feature_count h)
  then AEGIS_EINVAL
  else
    match feature "aegis-init" u, feature "routerd" u, feature "rustmyadmin" u, feature "phoenix-feature-bridge" u with
    | Some init, Some router, Some admin, Some bridge =>
        if negb (feature_ready init) || negb (feature_ready router) || negb (feature_ready admin) || negb (feature_ready bridge)
        then AEGIS_EINVAL
        else if negb (has_flag (uf_flags init) FLAG_REQUIRED) || negb (has_flag (uf_flags router) FLAG_CONTROL_PLANE) ||
                negb (has_flag (uf_flags admin) FLAG_CONTROL_PLANE)
        then AEGIS_EINVAL
        else AEGIS_OK
    | _, _, _, _ => AEGIS_ENOENT
    end.

Definition first_descriptor (u : userland) : option user_descriptor := userland_first_process_descriptor u ≫= λ i, user_processes u !! i.

Definition userland_pre_el0_selftest (u : userland) : Z :=
  let h := handoff u in
  if negb (uh_pre_el0_ready h) || negb (uh_fake_process_descriptor_ready h) || negb (uh_user_stack_layout_ready h) ||
     negb (uh_syscall_abi_kernel_safe_ready h) || negb (uh_process_descriptor_count h =? 1)
  then AEGIS_EINVAL
  else
    match first_descriptor u with
    | None => AEGIS_ENOENT
    | Some p =>
        if negb (bool_decide (ud_state p = UP_SYSCALL_ABI_READY)) || negb (c_streq (ud_name p) "aegis-init") ||
           negb (c_streq (ud_image_path p) "/sbin/aegis-init") || negb (ur_base (ud_text p) =? AEGIS_USER_TEXT_BASE) ||
           negb (ur_size (ud_stack p) =? AEGIS_USER_STACK_SIZE) || negb (Z.land (ud_initial_sp p) 15 =? 0) ||
           negb (has_flag (ur_flags (ud_text p)) REGION_EXEC) || negb (has_flag (ur_flags (ud_stack p)) REGION_WRITE) ||
           negb (has_flag (ur_flags (ud_stack_guard p)) REGION_GUARD)
        then AEGIS_EINVAL else AEGIS_OK
    end.

(** [path] is not NULL. *)
Definition userland_bind_first_process_to_loaded_elf (path : string) (entry text_base text_size text_flags file_bytes_copied zero_bytes : Z)
    (u : userland) : option (Z * userland) :=
  let h := handoff u in
  let required := Z.lor (Z.lor (Z.lor REGION_READ REGION_EXEC) REGION_USER) REGION_MAPPED in
  if negb (uh_pre_el0_ready h) || negb (uh_process_descriptor_count h =? 1) then Some (AEGIS_EINVAL, u)
  else if (entry =? 0) || (text_base =? 0) || (text_size =? 0) || negb (Z.land entry 3 =? 0) || negb (page_aligned text_base) ||
          negb (page_aligned text_size) || (file_bytes_copied =? 0) || (text_size <? file_bytes_copied) ||
          negb (zero_bytes =? u64 (text_size - file_bytes_copied)) || negb (Z.land text_flags required =? required)
  then Some (AEGIS_EINVAL, u)
  else if has_flag text_flags REGION_WRITE || has_flag text_flags REGION_KERNEL then Some (AEGIS_EPERM, u)
  else
    p ← user_processes u !! 0%nat;
    if (negb (bool_decide (ud_state p = UP_SYSCALL_ABI_READY)) && negb (bool_decide (ud_state p = UP_ELF_LOADED))) ||
       negb (c_streq (ud_name p) "aegis-init") || negb (c_streq (ud_image_path p) path) ||
       (entry <? text_base) || (u64 (text_base + text_size) <=? entry)
    then Some (AEGIS_EINVAL, u)
    else
      Some (AEGIS_OK,
        upd_handoff (λ h, h <| uh_elf_ready := true |> <| uh_elf_entry := entry |> <| uh_elf_text_base := text_base |>
            <| uh_elf_text_size := text_size |> <| uh_elf_file_bytes := file_bytes_copied |> <| uh_elf_zero_bytes := zero_bytes |>
            <| uh_elf_flags := text_flags |>)
          (upd_descriptor 0 (λ p, p <| ud_entry := entry |> <| ud_text := mk_region text_base text_size text_flags |>
             <| ud_state := UP_ELF_LOADED |>) u)).

Definition userland_bind_first_process_to_elf (path : string) (entry text_base text_size : Z) (u : userland) : option (Z * userland) :=
  userland_bind_first_process_to_loaded_elf path entry text_base text_size
    (Z.lor (Z.lor (Z.lor REGION_READ REGION_EXEC) REGION_USER) REGION_MAPPED) 1 (u64 (text_size - 1)) u.

Definition userland_first_process_elf_loader_selftest (u : userland) : Z :=
  let h := handoff u in
  if negb (uh_elf_ready h) || (uh_elf_entry h =? 0) || (uh_elf_text_base h =? 0) || (uh_elf_text_size h =? 0) ||
     negb (page_aligned (uh_elf_text_base h)) || negb (page_aligned (uh_elf_text_size h)) || (uh_elf_entry h <? uh_elf_text_base h) ||
     (u64 (uh_elf_text_base h + uh_elf_text_size h) <=? uh_elf_entry h)
  then AEGIS_EINVAL
  else
    match first_descriptor u with
    | None => AEGIS_ENOENT
    | Some p =>
        if negb (bool_decide (ud_state p = UP_ELF_LOADED)) || negb (ud_entry p =? uh_elf_entry h) ||
           negb (ur_base (ud_text p) =? uh_elf_text_base h) || negb (ur_size (ud_text p) =? uh_elf_text_size h) ||
           negb (has_flag (ur_flags (ud_text p)) REGION_EXEC)
        then AEGIS_EINVAL else AEGIS_OK
    end.

Definition userland_pt_load_permissions_selftest (u : userland) : Z :=
  let h := handoff u in
  if negb (uh_elf_ready h) || (uh_elf_file_bytes h =? 0) || (uh_elf_text_size h <? uh_elf_file_bytes h) ||
     negb (uh_elf_zero_bytes h =? u64 (uh_elf_text_size h - uh_elf_file_bytes h))
  then AEGIS_EINVAL
  else
    match first_descriptor u with
    | None => AEGIS_ENOENT
    | Some p =>
        let text := ur_flags (ud_text p) in
        if negb (has_flag text REGION_READ) || negb (has_flag text REGION_EXEC) || negb (has_flag text REGION_USER) ||
           negb (has_flag text REGION_MAPPED)
        then AEGIS_EINVAL
        else if has_flag text REGION_WRITE then AEGIS_EPERM
        else if negb (has_flag (ur_flags (ud_heap p)) REGION_WRITE) then AEGIS_EINVAL
        else if has_flag (ur_flags (ud_heap p)) REGION_EXEC then AEGIS_EPERM
        else if negb (has_flag (ur_flags (ud_stack p)) REGION_WRITE) then AEGIS_EINVAL
        else if has_flag (ur_flags (ud_stack p)) REGION_EXEC then AEGIS_EPERM
        else if negb (has_flag (ur_flags (ud_stack_guard p)) REGION_GUARD) then AEGIS_EINVAL
        else AEGIS_OK
    end.

(** The argument vectors and the stack pointers below the top of the stack; the
    flag says whether [bootstrap_sp] lies in the stack. *)
Definition bootstrap (argv envp : list string) (p : user_descriptor) : bool * user_descriptor :=
  let args l old := (userland_copy_name AEGIS_USER_ARG_STRING_MAX ∘ Some <$> l) ++ drop (length l) old in
  let top := u64 (ur_base (ud_stack p) + ur_size (ud_stack p)) in
  let sp := Z.ldiff (u64 (top - AEGIS_USER_STACK_BOOTSTRAP_SIZE)) 15 in
  let p := p <| ud_argc := Z.of_nat (length argv) |> <| ud_envc := Z.of_nat (length envp) |>
             <| ud_argv ::= args argv |> <| ud_envp ::= args envp |> in
  if (sp <? ur_base (ud_stack p)) || (top <=? sp) then (false, p)
  else
    let envp_user := u64 (sp + (ud_argc p + 1) * 8) in
    (true, p <| ud_bootstrap_sp := sp |> <| ud_bootstrap_stack_bytes := AEGIS_USER_STACK_BOOTSTRAP_SIZE |> <| ud_argv_user := sp |>
             <| ud_envp_user := envp_user |> <| ud_auxv_user := u64 (envp_user + (ud_envc p + 1) * 8) |> <| ud_initial_sp := sp |>).

Definition stack_top (p : user_descriptor) : Z := u64 (ur_base (ud_stack p) + ur_size (ud_stack p)).

Definition userland_prepare_user_stack_bootstrap (u : userland) : option (Z * userland) :=
  let h := handoff u in
  if negb (uh_elf_ready h) then Some (AEGIS_EINVAL, u)
  else if uh_process_descriptor_count h <? 1 then Some (AEGIS_ENOENT, u)
  else
    p ← user_processes u !! 0%nat;
    if negb (bool_decide (ud_state p = UP_ELF_LOADED)) || negb (c_streq (ud_name p) "aegis-init") ||
       negb (c_streq (ud_image_path p) "/sbin/aegis-init")
    then Some (AEGIS_EINVAL, u)
    else
      let '(inside, p) := bootstrap ["/sbin/aegis-init"; "--system"; "--router-bringup"]
                            ["PATH=/sbin:/bin"; "AEGIS_PROFILE=router"; "RUSTMYADMIN_MODE=kernel-handoff"] p in
      if negb inside then Some (AEGIS_EINVAL, upd_descriptor 0 (λ _, p) u)
      else
        let p := p <| ud_state := UP_ARGV_ENVP_READY |> in
        let u := upd_descriptor 0 (λ _, p) u in
        if (ud_argv_user p <? ur_base (ud_stack p)) || (stack_top p <=? ud_auxv_user p) || negb (Z.land (ud_initial_sp p) 15 =? 0)
        then Some (AEGIS_EINVAL, u)
        else
          Some (AEGIS_OK, upd_handoff (λ h, h <| uh_user_stack_argv_envp_ready := true |> <| uh_bootstrap_sp := ud_bootstrap_sp p |>
            <| uh_bootstrap_argv := ud_argv_user p |> <| uh_bootstrap_envp := ud_envp_user p |> <| uh_bootstrap_auxv := ud_auxv_user p |>) u).

Definition userland_user_stack_bootstrap_selftest (u : userland) : Z :=
  let h := handoff u in
  if negb (uh_user_stack_argv_envp_ready h) then AEGIS_EINVAL
  else
    match first_descriptor u with
    | None => AEGIS_ENOENT
    | Some p =>
        let arg l (i : nat) := default EmptyString (l !! i) in
        if negb (bool_decide (ud_state p = UP_ARGV_ENVP_READY)) || negb (ud_argc p =? 3) || negb (ud_envc p =? 3) ||
           negb (c_streq (arg (ud_argv p) 0%nat) "/sbin/aegis-init") || negb (c_streq (arg (ud_argv p) 1%nat) "--system") ||
           negb (c_streq (arg (ud_envp p) 0%nat) "PATH=/sbin:/bin") ||
           negb (ud_bootstrap_stack_bytes p =? AEGIS_USER_STACK_BOOTSTRAP_SIZE) || negb (ud_bootstrap_sp p =? uh_bootstrap_sp h) ||
           negb (ud_argv_user p =? uh_bootstrap_argv h) || negb (ud_envp_user p =? uh_bootstrap_envp h) ||
           negb (ud_initial_sp p =? ud_bootstrap_sp p) || negb (Z.land (ud_initial_sp p) 15 =? 0) ||
           (ud_initial_sp p <? ur_base (ud_stack p)) || (stack_top p <=? ud_initial_sp p)
        then AEGIS_EINVAL else AEGIS_OK
    end.

Definition create_secondary_process_descriptor (feature_name : string) (index : Z) (u : userland) : Z * userland :=
  if AEGIS_USERLAND_PROCESS_MAX <=? index then (AEGIS_ENOMEM, u)
  else
    match feature feature_name u with
    | None => (AEGIS_ENOENT, u)
    | Some f =>
        if negb (feature_ready f) then (AEGIS_ENOENT, u)
        else if negb (has_flag (uf_flags f) FLAG_PROCESS) then (AEGIS_EINVAL, u)
        else
          let p := zero_descriptor <| ud_id := next_process_id u |> <| ud_feature_id := uf_id f |> <| ud_service_id := uf_service_id f |>
            <| ud_state := UP_SECONDARY_DESCRIPTOR_READY |> <| ud_entry := per_process_text_base index |>
            <| ud_syscall_gate := AEGIS_USER_SYSCALL_GATE |> <| ud_name := userland_copy_name AEGIS_USERLAND_NAME_MAX (Some (uf_name f)) |>
            <| ud_image_path := userland_copy_name AEGIS_USERLAND_PATH_MAX (Some (uf_image_path f)) |> in
          let '(rc, p) := assign_process_layout index p in
          let p := if rc =? AEGIS_OK then p <| ud_entry := ur_base (ud_text p) |> else p in
          (if rc =? AEGIS_OK then AEGIS_OK else AEGIS_EINVAL,
           upd_descriptor (Z.to_nat index) (λ _, p) u <| next_process_id ::= λ n, u32 (n + 1) |>)
    end.

Fixpoint create_secondaries (names : list string) (count : Z) (u : userland) : Z * Z * userland :=
  match names with
  | [] => (AEGIS_OK, count, u)
  | name :: names =>
      let '(rc, u) := create_secondary_process_descriptor name count u in
      if rc =? AEGIS_OK then create_secondaries names (u32 (count + 1)) u else (rc, count, u)
  end.

Definition userland_create_multiple_process_descriptors (u : userland) : Z * userland :=
  if negb (uh_user_stack_argv_envp_ready (handoff u)) then (AEGIS_EINVAL, u)
  else if negb (uh_process_descriptor_count (handoff u) =? 1) then (AEGIS_EBUSY, u)
  else
    let '(rc, count, u) := create_secondaries ["aegisd"; "routerd"; "rustmyadmin"]%string 1 u in
    if rc =? AEGIS_OK then
      (AEGIS_OK, upd_handoff (λ h, h <| uh_process_descriptor_count := count |> <| uh_secondary_count := u32 (count - 1) |>
         <| uh_launchable_count := count |> <| uh_multiple_process_descriptors_ready := true |>) u)
    else (rc, u).

(** The checks on the descriptors [1 .. count): the first result that is not OK. *)
Definition secondary_check (before : list user_descriptor) (p : user_descriptor) : Z :=
  if (ud_id p =? 0) || (ud_feature_id p =? 0) || (ud_service_id p =? 0) ||
     negb (bool_decide (ud_state p = UP_SECONDARY_DESCRIPTOR_READY)) || str_empty (ud_name p) || str_empty (ud_image_path p) ||
     negb (region_aligned (ud_text p)) || negb (region_aligned (ud_heap p)) || negb (region_aligned (ud_stack p)) ||
     negb (has_flag (ur_flags (ud_stack p)) REGION_WRITE)
  then AEGIS_EINVAL
  else if has_flag (ur_flags (ud_stack p)) REGION_EXEC then AEGIS_EPERM
  else if forallb (λ q, negb (ud_id p =? ud_id q) && regions_do_not_overlap (ud_stack p) (ud_stack q) &&
                        regions_do_not_overlap (ud_text p) (ud_text q)) before
  then AEGIS_OK else AEGIS_EINVAL.

Fixpoint secondary_checks (before l : list user_descriptor) : Z :=
  match l with
  | [] => AEGIS_OK
  | p :: l => let rc := secondary_check before p in if rc =? AEGIS_OK then secondary_checks (before ++ [p]) l else rc
  end.

Definition userland_multiple_process_descriptors_selftest (u : userland) : Z :=
  let h := handoff u in
  if negb (uh_multiple_process_descriptors_ready h) || (uh_process_descriptor_count h <? 4) || (uh_secondary_count h <? 3) then AEGIS_EINVAL
  else
    match first_descriptor u with
    | None => AEGIS_EINVAL
    | Some first =>
        if negb (c_streq (ud_name first) "aegis-init") || negb (bool_decide (ud_state first = UP_ARGV_ENVP_READY)) then AEGIS_EINVAL
        else secondary_checks (take 1 (descriptors u)) (drop 1 (descriptors u))
    end.

Definition prepare_descriptor_bootstrap (mode : string) (p : user_descriptor) : Z * user_descriptor :=
  if (ur_size (ud_stack p) =? 0) || (ur_base (ud_stack p) =? 0) then (AEGIS_EINVAL, p)
  else
    let '(inside, p) := bootstrap [ud_image_path p; mode] ["PATH=/sbin:/bin"; "AEGIS_PROFILE=router"] p in
    if negb inside then (AEGIS_EINVAL, p)
    else if negb (Z.land (ud_initial_sp p) 15 =? 0) || (stack_top p <=? ud_auxv_user p) then (AEGIS_EINVAL, p)
    else (AEGIS_OK, p).

(** One turn of the loop of [userland_prepare_real_multiprocess_launch_path]. *)
Definition launch_prepare (i : nat) (p : user_descriptor) : Z * user_descriptor :=
  if (ud_id p =? 0) || str_empty (ud_name p) || str_empty (ud_image_path p) || negb (region_aligned (ud_text p)) ||
     negb (region_aligned (ud_heap p)) || negb (region_aligned (ud_stack p)) || negb (has_flag (ur_flags (ud_text p)) REGION_USER) ||
     negb (has_flag (ur_flags (ud_stack p)) REGION_WRITE)
  then (AEGIS_EINVAL, p)
  else if has_flag (ur_flags (ud_stack p)) REGION_EXEC then (AEGIS_EPERM, p)
  else
    let ready := bool_decide (ud_state p = UP_MULTIPROCESS_LAUNCH_READY) in
    let '(rc, p) :=
      match i with
      | O =>
          if (negb (bool_decide (ud_state p = UP_ARGV_ENVP_READY)) && negb ready) || (ud_argc p =? 0) || (ud_envc p =? 0) || (ud_bootstrap_sp p =? 0)
          then (AEGIS_EINVAL, p) else (AEGIS_OK, p)
      | S _ =>
          if negb (bool_decide (ud_state p = UP_SECONDARY_DESCRIPTOR_READY)) && negb ready then (AEGIS_EINVAL, p)
          else prepare_descriptor_bootstrap "--service" p
      end in
    if rc =? AEGIS_OK then (AEGIS_OK, p <| ud_state := UP_MULTIPROCESS_LAUNCH_READY |>) else (rc, p).

Fixpoint launch_prepare_from (n i : nat) (u : userland) : option (Z * userland) :=
  match n with
  | O => Some (AEGIS_OK, u)
  | S n =>
      p ← user_processes u !! i;
      let '(rc, p) := launch_prepare i p in
      let u := upd_descriptor i (λ _, p) u in
      if rc =? AEGIS_OK then launch_prepare_from n (S i) u else Some (rc, u)
  end.

Definition userland_prepare_real_multiprocess_launch_path (u : userland) : option (Z * userland) :=
  let count := uh_process_descriptor_count (handoff u) in
  if negb (uh_multiple_process_descriptors_ready (handoff u)) || (count <? 4) then Some (AEGIS_EINVAL, u)
  else
    '(rc, u) ← launch_prepare_from (Z.to_nat count) 0 u;
    if rc =? AEGIS_OK
    then Some (AEGIS_OK, upd_handoff (λ h, h <| uh_real_multiprocess_launch_ready := true |> <| uh_scheduled_count := count |>
           <| uh_launchable_count := count |>) u)
    else Some (rc, u).

Definition launch_ok (p : user_descriptor) : bool :=
  bool_decide (ud_state p = UP_MULTIPROCESS_LAUNCH_READY) && negb (ud_entry p =? 0) && negb (ud_initial_sp p =? 0) &&
  (Z.land (ud_initial_sp p) 15 =? 0) && (ur_base (ud_stack p) <=? ud_initial_sp p) && (ud_initial_sp p <? stack_top p) &&
  negb (ud_argc p =? 0) && negb (ud_envc p =? 0).

Definition userland_real_multiprocess_launch_selftest (u : userland) : Z :=
  let h := handoff u in
  let saw name := existsb (λ p, c_streq (ud_name p) name) (descriptors u) in
  if negb (uh_real_multiprocess_launch_ready h) || negb (uh_scheduled_count h =? uh_process_descriptor_count h) || (uh_launchable_count h <? 4) ||
     negb (forallb launch_ok (descriptors u))
  then AEGIS_EINVAL
  else if saw "aegis-init" && saw "aegisd" && saw "routerd" && saw "rustmyadmin" then AEGIS_OK else AEGIS_ENOENT.

(** [path] is not NULL. *)
Definition userland_request_process_launch_by_path (path : string) (u : userland) : option (Z * userland) :=
  if negb (uh_real_multiprocess_launch_ready (handoff u)) then Some (AEGIS_EINVAL, u)
  else
    match find_slot (λ p, c_streq (ud_image_path p) path || c_streq (ud_name p) path) (descriptors u) with
    | None => Some (AEGIS_ENOENT, u)
    | Some i =>
        p ← user_processes u !! i;
        if negb (bool_decide (ud_state p = UP_MULTIPROCESS_LAUNCH_READY)) && negb (bool_decide (ud_state p = UP_FIRST_LAUNCH_READY)) &&
           negb (bool_decide (ud_state p = UP_FIRST_RUNNING))
        then Some (AEGIS_EBUSY, u)
        else Some (ud_id p, upd_handoff (λ h, h <| uh_spawn_request_count ::= λ c, u32 (c + 1) |> <| uh_last_spawn_pid := ud_id p |>) u)
    end.

(** * The address space *)

Definition regions (p : user_descriptor) : list user_region := [ud_text p; ud_heap p; ud_ipc p; ud_stack p; ud_stack_guard p].
Definition disjoint_regions (a b : user_region) : Prop := ur_base a + ur_size a ≤ ur_base b ∨ ur_base b + ur_size b ≤ ur_base a.
(** Write and execute permission exclude each other. *)
Definition w_xor_x (r : user_region) : Prop := has_flag (ur_flags r) REGION_WRITE && has_flag (ur_flags r) REGION_EXEC = false.

(** The layout of a process, without wrap-around. *)
Lemma layout_regions index p :
  0 ≤ index < AEGIS_USERLAND_PROCESS_MAX →
  regions (layout index p) =
    [mk_region (0x400000 + index * 0x1000000) 0x200000 13; mk_region (0x10000000 + index * 0x1000000) 0x1000000 11;
     mk_region (0x20000000 + index * 0x200000) 0x100000 11; mk_region (0x7fff000000 - index * 0x20000 - 0x10000) 0x10000 11;
     mk_region (0x7fff000000 - index * 0x20000 - 0x10000 - 4096) 4096 24].
Proof.
  unfold AEGIS_USERLAND_PROCESS_MAX. intros Hi. unfold regions, layout. cbn -[u64 per_process_text_base per_process_heap_base per_process_ipc_base per_process_stack_top].
  unfold per_process_text_base, per_process_heap_base, per_process_ipc_base, per_process_stack_top.
  unfold AEGIS_USER_TEXT_BASE, AEGIS_USER_HEAP_BASE, AEGIS_USER_IPC_BASE, AEGIS_USER_STACK_TOP, AEGIS_USER_PROCESS_STRIDE, AEGIS_USER_IPC_SIZE,
    AEGIS_USER_STACK_STRIDE, AEGIS_USER_STACK_SIZE, USER_PAGE_SIZE, AEGIS_USER_TEXT_SIZE, AEGIS_USER_HEAP_SIZE.
  rewrite (u64_small (_ - index * _)) by lia. rewrite (u64_small (_ - index * _ - _)) by lia. rewrite !u64_small by lia.
  repeat match goal with |- _ :: _ = _ :: _ => f_equal | |- mk_region _ _ _ = mk_region _ _ _ => f_equal end; first [reflexivity|lia].
Qed.

Lemma layout_ok_ext index p q : layout_ok (layout index p) = layout_ok (layout index q).
Proof. reflexivity. Qed.

(** Reads off the five regions. *)
Ltac region_cases :=
  repeat match goal with
    | H : _ ∈ _ :: _ |- _ => apply elem_of_cons in H as [->|H]
    | H : _ ∈ [] |- _ => by apply not_elem_of_nil in H
    end.

(** Processes have separate address ranges.  For each of the eight process
    slots [assign_process_layout] succeeds; its text, heap, message area, stack
    and guard page are page-aligned, lie below 2^39 and overlap neither each
    other nor any region of another slot; the guard page ends where the stack
    begins; no region is writable and executable. *)
Theorem process_layouts_disjoint i j p q :
  0 ≤ i < AEGIS_USERLAND_PROCESS_MAX → 0 ≤ j < AEGIS_USERLAND_PROCESS_MAX →
  let '(rc, a) := assign_process_layout i p in
  let '(_, b) := assign_process_layout j q in
  rc = AEGIS_OK ∧
  Forall (λ r, 0 < ur_base r ∧ 0 < ur_size r ∧ ur_base r + ur_size r < 2 ^ 39 ∧
               ur_base r mod 4096 = 0 ∧ ur_size r mod 4096 = 0 ∧ w_xor_x r) (regions a) ∧
  ur_base (ud_stack_guard a) + ur_size (ud_stack_guard a) = ur_base (ud_stack a) ∧
  (∀ k l r r', k ≠ l → regions a !! k = Some r → regions a !! l = Some r' → disjoint_regions r r') ∧
  (i ≠ j → ∀ r r', r ∈ regions a → r' ∈ regions b → disjoint_regions r r').
Proof.
  intros Hi Hj. unfold assign_process_layout. cbn zeta. split_and!.
  - replace (layout_ok (layout i p)) with true; [done|]. rewrite (layout_ok_ext i p zero_descriptor). unfold AEGIS_USERLAND_PROCESS_MAX in Hi.
    assert (i = 0 ∨ i = 1 ∨ i = 2 ∨ i = 3 ∨ i = 4 ∨ i = 5 ∨ i = 6 ∨ i = 7) as Hc by lia.
    destruct Hc as [->|[->|[->|[->|[->|[->|[->| ->]]]]]]]; vm_compute; reflexivity.
  - rewrite layout_regions by done. unfold AEGIS_USERLAND_PROCESS_MAX in *.
    repeat (apply Forall_cons; split; [cbn [ur_base ur_size ur_flags]; unfold w_xor_x; split_and!; first [done|lia|divlia]|]). by apply Forall_nil.
  - assert (∀ k r, regions (layout i p) !! k = Some r → ∀ r', regions (layout i p) !! k = Some r' → r = r') as Huniq by congruence.
    rewrite (Huniq 4%nat _ eq_refl _ ltac:(by rewrite layout_regions)), (Huniq 3%nat _ eq_refl _ ltac:(by rewrite layout_regions)). cbn [ur_base ur_size]. lia.
  - rewrite layout_regions by done. unfold AEGIS_USERLAND_PROCESS_MAX in *. intros k l r r' Hkl Hk Hl.
    do 5 (destruct k as [|k]; [do 5 (destruct l as [|l]; [injection Hk as <-; injection Hl as <-; first [done|unfold disjoint_regions; cbn; lia]|])
      ; discriminate Hl|]). discriminate Hk.
  - rewrite !layout_regions by done. unfold AEGIS_USERLAND_PROCESS_MAX in *. intros Hij r r' Hr Hr'.
    region_cases; unfold disjoint_regions; cbn [ur_base ur_size]; lia.
Qed.

Lemma process_layouts_disjoint_witness :
  disjoint_regions (ud_stack (layout 0 zero_descriptor)) (ud_stack_guard (layout 1 zero_descriptor)).
Proof.
  pose proof (process_layouts_disjoint 0 1 zero_descriptor zero_descriptor) as H. unfold assign_process_layout in H. cbv zeta in H.
  apply H; [unfold AEGIS_USERLAND_PROCESS_MAX; lia|unfold AEGIS_USERLAND_PROCESS_MAX; lia|lia| |].
  - unfold regions. do 3 apply list_elem_of_further. apply list_elem_of_here.
  - unfold regions. do 4 apply list_elem_of_further. apply list_elem_of_here.
Defined.

(** * One instance per feature *)

Inductive uop :=
  | USpawn (name path : option string) (pid : Z) (w : placement) | URunning (name : string) (pid : Z) | UExited (name : string) (pid code : Z).
Definition uexec (o : uop) (u : userland) : option (Z * userland) :=
  match o with
  | USpawn name path pid w => userland_note_native_process_spawn name path pid w u
  | URunning name pid => userland_mark_feature_native_running name pid u
  | UExited name pid code => userland_mark_feature_native_exited name pid code u
  end.
Fixpoint run_uops (l : list uop) (u : userland) : option userland :=
  match l with
  | [] => Some u
  | o :: l => '(_, u) ← uexec o u; run_uops l u
  end.

(** The process [pid] of feature [name] neither exits, nor does another process
    report itself as running under the same name. *)
Definition undisturbed (name : string) (pid : Z) (o : uop) : Prop :=
  match o with
  | USpawn _ _ _ _ => True
  | URunning n p => n = name → p = pid
  | UExited n p _ => n = name → p ≠ pid
  end.

Lemma find_slot_alter {A} (P : A → bool) (f : A → A) (l : list A) i :
  (∀ x, l !! i = Some x → P (f x) = P x) → find_slot P (alter f i l) = find_slot P l.
Proof.
  intros H. assert (Hl : ∀ j y, alter f i l !! j = Some y → ∃ z, l !! j = Some z ∧ P y = P z ∧ (i ≠ j → y = z)).
  { intros j y Hy. destruct (decide (i = j)) as [->|]; [|rewrite list_lookup_alter_ne in Hy by done; by exists y].
    rewrite list_lookup_alter_eq in Hy. apply fmap_Some in Hy as (z & Hz & ->). exists z. split; [done|]. split; [by apply H|done]. }
  destruct (find_slot P l) as [k|] eqn:E.
  - apply find_slot_Some in E as (x & Hx & Hp & Hm). apply find_slot_Some.
    destruct (lookup_lt_is_Some_2 (alter f i l) k) as [y Hy]; [rewrite length_alter; by eapply lookup_lt_Some|].
    destruct (Hl k y Hy) as (z & Hz & Hpz & _). exists y. split; [done|]. split; [congruence|].
    intros j w Hw Hj. destruct (Hl j w Hw) as (v & Hv & -> & _). by eapply Hm.
  - apply find_slot_None. intros j y Hy. destruct (Hl j y Hy) as (z & Hz & -> & _). rewrite find_slot_None in E. by eapply E.
Qed.

Lemma userland_find_feature_Some name u i :
  userland_find_feature (Some name) u = Some i →
  ∃ f, features u !! i = Some f ∧ uf_state f ≠ USERLAND_EMPTY ∧ uf_name f = name.
Proof.
  intros H. apply find_slot_Some in H as (f & Hf & [Hs%negb_true_iff%bool_decide_eq_false Hn%c_streq_spec]%andb_true_iff & _).
  unfold live_features in Hf. apply lookup_take_Some in Hf as [Hf _]. by exists f.
Qed.

(** Updates of a feature in use that keep its name do not change what is found. *)
Lemma userland_find_feature_upd name i f u x :
  features u !! i = Some x → uf_state x ≠ USERLAND_EMPTY → uf_name (f x) = uf_name x → uf_state (f x) ≠ USERLAND_EMPTY →
  userland_find_feature name (upd_feature i f u) = userland_find_feature name u.
Proof.
  intros Hx Hs Hn Hs'. destruct name as [name|]; [|done]. unfold userland_find_feature, live_features. cbn.
  rewrite take_alter. case_decide; [|done]. apply find_slot_alter. intros y Hy. apply lookup_take_Some in Hy as [Hy _].
  rewrite Hx in Hy. injection Hy as <-. by rewrite Hn, !bool_decide_false.
Qed.

(** Nothing else of the catalogue decides what is found. *)
Lemma userland_find_feature_ext name u v :
  features v = features u → uh_feature_count (handoff v) = uh_feature_count (handoff u) →
  userland_find_feature name v = userland_find_feature name u.
Proof. intros H1 H2. unfold userland_find_feature, live_features. by rewrite H1, H2. Qed.

Definition instance_of (name : string) (pid : Z) (u : userland) : Prop :=
  ∃ f, feature name u = Some f ∧ uf_live_pid f = pid.

(** A step that rewrites one found feature. *)
Lemma instance_upd name pid n i f u v x :
  instance_of name pid u → userland_find_feature (Some n) u = Some i → features u !! i = Some x →
  uf_name (f x) = uf_name x → uf_state (f x) ≠ USERLAND_EMPTY → (n = name → uf_live_pid x = pid → uf_live_pid (f x) = pid) →
  features v = alter f i (features u) → uh_feature_count (handoff v) = uh_feature_count (handoff u) → instance_of name pid v.
Proof.
  intros (g & Hg & Hp) Hi Hx Hn Hs Hl Hv Hc. unfold instance_of, feature in *.
  destruct (userland_find_feature (Some name) u) as [k|] eqn:Ek; [|done]. cbn in Hg.
  destruct (userland_find_feature_Some _ _ _ Hi) as (x' & Hx' & Hne & Hxn). rewrite Hx in Hx'. injection Hx' as <-.
  rewrite (userland_find_feature_ext _ (upd_feature i f u) v) by done. rewrite (userland_find_feature_upd _ i f u x), Ek by done. cbn. rewrite Hv.
  destruct (decide (i = k)) as [->|]; [|rewrite list_lookup_alter_ne by done; by exists g].
  rewrite list_lookup_alter_eq, Hx. exists (f x). split; [done|]. rewrite Hx in Hg. injection Hg as <-.
  apply Hl; [|done]. destruct (userland_find_feature_Some _ _ _ Ek) as (y & Hy & _ & Hyn). rewrite Hx in Hy. injection Hy as <-. congruence.
Qed.

Lemma set_descriptor_state_features name pid st u :
  features (set_descriptor_state name pid st u) = features u ∧ handoff (set_descriptor_state name pid st u) = handoff u.
Proof. unfold set_descriptor_state. by destruct (find_slot _ _). Qed.

Lemma uexec_instance name pid o u rc v :
  pid ≠ 0 → instance_of name pid u → undisturbed name pid o → uexec o u = Some (rc, v) → instance_of name pid v.
Proof.
  intros Hpid Hi Ho H. destruct o as [n path p w|n p|n p code]; cbn [uexec undisturbed] in *.
  - unfold userland_note_native_process_spawn in H. destruct n as [n|], path as [path|]; try (by injection H as <- <-).
    destruct (_ || _); [by injection H as <- <-|]. destruct (userland_find_feature (Some n) u) as [i|] eqn:Ei; [|by injection H as <- <-].
    bind_inv H. match goal with E : features u !! i = Some ?y |- _ => rename y into x; rename E into Hx end.
    destruct (negb _); [by injection H as <- <-|]. destruct (_ && _) eqn:Eb; [by injection H as <- <-|]. cbn zeta in H.
    destruct (userland_find_feature_Some _ _ _ Ei) as (x' & Hx' & Hne & Hxn). rewrite Hx in Hx'. injection Hx' as <-.
    assert (Hstep : ∀ v', features v' = alter (λ f, f <| uf_live_pid := p |>) i (features u) →
      uh_feature_count (handoff v') = uh_feature_count (handoff u) → instance_of name pid v').
    { intros v' H1 H2. eapply (instance_upd name pid n i _ u v' x); [done|done|done| | | |exact H1|exact H2]; [done|done|].
      intros -> Hlive. cbn. apply andb_false_iff in Eb as [Eb%negb_false_iff%Z.eqb_eq|Eb%negb_false_iff%Z.eqb_eq]; congruence. }
    destruct (find_slot _ _) as [k|]; [by injection H as _ <-; apply Hstep|]. destruct (_ <=? _); injection H as _ <-; by apply Hstep.
  - unfold userland_mark_feature_native_running in H. destruct (userland_find_feature (Some n) u) as [i|] eqn:Ei; [|by injection H as <- <-].
    destruct (p =? 0); [by injection H as <- <-|]. bind_inv H. destruct (_ && _); [by injection H as <- <-|]. injection H as _ <-.
    match goal with E : features u !! i = Some ?y |- _ => rename y into x; rename E into Hx end.
    destruct (set_descriptor_state_features n p UP_NATIVE_RUNNING (upd_feature i (λ f, f <| uf_state := USERLAND_NATIVE_RUNNING |> <| uf_live_pid := p |>) u)) as [H1 H2].
    eapply (instance_upd name pid n i _ u _ x); [done|done|done| | | |exact H1|exact (f_equal uh_feature_count H2)]; [done|done|]. intros -> _. by apply Ho.
  - unfold userland_mark_feature_native_exited in H. destruct (userland_find_feature (Some n) u) as [i|] eqn:Ei; [|by injection H as <- <-].
    destruct (p =? 0); [by injection H as <- <-|]. bind_inv H. destruct (Z.eqb_spec (uf_live_pid u0) p) as [Hlp|]; [|by injection H as <- <-]. injection H as _ <-.
    match goal with E : features u !! i = Some ?y |- _ => rename y into x; rename E into Hx end.
    destruct (set_descriptor_state_features n p UP_FIRST_EXITED (upd_feature i (λ f, f <| uf_live_pid := 0 |> <| uf_state := USERLAND_HANDOFF_READY |>) u)) as [H1 H2].
    eapply (instance_upd name pid n i _ u _ x); [done|done|done| | | |exact H1|exact (f_equal uh_feature_count H2)]; [done|done|]. intros -> Hlive. exfalso. apply (Ho eq_refl). congruence.
Qed.

(** A feature runs once.  While process [pid] is the recorded instance of a
    feature and has not been reported as exited, whatever is spawned, started or
    ends elsewhere in the system, it stays the recorded instance, and recording
    another process for the feature is refused without any effect. *)
Theorem feature_single_instance name pid l u v :
  pid ≠ 0 → instance_of name pid u → Forall (undisturbed name pid) l → run_uops l u = Some v →
  instance_of name pid v ∧
  ∀ path pid' w, pid' ≠ pid → ∃ rc, userland_note_native_process_spawn (Some name) path pid' w v = Some (rc, v) ∧ rc < 0.
Proof.
  intros Hpid Hi Hl Hr. assert (instance_of name pid v) as Hv.
  { revert u Hi Hr. induction Hl as [|o l Ho Hl IH]; intros u Hi Hr; [by injection Hr as <-|]. cbn in Hr. bind_inv Hr. destruct p as [rc u1].
    apply (IH u1); [|done]. by eapply uexec_instance. }
  split; [done|]. intros path pid' w Hne. destruct Hv as (f & Hf & Hp). unfold userland_note_native_process_spawn.
  destruct path as [path|]; [|by exists AEGIS_EINVAL]. destruct (_ || _); [by exists AEGIS_EINVAL|]. unfold feature in Hf.
  destruct (userland_find_feature (Some name) v) as [i|]; [|by exists AEGIS_ENOENT]. cbn in Hf. rewrite Hf. cbn [mbind option_bind].
  destruct (negb _); [by exists AEGIS_ENOENT|]. rewrite Hp. rewrite !(proj2 (Z.eqb_neq _ _)) by done. by exists AEGIS_EBUSY.
Qed.

(** * Boot *)

(** What the handoff's own system calls return. *)
Definition boot_dispatch (nr arg : Z) : Z := if nr =? SYS_GETPID then 0 else AEGIS_EINVAL.
Definition boot_vfs : vfs_state := boot_mounts (vfs_init example_vfs).

(** Steps in order, as long as they succeed. *)
Fixpoint steps (l : list (userland → option (Z * userland))) (x : option (Z * userland)) : option (Z * userland) :=
  match l with
  | [] => x
  | f :: l => steps l ('(rc, u) ← x; if rc =? AEGIS_OK then f u else Some (rc, u))
  end.

Definition catalogue : option (Z * userland) :=
  userland_connect_builtin_features prepared_manager (userland_handoff_init (mk_userland [] [] zero_handoff 0 0)).
Definition handed_off : option (Z * userland) :=
  steps [userland_prepare_handoff 33 boot_dispatch boot_vfs; userland_prepare_pre_el0_contract 33 boot_dispatch] catalogue.
Definition loaded : option (Z * userland) :=
  steps [userland_bind_first_process_to_elf "/sbin/aegis-init" 0x400000 0x400000 0x1000] handed_off.
Definition several : option (Z * userland) :=
  steps [userland_prepare_user_stack_bootstrap; λ u, Some (userland_create_multiple_process_descriptors u)] loaded.
Definition launchable : option (Z * userland) := steps [userland_prepare_real_multiprocess_launch_path] several.
Definition selftest (f : userland → Z) (x : option (Z * userland)) : option (Z * Z) := '(rc, u) ← x; Some (rc, f u).

(** The catalogue boots.  With the builtin services prepared and the pseudo
    file systems mounted, every step from the registration of the 14 features to
    the descriptors of the first four processes succeeds, each step's own self
    test passes on the state it leaves, and launching routerd by its path is
    granted to the process of the descriptor. *)
Theorem userland_boots :
  selftest (λ u, uh_feature_count (handoff u)) catalogue = Some (AEGIS_OK, 14) ∧
  selftest userland_selftest handed_off = Some (AEGIS_OK, AEGIS_OK) ∧
  selftest userland_pre_el0_selftest handed_off = Some (AEGIS_OK, AEGIS_OK) ∧
  selftest userland_first_process_elf_loader_selftest loaded = Some (AEGIS_OK, AEGIS_OK) ∧
  selftest userland_pt_load_permissions_selftest loaded = Some (AEGIS_OK, AEGIS_OK) ∧
  selftest userland_user_stack_bootstrap_selftest several = Some (AEGIS_OK, AEGIS_OK) ∧
  selftest userland_multiple_process_descriptors_selftest several = Some (AEGIS_OK, AEGIS_OK) ∧
  selftest userland_real_multiprocess_launch_selftest launchable = Some (AEGIS_OK, AEGIS_OK) ∧
  selftest (λ u, uh_process_descriptor_count (handoff u)) launchable = Some (AEGIS_OK, 4) ∧
  (launchable ≫= λ r, fst <$> userland_request_process_launch_by_path "/sbin/routerd" r.2) = Some 3.
Proof. vm_compute. done. Qed.

Definition userland_booted : userland := from_option snd (mk_userland [] [] zero_handoff 0 0) launchable.
Definition example_placement : placement := mk_placement 0x400000 0x400000 0x1000 0x500000 0x10000.
Definition routerd_live : userland :=
  from_option snd userland_booted (userland_note_native_process_spawn (Some "routerd"%string) (Some "/sbin/routerd"%string) 7 example_placement userland_booted).
Definition example_uops : list uop :=
  [URunning "routerd" 7; USpawn (Some "netd"%string) (Some "/sbin/netd"%string) 8 example_placement; UExited "netd" 8 1].

Lemma feature_single_instance_witness :
  ∃ v rc, run_uops example_uops routerd_live = Some v ∧
    userland_note_native_process_spawn (Some "routerd"%string) (Some "/sbin/routerd"%string) 9 example_placement v = Some (rc, v) ∧ rc < 0.
Proof.
  set (v := default routerd_live (run_uops example_uops routerd_live)).
  assert (E : run_uops example_uops routerd_live = Some v) by (vm_compute; reflexivity).
  destruct (feature_single_instance "routerd" 7 example_uops routerd_live v) as [_ H].
  - discriminate.
  - eexists. split; vm_compute; reflexivity.
  - repeat (apply Forall_cons; split; [cbn; first [done|intros [=]]|]). by apply Forall_nil.
  - exact E.
  - destruct (H (Some "/sbin/routerd"%string) 9 example_placement) as (rc & Hrc & Hneg); [discriminate|]. exists v, rc. split; [exact E|]. split; [exact Hrc|exact Hneg].
Defined.

(** Reporting another process as running replaces the recorded instance: the
    process identifier is not compared with the recorded one. *)
Lemma running_replaces_instance :
  (λ r, uf_live_pid <$> feature "routerd" r.2) <$> userland_mark_feature_native_running "routerd" 12 routerd_live = Some (Some 12).
Proof. vm_compute. reflexivity. Qed.

(** Spawning needs a free descriptor: when none is left the process is refused,
    and yet it is recorded as the instance of the feature. *)
Lemma spawn_refused_but_recorded :
  let full := upd_handoff (λ h, h <| uh_process_descriptor_count := 8 |>) userland_booted in
  (λ r, (r.1, uf_live_pid <$> feature "netd" r.2)) <$>
    userland_note_native_process_spawn (Some "netd"%string) (Some "/sbin/netd"%string) 9 example_placement full = Some (AEGIS_ENOMEM, Some 9).
Proof. vm_compute. reflexivity. Qed.
