(* ===== verification/FirstProcess.v ===== *)
(** The first user process: the EL0 transition and the life of the first process
    in kernel/core/userland.c, and the system call bridge [syscall_handler] of
    kernel/core/exception.c, in the build that proves the transition at boot and
    in the ordinary one.

    The state is the catalogue of [Userland] with the remaining fields of
    [aegis_userland_handoff_t]. System calls are an argument; a trap either
    resumes the interrupted program or parks the processor for good. *)

From S2P Require Import Prelude Elf Vfs Services Userland.

Definition SYS_EXIT : Z := 4.
Definition SYS_WAITPID : Z := 14.
Definition SYS_GETPPID : Z := 15.
Definition SYS_GETTID : Z := 16.
#[local] Notation NR_SYSCALLS := 33 (only parsing).

(** What a trap leaves behind: the number of the call, its first argument, the
    return address and the saved program status. *)
Record trap_record := mk_trap { tr_nr : Z; tr_arg0 : Z; tr_elr : Z; tr_spsr : Z }.
Definition no_trap : trap_record := mk_trap 0 0 0 0.

Record el0_probe := mk_el0 {
  el_prepared : bool; el_entry_selected : bool; el_stack_selected : bool;
  el_svc_trap_seen : bool; el_transition_seen : bool;
  el_entry : Z; el_sp : Z; el_trap : trap_record;
}.
#[export] Instance el0_probe_eta : Eta el0_probe := λ e,
  mk_el0 (el_prepared e) (el_entry_selected e) (el_stack_selected e) (el_svc_trap_seen e) (el_transition_seen e)
    (el_entry e) (el_sp e) (el_trap e).

Record first_process := mk_first {
  fi_descriptor_ready : bool; fi_launch_ready : bool; fi_seen : bool; fi_syscall_seen : bool;
  fi_return_ready : bool; fi_continued : bool; fi_exit_requested : bool; fi_exited : bool;
  fi_post_exit : bool; fi_no_runnable : bool;
  fi_entry : Z; fi_sp : Z; fi_call : trap_record; fi_return_value : Z;
  fi_continuation : trap_record; fi_exit : trap_record; fi_pid : Z;
}.
#[export] Instance first_process_eta : Eta first_process := λ f,
  mk_first (fi_descriptor_ready f) (fi_launch_ready f) (fi_seen f) (fi_syscall_seen f) (fi_return_ready f)
    (fi_continued f) (fi_exit_requested f) (fi_exited f) (fi_post_exit f) (fi_no_runnable f) (fi_entry f) (fi_sp f)
    (fi_call f) (fi_return_value f) (fi_continuation f) (fi_exit f) (fi_pid f).

Record launch := mk_launch {
  la_user : userland; la_el0 : el0_probe; la_first : first_process;
  la_syscall_expansion_ready : bool; la_syscall_expanded_count : Z;
}.
#[export] Instance launch_eta : Eta launch := λ l,
  mk_launch (la_user l) (la_el0 l) (la_first l) (la_syscall_expansion_ready l) (la_syscall_expanded_count l).

Definition zero_el0 : el0_probe := mk_el0 false false false false false 0 0 no_trap.
Definition zero_first : first_process :=
  mk_first false false false false false false false false false false 0 0 no_trap 0 no_trap no_trap 0.
Definition launch_of (u : userland) : launch := mk_launch u zero_el0 zero_first false 0.

(** ** The controlled transition *)

(** Both preparations select the entry and the stack of the same transition. *)
Definition sp_in_stack (p : user_descriptor) (user_sp : Z) : bool :=
  (ur_base (ud_stack p) <=? user_sp) && (user_sp <? u64 (ur_base (ud_stack p) + ur_size (ud_stack p))).

Definition userland_prepare_controlled_el0_transition (entry user_sp : Z) (l : launch) : option (Z * launch) :=
  let h := handoff (la_user l) in
  if negb (uh_pre_el0_ready h) || negb (uh_syscall_abi_kernel_safe_ready h) || (uh_process_descriptor_count h <? 1)
     || (entry =? 0) || (user_sp =? 0) then Some (AEGIS_EINVAL, l)
  else
    proc ← user_processes (la_user l) !! 0%nat;
    if negb (bool_decide (ud_state proc = UP_SYSCALL_ABI_READY)) || negb (Z.land entry 3 =? 0)
       || negb (Z.land user_sp 15 =? 0) || negb (sp_in_stack proc user_sp) then Some (AEGIS_EINVAL, l)
    else
      Some (AEGIS_OK,
        l <| la_el0 := mk_el0 true true true false false entry user_sp no_trap |>
          <| la_user ::= upd_descriptor 0 (λ p, p <| ud_state := UP_EL0_PROBE_READY |>) |>).

Definition userland_controlled_el0_transition_active (l : launch) : bool :=
  el_prepared (la_el0 l) && negb (el_svc_trap_seen (la_el0 l)).
Definition userland_controlled_el0_transition_seen (l : launch) : bool := el_transition_seen (la_el0 l).

(** [user_processes[0].state = s] when there is a descriptor. *)
Definition set_first_state (st : user_process_state) (l : launch) : launch :=
  if 1 <=? uh_process_descriptor_count (handoff (la_user l))
  then l <| la_user ::= upd_descriptor 0 (λ p, p <| ud_state := st |>) |> else l.

Definition userland_mark_el0_svc_trap (t : trap_record) (l : launch) : launch :=
  set_first_state UP_EL0_SVC_TRAPPED
    (l <| la_el0 ::= λ e, e <| el_trap := t |> <| el_svc_trap_seen := true |> <| el_transition_seen := true |> |>).

Definition userland_controlled_el0_transition_selftest (l : launch) : Z :=
  let e := la_el0 l in
  if negb (el_prepared e) || negb (el_entry_selected e) || negb (el_stack_selected e)
     || (el_entry e =? 0) || (el_sp e =? 0) || negb (Z.land (el_entry e) 3 =? 0) || negb (Z.land (el_sp e) 15 =? 0)
  then AEGIS_EINVAL
  else
    match userland_first_process_descriptor (la_user l) ≫= (user_processes (la_user l) !!.) with
    | None => AEGIS_ENOENT
    | Some proc =>
        if (negb (bool_decide (ud_state proc = UP_EL0_PROBE_READY)) &&
            negb (bool_decide (ud_state proc = UP_EL0_SVC_TRAPPED))) || negb (sp_in_stack proc (el_sp e))
        then AEGIS_EINVAL else AEGIS_OK
    end.

(** ** The expanded system calls *)

Definition userland_prepare_syscall_expansion (l : launch) : Z * launch :=
  if negb (uh_real_multiprocess_launch_ready (handoff (la_user l))) then (AEGIS_EINVAL, l)
  else (AEGIS_OK, l <| la_syscall_expansion_ready := true |> <| la_syscall_expanded_count := NR_SYSCALLS |>).

(** The results of the system calls the self test makes, by number and first
    argument. *)
Definition userland_syscall_expansion_selftest (syscall_dispatch : Z → Z → Z) (l : launch) : option (Z * launch) :=
  if negb (la_syscall_expansion_ready l) || (la_syscall_expanded_count l <? 18)
     || (syscall_dispatch SYS_GETPID 0 <? 0) || (syscall_dispatch SYS_GETPPID 0 <? 0)
     || (syscall_dispatch SYS_GETTID 0 <? 0) || (userland_feature_id_by_name (Some "routerd"%string) (la_user l) =? 0)
  then Some (AEGIS_EINVAL, l)
  else
    '(spawn_pid, u) ← userland_request_process_launch_by_path "/sbin/routerd" (la_user l);
    let l := l <| la_user := u |> in
    if (spawn_pid <=? 1) || negb (uh_last_spawn_pid (handoff u) =? u32 spawn_pid)
       || (uh_spawn_request_count (handoff u) =? 0)
       || negb (syscall_dispatch SYS_WAITPID 9999 =? AEGIS_ENOENT)
       || negb (syscall_dispatch (NR_SYSCALLS + 32) 0 =? AEGIS_EINVAL)
    then Some (AEGIS_EINVAL, l) else Some (AEGIS_OK, l).

Definition userland_syscall_expansion_ready (l : launch) : bool := la_syscall_expansion_ready l.
Definition userland_real_multiprocess_launch_ready (l : launch) : bool := uh_real_multiprocess_launch_ready (handoff (la_user l)).
Definition userland_page_permissions_ready (l : launch) : bool := uh_elf_ready (handoff (la_user l)).

(** ** The first process *)

Definition launchable_state (s : user_process_state) : bool :=
  match s with
  | UP_SYSCALL_ABI_READY | UP_ELF_LOADED | UP_ARGV_ENVP_READY | UP_MULTIPROCESS_LAUNCH_READY
  | UP_EL0_PROBE_READY | UP_EL0_SVC_TRAPPED => true
  | _ => false
  end.

(** The trap recorded for the probe is left alone. *)
Definition userland_prepare_first_tiny_user_process (entry user_sp : Z) (l : launch) : option (Z * launch) :=
  let h := handoff (la_user l) in
  if negb (uh_pre_el0_ready h) || negb (uh_syscall_abi_kernel_safe_ready h) || (uh_process_descriptor_count h <? 1)
     || (entry =? 0) || (user_sp =? 0) then Some (AEGIS_EINVAL, l)
  else
    proc ← user_processes (la_user l) !! 0%nat;
    if negb (launchable_state (ud_state proc)) || negb (c_streq (ud_name proc) "aegis-init")
       || negb (c_streq (ud_image_path proc) "/sbin/aegis-init") || negb (Z.land entry 3 =? 0)
       || negb (Z.land user_sp 15 =? 0) || negb (sp_in_stack proc user_sp) then Some (AEGIS_EINVAL, l)
    else
      Some (AEGIS_OK,
        l <| la_user ::= upd_descriptor 0 (λ p, p <| ud_entry := entry |> <| ud_initial_sp := user_sp |>
                                                  <| ud_state := UP_FIRST_LAUNCH_READY |>) |>
          <| la_first := mk_first true true false false false false false false false false
                           entry user_sp no_trap 0 no_trap no_trap (ud_id proc) |>
          <| la_el0 ::= λ e, mk_el0 true true true false false entry user_sp (el_trap e) |>).

Definition userland_first_tiny_user_process_selftest (l : launch) : Z :=
  let f := la_first l in
  if negb (fi_descriptor_ready f) || negb (fi_launch_ready f) || (fi_entry f =? 0) || (fi_sp f =? 0)
     || negb (Z.land (fi_entry f) 3 =? 0) || negb (Z.land (fi_sp f) 15 =? 0) || (fi_pid f =? 0) then AEGIS_EINVAL
  else
    match userland_first_process_descriptor (la_user l) ≫= (user_processes (la_user l) !!.) with
    | None => AEGIS_ENOENT
    | Some proc =>
        if (negb (bool_decide (ud_state proc = UP_FIRST_LAUNCH_READY)) &&
            negb (bool_decide (ud_state proc = UP_FIRST_SYSCALL_TRAPPED)))
           || negb (c_streq (ud_name proc) "aegis-init") || negb (ud_entry proc =? fi_entry f)
           || negb (ud_initial_sp proc =? fi_sp f)
        then AEGIS_EINVAL else AEGIS_OK
    end.

Definition userland_first_tiny_process_active (l : launch) : bool :=
  fi_launch_ready (la_first l) && negb (fi_syscall_seen (la_first l)).
Definition userland_first_tiny_process_seen (l : launch) : bool := fi_seen (la_first l) && fi_syscall_seen (la_first l).
Definition userland_first_tiny_process_return_probe_active (l : launch) : bool :=
  fi_return_ready (la_first l) && negb (fi_continued (la_first l)).
Definition userland_first_tiny_process_return_path_seen (l : launch) : bool :=
  fi_seen (la_first l) && fi_syscall_seen (la_first l) && fi_return_ready (la_first l) && fi_continued (la_first l).
Definition userland_first_tiny_process_exit_active (l : launch) : bool :=
  fi_continued (la_first l) && negb (fi_exited (la_first l)).
Definition userland_first_tiny_process_exit_seen (l : launch) : bool :=
  fi_exit_requested (la_first l) && fi_exited (la_first l).

Definition userland_mark_first_user_process_syscall_return (t : trap_record) (ret : Z) (l : launch) : launch :=
  set_first_state UP_FIRST_SYSCALL_RETURN_READY
    (l <| la_first ::= λ f, f <| fi_call := t |> <| fi_return_value := ret |> <| fi_seen := true |>
                              <| fi_syscall_seen := true |> <| fi_launch_ready := false |> <| fi_return_ready := true |> |>
       <| la_el0 ::= λ e, e <| el_trap := t |> <| el_svc_trap_seen := true |> <| el_transition_seen := true |> |>).

Definition userland_mark_first_user_process_continued_after_syscall (t : trap_record) (l : launch) : launch :=
  set_first_state UP_FIRST_CONTINUED_AFTER_SYSCALL
    (l <| la_first ::= λ f, f <| fi_continuation := t |> <| fi_continued := true |> |>).

Definition userland_mark_first_user_process_exit (t : trap_record) (l : launch) : launch :=
  set_first_state UP_FIRST_EXITED
    (l <| la_first ::= λ f, f <| fi_exit := t |> <| fi_exit_requested := true |> <| fi_exited := true |> |>).

Definition userland_mark_post_exit_scheduler_handoff (l : launch) : launch :=
  if negb (fi_exited (la_first l)) then l
  else l <| la_first ::= λ f, f <| fi_post_exit := true |> <| fi_no_runnable := true |> |>.

Definition userland_post_exit_scheduler_handoff_seen (l : launch) : bool := fi_post_exit (la_first l).

Definition first_running (s : user_process_state) : bool :=
  match s with
  | UP_FIRST_LAUNCH_READY | UP_FIRST_RUNNING | UP_FIRST_SYSCALL_TRAPPED | UP_FIRST_SYSCALL_RETURN_READY
  | UP_FIRST_CONTINUED_AFTER_SYSCALL => true
  | _ => false
  end.
Definition userland_no_runnable_user_processes (l : launch) : bool :=
  fi_no_runnable (la_first l) && forallb (λ p, negb (first_running (ud_state p))) (descriptors (la_user l)).

Definition userland_mark_first_user_process_syscall (t : trap_record) (l : launch) : launch :=
  userland_mark_first_user_process_syscall_return t 0 l.

(** ** The system call bridge *)

(** The registers of a frame that the bridge uses. *)
Record frame := mk_frame { x0 : Z; x1 : Z; x2 : Z; x3 : Z; x4 : Z; x5 : Z; x8 : Z }.
#[export] Instance frame_eta : Eta frame := λ f, mk_frame (x0 f) (x1 f) (x2 f) (x3 f) (x4 f) (x5 f) (x8 f).

Inductive trap_result :=
| Resumes (f : frame)
| Parks.

Section bridge.
(** The rest of the kernel, and what a system call does to it and to the
    catalogue. *)
Context {K : Type} (syscall_dispatch : Z → Z → Z → Z → Z → Z → Z → K * userland → Z * (K * userland)).

Definition dispatch_frame (f : frame) (k : K) (l : launch) : Z * K * launch :=
  let '(ret, (k, u)) := syscall_dispatch (x8 f) (x0 f) (x1 f) (x2 f) (x3 f) (x4 f) (x5 f) (k, la_user l) in
  (ret, k, l <| la_user := u |>).

(** [syscall_handler] as the proof build has it; [elr] and [spsr] are the system
    registers. *)
Definition syscall_handler_smoke (f : frame) (elr spsr : Z) (k : K) (l : launch) : trap_result * K * launch :=
  if userland_first_tiny_process_active l then
    let arg0 := x0 f in
    let '(ret, k, l) := dispatch_frame f k l in
    (Resumes (f <| x0 := u64 ret |>), k,
     userland_mark_first_user_process_syscall_return (mk_trap (x8 f) arg0 elr spsr) ret l)
  else if userland_first_tiny_process_return_probe_active l then
    let t := mk_trap (x8 f) (x0 f) elr spsr in
    let l := userland_mark_first_user_process_continued_after_syscall t l in
    (Parks, k,
     if x8 f =? SYS_EXIT
     then userland_mark_post_exit_scheduler_handoff (userland_mark_first_user_process_exit t l) else l)
  else if userland_controlled_el0_transition_active l then
    (Parks, k, userland_mark_el0_svc_trap (mk_trap (x8 f) (x0 f) elr spsr) l)
  else
    let '(ret, k, l) := dispatch_frame f k l in (Resumes (f <| x0 := u64 ret |>), k, l).

(** The ordinary build. *)
Definition syscall_handler (f : frame) (k : K) (l : launch) : frame * K * launch :=
  let '(ret, k, l) := dispatch_frame f k l in (f <| x0 := u64 ret |>, k, l).

(** ** What can happen to the first process *)

(** A processor that has parked takes no further step. *)
Inductive first_step : K * launch * bool → K * launch * bool → Prop :=
| step_probe entry sp k l l' :
    userland_prepare_controlled_el0_transition entry sp l = Some (AEGIS_OK, l') → first_step (k, l, false) (k, l', false)
| step_prepare entry sp k l l' :
    userland_prepare_first_tiny_user_process entry sp l = Some (AEGIS_OK, l') → first_step (k, l, false) (k, l', false)
| step_resumes f elr spsr k l f' k' l' :
    syscall_handler_smoke f elr spsr k l = (Resumes f', k', l') → first_step (k, l, false) (k', l', false)
| step_parks f elr spsr k l k' l' :
    syscall_handler_smoke f elr spsr k l = (Parks, k', l') → first_step (k, l, false) (k', l', true).

(** The order of the milestones. *)
Record milestones (f : first_process) : Prop := {
  ms_launch : fi_launch_ready f = true →
    fi_descriptor_ready f = true ∧ fi_syscall_seen f = false ∧ fi_entry f ≠ 0 ∧ fi_sp f ≠ 0 ∧
    Z.land (fi_entry f) 3 = 0 ∧ Z.land (fi_sp f) 15 = 0;
  ms_seen : fi_syscall_seen f = fi_return_ready f ∧ fi_seen f = fi_return_ready f;
  ms_return : fi_return_ready f = true → fi_launch_ready f = false;
  ms_continued : fi_continued f = true → fi_return_ready f = true;
  ms_exited : fi_exited f = fi_exit_requested f ∧
    (fi_exited f = true → fi_continued f = true ∧ fi_exit f = fi_continuation f ∧ tr_nr (fi_exit f) = SYS_EXIT);
  ms_post : fi_post_exit f = fi_exited f ∧ fi_no_runnable f = fi_exited f;
}.

Lemma milestones_zero : milestones zero_first.
Proof. by split. Qed.

Lemma set_first_state_first st l : la_first (set_first_state st l) = la_first l.
Proof. unfold set_first_state. by destruct (_ <=? _). Qed.
Lemma set_first_state_el0 st l : la_el0 (set_first_state st l) = la_el0 l.
Proof. unfold set_first_state. by destruct (_ <=? _). Qed.

Lemma dispatch_frame_first f k l ret k' l' :
  dispatch_frame f k l = (ret, k', l') → la_first l' = la_first l ∧ la_el0 l' = la_el0 l.
Proof. unfold dispatch_frame. destruct (syscall_dispatch _ _ _ _ _ _ _ _) as [r [k1 u]]. by intros [= <- <- <-]. Qed.

Lemma prepare_first_ok entry sp l l' :
  userland_prepare_first_tiny_user_process entry sp l = Some (AEGIS_OK, l') →
  ∃ pid, la_first l' = mk_first true true false false false false false false false false entry sp no_trap 0 no_trap no_trap pid ∧
    entry ≠ 0 ∧ sp ≠ 0 ∧ Z.land entry 3 = 0 ∧ Z.land sp 15 = 0.
Proof.
  unfold userland_prepare_first_tiny_user_process. destruct (_ || _) eqn:E1; [done|].
  destruct (user_processes (la_user l) !! 0%nat) as [proc|]; cbn [mbind option_bind]; [|done].
  destruct (negb (launchable_state _) || _ || _ || _ || _ || _) eqn:E2; [done|]. intros [= <-].
  exists (ud_id proc). split; [done|]. rewrite !orb_false_iff, !negb_false_iff in E1, E2. lia.
Qed.

(** The record after the second trap. *)
Lemma parked_first (t : trap_record) (b : bool) l :
  la_first (if b then userland_mark_post_exit_scheduler_handoff (userland_mark_first_user_process_exit t
                        (userland_mark_first_user_process_continued_after_syscall t l))
            else userland_mark_first_user_process_continued_after_syscall t l) =
  let f := (la_first l) <| fi_continuation := t |> <| fi_continued := true |> in
  if b then f <| fi_exit := t |> <| fi_exit_requested := true |> <| fi_exited := true |>
              <| fi_post_exit := true |> <| fi_no_runnable := true |> else f.
Proof.
  unfold userland_mark_first_user_process_exit, userland_mark_first_user_process_continued_after_syscall.
  destruct b; [|by rewrite set_first_state_first].
  unfold userland_mark_post_exit_scheduler_handoff. rewrite set_first_state_first. cbn.
  by rewrite !set_first_state_first.
Qed.

Lemma first_step_milestones s s' :
  first_step s s' → milestones (la_first s.1.2) ∧ (fi_continued (la_first s.1.2) = true → s.2 = true) →
  milestones (la_first s'.1.2) ∧ (fi_continued (la_first s'.1.2) = true → s'.2 = true).
Proof.
  intros [entry sp k l l' E|entry sp k l l' E|f elr spsr k l f' k' l' E|f elr spsr k l k' l' E] [Hm Hc]; cbn [fst snd] in *.
  - unfold userland_prepare_controlled_el0_transition in E. destruct (_ || _); [done|].
    destruct (user_processes _ !! _); cbn [mbind option_bind] in E; [|done]. destruct (_ || _); [done|]. by injection E as <-.
  - destruct (prepare_first_ok _ _ _ _ E) as (pid & -> & H1 & H2 & H3 & H4). split; [|done]. by split.
  - unfold syscall_handler_smoke in E.
    destruct (userland_first_tiny_process_active l) eqn:Ha; [|destruct (userland_first_tiny_process_return_probe_active l); [done|];
      destruct (userland_controlled_el0_transition_active l); [done|]].
    + destruct (dispatch_frame f k l) as [[ret k1] l1] eqn:Ed. apply dispatch_frame_first in Ed as [Hf _].
      injection E as <- <- <-. unfold userland_mark_first_user_process_syscall_return. rewrite set_first_state_first. cbn.
      rewrite Hf. destruct Hm.
      split; [|done]. by split.
    + destruct (dispatch_frame f k l) as [[ret k1] l1] eqn:Ed. apply dispatch_frame_first in Ed as [Hf _].
      injection E as <- <- <-. by rewrite Hf.
  - unfold syscall_handler_smoke in E.
    destruct (userland_first_tiny_process_active l); [by destruct (dispatch_frame f k l) as [[]]|].
    destruct (userland_first_tiny_process_return_probe_active l) eqn:Hr.
    + injection E as <- <-. split; [|done]. apply andb_prop in Hr as [Hr Hn%negb_true_iff].
      rewrite parked_first. destruct Hm as [Hl Hs Hret _ [Hex Hx] [Hp1 Hp2]].
      assert (fi_exited (la_first l) = false) as He.
      { destruct (fi_exited (la_first l)); [|done]. destruct Hx as [? _]; [done|]. congruence. }
      rewrite He in *. destruct (Z.eqb_spec (x8 f) SYS_EXIT) as [Hexit|]; split; cbn; rewrite ?He; done.
    + destruct (userland_controlled_el0_transition_active l); [|by destruct (dispatch_frame f k l) as [[]]].
      injection E as <- <-. unfold userland_mark_el0_svc_trap. rewrite set_first_state_first. done.
Qed.

(** C36: whatever the order of preparations and traps, the milestones of the first
    process are reached in order: a process that is ready to be launched has an
    aligned entry and stack and has made no call; it continues only after its
    first call has returned; it has exited only if it continued and its second
    call was the exit call. The processor is parked by then: a process that has
    continued or exited is never resumed. *)
Theorem first_process_milestones u k k' l' parked :
  rtc first_step (k, launch_of u, false) (k', l', parked) →
  milestones (la_first l') ∧
  (fi_continued (la_first l') = true → parked = true ∧ ∀ s, ¬ first_step (k', l', parked) s).
Proof.
  intros H. assert (milestones (la_first l') ∧ (fi_continued (la_first l') = true → parked = true)) as [Hm Hc].
  { change l' with ((k', l', parked).1.2). change parked with ((k', l', parked).2) at 2.
    eapply (rtc_ind_r (λ s, milestones (la_first s.1.2) ∧ (fi_continued (la_first s.1.2) = true → s.2 = true))); [| |exact H].
    - split; [apply milestones_zero|done].
    - intros s s' _ Hs Hi. by eapply first_step_milestones. }
  split; [done|]. intros Hcont. split; [by apply Hc|]. intros s Hs. rewrite (Hc Hcont) in Hs. inversion Hs.
Qed.

(** C35: the life of the first process. Prepared for launch, its first system call
    is carried out by the dispatcher and the process resumes with the result in
    its register; its second call is recorded and not carried out, and the
    processor parks; the exit is recorded exactly when the second call is the exit
    call. *)
Theorem first_process_life entry sp l l1 k f1 elr1 spsr1 f2 elr2 spsr2 ret k2 lu :
  userland_prepare_first_tiny_user_process entry sp l = Some (AEGIS_OK, l1) →
  dispatch_frame f1 k l1 = (ret, k2, lu) →
  ∃ l2 l3,
    syscall_handler_smoke f1 elr1 spsr1 k l1 = (Resumes (f1 <| x0 := u64 ret |>), k2, l2) ∧
    fi_call (la_first l2) = mk_trap (x8 f1) (x0 f1) elr1 spsr1 ∧ fi_return_value (la_first l2) = ret ∧
    syscall_handler_smoke f2 elr2 spsr2 k2 l2 = (Parks, k2, l3) ∧
    userland_first_tiny_process_return_path_seen l3 = true ∧
    fi_continuation (la_first l3) = mk_trap (x8 f2) (x0 f2) elr2 spsr2 ∧
    userland_first_tiny_process_exit_seen l3 = (x8 f2 =? SYS_EXIT) ∧
    userland_post_exit_scheduler_handoff_seen l3 = (x8 f2 =? SYS_EXIT).
Proof.
  intros Hp Hd. destruct (prepare_first_ok _ _ _ _ Hp) as (pid & Hf & _). pose proof (dispatch_frame_first _ _ _ _ _ _ Hd) as [Hfu _].
  set (t1 := mk_trap (x8 f1) (x0 f1) elr1 spsr1).
  exists (userland_mark_first_user_process_syscall_return t1 ret lu).
  set (l2 := userland_mark_first_user_process_syscall_return t1 ret lu).
  assert (la_first l2 = mk_first true false true true true false false false false false entry sp t1 ret no_trap no_trap pid) as Hf2.
  { unfold l2, userland_mark_first_user_process_syscall_return. rewrite set_first_state_first. cbn. by rewrite Hfu, Hf. }
  eexists. split_and!.
  - unfold syscall_handler_smoke, userland_first_tiny_process_active. rewrite Hf. cbn [fi_launch_ready fi_syscall_seen andb negb].
    rewrite Hd. reflexivity.
  - by rewrite Hf2.
  - by rewrite Hf2.
  - unfold syscall_handler_smoke, userland_first_tiny_process_active, userland_first_tiny_process_return_probe_active.
    rewrite Hf2. cbn [fi_launch_ready fi_syscall_seen fi_return_ready fi_continued andb negb]. reflexivity.
  - unfold userland_first_tiny_process_return_path_seen. rewrite parked_first, Hf2. by destruct (_ =? _).
  - rewrite parked_first, Hf2. by destruct (_ =? _).
  - unfold userland_first_tiny_process_exit_seen. rewrite parked_first, Hf2. by destruct (_ =? _).
  - unfold userland_post_exit_scheduler_handoff_seen. rewrite parked_first, Hf2. by destruct (_ =? _).
Qed.
End bridge.

(** ** The first process of the booted catalogue *)

(** A dispatcher that answers every call with its number. *)
Definition echo (nr a0 a1 a2 a3 a4 a5 : Z) (s : unit * userland) : Z * (unit * userland) := (nr, s).
Definition booted : userland := default (mk_userland [] [] zero_handoff 0 0) (snd <$> launchable).
Definition prepared : launch :=
  default (launch_of booted) (snd <$> userland_prepare_first_tiny_user_process 0x400000 0x7ffeffffe0 (launch_of booted)).
Definition getpid_frame : frame := mk_frame 0 0 0 0 0 0 SYS_GETPID.
Definition exit_frame : frame := mk_frame 7 0 0 0 0 0 SYS_EXIT.

Lemma prepared_ok :
  userland_prepare_first_tiny_user_process 0x400000 0x7ffeffffe0 (launch_of booted) = Some (AEGIS_OK, prepared) ∧
  userland_first_tiny_user_process_selftest prepared = AEGIS_OK ∧
  userland_controlled_el0_transition_selftest
    (default (launch_of booted) (snd <$> userland_prepare_controlled_el0_transition 0x400000 0x7ffeffffe0
       (launch_of (default booted (snd <$> handed_off))))) = AEGIS_OK.
Proof. vm_compute. repeat split. Qed.

Lemma first_process_life_witness :
  ∃ l2 l3,
    syscall_handler_smoke echo getpid_frame 0x400004 0 tt prepared = (Resumes (getpid_frame <| x0 := 5 |>), tt, l2) ∧
    syscall_handler_smoke echo exit_frame 0x400008 0 tt l2 = (Parks, tt, l3) ∧
    userland_first_tiny_process_exit_seen l3 = true.
Proof.
  destruct (first_process_life echo 0x400000 0x7ffeffffe0 (launch_of booted) prepared tt getpid_frame 0x400004 0
              exit_frame 0x400008 0 5 tt (prepared <| la_user := la_user prepared |>))
    as (l2 & l3 & H1 & _ & _ & H2 & _ & _ & H3 & _).
  - apply prepared_ok.
  - reflexivity.
  - exists l2, l3. split; [exact H1|]. split; [exact H2|exact H3].
Defined.

Lemma first_process_milestones_witness :
  ∃ l3, milestones (la_first l3) ∧ fi_exited (la_first l3) = true ∧ ∀ s, ¬ first_step echo (tt, l3, true) s.
Proof.
  pose (l2 := (syscall_handler_smoke echo getpid_frame 0x400004 0 tt prepared).2).
  pose (l3 := (syscall_handler_smoke echo exit_frame 0x400008 0 tt l2).2).
  assert (rtc (first_step echo) (tt, launch_of booted, false) (tt, l3, true)) as Hrun.
  { eapply rtc_l; [eapply (step_prepare echo 0x400000 0x7ffeffffe0); apply prepared_ok|].
    eapply rtc_l; [apply (step_resumes echo getpid_frame 0x400004 0 tt prepared (getpid_frame <| x0 := 5 |>) tt l2); vm_compute; reflexivity|].
    apply rtc_once. apply (step_parks echo exit_frame 0x400008 0). vm_compute. reflexivity. }
  destruct (first_process_milestones echo _ _ _ _ _ Hrun) as [Hm Hc].
  exists l3. split; [exact Hm|]. split; [vm_compute; reflexivity|]. apply Hc. vm_compute. reflexivity.
Defined.

(** The expanded system calls of the booted catalogue. *)
Definition expansion_dispatch (nr arg : Z) : Z :=
  if nr =? SYS_WAITPID then AEGIS_ENOENT else if nr <? NR_SYSCALLS then 1 else AEGIS_EINVAL.

Lemma expansion_boots :
  userland_syscall_expansion_selftest expansion_dispatch (userland_prepare_syscall_expansion (launch_of booted)).2
  ≫= (λ x, Some x.1) = Some AEGIS_OK.
Proof. vm_compute. reflexivity. Qed.

(** Three other processes of the catalogue are ready to be launched when no user
    process is reported runnable. *)
Lemma no_runnable_with_launchable :
  let l2 := (syscall_handler_smoke echo getpid_frame 0x400004 0 tt prepared).2 in
  let l3 := (syscall_handler_smoke echo exit_frame 0x400008 0 tt l2).2 in
  userland_no_runnable_user_processes l3 = true ∧
  length (filter (λ p, ud_state p = UP_MULTIPROCESS_LAUNCH_READY) (descriptors (la_user l3))) = 3%nat.
Proof. vm_compute. done. Qed.
