(* ===== verification/ServiceIpc.v ===== *)
(** Service mailboxes: kernel/ipc/service_ipc.c, the fixed routes between the early
    services, each with a channel of [Channel] and a queue of [Message] of its own,
    over the catalogue of [FirstProcess].

    The self test sends a probe through one of the queues and takes a message from
    it; the theorems say when it succeeds and what it leaves in the queue. *)

From S2P Require Import Prelude Message Channel Userland FirstProcess.

Definition AEGIS_IPC_SERVICE_NAME_MAX : nat := 32.
Definition AEGIS_IPC_MAILBOX_MAX : Z := 8.
Definition AEGIS_IPC_TEST_PAYLOAD_MAX : Z := 64.

Inductive mailbox_state := MAILBOX_EMPTY | MAILBOX_REGISTERED | MAILBOX_CHANNEL_READY | MAILBOX_ROUNDTRIP_PROVED.
#[export] Instance mailbox_state_eq_dec : EqDecision mailbox_state.
Proof. solve_decision. Defined.

Record service_mailbox := mk_mailbox {
  mb_id : Z; mb_owner_pid : Z; mb_peer_pid : Z; mb_service_id : Z; mb_channel_id : Z; mb_queue_id : Z;
  mb_service_name : string; mb_peer_name : string; mb_state : mailbox_state;
  mb_sent_count : Z; mb_recv_count : Z; mb_last_payload_len : Z;
}.
#[export] Instance service_mailbox_eta : Eta service_mailbox := λ m,
  mk_mailbox (mb_id m) (mb_owner_pid m) (mb_peer_pid m) (mb_service_id m) (mb_channel_id m) (mb_queue_id m)
    (mb_service_name m) (mb_peer_name m) (mb_state m) (mb_sent_count m) (mb_recv_count m) (mb_last_payload_len m).

Record ipc_service_state := mk_ipc_service {
  is_initialised : bool; is_service_messaging_ready : bool; is_message_roundtrip_ready : bool;
  is_mailbox_count : Z; is_channel_count : Z; is_route_count : Z;
  is_last_channel_id : Z; is_last_roundtrip_bytes : Z;
}.
#[export] Instance ipc_service_state_eta : Eta ipc_service_state := λ i,
  mk_ipc_service (is_initialised i) (is_service_messaging_ready i) (is_message_roundtrip_ready i) (is_mailbox_count i)
    (is_channel_count i) (is_route_count i) (is_last_channel_id i) (is_last_roundtrip_bytes i).

(** The static variables, with those of channel.c and message.c. *)
Record service_ipc := mk_service_ipc {
  si_state : ipc_service_state; si_mailboxes : list service_mailbox; si_next_mailbox_id : Z; si_low : ipc_state;
}.
#[export] Instance service_ipc_eta : Eta service_ipc := λ s,
  mk_service_ipc (si_state s) (si_mailboxes s) (si_next_mailbox_id s) (si_low s).

Definition zero_mailbox : service_mailbox :=
  mk_mailbox 0 0 0 0 0 0 EmptyString EmptyString MAILBOX_EMPTY 0 0 0.
Definition mailbox_name (s : string) : string := str_take (AEGIS_IPC_SERVICE_NAME_MAX - 1) s.

Definition service_ipc_mailbox_state_name (st : mailbox_state) : string :=
  match st with
  | MAILBOX_EMPTY => "empty" | MAILBOX_REGISTERED => "registered"
  | MAILBOX_CHANNEL_READY => "channel-ready" | MAILBOX_ROUNDTRIP_PROVED => "roundtrip-proved"
  end.

Definition service_ipc_init (s : service_ipc) : service_ipc :=
  mk_service_ipc (mk_ipc_service true false false 0 0 0 0 0) ((λ _, zero_mailbox) <$> si_mailboxes s) 1
    ((channel_init (si_low s)) <| queues ::= ipc_init |>).

Definition service_ipc_mailbox (index : Z) (s : service_ipc) : option service_mailbox :=
  if is_mailbox_count (si_state s) <=? index then None else si_mailboxes s !! Z.to_nat index.

(** [u] is the catalogue in which the names are looked up. *)
Definition register_mailbox (u : userland) (service_name peer_name : option string) (s : service_ipc) : Z * service_ipc :=
  if negb (is_initialised (si_state s)) then (AEGIS_EINVAL, s)
  else
    match service_name, peer_name with
    | None, _ | _, None | Some EmptyString, _ | _, Some EmptyString => (AEGIS_EINVAL, s)
    | Some service, Some peer =>
        if AEGIS_IPC_MAILBOX_MAX <=? is_mailbox_count (si_state s) then (AEGIS_ENOMEM, s)
        else
          match feature service u, feature peer u with
          | Some svc, Some pf =>
              let '(ch, low) := channel_create (uf_id svc) (si_low s) in
              let channel_id := channel_id_from_handle ch low in
              let s := s <| si_low := low |> in
              if bool_decide (ch = None) || (channel_id =? 0) then (AEGIS_ENOMEM, s)
              else
                let '(queue_id, qs) := ipc_create_queue channel_id (queues low) in
                let s := s <| si_low ::= λ low, low <| queues := qs |> |> in
                if queue_id <? 0 then (queue_id, s)
                else
                  let mb := mk_mailbox (si_next_mailbox_id s) (uf_id svc) (uf_id pf) (uf_service_id svc) channel_id
                              (u32 queue_id) (mailbox_name service) (mailbox_name peer) MAILBOX_CHANNEL_READY 0 0 0 in
                  (AEGIS_OK,
                   s <| si_mailboxes ::= <[Z.to_nat (is_mailbox_count (si_state s)) := mb]> |>
                     <| si_next_mailbox_id ::= λ n, u32 (n + 1) |>
                     <| si_state ::= λ i, i <| is_mailbox_count ::= λ n, u32 (n + 1) |>
                                            <| is_channel_count ::= λ n, u32 (n + 1) |>
                                            <| is_route_count ::= λ n, u32 (n + 1) |>
                                            <| is_last_channel_id := channel_id |> |>)
          | _, _ => (AEGIS_ENOENT, s)
          end
    end.

Fixpoint register_routes (u : userland) (routes : list (string * string)) (s : service_ipc) : Z * service_ipc :=
  match routes with
  | [] => (AEGIS_OK, s)
  | (service, peer) :: routes =>
      let '(rc, s) := register_mailbox u (Some service) (Some peer) s in
      if negb (rc =? AEGIS_OK) then (rc, s) else register_routes u routes s
  end.

Definition service_routes : list (string * string) :=
  [("aegis-init", "aegisd"); ("aegisd", "routerd"); ("routerd", "rustmyadmin"); ("rustmyadmin", "aegisd")]%string.

Definition service_ipc_prepare_service_messaging (l : launch) (s : service_ipc) : Z * service_ipc :=
  if negb (is_initialised (si_state s)) then (AEGIS_EINVAL, s)
  else if negb (userland_real_multiprocess_launch_ready l) || negb (userland_syscall_expansion_ready l)
  then (AEGIS_EINVAL, s)
  else if negb (is_mailbox_count (si_state s) =? 0) then (AEGIS_EBUSY, s)
  else
    let '(rc, s) := register_routes (la_user l) service_routes s in
    if negb (rc =? AEGIS_OK) then (rc, s)
    else (AEGIS_OK, s <| si_state ::= λ i, i <| is_service_messaging_ready := true |> |>).

Definition live_mailboxes (s : service_ipc) : list service_mailbox :=
  take (Z.to_nat (is_mailbox_count (si_state s))) (si_mailboxes s).

Definition mailbox_usable (mb : service_mailbox) : bool :=
  negb (mb_id mb =? 0) && negb (mb_channel_id mb =? 0) &&
  (bool_decide (mb_state mb = MAILBOX_CHANNEL_READY) || bool_decide (mb_state mb = MAILBOX_ROUNDTRIP_PROVED)).

Definition saw_service (name : string) (s : service_ipc) : bool :=
  existsb (λ mb, c_streq (mb_service_name mb) name) (live_mailboxes s).

Definition service_ipc_service_messaging_selftest (s : service_ipc) : Z :=
  let i := si_state s in
  if negb (is_service_messaging_ready i) || (is_mailbox_count i <? 4)
     || negb (is_channel_count i =? is_mailbox_count i) || negb (is_route_count i =? is_mailbox_count i)
     || negb (forallb mailbox_usable (live_mailboxes s)) then AEGIS_EINVAL
  else if saw_service "aegis-init" s && saw_service "aegisd" s && saw_service "routerd" s && saw_service "rustmyadmin" s
  then AEGIS_OK else AEGIS_ENOENT.

Definition ipc_test_payload : list Z := bytes_of "v43.4:aegisd->routerd:mailbox-ready" ++ [0].

(** [tid] is the identifier of the current task, which [ipc_send] records. [None]
    when the second slot of the table does not exist. *)
Definition service_ipc_message_roundtrip_selftest (tid : Z) (s : service_ipc) : option (Z * service_ipc) :=
  if negb (is_service_messaging_ready (si_state s)) || (is_mailbox_count (si_state s) <? 2) then Some (AEGIS_EINVAL, s)
  else
    mb ← si_mailboxes s !! 1%nat;
    if (mb_channel_id mb =? 0) || negb (bool_decide (mb_state mb = MAILBOX_CHANNEL_READY)) then Some (AEGIS_EINVAL, s)
    else
      let expected_len := Z.of_nat (length ipc_test_payload) in
      if AEGIS_IPC_TEST_PAYLOAD_MAX <? expected_len then Some (AEGIS_EINVAL, s)
      else
        let '(rc, qs) := ipc_send tid (mb_channel_id mb) (Some ipc_test_payload) expected_len (queues (si_low s)) in
        let s := s <| si_low ::= λ low, low <| queues := qs |> |> in
        if negb (rc =? AEGIS_OK) then Some (rc, s)
        else
          let recv := replicate (Z.to_nat AEGIS_IPC_TEST_PAYLOAD_MAX) 0 in
          let '(rc, recv, qs) := ipc_recv (mb_channel_id mb) recv AEGIS_IPC_TEST_PAYLOAD_MAX (queues (si_low s)) in
          let s := s <| si_low ::= λ low, low <| queues := qs |> |> in
          if rc <? 0 then Some (rc, s)
          else if negb (rc =? expected_len) then Some (AEGIS_EINVAL, s)
          else if negb (bool_decide (take (length ipc_test_payload) recv = ipc_test_payload)) then Some (AEGIS_EINVAL, s)
          else
            Some (AEGIS_OK,
              s <| si_mailboxes ::= alter (λ mb, mb <| mb_sent_count ::= λ n, u32 (n + 1) |>
                                                    <| mb_recv_count ::= λ n, u32 (n + 1) |>
                                                    <| mb_last_payload_len := expected_len |>
                                                    <| mb_state := MAILBOX_ROUNDTRIP_PROVED |>) 1%nat |>
                <| si_state ::= λ i, i <| is_last_channel_id := mb_channel_id mb |>
                                       <| is_last_roundtrip_bytes := expected_len |>
                                       <| is_message_roundtrip_ready := true |> |>).

Definition service_ipc_service_messaging_ready (s : service_ipc) : bool := is_service_messaging_ready (si_state s).
Definition service_ipc_message_roundtrip_ready (s : service_ipc) : bool := is_message_roundtrip_ready (si_state s).

(** * The routes *)

Record svc_inv (s : service_ipc) : Prop := {
  sv_init : is_initialised (si_state s) = true;
  sv_len : length (si_mailboxes s) = Z.to_nat AEGIS_IPC_MAILBOX_MAX;
  sv_count : 0 ≤ is_mailbox_count (si_state s) ≤ AEGIS_IPC_MAILBOX_MAX;
  sv_channels : is_channel_count (si_state s) = is_mailbox_count (si_state s);
  sv_routes : is_route_count (si_state s) = is_mailbox_count (si_state s);
  sv_next : si_next_mailbox_id s = is_mailbox_count (si_state s) + 1;
  sv_low : chan_inv (si_low s);
  sv_fresh : is_mailbox_count (si_state s) < next_channel_id (si_low s) ≤ MAX_CHANNELS;
}.

(** The static tables before initialisation: right sizes, any contents. *)
Record svc_shape (s : service_ipc) : Prop := {
  sh_mailboxes : length (si_mailboxes s) = Z.to_nat AEGIS_IPC_MAILBOX_MAX;
  sh_channels : length (channel_table (si_low s)) = Z.to_nat MAX_CHANNELS;
  sh_queues : table_shape (queues (si_low s));
}.

Lemma service_ipc_init_inv s :
  svc_shape s →
  let s' := service_ipc_init s in
  svc_inv s' ∧ abs (queues (si_low s')) = ∅ ∧ live_mailboxes s' = [] ∧ next_channel_id (si_low s') = 1.
Proof.
  intros [Hm Hc Hq]. destruct (ipc_init_inv _ Hq) as [Hi Ha]. intros s'.
  assert (registry_list (named_channels (si_low s')) = []) as HR.
  { unfold registry_list, used_names. cbn. induction (named_channels (si_low s)); [done|]. cbn. done. }
  split_and!; try done. split; try done; try (cbn; unfold AEGIS_IPC_MAILBOX_MAX, MAX_CHANNELS; lia).
  - cbn. by rewrite length_fmap.
  - split; rewrite ?HR; try done; try (cbn; unfold MAX_CHANNELS; lia).
    + cbn. by rewrite length_fmap.
    + constructor.
    + constructor.
    + intros c l. change (queues (si_low s')) with (ipc_init (queues (si_low s))). by rewrite Ha.
    + unfold registry. by rewrite HR.
Qed.

Lemma live_extend (l : list service_mailbox) n x :
  (n < length l)%nat → take (S n) (<[n := x]> l) = take n l ++ [x].
Proof.
  intros Hn. rewrite (take_S_r _ _ x) by (by apply list_lookup_insert_eq). f_equal.
  rewrite take_insert_ge by lia. done.
Qed.

(** Registering a route: a channel and an empty queue of its own. *)
Lemma register_mailbox_ok u service peer svc pf s :
  svc_inv s → service ≠ EmptyString → peer ≠ EmptyString →
  feature service u = Some svc → feature peer u = Some pf →
  is_mailbox_count (si_state s) < AEGIS_IPC_MAILBOX_MAX → next_channel_id (si_low s) < MAX_CHANNELS →
  (base.size (abs (queues (si_low s))) < MAX_MSG_QUEUES)%nat →
  let id := next_channel_id (si_low s) in
  ∃ s' mb, register_mailbox u (Some service) (Some peer) s = (AEGIS_OK, s') ∧ svc_inv s' ∧
    live_mailboxes s' = live_mailboxes s ++ [mb] ∧ abs (queues (si_low s')) = <[id := []]> (abs (queues (si_low s))) ∧
    next_channel_id (si_low s') = id + 1 ∧ channel_get id (si_low s') = Some (mk_channel id (uf_id svc) true) ∧
    is_service_messaging_ready (si_state s') = is_service_messaging_ready (si_state s) ∧
    mb_id mb = is_mailbox_count (si_state s) + 1 ∧ mb_owner_pid mb = uf_id svc ∧ mb_peer_pid mb = uf_id pf ∧
    mb_service_id mb = uf_service_id svc ∧ mb_channel_id mb = id ∧ mb_service_name mb = mailbox_name service ∧
    mb_peer_name mb = mailbox_name peer ∧ mb_state mb = MAILBOX_CHANNEL_READY ∧
    is_mailbox_count (si_state s') = is_mailbox_count (si_state s) + 1.
Proof.
  intros Hinv Hs Hp Hsvc Hpf Hroom Hch Hq id. pose proof Hinv as [Hini Hlen Hcnt Hcc Hrc Hnx Hlow Hfr].
  destruct (channel_create_spec (uf_id svc) (si_low s) Hlow Hch) as (low & Hcreate & Hid & Hget & Hnc & Hqs & Hnext & Htab). change (next_channel_id (si_low s)) with id in Hcreate, Hid, Hget, Hnext.
  assert (abs (queues (si_low s)) !! id = None) as Hfresh.
  { destruct (abs (queues (si_low s)) !! id) eqn:E; [|done]. apply (ci_fresh _ Hlow) in E. unfold id in E. lia. }
  destruct (create_refines id _ (ci_queues _ Hlow) Hfresh) as (qs & Hexec & Hqinv & Habs).
  unfold ipc_exec, spec_exec in Hexec, Habs. rewrite (proj2 (Nat.ltb_lt _ _) Hq) in Hexec, Habs. cbn [fst snd] in Hexec, Habs.
  destruct (ipc_create_queue id (queues (si_low s))) as [r qs1] eqn:Eq. injection Hexec as Hr <-.
  assert (0 ≤ r) as Hr0 by (destruct (Z.ltb_spec r 0); lia).
  unfold register_mailbox. rewrite Hini. destruct service as [|a service]; [done|]. destruct peer as [|b peer]; [done|].
  cbn [negb]. rewrite (proj2 (Z.leb_gt _ _)), Hsvc, Hpf, Hcreate by done. cbn zeta. rewrite Hid.
  assert (0 < id) as Hid0 by lia.
  rewrite bool_decide_eq_false_2, (proj2 (Z.eqb_neq _ _)) by (done || lia). cbn [orb]. rewrite Hqs, Eq.
  rewrite (proj2 (Z.ltb_ge _ _)) by done.
  eexists _, (mk_mailbox (si_next_mailbox_id s) (uf_id svc) (uf_id pf) (uf_service_id svc) id (u32 r) _ _ MAILBOX_CHANNEL_READY 0 0 0).
  split; [reflexivity|]. cbn -[mailbox_name abs]. unfold AEGIS_IPC_MAILBOX_MAX in *.
  rewrite !u32_small by lia.
  split_and!; try done; try lia.
  - split; cbn; unfold AEGIS_IPC_MAILBOX_MAX; rewrite ?u32_small by lia; try done; try lia.
    + by rewrite length_insert.
    + destruct Hlow as [? ? ? ? Hu ? Hf Hrd]. split; cbn -[abs registry_list]; rewrite ?Hnc; try done.
      * congruence.
      * rewrite Hnext. unfold MAX_CHANNELS in *. unfold id in *. lia.
      * eapply Forall_impl; [exact Hu|]. cbn. lia.
      * intros c l. rewrite Habs, Hnext. destruct (decide (c = id)) as [->|Hne]; [lia|].
        rewrite lookup_insert_ne by done. intros Hc. apply Hf in Hc. unfold id. lia.
      * unfold registry in Hrd. intros n c Hn. rewrite Habs. destruct (decide (c = id)) as [->|Hne].
        -- rewrite lookup_insert_eq. by eexists.
        -- rewrite lookup_insert_ne by done. by apply (Hrd n).
  - unfold live_mailboxes. cbn.
    replace (Z.to_nat (_ + 1)) with (S (Z.to_nat (is_mailbox_count (si_state s)))) by lia.
    apply live_extend. lia.
Qed.

(** The catalogue has the four services. *)
Record catalogue (l : launch) (i d r a : userland_feature) : Prop := {
  cat_ready : userland_real_multiprocess_launch_ready l = true ∧ userland_syscall_expansion_ready l = true;
  cat_init : feature "aegis-init" (la_user l) = Some i;
  cat_aegisd : feature "aegisd" (la_user l) = Some d;
  cat_routerd : feature "routerd" (la_user l) = Some r;
  cat_admin : feature "rustmyadmin" (la_user l) = Some a;
}.

(** A route as its owner sees it: service and peer with their identifiers, and
    the channel. *)
Definition route (mb : service_mailbox) : string * string * Z * Z * Z :=
  (mb_service_name mb, mb_peer_name mb, mb_owner_pid mb, mb_peer_pid mb, mb_channel_id mb).

(** The routes of a table whose next channel is [id], and the queues they add. *)
Fixpoint routes_from (id : Z) (rs : list (string * string * userland_feature * userland_feature)) :=
  match rs with
  | [] => []
  | (service, peer, svc, pf) :: rs =>
      (mailbox_name service, mailbox_name peer, uf_id svc, uf_id pf, id) :: routes_from (id + 1) rs
  end.
Fixpoint queues_from (id : Z) (n : nat) (m : mailboxes) : mailboxes :=
  match n with O => m | S n => queues_from (id + 1) n (<[id := []]> m) end.

Definition fresh_mailbox (mb : service_mailbox) : Prop :=
  mailbox_usable mb = true ∧ mb_state mb = MAILBOX_CHANNEL_READY.

Lemma register_routes_ok u rs s :
  svc_inv s →
  Forall (λ '(service, peer, svc, pf), service ≠ EmptyString ∧ peer ≠ EmptyString ∧
            feature service u = Some svc ∧ feature peer u = Some pf) rs →
  is_mailbox_count (si_state s) + Z.of_nat (length rs) ≤ AEGIS_IPC_MAILBOX_MAX →
  next_channel_id (si_low s) + Z.of_nat (length rs) ≤ MAX_CHANNELS →
  (base.size (abs (queues (si_low s))) + length rs ≤ MAX_MSG_QUEUES)%nat →
  ∃ s' mbs, register_routes u (fst ∘ fst <$> rs) s = (AEGIS_OK, s') ∧ svc_inv s' ∧
    live_mailboxes s' = live_mailboxes s ++ mbs ∧ Forall fresh_mailbox mbs ∧
    route <$> mbs = routes_from (next_channel_id (si_low s)) rs ∧
    abs (queues (si_low s')) = queues_from (next_channel_id (si_low s)) (length rs) (abs (queues (si_low s))) ∧
    is_service_messaging_ready (si_state s') = is_service_messaging_ready (si_state s) ∧
    is_mailbox_count (si_state s') = is_mailbox_count (si_state s) + Z.of_nat (length rs).
Proof.
  intros Hinv Hrs. revert s Hinv. induction Hrs as [|[[[service peer] svc] pf] rs (Hs & Hp & Hsvc & Hpf) _ IH]; intros s Hinv Hm Hc Hq.
  { exists s, []. cbn. rewrite app_nil_r, Z.add_0_r. auto 10. }
  cbn [length] in *.
  destruct (register_mailbox_ok u service peer svc pf s Hinv) as
    (s1 & mb & Hreg & Hinv1 & Hlive & Habs & Hnext & _ & Hready & Hid & Hown & Hpeer & _ & Hch & Hname & Hpname & Hst & Hcount);
    [done|done|done|done|lia|lia|lia|].
  destruct (IH s1 Hinv1) as (s' & mbs & Hrun & Hinv' & Hlive' & Hfr & Hro & Habs' & Hready' & Hcount'); [lia|lia| |].
  { rewrite Habs, map_size_insert. destruct (_ !! _); unfold Datatypes.id; lia. }
  exists s', (mb :: mbs). cbn [fmap list_fmap register_routes fst compose]. rewrite Hreg. cbn [negb Z.eqb AEGIS_OK].
  split_and!; try done; try congruence; try lia.
  - rewrite Hlive', Hlive. by rewrite <-app_assoc.
  - constructor; [|done]. split; [|done]. unfold mailbox_usable. rewrite Hid, Hch, Hst. destruct Hinv.
    by rewrite !(proj2 (Z.eqb_neq _ _)) by lia.
  - cbn. unfold route at 1. rewrite Hname, Hpname, Hown, Hpeer, Hch. f_equal. rewrite <-Hnext. exact Hro.
  - by rewrite Habs', Habs, Hnext.
Qed.

(** The routes of the booted system. *)
Definition boot_routes (i d r a : userland_feature) : list (string * string * userland_feature * userland_feature) :=
  [("aegis-init", "aegisd", i, d); ("aegisd", "routerd", d, r); ("routerd", "rustmyadmin", r, a);
   ("rustmyadmin", "aegisd", a, d)]%string.

Definition four_mailboxes : mailboxes := queues_from 1 4 ∅.

Lemma prepare_ok i d r a l s :
  svc_shape s → catalogue l i d r a →
  ∃ s', service_ipc_prepare_service_messaging l (service_ipc_init s) = (AEGIS_OK, s') ∧ svc_inv s' ∧
    is_service_messaging_ready (si_state s') = true ∧ is_mailbox_count (si_state s') = 4 ∧
    route <$> live_mailboxes s' = routes_from 1 (boot_routes i d r a) ∧ Forall fresh_mailbox (live_mailboxes s') ∧
    abs (queues (si_low s')) = four_mailboxes.
Proof.
  intros Hshape [[Hr1 Hr2] Hi Hd Hr Ha]. destruct (service_ipc_init_inv s Hshape) as (Hinv & Habs & Hlive & Hnext).
  destruct (register_routes_ok (la_user l) (boot_routes i d r a) _ Hinv) as (s' & mbs & Hrun & Hinv' & Hl & Hf & Hro & Ha' & Hready & Hcount).
  - repeat constructor; done.
  - cbn. unfold AEGIS_IPC_MAILBOX_MAX. lia.
  - rewrite Hnext. cbn. unfold MAX_CHANNELS. lia.
  - rewrite Habs. cbn. unfold MAX_MSG_QUEUES. rewrite map_size_empty. lia.
  - exists (s' <| si_state ::= λ i, i <| is_service_messaging_ready := true |> |>).
    rewrite Hlive, app_nil_l in Hl. rewrite Hnext in Hro, Ha'. rewrite Habs in Ha'.
    split_and!.
    + unfold service_ipc_prepare_service_messaging. rewrite Hr1, Hr2.
      change (is_mailbox_count (si_state (service_ipc_init s))) with 0. cbn [negb orb Z.eqb is_initialised].
      change (is_initialised (si_state (service_ipc_init s))) with true. cbn [negb].
      change service_routes with (fst ∘ fst <$> boot_routes i d r a). by rewrite Hrun.
    + destruct Hinv'. split; done.
    + done.
    + exact Hcount.
    + change (live_mailboxes _) with (live_mailboxes s'). by rewrite Hl.
    + change (live_mailboxes _) with (live_mailboxes s'). by rewrite Hl.
    + exact Ha'.
Qed.

(** C8: the service mailboxes. From any state of the static tables, once the
    catalogue has the four services and the launch is ready, initialisation and
    preparation succeed: there are four routes, each with the identifiers of its
    service and its peer and with a channel of its own; the self test passes; and
    every sequence of queue operations on these channels behaves as on four empty
    first-in first-out mailboxes. *)
Theorem service_messaging_ready i d r a l s :
  svc_shape s → catalogue l i d r a →
  ∃ s', service_ipc_prepare_service_messaging l (service_ipc_init s) = (AEGIS_OK, s') ∧
    route <$> live_mailboxes s' =
      [("aegis-init", "aegisd", uf_id i, uf_id d, 1); ("aegisd", "routerd", uf_id d, uf_id r, 2);
       ("routerd", "rustmyadmin", uf_id r, uf_id a, 3); ("rustmyadmin", "aegisd", uf_id a, uf_id d, 4)]%string ∧
    service_ipc_service_messaging_selftest s' = AEGIS_OK ∧
    ∀ ops, ops_ok four_mailboxes ops →
      (run ipc_exec ops (queues (si_low s'))).1 = (run spec_exec ops four_mailboxes).1.
Proof.
  intros Hshape Hcat. destruct (prepare_ok _ _ _ _ _ _ Hshape Hcat) as (s' & Hrun & Hinv & Hready & Hcount & Hro & Hf & Habs).
  exists s'. split; [exact Hrun|]. split; [rewrite Hro; reflexivity|]. split.
  - unfold service_ipc_service_messaging_selftest. rewrite Hready, (sv_channels _ Hinv), (sv_routes _ Hinv), Z.eqb_refl, Hcount.
    assert (forallb mailbox_usable (live_mailboxes s') = true) as ->.
    { apply Is_true_true, forallb_True. eapply Forall_impl; [exact Hf|]. intros mb [Hu _]. by apply Is_true_true. }
    cbn [negb orb Z.ltb Z.compare Pos.compare Pos.compare_cont].
    assert (∀ name, saw_service name s' = existsb (λ x : string * string * Z * Z * Z, c_streq x.1.1.1.1 name) (route <$> live_mailboxes s')) as Hsaw.
    { intros name. unfold saw_service. generalize (live_mailboxes s'). clear. intros ms. induction ms as [|mb ms IH]; [done|]. cbn. by rewrite IH. }
    by rewrite !Hsaw, Hro.
  - intros ops Hok. rewrite <-Habs in Hok |- *. destruct (run_refines ops _ (ci_queues _ (sv_low _ Hinv)) Hok) as (qs' & -> & _). done.
Qed.

(** The probe goes in at the end, and the first message comes out. *)
Lemma send_then_recv tid c qs q :
  ipc_inv qs → abs qs !! c = Some q → Z.of_nat (length q) < MSG_QUEUE_DEPTH →
  ∃ qs1 qs2 first rest buf,
    q ++ [(tid, ipc_test_payload)] = first :: rest ∧
    ipc_send tid c (Some ipc_test_payload) (Z.of_nat (length ipc_test_payload)) qs = (AEGIS_OK, qs1) ∧
    ipc_recv c (replicate (Z.to_nat AEGIS_IPC_TEST_PAYLOAD_MAX) 0) AEGIS_IPC_TEST_PAYLOAD_MAX qs1 =
      (Z.of_nat (length first.2 `min` 64), take (length first.2 `min` 64) first.2 ++ buf, qs2) ∧
    ipc_inv qs2 ∧ abs qs2 = <[c := rest]> (abs qs).
Proof.
  intros Hinv Hq Hroom.
  destruct (send_refines tid c (Some ipc_test_payload) (Z.of_nat (length ipc_test_payload)) qs Hinv) as (qs1 & Hs & Hinv1 & Habs1).
  { cbn -[ipc_test_payload]. lia. }
  assert (spec_exec (Send tid c (Some ipc_test_payload) (Z.of_nat (length ipc_test_payload))) (abs qs) =
    (AEGIS_OK, [], <[c := q ++ [(tid, ipc_test_payload)]]> (abs qs))) as Espec.
  { unfold spec_exec. rewrite Hq, (proj2 (Z.leb_gt _ _)) by done. reflexivity. }
  rewrite Espec in Hs, Habs1. cbn [fst snd] in Hs, Habs1. unfold ipc_exec in Hs.
  destruct (ipc_send _ _ _ _ _) as [rc qs1'] eqn:Esend. injection Hs as -> ->.
  destruct (q ++ [(tid, ipc_test_payload)]) as [|[t p] rest] eqn:Eq; [by destruct q|].
  destruct (recv_refines c (replicate (Z.to_nat AEGIS_IPC_TEST_PAYLOAD_MAX) 0) AEGIS_IPC_TEST_PAYLOAD_MAX qs1 Hinv1) as (qs2 & Hr & Hinv2 & Habs2).
  { by split. }
  assert (abs qs1 !! c = Some ((t, p) :: rest)) as Hc1 by (rewrite Habs1; apply lookup_insert_eq).
  unfold spec_exec in Hr, Habs2. rewrite Hc1 in Hr, Habs2. cbn [fst snd] in Hr, Habs2. unfold ipc_exec in Hr.
  destruct (ipc_recv c _ _ qs1) as [[rc b] qs2'] eqn:Erecv. injection Hr as -> -> ->.
  exists qs1, qs2, (t, p), rest, (drop (length p `min` 64) (replicate 64 0)). split_and!; try done.
  by rewrite Habs2, Habs1, insert_insert_eq.
Qed.

(** C9: what the round trip self test does. With a usable second route whose queue
    holds [q] and is not full, the test puts its probe behind [q] and takes the
    first message: it succeeds exactly when that message is the probe's text, and
    the queue is left with the rest. So on an empty queue it succeeds and changes
    no queue; on any other queue a message of the services is lost and the probe
    stays behind. *)
Theorem roundtrip_selftest_takes_first tid s mb q :
  svc_inv s → is_service_messaging_ready (si_state s) = true → 2 ≤ is_mailbox_count (si_state s) →
  si_mailboxes s !! 1%nat = Some mb → fresh_mailbox mb →
  abs (queues (si_low s)) !! mb_channel_id mb = Some q → Z.of_nat (length q) < MSG_QUEUE_DEPTH →
  ∃ rc s' first rest,
    service_ipc_message_roundtrip_selftest tid s = Some (rc, s') ∧
    q ++ [(tid, ipc_test_payload)] = first :: rest ∧
    abs (queues (si_low s')) = <[mb_channel_id mb := rest]> (abs (queues (si_low s))) ∧
    (rc = AEGIS_OK ↔ first.2 = ipc_test_payload) ∧
    (rc = AEGIS_OK → service_ipc_message_roundtrip_ready s' = true).
Proof.
  intros Hinv Hready Hcount Hmb [Hus Hst] Hq Hroom.
  assert ((mb_channel_id mb =? 0) = false) as Hch.
  { unfold mailbox_usable in Hus. rewrite !andb_true_iff, !negb_true_iff in Hus. tauto. }
  destruct (send_then_recv tid _ _ _ (ci_queues _ (sv_low _ Hinv)) Hq Hroom) as (qs1 & qs2 & first & rest & buf & Eq & Hs & Hr & Hinv2 & Habs2).
  unfold service_ipc_message_roundtrip_selftest. rewrite Hready, (proj2 (Z.ltb_ge _ _)), Hmb by done.
  cbn [negb orb mbind option_bind]. rewrite Hch, Hst, bool_decide_eq_true_2 by done. cbn [negb orb].
  change (AEGIS_IPC_TEST_PAYLOAD_MAX <? _) with false. cbv iota. cbn zeta. rewrite Hs. cbn [negb Z.eqb AEGIS_OK].
  match goal with |- context [ipc_recv _ _ _ (queues ?x)] => change (queues x) with qs1 end. rewrite Hr, (proj2 (Z.ltb_ge _ 0)) by lia.
  assert (length ipc_test_payload = 36%nat) as HP by reflexivity. rewrite HP. set (P := ipc_test_payload) in *. clearbody P.
  destruct (Z.eqb_spec (Z.of_nat (length first.2 `min` 64)) (Z.of_nat 36)) as [Hk|Hk]; cbn [negb].
  2: { eexists _, _, first, rest. split_and!; [reflexivity|done|exact Habs2| |discriminate]. split; [discriminate|]. intros E. rewrite E in Hk. lia. }
  replace (length first.2 `min` 64)%nat with 36%nat by lia. assert (length first.2 = 36%nat) as Hlen by lia.
  rewrite take_app_le by (rewrite length_take; lia). rewrite take_take, Nat.min_id, (take_ge first.2) by lia.
  destruct (bool_decide (first.2 = P)) eqn:Eb; cbn [negb].
  - apply bool_decide_eq_true in Eb. eexists _, _, first, rest. split_and!; [reflexivity|done|exact Habs2|done|done].
  - apply bool_decide_eq_false in Eb. eexists _, _, first, rest. split_and!; [reflexivity|done|exact Habs2| |discriminate]. by split.
Qed.

(** * The booted system *)

Definition blank_service_ipc : service_ipc :=
  mk_service_ipc (mk_ipc_service false false false 0 0 0 0 0) (replicate 8 zero_mailbox) 0
    (mk_ipc (replicate 1024 (mk_channel 0 0 false)) (replicate 32 (mk_named false 0 EmptyString)) 0 blank_table).
Definition booted_launch : launch := (userland_prepare_syscall_expansion (launch_of FirstProcess.booted)).2.
Definition feature_of (name : string) : userland_feature :=
  default (mk_feature 0 EmptyString EmptyString EmptyString USERLAND_EMPTY 0 0 0) (feature name (la_user booted_launch)).

Lemma blank_service_shape : svc_shape blank_service_ipc.
Proof. split; [done|apply length_replicate|apply blank_table_shape]. Qed.

Lemma booted_catalogue :
  catalogue booted_launch (feature_of "aegis-init") (feature_of "aegisd") (feature_of "routerd") (feature_of "rustmyadmin").
Proof. split; [split|..]; vm_compute; reflexivity. Qed.

Lemma service_messaging_ready_witness :
  ∃ s', service_ipc_prepare_service_messaging booted_launch (service_ipc_init blank_service_ipc) = (AEGIS_OK, s') ∧
    service_ipc_service_messaging_selftest s' = AEGIS_OK ∧
    (run ipc_exec [Send 7 2 (Some [1; 2]) 2; Recv 3 [0] 1; Recv 2 [0; 0] 2] (queues (si_low s'))).1 =
      [(AEGIS_OK, []); (AEGIS_EBUSY, [0]); (2, [1; 2])].
Proof.
  destruct (service_messaging_ready _ _ _ _ _ _ blank_service_shape booted_catalogue) as (s' & Hrun & _ & Htest & Hops).
  exists s'. split; [exact Hrun|]. split; [exact Htest|].
  rewrite Hops by (vm_compute; repeat split; discriminate). vm_compute. reflexivity.
Defined.

Lemma roundtrip_selftest_takes_first_witness :
  ∃ s s', service_ipc_prepare_service_messaging booted_launch (service_ipc_init blank_service_ipc) = (AEGIS_OK, s) ∧
    service_ipc_message_roundtrip_selftest 0 s = Some (AEGIS_OK, s') ∧
    abs (queues (si_low s')) = four_mailboxes.
Proof.
  destruct (prepare_ok _ _ _ _ _ _ blank_service_shape booted_catalogue) as (s & Hrun & Hinv & Hready & Hcount & Hro & Hf & Habs).
  assert (∃ mb, si_mailboxes s !! 1%nat = Some mb ∧ mb_channel_id mb = 2 ∧ fresh_mailbox mb) as (mb & Hmb & Hch & Hfr).
  { assert (route <$> live_mailboxes s !! 1%nat = Some (mailbox_name "aegisd", mailbox_name "routerd", uf_id (feature_of "aegisd"), uf_id (feature_of "routerd"), 2)) as H1
      by (rewrite <-list_lookup_fmap, Hro; reflexivity).
    apply fmap_Some in H1 as (mb & Hmb & Hr). exists mb. split; [|split].
    - unfold live_mailboxes in Hmb. apply lookup_take_Some in Hmb. apply Hmb.
    - unfold route in Hr. congruence.
    - rewrite Forall_forall in Hf. apply Hf. by eapply list_elem_of_lookup_2. }
  assert (2 ≤ is_mailbox_count (si_state s)) as H2 by (rewrite Hcount; lia).
  assert (abs (queues (si_low s)) !! mb_channel_id mb = Some []) as Hq by (rewrite Habs, Hch; reflexivity).
  destruct (roundtrip_selftest_takes_first 0 s mb [] Hinv Hready H2 Hmb Hfr Hq eq_refl) as (rc & s' & first & rest & Hs & Eq & Habs' & Hrc & _).
  injection Eq as <- <-. exists s, s'. split; [exact Hrun|]. rewrite (proj2 Hrc eq_refl) in Hs. split; [exact Hs|].
  rewrite Habs', Habs, Hch. vm_compute. reflexivity.
Defined.

(** A message that a service has put into the queue is lost to the self test, which
    fails and leaves its probe behind. *)
Lemma selftest_takes_service_message :
  match service_ipc_prepare_service_messaging booted_launch (service_ipc_init blank_service_ipc) with
  | (_, s) =>
      let qs := (ipc_send 5 2 (Some [42]) 1 (queues (si_low s))).2 in
      match service_ipc_message_roundtrip_selftest 0 (s <| si_low ::= λ low, low <| queues := qs |> |>) with
      | Some (rc, s') => rc = AEGIS_EINVAL ∧ abs (queues (si_low s')) !! 2 = Some [(0, ipc_test_payload)]
      | None => False
      end
  end.
Proof. vm_compute. split; reflexivity. Qed.

(** A preparation that fails at a later route cannot be repeated: the routes made so
    far make the next attempt report that the table is busy. *)
Lemma failed_preparation_sticks :
  let i := default 0%nat (userland_find_feature (Some "rustmyadmin"%string) (la_user booted_launch)) in
  let l := booted_launch <| la_user ::= upd_feature i (λ f, f <| uf_state := USERLAND_EMPTY |>) |> in
  match service_ipc_prepare_service_messaging l (service_ipc_init blank_service_ipc) with
  | (rc, s) => rc = AEGIS_ENOENT ∧ (service_ipc_prepare_service_messaging booted_launch s).1 = AEGIS_EBUSY
  end.
Proof. vm_compute. split; reflexivity. Qed.
