(* ===== verification/Process.v ===== *)
(** Processes: kernel/core/process.c, a table of 256 process records.

    What the module uses of the scheduler, the heap, the ELF loader, the
    descriptor and socket tables, the supervisor and the userland catalogue is the
    class [ProcEnv], operations on the state [W] of those components ([None] is
    non-termination or a fault there). The instance [kernel_env] at the end of
    the file connects the table with the models of all of them. *)

From S2P Require Import Prelude PhysMem Heap Scheduler Elf Vfs FdTable Supervisor Links Checksum Packet Routing Firewall Arp Net Udp Tcp Rx Socket Services Userland.

Definition MAX_PROCESSES : nat := 256.
Definition PROC_STACK_SIZE : Z := 64 * 1024.

Inductive proc_state :=
  PROC_STATE_EMPTY | PROC_STATE_RUNNING | PROC_STATE_SLEEPING | PROC_STATE_ZOMBIE | PROC_STATE_STOPPED.
#[export] Instance proc_state_eq_dec : EqDecision proc_state.
Proof. solve_decision. Defined.

Record process := mk_process {
  pr_pid : Z; pr_ppid : Z; pr_state : proc_state; pr_exit_code : Z;
  pr_start_time : Z; pr_cpu_time : Z;
  pr_entry : Z; pr_text_base : Z; pr_text_size : Z; pr_stack_base : Z; pr_stack_size : Z;
  pr_runtime_slot : Z; pr_owns_stack : bool; pr_task : Z;
  pr_cap_set : list Z; pr_cap_count : Z; pr_name : string; pr_uid : Z; pr_gid : Z;
}.
#[export] Instance process_eta : Eta process := λ p,
  mk_process (pr_pid p) (pr_ppid p) (pr_state p) (pr_exit_code p) (pr_start_time p) (pr_cpu_time p)
    (pr_entry p) (pr_text_base p) (pr_text_size p) (pr_stack_base p) (pr_stack_size p)
    (pr_runtime_slot p) (pr_owns_stack p) (pr_task p) (pr_cap_set p) (pr_cap_count p) (pr_name p)
    (pr_uid p) (pr_gid p).

(** [process_zero] *)
Definition zero_process : process :=
  mk_process 0 0 PROC_STATE_EMPTY 0 0 0 0 0 0 0 0 0 false 0 (replicate 16 0) 0 EmptyString 0 0.

Record procs := mk_procs { proc_table : list process; next_pid : Z; cleanup_ready : bool }.
#[export] Instance procs_eta : Eta procs := λ s, mk_procs (proc_table s) (next_pid s) (cleanup_ready s).

Class ProcEnv (W : Type) := {
  pe_ticks : W → Z;
  pe_current : W → Z;
  pe_task_create : option string → Z → Z → W → option (Z * W);
  pe_task_destroy : Z → W → option W;
  pe_yield : W → option W;
  pe_kmalloc : Z → W → option (Z * W);
  pe_kfree : Z → W → option W;
  pe_fd_table_init : W → W;
  pe_fd_close_all : Z → W → W;
  pe_socket_close_all : Z → W → option W;
  pe_supervisor_mark_exit : string → Z → Z → W → W;
  pe_release_slot : Z → W → Z * W;
  pe_userland_mark_exited : string → Z → Z → W → option (Z * W);
  pe_slot_read_ok : Z → Z → Z → W → bool;
  pe_slot_write_ok : Z → Z → Z → W → bool;
}.

(** A [process_t *] is an index of the table. *)
Definition is_used (p : process) : bool := negb (bool_decide (pr_state p = PROC_STATE_EMPTY)).

Definition process_copy_name (src : option string) : string :=
  str_take (TASK_NAME_MAX - 1) (default "process" src).
#[global] Arguments process_copy_name : simpl never.

Definition range_inside (ptr len base size : Z) : bool :=
  if (ptr =? 0) || (len =? 0) || (base =? 0) || (size =? 0) then false
  else
    let end' := u64 (ptr + len) in
    let region_end := u64 (base + size) in
    if (end' <=? ptr) || (region_end <=? base) then false else (base <=? ptr) && (end' <=? region_end).

Definition proc_find_slot (s : procs) : option nat := find_slot (λ p, negb (is_used p)) (proc_table s).
Definition process_get (pid : Z) (s : procs) : option nat :=
  find_slot (λ p, (pr_pid p =? pid) && is_used p) (proc_table s).
Definition upd_proc (i : nat) (f : process → process) (s : procs) : procs := s <| proc_table ::= alter f i |>.

Section processes.
Context {W : Type} `{ProcEnv W}.

Definition process_init (s : procs) (w : W) : procs * W :=
  (mk_procs ((λ _, zero_process) <$> proc_table s) 1 false, pe_fd_table_init w).

Definition process_initialise_record (i : nat) (name : option string) (ppid : Z) (s : procs) (w : W) : procs :=
  upd_proc i (λ _, zero_process <| pr_pid := next_pid s |> <| pr_ppid := ppid |>
                     <| pr_state := PROC_STATE_RUNNING |> <| pr_start_time := pe_ticks w |>
                     <| pr_name := process_copy_name name |>)
    (s <| next_pid := u32 (next_pid s + 1) |>).

Definition process_create (name : option string) (entry ppid : Z) (s : procs) (w : W)
    : option (option nat * procs * W) :=
  if bool_decide (name = None) || (entry =? 0) then Some (None, s, w)
  else
    match proc_find_slot s with
    | None => Some (None, s, w)
    | Some i =>
        let s := process_initialise_record i name ppid s w in
        '(stack, w) ← pe_kmalloc PROC_STACK_SIZE w;
        if stack =? 0 then Some (None, upd_proc i (λ _, zero_process) s, w)
        else
          let s := upd_proc i (λ p, p <| pr_stack_base := stack |> <| pr_stack_size := PROC_STACK_SIZE |>
                                      <| pr_owns_stack := true |>) s in
          '(task, w) ← pe_task_create name entry 1 w;
          if task =? 0
          then w ← pe_kfree stack w; Some (None, upd_proc i (λ _, zero_process) s, w)
          else Some (Some i, upd_proc i (λ p, p <| pr_task := task |>) s, w)
    end.

(** The arguments that describe a loaded user image. *)
Record user_image := mk_image {
  im_entry : Z; im_text_base : Z; im_text_size : Z; im_stack_base : Z; im_stack_size : Z; im_slot : Z;
}.

Definition image_missing (name : option string) (im : user_image) : bool :=
  bool_decide (name = None) || (im_entry im =? 0) || (im_text_base im =? 0) || (im_text_size im =? 0)
  || (im_stack_base im =? 0) || (im_stack_size im =? 0) || (im_slot im =? 0).

Definition set_image (im : user_image) (p : process) : process :=
  p <| pr_entry := im_entry im |> <| pr_text_base := im_text_base im |> <| pr_text_size := im_text_size im |>
    <| pr_stack_base := im_stack_base im |> <| pr_stack_size := im_stack_size im |>
    <| pr_runtime_slot := im_slot im |> <| pr_owns_stack := false |>.

Definition process_bind_current_user_image (name : option string) (im : user_image) (ppid : Z)
    (s : procs) (w : W) : option nat * procs :=
  let current := pe_current w in
  if (current =? 0) || image_missing name im then (None, s)
  else if existsb (λ p, is_used p && (pr_task p =? current)) (proc_table s) then (None, s)
  else
    match proc_find_slot s with
    | None => (None, s)
    | Some i =>
        (Some i, upd_proc i (λ p, (set_image im p) <| pr_task := current |>)
                   (process_initialise_record i name ppid s w))
    end.

Definition process_bind_current_user (name : option string) (user_stack_base user_stack_size ppid : Z)
    (s : procs) (w : W) : option nat * procs :=
  process_bind_current_user_image name (mk_image 0 0 0 user_stack_base user_stack_size 0) ppid s w.

(** The address of [process_user_task_entry], not NULL. *)
Context (user_task_entry : Z).

Definition process_spawn_user_image (name : option string) (im : user_image) (ppid : Z)
    (s : procs) (w : W) : option (option nat * procs * W) :=
  if image_missing name im then Some (None, s, w)
  else
    match proc_find_slot s with
    | None => Some (None, s, w)
    | Some i =>
        let s := upd_proc i (set_image im) (process_initialise_record i name ppid s w) in
        '(task, w) ← pe_task_create name user_task_entry 25 w;
        if task =? 0 then Some (None, upd_proc i (λ _, zero_process) s, w)
        else Some (Some i, upd_proc i (λ p, p <| pr_task := task |>) s, w)
    end.

Definition process_kill (pid signal : Z) (s : procs) (w : W) : option (Z * procs * W) :=
  match process_get pid s with
  | None => Some (AEGIS_ENOENT, s, w)
  | Some i =>
      p ← proc_table s !! i;
      if (signal =? 9) || (signal =? 15) then
        let s := upd_proc i (λ p, p <| pr_state := PROC_STATE_ZOMBIE |> <| pr_exit_code := - signal |>) s in
        w ← pe_socket_close_all (pr_pid p) (pe_fd_close_all (pr_pid p) w);
        w ← (if pr_task p =? 0 then Some w else pe_task_destroy (pr_task p) w);
        Some (AEGIS_OK, s, w)
      else if signal =? 19 then Some (AEGIS_OK, upd_proc i (λ p, p <| pr_state := PROC_STATE_STOPPED |>) s, w)
      else if (signal =? 18) && bool_decide (pr_state p = PROC_STATE_STOPPED)
      then Some (AEGIS_OK, upd_proc i (λ p, p <| pr_state := PROC_STATE_RUNNING |>) s, w)
      else Some (AEGIS_OK, s, w)
  end.

(** The children of an exited process go to process 1. *)
Definition reparent (pid : Z) (p : process) : process :=
  if (pr_ppid p =? pid) && is_used p then p <| pr_ppid := 1 |> else p.

(** [None] is also the panic when control comes back to the dead process; without
    a current task the function returns. *)
Definition process_exit (code : Z) (s : procs) (w : W) : option (procs * W) :=
  let current := pe_current w in
  if current =? 0 then Some (s, w)
  else
    '(s, w) ←
      match find_slot (λ p, pr_task p =? current) (proc_table s) with
      | None => Some (s, w)
      | Some i =>
          p ← proc_table s !! i;
          let s := upd_proc i (λ p, p <| pr_state := PROC_STATE_ZOMBIE |> <| pr_exit_code := code |>) s in
          w ← pe_socket_close_all (pr_pid p) (pe_fd_close_all (pr_pid p) w);
          let w := pe_supervisor_mark_exit (pr_name p) (pr_pid p) code w in
          w ← pe_task_destroy current w;
          Some (s <| proc_table ::= fmap (reparent (pr_pid p)) |>, w)
      end;
    w ← pe_yield w;
    if pe_current w =? current then None else Some (s, w).

Definition process_current (s : procs) (w : W) : option nat :=
  let current := pe_current w in
  if current =? 0 then None
  else find_slot (λ p, is_used p && (pr_task p =? current)) (proc_table s).

Definition process_pid (i : option nat) (s : procs) : Z := from_option pr_pid 0 (i ≫= (proc_table s !!.)).
Definition process_parent_pid (i : option nat) (s : procs) : Z := from_option pr_ppid 0 (i ≫= (proc_table s !!.)).
Definition process_name (i : option nat) (s : procs) : option string := pr_name <$> (i ≫= (proc_table s !!.)).
Definition process_getpid (s : procs) (w : W) : Z := process_pid (process_current s w) s.
Definition process_getppid (s : procs) (w : W) : Z := process_parent_pid (process_current s w) s.
Definition process_current_name (s : procs) (w : W) : option string := process_name (process_current s w) s.

(** The second component is the exit code stored through the pointer. *)
Definition process_wait (pid : Z) (s : procs) (w : W) : option (Z * option Z * procs * W) :=
  let waiter_pid := process_getpid s w in
  match process_get pid s with
  | None => Some (AEGIS_ENOENT, None, s, w)
  | Some i =>
      child ← proc_table s !! i;
      if negb (waiter_pid =? 0) && negb (pr_ppid child =? waiter_pid) then Some (AEGIS_EPERM, None, s, w)
      else if negb (bool_decide (pr_state child = PROC_STATE_ZOMBIE)) then Some (AEGIS_EBUSY, None, s, w)
      else
        let code := pr_exit_code child in
        w ← (if pr_task child =? 0 then Some w else pe_task_destroy (pr_task child) w);
        w ← (if pr_owns_stack child && negb (pr_stack_base child =? 0)
             then pe_kfree (pr_stack_base child) w else Some w);
        let '(release_rc, w) :=
          if negb (pr_runtime_slot child =? 0) then pe_release_slot (pr_runtime_slot child) w else (AEGIS_OK, w) in
        if negb (release_rc =? AEGIS_OK) then Some (release_rc, None, s, w)
        else
          '(userland_rc, w) ← pe_userland_mark_exited (process_copy_name (Some (pr_name child))) pid code w;
          if negb (userland_rc =? AEGIS_OK) && negb (userland_rc =? AEGIS_ENOENT)
          then Some (userland_rc, None, s, w)
          else Some (AEGIS_OK, Some code, upd_proc i (λ _, zero_process) s, w)
  end.

(** The result is the status, the child and its exit code. *)
Definition process_wait_any (parent_pid : Z) (s : procs) (w : W) : option (Z * option (Z * Z) * procs * W) :=
  let parent_pid := if parent_pid =? 0 then process_getpid s w else parent_pid in
  match find_slot (λ p, is_used p && (pr_ppid p =? parent_pid) && bool_decide (pr_state p = PROC_STATE_ZOMBIE))
          (proc_table s) with
  | Some i =>
      child ← proc_table s !! i;
      '(rc, code, s, w) ← process_wait (pr_pid child) s w;
      if negb (rc =? AEGIS_OK) then Some (rc, None, s, w)
      else Some (AEGIS_OK, Some (pr_pid child, default 0 code), s, w)
  | None =>
      let found_child := existsb (λ p, is_used p && (pr_ppid p =? parent_pid)) (proc_table s) in
      Some (if found_child then AEGIS_EAGAIN else AEGIS_ECHILD, None, s, w)
  end.

Definition process_child_count (parent_pid : Z) (s : procs) : Z :=
  Z.of_nat (length (filter (λ p, is_used p && (pr_ppid p =? parent_pid) = true) (proc_table s))).

(** The loop over the slots [lo, lo + n). *)
Fixpoint terminate_from (keep_pid signal : Z) (lo n : nat) (first_error : Z) (s : procs) (w : W)
    : option (Z * procs * W) :=
  match n with
  | O => Some (first_error, s, w)
  | S n =>
      p ← proc_table s !! lo;
      if negb (is_used p) || (pr_pid p =? keep_pid) then terminate_from keep_pid signal (S lo) n first_error s w
      else
        '(rc, s, w) ← process_kill (pr_pid p) signal s w;
        terminate_from keep_pid signal (S lo) n
          (if negb (rc =? AEGIS_OK) && (first_error =? AEGIS_OK) then rc else first_error) s w
  end.

Definition process_terminate_all_except (keep_pid signal : Z) (s : procs) (w : W) : option (Z * procs * W) :=
  terminate_from keep_pid signal 0 MAX_PROCESSES AEGIS_OK s w.

Definition process_current_user_read_range_ok (ptr len : Z) (s : procs) (w : W) : bool :=
  match process_current s w ≫= (proc_table s !!.) with
  | None => false
  | Some p => pe_slot_read_ok (pr_runtime_slot p) ptr len w || range_inside ptr len (pr_stack_base p) (pr_stack_size p)
  end.

Definition process_current_user_write_range_ok (ptr len : Z) (s : procs) (w : W) : bool :=
  match process_current s w ≫= (proc_table s !!.) with
  | None => false
  | Some p => pe_slot_write_ok (pr_runtime_slot p) ptr len w || range_inside ptr len (pr_stack_base p) (pr_stack_size p)
  end.

End processes.

(** ** Capabilities and statistics *)

Definition caps_of (p : process) : list Z := take (Z.to_nat (pr_cap_count p)) (pr_cap_set p).

Definition process_grant_cap (pid cap : Z) (s : procs) : Z * procs :=
  match process_get pid s with
  | None => (AEGIS_ENOENT, s)
  | Some i =>
      match proc_table s !! i with
      | None => (AEGIS_ENOENT, s)
      | Some p =>
          if existsb (Z.eqb cap) (caps_of p) then (AEGIS_OK, s)
          else if 16 <=? pr_cap_count p then (AEGIS_ENOMEM, s)
          else
            (AEGIS_OK, upd_proc i (λ p, p <| pr_cap_set ::= <[Z.to_nat (pr_cap_count p) := cap]> |>
                                          <| pr_cap_count := pr_cap_count p + 1 |>) s)
      end
  end.

Definition process_revoke_cap (pid cap : Z) (s : procs) : Z * procs :=
  match process_get pid s with
  | None => (AEGIS_ENOENT, s)
  | Some i =>
      match proc_table s !! i with
      | None => (AEGIS_ENOENT, s)
      | Some p =>
          match find_slot (Z.eqb cap) (caps_of p) with
          | None => (AEGIS_ENOENT, s)
          | Some k =>
              let last := default 0 (pr_cap_set p !! Z.to_nat (pr_cap_count p - 1)) in
              (AEGIS_OK, upd_proc i (λ p, p <| pr_cap_set ::= <[k := last]> |>
                                            <| pr_cap_count := pr_cap_count p - 1 |>) s)
          end
      end
  end.

Definition process_has_cap (pid cap : Z) (s : procs) : bool :=
  match process_get pid s ≫= (proc_table s !!.) with
  | None => false
  | Some p => existsb (Z.eqb cap) (caps_of p)
  end.

Record process_table_stats_t := mk_stats {
  st_total_slots : Z; st_used_slots : Z; st_running : Z; st_sleeping : Z; st_zombie : Z; st_stopped : Z;
  st_next_pid : Z; st_pid1_present : bool; st_compact_ready : bool;
}.

Definition count_state (st : proc_state) (s : procs) : Z :=
  Z.of_nat (length (filter (λ p, pr_state p = st) (proc_table s))).

Definition process_table_stats (s : procs) : process_table_stats_t :=
  mk_stats (Z.of_nat MAX_PROCESSES) (Z.of_nat (length (filter (λ p, is_used p = true) (proc_table s))))
    (count_state PROC_STATE_RUNNING s) (count_state PROC_STATE_SLEEPING s) (count_state PROC_STATE_ZOMBIE s)
    (count_state PROC_STATE_STOPPED s) (next_pid s)
    (existsb (λ p, is_used p && (pr_pid p =? 1)) (proc_table s)) (cleanup_ready s).

(** The scan with the array [seen]. *)
Fixpoint pids_clean (seen : list Z) (l : list process) : bool :=
  match l with
  | [] => true
  | p :: l =>
      if negb (is_used p) then pids_clean seen l
      else if (pr_pid p =? 0) || existsb (Z.eqb (pr_pid p)) seen then false
      else pids_clean (seen ++ [pr_pid p]) l
  end.
Definition process_table_pid_order_is_clean (s : procs) : bool := pids_clean [] (proc_table s).

Definition process_table_cleanup_prepare (s : procs) : Z * procs :=
  let s := s <| proc_table ::= fmap (λ p, if is_used p then p else zero_process) |> in
  if negb (process_table_pid_order_is_clean s) then (AEGIS_EINVAL, s)
  else (AEGIS_OK, s <| cleanup_ready := true |>).

Definition process_table_cleanup_selftest (s : procs) : Z :=
  if negb (cleanup_ready s) || (next_pid s =? 0) || negb (process_table_pid_order_is_clean s) then AEGIS_EINVAL
  else
    let st := process_table_stats s in
    if st_total_slots st <? st_used_slots st then AEGIS_EINVAL
    else if negb (st_running st + st_sleeping st + st_zombie st + st_stopped st =? st_used_slots st)
    then AEGIS_EINVAL else AEGIS_OK.

(** ** Steps *)

(** The operations of the module as labelled steps of the table and the rest of
    the kernel; [OEnv] is any other activity of the kernel. *)
Inductive pop :=
| OCreate | OBind | OSpawn | OKill (pid : Z) | OExit (task : Z) | OWait (pid : Z)
| OWaitAny | OTerminate | OCaps | OPrepare | OEnv.

Section steps.
Context {W : Type} `{ProcEnv W} (user_task_entry : Z).

Inductive pstep : pop → procs * W → procs * W → Prop :=
| st_create name entry ppid s w r s' w' :
    process_create name entry ppid s w = Some (r, s', w') → pstep OCreate (s, w) (s', w')
| st_bind name im ppid s w :
    pstep OBind (s, w) ((process_bind_current_user_image name im ppid s w).2, w)
| st_spawn name im ppid s w r s' w' :
    process_spawn_user_image user_task_entry name im ppid s w = Some (r, s', w') → pstep OSpawn (s, w) (s', w')
| st_kill pid signal s w rc s' w' :
    process_kill pid signal s w = Some (rc, s', w') → pstep (OKill pid) (s, w) (s', w')
| st_exit code s w s' w' :
    process_exit code s w = Some (s', w') → pstep (OExit (pe_current w)) (s, w) (s', w')
| st_wait pid s w rc code s' w' :
    process_wait pid s w = Some (rc, code, s', w') → pstep (OWait pid) (s, w) (s', w')
| st_wait_any ppid s w rc r s' w' :
    process_wait_any ppid s w = Some (rc, r, s', w') → pstep OWaitAny (s, w) (s', w')
| st_terminate keep signal s w rc s' w' :
    process_terminate_all_except keep signal s w = Some (rc, s', w') → pstep OTerminate (s, w) (s', w')
| st_grant pid cap s w : pstep OCaps (s, w) ((process_grant_cap pid cap s).2, w)
| st_revoke pid cap s w : pstep OCaps (s, w) ((process_revoke_cap pid cap s).2, w)
| st_prepare s w : pstep OPrepare (s, w) ((process_table_cleanup_prepare s).2, w)
| st_env s w w' : pstep OEnv (s, w) (s, w').

(** ** The invariant: process numbers *)

Record procs_inv (s : procs) : Prop := {
  pi_len : length (proc_table s) = MAX_PROCESSES;
  pi_pid i p : proc_table s !! i = Some p → is_used p = true → 0 < pr_pid p < next_pid s;
  pi_uniq i j p q :
    proc_table s !! i = Some p → proc_table s !! j = Some q → is_used p = true → is_used q = true →
    pr_pid p = pr_pid q → i = j;
  pi_free i p : proc_table s !! i = Some p → is_used p = false → pr_task p = 0;
}.

(** Every used entry of [s'] is a used entry of [s] with the same number, and no
    entry was released with its task. *)
Definition no_new (s s' : procs) : Prop :=
  next_pid s' = next_pid s ∧ length (proc_table s') = length (proc_table s) ∧
  ∀ i p', proc_table s' !! i = Some p' →
    if is_used p' then ∃ p, proc_table s !! i = Some p ∧ is_used p = true ∧ pr_pid p' = pr_pid p
    else pr_task p' = 0 ∨ ∃ p, proc_table s !! i = Some p ∧ is_used p = false ∧ pr_task p' = pr_task p.

Lemma no_new_refl s : no_new s s.
Proof. split_and!; [done..|]. intros i p' ?. destruct (is_used p') eqn:?; eauto. Qed.

Lemma no_new_trans s s' s'' : no_new s s' → no_new s' s'' → no_new s s''.
Proof.
  intros (Hn & Hl & He) (Hn' & Hl' & He'). split_and!; [congruence..|]. intros i p'' Hp.
  specialize (He' _ _ Hp). destruct (is_used p'').
  - destruct He' as (p' & Hp' & Hu' & ->). specialize (He _ _ Hp'). by rewrite Hu' in He.
  - destruct He' as [|(p' & Hp' & Hu' & ->)]; [by left|]. specialize (He _ _ Hp'). by rewrite Hu' in He.
Qed.

Lemma no_new_inv s s' : no_new s s' → procs_inv s → procs_inv s'.
Proof.
  intros (Hn & Hl & He) [Hlen Hpid Hu Hfree]. split.
  - congruence.
  - intros i p' Hp Hus. specialize (He _ _ Hp). rewrite Hus in He. destruct He as (p & Hp' & Hus' & ->).
    rewrite Hn. eauto.
  - intros i j p q Hp Hq Hup Huq Heq. pose proof (He _ _ Hp) as Hep. pose proof (He _ _ Hq) as Heq'.
    rewrite Hup in Hep. rewrite Huq in Heq'. destruct Hep as (p0 & ? & ? & Ep), Heq' as (q0 & ? & ? & Eq).
    eapply Hu; [done..|congruence].
  - intros i p Hp Hus. specialize (He _ _ Hp). rewrite Hus in He. destruct He as [|(p0 & ? & ? & ->)]; eauto.
Qed.

Lemma no_new_upd i f s :
  (∀ p, proc_table s !! i = Some p →
     if is_used (f p) then is_used p = true ∧ pr_pid (f p) = pr_pid p
     else pr_task (f p) = 0 ∨ is_used p = false ∧ pr_task (f p) = pr_task p) →
  no_new s (upd_proc i f s).
Proof.
  intros Hf. split; [done|]. split; [cbn; by rewrite length_alter|]. intros j p'. cbn.
  destruct (decide (j = i)) as [->|].
  - rewrite list_lookup_alter_eq. intros (p & Hp & ->)%fmap_Some. specialize (Hf p Hp).
    destruct (is_used (f p)); [destruct Hf as [? ?]|destruct Hf as [|[? ?]]]; eauto.
  - rewrite list_lookup_alter_ne by done. intros Hp. destruct (is_used p') eqn:?; eauto.
Qed.

Lemma no_new_zero i s : no_new s (upd_proc i (λ _, zero_process) s).
Proof. apply no_new_upd. intros p _. by left. Qed.

(** A change of fields other than the number, the task and the state. *)
Lemma no_new_field i f s :
  (∀ p, proc_table s !! i = Some p → is_used (f p) = is_used p ∧ pr_pid (f p) = pr_pid p) →
  (∀ p, proc_table s !! i = Some p → is_used p = true ∨ pr_task (f p) = pr_task p) →
  no_new s (upd_proc i f s).
Proof.
  intros Hf Ht. apply no_new_upd. intros p Hp. destruct (Hf p Hp) as [Eu Ep]. rewrite Eu.
  destruct (is_used p) eqn:Hu; [done|]. destruct (Ht p Hp); [congruence|auto].
Qed.

Lemma process_get_Some pid s i :
  process_get pid s = Some i → ∃ p, proc_table s !! i = Some p ∧ pr_pid p = pid ∧ is_used p = true.
Proof. intros (p & Hp & [? ?]%andb_prop & _)%find_slot_Some. exists p. split_and!; [done|lia|done]. Qed.

(** A new record in a free slot. *)
Lemma init_record_inv i name ppid s w :
  procs_inv s → 0 < next_pid s < 2 ^ 32 - 1 → proc_find_slot s = Some i →
  procs_inv (process_initialise_record i name ppid s w).
Proof.
  intros [Hlen Hpid Hu Hfr] Hnp Hi. apply find_slot_Some in Hi as (e & He & Hfree & _).
  assert (u32 (next_pid s + 1) = next_pid s + 1) as Hn by (apply u32_small; lia).
  unfold process_initialise_record. set (f := λ _ : process, zero_process <| pr_pid := _ |> <| pr_ppid := _ |>
    <| pr_state := _ |> <| pr_start_time := _ |> <| pr_name := _ |>).
  assert (∀ j p, proc_table (upd_proc i f (s <| next_pid := u32 (next_pid s + 1) |>)) !! j = Some p →
            (j = i ∧ pr_pid p = next_pid s ∧ is_used p = true) ∨ (j ≠ i ∧ proc_table s !! j = Some p)) as Hcase.
  { cbn. intros j p. destruct (decide (j = i)) as [->|].
    - rewrite list_lookup_alter_eq. intros (? & ? & ->)%fmap_Some. by left.
    - rewrite list_lookup_alter_ne by done. by right. }
  split.
  - cbn. by rewrite length_alter.
  - intros j p Hp Hus. replace (next_pid (upd_proc i f _)) with (next_pid s + 1) by done.
    destruct (Hcase _ _ Hp) as [(_ & -> & _)|[_ Hp']]; [lia|]. pose proof (Hpid _ _ Hp' Hus). lia.
  - intros j k p q Hp Hq Hup Huq Heq.
    destruct (Hcase _ _ Hp) as [(-> & Ep & _)|[Hj Hp']], (Hcase _ _ Hq) as [(-> & Eq & _)|[Hk Hq']];
      [done| | |by eapply Hu].
    + pose proof (Hpid _ _ Hq' Huq). lia.
    + pose proof (Hpid _ _ Hp' Hup). lia.
  - intros j p Hp Hus. destruct (Hcase _ _ Hp) as [(_ & _ & ?)|[_ Hp']]; [congruence|eauto].
Qed.

(** The fresh record is used, so its fields can be filled in. *)
Lemma init_record_field i name ppid s (w : W) f :
  (∀ p, is_used (f p) = is_used p ∧ pr_pid (f p) = pr_pid p) →
  no_new (process_initialise_record i name ppid s w) (upd_proc i f (process_initialise_record i name ppid s w)).
Proof.
  intros Hf. apply no_new_field; [intros; apply Hf|]. intros p Hp. left. revert Hp.
  unfold process_initialise_record. cbn. rewrite list_lookup_alter_eq. by intros (? & _ & ->)%fmap_Some.
Qed.

(** Each operation either creates one record or creates none. *)
Definition creates (s s' : procs) : Prop :=
  no_new s s' ∨ ∃ i name ppid w, proc_find_slot s = Some i ∧
                  no_new (process_initialise_record (W := W) i name ppid s w) s'.

Lemma process_create_creates name entry ppid s w r s' w' :
  process_create name entry ppid s w = Some (r, s', w') → creates s s'.
Proof.
  unfold process_create. destruct (_ || _); [intros [= <- <- <-]; left; apply no_new_refl|].
  destruct (proc_find_slot s) as [i|] eqn:Hi; [|intros [= <- <- <-]; left; apply no_new_refl].
  destruct (pe_kmalloc _ w) as [[stack w1]|]; cbn [mbind option_bind]; [|done].
  intros Hr. right. exists i, name, ppid, w. split; [done|]. revert Hr.
  destruct (stack =? 0); [intros [= <- <- <-]; apply no_new_zero|].
  destruct (pe_task_create _ _ _ w1) as [[task w2]|]; cbn [mbind option_bind]; [|done].
  set (s1 := upd_proc i _ (process_initialise_record i name ppid s w)).
  assert (no_new (process_initialise_record i name ppid s w) s1) as Hs1 by by apply init_record_field.
  destruct (task =? 0).
  - destruct (pe_kfree stack w2); cbn [mbind option_bind]; [|done]. intros [= <- <- <-].
    eapply no_new_trans; [exact Hs1|]. apply no_new_zero.
  - intros [= <- <- <-]. eapply no_new_trans; [exact Hs1|]. apply no_new_field; [done|].
    intros p Hp. left. revert Hp. subst s1. unfold process_initialise_record. cbn.
    rewrite !list_lookup_alter_eq. by intros (? & (? & _ & ->)%fmap_Some & ->)%fmap_Some.
Qed.

Lemma process_spawn_creates name im ppid s w r s' w' :
  process_spawn_user_image user_task_entry name im ppid s w = Some (r, s', w') → creates s s'.
Proof.
  unfold process_spawn_user_image. destruct (image_missing _ _); [intros [= <- <- <-]; left; apply no_new_refl|].
  destruct (proc_find_slot s) as [i|] eqn:Hi; [|intros [= <- <- <-]; left; apply no_new_refl].
  destruct (pe_task_create _ _ _ w) as [[task w2]|]; cbn [mbind option_bind]; [|done].
  intros Hr. right. exists i, name, ppid, w. split; [done|]. revert Hr.
  set (s1 := upd_proc i _ (process_initialise_record i name ppid s w)).
  assert (no_new (process_initialise_record i name ppid s w) s1) as Hs1 by by apply init_record_field.
  destruct (task =? 0); intros [= <- <- <-]; (eapply no_new_trans; [exact Hs1|]); [apply no_new_zero|].
  apply no_new_field; [done|]. intros p Hp. left. revert Hp. subst s1. unfold process_initialise_record. cbn.
  rewrite !list_lookup_alter_eq. by intros (? & (? & _ & ->)%fmap_Some & ->)%fmap_Some.
Qed.

Lemma process_bind_creates name im ppid s w :
  creates s (process_bind_current_user_image name im ppid s w).2.
Proof.
  unfold process_bind_current_user_image. destruct (_ || _); [left; apply no_new_refl|].
  destruct (existsb _ _); [left; apply no_new_refl|].
  destruct (proc_find_slot s) as [i|] eqn:Hi; [|left; apply no_new_refl].
  right. exists i, name, ppid, w. split; [done|]. by apply init_record_field.
Qed.

Lemma process_kill_no_new pid signal s w rc s' w' :
  process_kill pid signal s w = Some (rc, s', w') → no_new s s'.
Proof.
  unfold process_kill. destruct (process_get pid s) as [i|] eqn:Hi; [|intros [= <- <- <-]; apply no_new_refl].
  destruct (process_get_Some _ _ _ Hi) as (p & Hp & _ & Hu). rewrite Hp. cbn [mbind option_bind].
  assert (∀ f, is_used (f p) = true → pr_pid (f p) = pr_pid p → no_new s (upd_proc i f s)) as Hupd.
  { intros f Hfu Hfp. apply no_new_upd. intros q Hq. simplify_eq. by rewrite Hfu. }
  destruct (_ || _).
  { destruct (pe_socket_close_all _ _); cbn [mbind option_bind]; [|done].
    destruct (if pr_task p =? 0 then _ else _); cbn [mbind option_bind]; [|done]. intros [= <- <- <-]. by apply Hupd. }
  destruct (signal =? 19); [intros [= <- <- <-]; by apply Hupd|].
  destruct (_ && _); [intros [= <- <- <-]; by apply Hupd|]. intros [= <- <- <-]. apply no_new_refl.
Qed.

Lemma no_new_reparent pid s : no_new s (s <| proc_table ::= fmap (reparent pid) |>).
Proof.
  split; [done|]. split; [cbn; by rewrite length_fmap|]. cbn. intros i p'.
  rewrite list_lookup_fmap. intros (p & Hp & ->)%fmap_Some.
  assert (is_used (reparent pid p) = is_used p ∧ pr_pid (reparent pid p) = pr_pid p ∧
          pr_task (reparent pid p) = pr_task p) as (-> & -> & ->) by (unfold reparent; by destruct (_ && _)).
  destruct (is_used p) eqn:?; eauto.
Qed.

Lemma process_exit_no_new code s w s' w' :
  procs_inv s → process_exit code s w = Some (s', w') → no_new s s'.
Proof.
  intros Hinv. unfold process_exit. destruct (Z.eqb_spec (pe_current w) 0) as [|Hcur]; [intros [= <- <-]; apply no_new_refl|].
  destruct (find_slot _ _) as [i|] eqn:Hi; cbn [mbind option_bind].
  - apply find_slot_Some in Hi as (p & Hp & Ht & _). apply Z.eqb_eq in Ht. rewrite Hp. cbn [mbind option_bind].
    destruct (pe_socket_close_all _ _) as [w0|]; cbn [mbind option_bind]; [|done].
    destruct (pe_task_destroy _ _) as [w1|]; cbn [mbind option_bind]; [|done].
    destruct (pe_yield w1) as [w2|]; cbn [mbind option_bind]; [|done].
    destruct (_ =? _); [done|]. intros [= <- <-].
    eapply (no_new_trans _ (upd_proc i (λ p, p <| pr_state := PROC_STATE_ZOMBIE |> <| pr_exit_code := code |>) s));
      [|exact (no_new_reparent (pr_pid p) _)].
    apply no_new_upd. intros q Hq. assert (q = p) as -> by congruence. split; [|done]. destruct (is_used p) eqn:Hu; [done|].
    pose proof (pi_free _ Hinv _ _ Hp Hu). congruence.
  - destruct (pe_yield w) as [w2|]; cbn [mbind option_bind]; [|done].
    destruct (_ =? _); [done|]. intros [= <- <-]. apply no_new_refl.
Qed.
Lemma process_wait_no_new pid s w rc code s' w' :
  process_wait pid s w = Some (rc, code, s', w') → no_new s s'.
Proof.
  unfold process_wait. destruct (process_get pid s) as [i|] eqn:Hi; [|intros [= <- <- <- <-]; apply no_new_refl].
  destruct (proc_table s !! i) as [child|]; cbn [mbind option_bind]; [|done].
  destruct (_ && _); [intros [= <- <- <- <-]; apply no_new_refl|].
  destruct (negb _); [intros [= <- <- <- <-]; apply no_new_refl|].
  destruct (if pr_task child =? 0 then _ else _); cbn [mbind option_bind]; [|done].
  destruct (if _ && _ then _ else _); cbn [mbind option_bind]; [|done].
  destruct (if negb (pr_runtime_slot child =? 0) then _ else _) as [release_rc w3].
  destruct (negb (release_rc =? AEGIS_OK)); [intros [= <- <- <- <-]; apply no_new_refl|].
  destruct (pe_userland_mark_exited _ _ _ _) as [[userland_rc w4]|]; cbn [mbind option_bind]; [|done].
  destruct (_ && _); intros [= <- <- <- <-]; [apply no_new_refl|apply no_new_zero].
Qed.

Lemma process_wait_any_no_new ppid s w rc r s' w' :
  process_wait_any ppid s w = Some (rc, r, s', w') → no_new s s'.
Proof.
  unfold process_wait_any. destruct (find_slot _ _) as [i|]; [|intros [= <- <- <- <-]; apply no_new_refl].
  destruct (proc_table s !! i) as [child|]; cbn [mbind option_bind]; [|done].
  destruct (process_wait (pr_pid child) s w) as [[[[rc1 code] s1] w1]|] eqn:E; cbn [mbind option_bind]; [|done].
  apply process_wait_no_new in E. destruct (negb _); by intros [= <- <- <- <-].
Qed.

Lemma terminate_from_no_new keep signal lo n err s w rc s' w' :
  terminate_from keep signal lo n err s w = Some (rc, s', w') → no_new s s'.
Proof.
  revert lo err s w. induction n as [|n IH]; intros lo err s w; cbn [terminate_from];
    [intros [= <- <- <-]; apply no_new_refl|].
  destruct (proc_table s !! lo) as [p|]; cbn [mbind option_bind]; [|done].
  destruct (_ || _); [apply IH|].
  destruct (process_kill _ _ _ _) as [[[rc1 s1] w1]|] eqn:E; cbn [mbind option_bind]; [|done].
  intros Hr. eapply no_new_trans; [by eapply process_kill_no_new|by eapply IH].
Qed.

Lemma process_terminate_no_new keep signal s w rc s' w' :
  process_terminate_all_except keep signal s w = Some (rc, s', w') → no_new s s'.
Proof. unfold process_terminate_all_except. apply terminate_from_no_new. Qed.

Lemma process_caps_no_new pid cap s :
  no_new s (process_grant_cap pid cap s).2 ∧ no_new s (process_revoke_cap pid cap s).2.
Proof.
  split.
  - unfold process_grant_cap. destruct (process_get pid s) as [i|]; [|apply no_new_refl].
    destruct (proc_table s !! i); [|apply no_new_refl]. destruct (existsb _ _); [apply no_new_refl|].
    destruct (_ <=? _); [apply no_new_refl|]. cbn [snd]. apply no_new_field; [done|]. intros. by right.
  - unfold process_revoke_cap. destruct (process_get pid s) as [i|]; [|apply no_new_refl].
    destruct (proc_table s !! i); [|apply no_new_refl]. destruct (find_slot _ _); [|apply no_new_refl].
    cbn [snd]. apply no_new_field; [done|]. intros. by right.
Qed.

Lemma process_prepare_no_new s : no_new s (process_table_cleanup_prepare s).2.
Proof.
  unfold process_table_cleanup_prepare. set (s1 := s <| proc_table ::= _ |>).
  assert (no_new s s1) as Hs1.
  { split; [done|]. split; [cbn; by rewrite length_fmap|]. cbn. intros i p'. rewrite list_lookup_fmap.
    intros (p & Hp & ->)%fmap_Some. destruct (is_used p) eqn:Hu; [rewrite Hu; eauto|by left]. }
  destruct (negb _); [exact Hs1|]. eapply no_new_trans; [exact Hs1|].
  split; [done|]. split; [done|]. intros i p' Hp. destruct (is_used p') eqn:?; eauto.
Qed.

(** One step: the invariant is kept, and [next_pid] grows by at most one. *)
Lemma pstep_inv o x y :
  pstep o x y → procs_inv x.1 → 0 < next_pid x.1 < 2 ^ 32 - 1 →
  procs_inv y.1 ∧ next_pid x.1 ≤ next_pid y.1 ≤ next_pid x.1 + 1.
Proof.
  assert (∀ s s', creates s s' → procs_inv s → 0 < next_pid s < 2 ^ 32 - 1 →
            procs_inv s' ∧ next_pid s ≤ next_pid s' ≤ next_pid s + 1) as Hc.
  { intros s s' [Hn|(i & name & ppid & w & Hi & Hn)] Hinv Hnp.
    - split; [by eapply no_new_inv|]. destruct Hn as [-> _]. lia.
    - split; [eapply no_new_inv; [done|by apply init_record_inv]|]. destruct Hn as [-> _]. cbn.
      rewrite u32_small by lia. lia. }
  destruct 1; cbn [fst]; intros Hinv Hnp; eapply Hc; eauto.
  - by eapply process_create_creates.
  - apply process_bind_creates.
  - by eapply process_spawn_creates.
  - left. by eapply process_kill_no_new.
  - left. by eapply process_exit_no_new.
  - left. by eapply process_wait_no_new.
  - left. by eapply process_wait_any_no_new.
  - left. by eapply process_terminate_no_new.
  - left. apply process_caps_no_new.
  - left. apply process_caps_no_new.
  - left. apply process_prepare_no_new.
  - left. apply no_new_refl.
Qed.

Lemma process_init_inv s w :
  length (proc_table s) = MAX_PROCESSES → procs_inv (process_init s w).1.
Proof.
  intros Hlen. split; cbn.
  - by rewrite length_fmap.
  - intros i p (? & -> & _)%list_lookup_fmap_Some. done.
  - intros i j p q (? & -> & _)%list_lookup_fmap_Some. done.
  - intros i p (? & -> & _)%list_lookup_fmap_Some. done.
Qed.

(** Traces: [n] steps with any labels. *)
Lemma ptrace_inv n x y :
  nsteps (λ a b, ∃ o, pstep o a b) n x y → procs_inv x.1 → 0 < next_pid x.1 →
  next_pid x.1 + Z.of_nat n < 2 ^ 32 → procs_inv y.1 ∧ 0 < next_pid y.1 ≤ next_pid x.1 + Z.of_nat n.
Proof.
  induction 1 as [x|n x y z [o Hs] _ IH]; intros Hinv Hpos Hn; [split; [done|lia]|].
  destruct (pstep_inv _ _ _ Hs Hinv ltac:(lia)) as [Hinv' Hle].
  destruct (IH Hinv' ltac:(lia) ltac:(lia)). split; [done|lia].
Qed.

(** The self-test's scan accepts the tables that satisfy the invariant. *)
Lemma pids_clean_spec seen l :
  (∀ p, p ∈ l → is_used p = true → 0 < pr_pid p ∧ pr_pid p ∉ seen) →
  NoDup (pr_pid <$> filter (λ p, is_used p = true) l) → pids_clean seen l = true.
Proof.
  revert seen. induction l as [|p l IH]; intros seen Hl Hnd; [done|]. cbn [pids_clean].
  destruct (is_used p) eqn:Hu; cbn [negb].
  - rewrite filter_cons_True in Hnd by done. cbn in Hnd. apply NoDup_cons in Hnd as [Hnot Hnd].
    destruct (Hl p) as [Hpos Hseen]; [left|done|].
    rewrite (proj2 (Z.eqb_neq _ _)) by lia. cbn [orb].
    destruct (existsb _ _) eqn:Hex.
    { apply existsb_exists in Hex as (x & Hx & Ex%Z.eqb_eq). apply list_elem_of_In in Hx. by rewrite <-Ex in Hx. }
    apply IH; [|done]. intros q Hq Hqu. destruct (Hl q) as [? ?]; [by right|done|]. split; [done|].
    rewrite elem_of_app, list_elem_of_singleton. intros [|Eq]; [done|]. apply Hnot. rewrite <-Eq.
    apply list_elem_of_fmap. exists q. split; [done|]. by apply list_elem_of_filter.
  - rewrite filter_cons_False in Hnd by congruence. apply IH; [|done]. intros q Hq. apply Hl. by right.
Qed.

Lemma used_pids_NoDup s : procs_inv s → NoDup (pr_pid <$> filter (λ p, is_used p = true) (proc_table s)).
Proof.
  intros Hinv. pose proof (pi_uniq _ Hinv) as Hu. clear Hinv. revert Hu.
  induction (proc_table s) as [|p l IH]; intros Hu; [by apply NoDup_nil|].
  assert (NoDup (pr_pid <$> filter (λ p, is_used p = true) l)) as Hl.
  { apply IH. intros i j a b Ha Hb Hua Hub Hab. pose proof (Hu (S i) (S j) a b Ha Hb Hua Hub Hab). lia. }
  destruct (is_used p) eqn:Hp; [|by rewrite filter_cons_False by congruence].
  rewrite filter_cons_True by done. cbn. apply NoDup_cons. split; [|done].
  intros (q & Eq & Hq)%list_elem_of_fmap. apply list_elem_of_filter in Hq as [Hqu Hq].
  apply list_elem_of_lookup_1 in Hq as [j Hj]. by pose proof (Hu 0%nat (S j) p q eq_refl Hj Hp Hqu Eq).
Qed.

(** From [process_init] on, along every sequence of fewer than 2^32 - 1
    operations of the module interleaved with any activity of the rest of the
    kernel, the processes in the table have pairwise different positive numbers,
    and the scan of the table's self-test accepts it. *)
Theorem process_pids_unique n s0 w0 s w :
  length (proc_table s0) = MAX_PROCESSES → Z.of_nat n < 2 ^ 32 - 1 →
  nsteps (λ a b, ∃ o, pstep o a b) n (process_init s0 w0) (s, w) →
  (∀ i j p q, proc_table s !! i = Some p → proc_table s !! j = Some q →
     is_used p = true → is_used q = true → pr_pid p = pr_pid q → i = j) ∧
  (∀ i p, proc_table s !! i = Some p → is_used p = true → 0 < pr_pid p) ∧
  process_table_pid_order_is_clean s = true.
Proof.
  intros Hlen Hn Htr. destruct (ptrace_inv _ _ _ Htr) as [Hinv _]; [by apply process_init_inv|done|cbn; lia|].
  cbn [fst] in Hinv. split; [apply Hinv|]. split; [intros i p Hp Hu; by apply (pi_pid _ Hinv i p Hp Hu)|].
  apply pids_clean_spec; [|by apply used_pids_NoDup]. intros p Hp Hu.
  apply list_elem_of_lookup_1 in Hp as [i Hi]. split; [by apply (pi_pid _ Hinv i p Hi Hu)|]. apply not_elem_of_nil.
Qed.

(** ** Exit and wait *)

(** The fields of a dead process that its parent needs. *)
Definition same_corpse (p p' : process) : Prop :=
  pr_pid p' = pr_pid p ∧ pr_state p' = pr_state p ∧ pr_exit_code p' = pr_exit_code p ∧ pr_task p' = pr_task p ∧
  pr_runtime_slot p' = pr_runtime_slot p ∧ pr_owns_stack p' = pr_owns_stack p ∧ pr_name p' = pr_name p ∧
  (pr_ppid p' = pr_ppid p ∨ pr_ppid p' = 1).

(** Steps that neither signal nor reap the process [pid] with task [t]. *)
Definition leaves_alone (pid t : Z) (o : pop) : Prop :=
  match o with
  | OKill q | OWait q => q ≠ pid
  | OExit u => u ≠ t
  | OWaitAny | OTerminate => False
  | _ => True
  end.

Definition corpse_kept (i : nat) (p : process) (s s' : procs) : Prop :=
  proc_table s !! i = Some p → ∃ p', proc_table s' !! i = Some p' ∧ same_corpse p p'.

Lemma same_corpse_refl p : same_corpse p p.
Proof. split_and!; auto. Qed.

Lemma corpse_upd_other i j f p s : i ≠ j → corpse_kept i p s (upd_proc j f s).
Proof.
  intros Hne Hp. exists p. split; [|apply same_corpse_refl]. cbn. by rewrite list_lookup_alter_ne.
Qed.

Lemma corpse_refl i p s : corpse_kept i p s s.
Proof. intros Hp. exists p. split; [done|apply same_corpse_refl]. Qed.

Lemma free_slot_ne i j p s : proc_table s !! i = Some p → is_used p = true → proc_find_slot s = Some j → i ≠ j.
Proof. intros Hp Hu (q & Hq & Hf & _)%find_slot_Some ->. simplify_eq. by rewrite Hu in Hf. Qed.

(** Updates of the slot [j ≠ i], as creating operations make them. *)
Lemma corpse_init i j p name ppid s (w : W) :
  i ≠ j → proc_table s !! i = Some p →
  proc_table (process_initialise_record j name ppid s w) !! i = Some p.
Proof. intros Hne Hp. unfold process_initialise_record. cbn. by rewrite list_lookup_alter_ne. Qed.

Lemma corpse_upd i j f p s : (∀ q, same_corpse q (f q)) → corpse_kept i p s (upd_proc j f s).
Proof.
  intros Hf Hp. destruct (decide (i = j)) as [->|]; [|by apply corpse_upd_other].
  exists (f p). split; [|done]. cbn. by rewrite list_lookup_alter_eq, Hp.
Qed.

Lemma process_create_corpse name entry ppid s w r s' w' i p :
  process_create name entry ppid s w = Some (r, s', w') → is_used p = true → corpse_kept i p s s'.
Proof.
  intros Hc Hu Hp. revert Hc.
  unfold process_create. destruct (_ || _); [intros [= <- <- <-]; by apply corpse_refl|].
  destruct (proc_find_slot s) as [j|] eqn:Hj; [|intros [= <- <- <-]; by apply corpse_refl].
  pose proof (free_slot_ne _ _ _ _ Hp Hu Hj) as Hne.
  destruct (pe_kmalloc _ w) as [[stack w1]|]; cbn [mbind option_bind]; [|done].
  pose proof (corpse_init i j p name ppid s w Hne Hp) as Hp1.
  destruct (stack =? 0); [intros [= <- <- <-]; by apply (corpse_upd_other i j)|].
  destruct (pe_task_create _ _ _ w1) as [[task w2]|]; cbn [mbind option_bind]; [|done].
  destruct (task =? 0); [destruct (pe_kfree stack w2); cbn [mbind option_bind]; [|done]|];
    intros [= <- <- <-]; (apply (corpse_upd_other i j); [done|]); cbn; rewrite list_lookup_alter_ne; done.
Qed.

Lemma process_spawn_corpse name im ppid s w r s' w' i p :
  process_spawn_user_image user_task_entry name im ppid s w = Some (r, s', w') → is_used p = true →
  corpse_kept i p s s'.
Proof.
  intros Hc Hu Hp. revert Hc.
  unfold process_spawn_user_image. destruct (image_missing _ _); [intros [= <- <- <-]; by apply corpse_refl|].
  destruct (proc_find_slot s) as [j|] eqn:Hj; [|intros [= <- <- <-]; by apply corpse_refl].
  pose proof (free_slot_ne _ _ _ _ Hp Hu Hj) as Hne.
  pose proof (corpse_init i j p name ppid s w Hne Hp) as Hp1.
  destruct (pe_task_create _ _ _ w) as [[task w2]|]; cbn [mbind option_bind]; [|done].
  destruct (task =? 0); intros [= <- <- <-]; (apply (corpse_upd_other i j); [done|]); cbn;
    rewrite list_lookup_alter_ne; done.
Qed.

Lemma process_bind_corpse name im ppid s w i p :
  is_used p = true → corpse_kept i p s (process_bind_current_user_image name im ppid s w).2.
Proof.
  intros Hu Hp. unfold process_bind_current_user_image. destruct (_ || _); [by apply corpse_refl|].
  destruct (existsb _ _); [by apply corpse_refl|].
  destruct (proc_find_slot s) as [j|] eqn:Hj; [|by apply corpse_refl].
  pose proof (free_slot_ne _ _ _ _ Hp Hu Hj) as Hne. cbn [snd].
  apply (corpse_upd_other i j); [done|]. by apply corpse_init.
Qed.

Lemma process_kill_corpse pid signal s w rc s' w' i p :
  process_kill pid signal s w = Some (rc, s', w') → pid ≠ pr_pid p → corpse_kept i p s s'.
Proof.
  intros Hk Hne Hp. revert Hk. unfold process_kill.
  destruct (process_get pid s) as [j|] eqn:Hj; [|intros [= <- <- <-]; by apply corpse_refl].
  destruct (process_get_Some _ _ _ Hj) as (q & Hq & Eq & _). rewrite Hq. cbn [mbind option_bind].
  assert (i ≠ j) as Hij by (intros ->; congruence).
  destruct (_ || _).
  { destruct (pe_socket_close_all _ _); cbn [mbind option_bind]; [|done].
    destruct (if pr_task q =? 0 then _ else _); cbn [mbind option_bind]; [|done].
    intros [= <- <- <-]. by apply (corpse_upd_other i j). }
  destruct (signal =? 19); [intros [= <- <- <-]; by apply (corpse_upd_other i j)|].
  destruct (_ && _); intros [= <- <- <-]; [by apply (corpse_upd_other i j)|by apply corpse_refl].
Qed.

Lemma process_wait_corpse pid s w rc code s' w' i p :
  process_wait pid s w = Some (rc, code, s', w') → pid ≠ pr_pid p → corpse_kept i p s s'.
Proof.
  intros Hk Hne Hp. revert Hk. unfold process_wait.
  destruct (process_get pid s) as [j|] eqn:Hj; [|intros [= <- <- <- <-]; by apply corpse_refl].
  destruct (process_get_Some _ _ _ Hj) as (q & Hq & Eq & _). rewrite Hq. cbn [mbind option_bind].
  assert (i ≠ j) as Hij by (intros ->; congruence).
  destruct (_ && _); [intros [= <- <- <- <-]; by apply corpse_refl|].
  destruct (negb _); [intros [= <- <- <- <-]; by apply corpse_refl|].
  destruct (if pr_task q =? 0 then _ else _); cbn [mbind option_bind]; [|done].
  destruct (if _ && _ then _ else _); cbn [mbind option_bind]; [|done].
  destruct (if negb (pr_runtime_slot q =? 0) then _ else _) as [release_rc w3].
  destruct (negb (release_rc =? AEGIS_OK)); [intros [= <- <- <- <-]; by apply corpse_refl|].
  destruct (pe_userland_mark_exited _ _ _ _) as [[userland_rc w4]|]; cbn [mbind option_bind]; [|done].
  destruct (_ && _); intros [= <- <- <- <-]; [by apply corpse_refl|by apply (corpse_upd_other i j)].
Qed.

(** The outcome of an exit: the caller is a zombie with the code, its children
    belong to process 1, and the others are as they were. *)
Lemma process_exit_table code s w s' w' i p :
  process_exit code s w = Some (s', w') → proc_table s !! i = Some p → pe_current w ≠ 0 →
  (pr_task p = pe_current w → (∀ j q, proc_table s !! j = Some q → pr_task q = pe_current w → j = i) →
   proc_table s' !! i =
     Some (reparent (pr_pid p) (p <| pr_state := PROC_STATE_ZOMBIE |> <| pr_exit_code := code |>))) ∧
  (pr_task p ≠ pe_current w → ∃ p', proc_table s' !! i = Some p' ∧ same_corpse p p').
Proof.
  intros Hx Hp Hcur. revert Hx. unfold process_exit. rewrite (proj2 (Z.eqb_neq _ _)) by done.
  destruct (find_slot _ _) as [j|] eqn:Hj; cbn [mbind option_bind].
  - apply find_slot_Some in Hj as (q & Hq & Ht & _). apply Z.eqb_eq in Ht. rewrite Hq. cbn [mbind option_bind].
    destruct (pe_socket_close_all _ _) as [w0|]; cbn [mbind option_bind]; [|done].
    destruct (pe_task_destroy _ _) as [w1|]; cbn [mbind option_bind]; [|done].
    destruct (pe_yield w1) as [w2|]; cbn [mbind option_bind]; [|done].
    destruct (_ =? _); [done|]. intros [= <- <-]. cbn. rewrite list_lookup_fmap. split.
    + intros _ Huniq. pose proof (Huniq _ _ Hq Ht) as ->. assert (q = p) as -> by congruence.
      rewrite list_lookup_alter_eq, Hp. done.
    + intros Hne. rewrite list_lookup_alter_ne by (intros ->; congruence). rewrite Hp. eexists. split; [done|].
      unfold reparent. destruct (_ && _); split_and!; auto.
  - destruct (pe_yield w) as [w2|]; cbn [mbind option_bind]; [|done].
    destruct (_ =? _); [done|]. intros [= <- <-]. split.
    + intros Ht _. rewrite find_slot_None in Hj. specialize (Hj _ _ Hp). cbn in Hj. lia.
    + intros _. exists p. split; [done|apply same_corpse_refl].
Qed.

Lemma process_exit_corpse code s w s' w' i p :
  process_exit code s w = Some (s', w') → pe_current w ≠ pr_task p → corpse_kept i p s s'.
Proof.
  intros Hx Hne Hp. destruct (decide (pe_current w = 0)) as [Hz|Hcur].
  - revert Hx. unfold process_exit. rewrite Hz. cbn. intros [= <- <-]. by apply corpse_refl.
  - destruct (process_exit_table _ _ _ _ _ _ _ Hx Hp Hcur) as [_ Hother]. by apply Hother.
Qed.

Lemma process_caps_corpse pid cap s i p :
  corpse_kept i p s (process_grant_cap pid cap s).2 ∧ corpse_kept i p s (process_revoke_cap pid cap s).2.
Proof.
  split.
  - unfold process_grant_cap. destruct (process_get pid s) as [j|]; [|apply corpse_refl].
    destruct (proc_table s !! j); [|apply corpse_refl]. destruct (existsb _ _); [apply corpse_refl|].
    destruct (_ <=? _); [apply corpse_refl|]. apply corpse_upd. intros q. split_and!; auto.
  - unfold process_revoke_cap. destruct (process_get pid s) as [j|]; [|apply corpse_refl].
    destruct (proc_table s !! j); [|apply corpse_refl]. destruct (find_slot _ _); [|apply corpse_refl].
    apply corpse_upd. intros q. split_and!; auto.
Qed.

Lemma process_prepare_corpse s i p : is_used p = true → corpse_kept i p s (process_table_cleanup_prepare s).2.
Proof.
  intros Hu Hp. exists p. split; [|apply same_corpse_refl]. unfold process_table_cleanup_prepare.
  destruct (negb _); cbn; rewrite list_lookup_fmap, Hp; cbn; by rewrite Hu.
Qed.

Lemma pstep_corpse o x y i p :
  pstep o x y → leaves_alone (pr_pid p) (pr_task p) o → is_used p = true → corpse_kept i p x.1 y.1.
Proof.
  destruct 1; cbn [fst leaves_alone]; intros Hal Hu; try done.
  - by eapply process_create_corpse.
  - by apply process_bind_corpse.
  - by eapply process_spawn_corpse.
  - by eapply process_kill_corpse.
  - by eapply process_exit_corpse.
  - by eapply process_wait_corpse.
  - apply process_caps_corpse.
  - apply process_caps_corpse.
  - by apply process_prepare_corpse.
  - apply corpse_refl.
Qed.

Lemma ptrace_corpse n x y i p :
  nsteps (λ a b, ∃ o, leaves_alone (pr_pid p) (pr_task p) o ∧ pstep o a b) n x y → is_used p = true →
  corpse_kept i p x.1 y.1.
Proof.
  intros Htr. revert p Htr. intros p Htr.
  cut (∀ p0, same_corpse p p0 → is_used p = true → proc_table x.1 !! i = Some p0 →
             ∃ p', proc_table y.1 !! i = Some p' ∧ same_corpse p p').
  { intros Hc Hu Hp. apply (Hc p); [apply same_corpse_refl|done..]. }
  induction Htr as [x|n x y z (o & Hal & Hs) _ IH]; intros p0 Hsame Hu Hp; [eauto|].
  destruct Hsame as (E1 & E2 & E3 & E4 & E5 & E6 & E7 & E8).
  destruct (pstep_corpse o x y i p0 Hs) as (p1 & Hp1 & (F1 & F2 & F3 & F4 & F5 & F6 & F7 & F8)); [by rewrite E1, E4| |done|].
  { unfold is_used in *. by rewrite E2. }
  apply (IH p1); [|done..]. split_and!; [congruence..|]. destruct F8 as [->|]; auto.
Qed.

Lemma process_get_unique s i p :
  procs_inv s → proc_table s !! i = Some p → is_used p = true → process_get (pr_pid p) s = Some i.
Proof.
  intros Hinv Hp Hu. unfold process_get. destruct (find_slot _ _) as [j|] eqn:Hj.
  - destruct (process_get_Some _ _ _ Hj) as (q & Hq & Eq & Huq). f_equal. by eapply (pi_uniq _ Hinv).
  - rewrite find_slot_None in Hj. specialize (Hj _ _ Hp). cbn in Hj. rewrite Z.eqb_refl, Hu in Hj. done.
Qed.

(** The zombie of a user process, reaped by its parent. *)
Lemma process_wait_reaps s w i p w1 w2 urc w3 :
  procs_inv s → proc_table s !! i = Some p → pr_state p = PROC_STATE_ZOMBIE → pr_owns_stack p = false →
  process_getpid s w = pr_ppid p →
  pe_task_destroy (pr_task p) w = Some w1 → pr_task p ≠ 0 →
  (if pr_runtime_slot p =? 0 then (AEGIS_OK, w1) else pe_release_slot (pr_runtime_slot p) w1) = (AEGIS_OK, w2) →
  pe_userland_mark_exited (process_copy_name (Some (pr_name p))) (pr_pid p) (pr_exit_code p) w2 = Some (urc, w3) →
  urc = AEGIS_OK ∨ urc = AEGIS_ENOENT →
  process_wait (pr_pid p) s w = Some (AEGIS_OK, Some (pr_exit_code p), upd_proc i (λ _, zero_process) s, w3).
Proof.
  intros Hinv Hp Hz Hown Hpid Htask Hne Hrel Hmark Hurc.
  assert (is_used p = true) as Hu by (unfold is_used; by rewrite Hz).
  unfold process_wait. rewrite (process_get_unique _ _ _ Hinv Hp Hu), Hp, Hpid. cbn [mbind option_bind].
  rewrite Z.eqb_refl, andb_false_r, Hz. rewrite bool_decide_eq_true_2 by done. cbn [negb].
  rewrite (proj2 (Z.eqb_neq (pr_task p) 0)) by done. rewrite Htask. cbn [mbind option_bind]. rewrite Hown. cbn [andb mbind option_bind].
  destruct (pr_runtime_slot p =? 0); cbn [negb].
  - injection Hrel as <-. rewrite Z.eqb_refl. cbn [negb]. rewrite Hmark. by destruct Hurc as [-> | ->].
  - rewrite Hrel. rewrite Z.eqb_refl. cbn [negb]. rewrite Hmark. by destruct Hurc as [-> | ->].
Qed.

Lemma process_exit_shape code s w s' w' i p :
  process_exit code s w = Some (s', w') → proc_table s !! i = Some p → pe_current w ≠ 0 →
  pr_task p = pe_current w → (∀ j q, proc_table s !! j = Some q → pr_task q = pe_current w → j = i) →
  proc_table s' = reparent (pr_pid p) <$>
    alter (λ p, p <| pr_state := PROC_STATE_ZOMBIE |> <| pr_exit_code := code |>) i (proc_table s).
Proof.
  intros Hx Hp Hcur Ht Huniq. revert Hx. unfold process_exit. rewrite (proj2 (Z.eqb_neq _ _)) by done.
  destruct (find_slot _ _) as [j|] eqn:Hj; cbn [mbind option_bind].
  - apply find_slot_Some in Hj as (q & Hq & Htq & _). apply Z.eqb_eq in Htq. rewrite Hq. cbn [mbind option_bind].
    pose proof (Huniq _ _ Hq Htq) as ->. assert (q = p) as -> by congruence.
    destruct (pe_socket_close_all _ _) as [w0|]; cbn [mbind option_bind]; [|done].
    destruct (pe_task_destroy _ _) as [w1|]; cbn [mbind option_bind]; [|done].
    destruct (pe_yield w1) as [w2|]; cbn [mbind option_bind]; [|done].
    destruct (_ =? _); [done|]. by intros [= <- <-].
  - rewrite find_slot_None in Hj. specialize (Hj _ _ Hp). cbn in Hj. lia.
Qed.


End steps.

(** ** The kernel around the table *)

(** The state of the components that process.c calls; [k_clock] is the monotonic
    clock the supervisor reads. *)
Record kernel (H : Type) := mk_kernel {
  k_sched : sched H; k_elf : elf_state; k_fds : fd_table; k_vfs : vfs_state; k_sup : supervisor;
  k_ticks : Z; k_clock : Z; k_socks : sock_state; k_user : userland;
}.
Arguments mk_kernel {H}. Arguments k_sched {H}. Arguments k_elf {H}. Arguments k_fds {H}. Arguments k_vfs {H}.
Arguments k_sup {H}. Arguments k_ticks {H}. Arguments k_clock {H}. Arguments k_socks {H}. Arguments k_user {H}.
#[export] Instance kernel_eta H : Eta (kernel H) := λ k,
  mk_kernel (k_sched k) (k_elf k) (k_fds k) (k_vfs k) (k_sup k) (k_ticks k) (k_clock k) (k_socks k) (k_user k).

Section kernel_env.
Context {H : Type} `{KernelHeap H}.

Definition on_sched {A} (f : sched H → option (A * sched H)) (k : kernel H) : option (A * kernel H) :=
  '(a, s) ← f (k_sched k); Some (a, k <| k_sched := s |>).

#[export] Instance kernel_env : ProcEnv (kernel H) := {|
  pe_ticks := k_ticks;
  pe_current k := scheduler_current (k_sched k);
  pe_task_create name entry prio := on_sched (task_create name entry prio);
  pe_task_destroy t k := s ← task_destroy t (k_sched k); Some (k <| k_sched := s |>);
  pe_yield k := s ← scheduler_yield (k_sched k); Some (k <| k_sched := s |>);
  pe_kmalloc n := on_sched (λ s, '(p, h) ← km_alloc n (kheap s); Some (p, s <| kheap := h |>));
  pe_kfree p k := h ← km_free p (kheap (k_sched k)); Some (k <| k_sched ::= λ s, s <| kheap := h |> |>);
  pe_fd_table_init k := k <| k_fds ::= fd_table_init |>;
  pe_fd_close_all pid k :=
    let '(t, v) := fd_close_all pid (k_fds k) (k_vfs k) in k <| k_fds := t |> <| k_vfs := v |>;
  pe_socket_close_all pid k := s ← net_socket_close_all pid (k_socks k); Some (k <| k_socks := s |>);
  pe_supervisor_mark_exit name pid code k :=
    k <| k_sup := (service_supervisor_native_mark_exit (Some name) pid code (k_clock k) (k_sup k)).2 |>;
  pe_release_slot id k := let '(rc, e) := elf_loader_release_runtime_slot id (k_elf k) in (rc, k <| k_elf := e |>);
  pe_userland_mark_exited name pid code k :=
    '(rc, u) ← userland_mark_feature_native_exited name pid code (k_user k); Some (rc, k <| k_user := u |>);
  pe_slot_read_ok id ptr len k := elf_loader_slot_read_range_ok id ptr len (k_elf k);
  pe_slot_write_ok id ptr len k := elf_loader_slot_write_range_ok id ptr len (k_elf k);
|}.

(** An exit reaches the supervisor: the service of the exiting process is marked
    with its code at the time of the exit, and nothing else of the supervisor
    changes. *)
Lemma process_exit_supervised code s (k : kernel H) i p s' k' :
  process_exit code s k = Some (s', k') → scheduler_current (k_sched k) ≠ 0 →
  find_slot (λ p, pr_task p =? scheduler_current (k_sched k)) (proc_table s) = Some i →
  proc_table s !! i = Some p →
  k_sup k' = (service_supervisor_native_mark_exit (Some (pr_name p)) (pr_pid p) code (k_clock k) (k_sup k)).2.
Proof.
  unfold process_exit. cbn [pe_current kernel_env]. intros E Hc Hf Hp.
  rewrite (proj2 (Z.eqb_neq _ _)), Hf, Hp in E by done. cbn [mbind option_bind pe_socket_close_all pe_fd_close_all
    pe_supervisor_mark_exit pe_task_destroy pe_yield kernel_env] in E.
  destruct (fd_close_all _ _ _) as [t vs]. cbn in E. destruct (net_socket_close_all _ _) as [k1|]; [|done]. cbn in E.
  destruct (task_destroy _ _) as [s1|]; [|done]. cbn in E.
  destruct (scheduler_yield _) as [s2|]; [|done]. cbn in E. case_match; [done|]. by injection E as <- <-.
Qed.
End kernel_env.

(** ** A running system *)

Notation example_kernel := (kernel heap_state).

(** Sockets on a stack without a link. *)
Definition quiet_socks : sock_state := mk_socks (replicate AEGIS_SOCKET_MAX zero_socket) 0 0
  (zero_net <| n_udp := [] |> <| n_tcp := mk_tcps [] 49152 |> <| n_pkts ::= λ t, t <| pkt_pool := [] |> |> <| n_fw ::= λ f, f <| rule_storage := [] |> <| conn_table := [] |> |>).
Definition boot_kernel : example_kernel :=
  mk_kernel example_sched
    (mk_elf (replicate 16 (mk_slot true zero_info [] [] [])) zero_info true false false false 0)
    (replicate FD_PROCESS_SLOTS (replicate AEGIS_FD_MAX_PER_PROCESS zero_fd)) example_vfs example_sup 5 100
    quiet_socks (userland_handoff_init (mk_userland [] [] zero_handoff 0 0)).
Definition boot_procs : procs := mk_procs (replicate MAX_PROCESSES zero_process) 0 false.
Definition image (slot : Z) : user_image := mk_image 0x400000 0x400000 0x1000 0x500000 0x10000 slot.

(** Process 1 is the task that runs; process 2 is its child. *)
Definition with_init : procs * example_kernel :=
  let '(s, w) := process_init boot_procs boot_kernel in
  ((process_bind_current_user_image (Some "init") (image 1) 0 s w).2, w).
Definition with_child : procs * example_kernel :=
  from_option (λ r, (r.1.2, r.2)) with_init
    (process_spawn_user_image 0x80000 (Some "service") (image 2) 1 with_init.1 with_init.2).
(** The child runs. *)
Definition run_task (t : Z) (w : example_kernel) : example_kernel :=
  w <| k_sched ::= λ s, s <| current_task := t |> |>.
Definition child_task : Z := from_option pr_task 0 (proc_table with_child.1 !! 1%nat).
Definition init_task : Z := from_option pr_task 0 (proc_table with_child.1 !! 0%nat).

Lemma with_child_trace :
  nsteps (λ a b, ∃ o, pstep 0x80000 o a b) 2 (process_init boot_procs boot_kernel) with_child.
Proof.
  apply (nsteps_l _ _ _ with_init); [exists OBind; exact (st_bind _ _ _ _ _ _)|].
  apply nsteps_once. exists OSpawn.
  destruct (process_spawn_user_image 0x80000 (Some "service") (image 2) 1 with_init.1 with_init.2) as [[[r s] w]|] eqn:E.
  - assert (with_child = (s, w)) as -> by (unfold with_child; by rewrite E).
    rewrite (surjective_pairing with_init). by eapply st_spawn.
  - assert (bool_decide (is_Some (process_spawn_user_image 0x80000 (Some "service") (image 2) 1 with_init.1 with_init.2)) = true)
      as Hs by (vm_compute; reflexivity). rewrite E in Hs. done.
Qed.

Lemma process_pids_unique_witness :
  process_table_pid_order_is_clean with_child.1 = true ∧ process_pid (Some 1%nat) with_child.1 = 2.
Proof.
  destruct (process_pids_unique 0x80000 2 boot_procs boot_kernel with_child.1 with_child.2) as (_ & _ & Hclean).
  - reflexivity.
  - vm_compute. reflexivity.
  - rewrite <-(surjective_pairing with_child). exact with_child_trace.
  - split; [exact Hclean|vm_compute; reflexivity].
Defined.

Lemma with_child_table :
  ∃ p0 p1, proc_table with_child.1 = p0 :: p1 :: replicate 254 zero_process ∧
    pr_task p0 = init_task ∧ pr_task p1 = child_task ∧ pr_pid p1 = 2 ∧ pr_ppid p1 = 1 ∧
    pr_owns_stack p1 = false ∧ is_used p1 = true ∧ pr_runtime_slot p1 = 2 ∧ init_task ≠ child_task ∧
    child_task ≠ 0 ∧ next_pid with_child.1 = 3 ∧ process_copy_name (Some (pr_name p1)) = "service"%string.
Proof. vm_compute. eexists _, _. split_and!; reflexivity || discriminate. Qed.

(** What the witness below needs to know of the exit of the child. *)
Definition exit_facts (s1 : procs) (w1 : example_kernel) : bool :=
  let w2 := run_task init_task w1 in
  (process_getpid s1 w2 =? 1) &&
  match pe_task_destroy child_task w2 with
  | Some w3 =>
      let '(rc, w4) := pe_release_slot 2 w3 in
      (rc =? AEGIS_OK) && match pe_userland_mark_exited "service" 2 7 w4 with Some (urc, _) => urc =? AEGIS_ENOENT | None => false end
  | None => false
  end.


(** ** What the code does not handle *)

(** [process_bind_current_user] passes no entry point, which its callee refuses. *)
Lemma process_bind_current_user_fails {W} `{ProcEnv W} name base size ppid s w :
  process_bind_current_user name base size ppid s w = (None, s).
Proof.
  unfold process_bind_current_user, process_bind_current_user_image, image_missing. cbn [im_entry].
  by rewrite Z.eqb_refl, !orb_true_r.
Qed.

(** A signal to a zombie takes it out of its state: after SIGSTOP the parent's wait
    reports a busy child although the process has exited. *)
Lemma process_kill_stops_zombie :
  match process_kill 2 9 with_child.1 with_child.2 ≫= λ r, process_kill 2 19 r.1.2 r.2 with
  | Some (rc, s, w) => rc = AEGIS_OK ∧ (λ r, r.1.1.1) <$> process_wait 2 s w = Some AEGIS_EBUSY
  | None => False
  end.
Proof. vm_compute. done. Qed.

(** [process_kill] frees the task of another process but keeps the pointer: a task
    created afterwards at the same address is destroyed when the first process is
    waited for. *)
Lemma process_wait_destroys_stranger :
  match process_kill 2 9 with_child.1 with_child.2 ≫= λ r,
        process_spawn_user_image 0x80000 (Some "other") (image 3) 1 r.1.2 r.2 with
  | Some (Some i, s, w) =>
      let t := from_option pr_task 0 (proc_table s !! i) in
      t = child_task ∧ is_Some (tasks (k_sched w) !! t) ∧
      match process_wait 2 s w with
      | Some (rc, _, _, w') => rc = AEGIS_OK ∧ tasks (k_sched w') !! t = None
      | None => False
      end
  | _ => False
  end.
Proof. vm_compute. split; [done|]. split; [eauto|]. split; done. Qed.
