(* ===== verification/Entropy.v ===== *)
(** Random numbers: kernel/core/entropy.c, a virtio generator with a mixing
    function as fallback.

    The device is the sequence of its replies to the requests to come, the cycle
    counter the sequence of its readings to come. *)

From S2P Require Import Prelude.

(** What happens to a request: the driver gives up waiting, or the device
    completes a descriptor and has written [bytes]. *)
Inductive rng_reply := RngTimeout | RngDone (id len : Z) (bytes : list Z).

Record entropy := mk_entropy {
  en_device : bool; en_replies : list rng_reply; en_counter : list Z;
  g_fallback_state : Z; g_generated : Z; g_strong : bool;
}.
#[export] Instance entropy_eta : Eta entropy := λ e,
  mk_entropy (en_device e) (en_replies e) (en_counter e) (g_fallback_state e) (g_generated e) (g_strong e).

Definition counter_now (e : entropy) : Z * entropy := (u64 (default 0 (head (en_counter e))), e <| en_counter ::= tail |>).

Definition mix64 (x : Z) : Z :=
  let x := Z.lxor x (Z.shiftr x 30) in
  let x := u64 (x * 0xbf58476d1ce4e5b9) in
  let x := Z.lxor x (Z.shiftr x 27) in
  let x := u64 (x * 0x94d049bb133111eb) in
  Z.lxor x (Z.shiftr x 31).

(** The result and the bytes in the buffer; the buffer is not NULL. *)
Definition rng_fill (len : Z) (e : entropy) : Z * list Z * entropy :=
  if negb (en_device e) || (len =? 0) then (AEGIS_ENOENT, [], e)
  else
    match en_replies e with
    | [] | RngTimeout :: _ => (AEGIS_ETIMEDOUT, [], e <| en_replies ::= tail |>)
    | RngDone id n bytes :: r =>
        let e := e <| en_replies := r |> in
        if negb (id =? 0) then (AEGIS_EIO, [], e)
        else if len <=? n then (AEGIS_OK, take (Z.to_nat len) bytes, e)
        else (AEGIS_EIO, [], e)
    end.

(** [ready]: a generator was found and its queue is set up. *)
Definition entropy_init (ready : bool) (ticks address : Z) (e : entropy) : entropy :=
  let '(c, e) := counter_now e in
  let e := e <| en_device := false |> <| g_generated := 0 |> <| g_strong := false |>
             <| g_fallback_state := mix64 (Z.lxor (Z.lxor c (u64 (Z.shiftl ticks 32))) address) |> in
  if negb ready then e
  else
    let '(rc, probe, e) := rng_fill 8 (e <| en_device := true |>) in
    if rc =? AEGIS_OK then e <| g_fallback_state ::= λ x, Z.lxor x (mix64 (from_le probe)) |> <| g_strong := true |> else e.

(** The loop over the device; one unit of fuel per request. *)
Fixpoint strong_loop (fuel : nat) (len : Z) (out : list Z) (e : entropy) : list Z * entropy :=
  match fuel with
  | O => (out, e)
  | S fuel =>
      let off := Z.of_nat (length out) in
      if off <? len then
        let chunk := if 4096 <? len - off then 4096 else len - off in
        let '(rc, bytes, e) := rng_fill chunk e in
        if rc =? AEGIS_OK then strong_loop fuel len (out ++ bytes) e else (out, e <| g_strong := false |>)
      else (out, e)
  end.

(** The fallback loop; one unit of fuel per word. *)
Fixpoint fallback_loop (fuel : nat) (len : Z) (out : list Z) (e : entropy) : list Z * entropy :=
  match fuel with
  | O => (out, e)
  | S fuel =>
      let off := Z.of_nat (length out) in
      if off <? len then
        let '(c, e) := counter_now e in
        let e := e <| g_fallback_state ::= λ x, mix64 (u64 (x + 0x9e3779b97f4a7c15 + c)) |> in
        fallback_loop fuel len (out ++ take (Z.to_nat (len - off)) (le 8 (g_fallback_state e))) e
      else (out, e)
  end.

(** The buffer is not NULL; the bytes are those stored in it. *)
Definition entropy_get (len : Z) (require_strong : bool) (e : entropy) : Z * list Z * entropy :=
  if len =? 0 then (AEGIS_EINVAL, [], e)
  else
    let n := Z.to_nat len in
    let '(out, e) := if g_strong e then strong_loop n len [] e else ([], e) in
    if (Z.of_nat (length out) <? len) && require_strong then (AEGIS_EAGAIN, out, e)
    else
      let '(out, e) := fallback_loop n len out e in
      (AEGIS_OK, out, e <| g_generated ::= λ g, u64 (g + len) |>).

Definition entropy_strong_ready (e : entropy) : bool := g_strong e.
Definition entropy_bytes_generated (e : entropy) : Z := g_generated e.

(** * Properties *)

(** The device writes what it reports. *)
Definition honest (r : rng_reply) : Prop := match r with RngTimeout => True | RngDone _ n bytes => n ≤ Z.of_nat (length bytes) end.

Lemma rng_fill_honest len e rc bytes e' :
  rng_fill len e = (rc, bytes, e') → 0 ≤ len → Forall honest (en_replies e) →
  Forall honest (en_replies e') ∧ (rc = AEGIS_OK → 0 < len ∧ Z.of_nat (length bytes) = len).
Proof.
  unfold rng_fill. intros H Hl Hr. destruct (_ || _) eqn:E; [by injection H as <- <- <-|]. apply orb_false_iff in E as [_ E%Z.eqb_neq].
  destruct (en_replies e) as [|[|id n b] r] eqn:Er; [injection H as <- <- <-; cbn; by rewrite Er|injection H as <- <- <-; cbn; rewrite Er; split; [by inversion Hr|done]|].
  apply Forall_cons in Hr as [Hh Hr]. cbn in Hh. destruct (negb _); [by injection H as <- <- <-|].
  destruct (Z.leb_spec len n); injection H as <- <- <-; (split; [done|]); [|done]. intros _. rewrite length_take. lia.
Qed.

Lemma strong_loop_spec fuel len out e out' e' :
  strong_loop fuel len out e = (out', e') → 0 ≤ len → Z.of_nat (length out) ≤ len → len ≤ Z.of_nat (length out) + Z.of_nat fuel →
  Forall honest (en_replies e) →
  Z.of_nat (length out') ≤ len ∧ (g_strong e' = true → Z.of_nat (length out') = len).
Proof.
  revert out e. induction fuel as [|fuel IH]; intros out e H Hl Ho Hf Hr; cbn [strong_loop] in H.
  { injection H as <- <-. split; [done|lia]. }
  destruct (Z.ltb_spec (Z.of_nat (length out)) len); [|injection H as <- <-; split; lia].
  cbn zeta in H. set (chunk := if 4096 <? _ then _ else _) in H. assert (Hc : 0 < chunk ≤ len - Z.of_nat (length out)).
  { unfold chunk. destruct (Z.ltb_spec 4096 (len - Z.of_nat (length out))); lia. }
  destruct (rng_fill chunk e) as [[rc bytes] e1] eqn:E. destruct (rng_fill_honest _ _ _ _ _ E ltac:(lia) Hr) as [Hr1 Hok].
  destruct (Z.eqb_spec rc AEGIS_OK) as [Hrc|]; [|injection H as <- <-; split; [lia|done]]. destruct (Hok Hrc) as [_ Hb].
  apply (IH _ _ H); [done|rewrite length_app; lia|rewrite length_app; lia|done].
Qed.

Lemma fallback_loop_length fuel len out e :
  Z.of_nat (length out) ≤ len → len ≤ Z.of_nat (length out) + Z.of_nat fuel → Z.of_nat (length (fallback_loop fuel len out e).1) = len.
Proof.
  revert out e. induction fuel as [|fuel IH]; intros out e Ho Hf; cbn [fallback_loop]; [cbn; lia|].
  destruct (Z.ltb_spec (Z.of_nat (length out)) len); [|cbn; lia]. destruct (counter_now e) as [c e1]. cbn zeta.
  assert (length (le 8 (g_fallback_state (e1 <| g_fallback_state ::= λ x, mix64 (u64 (x + 0x9e3779b97f4a7c15 + c)) |>))) = 8%nat) as H8 by (by rewrite le_length).
  apply IH; rewrite length_app, length_take, H8; lia.
Qed.

(** Every request is answered: [entropy_get] either returns exactly the bytes
    asked for or, when only the device would do, refuses. *)
Lemma entropy_get_total len strong e rc out e' :
  entropy_get len strong e = (rc, out, e') → 0 < len → Forall honest (en_replies e) →
  (rc = AEGIS_OK ∧ Z.of_nat (length out) = len) ∨ (rc = AEGIS_EAGAIN ∧ strong = true ∧ g_strong e' = false).
Proof.
  unfold entropy_get. intros H Hl Hr. replace (len =? 0) with false in H by lia. cbn zeta in H.
  destruct (if g_strong e then _ else _) as [o e1] eqn:Es.
  assert (Ho : Z.of_nat (length o) ≤ len ∧ (g_strong e1 = true → Z.of_nat (length o) = len)).
  { destruct (g_strong e) eqn:Eg; [|injection Es as <- <-; cbn; rewrite Eg; split; [lia|done]].
    destruct (strong_loop_spec _ _ _ _ _ _ Es) as [H1 H2]; [lia|cbn; lia|cbn; lia|done|]. done. }
  destruct (_ && _) eqn:Eb.
  - injection H as <- <- <-. right. apply andb_true_iff in Eb as [Eb%Z.ltb_lt Hs]. split; [done|]. split; [done|].
    destruct (g_strong e1); [|done]. destruct Ho as [_ Ho]. specialize (Ho eq_refl). lia.
  - pose proof (fallback_loop_length (Z.to_nat len) len o e1 ltac:(lia) ltac:(lia)) as Hf.
    destruct (fallback_loop _ _ _ _) as [o' e2]. injection H as <- <- <-. left. done.
Qed.

Definition example_entropy : entropy := mk_entropy true [RngDone 0 8 [1; 2; 3; 4; 5; 6; 7; 8]; RngDone 0 4 [9; 8; 7; 6]] [11; 22; 33] 0 0 false.
(** The device serves the probe and four bytes, then the fallback takes over. *)
Lemma entropy_example :
  let e := entropy_init true 0 0 example_entropy in
  let '(rc1, b1, e1) := entropy_get 4 true e in
  let '(rc2, b2, e2) := entropy_get 4 true e1 in
  let '(rc3, b3, e3) := entropy_get 4 false e2 in
  (rc1, b1, rc2, b2, rc3, length b3, g_strong e3) = (AEGIS_OK, [9; 8; 7; 6], AEGIS_EAGAIN, [], AEGIS_OK, 4%nat, false).
Proof. vm_compute. reflexivity. Qed.
