(* ===== verification/Syscall.v ===== *)
(** System calls: kernel/core/syscall.c, syscall_table.c, power.c and the clock
    of rtc.c.

    [sys] is the state of the components that the calls reach: the process table,
    the kernel of Process.v (scheduler, loader, descriptors, files, supervisor,
    sockets, catalogue), the channels, the capabilities, the page tables, the
    generator, and the memory of the processes by address. A handler is a function
    of the state monad [M]; [None] is a fault, a panic or a loop that does not end.
    The console driver is the characters that will arrive and those written by
    processes ([printk] lines are left out); the counter of the clock is the
    sequence of its readings. *)

From S2P Require Import Prelude PhysMem PageTable Heap Message Channel Capability Scheduler Elf Vfs FdTable Supervisor.
From S2P Require Import Links Checksum Packet Routing Firewall Arp Net Udp Tcp Rx Socket Services Userland Process Entropy.

Definition AEGIS_SYSCALL_PATH_MAX : nat := 128.
Definition AEGIS_SYSCALL_MSG_MAX : Z := 256.
Definition AEGIS_SYSCALL_IO_CHUNK : Z := 128.
Definition AEGIS_WAIT_NOHANG : Z := 1.
Definition AEGIS_CLOCK_MONOTONIC : Z := 1.
Definition AEGIS_CLOCK_REALTIME : Z := 2.
Definition AEGIS_SHUTDOWN_POWEROFF : Z := 0.
Definition AEGIS_SHUTDOWN_REBOOT : Z := 1.
Definition PSCI_SYSTEM_OFF : Z := 0x84000008.
Definition PSCI_SYSTEM_RESET : Z := 0x84000009.

(** The static variables of power.c; [pw_halted] is the function that the
    firmware was called with, after which nothing runs. *)
Record power := mk_power { g_requested : bool; g_requester : Z; g_reason : Z; pw_halted : option Z }.
#[export] Instance power_eta : Eta power := λ p, mk_power (g_requested p) (g_requester p) (g_reason p) (pw_halted p).

Record sys (H A V : Type) := mk_sys {
  sy_procs : procs; sy_k : kernel H; sy_ipc : ipc_state; sy_caps : cap_state; sy_vm : vm_state A; sy_files : V;
  sy_mem : Z → Z; sy_uart_in : list Z; sy_uart_out : list Z; sy_counter : list Z; sy_rtc : option Z;
  sy_entropy : entropy; sy_released : bool; sy_power : power;
}.
Arguments mk_sys {H A V}. Arguments sy_procs {H A V}. Arguments sy_k {H A V}. Arguments sy_ipc {H A V}. Arguments sy_caps {H A V}.
Arguments sy_vm {H A V}. Arguments sy_files {H A V}. Arguments sy_mem {H A V}. Arguments sy_uart_in {H A V}.
Arguments sy_uart_out {H A V}. Arguments sy_counter {H A V}. Arguments sy_rtc {H A V}. Arguments sy_entropy {H A V}.
Arguments sy_released {H A V}. Arguments sy_power {H A V}.
#[export] Instance sys_eta H A V : Eta (sys H A V) := λ s,
  mk_sys (sy_procs s) (sy_k s) (sy_ipc s) (sy_caps s) (sy_vm s) (sy_files s) (sy_mem s) (sy_uart_in s) (sy_uart_out s)
    (sy_counter s) (sy_rtc s) (sy_entropy s) (sy_released s) (sy_power s).

(** What does not change while the system runs: the file systems, the addresses
    of the loader's slots, of [process_user_task_entry] and of the root page
    table, the counter frequency; and the flush of every block device, which
    belongs to the state of the file systems. *)
Record machine (V : Type) := mk_machine {
  m_vfs : nat → vfs V; m_image : Z → Z; m_stack : Z → Z; m_task_entry : Z; m_pgtable : Z; m_freq : Z; m_flush : V → V;
}.
Arguments mk_machine {V}. Arguments m_vfs {V}. Arguments m_image {V}. Arguments m_stack {V}. Arguments m_task_entry {V}.
Arguments m_pgtable {V}. Arguments m_freq {V}. Arguments m_flush {V}.
Existing Class machine.

(** rtc.c, with the readings of the counter and its frequency *)
Definition monotonic_nanoseconds (c f : Z) : Z :=
  if f =? 0 then 0 else u64 (u64 (c / f * 1000000000) + u64 (c mod f * 1000000000) / f).

(** A store of bytes in memory. *)
Definition store_bytes (base : Z) (l : list Z) (m : Z → Z) : Z → Z := λ x,
  if (base <=? x) && (x <? base + Z.of_nat (length l)) then default 0 (l !! Z.to_nat (x - base)) else m x.
Definition fetch_bytes (base : Z) (n : nat) (m : Z → Z) : list Z := (λ i, m (base + Z.of_nat i)) <$> seq 0 n.

(** ** The monad of the handlers *)

Definition M (H A V R : Type) : Type := sys H A V → option (R * sys H A V).
#[export] Instance M_ret H A V : MRet (M H A V) := λ R x s, Some (x, s).
#[export] Instance M_bind H A V : MBind (M H A V) := λ R S k m s, match m s with Some (x, s) => k x s | None => None end.
Definition gets {H A V R} (f : sys H A V → R) : M H A V R := λ s, Some (f s, s).
Definition upd {H A V} (f : sys H A V → sys H A V) : M H A V () := λ s, Some (tt, f s).
Definition stuck {H A V R} : M H A V R := λ _, None.

(** A component that is a field of the state. *)
Definition on_procs {H A V R} (f : procs → kernel H → option (R * procs * kernel H)) : M H A V R := λ s,
  '(r, p, k) ← f (sy_procs s) (sy_k s); Some (r, s <| sy_procs := p |> <| sy_k := k |>).
Definition on_socks {H A V R} (f : sock_state → option (R * sock_state)) : M H A V R := λ s,
  '(r, k) ← f (k_socks (sy_k s)); Some (r, s <| sy_k ::= λ w, w <| k_socks := k |> |>).
Definition on_sup {H A V R} (f : supervisor → R * supervisor) : M H A V R := λ s,
  let '(r, u) := f (k_sup (sy_k s)) in Some (r, s <| sy_k ::= λ w, w <| k_sup := u |> |>).
Definition on_user {H A V R} (f : userland → option (R * userland)) : M H A V R := λ s,
  '(r, u) ← f (k_user (sy_k s)); Some (r, s <| sy_k ::= λ w, w <| k_user := u |> |>).
Definition on_ipc {H A V R} (f : ipc_state → R * ipc_state) : M H A V R := λ s,
  let '(r, i) := f (sy_ipc s) in Some (r, s <| sy_ipc := i |>).
Definition on_entropy {H A V R} (f : entropy → R * entropy) : M H A V R := λ s,
  let '(r, e) := f (sy_entropy s) in Some (r, s <| sy_entropy := e |>).

Section syscalls.
Context {H A V : Type} `{KernelHeap H} `{PageAllocator A} {mc : machine V}.
Local Abbreviation M := (M H A V).
Local Abbreviation sys := (sys H A V).

(** ** Access to the memory of the caller *)

Definition getpid (s : sys) : Z := process_getpid (sy_procs s) (sy_k s).
Definition current_name (s : sys) : option string := process_current_name (sy_procs s) (sy_k s).

(** elf_loader.c *)
Definition elf_loader_runtime_read_range_ok (ptr len : Z) (e : elf_state) : bool :=
  builtin_ready e && elf_loader_slot_read_range_ok (builtin_runtime_slot e) ptr len e.
Definition elf_loader_runtime_write_range_ok (ptr len : Z) (e : elf_state) : bool :=
  builtin_ready e && elf_loader_slot_write_range_ok (builtin_runtime_slot e) ptr len e.

(** [range_inside] is also the test of process.c; the bases here are not 0. *)
Definition user_read_range_ok (ptr len : Z) (s : sys) : bool :=
  if negb (getpid s =? 0) then process_current_user_read_range_ok ptr len (sy_procs s) (sy_k s)
  else
    range_inside ptr len AEGIS_USER_TEXT_BASE AEGIS_USER_TEXT_SIZE ||
    range_inside ptr len AEGIS_USER_HEAP_BASE AEGIS_USER_HEAP_SIZE ||
    range_inside ptr len AEGIS_USER_IPC_BASE AEGIS_USER_IPC_SIZE ||
    range_inside ptr len (AEGIS_USER_STACK_TOP - AEGIS_USER_STACK_SIZE) AEGIS_USER_STACK_SIZE ||
    elf_loader_runtime_read_range_ok ptr len (k_elf (sy_k s)).

Definition user_write_range_ok (ptr len : Z) (s : sys) : bool :=
  if negb (getpid s =? 0) then process_current_user_write_range_ok ptr len (sy_procs s) (sy_k s)
  else
    range_inside ptr len AEGIS_USER_HEAP_BASE AEGIS_USER_HEAP_SIZE ||
    range_inside ptr len AEGIS_USER_IPC_BASE AEGIS_USER_IPC_SIZE ||
    range_inside ptr len (AEGIS_USER_STACK_TOP - AEGIS_USER_STACK_SIZE) AEGIS_USER_STACK_SIZE ||
    elf_loader_runtime_write_range_ok ptr len (k_elf (sy_k s)).

(** The bytes copied, or the error. *)
Definition copy_from_user_checked (user_src len : Z) : M (Z + list Z) := λ s,
  Some (if (len =? 0) || negb (user_read_range_ok user_src len s) then inl AEGIS_EINVAL
        else inr (fetch_bytes user_src (Z.to_nat len) (sy_mem s)), s).

Definition copy_to_user_checked (user_dst : Z) (src : list Z) : M Z := λ s,
  let len := Z.of_nat (length src) in
  Some (if (len =? 0) || negb (user_write_range_ok user_dst len s) then (AEGIS_EINVAL, s)
        else (AEGIS_OK, s <| sy_mem ::= store_bytes user_dst src |>)).

(** The loop for the [n] characters before the last. *)
Fixpoint copy_string_loop (n : nat) (p : Z) (acc : list Z) (s : sys) : Z + string :=
  match n with
  | O => inl AEGIS_EINVAL
  | S n =>
      if negb (user_read_range_ok p 1 s) then inl AEGIS_EINVAL
      else
        let c := sy_mem s p in
        if c =? 0 then inr (c_string acc) else copy_string_loop n (u64 (p + 1)) (acc ++ [c]) s
  end.
Definition copy_string_from_user (dst_len : nat) (user_src : Z) : M (Z + string) := λ s,
  Some (if user_src =? 0 then inl AEGIS_EINVAL else copy_string_loop (dst_len - 1) user_src [] s, s).

Definition current_process_may_manage_cap (cap : Z) (s : sys) : bool :=
  if getpid s =? 0 then true else process_has_cap (getpid s) cap (sy_procs s).

(** ** Reading and writing *)

Definition uart_getchar : M Z := λ s,
  match sy_uart_in s with [] => Some (-1, s) | c :: l => Some (c, s <| sy_uart_in := l |>) end.

Definition io_chunk (left : Z) : Z := if left <? AEGIS_SYSCALL_IO_CHUNK then left else AEGIS_SYSCALL_IO_CHUNK.
(** [return done ? done : err] *)
Definition partial (done err : Z) : Z := if done =? 0 then err else done.

(** The read loops; [n] is at least the number of bytes left. A driver that
    reports more than was asked for would make the copy leave [tmp]. *)
Fixpoint read_uart (n : nat) (buf i : Z) : M Z :=
  match n with
  | O => mret i
  | S n =>
      ch ← uart_getchar;
      if ch <? 0 then mret i
      else
        rc ← copy_to_user_checked (u64 (buf + i)) [u8 ch];
        if negb (rc =? AEGIS_OK) then mret rc else read_uart n buf (i + 1)
  end.

Definition socket_recv (pid fd len : Z) : M (Z * list Z) :=
  on_socks (λ k, '(got, bytes, k) ← net_socket_recv pid fd len k; Some ((got, bytes), k)).

Fixpoint read_socket (n : nat) (pid fd buf len done : Z) : M Z :=
  if done <? len then
    match n with
    | O => stuck
    | S n =>
        let chunk := io_chunk (len - done) in
        '(got, tmp) ← socket_recv pid fd chunk;
        if (got =? AEGIS_EAGAIN) && negb (done =? 0) then mret done
        else if got <? 0 then mret (partial done got)
        else if got =? 0 then mret done
        else if chunk <? got then stuck
        else
          rc ← copy_to_user_checked (u64 (buf + done)) (take (Z.to_nat got) tmp);
          if negb (rc =? AEGIS_OK) then mret rc
          else if got <? chunk then mret (done + got)
          else read_socket n pid fd buf len (done + got)
    end
  else mret done.

(** [*offset] *)
Definition offset_at (pid fd : Z) (s : sys) : Z := from_option fd_offset 0 (fd_lookup pid fd (k_fds (sy_k s))).
Definition advance (pid fd n : Z) (s : sys) : sys :=
  s <| sy_k ::= λ k, k <| k_fds ::= fd_set_offset pid fd (u64 (offset_at pid fd s + n)) |> |>.

Definition file_read (vn : nat) (off len : Z) : M (Z * list Z) := λ s,
  '(got, bytes, w) ← vfs_read (m_vfs mc) (Some vn) off true len (k_vfs (sy_k s)) (sy_files s);
  Some ((got, bytes), s <| sy_files := w |>).
Definition file_write (vn : nat) (off : Z) (data : list Z) : M Z := λ s,
  '(wrote, v, w) ← vfs_write (m_vfs mc) (Some vn) off (Some data) (k_vfs (sy_k s)) (sy_files s);
  Some (wrote, s <| sy_files := w |> <| sy_k ::= λ k, k <| k_vfs := v |> |>).

Fixpoint read_file (n : nat) (pid fd : Z) (vn : nat) (buf len done : Z) : M Z :=
  if done <? len then
    match n with
    | O => stuck
    | S n =>
        let chunk := io_chunk (len - done) in
        off ← gets (offset_at pid fd);
        '(got, tmp) ← file_read vn off chunk;
        if got <? 0 then mret (partial done got)
        else if got =? 0 then mret done
        else if chunk <? got then stuck
        else
          rc ← copy_to_user_checked (u64 (buf + done)) (take (Z.to_nat got) tmp);
          if negb (rc =? AEGIS_OK) then mret rc
          else
            upd (advance pid fd got);;
            if got <? chunk then mret (done + got) else read_file n pid fd vn buf len (done + got)
    end
  else mret done.

Definition sys_read (fd buf len : Z) : M Z :=
  ok ← gets (user_write_range_ok buf len);
  if (buf =? 0) || (len =? 0) || negb ok then mret AEGIS_EINVAL
  else if fd =? 0 then read_uart (Z.to_nat len) buf 0
  else
    pid ← gets getpid;
    if AEGIS_SOCKET_FD_BASE <=? fd then read_socket (Z.to_nat len) pid (s32 fd) buf len 0
    else
      e ← gets (λ s, fd_get pid (s32 fd) false (k_fds (sy_k s)));
      match e with
      | None => mret AEGIS_ENOENT
      | Some (vn, _) => read_file (Z.to_nat len) pid (s32 fd) vn buf len 0
      end.

Fixpoint write_uart (n : nat) (buf len off : Z) : M Z :=
  if off <? len then
    match n with
    | O => stuck
    | S n =>
        r ← copy_from_user_checked (u64 (buf + off)) (io_chunk (len - off));
        match r with
        | inl rc => mret rc
        | inr tmp =>
            upd (λ s, s <| sy_uart_out ::= λ o, o ++ tmp |>);;
            write_uart n buf len (off + io_chunk (len - off))
        end
    end
  else mret len.

(** Both loops end with an error or a short transfer when nothing is taken. *)
Fixpoint write_socket (n : nat) (pid fd buf len done : Z) : M Z :=
  if done <? len then
    match n with
    | O => stuck
    | S n =>
        let chunk := io_chunk (len - done) in
        r ← copy_from_user_checked (u64 (buf + done)) chunk;
        match r with
        | inl rc => mret rc
        | inr tmp =>
            sent ← on_socks (net_socket_send pid fd tmp);
            if sent <? 0 then mret (partial done sent)
            else if sent <? chunk then mret (done + sent)
            else write_socket n pid fd buf len (done + sent)
        end
    end
  else mret done.

Fixpoint write_file (n : nat) (pid fd : Z) (vn : nat) (buf len done : Z) : M Z :=
  if done <? len then
    match n with
    | O => stuck
    | S n =>
        let chunk := io_chunk (len - done) in
        r ← copy_from_user_checked (u64 (buf + done)) chunk;
        match r with
        | inl rc => mret rc
        | inr tmp =>
            off ← gets (offset_at pid fd);
            wrote ← file_write vn off tmp;
            if wrote <? 0 then mret (partial done wrote)
            else
              upd (advance pid fd wrote);;
              if wrote <? chunk then mret (done + wrote) else write_file n pid fd vn buf len (done + wrote)
        end
    end
  else mret done.

Definition sys_write (fd buf len : Z) : M Z :=
  ok ← gets (user_read_range_ok buf len);
  if (buf =? 0) || (len =? 0) || negb ok then mret AEGIS_EINVAL
  else if (fd =? 1) || (fd =? 2) then write_uart (Z.to_nat len) buf len 0
  else
    pid ← gets getpid;
    if AEGIS_SOCKET_FD_BASE <=? fd then write_socket (Z.to_nat len) pid (s32 fd) buf len 0
    else
      e ← gets (λ s, fd_get pid (s32 fd) true (k_fds (sy_k s)));
      match e with
      | None => mret AEGIS_ENOENT
      | Some (vn, _) => write_file (Z.to_nat len) pid (s32 fd) vn buf len 0
      end.

(** ** Files, memory, messages and capabilities *)

Definition sys_open (path_ptr : Z) : M Z :=
  r ← copy_string_from_user AEGIS_SYSCALL_PATH_MAX path_ptr;
  match r with
  | inl rc => mret rc
  | inr path => λ s,
      let k := sy_k s in
      let '(vn, v) := vfs_open (m_vfs mc) (Some path) (k_vfs k) in
      match vn with
      | None => Some (AEGIS_ENOENT, s <| sy_k := k <| k_vfs := v |> |>)
      | Some _ =>
          let '(fd, t) := fd_install (getpid s) vn true true (k_fds k) in
          let v := if fd <? 0 then vfs_close vn v else v in
          Some (fd, s <| sy_k := (k <| k_vfs := v |>) <| k_fds := t |> |>)
      end
  end.

Definition sys_close (fd : Z) : M Z :=
  if fd <=? 2 then mret AEGIS_OK
  else
    pid ← gets getpid;
    if AEGIS_SOCKET_FD_BASE <=? fd then on_socks (net_socket_close pid (s32 fd))
    else λ s,
      let k := sy_k s in
      let '(rc, t, v) := fd_close pid (s32 fd) (k_fds k) (k_vfs k) in
      Some (rc, s <| sy_k := (k <| k_vfs := v |>) <| k_fds := t |> |>).

(** The result is seen only when there is no current task. *)
Definition sys_exit (code : Z) : M Z :=
  on_procs (λ p k, '(p, k) ← process_exit (s32 code) p k; Some (0, p, k)).

Definition sys_getpid : M Z := gets getpid.

(** The loop over pages [i, pages). *)
Fixpoint mmap_loop (n : nat) (va vm_flags : Z) : M Z :=
  match n with
  | O => mret AEGIS_OK
  | S n => λ s,
      let '(pa, al) := pa_alloc (vm_alloc (sy_vm s)) in
      let s := s <| sy_vm ::= λ v, v <| vm_alloc := al |> |> in
      if pa =? 0 then Some (AEGIS_ENOMEM, s)
      else
        '(rc, v) ← virt_map 1 (m_pgtable mc) va pa PAGE_SIZE vm_flags (sy_vm s);
        let s := s <| sy_vm := v |> in
        if negb (rc =? AEGIS_OK) then Some (rc, s) else mmap_loop n (u64 (va + PAGE_SIZE)) vm_flags s
  end.

Definition sys_mmap (addr length prot : Z) : M Z :=
  let want_write := has_flag prot 2 in
  let want_exec := has_flag prot 4 in
  let pages := u64 (length + PAGE_SIZE - 1) / PAGE_SIZE in
  let map_len := u64 (pages * PAGE_SIZE) in
  let va := if negb (addr =? 0) then addr else AEGIS_USER_HEAP_BASE + AEGIS_USER_HEAP_SIZE / 2 in
  ok ← gets (user_write_range_ok va map_len);
  if length =? 0 then mret AEGIS_EINVAL
  else if want_write && want_exec then mret AEGIS_EPERM
  else if negb (Z.land va (PAGE_SIZE - 1) =? 0) then mret AEGIS_EINVAL
  else if negb ok then mret AEGIS_EINVAL
  else
    let vm_flags := Z.lor AEGIS_VM_USER AEGIS_VM_READ in
    let vm_flags := if want_write || (prot =? 0) then Z.lor vm_flags AEGIS_VM_WRITE else vm_flags in
    let vm_flags := if want_exec then Z.lor vm_flags AEGIS_VM_EXEC else vm_flags in
    rc ← mmap_loop (Z.to_nat pages) va vm_flags;
    mret (if rc =? AEGIS_OK then va else rc).

Definition sys_munmap (addr length : Z) : M Z :=
  ok ← gets (user_write_range_ok addr length);
  if (addr =? 0) || (length =? 0) || negb ok then mret AEGIS_EINVAL
  else λ s,
    '(_, v) ← virt_unmap (Z.to_nat (length / PAGE_SIZE + 1)) (m_pgtable mc) addr length (sy_vm s);
    Some (AEGIS_OK, s <| sy_vm := v |>).

(** [scheduler_current()->tid] *)
Definition current_tid (s : sys) : Z :=
  let k := k_sched (sy_k s) in
  if scheduler_current k =? 0 then 0 else from_option t_tid 0 (tasks k !! scheduler_current k).

Definition sys_send_msg (channel_id data_ptr data_len : Z) : M Z :=
  ok ← gets (user_read_range_ok data_ptr data_len);
  if (data_ptr =? 0) || (data_len =? 0) || (AEGIS_SYSCALL_MSG_MAX <? data_len) then mret AEGIS_EINVAL
  else if negb ok then mret AEGIS_EINVAL
  else
    ch ← gets (λ s, channel_get (u32 channel_id) (sy_ipc s));
    match ch with
    | None => mret AEGIS_ENOENT
    | Some _ =>
        r ← copy_from_user_checked data_ptr data_len;
        tid ← gets current_tid;
        match r with
        | inl rc => mret rc
        | inr msg =>
            on_ipc (λ i, let '(rc, q) := ipc_send tid (u32 channel_id) (Some msg) data_len (queues i) in (rc, i <| queues := q |>))
        end
    end.

Definition sys_recv_msg (channel_id buf_ptr buf_len : Z) : M Z :=
  ok ← gets (user_write_range_ok buf_ptr buf_len);
  if (buf_ptr =? 0) || (buf_len =? 0) || (AEGIS_SYSCALL_MSG_MAX <? buf_len) then mret AEGIS_EINVAL
  else if negb ok then mret AEGIS_EINVAL
  else
    ch ← gets (λ s, channel_get (u32 channel_id) (sy_ipc s));
    match ch with
    | None => mret AEGIS_ENOENT
    | Some _ =>
        '(got, msg) ← on_ipc (λ i,
          let '(got, msg, q) := ipc_recv (u32 channel_id) (replicate (Z.to_nat AEGIS_SYSCALL_MSG_MAX) 0) buf_len (queues i) in
          ((got, msg), i <| queues := q |>));
        if got <? 0 then mret got
        else
          rc ← copy_to_user_checked buf_ptr (take (Z.to_nat got) msg);
          mret (if rc =? AEGIS_OK then got else rc)
    end.

Definition sys_cap_grant (target_pid cap_token : Z) : M Z := λ s,
  if (target_pid =? 0) || (cap_token =? NULL_CAP) then Some (AEGIS_EINVAL, s)
  else if negb (cap_is_valid cap_token (sy_caps s)) then Some (AEGIS_EINVAL, s)
  else if negb (current_process_may_manage_cap cap_token s) then Some (AEGIS_EPERM, s)
  else
    let '(rc, p) := process_grant_cap (u32 target_pid) cap_token (sy_procs s) in
    Some (rc, s <| sy_procs := p |>).

Definition sys_cap_revoke (target_pid cap_token : Z) : M Z := λ s,
  if (target_pid =? 0) || (cap_token =? NULL_CAP) then Some (AEGIS_EINVAL, s)
  else if negb (cap_is_valid cap_token (sy_caps s)) then Some (AEGIS_EINVAL, s)
  else if negb (current_process_may_manage_cap cap_token s) then Some (AEGIS_EPERM, s)
  else
    let '(ret, p) := process_revoke_cap (u32 target_pid) cap_token (sy_procs s) in
    let s := s <| sy_procs := p |> in
    if negb (ret =? AEGIS_OK) then Some (ret, s)
    else let '(rc, c) := cap_revoke cap_token (sy_caps s) in Some (rc, s <| sy_caps := c |>).

Definition yield : M () := λ s,
  k ← scheduler_yield (k_sched (sy_k s)); Some (tt, s <| sy_k ::= λ w, w <| k_sched := k |> |>).
Definition sys_yield : M Z := yield;; mret AEGIS_OK.

(** ** Processes *)

(** [elf_loader_load_vfs_path] with the file system switch. *)
Definition load_vfs_path (path : string) : M (Z + elf_image_info) := λ s,
  let k := sy_k s in
  if negb (loader_initialised (k_elf k)) then Some (inl AEGIS_EINVAL, s)
  else
    let '(vn, v) := vfs_open (m_vfs mc) (Some path) (k_vfs k) in
    '(file, v, w) ←
      match vn with
      | None => Some (None, v, sy_files s)
      | Some _ =>
          '(n, buf, w) ← vfs_read (m_vfs mc) vn 0 true AEGIS_ELF_IMAGE_BUF_MAX v (sy_files s);
          Some (Some (if n <=? 0 then [] else take (Z.to_nat n) buf), vfs_close vn v, w)
      end;
    '(r, e) ← elf_loader_load_vfs_path (m_image mc) (m_stack mc) (λ _ _, file) (Some path) (k_elf k);
    Some (r, s <| sy_files := w |> <| sy_k := (k <| k_vfs := v |>) <| k_elf := e |> |>).

(** The arrays of a slot as the loader leaves them, at their addresses. *)
Definition show_slot (id : Z) (s : sys) : sys :=
  match runtime_slots (k_elf (sy_k s)) !! Z.to_nat (id - 1) with
  | Some sl =>
      s <| sy_mem ::= λ m, store_bytes (m_stack mc id) (take (Z.to_nat AEGIS_USER_STACK_SIZE) (stack_backing sl))
                             (store_bytes (m_image mc id) (take (Z.to_nat AEGIS_ELF_RUNTIME_IMAGE_MAX) (image_backing sl)) m) |>
  | None => s
  end.

Definition image_of (i : elf_image_info) : user_image :=
  mk_image (runtime_entry i) (text_kernel_backing i) (text_memsz i) (runtime_stack_base i) (runtime_stack_size i) (runtime_slot i).
Definition placement_of (i : elf_image_info) : placement :=
  mk_placement (runtime_entry i) (text_kernel_backing i) (text_memsz i) (runtime_stack_base i) (runtime_stack_size i).

Definition kill (pid signal : Z) : M Z := on_procs (process_kill pid signal).

(** From the return of [userland_note_native_process_spawn] on. *)
Definition spawn_supervise (f : userland_feature) (pid : Z) (supervised_restart : bool) : M Z :=
  let is_control_plane := c_streq (uf_name f) "service-manager" || c_streq (uf_name f) "aegisd" in
  let policy := if is_control_plane then Z.lor POLICY_RESTART_ON_FAULT (Z.lor POLICY_REQUIRED POLICY_CONTROL_PLANE)
                else POLICY_RESTART_ON_FAULT in
  rc ← on_sup (service_supervisor_native_register_starting (Some (uf_name f)) (uf_service_id f) pid policy);
  if negb (rc =? AEGIS_OK) then kill pid 9;; mret rc
  else if supervised_restart then
    now ← gets (λ s, k_clock (sy_k s));
    rc ← on_sup (service_supervisor_note_restart (Some (uf_name f)) pid now);
    mret (if negb (rc =? AEGIS_OK) then rc else pid)
  else mret pid.

(** From the call of [elf_loader_load_vfs_path] on. *)
Definition spawn_image (f : userland_feature) (path : string) (supervised_restart : bool) : M Z :=
  r ← load_vfs_path path;
  match r with
  | inl rc => mret rc
  | inr image =>
      upd (show_slot (runtime_slot image));;
      ppid ← gets getpid;
      child ← on_procs (process_spawn_user_image (m_task_entry mc) (Some (uf_name f)) (image_of image) ppid);
      match child with
      | None =>
          on_procs (λ p k, let '(rc, k) := pe_release_slot (runtime_slot image) k in Some (rc, p, k));;
          mret AEGIS_ENOMEM
      | Some _ =>
          pid ← gets (λ s, process_pid child (sy_procs s));
          rc ← on_user (userland_note_native_process_spawn (Some (uf_name f)) (Some path) pid (placement_of image));
          if negb (rc =? AEGIS_OK) then kill pid 9;; mret rc
          else if negb (uf_service_id f =? 0) then spawn_supervise f pid supervised_restart
          else mret pid
      end
  end.

Definition sys_spawn (path_ptr : Z) : M Z :=
  r ← copy_string_from_user AEGIS_SYSCALL_PATH_MAX path_ptr;
  match r with
  | inl rc => mret rc
  | inr path =>
      u ← gets (λ s, k_user (sy_k s));
      match userland_find_feature_by_path (Some path) u ≫= (features u !!.) with
      | None => mret AEGIS_ENOENT
      | Some f =>
          if Z.land (uf_flags f) FLAG_PROCESS =? 0 then mret AEGIS_ENOENT
          else if negb (uf_live_pid f =? 0) then mret AEGIS_EBUSY
          else
            restart ← gets (λ s, negb (uf_service_id f =? 0) &&
                                 negb (bool_decide (service_supervisor_find (Some (uf_name f)) (k_sup (sy_k s)) = None)));
            now ← gets (λ s, k_clock (sy_k s));
            allowed ← if restart : bool then on_sup (λ u, let '(rc, _, u) := service_supervisor_restart_allowed (Some (uf_name f)) now u in (rc, u))
                      else mret AEGIS_OK;
            if negb (allowed =? AEGIS_OK) then mret allowed else spawn_image f path restart
      end
  end.

Definition sys_waitpid (pid exit_code_ptr options : Z) : M Z :=
  if negb ((pid =? MAX_U64) || (pid =? 0xffffffff)) && (pid =? 0) then mret AEGIS_EINVAL
  else
    '(rc, reaped_pid, code) ←
      (if (pid =? MAX_U64) || (pid =? 0xffffffff) then
         me ← gets getpid;
         '(rc, r) ← on_procs (λ p k, '(rc, r, p, k) ← process_wait_any me p k; Some ((rc, r), p, k));
         mret (rc, from_option fst (u32 pid) r, from_option snd 0 r)
       else
         '(rc, r) ← on_procs (λ p k, '(rc, r, p, k) ← process_wait (u32 pid) p k; Some ((rc, r), p, k));
         mret (if rc =? AEGIS_EBUSY then AEGIS_EAGAIN else rc, u32 pid, default 0 r));
    if (rc =? AEGIS_EAGAIN) && has_flag options AEGIS_WAIT_NOHANG then mret 0
    else if (rc =? AEGIS_OK) && negb (exit_code_ptr =? 0) then
      cr ← copy_to_user_checked exit_code_ptr (le 4 (u32 code));
      mret (if negb (cr =? AEGIS_OK) then cr else reaped_pid)
    else mret (if rc =? AEGIS_OK then reaped_pid else rc).

Definition sys_getppid : M Z := gets (λ s, process_getppid (sy_procs s) (sy_k s)).
Definition sys_gettid : M Z := gets current_tid.

Definition sys_service_id (name_ptr : Z) : M Z :=
  r ← copy_string_from_user AEGIS_USERLAND_NAME_MAX name_ptr;
  match r with
  | inl rc => mret rc
  | inr name =>
      id ← gets (λ s, userland_feature_id_by_name (Some name) (k_user (sy_k s)));
      mret (if negb (id =? 0) then id else AEGIS_ENOENT)
  end.

Definition sys_channel_open (name_ptr : Z) : M Z :=
  r ← copy_string_from_user AEGIS_NAMED_CHANNEL_NAME_MAX name_ptr;
  match r with
  | inl rc => mret rc
  | inr name =>
      owner ← gets getpid;
      if owner =? 0 then mret AEGIS_EPERM else on_ipc (channel_open_named (Some name) owner)
  end.

Definition sys_service_ready (name_ptr : Z) : M Z :=
  r ← copy_string_from_user AEGIS_USERLAND_NAME_MAX name_ptr;
  match r with
  | inl rc => mret rc
  | inr name =>
      pid ← gets getpid;
      cur ← gets current_name;
      if bool_decide (cur = None) || (pid =? 0) || negb (c_streq name (default EmptyString cur)) then mret AEGIS_EPERM
      else
        rc ← on_user (userland_mark_feature_native_running name pid);
        if negb (rc =? AEGIS_OK) then mret rc
        else if negb (pid =? 1) then
          rc ← on_sup (service_supervisor_native_mark_running (Some name) pid);
          mret (if negb (rc =? AEGIS_OK) && negb (rc =? AEGIS_ENOENT) then rc else AEGIS_OK)
        else mret AEGIS_OK
  end.

Definition is_running (name : string) (s : sys) : bool :=
  match service_supervisor_find (Some name) (k_sup (sy_k s)) ≫= (supervised (k_sup (sy_k s)) !!.) with
  | Some v => bool_decide (sv_state v = SUPERVISED_RUNNING)
  | None => false
  end.
(** [!name || !kernel_str_eq(name, "service-manager")] *)
Definition not_manager (s : sys) : bool := negb (from_option (λ n, c_streq n "service-manager") false (current_name s)).

Definition sys_console_ready : M Z := λ s,
  if not_manager s then Some (AEGIS_EPERM, s)
  else if negb (is_running "service-manager" s) || negb (is_running "aegisd" s) then Some (AEGIS_EBUSY, s)
  else Some (AEGIS_OK, s <| sy_released := true |>).

Definition sys_kill (pid signal : Z) : M Z :=
  if (pid =? 0) || (signal =? 0) || (64 <? signal) then mret AEGIS_EINVAL
  else
    caller ← gets getpid;
    target ← gets (λ s, process_get (u32 pid) (sy_procs s));
    parent ← gets (λ s, process_parent_pid target (sy_procs s));
    stranger ← gets not_manager;
    if bool_decide (target = None) then mret AEGIS_ENOENT
    else if negb (caller =? 1) && negb (caller =? u32 pid) && negb (parent =? caller) && stranger then mret AEGIS_EPERM
    else kill (u32 pid) signal.

(** ** Time, power, sockets and random numbers *)

(** A reading of the clock; the model ends when there are no more. *)
Definition now_ns : M Z := λ s,
  match sy_counter s with
  | [] => None
  | c :: l => Some (monotonic_nanoseconds c (m_freq mc), s <| sy_counter := l |>)
  end.

(** One unit of fuel per reading. *)
Fixpoint sleep_loop (n : nat) (deadline : Z) : M Z :=
  match n with
  | O => stuck
  | S n => now ← now_ns; if now <? deadline then yield;; sleep_loop n deadline else mret AEGIS_OK
  end.
Definition sys_sleep (milliseconds : Z) : M Z :=
  if 86400000 <? milliseconds then mret AEGIS_EINVAL
  else
    now ← now_ns;
    n ← gets (λ s, length (sy_counter s));
    sleep_loop n (u64 (now + milliseconds * 1000000)).

Definition timespec (seconds nanoseconds : Z) : list Z := le 8 seconds ++ le 8 nanoseconds.
Definition sys_clock_get (clock_id timespec_ptr : Z) : M Z :=
  if timespec_ptr =? 0 then mret AEGIS_EINVAL
  else if clock_id =? AEGIS_CLOCK_MONOTONIC then
    ns ← now_ns; copy_to_user_checked timespec_ptr (timespec (ns / 1000000000) (ns mod 1000000000))
  else if clock_id =? AEGIS_CLOCK_REALTIME then
    rtc ← gets sy_rtc;
    match rtc with
    | None => mret AEGIS_ENOENT
    | Some sec => copy_to_user_checked timespec_ptr (timespec (u32 sec) 0)
    end
  else mret AEGIS_EINVAL.

(** power.c *)
Definition system_shutdown_request (requester_pid reason : Z) : M () :=
  p ← gets sy_power;
  if g_requested p then mret tt
  else
    upd (λ s, s <| sy_power := mk_power true requester_pid reason (pw_halted p) |>);;
    on_procs (process_terminate_all_except requester_pid 15);;
    mret tt.
(** These do not return; the result 0 is never seen. *)
Definition system_shutdown_commit : M Z := λ s,
  Some (0, s <| sy_files ::= m_flush mc |> <| sy_power ::= λ p, p <| pw_halted := Some PSCI_SYSTEM_OFF |> |>).
Definition system_reboot_commit : M Z := λ s, Some (0, s <| sy_power ::= λ p, p <| pw_halted := Some PSCI_SYSTEM_RESET |> |>).

Definition sys_shutdown (mode reason : Z) : M Z :=
  pid ← gets getpid;
  stranger ← gets not_manager;
  if negb (pid =? 1) && stranger then mret AEGIS_EPERM
  else
    on_sup (λ u, (tt, service_supervisor_begin_shutdown u));;
    system_shutdown_request pid (u32 reason);;
    if mode =? AEGIS_SHUTDOWN_REBOOT then system_reboot_commit
    else if mode =? AEGIS_SHUTDOWN_POWEROFF then system_shutdown_commit
    else mret AEGIS_EINVAL.

Definition poll_network : M () := on_socks (λ k, k ← poll k; Some (tt, k)).

Definition sys_socket (type : Z) : M Z := pid ← gets getpid; on_socks (λ k, Some (net_socket_create pid (u32 type) k)).
Definition sys_bind (fd port : Z) : M Z := pid ← gets getpid; on_socks (net_socket_bind pid (s32 fd) (u16 port)).
Definition sys_listen (fd : Z) : M Z := pid ← gets getpid; on_socks (net_socket_listen pid (s32 fd)).
Definition sys_accept (fd : Z) : M Z := poll_network;; pid ← gets getpid; on_socks (net_socket_accept pid (s32 fd)).
Definition sys_connect (fd ip port : Z) : M Z :=
  pid ← gets getpid; on_socks (net_socket_connect pid (s32 fd) (u32 ip) (u16 port)).
Definition sys_send (fd buf len : Z) : M Z := sys_write fd buf len.
Definition sys_recv (fd buf len : Z) : M Z := poll_network;; sys_read fd buf len.

Fixpoint random_loop (n : nat) (buf len done : Z) (strong : bool) : M Z :=
  if done <? len then
    match n with
    | O => stuck
    | S n =>
        let chunk := io_chunk (len - done) in
        '(rc, tmp) ← on_entropy (λ e, let '(rc, tmp, e) := entropy_get chunk strong e in ((rc, tmp), e));
        if negb (rc =? AEGIS_OK) then mret (partial done rc)
        else
          rc ← copy_to_user_checked (u64 (buf + done)) (take (Z.to_nat chunk) tmp);
          if negb (rc =? AEGIS_OK) then mret rc else random_loop n buf len (done + chunk) strong
    end
  else mret done.

Definition sys_random (buf len flags : Z) : M Z :=
  ok ← gets (user_write_range_ok buf len);
  if (buf =? 0) || (len =? 0) || (65536 <? len) || negb ok then mret AEGIS_EINVAL
  else random_loop (Z.to_nat len) buf len 0 (has_flag flags 1).

(** ** Dispatch *)

Definition sys_unimplemented : M Z := mret AEGIS_EINVAL.
Definition NR_SYSCALLS : Z := 33.

(** [syscall_table_init] *)
Definition syscall_table (nr a0 a1 a2 : Z) : M Z :=
  match nr with
  | 0 => sys_read a0 a1 a2
  | 1 => sys_write a0 a1 a2
  | 2 => sys_open a0
  | 3 => sys_close a0
  | 4 => sys_exit a0
  | 5 => sys_getpid
  | 6 => sys_mmap a0 a1 a2
  | 7 => sys_munmap a0 a1
  | 8 => sys_send_msg a0 a1 a2
  | 9 => sys_recv_msg a0 a1 a2
  | 10 => sys_cap_grant a0 a1
  | 11 => sys_cap_revoke a0 a1
  | 12 => sys_yield
  | 13 => sys_spawn a0
  | 14 => sys_waitpid a0 a1 a2
  | 15 => sys_getppid
  | 16 => sys_gettid
  | 17 => sys_service_id a0
  | 18 => sys_channel_open a0
  | 19 => sys_service_ready a0
  | 20 => sys_console_ready
  | 21 => sys_kill a0 a1
  | 22 => sys_sleep a0
  | 23 => sys_clock_get a0 a1
  | 24 => sys_shutdown a0 a1
  | 25 => sys_socket a0
  | 26 => sys_bind a0 a1
  | 27 => sys_listen a0
  | 28 => sys_accept a0
  | 29 => sys_connect a0 a1 a2
  | 30 => sys_send a0 a1 a2
  | 31 => sys_recv a0 a1 a2
  | 32 => sys_random a0 a1 a2
  | _ => sys_unimplemented
  end.

(** No handler uses the last three arguments. *)
Definition syscall_dispatch (nr a0 a1 a2 : Z) : M Z :=
  if NR_SYSCALLS <=? nr then mret AEGIS_EINVAL else syscall_table nr a0 a1 a2.
End syscalls.
