(* ===== verification/SyscallSafety.v ===== *)
(** What the system calls guarantee, whatever the arguments: memory is written
    only where the caller may write ([syscall_memory_safety]), the descriptors and
    sockets of other processes stay as they are ([syscall_isolation]), processes are
    ended only by those entitled to ([process_authority]), capabilities are passed
    on only by their holders ([capability_confinement]), the process numbers stay
    unique ([dispatch_inv]), and a read returns the bytes of the file
    ([sys_read_file]).

    The proofs go through relations between the states before and after that every
    step of a handler keeps ([stable]). *)

From S2P Require Import Prelude PhysMem PageTable Heap Message Channel Capability Scheduler Elf Vfs FdTable Supervisor.
From S2P Require Import Links Checksum Packet Routing Firewall Arp Net Udp Tcp Rx Socket Services Userland Process Entropy Initramfs Syscall.

Section syscalls.
Context {H A V : Type} `{KernelHeap H} `{PageAllocator A} {mc : machine V}.
Local Abbreviation M := (M H A V).
Local Abbreviation sys := (sys H A V).
Implicit Types s : sys.

(** * Containment *)

(** ** Relations kept by a handler *)

Definition stable {R} (P : sys → sys → Prop) (m : M R) : Prop := ∀ s x s', m s = Some (x, s') → P s s'.

Lemma stable_ret {R} P `{!Reflexive P} (x : R) : stable P (mret x).
Proof. intros s y s' [= _ <-]. done. Qed.
Lemma stable_gets {R} P `{!Reflexive P} (f : sys → R) : stable P (gets f).
Proof. intros s y s' [= _ <-]. done. Qed.
Lemma stable_stuck {R} P : stable P (stuck (R := R)).
Proof. done. Qed.
Lemma stable_upd P f : (∀ s, P s (f s)) → stable P (upd f).
Proof. intros Hf s x s' [= _ <-]. done. Qed.
Lemma stable_bind {R S} P `{!Transitive P} (m : M R) (k : R → M S) : stable P m → (∀ x, stable P (k x)) → stable P (m ≫= k).
Proof.
  intros Hm Hk s y s'. unfold mbind, M_bind. destruct (m s) as [[x s1]|] eqn:E; [|done]. intros E'. etrans; [by eapply Hm|by eapply Hk].
Qed.
(** With a fact about the result of the first step. *)
Lemma stable_bind_post {R S} P `{!Transitive P} (Q : R → Prop) (m : M R) (k : R → M S) :
  stable P m → (∀ s x s', m s = Some (x, s') → Q x) → (∀ x, Q x → stable P (k x)) → stable P (m ≫= k).
Proof.
  intros Hm HQ Hk s y s'. unfold mbind, M_bind. destruct (m s) as [[x s1]|] eqn:E; [|done]. intros E'. etrans; [by eapply Hm|]. eapply Hk; [by eapply HQ|done].
Qed.
Lemma stable_mono {R} (P Q : sys → sys → Prop) (m : M R) : (∀ s s', P s s' → Q s s') → stable P m → stable Q m.
Proof. intros HPQ Hm s x s' E. apply HPQ. by eapply Hm. Qed.

(** ** What a call that is not about processes may change *)

(** The caller may store a byte at [x]. *)
Definition writable (s : sys) (x : Z) : Prop := user_write_range_ok x 1 s = true.

(** The processes, their programs and the running task are the same; the memory
    changes only where the caller may write; the descriptors and the sockets of
    the other processes are untouched. *)
Record contained (s s' : sys) : Prop := {
  co_procs : sy_procs s' = sy_procs s;
  co_elf : k_elf (sy_k s') = k_elf (sy_k s);
  co_sched : k_sched (sy_k s') = k_sched (sy_k s);
  co_mem x : sy_mem s' x = sy_mem s x ∨ writable s x;
  co_fds pid : Z.to_nat pid ≠ Z.to_nat (getpid s) → fd_row pid (k_fds (sy_k s')) = fd_row pid (k_fds (sy_k s));
  co_socks : others (getpid s) (k_socks (sy_k s')) = others (getpid s) (k_socks (sy_k s));
}.

Lemma getpid_same s s' :
  sy_procs s' = sy_procs s → scheduler_current (k_sched (sy_k s')) = scheduler_current (k_sched (sy_k s)) → getpid s' = getpid s.
Proof. unfold getpid, process_getpid, process_current. cbn [pe_current kernel_env]. by intros -> ->. Qed.

Lemma writable_same s s' x n :
  sy_procs s' = sy_procs s → k_elf (sy_k s') = k_elf (sy_k s) → scheduler_current (k_sched (sy_k s')) = scheduler_current (k_sched (sy_k s)) →
  user_write_range_ok x n s' = user_write_range_ok x n s.
Proof.
  intros Hp He Hc. unfold user_write_range_ok. rewrite (getpid_same s s') by done. rewrite He.
  unfold process_current_user_write_range_ok, process_current. cbn [pe_current pe_slot_write_ok kernel_env]. by rewrite Hp, He, Hc.
Qed.

#[local] Instance contained_refl : Reflexive contained.
Proof. intros s. split; try done. by left. Qed.
#[local] Instance contained_trans : Transitive contained.
Proof.
  intros s t u [Hp He Hc Hm Hf Hs] [Hp' He' Hc' Hm' Hf' Hs']. assert (getpid t = getpid s) as Hg by (apply getpid_same; [done|by rewrite Hc]).
  rewrite Hg in *. split; try congruence.
  - intros x. destruct (Hm' x) as [->|Hw]; [apply Hm|]. right. unfold writable in *. rewrite <- Hw. symmetry. apply writable_same; [done..|by rewrite Hc].
  - intros pid Hd. rewrite Hf' by done. by apply Hf.
Qed.

(** A register holds a 64-bit value. *)
Definition reg (x : Z) : Prop := 0 ≤ x < 2 ^ 64.

(** A range that is accepted does not wrap, and its parts are accepted. *)
Lemma range_inside_sub p l base size q n :
  range_inside p l base size = true → reg p → l < 2 ^ 64 → p ≤ q → 0 < n → q + n ≤ p + l → p + l < 2 ^ 64 ∧ range_inside q n base size = true.
Proof.
  unfold range_inside, reg. intros E Hp Hl Hq Hn Hx. destruct (_ || _ || _ || _) eqn:E0; [done|]. cbn zeta in *.
  destruct (_ || _) eqn:E1 in E; [done|]. repeat (apply orb_false_iff in E0 as [E0 ?]). apply orb_false_iff in E1 as [E1 E2].
  apply andb_true_iff in E as [E3 E4]. assert (p + l < 2 ^ 64) by (unfold u64 in *; divlia). split; [done|]. rewrite (u64_small (p + l)) in * by lia.
  rewrite (u64_small (q + n)) by lia. replace (_ || _ || _ || _) with false by lia. replace (_ || _) with false by lia. lia.
Qed.

Lemma full_range_inside_sub p l base size q n :
  full_range_inside p l base size = true → reg p → l < 2 ^ 64 → p ≤ q → 0 < n → q + n ≤ p + l → p + l < 2 ^ 64 ∧ full_range_inside q n base size = true.
Proof.
  unfold full_range_inside, reg. intros E Hp Hl Hq Hn Hx. destruct (_ || _ || _) eqn:E0; [done|]. cbn zeta in *.
  destruct (_ || _) eqn:E1 in E; [done|]. repeat (apply orb_false_iff in E0 as [E0 ?]). apply orb_false_iff in E1 as [E1 E2].
  apply andb_true_iff in E as [E3 E4]. assert (p + l < 2 ^ 64) by (unfold u64 in *; divlia). split; [done|]. rewrite (u64_small (p + l)) in * by lia.
  rewrite (u64_small (q + n)) by lia. replace (_ || _ || _) with false by lia. replace (_ || _) with false by lia. lia.
Qed.

Lemma slot_range_sub id p l e q n :
  elf_loader_slot_write_range_ok id p l e = true → reg p → l < 2 ^ 64 → p ≤ q → 0 < n → q + n ≤ p + l →
  p + l < 2 ^ 64 ∧ elf_loader_slot_write_range_ok id q n e = true.
Proof.
  unfold elf_loader_slot_write_range_ok. destruct (runtime_slot_from_id id e) as [sl|]; [|done]. unfold slot_range_ok. rewrite !orb_true_iff.
  intros [E|E] Hp Hl Hq Hn Hx; [destruct (full_range_inside_sub _ _ _ _ _ _ E Hp Hl Hq Hn Hx); auto|].
  apply existsb_exists in E as (g & Hg & [Hfl Hr]%andb_true_iff). destruct (full_range_inside_sub _ _ _ _ _ _ Hr Hp Hl Hq Hn Hx).
  split; [done|]. right. apply existsb_exists. exists g. split; [done|]. by rewrite Hfl.
Qed.

Lemma user_write_range_ok_sub p l s q n :
  user_write_range_ok p l s = true → reg p → l < 2 ^ 64 → p ≤ q → 0 < n → q + n ≤ p + l →
  p + l < 2 ^ 64 ∧ user_write_range_ok q n s = true.
Proof.
  intros E Hp Hl Hq Hn Hx. unfold user_write_range_ok, elf_loader_runtime_write_range_ok, process_current_user_write_range_ok in *.
  cbn [pe_slot_write_ok kernel_env] in *. assert (∀ base size, range_inside p l base size = true → p + l < 2 ^ 64 ∧ range_inside q n base size = true) as Hr.
  { intros base size Hb. by eapply range_inside_sub. }
  assert (∀ id, elf_loader_slot_write_range_ok id p l (k_elf (sy_k s)) = true →
            p + l < 2 ^ 64 ∧ elf_loader_slot_write_range_ok id q n (k_elf (sy_k s)) = true) as Hs.
  { intros id Hb. by eapply slot_range_sub. }
  destruct (negb _).
  - case_match; [|done]. rewrite !orb_true_iff in *. destruct E as [E|E]; [destruct (Hs _ E)|destruct (Hr _ _ E)]; tauto.
  - rewrite !orb_true_iff, !andb_true_iff in *. destruct E as [[[E|E]|E]|[? E]]; [destruct (Hr _ _ E)..|destruct (Hs _ E)]; tauto.
Qed.

Lemma user_write_range_ok_byte p l s x :
  user_write_range_ok p l s = true → reg p → l < 2 ^ 64 → p ≤ x < p + l → writable s x.
Proof. intros E Hp Hl Hx. apply (user_write_range_ok_sub _ _ _ x 1 E); [done|done|lia..]. Qed.

Lemma copy_to_user_contained dst src : reg dst → Z.of_nat (length src) < 2 ^ 64 → stable contained (copy_to_user_checked dst src).
Proof.
  intros Hd Hl s rc s'. unfold copy_to_user_checked. destruct (_ || _) eqn:E; intros [= <- <-]; [done|].
  apply orb_false_iff in E as [_ E%negb_false_iff]. split; try done. intros x. cbn. unfold store_bytes.
  destruct (_ && _) eqn:Ex; [|by left]. right. apply (user_write_range_ok_byte _ _ _ _ E Hd Hl). lia.
Qed.

(** The same, for the calls of the process [pid]. *)
Definition contained_by (pid : Z) (s s' : sys) : Prop := getpid s = pid → contained s s'.
#[local] Instance contained_by_refl pid : Reflexive (contained_by pid).
Proof. by intros s _. Qed.
#[local] Instance contained_by_trans pid : Transitive (contained_by pid).
Proof.
  intros s t u H1' H2' Hp. specialize (H1' Hp). transitivity t; [done|]. apply H2'. rewrite <- Hp. destruct H1' as [Hq _ Hc]. apply getpid_same; [done|by rewrite Hc].
Qed.

Lemma stable_by {R} pid (m : M R) : stable contained m → stable (contained_by pid) m.
Proof. apply stable_mono. by intros s s' ? _. Qed.
Lemma stable_getpid {R} (k : Z → M R) : (∀ pid, stable (contained_by pid) (k pid)) → stable contained (gets getpid ≫= k).
Proof. intros Hk s x s' E. cbn in E. by eapply (Hk (getpid s)). Qed.

Lemma on_socks_contained {R} pid (f : sock_state → option (R * sock_state)) :
  (∀ k r k', f k = Some (r, k') → others pid k' = others pid k) → stable (contained_by pid) (on_socks f).
Proof.
  intros Hf s x s' E Hp. unfold on_socks in E. destruct (f _) as [[r k]|] eqn:Ef; [|done]. injection E as <- <-.
  split; try done; [by left|]. rewrite Hp. by eapply Hf.
Qed.

Lemma contained_misc s s' :
  sy_procs s' = sy_procs s → k_elf (sy_k s') = k_elf (sy_k s) → k_sched (sy_k s') = k_sched (sy_k s) → sy_mem s' = sy_mem s →
  k_fds (sy_k s') = k_fds (sy_k s) → k_socks (sy_k s') = k_socks (sy_k s) → contained s s'.
Proof. intros Hp He Hc Hm Hf Hs. split; try done; rewrite ?Hm, ?Hf, ?Hs; auto. Qed.

Lemma on_sup_contained {R} (f : supervisor → R * supervisor) : stable contained (on_sup f).
Proof. intros s x s'. unfold on_sup. destruct (f _). intros [= <- <-]. by apply contained_misc. Qed.
Lemma on_user_contained {R} (f : userland → option (R * userland)) : stable contained (on_user f).
Proof. intros s x s'. unfold on_user. destruct (f _) as [[]|]; [|done]. intros [= <- <-]. by apply contained_misc. Qed.
Lemma on_ipc_contained {R} (f : ipc_state → R * ipc_state) : stable contained (on_ipc f).
Proof. intros s x s'. unfold on_ipc. destruct (f _). intros [= <- <-]. by apply contained_misc. Qed.
Lemma on_entropy_contained {R} (f : entropy → R * entropy) : stable contained (on_entropy f).
Proof. intros s x s'. unfold on_entropy. destruct (f _). intros [= <- <-]. by apply contained_misc. Qed.
Lemma copy_from_user_contained p l : stable contained (copy_from_user_checked p l).
Proof. by intros s x s' [= _ <-]. Qed.
Lemma copy_string_contained n p : stable contained (copy_string_from_user n p).
Proof. by intros s x s' [= _ <-]. Qed.
Lemma uart_getchar_contained : stable contained uart_getchar.
Proof. intros s x s'. unfold uart_getchar. destruct (sy_uart_in s); intros [= <- <-]; by apply contained_misc. Qed.
Lemma file_read_contained vn off len : stable contained (file_read vn off len).
Proof. intros s x s'. unfold file_read. destruct (vfs_read _ _ _ _ _ _ _) as [[[]]|]; [|done]. intros [= <- <-]. by apply contained_misc. Qed.
Lemma file_write_contained vn off d : stable contained (file_write vn off d).
Proof. intros s x s'. unfold file_write. destruct (vfs_write _ _ _ _ _ _) as [[[]]|]; [|done]. intros [= <- <-]. by apply contained_misc. Qed.
Lemma now_ns_contained : stable contained now_ns.
Proof. intros s x s'. unfold now_ns. destruct (sy_counter s); [done|]. intros [= <- <-]. by apply contained_misc. Qed.
Lemma poll_contained : stable contained poll_network.
Proof.
  intros s x s' E. eapply (on_socks_contained (getpid s)); [|exact E|done]. intros k r k' Ek. cbn beta in Ek.
  bind_inv Ek. injection Ek as _ <-. apply others_ext. by apply poll_sockets.
Qed.
Lemma advance_contained pid fd n : stable (contained_by pid) (upd (advance pid fd n)).
Proof.
  apply stable_upd. intros s Hp. split; try done; [by left|]. intros q Hq. cbn. unfold fd_set_offset. rewrite fd_row_alter.
  rewrite decide_False by congruence. done.
Qed.

Create HintDb contain discriminated.
#[local] Hint Constants Opaque : contain.
#[local] Hint Resolve on_sup_contained on_user_contained on_ipc_contained on_entropy_contained copy_from_user_contained copy_string_contained
  uart_getchar_contained file_read_contained file_write_contained now_ns_contained poll_contained advance_contained : contain.

Lemma reg_u64 x : reg (u64 x).
Proof. apply u64_range. Qed.
Lemma short_take {T} n (l : list T) : n < 2 ^ 64 → Z.of_nat (length (take (Z.to_nat n) l)) < 2 ^ 64.
Proof. rewrite length_take. lia. Qed.
#[local] Hint Resolve reg_u64 : contain.

(** Decomposes a handler into its steps. *)
Ltac contain :=
  repeat lazymatch goal with
  | |- stable _ (mbind _ _) => apply stable_bind; [apply _| |intros ?]
  | |- stable _ (mret _) => exact (stable_ret _ _)
  | |- stable _ (gets _) => exact (stable_gets _ _)
  | |- stable _ stuck => apply stable_stuck
  | |- stable _ (if ?b then _ else _) => destruct b eqn:?
  | |- stable _ (match ?x with _ => _ end) => destruct x eqn:?
  | |- stable (contained_by _) (upd (advance _ _ _)) => apply advance_contained
  | |- stable (contained_by _) (on_socks _) => apply on_socks_contained
  | |- stable (contained_by _) _ => first [solve [eauto with nocore] | apply stable_by]
  | |- stable contained (copy_to_user_checked _ _) => apply copy_to_user_contained
  | |- stable contained _ => solve [eauto with contain]
  end.

Lemma io_chunk_le left : io_chunk left ≤ 128.
Proof. unfold io_chunk, AEGIS_SYSCALL_IO_CHUNK. case_match eqn:E; lia. Qed.

Lemma read_uart_contained n buf i : stable contained (read_uart n buf i).
Proof. revert i. induction n as [|n IH]; intros i; cbn [read_uart]; contain; [apply reg_u64|done]. Qed.

Lemma socket_recv_contained pid fd len : stable (contained_by pid) (socket_recv pid fd len).
Proof.
  apply on_socks_contained. intros k r k' E. cbn beta in E. bind_inv E. destruct p as [[got bytes] k1]. injection E as <- <-. by eapply others_recv.
Qed.

Lemma read_socket_contained n pid fd buf len done : stable (contained_by pid) (read_socket n pid fd buf len done).
Proof.
  revert done. induction n as [|n IH]; intros d; cbn [read_socket]; [contain|].
  destruct (d <? len); [|contain]. apply stable_bind; [apply _|apply socket_recv_contained|]. intros [got tmp].
  pose proof (io_chunk_le (len - d)). destruct (_ && _); [contain|]. destruct (got <? 0); [contain|]. destruct (got =? 0); [contain|].
  destruct (_ <? got) eqn:E; [contain|]. apply stable_bind; [apply _| |intros rc].
  - apply stable_by, copy_to_user_contained; [apply reg_u64|apply short_take; lia].
  - contain.
Qed.

Lemma read_file_contained n pid fd vn buf len done : stable (contained_by pid) (read_file n pid fd vn buf len done).
Proof.
  revert done. induction n as [|n IH]; intros d; cbn [read_file]; [contain|].
  destruct (d <? len); [|contain]. apply stable_bind; [apply _|contain|intros off]. apply stable_bind; [apply _|contain|]. intros [got tmp].
  pose proof (io_chunk_le (len - d)). destruct (got <? 0); [contain|]. destruct (got =? 0); [contain|].
  destruct (_ <? got) eqn:E; [contain|]. apply stable_bind; [apply _| |intros rc].
  - apply stable_by, copy_to_user_contained; [apply reg_u64|apply short_take; lia].
  - contain.
Qed.

Lemma sys_read_contained fd buf len : stable contained (sys_read fd buf len).
Proof.
  unfold sys_read. apply stable_bind; [apply _|contain|intros ok]. destruct (_ || _ || _); [contain|].
  destruct (fd =? 0); [apply read_uart_contained|]. apply stable_getpid. intros pid.
  destruct (_ <=? fd); [apply read_socket_contained|]. apply stable_bind; [apply _|contain|]. intros [[vn o]|]; [apply read_file_contained|contain].
Qed.

Lemma uart_out_contained tmp : stable contained (upd (λ s, s <| sy_uart_out ::= λ o, o ++ tmp |>)).
Proof. apply stable_upd. intros s. by apply contained_misc. Qed.

Lemma write_uart_contained n buf len off : stable contained (write_uart n buf len off).
Proof.
  revert off. induction n as [|n IH]; intros off; cbn [write_uart]; [contain|]. destruct (off <? len); [|contain].
  apply stable_bind; [apply _|contain|]. intros [rc|tmp]; [contain|]. apply stable_bind; [apply _|apply uart_out_contained|intros _]. apply IH.
Qed.

Lemma write_socket_contained n pid fd buf len done : stable (contained_by pid) (write_socket n pid fd buf len done).
Proof.
  revert done. induction n as [|n IH]; intros d; cbn [write_socket]; [contain|]. destruct (d <? len); [|contain].
  apply stable_bind; [apply _|contain|]. intros [rc|tmp]; [contain|]. contain. intros k r k' E; by eapply others_send.
Qed.

Lemma write_file_contained n pid fd vn buf len done : stable (contained_by pid) (write_file n pid fd vn buf len done).
Proof.
  revert done. induction n as [|n IH]; intros d; cbn [write_file]; [contain|]. destruct (d <? len); [|contain].
  apply stable_bind; [apply _|contain|]. intros [rc|tmp]; [contain|]. contain.
Qed.

Lemma sys_write_contained fd buf len : stable contained (sys_write fd buf len).
Proof.
  unfold sys_write. apply stable_bind; [apply _|contain|intros ok]. destruct (_ || _ || _); [contain|].
  destruct (_ || _); [apply write_uart_contained|]. apply stable_getpid. intros pid.
  destruct (_ <=? fd); [apply write_socket_contained|]. apply stable_bind; [apply _|contain|]. intros [[vn o]|]; [apply write_file_contained|contain].
Qed.

Lemma sys_open_contained p : stable contained (sys_open p).
Proof.
  unfold sys_open. contain. intros s0 rc s' E. destruct (vfs_open _ _ _) as [[vn|] v]; [|injection E as <- <-; by apply contained_misc].
  destruct (fd_install _ _ _ _ _) as [fd t] eqn:Ef. injection E as <- <-. split; try done; [by left|]. intros q Hq. cbn.
  unfold fd_install in Ef. destruct (_ || _); [by injection Ef as <- <-|]. destruct (find_slot _ _); injection Ef as <- <-; [|done].
  rewrite fd_row_alter. by rewrite decide_False.
Qed.

Lemma fd_close_contained pid fd :
  stable (contained_by pid) (λ s, let k := sy_k s in let '(rc, t, v) := fd_close pid fd (k_fds k) (k_vfs k) in
                                  Some (rc, s <| sy_k := (k <| k_vfs := v |>) <| k_fds := t |> |>)).
Proof.
  intros s rc s' E Hp. cbn in E. destruct (fd_close _ _ _ _) as [[r t] v] eqn:Ef. injection E as <- <-. split; try done; [by left|]. intros q Hq. cbn.
  unfold fd_close in Ef. destruct (_ || _); [by injection Ef as <- <- <-|]. destruct (fd_lookup _ _ _); injection Ef as <- <- <-; [|done].
  rewrite fd_row_alter, decide_False by congruence. done.
Qed.

Lemma sys_close_contained fd : stable contained (sys_close fd).
Proof.
  unfold sys_close. destruct (fd <=? 2); [contain|]. apply stable_getpid. intros pid. destruct (_ <=? fd); [|apply fd_close_contained].
  contain. intros k r k' E. by eapply others_close.
Qed.

Lemma mmap_loop_contained n va fl : stable contained (mmap_loop n va fl).
Proof.
  revert va. induction n as [|n IH]; intros va; cbn [mmap_loop]; [contain|]. intros s rc s' E.
  destruct (pa_alloc _) as [pa al]. destruct (pa =? 0); [injection E as <- <-; by apply contained_misc|].
  cbn zeta in E. bind_inv E. destruct p as [rc1 v]. destruct (negb _); [injection E as <- <-; by apply contained_misc|].
  etrans; [|by eapply IH]. by apply contained_misc.
Qed.

Lemma sys_mmap_contained a l p : stable contained (sys_mmap a l p).
Proof. unfold sys_mmap. contain. apply mmap_loop_contained. Qed.
Lemma sys_munmap_contained a l : stable contained (sys_munmap a l).
Proof.
  unfold sys_munmap. contain. intros s rc s' E. bind_inv E. destruct p as [x1 v]. injection E as <- <-. by apply contained_misc.
Qed.

Lemma sys_send_msg_contained c p l : stable contained (sys_send_msg c p l).
Proof. unfold sys_send_msg. contain. Qed.
Lemma s32_range x : - 2 ^ 31 ≤ s32 x < 2 ^ 31.
Proof. unfold s32. divlia. Qed.
Lemma sys_recv_msg_contained c p l : reg p → stable contained (sys_recv_msg c p l).
Proof.
  intros Hp. unfold sys_recv_msg. apply stable_bind; [apply _|contain|intros ok]. destruct (_ || _ || _) eqn:El; [contain|].
  destruct (negb ok); [contain|]. apply stable_bind; [apply _|contain|intros [ch|]]; [|contain].
  set (recv := on_ipc _). assert (stable contained recv) as Hr by apply on_ipc_contained.
  assert (∀ s x s', recv s = Some (x, s') → x.1 < 2 ^ 31) as Hg.
  { intros s x s'. unfold recv, on_ipc. destruct (ipc_recv _ _ _ _) as [[got msg] q] eqn:Ei. intros [= <- <-]. cbn. revert Ei. unfold ipc_recv.
    repeat case_match; intros [= <- <- <-]; try done; apply s32_range. }
  apply (stable_bind_post _ _ _ _ Hr Hg). intros [got msg] Hlt. cbn in Hlt. contain; [done|]. apply short_take. lia.
Qed.

Lemma sys_service_id_contained p : stable contained (sys_service_id p).
Proof. unfold sys_service_id. contain. Qed.
Lemma sys_channel_open_contained p : stable contained (sys_channel_open p).
Proof. unfold sys_channel_open. contain. Qed.
Lemma sys_service_ready_contained p : stable contained (sys_service_ready p).
Proof. unfold sys_service_ready. contain. Qed.
Lemma sys_console_ready_contained : stable contained sys_console_ready.
Proof. intros s x s'. unfold sys_console_ready. repeat case_match; intros [= <- <-]; try done. by apply contained_misc. Qed.
Lemma sys_clock_get_contained c p : reg p → stable contained (sys_clock_get c p).
Proof.
  intros Hp. assert (∀ a b, Z.of_nat (length (timespec a b)) < 2 ^ 64) by (intros; unfold timespec; rewrite length_app, !le_length; lia).
  unfold sys_clock_get. contain; auto.
Qed.
Lemma sys_socket_contained ty : stable contained (sys_socket ty).
Proof. apply stable_getpid. intros pid. contain. intros k r k' [= E]. rewrite <- (others_create pid (u32 ty) k). by rewrite E. Qed.
Lemma sys_bind_contained fd p : stable contained (sys_bind fd p).
Proof. apply stable_getpid. intros pid. contain. intros k r k' E. by eapply others_bind. Qed.
Lemma sys_listen_contained fd : stable contained (sys_listen fd).
Proof. apply stable_getpid. intros pid. contain. intros k r k' E. by eapply others_listen. Qed.
Lemma sys_accept_contained fd : stable contained (sys_accept fd).
Proof.
  unfold sys_accept. apply stable_bind; [apply _|contain|intros _]. apply stable_getpid. intros pid. contain. intros k r k' E. by eapply others_accept.
Qed.
Lemma sys_connect_contained fd ip p : stable contained (sys_connect fd ip p).
Proof. apply stable_getpid. intros pid. contain. intros k r k' E. by eapply others_connect. Qed.
Lemma sys_recv_contained fd buf len : stable contained (sys_recv fd buf len).
Proof. unfold sys_recv. apply stable_bind; [apply _|contain|intros _]. apply sys_read_contained. Qed.
Lemma random_loop_contained n buf len done strong : stable contained (random_loop n buf len done strong).
Proof.
  revert done. induction n as [|n IH]; intros d; cbn [random_loop]; [contain|]. pose proof (io_chunk_le (len - d)).
  contain; [apply reg_u64|apply short_take; lia].
Qed.
Lemma sys_random_contained buf len fl : stable contained (sys_random buf len fl).
Proof. unfold sys_random. contain. apply random_loop_contained. Qed.

(** ** The calls on processes and memory *)

Definition same_mem (s s' : sys) : Prop := sy_mem s' = sy_mem s.
#[local] Instance same_mem_refl : Reflexive same_mem.
Proof. done. Qed.
#[local] Instance same_mem_trans : Transitive same_mem.
Proof. unfold same_mem. intros s t u ? ?. congruence. Qed.

Lemma on_procs_mem {R} (f : procs → kernel H → option (R * procs * kernel H)) : stable same_mem (on_procs f).
Proof. intros s x s' E. unfold on_procs in E. bind_inv E. destruct p as [[r p] k]. by injection E as <- <-. Qed.
Lemma on_sup_mem {R} (f : supervisor → R * supervisor) : stable same_mem (on_sup f).
Proof. intros s x s'. unfold on_sup. destruct (f _). by intros [= <- <-]. Qed.
Lemma on_user_mem {R} (f : userland → option (R * userland)) : stable same_mem (on_user f).
Proof. intros s x s'. unfold on_user. destruct (f _) as [[]|]; [|done]. by intros [= <- <-]. Qed.
Lemma yield_mem : stable same_mem yield.
Proof. intros s x s' E. unfold yield in E. bind_inv E. by injection E as <- <-. Qed.
Lemma now_mem : stable same_mem now_ns.
Proof. intros s x s'. unfold now_ns. destruct (sy_counter s); [done|]. by intros [= <- <-]. Qed.
Lemma load_vfs_path_mem path : stable same_mem (load_vfs_path path).
Proof.
  intros s x s' E. unfold load_vfs_path in E. destruct (negb _); [by injection E as <- <-|]. destruct (vfs_open _ _ _) as [vn v].
  bind_inv E. destruct p as [[file v1] w1]. bind_inv E. destruct p as [r e]. by injection E as <- <-.
Qed.

Ltac same_mem :=
  repeat lazymatch goal with
  | |- stable _ (mbind _ _) => apply stable_bind; [apply _| |intros ?]
  | |- stable _ (mret _) => exact (stable_ret _ _)
  | |- stable _ (gets _) => exact (stable_gets _ _)
  | |- stable _ stuck => apply stable_stuck
  | |- stable _ (if ?b then _ else _) => destruct b eqn:?
  | |- stable _ (match ?x with _ => _ end) => destruct x eqn:?
  | |- stable _ (on_procs _) => apply on_procs_mem
  | |- stable _ (on_sup _) => apply on_sup_mem
  | |- stable _ (on_user _) => apply on_user_mem
  | |- stable _ yield => apply yield_mem
  | |- stable _ now_ns => apply now_mem
  | |- stable _ (upd _) => by apply stable_upd
  end.

Lemma sys_exit_mem code : stable same_mem (sys_exit code).
Proof. apply on_procs_mem. Qed.
Lemma sys_yield_mem : stable same_mem sys_yield.
Proof. unfold sys_yield. same_mem. Qed.
Lemma sleep_loop_mem n d : stable same_mem (sleep_loop n d).
Proof. induction n as [|n IH]; cbn [sleep_loop]; same_mem. done. Qed.
Lemma sys_sleep_mem ms : stable same_mem (sys_sleep ms).
Proof. unfold sys_sleep. same_mem. apply sleep_loop_mem. Qed.
Lemma sys_kill_mem pid signal : stable same_mem (sys_kill pid signal).
Proof. unfold sys_kill, kill. same_mem. Qed.
Lemma sys_shutdown_mem mode reason : stable same_mem (sys_shutdown mode reason).
Proof.
  unfold sys_shutdown, system_shutdown_request. same_mem; by intros s x' s' [= <- <-].
Qed.
Lemma sys_cap_grant_mem pid cap : stable same_mem (sys_cap_grant pid cap).
Proof. intros s x s'. unfold sys_cap_grant. repeat case_match; by intros [= <- <-]. Qed.
Lemma sys_cap_revoke_mem pid cap : stable same_mem (sys_cap_revoke pid cap).
Proof. intros s x s'. unfold sys_cap_revoke. repeat case_match; by intros [= <- <-]. Qed.

Lemma run_stable {R} P (m : M R) s x s' : m s = Some (x, s') → stable P m → P s s'.
Proof. intros E Hm. by eapply Hm. Qed.

Lemma run_bind {R S} (m : M R) (k : R → M S) s y s' :
  (m ≫= k) s = Some (y, s') → ∃ x s1, m s = Some (x, s1) ∧ k x s1 = Some (y, s').
Proof. unfold mbind, M_bind. destruct (m s) as [[x s1]|]; [|done]. eauto. Qed.

Lemma sys_waitpid_mem pid ptr opt s r s' x :
  sys_waitpid pid ptr opt s = Some (r, s') → reg ptr → sy_mem s' x = sy_mem s x ∨ writable s' x.
Proof.
  intros E Hp. unfold sys_waitpid in E. destruct (_ && _) in E; [injection E as <- <-; by left|].
  apply run_bind in E as ([[rc rp] code] & s1 & E1 & E2). assert (sy_mem s1 = sy_mem s) as <-.
  { apply (run_stable same_mem _ _ _ _ E1). destruct (_ || _); same_mem. }
  destruct (_ && has_flag _ _); [injection E2 as <- <-; by left|]. destruct (_ && _); [|injection E2 as <- <-; by left].
  apply run_bind in E2 as (cr & s2 & Ec & [= <- <-]). apply copy_to_user_contained in Ec; [|done|by rewrite le_length].
  destruct Ec as [Hq He Hs Hm _ _]. destruct (Hm x) as [|Hw]; [by left|right]. unfold writable in *. rewrite <- Hw. apply writable_same; [done..|by rewrite Hs].
Qed.

Lemma load_image_slot ia sa img path e info e' :
  load_image_into_runtime ia sa img path e = Some (inr info, e') →
  ∃ i sl, runtime_slots e !! i = Some sl ∧ sl_used sl = false ∧ runtime_slot info = Z.of_nat i + 1.
Proof.
  unfold load_image_into_runtime. intros E. bind_inv E. destruct s as [rc|tmp]; [done|].
  destruct (runtime_slot_allocate e) as [[i|] e1] eqn:Ea; [|done]. unfold runtime_slot_allocate in Ea.
  destruct (find_slot _ _) as [j|] eqn:Ef; [|done]. injection Ea as -> <-.
  apply find_slot_Some in Ef as (sl & Hsl & Hu%negb_true_iff & _). cbn [mbind option_bind] in E. bind_inv E.
  destruct p as [[rc slot] info1]. destruct (rc =? AEGIS_OK) eqn:Erc; [|done]. injection E as <- _. exists i, sl. split_and!; [done..|].
  revert E2. unfold copy_executable_pt_load. destruct (_ || _); [intros [= <- _ _]; done|]. intros E. bind_inv E. destruct (span _) as [mv xv].
  destruct (_ || _); [injection E as <- _ _; done|]. cbn zeta in E. bind_inv E. destruct p as [rc1 a]. destruct (negb _) eqn:En; [injection E as <- _ _; lia|].
  by injection E as _ _ <-.
Qed.

Lemma run_string n p s v s' : copy_string_from_user n p s = Some (v, s') → s' = s.
Proof. unfold copy_string_from_user. generalize (copy_string_loop (n - 1) p [] s). by intros ? [= _ <-]. Qed.

(** The image and the stack of a slot. *)
Definition in_slot (id x : Z) : Prop :=
  m_image mc id ≤ x < m_image mc id + AEGIS_ELF_RUNTIME_IMAGE_MAX ∨ m_stack mc id ≤ x < m_stack mc id + AEGIS_USER_STACK_SIZE.
Definition free_slot (e : elf_state) (id : Z) : Prop := ∃ sl, runtime_slots e !! Z.to_nat (id - 1) = Some sl ∧ sl_used sl = false.

Lemma store_bytes_out base l m x n : Z.of_nat (length l) ≤ n → ¬ (base ≤ x < base + n) → store_bytes base l m x = m x.
Proof. intros Hl Hx. unfold store_bytes. destruct (_ && _) eqn:E; [|done]. exfalso. lia. Qed.

Lemma show_slot_mem id s x : sy_mem (show_slot id s) x = sy_mem s x ∨ in_slot id x.
Proof.
  unfold show_slot. case_match; [|by left]. cbn -[store_bytes take Z.to_nat]. destruct (decide (in_slot id x)) as [|Hn]; [by right|left].
  unfold in_slot in Hn. rewrite (store_bytes_out _ _ _ _ AEGIS_USER_STACK_SIZE); [apply (store_bytes_out _ _ _ _ AEGIS_ELF_RUNTIME_IMAGE_MAX)|..]; try tauto.
  all: rewrite length_take; unfold AEGIS_USER_STACK_SIZE, AEGIS_ELF_RUNTIME_IMAGE_MAX; lia.
Qed.

Lemma load_vfs_path_slot path s image s' :
  load_vfs_path path s = Some (inr image, s') → free_slot (k_elf (sy_k s)) (runtime_slot image).
Proof.
  intros E. unfold load_vfs_path in E. destruct (negb _); [done|]. destruct (vfs_open _ _ _) as [vn v].
  bind_inv E. destruct p as [[file v1] w1]. bind_inv E. destruct p as [r e]. injection E as -> <-. unfold elf_loader_load_vfs_path in E1.
  destruct (negb _); [done|]. destruct file as [[|b l]|]; [done| |done]. destruct (_ <=? _); [done|].
  apply load_image_slot in E1 as (i & sl & Hsl & Hu & Hid). exists sl. rewrite Hid. by replace (Z.to_nat _) with i by lia.
Qed.

Lemma spawn_supervise_mem f pid b : stable same_mem (spawn_supervise f pid b).
Proof. unfold spawn_supervise, kill. same_mem. Qed.

Lemma spawn_image_mem f path b s r s' x :
  spawn_image f path b s = Some (r, s') → sy_mem s' x = sy_mem s x ∨ ∃ id, free_slot (k_elf (sy_k s)) id ∧ in_slot id x.
Proof.
  unfold spawn_image. intros (v & s1 & E1 & E2)%run_bind. pose proof (load_vfs_path_mem _ _ _ _ E1) as <-.
  destruct v as [rc|image]; [injection E2 as <- <-; by left|]. apply load_vfs_path_slot in E1.
  apply run_bind in E2 as (u & s2 & [= _ <-] & E2). assert (sy_mem s' = sy_mem (show_slot (runtime_slot image) s1)) as ->.
  { apply (run_stable same_mem _ _ _ _ E2). unfold kill. same_mem. apply spawn_supervise_mem. }
  destruct (show_slot_mem (runtime_slot image) s1 x); [by left|right]. eauto.
Qed.

Lemma sys_spawn_mem p s r s' x :
  sys_spawn p s = Some (r, s') → sy_mem s' x = sy_mem s x ∨ ∃ id, free_slot (k_elf (sy_k s)) id ∧ in_slot id x.
Proof.
  unfold sys_spawn. intros (v & s1 & Ev%run_string & E)%run_bind. subst s1. destruct v as [rc|path]; [injection E as <- <-; by left|].
  apply run_bind in E as (u & s2 & [= <- <-] & E). destruct (_ ≫= _) as [f|]; [|injection E as <- <-; by left].
  destruct (_ =? 0); [injection E as <- <-; by left|]. destruct (negb _) in E; [injection E as <- <-; by left|].
  apply run_bind in E as (b & s3 & [= <- <-] & E). apply run_bind in E as (now & s4 & [= <- <-] & E). apply run_bind in E as (rc & s5 & E1 & E).
  assert (contained s s5) as Hc. { apply (run_stable _ _ _ _ _ E1). contain. }
  assert (sy_mem s5 = sy_mem s) as <-. { apply (run_stable same_mem _ _ _ _ E1). same_mem. }
  rewrite <- (co_elf _ _ Hc). destruct (negb _) in E; [injection E as <- <-; by left|]. by eapply spawn_image_mem.
Qed.

(** ** Dispatch *)

(** exit, cap_grant, cap_revoke, yield, spawn, waitpid, kill, sleep, shutdown *)
Definition process_calls : list Z := [4; 10; 11; 12; 13; 14; 21; 22; 24].

#[local] Hint Resolve sys_read_contained sys_write_contained sys_open_contained sys_close_contained sys_mmap_contained sys_munmap_contained
  sys_send_msg_contained sys_recv_msg_contained sys_service_id_contained sys_channel_open_contained sys_service_ready_contained
  sys_console_ready_contained sys_clock_get_contained sys_socket_contained sys_bind_contained sys_listen_contained sys_accept_contained
  sys_connect_contained sys_recv_contained sys_random_contained : contain.

Lemma dispatch_contained nr a0 a1 a2 : nr ∉ process_calls → reg a1 → stable contained (syscall_dispatch nr a0 a1 a2).
Proof.
  intros Hn Ha. assert (bool_decide (nr ∈ process_calls) = false) as Hb by by apply bool_decide_eq_false. clear Hn.
  unfold syscall_dispatch. destruct (_ <=? nr); [contain|]. unfold syscall_table, sys_unimplemented, sys_send, sys_getpid, sys_getppid, sys_gettid.
  destruct nr as [|p|p]; [| |contain]; [contain|]. do 6 (try destruct p as [p|p|]); try discriminate Hb; contain.
Qed.


(** ** Isolation *)

(** The descriptors and sockets are untouched. *)
Definition same_handles (s s' : sys) : Prop :=
  k_fds (sy_k s') = k_fds (sy_k s) ∧ k_socks (sy_k s') = k_socks (sy_k s).
#[local] Instance same_handles_refl : Reflexive same_handles.
Proof. done. Qed.
#[local] Instance same_handles_trans : Transitive same_handles.
Proof. unfold same_handles. intros s t u [? ?] [? ?]. split; congruence. Qed.

Lemma yield_handles : stable same_handles yield.
Proof. intros s x s' E. unfold yield in E. bind_inv E. by injection E as <- <-. Qed.
Lemma now_handles : stable same_handles now_ns.
Proof. intros s x s'. unfold now_ns. destruct (sy_counter s); [done|]. by intros [= <- <-]. Qed.
Lemma sleep_handles ms : stable same_handles (sys_sleep ms).
Proof.
  assert (∀ n d, stable same_handles (sleep_loop n d)) as Hl.
  { induction n as [|n IH]; intros d; cbn [sleep_loop]; [apply stable_stuck|]. apply stable_bind; [apply _|apply now_handles|intros now].
    destruct (now <? d); [|exact (stable_ret _ _)]. apply stable_bind; [apply _|apply yield_handles|intros _; apply IH]. }
  unfold sys_sleep. destruct (_ <? ms); [exact (stable_ret _ _)|]. apply stable_bind; [apply _|apply now_handles|intros now].
  apply stable_bind; [apply _|exact (stable_gets _ _)|intros n; apply Hl].
Qed.
Lemma sys_cap_handles pid cap : stable same_handles (sys_cap_grant pid cap) ∧ stable same_handles (sys_cap_revoke pid cap).
Proof. split; intros s x s'; unfold sys_cap_grant, sys_cap_revoke; repeat case_match; by intros [= <- <-]. Qed.

(** exit, spawn, waitpid, kill and shutdown end or create processes. *)
Definition lifetime_calls : list Z := [4; 13; 14; 21; 24].

Lemma dispatch_handles nr a0 a1 a2 s r s' :
  syscall_dispatch nr a0 a1 a2 s = Some (r, s') → nr ∉ lifetime_calls → reg a1 →
  (∀ pid, Z.to_nat pid ≠ Z.to_nat (getpid s) → fd_row pid (k_fds (sy_k s')) = fd_row pid (k_fds (sy_k s))) ∧
  others (getpid s) (k_socks (sy_k s')) = others (getpid s) (k_socks (sy_k s)).
Proof.
  intros E Hl Ha. destruct (decide (nr ∈ process_calls)) as [Hn|Hn].
  - assert (same_handles s s') as [-> ->]; [|done]. unfold process_calls in Hn. unfold lifetime_calls in Hl.
    repeat (apply elem_of_cons in Hn as [->|Hn]); [..|by apply not_elem_of_nil in Hn]; try (exfalso; apply Hl; by repeat constructor).
    + exact (proj1 (sys_cap_handles _ _) _ _ _ E).
    + exact (proj2 (sys_cap_handles _ _) _ _ _ E).
    + apply (run_stable same_handles sys_yield s r s' E). unfold sys_yield. apply stable_bind; [apply _|apply yield_handles|intros _; exact (stable_ret _ _)].
    + exact (sleep_handles _ _ _ _ E).
  - by destruct (dispatch_contained _ _ _ _ Hn Ha _ _ _ E) as [_ _ _ _ Hf Hs].
Qed.


(** ** Authority over processes *)

(** Every used entry outside [Q] keeps its state. *)
Definition calm (Q : nat → process → Prop) (s s' : procs) : Prop := ∀ i p,
  proc_table s !! i = Some p → is_used p = true → Q i p ∨ ∃ p', proc_table s' !! i = Some p' ∧ pr_state p' = pr_state p.

Lemma calm_refl Q (s : procs) : calm Q s s.
Proof. intros i p Hp _. eauto. Qed.

Lemma calm_upd Q i f (s : procs) :
  (∀ p, proc_table s !! i = Some p → is_used p = true → Q i p ∨ pr_state (f p) = pr_state p) → calm Q s (upd_proc i f s).
Proof.
  intros Hf j p Hp Hu. destruct (decide (j = i)) as [->|].
  - destruct (Hf p Hp Hu); [by left|right]. exists (f p). split; [cbn; by rewrite list_lookup_alter_eq, Hp|done].
  - right. exists p. split; [cbn; by rewrite list_lookup_alter_ne|done].
Qed.

(** The capability set of an entry, its first [pr_cap_count] slots. *)
Definition cap_ok (p : process) : Prop := length (pr_cap_set p) = 16%nat ∧ 0 ≤ pr_cap_count p ≤ 16.
Definition caps_ok (s : procs) : Prop := ∀ i p, proc_table s !! i = Some p → cap_ok p.

(** A capability held afterwards was held before by the same process. *)
Definition caps_le (s s' : procs) : Prop := caps_ok s → ∀ i p', proc_table s' !! i = Some p' →
  cap_ok p' ∧ ∀ c, c ∈ caps_of p' → ∃ p, proc_table s !! i = Some p ∧ pr_pid p = pr_pid p' ∧ c ∈ caps_of p.
#[local] Instance caps_le_refl : Reflexive caps_le.
Proof. intros s Hok i p' Hp. split; [by eapply Hok|eauto]. Qed.
#[local] Instance caps_le_trans : Transitive caps_le.
Proof.
  intros s t u H1' H2' Hok i p' Hp. specialize (H1' Hok). assert (caps_ok t) as Hokt by (intros j q Hq; by apply (H1' j q)).
  destruct (H2' Hokt i p' Hp) as [Hc Hin]. split; [done|]. intros c Hcp. destruct (Hin c Hcp) as (q & Hq & Hpid & Hcq). destruct (H1' _ _ Hq) as [_ H3].
  destruct (H3 c Hcq) as (p & Hp' & Hpid' & Hcp'). exists p. split_and!; [done|congruence|done].
Qed.

Lemma caps_le_upd i f (s : procs) :
  (∀ p, proc_table s !! i = Some p → cap_ok p → cap_ok (f p) ∧ ∀ c, c ∈ caps_of (f p) → pr_pid p = pr_pid (f p) ∧ c ∈ caps_of p) →
  caps_le s (upd_proc i f s).
Proof.
  intros Hf Hok j p' Hp. destruct (decide (j = i)) as [->|].
  - cbn in Hp. rewrite list_lookup_alter_eq in Hp. apply fmap_Some in Hp as (p & Hp & ->). destruct (Hf p Hp (Hok _ _ Hp)) as [Hc Hs].
    split; [done|]. intros c Hcp. exists p. split; [done|]. by apply Hs.
  - cbn in Hp. rewrite list_lookup_alter_ne in Hp by done. split; [by eapply Hok|eauto].
Qed.

Definition same_caps (f : process → process) : Prop := ∀ p, pr_pid (f p) = pr_pid p ∧ pr_cap_set (f p) = pr_cap_set p ∧ pr_cap_count (f p) = pr_cap_count p.
Lemma caps_le_same i f (s : procs) : same_caps f → caps_le s (upd_proc i f s).
Proof. intros Hf. apply caps_le_upd. intros p _ Hp. destruct (Hf p) as (E0 & E1 & E2). unfold cap_ok, caps_of in *. by rewrite E0, E1, E2. Qed.
Definition no_caps (p : process) : Prop := pr_cap_set p = replicate 16 0 ∧ pr_cap_count p = 0.
Lemma no_caps_ok p : no_caps p → cap_ok p ∧ caps_of p = [].
Proof. intros [E1 E2]. unfold cap_ok, caps_of. by rewrite E1, E2. Qed.

Lemma process_kill_effect pid sg (s : procs) (w : kernel H) rc (s' : procs) w' :
  process_kill pid sg s w = Some (rc, s', w') →
  s' = s ∨ ∃ i f, process_get pid s = Some i ∧ s' = upd_proc i f s ∧ same_caps f.
Proof.
  unfold process_kill. destruct (process_get pid s) as [i|]; [|intros [= <- <- <-]; by left]. destruct (proc_table s !! i) as [p|]; [|done].
  cbn [mbind option_bind]. destruct (_ || _).
  - intros E. bind_inv E. injection E as <- <- <-. right. eexists i, _. done.
  - destruct (sg =? 19); [intros [= <- <- <-]; right; by eexists i, _|].
    destruct (_ && _); intros [= <- <- <-]; [right; by eexists i, _|by left].
Qed.

Lemma terminate_from_caps keep sg lo n err (s : procs) (w : kernel H) rc (s' : procs) w' :
  terminate_from keep sg lo n err s w = Some (rc, s', w') → caps_le s s'.
Proof.
  revert lo err s w. induction n as [|n IH]; intros lo err s w; cbn [terminate_from]; [by intros [= <- <- <-]|].
  intros E. bind_inv E. destruct (_ || _); [by eapply IH|]. bind_inv E. destruct p0 as [[rc1 s1] w1].
  transitivity s1; [|by eapply IH]. apply process_kill_effect in E1 as [->|(i & f & _ & -> & Hf)]; [done|]. by apply caps_le_same.
Qed.

(** The entry that waitpid releases. *)
Lemma process_wait_effect pid (s : procs) (w : kernel H) rc code (s' : procs) w' :
  process_wait pid s w = Some (rc, code, s', w') →
  s' = s ∨ ∃ i p, proc_table s !! i = Some p ∧ s' = upd_proc i (λ _, zero_process) s ∧ pr_state p = PROC_STATE_ZOMBIE ∧
    (process_getpid s w = 0 ∨ pr_ppid p = process_getpid s w).
Proof.
  unfold process_wait. destruct (process_get pid s) as [i|]; [|intros [= <- <- <- <-]; by left].
  destruct (proc_table s !! i) as [p|] eqn:Hp; [|done]. cbn [mbind option_bind]. destruct (_ && _) eqn:E1; [intros [= <- <- <- <-]; by left|].
  destruct (negb (bool_decide _)) eqn:E2; [intros [= <- <- <- <-]; by left|]. intros E. bind_inv E.
  destruct (if negb _ then _ else _) as [rel w3]. destruct (negb (rel =? _)); [injection E as <- <- <- <-; by left|]. bind_inv E. destruct p0 as [urc w4].
  destruct (_ && _) in E; injection E as <- <- <- <-; [by left|]. right. exists i, p. split_and!; [done|done| |].
  - by apply negb_false_iff, bool_decide_eq_true in E2.
  - apply andb_false_iff in E1 as [E1%negb_false_iff%Z.eqb_eq|E1%negb_false_iff%Z.eqb_eq]; [left|right]; lia.
Qed.

Lemma process_wait_any_effect me (s : procs) (w : kernel H) rc r (s' : procs) w' :
  process_wait_any me s w = Some (rc, r, s', w') → ∃ pid rc' code, process_wait pid s w = Some (rc', code, s', w') ∨ s' = s.
Proof.
  unfold process_wait_any. destruct (find_slot _ _) as [i|]; [|intros [= <- <- <- <-]; exists 0, 0, None; by right].
  intros E. bind_inv E. destruct p0 as [[[rc1 c1] s1] w1]. destruct (negb _); injection E as <- <- <- <-; eexists _, _, _; left; done.
Qed.

(** The entry that spawn fills was free. *)
Lemma process_spawn_effect name im ppid (s : procs) (w : kernel H) r (s' : procs) w' :
  process_spawn_user_image (m_task_entry mc) name im ppid s w = Some (r, s', w') →
  s' = s ∧ r = None ∨
  ∃ i, proc_find_slot s = Some i ∧ (r = None ∨ r = Some i) ∧
    (∀ j, j ≠ i → proc_table s' !! j = proc_table s !! j) ∧
    (∀ p', proc_table s' !! i = Some p' → no_caps p' ∧ (r = Some i → is_used p' = true ∧ pr_pid p' = next_pid s)).
Proof.
  unfold process_spawn_user_image. destruct (image_missing _ _); [intros [= <- <- <-]; by left|].
  destruct (proc_find_slot s) as [i|] eqn:Hi; [|intros [= <- <- <-]; by left]. cbn zeta. intros E. bind_inv E. destruct p as [t w1]. right. exists i.
  destruct (t =? 0); injection E as <- <- <-; (split; [done|]; split; [auto|]; split).
  1, 3: intros j Hj; cbn; by rewrite !list_lookup_alter_ne by done.
  all: intros p'; cbn; rewrite !list_lookup_alter_eq; intros (q & Hq & ->)%fmap_Some.
  - done.
  - apply fmap_Some in Hq as (q1 & Hq1 & ->). by apply fmap_Some in Hq1 as (q2 & Hq2 & ->).
Qed.

Lemma caps_le_reparent pid (s : procs) : caps_le s (s <| proc_table ::= fmap (reparent pid) |>).
Proof.
  intros Hok i p' Hp. cbn in Hp. rewrite list_lookup_fmap in Hp. apply fmap_Some in Hp as (p & Hp & ->).
  assert (pr_pid (reparent pid p) = pr_pid p ∧ pr_cap_set (reparent pid p) = pr_cap_set p ∧ pr_cap_count (reparent pid p) = pr_cap_count p) as (E0 & E1 & E2) by (unfold reparent; by case_match).
  pose proof (Hok _ _ Hp) as Hcp. unfold cap_ok, caps_of in *. rewrite E0, E1, E2. eauto.
Qed.

Lemma process_exit_effect code (s : procs) (w : kernel H) (s' : procs) w' :
  process_exit code s w = Some (s', w') →
  calm (λ _ p, pr_task p = scheduler_current (k_sched w)) s s' ∧ caps_le s s'.
Proof.
  unfold process_exit. cbn [pe_current kernel_env]. destruct (_ =? 0); [intros [= <- <-]; split; [apply calm_refl|done]|].
  destruct (find_slot _ _) as [i|] eqn:Hi.
  - apply find_slot_Some in Hi as (p & Hp & Ht%Z.eqb_eq & _). rewrite Hp. cbn [mbind option_bind]. intros E. bind_inv E. destruct p0 as [s1 w1].
    bind_inv E0. injection E0 as <- <-. bind_inv E. case_match; [done|]. injection E as <- <-.
    assert (∀ q, pr_state (reparent (pr_pid p) q) = pr_state q) as Hr by (intros q; unfold reparent; by case_match).
    split.
    + intros j q Hq Hu. cbn. rewrite list_lookup_fmap. destruct (decide (j = i)) as [->|Hj].
      * left. congruence.
      * right. rewrite list_lookup_alter_ne, Hq by done. eexists. split; [done|]. apply Hr.
    + transitivity (upd_proc i (λ p : process, p <| pr_state := PROC_STATE_ZOMBIE |> <| pr_exit_code := code |>) s); [by apply caps_le_same|].
      match goal with |- caps_le ?t _ => exact (caps_le_reparent (pr_pid p) t) end.
  - cbn [mbind option_bind]. intros E. bind_inv E. case_match; [done|]. injection E as <- <-. split; [apply calm_refl|done].
Qed.

Lemma run_procs {R} (f : procs → kernel H → option (R * procs * kernel H)) (s : sys) x s' :
  on_procs f s = Some (x, s') → f (sy_procs s) (sy_k s) = Some (x, sy_procs s', sy_k s').
Proof. unfold on_procs. intros E. bind_inv E. destruct p as [[r p] k]. by injection E as <- <-. Qed.

Definition same_procs (s s' : sys) : Prop := sy_procs s' = sy_procs s.
#[local] Instance same_procs_refl : Reflexive same_procs.
Proof. done. Qed.
#[local] Instance same_procs_trans : Transitive same_procs.
Proof. unfold same_procs. intros s t u ? ?. congruence. Qed.
Lemma contained_procs {R} (m : M R) : stable contained m → stable same_procs m.
Proof. apply stable_mono. by intros s s' []. Qed.
Lemma yield_procs : stable same_procs yield.
Proof. intros s x s' E. unfold yield in E. bind_inv E. by injection E as <- <-. Qed.
Lemma sys_yield_procs : stable same_procs sys_yield.
Proof. unfold sys_yield. apply stable_bind; [apply _|apply yield_procs|intros _; exact (stable_ret _ _)]. Qed.
Lemma sys_sleep_procs ms : stable same_procs (sys_sleep ms).
Proof.
  assert (∀ n d, stable same_procs (sleep_loop n d)) as Hl.
  { induction n as [|n IH]; intros d; cbn [sleep_loop]; [apply stable_stuck|]. apply stable_bind; [apply _|apply contained_procs, now_ns_contained|intros now].
    destruct (now <? d); [|exact (stable_ret _ _)]. apply stable_bind; [apply _|apply yield_procs|intros _; apply IH]. }
  unfold sys_sleep. destruct (_ <? ms); [exact (stable_ret _ _)|]. apply stable_bind; [apply _|apply contained_procs, now_ns_contained|intros now].
  apply stable_bind; [apply _|exact (stable_gets _ _)|intros n; apply Hl].
Qed.

(** What [sys_kill] requires of the caller. *)
Definition manager (s : sys) : Prop := current_name s = Some "service-manager"%string.
Lemma not_manager_false s : not_manager s = false → manager s.
Proof.
  unfold not_manager, manager. intros Hn%negb_false_iff. destruct (current_name s) as [n|]; [|done]. cbn in *. by apply c_streq_spec in Hn as ->.
Qed.

Lemma sys_kill_effect pid sg s rc s' :
  sys_kill pid sg s = Some (rc, s') →
  calm (λ _ p, getpid s = 1 ∨ getpid s = pr_pid p ∨ pr_ppid p = getpid s ∨ manager s) (sy_procs s) (sy_procs s') ∧
  caps_le (sy_procs s) (sy_procs s').
Proof.
  unfold sys_kill. destruct (_ || _); [intros [= <- <-]; split; [apply calm_refl|done]|].
  intros (caller & s1 & [= <- <-] & E)%run_bind. apply run_bind in E as (target & s2 & [= <- <-] & E). apply run_bind in E as (parent & s3 & [= <- <-] & E).
  apply run_bind in E as (st & s4 & [= <- <-] & E). destruct (bool_decide _) eqn:Et; [injection E as <- <-; split; [apply calm_refl|done]|].
  destruct (_ && _ && _ && _) eqn:Ea; [injection E as <- <-; split; [apply calm_refl|done]|].
  apply run_procs, process_kill_effect in E as [->|(i & f & Hg & -> & Hf)]; [split; [apply calm_refl|done]|].
  split; [|by apply caps_le_same]. apply calm_upd. intros p Hp _. left.
  apply process_get_Some in Hg as Hg'. destruct Hg' as (q & Hq & Hpid & _). rewrite Hp in Hq. injection Hq as <-. rewrite Hg in Ea.
  unfold process_parent_pid in Ea. cbn [mbind option_bind] in Ea. rewrite Hp in Ea. cbn [from_option] in Ea.
  destruct (not_manager s) eqn:Em; [|right; right; right; by apply not_manager_false]. rewrite andb_true_r in Ea. lia.
Qed.

Lemma wait_effect pid (s : procs) (w : kernel H) rc code (s' : procs) w' :
  process_wait pid s w = Some (rc, code, s', w') →
  calm (λ _ p, pr_state p = PROC_STATE_ZOMBIE ∧ (process_getpid s w = 0 ∨ pr_ppid p = process_getpid s w)) s s' ∧ caps_le s s'.
Proof.
  intros [->|(i & p & Hp & -> & Hz & Ho)]%process_wait_effect; [split; [apply calm_refl|done]|].
  split; [|apply caps_le_upd; intros q _ _; split; [done|set_solver]]. apply calm_upd. intros q Hq _. left. rewrite Hp in Hq. by injection Hq as <-.
Qed.

Lemma sys_waitpid_effect pid ptr opt s r s' :
  sys_waitpid pid ptr opt s = Some (r, s') → reg ptr →
  calm (λ _ p, pr_state p = PROC_STATE_ZOMBIE ∧ (getpid s = 0 ∨ pr_ppid p = getpid s)) (sy_procs s) (sy_procs s') ∧
  caps_le (sy_procs s) (sy_procs s').
Proof.
  intros E Hp. unfold sys_waitpid in E. destruct (_ && _) in E; [injection E as <- <-; split; [apply calm_refl|done]|].
  apply run_bind in E as ([[rc rp] code] & s1 & E1 & E2). assert (sy_procs s' = sy_procs s1) as ->.
  { apply (run_stable same_procs _ _ _ _ E2), contained_procs. contain; [done|by rewrite le_length]. }
  clear E2. destruct (_ || _).
  - apply run_bind in E1 as (me & s2 & [= <- <-] & E1). apply run_bind in E1 as ([rc1 r1] & s3 & E1 & [= _ _ _ <-]). apply run_procs in E1.
    cbn beta in E1. bind_inv E1. destruct p as [[[rc2 r2] p2] k2]. injection E1 as _ _ -> ->.
    apply process_wait_any_effect in E as (pid' & rc' & c' & [E| ->]); [by eapply wait_effect|split; [apply calm_refl|done]].
  - apply run_bind in E1 as ([rc1 r1] & s3 & E1 & [= _ _ _ <-]). apply run_procs in E1. cbn beta in E1. bind_inv E1.
    destruct p as [[[rc2 r2] p2] k2]. injection E1 as _ _ -> ->. by eapply wait_effect.
Qed.

Lemma spawn_supervise_effect f pid b s r s' :
  spawn_supervise f pid b s = Some (r, s') →
  sy_procs s' = sy_procs s ∨ ∃ i g, process_get pid (sy_procs s) = Some i ∧ sy_procs s' = upd_proc i g (sy_procs s) ∧ same_caps g.
Proof.
  unfold spawn_supervise. cbn zeta. intros (rc & s1 & E1 & E)%run_bind. pose proof (contained_procs _ (on_sup_contained _) _ _ _ E1) as E1p. unfold same_procs in E1p. rewrite <- E1p. clear E1 E1p.
  destruct (negb _).
  - apply run_bind in E as (x & s2 & E & [= _ <-]). by apply run_procs, process_kill_effect in E.
  - left. destruct b; [|by injection E as _ <-]. apply run_bind in E as (now & s2 & [= <- <-] & E). apply run_bind in E as (rc2 & s3 & E & [= _ <-]).
    exact (contained_procs _ (on_sup_contained _) _ _ _ E).
Qed.

Lemma fresh_effect (s s1 : procs) i :
  proc_find_slot s = Some i → (∀ j, j ≠ i → proc_table s1 !! j = proc_table s !! j) →
  (∀ p', proc_table s1 !! i = Some p' → no_caps p') → calm (λ _ _, False) s s1 ∧ caps_le s s1.
Proof.
  intros Hi Hne Hnew. split.
  - intros j p Hp Hu. right. exists p. split; [|done]. rewrite Hne; [done|]. by eapply free_slot_ne.
  - intros Hok j p' Hp'. destruct (decide (j = i)) as [->|]; [|rewrite Hne in Hp' by done; split; [by eapply Hok|eauto]].
    destruct (no_caps_ok _ (Hnew _ Hp')) as [Hc E]. split; [done|]. rewrite E. by intros c Hin%not_elem_of_nil.
Qed.

(** A record in a free slot, and possibly the end of the process just created. *)
Lemma spawn_effect (s s1 s' : procs) i :
  procs_inv s → proc_find_slot s = Some i → (∀ j, j ≠ i → proc_table s1 !! j = proc_table s !! j) →
  (∀ p', proc_table s1 !! i = Some p' → no_caps p' ∧ is_used p' = true ∧ pr_pid p' = next_pid s) →
  (s' = s1 ∨ ∃ j g, process_get (process_pid (Some i) s1) s1 = Some j ∧ s' = upd_proc j g s1 ∧ same_caps g) →
  calm (λ _ _, False) s s' ∧ caps_le s s'.
Proof.
  intros Hinv Hi Hne Hnew Hs'. assert (calm (λ _ _, False) s s1 ∧ caps_le s s1) as [Hc1 Hk1].
  { apply (fresh_effect _ _ i); [done|done|]. intros p' Hp'. by destruct (Hnew _ Hp'). }
  destruct Hs' as [->|(j & g & Hg & -> & Hcap)]; [done|]. split; [|transitivity s1; [done|]; by apply caps_le_same].
  apply process_get_Some in Hg as (q & Hq & Hpid & Hu). assert (j = i) as ->.
  { destruct (decide (j = i)) as [|Hj]; [done|exfalso]. rewrite Hne in Hq by done. pose proof (pi_pid _ Hinv _ _ Hq Hu) as Hlt.
    assert (is_Some (proc_table s1 !! i)) as [p' Hp'].
    { destruct (proc_table s1 !! i) eqn:E; [done|]. unfold process_pid in Hpid. cbn in Hpid. rewrite E in Hpid. cbn in Hpid. lia. }
    destruct (Hnew _ Hp') as (_ & _ & Hn). unfold process_pid in Hpid. cbn in Hpid. rewrite Hp' in Hpid. cbn in Hpid. lia. }
  intros k p Hp Huse. right. destruct (Hc1 k p Hp Huse) as [[]|(p' & Hp' & Hst)]. exists p'. split; [|done]. cbn. rewrite list_lookup_alter_ne; [done|].
  pose proof (free_slot_ne k i p s Hp Huse Hi). congruence.
Qed.

Lemma load_vfs_path_procs path : stable same_procs (load_vfs_path path).
Proof.
  intros s x s' E. unfold load_vfs_path in E. destruct (negb _); [by injection E as <- <-|]. destruct (vfs_open _ _ _) as [vn v].
  bind_inv E. destruct p as [[file v1] w1]. bind_inv E. destruct p as [r e]. by injection E as <- <-.
Qed.
Lemma show_slot_procs id s : sy_procs (show_slot id s) = sy_procs s.
Proof. unfold show_slot. by case_match. Qed.

Lemma spawn_image_effect f path b s r s' :
  spawn_image f path b s = Some (r, s') → procs_inv (sy_procs s) →
  calm (λ _ _, False) (sy_procs s) (sy_procs s') ∧ caps_le (sy_procs s) (sy_procs s').
Proof.
  unfold spawn_image. intros (v & s1 & E1 & E)%run_bind. pose proof (load_vfs_path_procs _ _ _ _ E1) as Hs. unfold same_procs in Hs. rewrite <- Hs. clear E1 Hs.
  destruct v as [rc|image]; [injection E as _ <-; split; [apply calm_refl|done]|]. apply run_bind in E as ([] & s2 & [= <-] & E).
  rewrite <- (show_slot_procs (runtime_slot image) s1). generalize (show_slot (runtime_slot image) s1) E. clear. intros s E Hinv.
  apply run_bind in E as (ppid & s1 & [= <- <-] & E). apply run_bind in E as (child & s1 & E1 & E). apply run_procs, process_spawn_effect in E1.
  destruct child as [i'|].
  - destruct E1 as [[_ [=]]|(i & Hi & [[=]|[= ->]] & Hne & Hnew)]. apply run_bind in E as (pid & s2 & [= <- <-] & E).
    apply run_bind in E as (rc & s2 & E1 & E). pose proof (contained_procs _ (on_user_contained _) _ _ _ E1) as Hs. unfold same_procs in Hs.
    eapply (spawn_effect _ (sy_procs s1)); [done|done|done|intros p' Hp'; destruct (Hnew p' Hp') as [? Hx]; destruct (Hx eq_refl); split_and!; assumption|].
    rewrite <- Hs in E |- *. clear Hs Hnew Hne E1. destruct (negb _).
    + apply run_bind in E as (x & s3 & E & [= _ <-]). by apply run_procs, process_kill_effect in E.
    + destruct (negb _); [by apply spawn_supervise_effect in E|injection E as _ <-; by left].
  - apply run_bind in E as (x & s2 & E2 & [= _ <-]). apply run_procs in E2. cbn beta in E2. destruct (pe_release_slot _ _) as [rc k]. injection E2 as _ <- _.
    destruct E1 as [[-> _]|(i & Hi & _ & Hne & Hnew)]; [split; [apply calm_refl|done]|].
    apply (fresh_effect _ _ i); [done|done|]. intros p' Hp'. by destruct (Hnew _ Hp').
Qed.

Lemma sys_spawn_effect p s r s' :
  sys_spawn p s = Some (r, s') → procs_inv (sy_procs s) →
  calm (λ _ _, False) (sy_procs s) (sy_procs s') ∧ caps_le (sy_procs s) (sy_procs s').
Proof.
  unfold sys_spawn. intros (v & s1 & Ev%run_string & E)%run_bind Hinv. subst s1. destruct v as [rc|path]; [injection E as _ <-; split; [apply calm_refl|done]|].
  apply run_bind in E as (u & s2 & [= <- <-] & E). destruct (_ ≫= _) as [f|]; [|injection E as _ <-; split; [apply calm_refl|done]].
  destruct (_ =? 0); [injection E as _ <-; split; [apply calm_refl|done]|]. destruct (negb _) in E; [injection E as _ <-; split; [apply calm_refl|done]|].
  apply run_bind in E as (b & s3 & [= <- <-] & E). apply run_bind in E as (now & s4 & [= <- <-] & E). apply run_bind in E as (rc & s5 & E1 & E).
  assert (sy_procs s5 = sy_procs s) as Hs. { apply (run_stable same_procs _ _ _ _ E1), contained_procs. contain. }
  rewrite <- Hs in Hinv |- *.
  destruct (negb _) in E; [injection E as _ <-; split; [apply calm_refl|done]|]. by eapply spawn_image_effect.
Qed.

Lemma process_terminate_caps keep sg (s : procs) (w : kernel H) rc (s' : procs) w' :
  process_terminate_all_except keep sg s w = Some (rc, s', w') → caps_le s s'.
Proof. unfold process_terminate_all_except. generalize MAX_PROCESSES. intros n. apply terminate_from_caps. Qed.

Lemma system_shutdown_request_caps pid reason s x s' :
  system_shutdown_request pid reason s = Some (x, s') → caps_le (sy_procs s) (sy_procs s').
Proof.
  unfold system_shutdown_request. intros (pw & s1 & [= <- <-] & E)%run_bind. destruct (g_requested _); [by injection E as _ <-|].
  apply run_bind in E as (u3 & s2 & [= _ <-] & E). apply run_bind in E as (u4 & s3 & E & [= _ <-]). apply run_procs in E.
  exact (process_terminate_caps _ _ _ _ _ _ _ E).
Qed.

Lemma sys_shutdown_effect mode reason s r s' :
  sys_shutdown mode reason s = Some (r, s') →
  calm (λ _ _, getpid s = 1 ∨ manager s) (sy_procs s) (sy_procs s') ∧ caps_le (sy_procs s) (sy_procs s').
Proof.
  unfold sys_shutdown. intros (pid & s1 & [= <- <-] & E)%run_bind. apply run_bind in E as (st & s2 & [= <- <-] & E).
  destruct (_ && _) eqn:Ea; [injection E as _ <-; split; [apply calm_refl|done]|]. split.
  { intros i p _ _. left. destruct (not_manager s) eqn:Em; [left; lia|right; by apply not_manager_false]. }
  apply run_bind in E as (u & s3 & E1 & E). pose proof (contained_procs _ (on_sup_contained _) _ _ _ E1) as <-. clear E1.
  apply run_bind in E as (u2 & s4 & E1 & E). assert (sy_procs s' = sy_procs s4) as ->.
  { repeat case_match; by injection E as _ <-. }
  by apply system_shutdown_request_caps in E1.
Qed.

Lemma sys_cap_grant_effect t cap s r s' :
  sys_cap_grant t cap s = Some (r, s') →
  calm (λ _ _, False) (sy_procs s) (sy_procs s') ∧
  (caps_ok (sy_procs s) → ∀ i p', proc_table (sy_procs s') !! i = Some p' → cap_ok p' ∧ ∀ c, c ∈ caps_of p' →
    (∃ p, proc_table (sy_procs s) !! i = Some p ∧ pr_pid p = pr_pid p' ∧ c ∈ caps_of p) ∨
    (c = cap ∧ cap_is_valid cap (sy_caps s) = true ∧ current_process_may_manage_cap cap s = true)).
Proof.
  intros E. assert (sy_procs s' = sy_procs s ∨ sy_procs s' = (process_grant_cap (u32 t) cap (sy_procs s)).2 ∧
    cap_is_valid cap (sy_caps s) = true ∧ current_process_may_manage_cap cap s = true) as [->|(-> & Hv & Hm)].
  { unfold sys_cap_grant in E. destruct (_ || _); [injection E as _ <-; by left|]. destruct (cap_is_valid _ _); [|injection E as _ <-; by left].
    destruct (current_process_may_manage_cap _ _); [|injection E as _ <-; by left]. cbn [negb] in E. destruct (process_grant_cap _ _ _). injection E as _ <-. by right. }
  { split; [apply calm_refl|]. intros Hok i p' Hp. split; [by eapply Hok|eauto]. }
  clear E. assert (Hid : calm (λ _ _, False) (sy_procs s) (sy_procs s) ∧ (caps_ok (sy_procs s) → ∀ i p', proc_table (sy_procs s) !! i = Some p' → cap_ok p' ∧ ∀ c, c ∈ caps_of p' →
    (∃ p, proc_table (sy_procs s) !! i = Some p ∧ pr_pid p = pr_pid p' ∧ c ∈ caps_of p) ∨ (c = cap ∧ cap_is_valid cap (sy_caps s) = true ∧ current_process_may_manage_cap cap s = true))).
  { split; [apply calm_refl|]. intros Hok i p' Hp. split; [by eapply Hok|eauto]. }
  unfold process_grant_cap. destruct (process_get _ _) as [j|]; [|done]. destruct (proc_table (sy_procs s) !! j) as [p|] eqn:Hp; [|done].
  destruct (existsb _ _); [done|]. destruct (16 <=? _) eqn:El; [done|]. clear Hid. split; [apply calm_upd; by right|]. intros Hok i p'. cbn.
  destruct (decide (i = j)) as [->|]; [|rewrite list_lookup_alter_ne by done; intros Hp'; split; [by eapply Hok|eauto]].
  rewrite list_lookup_alter_eq, Hp. intros [= <-]. destruct (Hok _ _ Hp) as [Hl Hn]. split; [split; cbn; [by rewrite length_insert|lia]|].
  intros c Hc. unfold caps_of in Hc. cbn in Hc. apply elem_of_take in Hc as (k & Hk & Hlt). apply list_lookup_insert_Some in Hk as [(<- & -> & _)|[Hne Hk]]; [by right|].
  left. exists p. split; [done|]. split; [done|]. unfold caps_of. apply elem_of_take. exists k. split; [done|]. lia.
Qed.

Lemma sys_cap_revoke_effect t cap s r s' :
  sys_cap_revoke t cap s = Some (r, s') → calm (λ _ _, False) (sy_procs s) (sy_procs s') ∧ caps_le (sy_procs s) (sy_procs s').
Proof.
  intros E. unfold sys_cap_revoke in E. repeat (case_match; [injection E as _ <-; split; [apply calm_refl|done]|]).
  destruct (process_revoke_cap _ _ _) as [rc q] eqn:Eg. assert (sy_procs s' = q) as ->.
  { destruct (negb (rc =? _)); [by injection E as _ <-|]. destruct (cap_revoke _ _). by injection E as _ <-. }
  clear E. unfold process_revoke_cap in Eg. destruct (process_get _ _) as [j|]; [|injection Eg as _ <-; split; [apply calm_refl|done]].
  destruct (proc_table (sy_procs s) !! j) as [p|] eqn:Hp; [|injection Eg as _ <-; split; [apply calm_refl|done]].
  destruct (find_slot _ _) as [k|] eqn:Hk; injection Eg as _ <-; [|split; [apply calm_refl|done]]. split; [apply calm_upd; by right|].
  apply caps_le_upd. intros q Hq [Hl Hn]. rewrite Hp in Hq. injection Hq as <-. apply find_slot_lt in Hk. unfold caps_of in Hk. rewrite length_take in Hk.
  split; [split; cbn; [by rewrite length_insert|lia]|]. intros c Hc. split; [done|]. unfold caps_of in *. cbn in Hc.
  apply elem_of_take in Hc as (m & Hm & Hlt). apply elem_of_take. apply list_lookup_insert_Some in Hm as [(<- & <- & _)|[Hne Hm]].
  - exists (Z.to_nat (pr_cap_count p - 1)). destruct (pr_cap_set p !! Z.to_nat (pr_cap_count p - 1)) eqn:El; [split; [done|lia]|]. apply lookup_ge_None in El. lia.
  - exists m. split; [done|lia].
Qed.

(** Who may change the state of a process, and with which call. *)
Definition authority (nr : Z) (s : sys) (p : process) : Prop :=
  (nr = 4 ∧ pr_task p = scheduler_current (k_sched (sy_k s))) ∨
  (nr = 14 ∧ pr_state p = PROC_STATE_ZOMBIE ∧ (getpid s = 0 ∨ pr_ppid p = getpid s)) ∨
  (nr = 21 ∧ (getpid s = 1 ∨ getpid s = pr_pid p ∨ pr_ppid p = getpid s ∨ manager s)) ∨
  (nr = 24 ∧ (getpid s = 1 ∨ manager s)).

Lemma calm_mono (P Q : nat → process → Prop) (s s' : procs) : (∀ i p, P i p → Q i p) → calm P s s' → calm Q s s'.
Proof. intros HPQ Hc i p Hp Hu. destruct (Hc i p Hp Hu); auto. Qed.

Lemma dispatch_procs nr a0 a1 a2 s r s' :
  syscall_dispatch nr a0 a1 a2 s = Some (r, s') → reg a1 → procs_inv (sy_procs s) →
  calm (λ _ p, authority nr s p) (sy_procs s) (sy_procs s') ∧ (nr ≠ 10 → caps_le (sy_procs s) (sy_procs s')).
Proof.
  intros E Ha Hinv. unfold authority. destruct (decide (nr ∈ process_calls)) as [Hn|Hn].
  - assert (same_procs s s' → calm (λ _ p, authority nr s p) (sy_procs s) (sy_procs s') ∧ (nr ≠ 10 → caps_le (sy_procs s) (sy_procs s'))) as Hid.
    { unfold same_procs. intros ->. split; [apply calm_refl|done]. }
    unfold process_calls in Hn. repeat (apply elem_of_cons in Hn as [->|Hn]); [..|by apply not_elem_of_nil in Hn].
    + pose proof (run_procs (λ p k, '(p, k) ← process_exit (s32 a0) p k; Some (0, p, k)) s r s' E) as E'. cbn beta in E'. bind_inv E'. destruct p as [p k].
      injection E' as _ -> ->. match goal with X : process_exit _ _ _ = _ |- _ => apply process_exit_effect in X as [Hc Hk] end.
      split; [|done]. eapply calm_mono; [|exact Hc]. auto.
    + destruct (sys_cap_grant_effect _ _ _ _ _ E) as [Hc _]. split; [|done]. eapply calm_mono; [|exact Hc]. done.
    + destruct (sys_cap_revoke_effect _ _ _ _ _ E) as [Hc Hk]. split; [|done]. eapply calm_mono; [|exact Hc]. done.
    + apply Hid. exact (sys_yield_procs _ _ _ E).
    + destruct (sys_spawn_effect _ _ _ _ E Hinv) as [Hc Hk]. split; [|done]. eapply calm_mono; [|exact Hc]. done.
    + destruct (sys_waitpid_effect _ _ _ _ _ _ E Ha) as [Hc Hk]. split; [|done]. eapply calm_mono; [|exact Hc]. auto.
    + destruct (sys_kill_effect _ _ _ _ _ E) as [Hc Hk]. split; [|done]. eapply calm_mono; [|exact Hc]. auto.
    + apply Hid. exact (sys_sleep_procs _ _ _ _ E).
    + destruct (sys_shutdown_effect _ _ _ _ _ E) as [Hc Hk]. split; [|done]. eapply calm_mono; [|exact Hc]. auto 6.
  - destruct (dispatch_contained _ _ _ _ Hn Ha _ _ _ E) as [-> _ _ _ _ _]. split; [apply calm_refl|done].
Qed.


(** C3: capabilities spread only by grants of their holders. After any system
    call each process holds only capabilities that it held before, or the one
    that the call granted, which is then a valid capability that the caller itself
    holds (or the kernel, as process 0, granted it). The capability sets stay
    within their sixteen slots. *)
Theorem capability_confinement nr a0 a1 a2 s r s' i p' :
  syscall_dispatch nr a0 a1 a2 s = Some (r, s') → reg a1 → procs_inv (sy_procs s) → caps_ok (sy_procs s) →
  proc_table (sy_procs s') !! i = Some p' →
  cap_ok p' ∧ ∀ c, c ∈ caps_of p' →
    (∃ p, proc_table (sy_procs s) !! i = Some p ∧ pr_pid p = pr_pid p' ∧ c ∈ caps_of p) ∨
    (nr = 10 ∧ c = a1 ∧ cap_is_valid c (sy_caps s) = true ∧ (getpid s = 0 ∨ process_has_cap (getpid s) c (sy_procs s) = true)).
Proof.
  intros E Ha Hinv Hok Hp'. destruct (decide (nr = 10)) as [->|Hn].
  - destruct (sys_cap_grant_effect _ _ _ _ _ E) as [_ Hg]. destruct (Hg Hok i p' Hp') as [Hc Hin]. split; [done|]. intros c Hcp.
    destruct (Hin c Hcp) as [?|(-> & Hv & Hm)]; [by left|right]. split_and!; [done..|]. unfold current_process_may_manage_cap in Hm.
    destruct (getpid s =? 0) eqn:Eg; [left; lia|by right].
  - destruct (dispatch_procs _ _ _ _ _ _ _ E Ha Hinv) as [_ Hk]. destruct (Hk Hn Hok i p' Hp') as [Hc Hin]. split; [done|]. auto.
Qed.

(** * Reading a file *)


Lemma store_bytes_app base l k m x :
  store_bytes (base + Z.of_nat (length l)) k (store_bytes base l m) x = store_bytes base (l ++ k) m x.
Proof.
  unfold store_bytes. rewrite length_app, Nat2Z.inj_add.
  destruct (Z.leb_spec base x), (Z.leb_spec (base + Z.of_nat (length l)) x), (Z.ltb_spec x (base + Z.of_nat (length l)));
    cbn [andb]; try lia; rewrite ?Z.add_assoc; destruct (Z.ltb_spec x (base + Z.of_nat (length l) + Z.of_nat (length k))); try lia; try done.
  - rewrite lookup_app_r by lia. f_equal. f_equal. lia.
  - by rewrite lookup_app_l by lia.
Qed.
Lemma store_bytes_nil base m x : store_bytes base [] m x = m x.
Proof. unfold store_bytes. cbn. destruct (_ && _) eqn:E; [|done]. apply andb_true_iff in E as [E1%Z.leb_le E2%Z.ltb_lt]. lia. Qed.
Lemma store_bytes_ext base l m m' x : (∀ y, m y = m' y) → store_bytes base l m x = store_bytes base l m' x.
Proof. intros E. unfold store_bytes. by destruct (_ && _). Qed.

(** The file behind the vnode [vn] has the given content, and reading it changes
    nothing. *)
Definition reads_as (vn : nat) (content : list Z) (s : sys) : Prop := ∀ off len,
  0 ≤ off → 0 < len →
  let bytes := take (Z.to_nat len) (drop (Z.to_nat off) content) in
  vfs_read (m_vfs mc) (Some vn) off true len (k_vfs (sy_k s)) (sy_files s) = Some (Z.of_nat (length bytes), bytes, sy_files s).

(** What is left to read. *)
Definition rest (content : list Z) (off len : Z) : list Z := take (Z.to_nat len) (drop (Z.to_nat off) content).

Lemma rest_step content off len n :
  0 ≤ off → 0 ≤ n ≤ len → Z.of_nat (length (rest content off n)) = n → rest content off len = rest content off n ++ rest content (off + n) (len - n).
Proof.
  intros Ho Hn Hl. unfold rest in *. replace (Z.to_nat (off + n)) with (Z.to_nat off + Z.to_nat n)%nat by lia. rewrite <- drop_drop.
  replace (Z.to_nat len) with (Z.to_nat n + Z.to_nat (len - n))%nat by lia. symmetry. apply take_take_drop.
Qed.
Lemma rest_short content off len n : 0 ≤ n ≤ len → Z.of_nat (length (rest content off n)) < n → rest content off len = rest content off n.
Proof. intros Hn Hl. unfold rest in *. rewrite length_take in Hl. rewrite !take_ge; [done|lia|lia]. Qed.

(** The state after [data] was read at [buf] through a descriptor. *)
Record read_done (pid fd buf : Z) (data : list Z) (s s' : sys) : Prop := {
  rd_mem x : sy_mem s' x = store_bytes buf data (sy_mem s) x;
  rd_k : sy_k s' = (sy_k s) <| k_fds ::= fd_set_offset pid fd (offset_at pid fd s + Z.of_nat (length data)) |>;
  rd_procs : sy_procs s' = sy_procs s;
  rd_files : sy_files s' = sy_files s;
}.

Lemma fd_set_offset_offset pid fd o t e : fd_lookup pid fd t = Some e →
  fd_lookup pid fd (fd_set_offset pid fd o t) = Some (e <| fd_offset := o |>).
Proof.
  unfold fd_lookup. destruct (_ || _ || _); [done|]. unfold fd_set_offset. rewrite fd_row_alter, decide_True by done. unfold fd_row.
  destruct (t !! Z.to_nat pid) as [row|]; [|done]. cbn. rewrite list_lookup_alter_eq. destruct (row !! _) as [e'|]; [|done]. cbn. destruct (fd_used e') eqn:Eu; [|done].
  intros [= <-]. cbn. by rewrite Eu.
Qed.
Lemma fd_set_offset_id pid fd t e : fd_lookup pid fd t = Some e → fd_set_offset pid fd (fd_offset e) t = t.
Proof.
  unfold fd_lookup, fd_row. destruct (_ || _ || _); [done|]. destruct (t !! Z.to_nat pid) as [row|] eqn:Er; [|done]. cbn.
  destruct (row !! Z.to_nat (fd - AEGIS_FD_FIRST)) as [e'|] eqn:Ee; [|done]. cbn. destruct (fd_used e'); [|done]. intros [= ->]. unfold fd_set_offset.
  apply list_alter_same. intros r Hr. rewrite Er in Hr. injection Hr as <-. apply list_alter_same. intros e2 He. rewrite Ee in He. injection He as <-. by destruct e.
Qed.
Lemma fd_set_offset_twice pid fd o o' t : fd_set_offset pid fd o' (fd_set_offset pid fd o t) = fd_set_offset pid fd o' t.
Proof.
  unfold fd_set_offset. rewrite list_alter_alter. apply list_alter_ext; [|done]. intros row _. by rewrite list_alter_alter.
Qed.

Lemma read_done_nil pid fd buf s e : fd_lookup pid fd (k_fds (sy_k s)) = Some e → read_done pid fd buf [] s s.
Proof.
  intros He. split; [intros x; by rewrite store_bytes_nil| |done|done]. unfold offset_at. rewrite He. cbn. rewrite Z.add_0_r. destruct s as [? k], k. cbn in *.
  by rewrite (fd_set_offset_id _ _ _ _ He).
Qed.

Lemma read_done_app pid fd buf a b s t u e :
  read_done pid fd buf a s t → read_done pid fd (buf + Z.of_nat (length a)) b t u → fd_lookup pid fd (k_fds (sy_k s)) = Some e →
  read_done pid fd buf (a ++ b) s u.
Proof.
  intros [Hm Hk Hp Hf] [Hm' Hk' Hp' Hf'] He. split; [| |congruence|congruence].
  - intros x. rewrite Hm'. rewrite (store_bytes_ext _ _ _ _ _ Hm). apply store_bytes_app.
  - rewrite Hk'. unfold offset_at. rewrite Hk. cbn. rewrite (fd_set_offset_offset _ _ _ _ _ He). cbn. rewrite fd_set_offset_twice.
    unfold offset_at. rewrite He. cbn. by rewrite length_app, Nat2Z.inj_add, Z.add_assoc.
Qed.

(** One chunk: the copy and the new offset. *)
Lemma read_chunk pid fd buf d data s e :
  fd_lookup pid fd (k_fds (sy_k s)) = Some e → 0 ≤ buf + d → buf + d + Z.of_nat (length data) < 2 ^ 64 →
  0 ≤ fd_offset e → fd_offset e + Z.of_nat (length data) < 2 ^ 64 →
  data ≠ [] → user_write_range_ok (buf + d) (Z.of_nat (length data)) s = true →
  ∃ t, copy_to_user_checked (u64 (buf + d)) data s = Some (AEGIS_OK, t) ∧
    read_done pid fd (buf + d) data s (advance pid fd (Z.of_nat (length data)) t).
Proof.
  intros He Hb Hb' Ho Ho' Hd Hok. unfold copy_to_user_checked. rewrite u64_small by lia. rewrite Hok.
  destruct data as [|c l]; [done|]. rewrite (proj2 (Z.eqb_neq _ _)) by (cbn; lia). cbn [orb negb]. eexists. split; [done|].
  split; [done| |done|done]. unfold advance, offset_at. cbn -[length]. rewrite He. cbn -[length]. by rewrite u64_small by lia.
Qed.

Lemma read_file_spec n pid fd vn content buf len d s e :
  len - d ≤ Z.of_nat n → 0 ≤ d ≤ len → reg buf → len < 2 ^ 64 → user_write_range_ok buf len s = true →
  fd_lookup pid fd (k_fds (sy_k s)) = Some e → 0 ≤ fd_offset e → fd_offset e + (len - d) < 2 ^ 64 → reads_as vn content s →
  ∃ s', read_file n pid fd vn buf len d s = Some (d + Z.of_nat (length (rest content (fd_offset e) (len - d))), s') ∧
    read_done pid fd (buf + d) (rest content (fd_offset e) (len - d)) s s'.
Proof.
  revert d s e. induction n as [|n IH]; intros d s e Hn Hd Hb Hl Hw He Ho Ho' Hr; cbn [read_file].
  { rewrite (proj2 (Z.ltb_ge _ _)) by lia. exists s. replace (len - d) with 0 by lia. split; [cbn; by rewrite Z.add_0_r|by eapply read_done_nil]. }
  destruct (Z.ltb_spec d len) as [Hlt|]; [|exists s; replace (len - d) with 0 by lia; split; [cbn; by rewrite Z.add_0_r|by eapply read_done_nil]].
  pose proof (io_chunk_le (len - d)) as Hc. set (chunk := io_chunk (len - d)) in *.
  assert (0 < chunk ≤ len - d) as Hc'. { unfold chunk, io_chunk, AEGIS_SYSCALL_IO_CHUNK. destruct (Z.ltb_spec (len - d) 128); lia. }
  clearbody chunk. unfold mbind at 1, M_bind at 1, gets. unfold offset_at at 1. rewrite He. cbn [from_option].
  unfold mbind at 1, M_bind at 1, file_read. rewrite (Hr (fd_offset e) chunk) by lia. fold (rest content (fd_offset e) chunk). cbn [mbind option_bind].
  set (data := rest content (fd_offset e) chunk) in *.
  assert (Z.of_nat (length data) ≤ chunk) as Hdl by (unfold data, rest; rewrite length_take; lia).
  rewrite (proj2 (Z.ltb_ge _ _)) by lia. destruct (Z.eqb_spec (Z.of_nat (length data)) 0) as [H0'|H0'].
  { exists s. rewrite (rest_short _ _ _ chunk) by (unfold data in *; lia). fold data. destruct data as [|]; [|cbn in H0'; lia]. rewrite Z.add_0_r.
    split; [by destruct s|by eapply read_done_nil]. }
  rewrite (proj2 (Z.ltb_ge _ _)) by lia. rewrite Nat2Z.id, take_ge by done.
  destruct (user_write_range_ok_sub _ _ _ (buf + d) (Z.of_nat (length data)) Hw Hb Hl) as [Hnw Hw']; [lia..|].
  assert (data ≠ []) as Hne by (intros E; rewrite E in H0'; done).
  replace (s <| sy_files := sy_files s |>) with s by by destruct s.
  destruct (read_chunk pid fd buf d data s e) as (t & Et & Hdone); [done|unfold reg in Hb; lia..|done|done|].
  unfold mbind at 1, M_bind at 1. rewrite Et. rewrite Z.eqb_refl. cbn [negb]. unfold mbind at 1, M_bind at 1, upd.
  destruct (Z.ltb_spec (Z.of_nat (length data)) chunk) as [Hs|Hs].
  { exists (advance pid fd (Z.of_nat (length data)) t). rewrite (rest_short _ _ _ chunk) by (unfold data in *; lia). done. }
  rewrite (rest_step content (fd_offset e) (len - d) chunk) by (fold data; lia).
  fold data. clearbody data. assert (chunk = Z.of_nat (length data)) as -> by lia. set (u := advance _ _ _ _) in *. replace (len - d - Z.of_nat (length data)) with (len - (d + Z.of_nat (length data))) by lia.
  destruct Hdone as [Hm Hk Hp Hf] eqn:Hdone'. clear Hdone'. assert (offset_at pid fd s = fd_offset e) as Hoff by (unfold offset_at; by rewrite He).
  destruct (IH (d + Z.of_nat (length data)) u (e <| fd_offset := fd_offset e + Z.of_nat (length data) |>)) as (s' & Es' & Hdone2);
    [lia|lia|done|done| | |cbn; lia|cbn; lia| |].
  - rewrite <- Hw. apply writable_same; [done|by rewrite Hk..].
  - rewrite Hk, Hoff. cbn. by apply fd_set_offset_offset.
  - intros o l Hol Hll. unfold reads_as in Hr. rewrite Hf, Hk. by apply Hr.
  - exists s'. cbn in Es'. rewrite Es'. split; [do 2 f_equal; rewrite length_app; lia|].
    eapply read_done_app; [by split|by rewrite <- Z.add_assoc|done].
Qed.

Lemma null_not_writable len s : user_write_range_ok 0 len s = false.
Proof.
  assert (∀ id e, elf_loader_slot_write_range_ok id 0 len e = false) as Hz.
  { intros id e. unfold elf_loader_slot_write_range_ok. destruct (runtime_slot_from_id id e) as [sl|]; [|done].
    unfold slot_range_ok. cbn. induction (segments sl) as [|g l IH]; [done|]. cbn. by rewrite andb_false_r. }
  unfold user_write_range_ok, elf_loader_runtime_write_range_ok, process_current_user_write_range_ok. cbn [pe_slot_write_ok kernel_env].
  destruct (negb _); [case_match; [by rewrite Hz|done]|]. by rewrite Hz, andb_false_r.
Qed.

(** C4: reading a file through a descriptor. A read of [len] bytes into a buffer
    that the caller may write returns the bytes of the file from the offset of
    the descriptor on, as many as there are up to [len]; exactly these bytes are
    stored, at the start of the buffer, and the offset advances by their number.
    The loop over chunks of 128 bytes is thus one read. *)
Theorem sys_read_file fd buf len content s vn off :
  fd_get (getpid s) fd false (k_fds (sy_k s)) = Some (vn, off) → reads_as vn content s →
  reg buf → 0 < len < 2 ^ 64 → user_write_range_ok buf len s = true → 0 ≤ off → off + len < 2 ^ 64 →
  ∃ s', sys_read fd buf len s = Some (Z.of_nat (length (rest content off len)), s') ∧
    read_done (getpid s) fd buf (rest content off len) s s'.
Proof.
  intros Hg Hr Hb Hl Hw Ho Ho'. unfold fd_get in Hg. destruct (fd_lookup (getpid s) fd _) as [e|] eqn:He; [|done]. cbn in Hg.
  assert (AEGIS_FD_FIRST ≤ fd < AEGIS_FD_FIRST + 32) as Hfd.
  { unfold fd_lookup in He. destruct (_ || _ || _) eqn:E; [done|]. apply orb_false_iff in E as [[_ E1%Z.ltb_ge]%orb_false_iff E2%Z.leb_gt].
    unfold AEGIS_FD_MAX_PER_PROCESS in E2. lia. }
  unfold AEGIS_FD_FIRST in Hfd. assert (s32 fd = fd) as Hs by (unfold s32; divlia).
  unfold sys_read. unfold mbind at 1, M_bind at 1, gets at 1. rewrite Hw. assert (buf ≠ 0) as Hb0 by (intros ->; by rewrite null_not_writable in Hw).
  rewrite (proj2 (Z.eqb_neq buf 0)), (proj2 (Z.eqb_neq len 0)), (proj2 (Z.eqb_neq fd 0)) by lia. cbn [orb negb].
  unfold mbind at 1, M_bind at 1, gets at 1. rewrite (proj2 (Z.leb_gt _ _)) by (unfold AEGIS_SOCKET_FD_BASE; lia). rewrite Hs.
  unfold mbind at 1, M_bind at 1, gets at 1, fd_get. rewrite He. cbn [mbind option_bind]. destruct (fd_readable e); [|done].
  destruct (fd_object e) as [o|]; [|done]. injection Hg as -> <-. cbn [mbind option_bind].
  destruct (read_file_spec (Z.to_nat len) (getpid s) fd vn content buf len 0 s e) as (s' & E & Hd); [lia..|done|lia|done|done|lia|lia|done|].
  rewrite Z.sub_0_r, Z.add_0_r in *. eauto.
Qed.

(** * Process numbers *)

Definition none_new (s s' : sys) : Prop := no_new (sy_procs s) (sy_procs s').
#[local] Instance none_new_refl : Reflexive none_new.
Proof. intros s. apply no_new_refl. Qed.
#[local] Instance none_new_trans : Transitive none_new.
Proof. intros s t u. apply no_new_trans. Qed.
Lemma same_none_new {R} (m : M R) : stable same_procs m → stable none_new m.
Proof. apply stable_mono. intros s s' E. unfold none_new. rewrite E. apply no_new_refl. Qed.
Lemma on_procs_none_new {R} (f : procs → kernel H → option (R * procs * kernel H)) :
  (∀ p k r p' k', f p k = Some (r, p', k') → no_new p p') → stable none_new (on_procs f).
Proof. intros Hf s x s' E%run_procs. by eapply Hf. Qed.
Lemma kill_none_new pid sg : stable none_new (kill pid sg).
Proof. apply on_procs_none_new. intros p k r p' k' E. by eapply process_kill_no_new. Qed.
Lemma exit_none_new code s r s' : sys_exit code s = Some (r, s') → procs_inv (sy_procs s) → none_new s s'.
Proof.
  unfold sys_exit. intros E%run_procs Hinv. cbn beta in E. bind_inv E. destruct p as [p1 k1]. injection E as _ -> ->. by eapply process_exit_no_new.
Qed.
Lemma sys_cap_none_new pid cap : stable none_new (sys_cap_grant pid cap) ∧ stable none_new (sys_cap_revoke pid cap).
Proof.
  split; intros s x s' E; unfold sys_cap_grant, sys_cap_revoke in E; repeat (case_match; [injection E as _ <-; done|]).
  - unfold none_new. pose proof (proj1 (process_caps_no_new (u32 pid) cap (sy_procs s))) as Hn. destruct (process_grant_cap _ _ _). by injection E as _ <-.
  - unfold none_new. pose proof (proj2 (process_caps_no_new (u32 pid) cap (sy_procs s))) as Hn. destruct (process_revoke_cap _ _ _) as [rc q]. cbn in Hn.
    destruct (negb (rc =? _)); [by injection E as _ <-|]. destruct (cap_revoke _ _). by injection E as _ <-.
Qed.
Lemma sys_kill_none_new pid sg : stable none_new (sys_kill pid sg).
Proof.
  unfold sys_kill. destruct (_ || _); [exact (stable_ret _ _)|].
  do 4 (apply stable_bind; [apply _|exact (stable_gets _ _)|intros ?]). repeat case_match; [exact (stable_ret _ _)..|apply kill_none_new].
Qed.
Lemma sys_waitpid_none_new pid ptr opt : reg ptr → stable none_new (sys_waitpid pid ptr opt).
Proof.
  intros Hp. unfold sys_waitpid. destruct (_ && _); [exact (stable_ret _ _)|]. apply stable_bind; [apply _| |intros [[rc rp] code]].
  - destruct (_ || _).
    + apply stable_bind; [apply _|exact (stable_gets _ _)|intros me]. apply stable_bind; [apply _| |intros [rc r]; exact (stable_ret _ _)].
      apply on_procs_none_new. intros p k r p' k' E. cbn beta in E. bind_inv E. destruct p0 as [[[? ?] ?] ?]. injection E as _ <- <-. by eapply process_wait_any_no_new.
    + apply stable_bind; [apply _| |intros [rc r]; exact (stable_ret _ _)].
      apply on_procs_none_new. intros p k r p' k' E. cbn beta in E. bind_inv E. destruct p0 as [[[? ?] ?] ?]. injection E as _ <- <-. by eapply process_wait_no_new.
  - apply same_none_new, contained_procs. contain; [done|by rewrite le_length].
Qed.
Lemma sys_shutdown_none_new mode reason : stable none_new (sys_shutdown mode reason).
Proof.
  unfold sys_shutdown. do 2 (apply stable_bind; [apply _|exact (stable_gets _ _)|intros ?]). destruct (_ && _); [exact (stable_ret _ _)|].
  apply stable_bind; [apply _|apply same_none_new, contained_procs, on_sup_contained|intros _]. apply stable_bind; [apply _| |intros _].
  - unfold system_shutdown_request. apply stable_bind; [apply _|exact (stable_gets _ _)|intros p]. destruct (g_requested p); [exact (stable_ret _ _)|].
    apply stable_bind; [apply _|apply same_none_new; by apply stable_upd|intros _]. apply stable_bind; [apply _| |intros ?; exact (stable_ret _ _)].
    apply on_procs_none_new. intros p1 k r p' k' E. by eapply process_terminate_no_new.
  - apply same_none_new. repeat case_match; by intros s y s' [= _ <-].
Qed.

(** A spawn creates at most one record. *)
Definition grown (s s' : procs) : Prop := procs_inv s' ∧ next_pid s ≤ next_pid s' ≤ next_pid s + 1.
Lemma none_new_grown s s' : none_new s s' → procs_inv (sy_procs s) → grown (sy_procs s) (sy_procs s').
Proof. intros Hn Hinv. split; [by eapply no_new_inv|]. destruct Hn as [-> _]. lia. Qed.

Lemma spawn_supervise_none_new f pid b : stable none_new (spawn_supervise f pid b).
Proof.
  unfold spawn_supervise. apply stable_bind; [apply _|apply same_none_new, contained_procs, on_sup_contained|intros rc]. destruct (negb _).
  - apply stable_bind; [apply _|apply kill_none_new|intros _; exact (stable_ret _ _)].
  - apply same_none_new, contained_procs. contain.
Qed.

Lemma spawn_image_grown f path b s r s' :
  spawn_image f path b s = Some (r, s') → procs_inv (sy_procs s) → 0 < next_pid (sy_procs s) < 2 ^ 32 - 1 → grown (sy_procs s) (sy_procs s').
Proof.
  unfold spawn_image. intros (v & s1 & E1 & E)%run_bind. pose proof (load_vfs_path_procs _ _ _ _ E1) as Hs. unfold same_procs in Hs. rewrite <- Hs. clear E1 Hs.
  intros Hinv Hnp. destruct v as [rc|image]; [injection E as _ <-; split; [done|lia]|]. apply run_bind in E as ([] & s2 & [= <-] & E).
  rewrite <- (show_slot_procs (runtime_slot image) s1) in Hinv, Hnp |- *. revert E Hinv Hnp. generalize (show_slot (runtime_slot image) s1). intros t E Hinv Hnp.
  apply run_bind in E as (ppid & s2 & [= <- <-] & E). apply run_bind in E as (child & s2 & E1 & E). apply run_procs in E1.
  destruct (pstep_inv (m_task_entry mc) OSpawn _ _ (st_spawn _ _ _ _ _ _ _ _ _ E1) Hinv Hnp) as [Hinv2 Hle]. cbn [fst] in Hinv2, Hle.
  assert (none_new s2 s') as Hn; [|split; [by eapply no_new_inv|]; destruct Hn as [-> _]; lia]. apply (run_stable _ _ _ _ _ E). destruct child as [i|].
  - apply stable_bind; [apply _|exact (stable_gets _ _)|intros pid]. apply stable_bind; [apply _|apply same_none_new, contained_procs, on_user_contained|intros rc].
    destruct (negb (rc =? _)); [apply stable_bind; [apply _|apply kill_none_new|intros _; exact (stable_ret _ _)]|].
    destruct (negb _); [apply spawn_supervise_none_new|exact (stable_ret _ _)].
  - apply stable_bind; [apply _| |intros _; exact (stable_ret _ _)]. apply on_procs_none_new. intros p k r1 p' k' E2. cbn beta in E2.
    destruct (pe_release_slot _ _). injection E2 as _ <- _. apply no_new_refl.
Qed.

Lemma sys_spawn_grown p s r s' :
  sys_spawn p s = Some (r, s') → procs_inv (sy_procs s) → 0 < next_pid (sy_procs s) < 2 ^ 32 - 1 → grown (sy_procs s) (sy_procs s').
Proof.
  unfold sys_spawn. intros (v & s1 & Ev%run_string & E)%run_bind Hinv Hnp. subst s1. destruct v as [rc|path]; [injection E as _ <-; split; [done|lia]|].
  apply run_bind in E as (u & s2 & [= <- <-] & E). destruct (_ ≫= _) as [f|]; [|injection E as _ <-; split; [done|lia]].
  destruct (_ =? 0) in E; [injection E as _ <-; split; [done|lia]|]. destruct (negb _) in E; [injection E as _ <-; split; [done|lia]|].
  apply run_bind in E as (b & s3 & [= <- <-] & E). apply run_bind in E as (now & s4 & [= <- <-] & E). apply run_bind in E as (rc & s5 & E1 & E).
  assert (sy_procs s5 = sy_procs s) as Hs. { apply (run_stable same_procs _ _ _ _ E1), contained_procs. contain. }
  rewrite <- Hs in Hinv, Hnp |- *. destruct (negb _) in E; [injection E as _ <-; split; [done|lia]|]. by eapply spawn_image_grown.
Qed.

(** Every system call keeps the process numbers unique and below [next_pid],
    which it advances at most by one. *)
Lemma dispatch_inv nr a0 a1 a2 s r s' :
  syscall_dispatch nr a0 a1 a2 s = Some (r, s') → reg a1 → procs_inv (sy_procs s) → 0 < next_pid (sy_procs s) < 2 ^ 32 - 1 →
  grown (sy_procs s) (sy_procs s').
Proof.
  intros E Ha Hinv Hnp. destruct (decide (nr = 13)) as [->|Hs]; [exact (sys_spawn_grown _ _ _ _ E Hinv Hnp)|]. apply none_new_grown; [|done].
  destruct (decide (nr ∈ process_calls)) as [Hn|Hn].
  - unfold process_calls in Hn. repeat (apply elem_of_cons in Hn as [->|Hn]); [..|by apply not_elem_of_nil in Hn].
    + exact (exit_none_new _ _ _ _ E Hinv).
    + exact (proj1 (sys_cap_none_new _ _) _ _ _ E).
    + exact (proj2 (sys_cap_none_new _ _) _ _ _ E).
    + exact (same_none_new _ sys_yield_procs _ _ _ E).
    + done.
    + exact (sys_waitpid_none_new _ _ _ Ha _ _ _ E).
    + exact (sys_kill_none_new _ _ _ _ _ E).
    + exact (same_none_new _ (sys_sleep_procs _) _ _ _ E).
    + exact (sys_shutdown_none_new _ _ _ _ _ E).
  - exact (same_none_new _ (contained_procs _ (dispatch_contained _ _ _ _ Hn Ha)) _ _ _ E).
Qed.
End syscalls.

(** * A running system *)

(** Process 1 runs, process 2 is its child; the archive of Initramfs.v is mounted,
    and a path is in the memory of process 1. *)
Definition mounted_archive : Z * vfs_state * initramfs :=
  default (0, example_vfs, empty_initramfs)
    (initramfs_mount (λ _, initramfs_vfs) 0 (Some (cpio_archive example_archive)) example_vfs empty_initramfs).
Definition example_machine : machine initramfs :=
  mk_machine (λ _, initramfs_vfs) example_image_addr example_stack_addr 0x80000 0x40000000 62500000 id.
#[local] Existing Instance example_machine.
Abbreviation example_sys := (sys heap_state phys_state initramfs).
Definition init_sys : example_sys :=
  mk_sys with_child.1 (with_child.2 <| k_vfs := mounted_archive.1.2 |>) example_ipc example_caps example_vm mounted_archive.2
    (store_bytes 0x500100 (bytes_of "/etc/motd" ++ [0]) (λ _, 0)) [] [] [1000; 62501000; 125001000] (Some 1700000000)
    (mk_entropy false [] [] 0 0 false) false (mk_power false 0 0 None).
(** The same, with process 2 running. *)
Definition child_sys : example_sys := init_sys <| sy_k ::= run_task child_task |>.

Definition motd_open : Z * example_sys := default (0, init_sys) (sys_open 0x500100 init_sys).

Lemma motd_handle :
  fd_get (getpid motd_open.2) 3 false (k_fds (sy_k motd_open.2)) = Some (0%nat, 0) ∧ motd_open.1 = 3 ∧
  open_vnodes (k_vfs (sy_k motd_open.2)) !! 0%nat = Some (mk_vnode 1 0 (Some 0%nat) (Some 0%nat) true "etc/motd").
Proof. vm_compute. split_and!; reflexivity. Qed.

Lemma motd_entry : ∃ l, lookup_entry (Some "etc/motd"%string) (sy_files motd_open.2) = Some (ient_of (mk_cfile "etc/motd" 0x81a4 (bytes_of "hello")) l).
Proof. eexists (drop 5 (ie_data (default zero_ient (lookup_entry (Some "etc/motd"%string) (sy_files motd_open.2))))). vm_compute. reflexivity. Qed.

Lemma motd_reads : reads_as 0 (bytes_of "hello") motd_open.2.
Proof.
  intros off len Hoff Hlen. unfold vfs_read, handle_ops. cbn [mbind option_bind]. rewrite (proj2 (proj2 motd_handle)). cbn [mbind option_bind vn_ops].
  change (fs_ops (m_vfs example_machine 0%nat)) with (Some initramfs_ops). cbn [mbind option_bind op_read initramfs_ops].
  destruct motd_entry as [l Hl]. by apply (initramfs_read_entry _ _ _ _ (mk_cfile "etc/motd" 0x81a4 (bytes_of "hello")) l); [|lia..|].
Qed.

(** Process 1 opens /etc/motd and reads up to ten bytes of it. *)
Lemma sys_read_file_witness :
  ∃ s', sys_read 3 0x500000 10 motd_open.2 = Some (5, s') ∧ fetch_bytes 0x500000 6 (sy_mem s') = bytes_of "hello" ++ [0].
Proof.
  destruct (sys_read_file (mc := example_machine) 3 0x500000 10 (bytes_of "hello") motd_open.2 0 0) as (s' & E & [Hm _ _ _]).
  - exact (proj1 motd_handle).
  - exact motd_reads.
  - split; lia.
  - lia.
  - vm_compute. reflexivity.
  - lia.
  - lia.
  - exists s'. split; [exact E|]. unfold fetch_bytes. cbn [seq fmap list_fmap]. rewrite !Hm. vm_compute. reflexivity.
Defined.

Definition after_read : Z * example_sys := default (0, init_sys) (syscall_dispatch 0 3 0x500000 10 motd_open.2).
Lemma after_read_run : syscall_dispatch 0 3 0x500000 10 motd_open.2 = Some (after_read.1, after_read.2).
Proof.
  unfold after_read. destruct (syscall_dispatch _ _ _ _ _) as [[r s]|] eqn:E; [done|].
  assert (bool_decide (is_Some (syscall_dispatch 0 3 0x500000 10 motd_open.2)) = true) as Hs by (vm_compute; reflexivity).
  rewrite E in Hs. done.
Qed.


(** The calls below succeed; their results are taken out of the option. *)
Definition outcome (nr a0 a1 a2 : Z) (s : example_sys) : Z * example_sys := default (0, s) (syscall_dispatch nr a0 a1 a2 s).
Lemma outcome_run nr a0 a1 a2 s :
  bool_decide (is_Some (syscall_dispatch nr a0 a1 a2 s)) = true →
  syscall_dispatch nr a0 a1 a2 s = Some ((outcome nr a0 a1 a2 s).1, (outcome nr a0 a1 a2 s).2).
Proof. unfold outcome. intros [[r t] E]%bool_decide_eq_true. by rewrite E. Qed.

(** Process 2 creates a socket; the file that process 1 has open is the same. *)
Definition motd_child : example_sys := motd_open.2 <| sy_k ::= run_task child_task |>.

Lemma with_child_inv : procs_inv with_child.1.
Proof. apply (ptrace_inv _ _ _ _ with_child_trace); [by apply process_init_inv|vm_compute; reflexivity..]. Qed.


(** Process 1 holds capability 1 and grants it to process 2. *)
Definition granting : example_sys := init_sys <| sy_procs ::= λ p, (process_grant_cap 1 1 p).2 |>.
Lemma granting_inv : procs_inv (sy_procs granting) ∧ caps_ok (sy_procs granting).
Proof.
  split; [exact (no_new_inv _ _ (proj1 (process_caps_no_new 1 1 with_child.1)) with_child_inv)|].
  assert (forallb (λ p, (length (pr_cap_set p) =? 16)%nat && (0 <=? pr_cap_count p) && (pr_cap_count p <=? 16)) (proc_table (sy_procs granting)) = true) as Hf
    by (vm_compute; reflexivity).
  intros i p Hp. rewrite forallb_forall in Hf. specialize (Hf p (proj1 (list_elem_of_In _ _) (list_elem_of_lookup_2 _ _ _ Hp))).
  apply andb_true_iff in Hf as [[Hl%Nat.eqb_eq Hlo%Z.leb_le]%andb_true_iff Hhi%Z.leb_le].
  exact (conj Hl (conj Hlo Hhi)).
Qed.

Lemma capability_confinement_witness :
  let s' := (outcome 10 2 1 0 granting).2 in
  let p' := default zero_process (proc_table (sy_procs s') !! 1%nat) in
  caps_of p' = [1] ∧ process_has_cap (getpid granting) 1 (sy_procs granting) = true.
Proof.
  intros s' p'. split; [vm_compute; reflexivity|].
  destruct (capability_confinement (mc := example_machine) 10 2 1 0 granting (outcome 10 2 1 0 granting).1 s' 1 p') as [_ Hin].
  - apply outcome_run. vm_compute. reflexivity.
  - split; lia.
  - exact (proj1 granting_inv).
  - exact (proj2 granting_inv).
  - vm_compute. reflexivity.
  - destruct (Hin 1) as [(p & Hp & _ & Hc)|(_ & _ & _ & [Hg|Hg])].
    + vm_compute. left.
    + exfalso. revert Hp Hc. vm_compute. intros [= <-] Hc. by apply not_elem_of_nil in Hc.
    + vm_compute in Hg. discriminate Hg.
    + exact Hg.
Defined.

(** * What the code does otherwise *)

(** A shutdown with an unknown mode kills every other process and then returns
    an error: the mode is looked at last. *)
Lemma shutdown_unknown_mode :
  let '(rc, s') := outcome 24 7 0 0 init_sys in
  rc = AEGIS_EINVAL ∧ pr_state <$> (proc_table (sy_procs init_sys) !! 1%nat) = Some PROC_STATE_RUNNING ∧
  pr_state <$> (proc_table (sy_procs s') !! 1%nat) = Some PROC_STATE_ZOMBIE ∧ pw_halted (sy_power s') = None.
Proof. vm_compute. split_and!; reflexivity. Qed.

(** waitpid with a pointer that the caller may not write fails after the child
    was released: its exit code is lost. *)
Lemma waitpid_loses_code :
  let s1 := (outcome 21 2 9 0 init_sys).2 in
  let '(rc, s2) := outcome 14 2 8 0 s1 in
  rc = AEGIS_EINVAL ∧ pr_state <$> (proc_table (sy_procs s1) !! 1%nat) = Some PROC_STATE_ZOMBIE ∧
  pr_state <$> (proc_table (sy_procs s2) !! 1%nat) = Some PROC_STATE_EMPTY ∧ (outcome 14 2 0x500000 0 s2).1 = AEGIS_ENOENT.
Proof. vm_compute. split_and!; reflexivity. Qed.

(** A signal is not reported to the supervisor: a service that was killed is
    still running for it, and [sys_console_ready] goes by that. *)
Lemma kill_keeps_supervisor {H A V} `{KernelHeap H} `{PageAllocator A} (s : sys H A V) pid sg rc s' :
  sys_kill pid sg s = Some (rc, s') → k_sup (sy_k s') = k_sup (sy_k s).
Proof.
  unfold sys_kill. destruct (_ || _); [by intros [= _ <-]|]. intros (c & s1 & [= <- <-] & E)%run_bind.
  apply run_bind in E as (t & s2 & [= <- <-] & E). apply run_bind in E as (q & s3 & [= <- <-] & E). apply run_bind in E as (st & s4 & [= <- <-] & E).
  destruct (bool_decide _); [by injection E as _ <-|]. destruct (_ && _ && _ && _); [by injection E as _ <-|]. apply run_procs in E.
  unfold process_kill in E. destruct (process_get _ _) as [i|]; [|by injection E as _ _ <-]. bind_inv E. destruct ((sg =? 9) || _) in E.
  - bind_inv E. injection E as _ _ <-. cbn [pe_socket_close_all pe_fd_close_all kernel_env] in E1. destruct (fd_close_all _ _ _) as [fds v].
    bind_inv E1. injection E1 as <-. destruct (pr_task p =? 0); [by injection E2 as <-|]. cbn [pe_task_destroy kernel_env] in E2. bind_inv E2. by injection E2 as <-.
  - repeat case_match; by injection E as _ _ <-.
Qed.

(** A datagram of 200 bytes, read by a caller with room for 512: the read goes
    through a buffer of 128 bytes, so that the rest of the datagram is dropped. *)
Definition with_datagram : example_sys :=
  init_sys <| sy_k ::= λ k, k <| k_socks :=
    mk_socks (mk_socket true 1 AEGIS_SOCK_DGRAM 7 0 0 0 false false :: replicate 63 zero_socket) 0 0
      (zero_net <| n_udp := [mk_udp 7 true (replicate 1472 5) 200 1 2 true] |>) |> |>.
Lemma recv_cuts_datagram :
  let '(rc, s') := outcome 31 AEGIS_SOCKET_FD_BASE 0x500000 512 with_datagram in
  rc = 128 ∧ us_rx_len <$> (n_udp (sk_net (k_socks (sy_k s'))) !! 0%nat) = Some 0.
Proof. vm_compute. split; reflexivity. Qed.
